(* ===== verification/_CoqProject ===== *)
-Q . S2P
Prelude.v
GoLib.v
Types.v
RowCodec.v
Page.v
PageCache.v
TableFile.v
TableSpec.v
Crypto.v
Json.v
Wal.v
Storage.v
StorageSpec.v
Lexer.v
Ast.v
Parser.v
ParserDml.v
ParserSpec.v
Print.v
ParserRun.v
ParserRoundTrip.v
ParserQuery.v
Functions.v
FunctionsSpec.v
Script.v
ScriptSpec.v
Auth.v
Eval.v
EvalSpec.v
TypeSpec.v
Select.v
SelectSpec.v
Dml.v
Engine.v
EngineExamples.v
EngineSpec.v
Placeholders.v
Fts.v
FtsSpec.v
FtsEngine.v
Protocol.v
ProtocolSpec.v
Server.v
ServerSpec.v
Url.v
Dsn.v
DsnSpec.v
Driver.v
Converter.v
Import.v
ImportSpec.v
FileSys.v
Transfer.v
WebDav.v
WebDavSpec.v
Sftp.v
Smb.v
FileSysSpec.v
Keys.v
KeysSpec.v
Regex.v
Console.v
ConsoleSpec.v
Queries.v
Sources.v
FromMysql.v
FromPostgres.v
FromMssql.v
FromOracle.v
FromSqlite.v
SourcesSpec.v
Migration.v
MigrationSpec.v
Folders.v
FoldersSpec.v
Command.v
CommandSpec.v
Blobs.v
BlobsSpec.v
Logger.v
