(* ===== verification/Prelude.v ===== *)
(** * xxldb: a verification library for an embedded SQL database

    xxldb (package [github.com/topxeq/xxldb]) is an SQL database in Go: a
    parser and an evaluator of SQL, a storage of slotted pages behind a cache
    with a write-ahead log and an optional cipher, full-text indexes, a driver
    for database/sql, a server that speaks the protocol of MySQL, importers
    from five other databases, file systems on this host and on servers, and a
    console. This library models that program as executable definitions and
    proves what its parts promise each other. Definitions keep the names of the
    Go functions where Rocq allows it; each file says at its top what it holds.

    ** Conventions

    Bytes and Go strings are lists of [byte]; integers are [Z], with the
    wrap-around of their width written out ([u8] ... [i64]) where the code
    computes with it; floats are binary64 of the Standard Library with Go's
    conversions. A call ends as an [outcome]: [Ok], an error [Err], a run-time
    panic [Panic], or [Hang] when it waits for ever, for a lock that is held
    or because a bound was too small. Code that changes state is a function in
    the monad [SO S E] from a state to an outcome and a state, with the
    notation of stdpp; what fails keeps the state it had reached. Go's maps are
    [gmap]s, and where the code goes through one the order is an argument
    ([MapOrder]) of which no more is known than that it is a permutation.

    ** The program from its text to its files

    - SQL as text. Lexer.v (parser/lexer.go), Ast.v (parser/ast.go), Parser.v
      and ParserDml.v (parser/parser.go, parser_dml.go). ParserSpec.v: every
      text is answered ([Parse_total]). Lexer.v, Print.v, ParserRun.v,
      ParserRoundTrip.v and ParserQuery.v: words and queries that are written
      are read back ([Tokenize_words], [ParseString_select]).
    - Values and evaluation. Types.v (types/types.go), Functions.v
      (function/functions.go), Script.v (script/script.go), Eval.v
      and Select.v (executor/executor.go). FunctionsSpec.v, ScriptSpec.v (the
      value of an arithmetic text is that of its tree), EvalSpec.v (LIKE against
      its relation), TypeSpec.v (a type of expressions and its soundness),
      SelectSpec.v (ORDER BY).
    - The engine. Dml.v and Engine.v (executor/executor_dml.go, executor.go),
      Auth.v (auth/auth.go). EngineExamples.v runs statements from their texts;
      EngineSpec.v has an abstract table and the refinement theorem
      [engine_refines_table]; Placeholders.v what arguments become in a
      statement.
    - The storage. RowCodec.v and Page.v (storage/page.go), PageCache.v
      (storage/pagecache.go), TableFile.v (storage/tablefile.go), Crypto.v
      (storage/crypto/crypto.go), Json.v and Wal.v (storage/wal.go, the
      marshalling of types/types.go), Storage.v (storage/storage.go with its
      callbacks), Keys.v (the metadata file and its encryption), Migration.v
      (storage/migration.go), Transfer.v (storage/transfer.go). TableSpec.v: a
      table file implements a list of pages of cells ([table_history]), and
      what it does outside of those histories; StorageSpec.v: the
      invariant of rows and identifiers; KeysSpec.v: passwords; MigrationSpec.v:
      what a migration leaves.
    - Files. FileSys.v (storage/fs.go: paths, and the interface; local files),
      WebDav.v, Sftp.v and Smb.v (the three on servers), Blobs.v (the files of
      large values), Folders.v (the functions on files and folders, backups,
      databases as directories).
      WebDavSpec.v and FileSysSpec.v: writes are all or nothing under requests
      that fail, are torn or lose their answers, over WebDAV only where the
      server moves atomically; BlobsSpec.v: the files simulate the map that
      Storage.v has in their place, and give values back as they were written;
      FoldersSpec.v: the files that are packed with bytes are unpacked, and
      where they are written to.
    - Full-text search. Fts.v (fts/fts.go), FtsEngine.v (its instance of what
      the engine asks for, its options, and examples), FtsSpec.v.
    - Outside. Protocol.v and Server.v (mysql/), Url.v, Dsn.v and Driver.v
      (driver/), Converter.v, Import.v, Queries.v, Sources.v and one From*.v for
      each database (import/), Regex.v, Console.v and Command.v (cmd/xxldb,
      xxldb.go), Logger.v (logger/). ProtocolSpec.v, ServerSpec.v (who is let in;
      a result reaches the client), DsnSpec.v, ImportSpec.v, SourcesSpec.v,
      ConsoleSpec.v, CommandSpec.v.

    A statement goes from Command.v or Server.v through Driver.v to
    [Engine.Execute], which parses it (ParserDml.v) and runs it (Dml.v, Select.v)
    on a [Storage]; a row goes from there through TableFile.v and Page.v to the
    bytes that RowCodec.v makes. The engine is one state, [Eval.Engine], with
    the storage, the authentication, the scripts and the full-text indexes.

    ** What the theorems show

    Refinements: the engine on a table in memory does, for statements of the
    basic forms, what functions on a list of identified rows do; a table file
    does what a list of rows does, for rows its format holds; the rows of a
    result, but for dates, are read by a client of MySQL from the bytes alone;
    metadata are replaced whole; large values are in their files. Round trips:
    rows, log records, encryption, words and queries, data source names,
    packets, joined statements, folders, a changed password. Invariants: the
    cache, the rows in memory, the state file of transfers where it can be
    written. Safety: a login needs the password; arguments stay single words;
    writes touch no other file. Termination: the parser. Errors: a wrong
    password changes nothing. The comment before each theorem names its
    conditions, and what is left out because the code does otherwise there.

    Not all of it holds, and the theorems say so where it does not: deleting or
    updating rows of a table file waits for a lock that it holds
    ([delete_update_deadlock]); a migration loses the rows; importers take a
    connection that breaks for the end of a table; the flags of the command do
    not reach the server of a database in memory; an unpacked folder can leave
    its target; dropping a database removes any directory; the old password is
    not checked when it is changed; a message of exactly the largest length to
    a client of MySQL runs on into the next. The examples next to them are runs
    of the definitions.

    ** Interfaces and what is a parameter

    Code outside of the repository, and what depends on the machine, is a class
    or a variable: [GoRuntime] (formatting and rounding of floats, and
    conversions whose result Go leaves open), [FunctionRuntime] (the
    mathematical functions, images, clock, random numbers, host functions
    called from SQL), [JSONRuntime], [RecordJSON], [ColumnJSON], [MetadataJSON],
    [MigrationJSON], [FolderJSON], [OptionJSON], [TransferJSON] (the texts of
    encoding/json),
    [Environment] (clock and random source of the log), [Digests] (SHA-1 and
    SHA-256), [FullText] (what the engine asks of full-text search, with
    FtsEngine.v as an instance), [Segmenter] and [SliceSort] (segmentation of
    Chinese, sort.Slice), [HostFiles], [HomeDirectory], [Openers] (opening
    databases by path or on servers), [ServerRuntime], [Drivers] (database/sql
    and the servers that are imported from), and [OsFiles], [OsDirs],
    [DavClient], [SftpClient], [SmbClient] (operating system and client
    libraries). Their laws, where a theorem needs any, are classes of their own
    ([OsLaws], [DavLaws], [SftpLaws], [SmbLaws], [HostLaws]) or variables
    that a group of lemmas shares; each is met by a concrete instance, such as the failing disk of
    FileSysSpec.v, in the witness that follows the theorem. [FileSystem] with
    [FileSystemLaws] is the interface between the storage and its file systems:
    the client is proved against it, and the three file systems on servers are
    shown to keep its laws, WebDAV where moves are atomic ([atomic_moves]).

    ** Bounds

    Loops that consume their input are bounded by its length: the lexer, the
    parser, URLs, regular expressions. Nested queries and expressions are parsed
    to a depth of the number of tokens left plus two, since each level consumes
    one; [Parse_total] shows that the bound is never reached. The [fuel] of
    table files, and of the engine above them, is the number of pages that are
    followed: the theorems of TableSpec.v need one more than the table has pages,
    and a chain that goes in a circle is the loop that does not end; a storage
    in memory uses none. Evictions of the cache need as much as the cache holds.
    Attempts at a request are as many as the configuration says.
    Directories are read to a depth that is an argument; where it is too small
    the result is [Hang], never a wrong answer. Decimal texts have at most 20
    digits, enough for 64 bits.

    ** Not modelled

    Interleavings of goroutines: an operation runs from its lock to its unlock
    as one step, and locks appear only where one goroutine takes one twice.
    Sockets, listening, TLS and the RSA exchange of passwords, which nothing
    calls; the text of JSON; the syntax of command-line flags and the terminal;
    errors of the file system below the table file and the log; statistics and
    plain accessors; the text of most error messages, which are constructors
    here. Backing up a database in memory, wrappers of file information, and
    the constants of types/errors.go are left out too. *)

From stdpp Require Export base gmap list strings.
From coqutil Require Export Word.LittleEndianList Byte.
From Stdlib Require Export ZArith Lia.
From Stdlib Require Import Strings.Byte.

(** ** Bytes

    A Go [byte] is a [byte] of the standard library; a Go [string] or
    [[]byte] is a list of them. *)

Abbreviation bytes := (list Init.Byte.byte).

#[global] Instance byte_eq_dec : EqDecision Init.Byte.byte := Byte.byte_eq_dec.

Lemma byte_of_to_N (b : Init.Byte.byte) : Byte.of_N (Byte.to_N b) = Some b.
Proof. apply Byte.of_to_N. Qed.

#[global] Instance byte_countable : Countable Init.Byte.byte :=
  inj_countable Byte.to_N Byte.of_N byte_of_to_N.

(** A Go string literal. *)
Definition str (s : string) : bytes := String.list_byte_of_string s.

Declare Scope golib_scope.
Delimit Scope golib_scope with go.

(** ** Machine integers, as [Z] with the wrap-around written out. *)

Definition u8 (z : Z) : Z := z mod 2 ^ 8.
Definition u16 (z : Z) : Z := z mod 2 ^ 16.
Definition u32 (z : Z) : Z := z mod 2 ^ 32.
Definition u64 (z : Z) : Z := z mod 2 ^ 64.
Definition i64 (z : Z) : Z := (z + 2 ^ 63) mod 2 ^ 64 - 2 ^ 63.
Definition i32 (z : Z) : Z := (z + 2 ^ 31) mod 2 ^ 32 - 2 ^ 31.

Definition in_u8 (z : Z) : Prop := (0 <= z < 2 ^ 8)%Z.
Definition in_u16 (z : Z) : Prop := (0 <= z < 2 ^ 16)%Z.
Definition in_u32 (z : Z) : Prop := (0 <= z < 2 ^ 32)%Z.
Definition in_u64 (z : Z) : Prop := (0 <= z < 2 ^ 64)%Z.
Definition in_i64 (z : Z) : Prop := (- 2 ^ 63 <= z < 2 ^ 63)%Z.

(** [len x] of Go, an [int]. *)
Definition zlen {A} (l : list A) : Z := Z.of_nat (length l).

(** ** Results of Go functions

    A call returns a value, returns an error, panics at run time, or never
    returns because it waits for a lock that the same goroutine holds. *)

Inductive outcome (E A : Type) : Type :=
  | Ok (a : A)
  | Err (e : E)
  | Panic
  | Hang.
Arguments Ok {E A} a.
Arguments Err {E A} e.
Arguments Panic {E A}.
Arguments Hang {E A}.

#[global] Instance outcome_ret {E} : MRet (outcome E) := fun _ a => Ok a.
#[global] Instance outcome_bind {E} : MBind (outcome E) := fun _ _ k m =>
  match m with
  | Ok a => k a
  | Err e => Err e
  | Panic => Panic
  | Hang => Hang
  end.
#[global] Instance outcome_fmap {E} : FMap (outcome E) := fun _ _ f m =>
  match m with
  | Ok a => Ok (f a)
  | Err e => Err e
  | Panic => Panic
  | Hang => Hang
  end.

Definition is_ok {E A} (m : outcome E A) : bool :=
  match m with Ok _ => true | _ => false end.

(** ** Little-endian fields (encoding/binary) *)

Definition put_le (n : nat) (z : Z) : bytes := LittleEndianList.le_split n z.
Definition get_le (bs : bytes) : Z := LittleEndianList.le_combine bs.

Arguments put_le : simpl never.
Arguments get_le : simpl never.

(** ** Slices: [l[lo:hi]] for [lo <= hi <= len l] *)

Definition slice {A} (lo hi : nat) (l : list A) : list A := take (hi - lo) (drop lo l).

(** [copy(dst[off:], src)], which stops at the end of [dst]. *)
Definition copy_at {A} (off : nat) (src dst : list A) : list A :=
  take off dst ++ take (length dst - off) src ++ drop (off + length src) dst.

(** ** Automation *)

Create HintDb golib discriminated.

(** Case analysis on the scrutinee of the first [match] or [if] of a
    hypothesis or the goal. *)
Ltac case_in H :=
  match type of H with
  | context [match ?x with _ => _ end] => destruct x eqn:?
  end.
Ltac case_goal :=
  match goal with
  | |- context [match ?x with _ => _ end] => destruct x eqn:?
  end.

(** Boolean tests on [Z] in the context as propositions. *)
Ltac zbool :=
  repeat match goal with
  | H : (_ && _)%bool = true |- _ => apply andb_true_iff in H as [? ?]
  | H : (_ || _)%bool = false |- _ => apply orb_false_iff in H as [? ?]
  | H : negb _ = true |- _ => apply negb_true_iff in H
  | H : negb _ = false |- _ => apply negb_false_iff in H
  | H : (_ <? _)%Z = true |- _ => apply Z.ltb_lt in H
  | H : (_ <? _)%Z = false |- _ => apply Z.ltb_ge in H
  | H : (_ <=? _)%Z = true |- _ => apply Z.leb_le in H
  | H : (_ <=? _)%Z = false |- _ => apply Z.leb_gt in H
  | H : (_ =? _)%Z = true |- _ => apply Z.eqb_eq in H
  | H : (_ =? _)%Z = false |- _ => apply Z.eqb_neq in H
  end.

(** Evaluate the tests on [Z] in the goal that [lia] decides. *)
Ltac ztest :=
  repeat match goal with
  | |- context [(?a <=? ?b)%Z] =>
    first [ rewrite (proj2 (Z.leb_le a b)) by lia | rewrite (proj2 (Z.leb_gt a b)) by lia ]
  | |- context [(?a <? ?b)%Z] =>
    first [ rewrite (proj2 (Z.ltb_lt a b)) by lia | rewrite (proj2 (Z.ltb_ge a b)) by lia ]
  | |- context [(?a =? ?b)%Z] =>
    first [ rewrite (proj2 (Z.eqb_eq a b)) by lia | rewrite (proj2 (Z.eqb_neq a b)) by lia ]
  end.

(** ** Lemmas *)

Section Words.
Local Open Scope Z_scope.

Lemma u8_small z : in_u8 z -> u8 z = z.
Proof. apply Z.mod_small. Qed.
Lemma u16_small z : in_u16 z -> u16 z = z.
Proof. apply Z.mod_small. Qed.
Lemma u32_small z : in_u32 z -> u32 z = z.
Proof. apply Z.mod_small. Qed.
Lemma u64_small z : in_u64 z -> u64 z = z.
Proof. apply Z.mod_small. Qed.

Lemma u16_range z : in_u16 (u16 z).
Proof. by apply Z.mod_pos_bound. Qed.
Lemma u32_range z : in_u32 (u32 z).
Proof. by apply Z.mod_pos_bound. Qed.
Lemma u64_range z : in_u64 (u64 z).
Proof. by apply Z.mod_pos_bound. Qed.
Lemma i64_range z : in_i64 (i64 z).
Proof. unfold i64, in_i64. pose proof (Z.mod_pos_bound (z + 2 ^ 63) (2 ^ 64)). lia. Qed.

Lemma i64_small z : in_i64 z -> i64 z = z.
Proof. unfold in_i64, i64. intros. rewrite Z.mod_small; lia. Qed.

(** Storing a signed word as an unsigned one and reading it back. *)
Lemma i64_u64 z : i64 (u64 z) = i64 z.
Proof. unfold i64, u64. by rewrite Z.add_mod_idemp_l. Qed.

Lemma length_put_le n z : length (put_le n z) = n.
Proof. apply LittleEndianList.length_le_split. Qed.

Lemma get_put_le n z : get_le (put_le n z) = z mod 2 ^ (Z.of_nat n * 8).
Proof. apply LittleEndianList.le_combine_split. Qed.

Lemma get_put_u16 z : in_u16 z -> get_le (put_le 2 z) = z.
Proof. intros. rewrite get_put_le. by apply Z.mod_small. Qed.
Lemma get_put_u32 z : in_u32 z -> get_le (put_le 4 z) = z.
Proof. intros. rewrite get_put_le. by apply Z.mod_small. Qed.
Lemma get_put_u64 z : in_u64 z -> get_le (put_le 8 z) = z.
Proof. intros. rewrite get_put_le. by apply Z.mod_small. Qed.

Lemma put_get_le bs : put_le (length bs) (get_le bs) = bs.
Proof. apply LittleEndianList.split_le_combine. Qed.

Lemma get_le_range bs : 0 <= get_le bs < 2 ^ (8 * zlen bs).
Proof. apply LittleEndianList.le_combine_bound. Qed.

Lemma byte_of_unsigned b : byte.of_Z (byte.unsigned b) = b.
Proof. apply byte.of_Z_unsigned. Qed.
End Words.
#[export] Hint Resolve u16_range u32_range u64_range i64_range : golib.

Section Slices.
Context {A : Type}.
Implicit Types l : list A.

Lemma zlen_app l1 l2 : (zlen (l1 ++ l2) = zlen l1 + zlen l2)%Z.
Proof. unfold zlen. rewrite length_app. lia. Qed.
Lemma zlen_nonneg l : (0 <= zlen l)%Z.
Proof. unfold zlen. lia. Qed.
Lemma zlen_nil : zlen (@nil A) = 0%Z.
Proof. done. Qed.
Lemma zlen_cons a l : (zlen (a :: l) = 1 + zlen l)%Z.
Proof. unfold zlen. simpl. lia. Qed.

Lemma length_slice lo hi l : length (slice lo hi l) = (hi - lo) `min` (length l - lo).
Proof. unfold slice. rewrite length_take, length_drop. lia. Qed.

(** A slice of a concatenation that starts after, ends before, or covers
    exactly the first part. *)
Lemma slice_app_skip lo hi l1 l2 :
  length l1 <= lo -> slice lo hi (l1 ++ l2) = slice (lo - length l1) (hi - length l1) l2.
Proof.
  intros. unfold slice. rewrite drop_app_ge by done. f_equal. lia.
Qed.
Lemma slice_app_exact n l1 l2 : length l1 = n -> slice 0 n (l1 ++ l2) = l1.
Proof.
  intros <-. unfold slice. rewrite drop_0, Nat.sub_0_r. by rewrite take_app_length.
Qed.
Lemma slice_app_l lo hi l1 l2 :
  hi <= length l1 -> slice lo hi (l1 ++ l2) = slice lo hi l1.
Proof.
  intros. unfold slice. destruct (decide (lo <= hi)).
  - rewrite drop_app_le by lia. rewrite take_app_le; [done | rewrite length_drop; lia].
  - replace (hi - lo) with 0 by lia. by rewrite !take_0.
Qed.

Lemma length_copy_at off src l :
  off <= length l -> length (copy_at off src l) = length l.
Proof.
  intros. unfold copy_at. rewrite !length_app, !length_take, length_drop. lia.
Qed.

(** When the source fits, [copy_at] is a splice. *)
Lemma copy_at_fit off src l :
  off + length src <= length l ->
  copy_at off src l = take off l ++ src ++ drop (off + length src) l.
Proof. intros. unfold copy_at. rewrite (take_ge src) by lia. done. Qed.

Lemma slice_copy_at_same off src l :
  off + length src <= length l -> slice off (off + length src) (copy_at off src l) = src.
Proof.
  intros. rewrite copy_at_fit by done.
  rewrite slice_app_skip by (rewrite length_take; lia).
  rewrite length_take.
  replace (off - off `min` length l) with 0 by lia.
  apply slice_app_exact. lia.
Qed.

Lemma slice_copy_at off hi src l :
  hi = off + length src -> hi <= length l -> slice off hi (copy_at off src l) = src.
Proof. intros ->. apply slice_copy_at_same. Qed.

Lemma slice_prefix lo hi n l : hi <= n -> slice lo hi (slice 0 n l) = slice lo hi l.
Proof.
  intros. unfold slice. rewrite drop_0, Nat.sub_0_r, skipn_firstn_comm.
  rewrite take_take. f_equal. lia.
Qed.

Lemma slice_copy_at_before lo hi off src l :
  hi <= off -> off + length src <= length l ->
  slice lo hi (copy_at off src l) = slice lo hi l.
Proof.
  intros. rewrite copy_at_fit by done.
  rewrite slice_app_l by (rewrite length_take; lia).
  rewrite <- (take_drop off l) at 2.
  by rewrite slice_app_l by (rewrite length_take; lia).
Qed.

Lemma slice_copy_at_after lo hi off src l :
  off + length src <= lo -> off + length src <= length l ->
  slice lo hi (copy_at off src l) = slice lo hi l.
Proof.
  intros. rewrite copy_at_fit by done.
  rewrite app_assoc, slice_app_skip by (rewrite length_app, length_take; lia).
  rewrite length_app, length_take.
  symmetry. rewrite <- (take_drop (off + length src) l) at 1.
  rewrite slice_app_skip by (rewrite length_take; lia).
  rewrite length_take. f_equal; lia.
Qed.
End Slices.

Section Fields.
Local Open Scope Z_scope.

Lemma unsigned_of_small z : in_u8 z -> byte.unsigned (byte.of_Z z) = z.
Proof. intros. rewrite byte.unsigned_of_Z. by apply Z.mod_small. Qed.

Lemma zlen_put_le n z : zlen (put_le n z) = Z.of_nat n.
Proof. unfold zlen. by rewrite length_put_le. Qed.

Lemma slice_cons {A} lo hi (a : A) l : slice (S lo) (S hi) (a :: l) = slice lo hi l.
Proof. done. Qed.

(** A field at the head of a buffer, and the buffer after it. *)
Lemma slice_field n z l : slice 0 n (put_le n z ++ l) = put_le n z.
Proof. apply slice_app_exact, length_put_le. Qed.
Lemma slice_skip_field lo hi n z l :
  (n <= lo)%nat -> slice lo hi (put_le n z ++ l) = slice (lo - n) (hi - n) l.
Proof. intros. by rewrite slice_app_skip; rewrite length_put_le. Qed.
Lemma drop_field n z l : drop n (put_le n z ++ l) = l.
Proof. rewrite drop_app_ge; rewrite length_put_le; [|lia]. by rewrite Nat.sub_diag, drop_0. Qed.
Lemma slice_full {A} n (l : list A) : length l = n -> slice 0 n l = l.
Proof. intros <-. unfold slice. rewrite drop_0, Nat.sub_0_r. by rewrite take_ge. Qed.
End Fields.

(** Compute the length of a concatenation of fields. *)
Create Rewrite HintDb zlen.
#[export] Hint Rewrite @zlen_app @zlen_cons @zlen_nil zlen_put_le : zlen.
Ltac simpl_len :=
  autorewrite with zlen in *;
  change (Z.of_nat 8) with 8%Z in *; change (Z.of_nat 4) with 4%Z in *;
  change (Z.of_nat 2) with 2%Z in *.

Lemma mapM_cons {A B} (f : A -> option B) x l r : mapM f (x :: l) = Some r ->
  exists y ys, f x = Some y /\ mapM f l = Some ys /\ r = y :: ys.
Proof. cbn. destruct (f x) as [y|]; [|done]. cbn. destruct (mapM f l) as [ys|]; [|done]. intros [= <-]. eauto. Qed.

(** ** A state monad over [outcome]: the state survives an error *)

Definition SO (S E A : Type) : Type := S -> outcome E A * S.

#[global] Instance SO_ret {S E} : MRet (SO S E) := fun _ a s => (Ok a, s).
#[global] Instance SO_bind {S E} : MBind (SO S E) := fun _ _ k m s =>
  match m s with
  | (Ok a, s') => k a s'
  | (Err e, s') => (Err e, s')
  | (Panic, s') => (Panic, s')
  | (Hang, s') => (Hang, s')
  end.

Section StateOutcome.
Context {S E : Type}.

Definition lift {A} (m : outcome E A) : SO S E A := fun s => (m, s).
Definition fail {A} (e : E) : SO S E A := fun s => (Err e, s).
Definition gets {A} (f : S -> A) : SO S E A := fun s => (Ok (f s), s).
Definition modify (f : S -> S) : SO S E unit := fun s => (Ok tt, f s).
Definition when (b : bool) (m : SO S E unit) : SO S E unit := if b then m else mret tt.
(** Run [m] and hand its error back as a value, as Go code that tests
    [err] does. *)
Definition try {A} (m : SO S E A) : SO S E (A + E) := fun s =>
  match m s with
  | (Ok a, s') => (Ok (inl a), s')
  | (Err e, s') => (Ok (inr e), s')
  | (Panic, s') => (Panic, s')
  | (Hang, s') => (Hang, s')
  end.

Lemma bind_ok {A B} (m : SO S E A) (k : A -> SO S E B) s a s' :
  m s = (Ok a, s') -> (m ≫= k) s = k a s'.
Proof. intros H. unfold mbind, SO_bind. by rewrite H. Qed.
Lemma bind_err {A B} (m : SO S E A) (k : A -> SO S E B) s e s' :
  m s = (Err e, s') -> (m ≫= k) s = (Err e, s').
Proof. intros H. unfold mbind, SO_bind. by rewrite H. Qed.
Lemma bind_hang {A B} (m : SO S E A) (k : A -> SO S E B) s s' :
  m s = (Hang, s') -> (m ≫= k) s = (Hang, s').
Proof. intros H. unfold mbind, SO_bind. by rewrite H. Qed.
Lemma bind_panic {A B} (m : SO S E A) (k : A -> SO S E B) s s' :
  m s = (Panic, s') -> (m ≫= k) s = (Panic, s').
Proof. intros H. unfold mbind, SO_bind. by rewrite H. Qed.
Lemma bind_lift_ok {A B} (a : A) (k : A -> SO S E B) s : (lift (Ok a) ≫= k) s = k a s.
Proof. done. Qed.
Lemma bind_gets {A B} (f : S -> A) (k : A -> SO S E B) s : (gets f ≫= k) s = k (f s) s.
Proof. done. Qed.
Lemma bind_inv {A B} (m : SO S E A) (k : A -> SO S E B) s b s' : (m ≫= k) s = (Ok b, s') ->
  exists a s1, m s = (Ok a, s1) /\ k a s1 = (Ok b, s').
Proof. unfold mbind, SO_bind. destruct (m s) as [[a| | |] s1]; try done. eauto. Qed.
Lemma bind_modify {B} (f : S -> S) (k : unit -> SO S E B) s : (modify f ≫= k) s = k tt (f s).
Proof. done. Qed.
(** The answer of a computed run, without computing its state. *)
Lemma run_answer {A} (m : outcome E A * S) a : m.1 = Ok a -> m = (Ok a, m.2).
Proof. destruct m. by intros [= ->]. Qed.
End StateOutcome.
