(* ===== verification/GoLib.v ===== *)
(** * The parts of the Go language and standard library that xxldb uses

    UTF-8 runes (unicode/utf8), ASCII case mapping (strings), decimal and
    hexadecimal text (strconv, encoding/hex), CRC-32 (hash/crc32) and IEEE
    double precision numbers with Go's numeric conversions. *)

From S2P Require Import Prelude.
From Stdlib Require Export Floats.SpecFloat.
Local Open Scope Z_scope.

(** ** Characters *)

(** The code of an ASCII character literal. *)
Definition chr (s : string) : Z :=
  match str s with b :: _ => byte.unsigned b | [] => 0 end.

Definition in_range (lo hi r : Z) : bool := (lo <=? r) && (r <=? hi).

(** unicode/utf8: [RuneError] and [DecodeRune], which returns the rune and
    its width; an ill-formed sequence is [RuneError] of width 1. *)
Definition rune_error : Z := 0xFFFD.

Definition utf8_cont (b : byte) : bool := in_range 0x80 0xBF (byte.unsigned b).
Definition utf8_bits (b : byte) : Z := byte.unsigned b mod 64.

(** The range of the second byte allowed after each leading byte. *)
Definition utf8_accept (b0 b1 : Z) : bool :=
  if b0 =? 0xE0 then in_range 0xA0 0xBF b1
  else if b0 =? 0xED then in_range 0x80 0x9F b1
  else if b0 =? 0xF0 then in_range 0x90 0xBF b1
  else if b0 =? 0xF4 then in_range 0x80 0x8F b1
  else in_range 0x80 0xBF b1.

Definition decode_rune (s : bytes) : Z * nat :=
  match s with
  | [] => (rune_error, 0%nat)
  | b0 :: t =>
    let c0 := byte.unsigned b0 in
    if c0 <? 0x80 then (c0, 1%nat)
    else if c0 <? 0xC2 then (rune_error, 1%nat)
    else if c0 <? 0xE0 then
      match t with
      | b1 :: _ => if utf8_cont b1 then (c0 mod 32 * 64 + utf8_bits b1, 2%nat)
                   else (rune_error, 1%nat)
      | _ => (rune_error, 1%nat)
      end
    else if c0 <? 0xF0 then
      match t with
      | b1 :: b2 :: _ =>
        if utf8_accept c0 (byte.unsigned b1) && utf8_cont b2
        then (c0 mod 16 * 4096 + utf8_bits b1 * 64 + utf8_bits b2, 3%nat)
        else (rune_error, 1%nat)
      | _ => (rune_error, 1%nat)
      end
    else if c0 <? 0xF5 then
      match t with
      | b1 :: b2 :: b3 :: _ =>
        if utf8_accept c0 (byte.unsigned b1) && utf8_cont b2 && utf8_cont b3
        then (c0 mod 8 * 262144 + utf8_bits b1 * 4096 + utf8_bits b2 * 64 + utf8_bits b3, 4%nat)
        else (rune_error, 1%nat)
      | _ => (rune_error, 1%nat)
      end
    else (rune_error, 1%nat)
  end.

(** [utf8.AppendRune], which writes [RuneError] for a value that is no rune. *)
Definition encode_rune_raw (r : Z) : bytes :=
  if r <? 0x80 then [byte.of_Z r]
  else if r <? 0x800 then [byte.of_Z (0xC0 + r / 64); byte.of_Z (0x80 + r mod 64)]
  else if r <? 0x10000 then
    [byte.of_Z (0xE0 + r / 4096); byte.of_Z (0x80 + r / 64 mod 64); byte.of_Z (0x80 + r mod 64)]
  else [byte.of_Z (0xF0 + r / 262144); byte.of_Z (0x80 + r / 4096 mod 64);
        byte.of_Z (0x80 + r / 64 mod 64); byte.of_Z (0x80 + r mod 64)].

Definition valid_rune (r : Z) : bool := in_range 0 0xD7FF r || in_range 0xE000 0x10FFFF r.

Definition encode_rune (r : Z) : bytes :=
  encode_rune_raw (if valid_rune r then r else rune_error).

(** [[]rune(s)] *)
Fixpoint runes_fuel (fuel : nat) (s : bytes) : list Z :=
  match fuel, s with
  | S n, _ :: _ => let '(r, w) := decode_rune s in r :: runes_fuel n (drop w s)
  | _, _ => []
  end.
Definition runes (s : bytes) : list Z := runes_fuel (length s) s.
Definition rune_count (s : bytes) : Z := zlen (runes s).

(** [string(rs)] for a rune slice *)
Definition of_runes (rs : list Z) : bytes := concat (map encode_rune rs).

(** unicode.IsSpace: the White_Space property *)
Definition is_space (r : Z) : bool :=
  in_range 9 13 r || (r =? 32) || (r =? 0x85) || (r =? 0xA0) || (r =? 0x1680)
  || in_range 0x2000 0x200a r || (r =? 0x2028) || (r =? 0x2029) || (r =? 0x202f)
  || (r =? 0x205f) || (r =? 0x3000).

(** ASCII case mapping of one byte, as strings.ToUpper and strings.ToLower
    do it on their ASCII-only path. *)
Definition upper_byte (b : byte) : byte :=
  if in_range 97 122 (byte.unsigned b) then byte.of_Z (byte.unsigned b - 32) else b.
Definition lower_byte (b : byte) : byte :=
  if in_range 65 90 (byte.unsigned b) then byte.of_Z (byte.unsigned b + 32) else b.

Definition is_ascii (s : bytes) : bool := forallb (fun b => byte.unsigned b <? 0x80) s.

(** ** Decimal text *)

Definition digit_byte (d : Z) : byte := byte.of_Z (48 + d).

Fixpoint digits_fuel (fuel : nat) (z : Z) (acc : bytes) : bytes :=
  match fuel with
  | O => acc
  | S n => let acc' := digit_byte (z mod 10) :: acc in
           if z <? 10 then acc' else digits_fuel n (z / 10) acc'
  end.

(** [%d] of an integer; 20 digits are enough for every 64-bit value. *)
Definition itoa (z : Z) : bytes :=
  if z <? 0 then byte.of_Z 45 :: digits_fuel 20 (- z) [] else digits_fuel 20 z [].

Definition digit_of (b : byte) : option Z :=
  if in_range 48 57 (byte.unsigned b) then Some (byte.unsigned b - 48) else None.

Fixpoint parse_digits (acc : Z) (s : bytes) : option Z :=
  match s with
  | [] => Some acc
  | b :: t => match digit_of b with Some d => parse_digits (acc * 10 + d) t | None => None end
  end.

(** strconv.ParseInt(s, 10, 64); [None] stands for its error (syntax or
    range), whose value the callers discard. *)
Definition parse_int (s : bytes) : option Z :=
  let '(neg, ds) := match s with
                    | b :: t => if byte.unsigned b =? 45 then (true, t)
                                else if byte.unsigned b =? 43 then (false, t) else (false, s)
                    | [] => (false, [])
                    end in
  match ds with
  | [] => None
  | _ => match parse_digits 0 ds with
         | None => None
         | Some n => let z := if neg : bool then - n else n in
                     if (- 2 ^ 63 <=? z) && (z <? 2 ^ 63) then Some z else None
         end
  end.

(** The number strconv.ParseInt answers along with its error, which some
    callers use: 0 for a syntax error, the nearest bound for a number out of
    range (found before what follows it is read). *)
Fixpoint scan_uint (acc : Z) (s : bytes) : option Z :=
  match s with
  | [] => Some acc
  | b :: t => d ← digit_of b;
              let n := acc * 10 + d in
              if 2 ^ 64 <=? n then Some (2 ^ 64 - 1) else scan_uint n t
  end.
Definition parse_int_value (s : bytes) : Z :=
  let '(neg, ds) := match s with
                    | b :: t => if byte.unsigned b =? 45 then (true, t)
                                else if byte.unsigned b =? 43 then (false, t) else (false, s)
                    | [] => (false, [])
                    end in
  match ds with
  | [] => 0
  | _ => match scan_uint 0 ds with
         | None => 0
         | Some n => if neg : bool then Z.max (- 2 ^ 63) (- n) else Z.min (2 ^ 63 - 1) n
         end
  end.

Example parse_int_values : map (fun s => parse_int_value (str s)) ["12"; "-7"; "x"; "99999999999999999999"; "-9223372036854775809"; "+3"]%string
  = [12; -7; 0; 2 ^ 63 - 1; - 2 ^ 63; 3].
Proof. reflexivity. Qed.

(** ** Hexadecimal text (encoding/hex) *)

Definition hex_digit (d : Z) : byte :=
  if d <? 10 then byte.of_Z (48 + d) else byte.of_Z (87 + d).

Definition hex_encode (s : bytes) : bytes :=
  concat (map (fun b => [hex_digit (byte.unsigned b / 16); hex_digit (byte.unsigned b mod 16)]) s).

Definition hex_value (b : byte) : option Z :=
  let c := byte.unsigned b in
  if in_range 48 57 c then Some (c - 48)
  else if in_range 97 102 c then Some (c - 87)
  else if in_range 65 70 c then Some (c - 55)
  else None.

(** hex.DecodeString; [None] for an odd length or an invalid digit. *)
Fixpoint hex_decode (s : bytes) : option bytes :=
  match s with
  | [] => Some []
  | a :: b :: t =>
    match hex_value a, hex_value b, hex_decode t with
    | Some x, Some y, Some r => Some (byte.of_Z (16 * x + y) :: r)
    | _, _, _ => None
    end
  | [_] => None
  end.

(** ** Base64 (encoding/base64, standard encoding) *)

Definition b64_char (z : Z) : byte :=
  byte.of_Z (if z <? 26 then 65 + z else if z <? 52 then 71 + z else if z <? 62 then z - 4
             else if z =? 62 then 43 else 47).

Fixpoint base64_encode (s : bytes) : bytes :=
  let pad := byte.of_Z 61 in
  match s with
  | [] => []
  | [a] => let n := Z.shiftl (byte.unsigned a) 16 in
           [b64_char (n / 2 ^ 18); b64_char (n / 2 ^ 12 mod 64); pad; pad]
  | [a; b] => let n := Z.shiftl (byte.unsigned a) 16 + Z.shiftl (byte.unsigned b) 8 in
              [b64_char (n / 2 ^ 18); b64_char (n / 2 ^ 12 mod 64); b64_char (n / 2 ^ 6 mod 64); pad]
  | a :: b :: c :: rest =>
    let n := Z.shiftl (byte.unsigned a) 16 + Z.shiftl (byte.unsigned b) 8 + byte.unsigned c in
    b64_char (n / 2 ^ 18) :: b64_char (n / 2 ^ 12 mod 64) :: b64_char (n / 2 ^ 6 mod 64)
      :: b64_char (n mod 64) :: base64_encode rest
  end.

(** Decoding with the last two characters of the alphabet: line breaks are
    skipped; padding fills the last group of four. *)
Definition b64_value (c62 c63 : Z) (b : byte) : option Z :=
  let c := byte.unsigned b in
  if in_range 65 90 c then Some (c - 65)
  else if in_range 97 122 c then Some (c - 71)
  else if in_range 48 57 c then Some (c + 4)
  else if c =? c62 then Some 62 else if c =? c63 then Some 63 else None.

Fixpoint b64_groups (c62 c63 : Z) (s : bytes) : option bytes :=
  match s with
  | [] => Some []
  | a :: b :: c :: d :: rest =>
    match b64_value c62 c63 a, b64_value c62 c63 b, b64_value c62 c63 c, b64_value c62 c63 d with
    | Some x, Some y, Some z, Some w =>
      let n := x * 2 ^ 18 + y * 2 ^ 12 + z * 2 ^ 6 + w in
      t ← b64_groups c62 c63 rest;
      Some (byte.of_Z (n / 2 ^ 16) :: byte.of_Z (n / 2 ^ 8 mod 256) :: byte.of_Z (n mod 256) :: t)
    | Some x, Some y, z, _ =>
      match rest with
      | [] => if byte.unsigned d =? 61 then
                match z with
                | Some z => let n := x * 2 ^ 18 + y * 2 ^ 12 + z * 2 ^ 6 in
                            Some [byte.of_Z (n / 2 ^ 16); byte.of_Z (n / 2 ^ 8 mod 256)]
                | None => if byte.unsigned c =? 61 then Some [byte.of_Z ((x * 2 ^ 18 + y * 2 ^ 12) / 2 ^ 16)] else None
                end
              else None
      | _ => None
      end
    | _, _, _, _ => None
    end
  | _ => None
  end.

Definition no_breaks (s : bytes) : bytes := List.filter (fun b => negb ((byte.unsigned b =? 10) || (byte.unsigned b =? 13))) s.
(** base64.StdEncoding and base64.URLEncoding *)
Definition base64_decode (s : bytes) : option bytes := b64_groups 43 47 (no_breaks s).
Definition base64url_decode (s : bytes) : option bytes := b64_groups 45 95 (no_breaks s).

Example base64_back : base64_decode (str "aGVs
bG8=") = Some (str "hello").
Proof. vm_compute. reflexivity. Qed.

Example base64_hello : base64_encode (str "hello") = str "aGVsbG8=".
Proof. reflexivity. Qed.

(** ** CRC-32, IEEE polynomial, reflected (hash/crc32.ChecksumIEEE) *)

Definition crc_poly : Z := 0xEDB88320.

Fixpoint crc_bits (k : nat) (c : Z) : Z :=
  match k with
  | O => c
  | S k' => crc_bits k' (if Z.odd c then Z.lxor (Z.shiftr c 1) crc_poly else Z.shiftr c 1)
  end.

Definition crc_update (c : Z) (b : byte) : Z := crc_bits 8 (Z.lxor c (byte.unsigned b)).

Definition crc32_ieee (s : bytes) : Z :=
  Z.lxor (fold_left crc_update s 0xFFFFFFFF) 0xFFFFFFFF.

Example crc32_check : crc32_ieee (str "123456789") = 0xCBF43926.
Proof. vm_compute. reflexivity. Qed.

(** ** Double precision numbers

    [float64] is the IEEE 754 binary64 of the standard library's SpecFloat:
    an infinity, a zero, NaN, or sign, mantissa and exponent. *)

Abbreviation float64 := spec_float.

Definition float_of_Z (z : Z) : float64 := binary_normalize 53 1024 z 0 false.

Definition signed_mantissa (s : bool) (m : positive) : Z := if s then Z.neg m else Z.pos m.

(** [float64(f)] of a float32 held as a SpecFloat of precision 24. *)
Definition float_of_float32 (f : spec_float) : float64 :=
  match f with
  | S754_finite s m e => binary_normalize 53 1024 (signed_mantissa s m) e s
  | _ => f
  end.

(** Truncation towards zero; no value for NaN and the infinities. *)
Definition float_trunc (f : float64) : option Z :=
  match f with
  | S754_zero _ => Some 0
  | S754_finite s m e =>
    let a := if 0 <=? e then Z.pos m * 2 ^ e else Z.pos m / 2 ^ (- e) in
    Some (if s then - a else a)
  | _ => None
  end.

Definition float_is_zero (f : float64) : bool :=
  match f with S754_zero _ => true | _ => false end.

(** The operators of float64. *)
Definition fadd : float64 -> float64 -> float64 := SFadd 53 1024.
Definition fsub : float64 -> float64 -> float64 := SFsub 53 1024.
Definition fmul : float64 -> float64 -> float64 := SFmul 53 1024.
Definition fdiv : float64 -> float64 -> float64 := SFdiv 53 1024.

(** math.Floor, math.Ceil and math.Round *)
Definition float_floor (f : float64) : float64 :=
  match f with
  | S754_finite s m e => if 0 <=? e then f else float_of_Z (signed_mantissa s m / 2 ^ (- e))
  | _ => f
  end.
Definition float_ceil (f : float64) : float64 := SFopp (float_floor (SFopp f)).
Definition float_round (f : float64) : float64 :=
  match f with
  | S754_finite s m e =>
    if 0 <=? e then f
    else let a := (2 * Z.pos m + 2 ^ (- e)) / 2 ^ (- e + 1) in
         if a =? 0 then S754_zero s else float_of_Z (if s then - a else a)
  | _ => f
  end.

(** ** What the model leaves to the Go runtime

    Text of floating point numbers and of instants, and the result of a
    float to integer conversion whose value does not fit (which the Go
    specification leaves to the implementation). An instant of package time
    is its number of nanoseconds since the epoch. *)

Abbreviation Time := Z (only parsing).

Class GoRuntime := {
  fmt_float64 : float64 -> bytes;            (* %v *)
  fmt_float32 : spec_float -> bytes;         (* %v *)
  fmt_float_0f : float64 -> bytes;           (* %.0f *)
  parse_float : bytes -> option float64;     (* strconv.ParseFloat(s, 64) *)
  time_string : Time -> bytes;               (* %v *)
  time_format : bytes -> Time -> bytes;      (* t.Format(layout) *)
  time_parse : bytes -> bytes -> option Time; (* time.Parse(layout, s) *)
  oob_int64 : float64 -> Z;                  (* int64(f), f out of range *)
  oob_uint64 : float64 -> Z;                 (* uint64(f), f out of range *)
  rune_lower : Z -> Z;                       (* unicode.ToLower, r >= 0x80 *)
  rune_upper : Z -> Z                        (* unicode.ToUpper, r >= 0x80 *)
}.

Section Runtime.
Context `{GoRuntime}.

Definition float_to_int64 (f : float64) : Z :=
  match float_trunc f with
  | Some z => if (- 2 ^ 63 <=? z) && (z <? 2 ^ 63) then z else i64 (oob_int64 f)
  | None => i64 (oob_int64 f)
  end.

Definition float_to_uint64 (f : float64) : Z :=
  match float_trunc f with
  | Some z => if (0 <=? z) && (z <? 2 ^ 64) then z else u64 (oob_uint64 f)
  | None => u64 (oob_uint64 f)
  end.

(** strings.ToLower and strings.ToUpper *)
Definition to_lower (s : bytes) : bytes :=
  if is_ascii s then map lower_byte s
  else of_runes (map (fun r => if r <? 0x80 then (if in_range 65 90 r then r + 32 else r)
                               else rune_lower r) (runes s)).
Definition to_upper (s : bytes) : bytes :=
  if is_ascii s then map upper_byte s
  else of_runes (map (fun r => if r <? 0x80 then (if in_range 97 122 r then r - 32 else r)
                               else rune_upper r) (runes s)).
End Runtime.

(** ** Lemmas *)

Section DecimalLemmas.

Lemma digit_of_digit_byte d : 0 <= d < 10 -> digit_of (digit_byte d) = Some d.
Proof.
  intros. unfold digit_of, digit_byte.
  rewrite byte.unsigned_of_Z. unfold byte.wrap. rewrite Z.mod_small by lia.
  unfold in_range. replace (48 <=? 48 + d) with true by lia.
  replace (48 + d <=? 57) with true by lia. simpl. f_equal. lia.
Qed.

Lemma parse_digits_app acc s t :
  parse_digits acc (s ++ t) =
  match parse_digits acc s with Some n => parse_digits n t | None => None end.
Proof.
  revert acc. induction s as [|b s IH]; intros acc; simpl; [done|].
  destruct (digit_of b); [apply IH | done].
Qed.

(** The digits of [z], then whatever the accumulator holds. *)
Lemma parse_digits_fuel fuel z acc :
  0 <= z < 10 ^ Z.of_nat fuel ->
  exists k, parse_digits 0 (digits_fuel fuel z acc) = parse_digits z acc
            /\ digits_fuel fuel z acc = k ++ acc /\ (0 < fuel -> k <> [])%nat.
Proof.
  revert z acc. induction fuel as [|fuel IH]; intros z acc Hz; simpl.
  - exists []. change (10 ^ 0) with 1 in Hz. replace z with 0 by lia. split_and!; [done..|lia].
  - pose proof (Z.mod_pos_bound z 10 ltac:(lia)) as Hm.
    destruct (Z.ltb_spec z 10).
    + exists [digit_byte (z mod 10)]. simpl.
      rewrite digit_of_digit_byte by lia. rewrite Z.mod_small by lia.
      split_and!; [f_equal; lia|done|done].
    + rewrite Nat2Z.inj_succ, Z.pow_succ_r in Hz by lia.
      destruct (IH (z / 10) (digit_byte (z mod 10) :: acc)) as (k & H1 & H2 & _).
      { split; [apply Z.div_pos; lia | apply Z.div_lt_upper_bound; lia]. }
      exists (k ++ [digit_byte (z mod 10)]). rewrite H1. simpl.
      rewrite digit_of_digit_byte by lia.
      split_and!.
      * f_equal. pose proof (Z.div_mod z 10 ltac:(lia)). lia.
      * rewrite H2. by rewrite <- app_assoc.
      * intros _ Hk. by apply app_eq_nil in Hk as [_ ?].
Qed.

Lemma digits_ten (f : nat) (z : Z) acc : 0 <= z ->
  match digits_fuel (S f) z acc with
  | b :: _ => 48 <= byte.unsigned b <= 57 | [] => False end.
Proof.
  revert z acc. induction f as [|f IH]; intros z acc Hz.
  all: cbn [digits_fuel]; pose proof (Z.mod_pos_bound z 10 ltac:(lia)).
  all: assert (Hd : 48 <= byte.unsigned (digit_byte (z mod 10)) <= 57)
    by (unfold digit_byte; rewrite byte.unsigned_of_Z; unfold byte.wrap;
        rewrite Z.mod_small; lia).
  - by destruct (z <? 10).
  - destruct (z <? 10); [done|]. apply IH. by apply Z.div_pos.
Qed.

(** strconv.ParseInt reads back what [%d] printed. *)
Lemma parse_int_itoa z : in_i64 z -> parse_int (itoa z) = Some z.
Proof.
  intros Hz. unfold in_i64 in Hz.
  assert (Hp : forall a, 0 <= a <= 2 ^ 63 ->
    parse_digits 0 (digits_fuel 20 a []) = Some a /\
    match digits_fuel 20 a [] with b :: _ => 48 <= byte.unsigned b <= 57 | [] => False end).
  { intros a Ha. split; [|apply (digits_ten 19); lia].
    destruct (parse_digits_fuel 20 a []) as (k & -> & _); [lia|done]. }
  unfold itoa, parse_int.
  destruct (Z.ltb_spec z 0) as [Hneg|Hpos].
  - destruct (Hp (- z) ltac:(lia)) as [H1 H2].
    replace (byte.unsigned (byte.of_Z 45) =? 45) with true by reflexivity.
    destruct (digits_fuel 20 (- z) []) as [|b t] eqn:E; [done|].
    rewrite H1. replace (- - z) with z by lia.
    replace (- 2 ^ 63 <=? z) with true by lia. by replace (z <? 2 ^ 63) with true by lia.
  - destruct (Hp z ltac:(lia)) as [H1 H2].
    destruct (digits_fuel 20 z []) as [|b t] eqn:E; [done|].
    replace (byte.unsigned b =? 45) with false by lia.
    replace (byte.unsigned b =? 43) with false by lia.
    rewrite H1.
    replace (- 2 ^ 63 <=? z) with true by lia. by replace (z <? 2 ^ 63) with true by lia.
Qed.
End DecimalLemmas.

Section HexLemmas.
Lemma hex_value_digit d : 0 <= d < 16 -> hex_value (hex_digit d) = Some d.
Proof.
  intros Hd.
  assert (H : forallb (fun n => bool_decide (hex_value (hex_digit (Z.of_nat n)) = Some (Z.of_nat n)))
                (seq 0 16) = true) by (vm_compute; reflexivity).
  rewrite forallb_forall in H.
  specialize (H (Z.to_nat d)). rewrite Z2Nat.id in H by lia.
  apply bool_decide_eq_true in H; [done | apply in_seq; lia].
Qed.

Lemma byte_nibbles b :
  byte.of_Z (16 * (byte.unsigned b / 16) + byte.unsigned b mod 16) = b.
Proof.
  rewrite <- (Z.div_mod (byte.unsigned b) 16) by lia. apply byte.of_Z_unsigned.
Qed.

(** hex.DecodeString inverts hex.EncodeToString. *)
Lemma hex_decode_encode s : hex_decode (hex_encode s) = Some s.
Proof.
  induction s as [|b s IH]; [done|].
  unfold hex_encode in *. cbn [map concat app hex_decode].
  pose proof (byte.unsigned_range b).
  rewrite !hex_value_digit.
  - rewrite IH. by rewrite byte_nibbles.
  - apply Z.mod_pos_bound. lia.
  - split; [apply Z.div_pos; lia | apply Z.div_lt_upper_bound; lia].
Qed.
End HexLemmas.

Section RuneLemmas.

(** Decoding makes progress and never runs past the input. *)
Lemma decode_rune_width s :
  s <> [] -> (1 <= (decode_rune s).2 <= length s)%nat.
Proof.
  intros Hs. destruct s as [|b0 t]; [done|]. unfold decode_rune.
  repeat (case_match; simpl; try lia).
Qed.

Lemma decode_rune_ascii b t :
  byte.unsigned b < 0x80 -> decode_rune (b :: t) = (byte.unsigned b, 1%nat).
Proof. intros. unfold decode_rune. by replace (byte.unsigned b <? 128) with true by lia. Qed.
End RuneLemmas.

Lemma crc_bits_range k c : 0 <= c < 2 ^ 32 -> 0 <= crc_bits k c < 2 ^ 32.
Proof.
  revert c. induction k as [|k IH]; intros c Hc; [done|]. cbn [crc_bits].
  apply IH.
  assert (Hs : 0 <= Z.shiftr c 1 < 2 ^ 32).
  { rewrite Z.shiftr_div_pow2 by lia. change (2 ^ 1) with 2.
    split; [apply Z.div_pos; lia | apply Z.div_lt_upper_bound; lia]. }
  destruct (Z.odd c); [|done].
  assert (Hx : 0 <= Z.lxor (Z.shiftr c 1) crc_poly) by (apply Z.lxor_nonneg; unfold crc_poly; lia).
  split; [done|].
  destruct (Z.eq_dec (Z.lxor (Z.shiftr c 1) crc_poly) 0) as [->|Hne]; [lia|].
  apply Z.log2_lt_pow2; [lia|].
  eapply Z.le_lt_trans; [apply Z.log2_lxor; unfold crc_poly; lia|].
  apply Z.max_lub_lt; [|by vm_compute].
  destruct (Z.eq_dec (Z.shiftr c 1) 0) as [->|]; [by vm_compute|].
  apply Z.log2_lt_pow2; lia.
Qed.

Lemma lxor_u32 a b : in_u32 a -> in_u32 b -> in_u32 (Z.lxor a b).
Proof.
  unfold in_u32. intros Ha Hb.
  assert (Hx : 0 <= Z.lxor a b) by (apply Z.lxor_nonneg; lia).
  split; [done|].
  destruct (Z.eq_dec (Z.lxor a b) 0) as [->|Hne]; [lia|].
  apply Z.log2_lt_pow2; [lia|].
  eapply Z.le_lt_trans; [apply Z.log2_lxor; lia|].
  assert (Hlt : forall x, 0 <= x < 2 ^ 32 -> Z.log2 x < 32).
  { intros x ?. destruct (Z.eq_dec x 0) as [->|]; [by vm_compute|]. apply Z.log2_lt_pow2; lia. }
  apply Z.max_lub_lt; by apply Hlt.
Qed.

Lemma crc32_range s : in_u32 (crc32_ieee s).
Proof.
  unfold crc32_ieee. apply lxor_u32; [|unfold in_u32; lia].
  assert (H : forall c, in_u32 c -> in_u32 (fold_left crc_update s c)).
  { induction s as [|b s IH]; intros c Hc; [done|]. cbn [fold_left]. apply IH.
    unfold crc_update. apply crc_bits_range. apply lxor_u32; [done|].
    unfold in_u32. pose proof (byte.unsigned_range b). lia. }
  apply H. unfold in_u32. lia.
Qed.

(** ** UTF-8 *)

Ltac divmod := Z.to_euclidean_division_equations; lia.

(** Evaluate the tests of the decoder on an encoded rune. *)
Ltac rune_tests :=
  repeat match goal with
    |- context [if ?b then _ else _] =>
      first [ replace b with true by (symmetry; divmod) | replace b with false by (symmetry; divmod) ];
      cbn iota
    end.

Lemma unsigned_byte z : 0 <= z < 256 -> byte.unsigned (byte.of_Z z) = z.
Proof. intros. rewrite byte.unsigned_of_Z. apply Z.mod_small. done. Qed.

Lemma cont_byte z : 0 <= z < 64 ->
  utf8_cont (byte.of_Z (0x80 + z)) = true /\ utf8_bits (byte.of_Z (0x80 + z)) = z.
Proof.
  intros. unfold utf8_cont, utf8_bits, in_range. rewrite unsigned_byte by lia.
  split; [lia|divmod].
Qed.

Lemma decode_encode_raw r t : valid_rune r = true ->
  decode_rune (encode_rune_raw r ++ t) = (r, length (encode_rune_raw r)).
Proof.
  intros Hv. assert (Hr : 0 <= r <= 0x10FFFF /\ (r < 0xD800 \/ 0xE000 <= r)).
  { unfold valid_rune, in_range in Hv. lia. }
  clear Hv. destruct Hr as [Hr Hs]. unfold encode_rune_raw.
  pose proof (cont_byte (r mod 64)) as H0. destruct H0 as [C0 B0]; [divmod|].
  pose proof (cont_byte (r / 64 mod 64)) as H1. destruct H1 as [C1 B1]; [divmod|].
  destruct (Z.ltb_spec r 0x80).
  { cbn [app]. rewrite decode_rune_ascii; rewrite unsigned_byte by lia; done. }
  destruct (Z.ltb_spec r 0x800).
  { cbn [app length]. unfold decode_rune. cbv zeta. rewrite unsigned_byte by divmod.
    rewrite C0, B0. rune_tests. f_equal. divmod. }
  destruct (Z.ltb_spec r 0x10000).
  { cbn [app length]. unfold decode_rune. cbv zeta. rewrite unsigned_byte by divmod.
    unfold utf8_accept. rewrite C0, B0, B1, andb_true_r.
    rewrite unsigned_byte by divmod. unfold in_range.
    destruct (Z.eq_dec (r / 4096) 0) as [E0|N0]; [|destruct (Z.eq_dec (r / 4096) 13) as [E13|N13]].
    - rune_tests. f_equal. divmod.
    - rune_tests. f_equal. divmod.
    - rune_tests. f_equal. divmod. }
  cbn [app length]. unfold decode_rune. cbv zeta. rewrite unsigned_byte by divmod.
  pose proof (cont_byte (r / 4096 mod 64)) as H3. destruct H3 as [C2 B2]; [divmod|].
  unfold utf8_accept. rewrite C0, C1, B0, B1, B2, !andb_true_r.
  rewrite unsigned_byte by divmod. unfold in_range.
  destruct (Z.eq_dec (r / 262144) 0); [|destruct (Z.eq_dec (r / 262144) 4)];
    rune_tests; f_equal; divmod.
Qed.

Lemma decode_rune_valid s : valid_rune (decode_rune s).1 = true.
Proof.
  unfold valid_rune, in_range. destruct s as [|b0 t]; [done|]. unfold decode_rune. cbv zeta.
  pose proof (byte.unsigned_range b0). set (c0 := byte.unsigned b0) in *.
  destruct (Z.ltb_spec c0 0x80); [cbn [fst]; lia|].
  destruct (Z.ltb_spec c0 0xC2); [done|].
  destruct (Z.ltb_spec c0 0xE0).
  { destruct t as [|b1 t]; [done|]. unfold utf8_cont, utf8_bits.
    destruct (in_range 128 191 (byte.unsigned b1)) eqn:Hb1; [|done]. cbn [fst]. unfold in_range in Hb1. divmod. }
  destruct (Z.ltb_spec c0 0xF0).
  { destruct t as [|b1 [|b2 t]]; try done. unfold utf8_cont, utf8_bits, utf8_accept, in_range.
    match goal with |- context [if ?c && ?d then _ else _] => destruct (c && d) eqn:Hc end; [|done].
    cbn [fst]. apply andb_true_iff in Hc as [Hc _].
    repeat (case_match; try lia); divmod. }
  destruct (Z.ltb_spec c0 0xF5); [|done].
  destruct t as [|b1 [|b2 [|b3 t]]]; try done. unfold utf8_cont, utf8_bits, utf8_accept, in_range.
  match goal with |- context [if ?c && ?d && ?e then _ else _] => destruct (c && d && e) eqn:Hc end; [|done].
  cbn [fst]. apply andb_true_iff in Hc as [[Hc _]%andb_true_iff _].
  repeat (case_match; try lia); divmod.
Qed.

Lemma runes_fuel_enough n s : (length s <= n)%nat -> runes_fuel n s = runes s.
Proof.
  unfold runes. remember (length s) as m eqn:Hm. assert (Hle : (length s <= m)%nat) by lia. clear Hm.
  revert n s Hle. induction m as [|m IH]; intros n s Hm Hn.
  - destruct s; [|cbn in Hm; lia]. by destruct n.
  - destruct n as [|n]; [lia|]. destruct s as [|b s]; [done|]. cbn [runes_fuel].
    pose proof (decode_rune_width (b :: s) ltac:(done)). destruct (decode_rune (b :: s)) as [r w]. cbn [snd] in *.
    f_equal. rewrite (IH n) by (rewrite ?length_drop; cbn [length] in *; lia). done.
Qed.

Lemma runes_step b s :
  runes (b :: s) = (decode_rune (b :: s)).1 :: runes (drop (decode_rune (b :: s)).2 (b :: s)).
Proof.
  pose proof (decode_rune_width (b :: s) ltac:(done)) as Hw. unfold runes at 1. cbn [runes_fuel length].
  destruct (decode_rune (b :: s)) as [r w]. cbn [fst snd] in *. f_equal.
  apply runes_fuel_enough. rewrite length_drop. cbn [length] in *. lia.
Qed.

Lemma runes_encode r t : valid_rune r = true -> runes (encode_rune r ++ t) = r :: runes t.
Proof.
  intros Hv. unfold encode_rune. rewrite Hv. pose proof (decode_encode_raw r t Hv) as Hd.
  assert (Hl : (0 < length (encode_rune_raw r))%nat) by (unfold encode_rune_raw; repeat case_match; cbn; lia).
  destruct (encode_rune_raw r ++ t) as [|b s] eqn:E.
  { apply (f_equal length) in E. rewrite length_app in E. cbn in E. lia. }
  rewrite runes_step, Hd. cbn [fst snd]. rewrite <- E. by rewrite drop_app_length.
Qed.

Lemma runes_of_runes rs : forallb valid_rune rs = true -> runes (of_runes rs) = rs.
Proof.
  induction rs as [|r rs IH]; [done|]. cbn [forallb]. intros [Hr Hrs]%andb_true_iff.
  unfold of_runes in *. cbn [map concat]. by rewrite runes_encode, IH.
Qed.

Lemma runes_valid s : forallb valid_rune (runes s) = true.
Proof.
  remember (length s) as n eqn:Hn. assert (Hle : (length s <= n)%nat) by lia. clear Hn.
  revert s Hle. induction n as [|n IH]; intros s Hle.
  - destruct s; [done|cbn in Hle; lia].
  - destruct s as [|b s]; [done|]. rewrite runes_step. cbn [forallb].
    rewrite decode_rune_valid. cbn [andb]. apply IH.
    pose proof (decode_rune_width (b :: s) ltac:(done)). rewrite length_drop. cbn [length] in *. lia.
Qed.
