(* ===== verification/Types.v ===== *)
(** * Values, columns and rows (src/types/types.go)

    [DataType] is the Go integer type, with its constants; [Value] carries
    its payload as [GoData], the dynamic types an [interface{}] holds in
    this program. *)

From S2P Require Import Prelude GoLib.
Local Open Scope Z_scope.

(** ** Data types *)

Abbreviation DataType := Z (only parsing).

Definition TypeUnknown : DataType := 0.
Definition TypeNull : DataType := 1.
Definition TypeSeq : DataType := 2.
Definition TypeInt : DataType := 3.
Definition TypeFloat : DataType := 4.
Definition TypeChar : DataType := 5.
Definition TypeVarchar : DataType := 6.
Definition TypeText : DataType := 7.
Definition TypeDate : DataType := 8.
Definition TypeTime : DataType := 9.
Definition TypeDatetime : DataType := 10.
Definition TypeBlob : DataType := 11.
Definition TypeFile : DataType := 12.
Definition TypeImage : DataType := 13.

(** A [switch] on a data type: is [dt] one of the cases? *)
Definition one_of (dt : Z) (l : list Z) : bool := existsb (Z.eqb dt) l.

Definition DataType_String (dt : DataType) : bytes :=
  if dt =? TypeNull then str "NULL" else if dt =? TypeSeq then str "SEQ"
  else if dt =? TypeInt then str "INT" else if dt =? TypeFloat then str "FLOAT"
  else if dt =? TypeChar then str "CHAR" else if dt =? TypeVarchar then str "VARCHAR"
  else if dt =? TypeText then str "TEXT" else if dt =? TypeDate then str "DATE"
  else if dt =? TypeTime then str "TIME" else if dt =? TypeDatetime then str "DATETIME"
  else if dt =? TypeBlob then str "BLOB" else if dt =? TypeFile then str "FILE"
  else if dt =? TypeImage then str "IMAGE" else str "UNKNOWN".

Definition IsNumeric (dt : DataType) : bool := one_of dt [TypeInt; TypeFloat; TypeSeq].
Definition IsString (dt : DataType) : bool := one_of dt [TypeChar; TypeVarchar; TypeText].
Definition IsDateTime (dt : DataType) : bool := one_of dt [TypeDate; TypeTime; TypeDatetime].
Definition IsBinary (dt : DataType) : bool := one_of dt [TypeBlob; TypeFile; TypeImage].

Definition DataType_Size (dt : DataType) : Z :=
  if dt =? TypeNull then 0
  else if one_of dt [TypeSeq; TypeInt] then 8
  else if dt =? TypeFloat then 8
  else if one_of dt [TypeDate; TypeTime; TypeDatetime] then 8
  else -1.

(** The spellings each type is parsed from, in the order of the switch. *)
Definition type_names : list (list string * DataType) :=
  [(["SEQ"; "SERIAL"; "AUTO_INCREMENT"; "BIGSERIAL"], TypeSeq);
   (["INT"; "INTEGER"; "BIGINT"; "SMALLINT"; "TINYINT"; "INT64"], TypeInt);
   (["FLOAT"; "DOUBLE"; "DECIMAL"; "NUMERIC"; "REAL"; "DOUBLE PRECISION"], TypeFloat);
   (["CHAR"; "CHARACTER"], TypeChar);
   (["VARCHAR"; "VARCHAR2"; "NVARCHAR"; "TEXT"], TypeVarchar);
   (["CLOB"; "LONGTEXT"], TypeText);
   (["DATE"], TypeDate);
   (["TIME"], TypeTime);
   (["DATETIME"; "TIMESTAMP"; "TIMESTAMP WITHOUT TIME ZONE"], TypeDatetime);
   (["BLOB"; "BINARY"; "VARBINARY"; "BYTEA"; "LONGBLOB"], TypeBlob);
   (["FILE"], TypeFile);
   (["IMAGE"; "IMG"; "PICTURE"], TypeImage)]%string.

Definition bytes_eqb (a b : bytes) : bool := bool_decide (a = b).

Fixpoint type_lookup (s : bytes) (tbl : list (list string * DataType)) : DataType :=
  match tbl with
  | [] => TypeUnknown
  | (names, dt) :: t =>
    if existsb (fun n => bytes_eqb s (str n)) names then dt else type_lookup s t
  end.

(** ** strings helpers of this component *)

Fixpoint trim_left (fuel : nat) (s : bytes) : bytes :=
  match fuel, s with
  | S n, _ :: _ => let '(r, w) := decode_rune s in
                   if is_space r then trim_left n (drop w s) else s
  | _, _ => s
  end.

(** The length of [s] without its trailing white space. *)
Fixpoint trimmed_len (fuel : nat) (pos last : nat) (s : bytes) : nat :=
  match fuel, s with
  | S n, _ :: _ => let '(r, w) := decode_rune s in
                   trimmed_len n (pos + w) (if is_space r then last else pos + w)%nat (drop w s)
  | _, _ => last
  end.

(** strings.TrimSpace *)
Definition trim_space (s : bytes) : bytes :=
  let t := trim_left (length s) s in take (trimmed_len (length t) 0 0 t) t.

(** strings.Index(s, c) of a one-byte needle *)
Fixpoint index_byte (c : byte) (s : bytes) : option nat :=
  match s with
  | [] => None
  | b :: t => if decide (b = c) then Some 0%nat else S <$> index_byte c t
  end.

(** ** Values *)

Inductive IntKind := KInt | KInt8 | KInt16 | KInt32 | KInt64
                   | KUint | KUint8 | KUint16 | KUint32 | KUint64.

#[global] Instance IntKind_eq_dec : EqDecision IntKind.
Proof. solve_decision. Defined.

(** The dynamic values of [Value.Data]; [GOther] is any other Go value,
    with the name of its type and its [%v] text. *)
Inductive GoData :=
  | GNil
  | GInt (k : IntKind) (n : Z)
  | GFloat32 (f : spec_float)
  | GFloat64 (f : float64)
  | GString (s : bytes)
  | GBytes (b : bytes)
  | GBool (b : bool)
  | GTime (t : Time)
  | GOther (type text : bytes).

Record BlobRef := { ID : Z; Size : Z }.

Record Value := mkValue {
  Type_ : DataType;
  Data : GoData;
  IsNull : bool;
  BlobRefOf : option BlobRef
}.

Definition int_kind_name (k : IntKind) : bytes :=
  str match k with
      | KInt => "int" | KInt8 => "int8" | KInt16 => "int16" | KInt32 => "int32"
      | KInt64 => "int64" | KUint => "uint" | KUint8 => "uint8" | KUint16 => "uint16"
      | KUint32 => "uint32" | KUint64 => "uint64" end.

(** The values an integer kind can hold (int and uint are 64 bits wide). *)
Definition kind_range (k : IntKind) : Z * Z :=
  match k with
  | KInt8 => (- 2 ^ 7, 2 ^ 7) | KInt16 => (- 2 ^ 15, 2 ^ 15) | KInt32 => (- 2 ^ 31, 2 ^ 31)
  | KInt | KInt64 => (- 2 ^ 63, 2 ^ 63)
  | KUint8 => (0, 2 ^ 8) | KUint16 => (0, 2 ^ 16) | KUint32 => (0, 2 ^ 32)
  | KUint | KUint64 => (0, 2 ^ 64)
  end.

Definition detectType (d : GoData) : DataType :=
  match d with
  | GInt _ _ => TypeInt
  | GFloat32 _ | GFloat64 _ => TypeFloat
  | GString _ => TypeVarchar
  | GTime _ => TypeDatetime
  | GBytes _ => TypeBlob
  | GBool _ => TypeInt
  | GNil | GOther _ _ => TypeUnknown
  end.

Definition NewNullValue : Value := mkValue TypeNull GNil true None.
Definition NewValue (d : GoData) : Value :=
  match d with
  | GNil => mkValue TypeNull GNil true None
  | _ => mkValue (detectType d) d false None
  end.
Definition NewIntValue (n : Z) : Value := mkValue TypeInt (GInt KInt64 n) false None.
Definition NewFloatValue (f : float64) : Value := mkValue TypeFloat (GFloat64 f) false None.
Definition NewStringValue (s : bytes) : Value := mkValue TypeVarchar (GString s) false None.
Definition NewBoolValue (b : bool) : Value :=
  if b then mkValue TypeInt (GInt KInt64 1) false None
  else mkValue TypeInt (GInt KInt64 0) false None.
Definition NewDateValue (t : Time) : Value := mkValue TypeDate (GTime t) false None.
Definition NewDatetimeValue (t : Time) : Value := mkValue TypeDatetime (GTime t) false None.
Definition NewBlobValue (d : bytes) : Value := mkValue TypeBlob (GBytes d) false None.
Definition NewImageValue (d : bytes) : Value := mkValue TypeImage (GBytes d) false None.
(** The values of what a reader gives, or its error. *)
Definition NewBlobValueFromReader {E} (read : outcome E bytes) : outcome E Value := d ← read; Ok (NewBlobValue d).
Definition NewImageValueFromReader {E} (read : outcome E bytes) : outcome E Value := d ← read; Ok (NewImageValue d).
Definition NewBlobRefValue (blobID size : Z) : Value :=
  mkValue TypeBlob GNil false (Some {| ID := blobID; Size := size |}).

(** ** Hexadecimal literals *)

Definition trim_prefix (p s : bytes) : bytes :=
  if bytes_eqb (take (length p) s) p then drop (length p) s else s.

(** strings.ReplaceAll(s, c, "") of a one-byte [c] *)
Definition remove_byte (c : Z) (s : bytes) : bytes :=
  filter (fun b => byte.unsigned b <> c) s.

Inductive HexError := OddLength | InvalidHex.

Definition strip_hex (hexStr : bytes) : bytes :=
  let s := trim_prefix (str "0x") hexStr in
  let s := trim_prefix (str "0X") s in
  remove_byte 9 (remove_byte 13 (remove_byte 10 (remove_byte 32 s))).

Definition NewBlobValueFromHex (hexStr : bytes) : outcome HexError Value :=
  let s := strip_hex hexStr in
  if negb (zlen s mod 2 =? 0) then Err OddLength
  else match hex_decode s with
       | None => Err InvalidHex
       | Some d => Ok (NewBlobValue d)
       end.

Definition NewImageValueFromHex (hexStr : bytes) : outcome HexError Value :=
  let s := strip_hex hexStr in
  if negb (zlen s mod 2 =? 0) then Err OddLength
  else match hex_decode s with
       | None => Err InvalidHex
       | Some d => Ok (NewImageValue d)
       end.

(** ** Conversions *)

(** Go's [<] on strings: lexicographic on bytes. *)
Fixpoint bytes_ltb (a b : bytes) : bool :=
  match a, b with
  | [], [] => false
  | [], _ :: _ => true
  | _ :: _, [] => false
  | x :: a', y :: b' =>
    if byte.unsigned x <? byte.unsigned y then true
    else if byte.unsigned y <? byte.unsigned x then false else bytes_ltb a' b'
  end.

Inductive ConvError :=
  | CannotConvert (from to : bytes)   (* cannot convert %T to ... *)
  | ParseFailed (text : bytes).       (* the error of strconv or time.Parse *)

Section Conversions.
Context `{GoRuntime}.

(** fmt's [%v] *)
Definition sprint_v (d : GoData) : bytes :=
  match d with
  | GNil => str "<nil>"
  | GInt _ n => itoa n
  | GFloat32 f => fmt_float32 f
  | GFloat64 f => fmt_float64 f
  | GString s => s
  | GBytes b =>
    str "[" ++ concat (match map (fun x => itoa (byte.unsigned x)) b with
                       | [] => [] | h :: t => h :: map (fun x => str " " ++ x) t end) ++ str "]"
  | GBool b => if b then str "true" else str "false"
  | GTime t => time_string t
  | GOther _ s => s
  end.

Definition type_name (d : GoData) : bytes :=
  match d with
  | GNil => str "<nil>"
  | GInt k _ => int_kind_name k
  | GFloat32 _ => str "float32"
  | GFloat64 _ => str "float64"
  | GString _ => str "string"
  | GBytes _ => str "[]uint8"
  | GBool _ => str "bool"
  | GTime _ => str "time.Time"
  | GOther n _ => n
  end.

(** fmt's [%s]: a value with no string form prints as a bad verb. *)
Definition sprint_s (d : GoData) : bytes :=
  match d with
  | GString s => s
  | GBytes b => b
  | GTime t => time_string t
  | GNil => str "%!s(<nil>)"
  | _ => str "%!s(" ++ type_name d ++ str "=" ++ sprint_v d ++ str ")"
  end.

Definition ToInt64 (v : Value) : outcome ConvError Z :=
  if IsNull v then Err (CannotConvert (str "NULL") (str "int64"))
  else match Data v with
       | GInt _ n => Ok (i64 n)
       | GFloat32 f => Ok (float_to_int64 (float_of_float32 f))
       | GFloat64 f => Ok (float_to_int64 f)
       | GString s => match parse_int s with Some n => Ok n | None => Err (ParseFailed s) end
       | GBool b => Ok (if b then 1 else 0)
       | d => Err (CannotConvert (type_name d) (str "int64"))
       end.

Definition ToFloat64 (v : Value) : outcome ConvError float64 :=
  if IsNull v then Err (CannotConvert (str "NULL") (str "float64"))
  else match Data v with
       | GInt _ n => Ok (float_of_Z n)
       | GFloat32 f => Ok (float_of_float32 f)
       | GFloat64 f => Ok f
       | GString s => match parse_float s with Some f => Ok f | None => Err (ParseFailed s) end
       | d => Err (CannotConvert (type_name d) (str "float64"))
       end.

Definition ToBool (v : Value) : bool :=
  if IsNull v then false
  else match Data v with
       | GBool b => b
       | GInt (KInt | KInt8 | KInt16 | KInt32 | KInt64) _ =>
         match ToInt64 v with Ok i => negb (i =? 0) | _ => false end
       | GFloat32 _ | GFloat64 _ =>
         match ToFloat64 v with Ok f => negb (float_is_zero f) | _ => false end
       | GString s => let s := to_lower s in
                      bytes_eqb s (str "true") || bytes_eqb s (str "1") || bytes_eqb s (str "yes")
       | _ => false
       end.

Definition time_formats : list bytes :=
  map str ["2006-01-02 15:04:05"; "2006-01-02T15:04:05"; "2006-01-02 15:04:05.999";
           "2006-01-02T15:04:05.999"; "2006-01-02"; "15:04:05"]%string.

(** The first layout that parses. *)
Fixpoint first_parse (layouts : list bytes) (s : bytes) : option Time :=
  match layouts with
  | [] => None
  | l :: t => match time_parse l s with Some x => Some x | None => first_parse t s end
  end.

Definition ToTime (v : Value) : outcome ConvError Time :=
  if IsNull v then Err (CannotConvert (str "NULL") (str "time"))
  else match Data v with
       | GTime t => Ok t
       | GString s => match first_parse time_formats s with
                      | Some t => Ok t | None => Err (ParseFailed s) end
       | d => Err (CannotConvert (type_name d) (str "time"))
       end.

Definition ToBytes (v : Value) : outcome ConvError bytes :=
  if IsNull v then Ok []
  else match Data v with
       | GBytes b => Ok b
       | GString s => Ok s
       | d => Err (CannotConvert (type_name d) (str "[]byte"))
       end.

Definition ToHex (v : Value) : outcome ConvError bytes :=
  if IsNull v then Ok [] else data ← ToBytes v; Ok (hex_encode data).

Definition IsBlobRef (v : Value) : bool := bool_decide (is_Some (BlobRefOf v)).

Definition BlobSize (v : Value) : Z :=
  if IsNull v then 0
  else match BlobRefOf v with
       | Some r => Size r
       | None => match Data v with
                 | GBytes b => zlen b
                 | GString s => zlen s
                 | _ => 0
                 end
       end.

Definition ToString (v : Value) : bytes :=
  if IsNull v then str "NULL"
  else
    let dt := Type_ v in
    if one_of dt [TypeInt; TypeSeq] then
      match Data v with
      | GFloat64 f => itoa (float_to_int64 f)
      | GFloat32 f => itoa (float_to_int64 (float_of_float32 f))
      | d => sprint_v d
      end
    else if dt =? TypeFloat then
      match Data v with
      | GFloat64 f => if SFeqb f (float_of_Z (float_to_int64 f)) then fmt_float_0f f
                      else fmt_float64 f
      | d => sprint_v d
      end
    else if one_of dt [TypeChar; TypeVarchar; TypeText] then sprint_s (Data v)
    else if dt =? TypeFile then str "[FILE " ++ sprint_s (Data v) ++ str "]"
    else match Data v with
         | GTime t =>
           if dt =? TypeDate then time_format (str "2006-01-02") t
           else if dt =? TypeTime then time_format (str "15:04:05") t
           else if dt =? TypeDatetime then time_format (str "2006-01-02 15:04:05") t
           else sprint_v (Data v)
         | GBytes b =>
           if dt =? TypeBlob then str "[BLOB " ++ itoa (zlen b) ++ str " bytes]"
           else sprint_v (Data v)
         | d => sprint_v d
         end.

(** NULLs first, then as numbers, then as instants, then as text. *)
Definition Compare (v other : Value) : Z :=
  if IsNull v && IsNull other then 0
  else if IsNull v then -1
  else if IsNull other then 1
  else match ToFloat64 v, ToFloat64 other with
       | Ok vf, Ok wf => if SFltb vf wf then -1 else if SFltb wf vf then 1 else 0
       | _, _ =>
         match ToTime v, ToTime other with
         | Ok vt, Ok wt => if vt <? wt then -1 else if wt <? vt then 1 else 0
         | _, _ =>
           let vs := ToString v in let os := ToString other in
           if bytes_ltb vs os then -1 else if bytes_ltb os vs then 1 else 0
         end
       end.

Definition Equals (v other : Value) : bool := Compare v other =? 0.

Definition ParseDataType (s : bytes) : DataType :=
  let s := to_upper (trim_space s) in
  let s := match index_byte (byte.of_Z 40) s with
           | Some (S _ as idx) => take idx s
           | _ => s
           end in
  type_lookup s type_names.
End Conversions.

(** [Clone] copies the slice and the blob reference, whose contents are
    values here. *)
Definition Value_Clone (v : Value) : Value :=
  if IsNull v then NewNullValue
  else mkValue (Type_ v) (Data v) false
         match BlobRefOf v with Some r => Some {| ID := ID r; Size := Size r |} | None => None end.

(** ** Hash: FNV-1a over the type byte and the payload *)

Definition fnv_step (h : Z) (b : byte) : Z := u64 (Z.lxor h (byte.unsigned b) * 1099511628211).
Definition fnv64a (s : bytes) : Z := fold_left fnv_step s 14695981039346656037.

(** The IEEE bits of a float64 (math.Float64bits). *)
Definition float64_bits (f : float64) : Z :=
  match f with
  | S754_zero s => if s then 2 ^ 63 else 0
  | S754_infinity s => (if s then 2 ^ 63 else 0) + 0x7FF * 2 ^ 52
  | S754_nan => 0x7FF8000000000001
  | S754_finite s m e =>
    (if s then 2 ^ 63 else 0) +
    (if Z.pos m <? 2 ^ 52 then Z.pos m else (e + 1075) * 2 ^ 52 + (Z.pos m - 2 ^ 52))
  end.

Section Hash.
Context `{GoRuntime}.

(** The conversion errors are dropped by the code: the payload is then 0. *)
Definition Hash (v : Value) : Z :=
  if IsNull v then 0
  else
    let payload :=
      if one_of (Type_ v) [TypeInt; TypeSeq] then
        put_le 8 (match ToInt64 v with Ok i => i | _ => 0 end)
      else if Type_ v =? TypeFloat then
        put_le 8 (match ToFloat64 v with Ok f => float64_bits f | _ => 0 end)
      else ToString v in
    fnv64a (byte.of_Z (Type_ v) :: payload).
End Hash.

(** ** Columns, tables and rows *)

Record ColumnDef := mkColumn {
  Name : bytes;
  CType : DataType;
  Length : Z;
  Precision : Z;
  Nullable : bool;
  Default : option Value;
  PrimaryKey : bool;
  AutoInc : bool
}.

Definition NewColumnDef (name : bytes) (typ : DataType) (len : Z) : ColumnDef :=
  mkColumn name typ len 0 true None false false.

Definition WithNullable (c : ColumnDef) (nullable : bool) : ColumnDef :=
  mkColumn (Name c) (CType c) (Length c) (Precision c) nullable (Default c) (PrimaryKey c) (AutoInc c).
Definition WithPrimaryKey (c : ColumnDef) (pk : bool) : ColumnDef :=
  mkColumn (Name c) (CType c) (Length c) (Precision c) (if pk then false else Nullable c)
    (Default c) pk (AutoInc c).
Definition WithAutoInc (c : ColumnDef) (auto : bool) : ColumnDef :=
  mkColumn (Name c) (CType c) (Length c) (Precision c) (Nullable c) (Default c) (PrimaryKey c) auto.
Definition WithDefault (c : ColumnDef) (val : GoData) : ColumnDef :=
  mkColumn (Name c) (CType c) (Length c) (Precision c) (Nullable c)
    (Some (mkValue (CType c) val false None)) (PrimaryKey c) (AutoInc c).

Definition ColumnDef_String (c : ColumnDef) : bytes :=
  Name c ++ str " " ++ DataType_String (CType c)
  ++ (if 0 <? Length c then str "(" ++ itoa (Length c) ++ str ")" else [])
  ++ (if PrimaryKey c then str " PRIMARY KEY" else [])
  ++ (if AutoInc c then str " AUTO INCREMENT" else [])
  ++ (if negb (Nullable c) && negb (PrimaryKey c) then str " NOT NULL" else []).

(** The zero value of a column, used for a missing definition. *)
Definition zero_column : ColumnDef := mkColumn [] TypeUnknown 0 0 false None false false.

Record TableInfo := mkTable {
  TID : Z;
  TName : bytes;
  Columns : list ColumnDef;
  RowCount : Z
}.

Definition NewTableInfo (id : Z) (name : bytes) (columns : list ColumnDef) : TableInfo :=
  mkTable id name columns 0.

Definition PrimaryKeyColumn (t : TableInfo) : option ColumnDef :=
  List.find PrimaryKey (Columns t).

Fixpoint find_column `{GoRuntime} (i : Z) (name : bytes) (cols : list ColumnDef) : Z * bool :=
  match cols with
  | [] => (-1, false)
  | c :: t => if bytes_eqb (to_lower (Name c)) name then (i, true) else find_column (i + 1) name t
  end.
Definition ColumnIndex `{GoRuntime} (t : TableInfo) (name : bytes) : Z * bool :=
  find_column 0 (to_lower name) (Columns t).

Definition ColumnNames (t : TableInfo) : list bytes := map Name (Columns t).

Record Row := mkRow { RowID : Z; RowData : list Value }.
Definition NewRow (data : list Value) : Row := mkRow 0 data.
Definition Row_Clone (r : Row) : Row := mkRow (RowID r) (map Value_Clone (RowData r)).

(** ** A runtime to evaluate examples with

    It prints and parses integral numbers only, which is enough for the
    concrete inputs the witnesses use. *)
Definition plain_runtime : GoRuntime := {|
  fmt_float64 f := match float_trunc f with Some z => itoa z | None => str "NaN" end;
  fmt_float32 f := match float_trunc f with Some z => itoa z | None => str "NaN" end;
  fmt_float_0f f := match float_trunc f with Some z => itoa z | None => str "NaN" end;
  parse_float s := match parse_int s with Some z => Some (float_of_Z z) | None => None end;
  time_string t := itoa t;
  time_format _ t := itoa t;
  time_parse _ _ := None;
  oob_int64 _ := - 2 ^ 63;
  oob_uint64 _ := 2 ^ 63;
  rune_lower r := r;
  rune_upper r := r
|}.

(** ** Lemmas *)

Lemma bytes_eqb_eq a b : bytes_eqb a b = true <-> a = b.
Proof. apply bool_decide_eq_true. Qed.

Lemma bytes_ltb_asym a b : bytes_ltb a b = true -> bytes_ltb b a = false.
Proof.
  revert b. induction a as [|x a IH]; intros [|y b]; simpl; try done.
  destruct (Z.ltb_spec (byte.unsigned x) (byte.unsigned y)),
    (Z.ltb_spec (byte.unsigned y) (byte.unsigned x)); try done; try lia. apply IH.
Qed.

Lemma bytes_ltb_irrefl a : bytes_ltb a a = false.
Proof. induction a as [|x a IH]; simpl; [done|]. by rewrite Z.ltb_irrefl. Qed.

(** Two strings, neither below the other, are equal. *)
Lemma bytes_ltb_total a b : bytes_ltb a b = false -> bytes_ltb b a = false -> a = b.
Proof.
  revert b. induction a as [|x a IH]; intros [|y b]; simpl; try done.
  destruct (Z.ltb_spec (byte.unsigned x) (byte.unsigned y)),
    (Z.ltb_spec (byte.unsigned y) (byte.unsigned x)); try done.
  intros. f_equal; [apply byte.unsigned_inj; lia | auto].
Qed.

Lemma SFcompare_sym x y : SFcompare y x = CompOpp <$> SFcompare x y.
Proof.
  destruct x as [[]|[]| |[] m1 e1], y as [[]|[]| |[] m2 e2]; try reflexivity; simpl.
  all: rewrite (Z.compare_antisym e1 e2); destruct (e1 ?= e2); simpl; try reflexivity.
  all: change (Pos.compare_cont Eq) with Pos.compare.
  all: by rewrite (Pos.compare_antisym m1 m2).
Qed.

Lemma SFltb_asym x y : SFltb x y = true -> SFltb y x = false.
Proof.
  unfold SFltb. rewrite (SFcompare_sym x y). by destruct (SFcompare x y) as [[]|].
Qed.

Lemma SFltb_irrefl x : SFltb x x = false.
Proof.
  unfold SFltb. pose proof (SFcompare_sym x x) as E.
  by destruct (SFcompare x x) as [[]|].
Qed.

(** A three-way test with an asymmetric order, and the test the other way. *)
Definition three_way (lt gt : bool) : Z := if lt then -1 else if gt then 1 else 0.

Lemma three_way_swap lt gt :
  (lt = true -> gt = false) -> three_way gt lt = - three_way lt gt.
Proof. by destruct lt, gt; intros H; [specialize (H eq_refl)|..]. Qed.

Lemma ltb_asym (a b : Z) : (a <? b) = true -> (b <? a) = false.
Proof. lia. Qed.

Section Order.
Context `{GoRuntime}.

Lemma Compare_unfold v w :
  IsNull v = false -> IsNull w = false ->
  Compare v w =
  match ToFloat64 v, ToFloat64 w with
  | Ok vf, Ok wf => three_way (SFltb vf wf) (SFltb wf vf)
  | _, _ =>
    match ToTime v, ToTime w with
    | Ok vt, Ok wt => three_way (vt <? wt) (wt <? vt)
    | _, _ => three_way (bytes_ltb (ToString v) (ToString w)) (bytes_ltb (ToString w) (ToString v))
    end
  end.
Proof. intros Hv Hw. unfold Compare. by rewrite Hv, Hw. Qed.

Lemma compare_swap v w : Compare w v = - Compare v w.
Proof.
  destruct (IsNull v) eqn:Hv, (IsNull w) eqn:Hw;
    [by unfold Compare; rewrite Hv, Hw ..|].
  rewrite !Compare_unfold by done.
  assert (Ht : three_way (bytes_ltb (ToString w) (ToString v)) (bytes_ltb (ToString v) (ToString w))
               = - three_way (bytes_ltb (ToString v) (ToString w)) (bytes_ltb (ToString w) (ToString v))).
  { apply three_way_swap, bytes_ltb_asym. }
  destruct (ToFloat64 v) as [vf| | |], (ToFloat64 w) as [wf| | |];
    try (apply three_way_swap, SFltb_asym).
  all: destruct (ToTime v) as [vt| | |], (ToTime w) as [wt| | |];
    try exact Ht; apply three_way_swap, ltb_asym.
Qed.

(** Swapping the operands negates [Value.Compare]. *)
Theorem Compare_antisym v w : Compare w v = - Compare v w.
Proof. exact (compare_swap v w). Qed.
End Order.

(** The comparison is not transitive: as the fallbacks mix,
    the texts "2", "10" and "1a" form a cycle. *)
Theorem Compare_cycle :
  let cmp a b := @Compare plain_runtime (NewStringValue (str a)) (NewStringValue (str b)) in
  cmp "2"%string "10"%string = -1 /\ cmp "10"%string "1a"%string = -1 /\ cmp "1a"%string "2"%string = -1.
Proof. vm_compute. auto. Qed.

(** ** Names of types *)

(** A type is parsed back from its own name, except for TEXT,
    whose name is a spelling of VARCHAR, and for the types without a
    spelling. *)
Theorem ParseDataType_String `{GoRuntime} dt :
  ParseDataType (DataType_String dt) =
  if one_of dt [TypeUnknown; TypeNull] then TypeUnknown
  else if dt =? TypeText then TypeVarchar
  else if in_range TypeSeq TypeImage dt then dt else TypeUnknown.
Proof.
  unfold one_of, in_range. cbn [existsb].
  destruct (decide (0 <= dt <= 13)) as [Hd|Hd].
  - assert (Hc : dt = 0 \/ dt = 1 \/ dt = 2 \/ dt = 3 \/ dt = 4 \/ dt = 5 \/ dt = 6 \/ dt = 7
      \/ dt = 8 \/ dt = 9 \/ dt = 10 \/ dt = 11 \/ dt = 12 \/ dt = 13) by lia.
    destruct_or! Hc; subst dt; vm_compute; reflexivity.
  - unfold DataType_String, TypeUnknown, TypeNull, TypeSeq, TypeInt, TypeFloat, TypeChar,
      TypeVarchar, TypeText, TypeDate, TypeTime, TypeDatetime, TypeBlob, TypeFile, TypeImage.
    repeat match goal with
    | |- context [dt =? ?c] => replace (dt =? c) with false by lia
    end.
    replace ((2 <=? dt) && (dt <=? 13)) with false by lia.
    vm_compute. reflexivity.
Qed.

(** ** Hexadecimal round trip *)

Definition lower_hex (b : byte) : Prop :=
  48 <= byte.unsigned b <= 57 \/ 97 <= byte.unsigned b <= 102.

Lemma hex_digit_lower d : 0 <= d < 16 -> lower_hex (hex_digit d).
Proof.
  intros. unfold lower_hex, hex_digit.
  destruct (Z.ltb_spec d 10); rewrite byte.unsigned_of_Z; unfold byte.wrap;
    rewrite Z.mod_small by lia; lia.
Qed.

Lemma hex_encode_lower s : Forall lower_hex (hex_encode s).
Proof.
  induction s as [|b s IH]; [constructor|].
  unfold hex_encode in *. cbn [map concat app].
  pose proof (byte.unsigned_range b).
  apply Forall_cons_2; [|apply Forall_cons_2; [|exact IH]]; apply hex_digit_lower.
  - split; [apply Z.div_pos; lia | apply Z.div_lt_upper_bound; lia].
  - apply Z.mod_pos_bound. lia.
Qed.

Lemma length_hex_encode s : length (hex_encode s) = (2 * length s)%nat.
Proof.
  induction s as [|b s IH]; [done|]. unfold hex_encode in *.
  cbn [map concat app length] in *. rewrite IH. lia.
Qed.

Lemma remove_byte_id c s : Forall (fun b => byte.unsigned b <> c) s -> remove_byte c s = s.
Proof.
  unfold remove_byte. induction 1 as [|b s Hb Hs IH]; [done|].
  rewrite filter_cons_True by done. by f_equal.
Qed.

Lemma trim_prefix_id a c s :
  Forall (fun b => b <> c) s -> trim_prefix [a; c] s = s.
Proof.
  intros Hs. unfold trim_prefix, bytes_eqb. rewrite bool_decide_eq_false_2; [done|].
  destruct Hs as [|x s Hx Hs]; [done|]. destruct Hs as [|y s Hy Hs]; simpl; [done|].
  congruence.
Qed.

Lemma strip_hex_lower s : Forall lower_hex s -> strip_hex s = s.
Proof.
  intros Hs. unfold strip_hex.
  assert (Hne : forall c, ~ (48 <= c <= 57 \/ 97 <= c <= 102) ->
    Forall (fun b => byte.unsigned b <> c) s).
  { intros c Hc. eapply Forall_impl; [exact Hs|]. intros b Hb E. apply Hc. by rewrite <- E. }
  assert (Hb : forall c, ~ (48 <= byte.unsigned c <= 57 \/ 97 <= byte.unsigned c <= 102) ->
    Forall (fun b => b <> c) s).
  { intros c Hc. eapply Forall_impl; [apply (Hne _ Hc)|]. intros b Hx E. by subst. }
  change (str "0x") with [byte.of_Z 48; byte.of_Z 120].
  change (str "0X") with [byte.of_Z 48; byte.of_Z 88].
  rewrite (trim_prefix_id (byte.of_Z 48) (byte.of_Z 120)) by (apply Hb; rewrite byte.unsigned_of_Z; unfold byte.wrap; rewrite Z.mod_small; lia).
  rewrite (trim_prefix_id (byte.of_Z 48) (byte.of_Z 88)) by (apply Hb; rewrite byte.unsigned_of_Z; unfold byte.wrap; rewrite Z.mod_small; lia).
  by rewrite (remove_byte_id 32), (remove_byte_id 10), (remove_byte_id 13), (remove_byte_id 9)
    by (apply Hne; lia).
Qed.

(** Reading the hexadecimal text of a blob value gives back the blob. *)
Theorem blob_hex_roundtrip `{GoRuntime} d :
  exists h, ToHex (NewBlobValue d) = Ok h
    /\ NewBlobValueFromHex h = Ok (NewBlobValue d)
    /\ NewImageValueFromHex h = Ok (NewImageValue d).
Proof.
  exists (hex_encode d). split; [done|].
  assert (Hl : zlen (hex_encode d) mod 2 = 0).
  { unfold zlen. rewrite length_hex_encode.
    replace (Z.of_nat (2 * length d)) with (Z.of_nat (length d) * 2) by lia.
    by apply Z.mod_mul. }
  unfold NewBlobValueFromHex, NewImageValueFromHex.
  rewrite strip_hex_lower by apply hex_encode_lower. rewrite Hl. simpl.
  by rewrite hex_decode_encode.
Qed.

(** Equal values may have different hashes: an INT and a FLOAT of
    the same number compare equal and hash apart. *)
Theorem Equals_not_Hash :
  let v := NewIntValue 1 in let w := NewFloatValue (float_of_Z 1) in
  @Equals plain_runtime v w = true /\ @Hash plain_runtime v <> @Hash plain_runtime w.
Proof. vm_compute. split; [reflexivity | discriminate]. Qed.
