(* ===== verification/RowCodec.v ===== *)
(** * The row format (src/storage/page.go, row encoding)

    [EncodeRow] and [DecodeRow] with their column codecs, and the size
    estimate. A row is its identifier, a 16-bit column count and the
    columns one after the other; each column starts with its type byte. *)

From S2P Require Import Prelude GoLib Types.
Local Open Scope Z_scope.

Definition ColNullMarker : Z := 0xFF.
Definition ColBlobRefMarker : Z := 0xFE.

(** The types whose payload is a length-prefixed string. *)
Definition text_types : list Z := [TypeVarchar; TypeText; TypeChar].
Definition time_types : list Z := [TypeDate; TypeTime; TypeDatetime].
Definition blob_types : list Z := [TypeBlob; TypeImage].

Section Codec.
Context `{GoRuntime}.

(** ** Encoding *)

(** The integer stored for an INT or SEQ column: other dynamic types than
    these leave the variable at zero. *)
Definition int_payload (d : GoData) : Z :=
  match d with
  | GInt (KInt64 | KInt | KInt32) n => n
  | GFloat64 f => float_to_int64 f
  | _ => 0
  end.

(** [uint64(val)] of the float: its integer part, not its bits. *)
Definition float_payload (d : GoData) : Z :=
  match d with
  | GFloat64 f => float_to_uint64 f
  | GFloat32 f => float_to_uint64 (float_of_float32 f)
  | _ => float_to_uint64 (S754_zero false)
  end.

Definition text_payload (d : GoData) : bytes :=
  match d with GString s => s | d => sprint_v d end.

Definition blob_payload (d : GoData) : bytes :=
  match d with GBytes b => b | GString s => s | d => sprint_v d end.

Definition sized (type : Z) (data : bytes) : bytes :=
  byte.of_Z type :: put_le 4 (zlen data) ++ data.

Definition encodeColumn (v : Value) : bytes :=
  if IsNull v then [byte.of_Z ColNullMarker]
  else match BlobRefOf v with
  | Some r =>
    byte.of_Z (Type_ v) :: byte.of_Z ColBlobRefMarker :: put_le 8 (ID r) ++ put_le 8 (u64 (Size r))
  | None =>
    if one_of (Type_ v) [TypeInt; TypeSeq] then
      byte.of_Z (Type_ v) :: put_le 8 (u64 (int_payload (Data v)))
    else if Type_ v =? TypeFloat then byte.of_Z (Type_ v) :: put_le 8 (float_payload (Data v))
    else if one_of (Type_ v) text_types then sized (Type_ v) (text_payload (Data v))
    else if one_of (Type_ v) blob_types then sized (Type_ v) (blob_payload (Data v))
    else if one_of (Type_ v) time_types then sized (Type_ v) (text_payload (Data v))
    else sized (Type_ v) (sprint_v (Data v))
  end.

Definition EncodeRow (rowID : Z) (row : list Value) : bytes :=
  put_le 8 rowID ++ put_le 2 (u16 (zlen row)) ++ concat (map encodeColumn row).

(** ** Decoding *)

Inductive ColError := EmptyColumn | TooShort | Truncated.
Inductive RowError := RowTooShort (n : Z) | BadColumn (i : nat) (e : ColError).

(** A length-prefixed payload: [data[5 : 5+length]] with the sum taken in
    uint32, as the code does; an upper bound below 5 panics. *)
Definition read_sized (data : bytes) : outcome ColError (bytes * Z) :=
  if zlen data <? 5 then Err TooShort
  else
    let length := get_le (slice 1 5 data) in
    if zlen data <? 5 + length then Err Truncated
    else
      let hi := u32 (5 + length) in
      if hi <? 5 then Panic else Ok (slice 5 (Z.to_nat hi) data, hi).

Definition decodeColumn (data : bytes) (colDef : ColumnDef) : outcome ColError (Value * Z) :=
  match data with
  | [] => Err EmptyColumn
  | b :: _ =>
    let dataType := byte.unsigned b in
    if dataType =? ColNullMarker then Ok (NewNullValue, 1)
    else if one_of dataType blob_types && (18 <=? zlen data)
            && (byte.unsigned (nth 1 data Byte.x00) =? ColBlobRefMarker) then
      Ok (NewBlobRefValue (get_le (slice 2 10 data)) (i64 (get_le (slice 10 18 data))), 18)
    else if one_of dataType [TypeInt; TypeSeq] then
      if zlen data <? 9 then Err TooShort
      else Ok (NewIntValue (i64 (get_le (slice 1 9 data))), 9)
    else if dataType =? TypeFloat then
      if zlen data <? 9 then Err TooShort
      else Ok (NewFloatValue (float_of_Z (get_le (slice 1 9 data))), 9)
    else if one_of dataType text_types then
      '(s, n) ← read_sized data; Ok (NewStringValue s, n)
    else if one_of dataType blob_types then
      '(s, n) ← read_sized data; Ok (NewBlobValue s, n)
    else if one_of dataType time_types then
      '(s, n) ← read_sized data; Ok (NewStringValue s, n)
    else match read_sized data with
         | Ok (s, n) => Ok (NewStringValue s, n)
         | Panic => Panic
         | _ => Ok (NewNullValue, 1)
         end
  end.

Fixpoint decode_columns (count i : nat) (data : bytes) (colDefs : list ColumnDef)
  : outcome RowError (list Value) :=
  match count with
  | O => Ok []
  | S count' =>
    match decodeColumn data (nth i colDefs zero_column) with
    | Ok (val, bytesRead) =>
      vs ← decode_columns count' (S i) (drop (Z.to_nat bytesRead) data) colDefs;
      Ok (val :: vs)
    | Err e => Err (BadColumn i e)
    | Panic => Panic
    | Hang => Hang
    end
  end.

Definition DecodeRow (data : bytes) (colDefs : list ColumnDef)
  : outcome RowError (Z * list Value) :=
  if zlen data <? 10 then Err (RowTooShort (zlen data))
  else
    let rowID := get_le (slice 0 8 data) in
    let colCount := get_le (slice 8 10 data) in
    vs ← decode_columns (Z.to_nat colCount) 0 (drop 10 data) colDefs;
    Ok (rowID, vs).

(** ** Size estimate *)

Definition estimate_column (v : Value) : Z :=
  if IsNull v then 1
  else match BlobRefOf v with
  | Some _ => 18
  | None =>
    if one_of (Type_ v) [TypeInt; TypeSeq; TypeFloat] then 9
    else if one_of (Type_ v) (text_types ++ blob_types ++ time_types) then
      5 + match Data v with
          | GString s => zlen s
          | GBytes b => zlen b
          | d => zlen (sprint_v d)
          end
    else 10
  end.

Definition EstimateRowSize (row : list Value) : Z :=
  fold_left (fun size v => size + estimate_column v) row 10.
End Codec.

(** ** What survives a round trip

    The decoder rebuilds a value from the payload alone: SEQ becomes INT,
    every textual and temporal type becomes VARCHAR, IMAGE becomes BLOB, and
    a FLOAT keeps the integer part that was stored. *)

Section RoundTrip.
Context `{GoRuntime}.

Definition stored (v : Value) : Value :=
  if IsNull v then NewNullValue
  else match BlobRefOf v with
  | Some r => NewBlobRefValue (ID r) (Size r)
  | None =>
    if one_of (Type_ v) [TypeInt; TypeSeq] then NewIntValue (int_payload (Data v))
    else if Type_ v =? TypeFloat then NewFloatValue (float_of_Z (float_payload (Data v)))
    else if one_of (Type_ v) text_types then NewStringValue (text_payload (Data v))
    else if one_of (Type_ v) blob_types then NewBlobValue (blob_payload (Data v))
    else if one_of (Type_ v) time_types then NewStringValue (text_payload (Data v))
    else NewStringValue (sprint_v (Data v))
  end.

(** The payload of a length-prefixed column. *)
Definition sized_payload (v : Value) : bytes :=
  if one_of (Type_ v) (text_types ++ time_types) then text_payload (Data v)
  else if one_of (Type_ v) blob_types then blob_payload (Data v)
  else sprint_v (Data v).

(** The values the format holds: a known type; a blob reference only on a
    blob column, with its fields in range; an INT in 64 bits; a payload
    below 4 GB; and an inline blob whose length is not 254 modulo 256,
    since its low length byte would be the blob reference marker. *)
Definition codec_ok (v : Value) : bool :=
  IsNull v ||
  in_range 0 13 (Type_ v) &&
  match BlobRefOf v with
  | Some r => one_of (Type_ v) blob_types && in_range 0 (2 ^ 64 - 1) (ID r)
              && in_range (- 2 ^ 63) (2 ^ 63 - 1) (Size r)
  | None =>
    if one_of (Type_ v) [TypeInt; TypeSeq] then
      in_range (- 2 ^ 63) (2 ^ 63 - 1) (int_payload (Data v))
    else if Type_ v =? TypeFloat then true
    else (zlen (sized_payload v) <? 2 ^ 32 - 5)
         && (negb (one_of (Type_ v) blob_types) || negb (zlen (sized_payload v) mod 256 =? 254))
  end.

Lemma in_range_iff lo hi z : in_range lo hi z = true <-> lo <= z <= hi.
Proof. unfold in_range. rewrite andb_true_iff, !Z.leb_le. done. Qed.

Lemma float_to_uint64_range f : in_u64 (float_to_uint64 f).
Proof.
  unfold float_to_uint64. destruct (float_trunc f) as [z|]; [|apply u64_range].
  destruct ((0 <=? z) && (z <? 2 ^ 64)) eqn:E; [|apply u64_range].
  zbool. by split.
Qed.

Lemma float_payload_range d : in_u64 (float_payload d).
Proof. destruct d; apply float_to_uint64_range. Qed.

Lemma sized_app ty data rest :
  sized ty data ++ rest = byte.of_Z ty :: put_le 4 (zlen data) ++ data ++ rest.
Proof. unfold sized. cbn [app]. by rewrite <- app_assoc. Qed.

Lemma zlen_sized ty data : zlen (sized ty data) = 5 + zlen data.
Proof. unfold sized. simpl_len. lia. Qed.

Lemma read_sized_sized ty data rest :
  zlen data < 2 ^ 32 - 5 ->
  read_sized (sized ty data ++ rest) = Ok (data, zlen (sized ty data)).
Proof.
  intros Hd. pose proof (zlen_nonneg data). pose proof (zlen_nonneg rest).
  unfold read_sized. rewrite zlen_app, zlen_sized, sized_app.
  change 5%nat with (S 4). rewrite slice_cons, slice_field.
  rewrite get_put_u32 by (unfold in_u32; lia).
  replace (5 + zlen data + zlen rest <? 5) with false by lia.
  replace (5 + zlen data + zlen rest <? 5 + zlen data) with false by lia.
  rewrite u32_small by (unfold in_u32; lia).
  replace (5 + zlen data <? 5) with false by lia.
  do 2 f_equal.
  replace (Z.to_nat (5 + zlen data)) with (S (4 + length data)) by (unfold zlen; lia).
  rewrite slice_cons, slice_skip_field by lia.
  rewrite Nat.sub_diag. replace (4 + length data - 4)%nat with (length data) by lia.
  by apply slice_app_exact.
Qed.

(** The second byte of a length-prefixed column is the low byte of its length. *)
Lemma sized_second ty data rest :
  zlen data < 2 ^ 32 - 5 ->
  byte.unsigned (nth 1 (sized ty data ++ rest) Byte.x00) = zlen data mod 256.
Proof.
  intros Hd. rewrite sized_app. cbn [nth].
  unfold put_le. rewrite app_nth1 by (rewrite LittleEndianList.length_le_split; lia).
  rewrite <- List.nth_default_eq, LittleEndianList.nth_default_le_split by lia.
  change (8 * Z.of_nat 0) with 0. rewrite Z.shiftr_0_r. by rewrite byte.unsigned_of_Z.
Qed.

(** A type of one group is in no group disjoint from it. *)
Lemma one_of_disjoint l1 l2 t :
  existsb (fun a => one_of a l2) l1 = false -> one_of t l1 = true -> one_of t l2 = false.
Proof.
  intros Hdis (a & Ha & ->%Z.eqb_eq)%existsb_exists.
  destruct (one_of a l2) eqn:E; [|done].
  rewrite <- Hdis. symmetry. apply existsb_exists. eauto.
Qed.

Lemma type_byte v : in_range 0 13 (Type_ v) = true ->
  byte.unsigned (byte.of_Z (Type_ v)) = Type_ v /\ (Type_ v =? ColNullMarker) = false.
Proof.
  intros Hty%in_range_iff. unfold ColNullMarker.
  split; [apply unsigned_of_small; unfold in_u8; lia | lia].
Qed.

Lemma decode_blobref v r rest cd :
  in_range 0 13 (Type_ v) = true -> one_of (Type_ v) blob_types = true ->
  in_u64 (ID r) -> in_i64 (Size r) ->
  decodeColumn (byte.of_Z (Type_ v) :: byte.of_Z ColBlobRefMarker
                :: (put_le 8 (ID r) ++ put_le 8 (u64 (Size r))) ++ rest) cd
  = Ok (NewBlobRefValue (ID r) (Size r), 18).
Proof.
  intros [Hb Hn]%type_byte Hbt Hid Hsz. pose proof (zlen_nonneg rest).
  unfold decodeColumn. rewrite Hb, Hn, Hbt, <- app_assoc. simpl_len. ztest. cbn [nth andb].
  change (byte.unsigned (byte.of_Z ColBlobRefMarker) =? ColBlobRefMarker) with true. cbn iota.
  change 10%nat with (S (S 8)) at 1 2. change 18%nat with (S (S 16)). change 2%nat with (S (S 0)).
  rewrite !slice_cons, slice_field, slice_skip_field by lia. simpl (_ - _)%nat.
  rewrite slice_field, !get_put_u64 by (done || apply u64_range).
  by rewrite i64_u64, i64_small.
Qed.

Lemma decode_int v n rest cd :
  in_range 0 13 (Type_ v) = true -> one_of (Type_ v) [TypeInt; TypeSeq] = true -> in_i64 n ->
  decodeColumn (byte.of_Z (Type_ v) :: put_le 8 (u64 n) ++ rest) cd = Ok (NewIntValue n, 9).
Proof.
  intros [Hb Hn]%type_byte Hint Hr. pose proof (zlen_nonneg rest).
  unfold decodeColumn. rewrite Hb, Hn, Hint.
  rewrite (one_of_disjoint [TypeInt; TypeSeq] blob_types) by done.
  cbn [andb]. simpl_len. ztest.
  change 9%nat with (S 8). rewrite slice_cons, slice_field, get_put_u64 by apply u64_range.
  by rewrite i64_u64, i64_small.
Qed.

Lemma decode_float v n rest cd :
  Type_ v = TypeFloat -> in_u64 n ->
  decodeColumn (byte.of_Z (Type_ v) :: put_le 8 n ++ rest) cd
  = Ok (NewFloatValue (float_of_Z n), 9).
Proof.
  intros Hfl Hr. pose proof (zlen_nonneg rest).
  unfold decodeColumn. rewrite Hfl. rewrite unsigned_of_small by (unfold in_u8, TypeFloat; lia).
  change (TypeFloat =? ColNullMarker) with false.
  change (one_of TypeFloat blob_types) with false.
  change (one_of TypeFloat [TypeInt; TypeSeq]) with false.
  change (TypeFloat =? TypeFloat) with true.
  cbn [andb]. simpl_len. ztest.
  change 9%nat with (S 8). by rewrite slice_cons, slice_field, get_put_u64.
Qed.

(** The length-prefixed columns. *)
Lemma decode_sized v data rest cd :
  in_range 0 13 (Type_ v) = true ->
  one_of (Type_ v) [TypeInt; TypeSeq] = false -> (Type_ v =? TypeFloat) = false ->
  zlen data < 2 ^ 32 - 5 ->
  negb (one_of (Type_ v) blob_types) || negb (zlen data mod 256 =? 254) = true ->
  decodeColumn (sized (Type_ v) data ++ rest) cd =
  Ok (if one_of (Type_ v) blob_types then NewBlobValue data else NewStringValue data,
      zlen (sized (Type_ v) data)).
Proof.
  intros [Hb Hn]%type_byte Hint Hfl Hlen Hmark. unfold decodeColumn.
  rewrite read_sized_sized, sized_second by done.
  rewrite sized_app at 1. cbn iota. rewrite Hb, Hn, Hint, Hfl.
  assert (Hm : one_of (Type_ v) blob_types && (18 <=? zlen (sized (Type_ v) data ++ rest)) &&
               (zlen data mod 256 =? ColBlobRefMarker) = false).
  { destruct (one_of (Type_ v) blob_types); [|done]. apply negb_true_iff in Hmark.
    unfold ColBlobRefMarker. rewrite Hmark. apply andb_false_r. }
  rewrite Hm. destruct (one_of (Type_ v) text_types) eqn:Ht.
  - by rewrite (one_of_disjoint text_types blob_types).
  - by destruct (one_of (Type_ v) blob_types), (one_of (Type_ v) time_types).
Qed.

(** The payload the encoder writes in a length-prefixed column. *)
Lemma encode_sized v :
  IsNull v = false -> BlobRefOf v = None ->
  one_of (Type_ v) [TypeInt; TypeSeq] = false -> (Type_ v =? TypeFloat) = false ->
  encodeColumn v = sized (Type_ v) (sized_payload v) /\
  stored v = if one_of (Type_ v) blob_types then NewBlobValue (sized_payload v)
             else NewStringValue (sized_payload v).
Proof.
  intros Hnull Href Hint Hfl. unfold encodeColumn, stored, sized_payload.
  rewrite Hnull, Href, Hint, Hfl.
  assert (Hor : one_of (Type_ v) (text_types ++ time_types) =
    one_of (Type_ v) text_types || one_of (Type_ v) time_types) by apply existsb_app.
  rewrite Hor. destruct (one_of (Type_ v) text_types) eqn:Ht.
  { by rewrite (one_of_disjoint text_types blob_types). }
  destruct (one_of (Type_ v) blob_types) eqn:Hbl.
  { by rewrite (one_of_disjoint blob_types time_types). }
  by destruct (one_of (Type_ v) time_types).
Qed.

(** One column: the decoder returns the stored form and the length of the
    encoding, whatever follows. *)
Lemma decode_encode_column v rest cd :
  codec_ok v = true ->
  decodeColumn (encodeColumn v ++ rest) cd = Ok (stored v, zlen (encodeColumn v)).
Proof.
  unfold codec_ok. destruct (IsNull v) eqn:Hnull.
  { intros _. unfold encodeColumn, stored. by rewrite Hnull. }
  cbn [orb]. intros [Hty Hok]%andb_true_iff.
  destruct (BlobRefOf v) as [r|] eqn:Href.
  { apply andb_true_iff in Hok as [[Hbt Hid%in_range_iff]%andb_true_iff Hsz%in_range_iff].
    unfold encodeColumn, stored. rewrite Hnull, Href. cbn [app].
    rewrite decode_blobref by (done || unfold in_u64, in_i64; lia).
    by simpl_len. }
  destruct (one_of (Type_ v) [TypeInt; TypeSeq]) eqn:Hint.
  { apply in_range_iff in Hok. unfold encodeColumn, stored. rewrite Hnull, Href, Hint. cbn [app].
    rewrite decode_int by (done || unfold in_i64; lia). by simpl_len. }
  destruct (Type_ v =? TypeFloat) eqn:Hfl.
  { unfold encodeColumn, stored. rewrite Hnull, Href, Hint, Hfl. cbn [app].
    apply Z.eqb_eq in Hfl. rewrite decode_float by (done || apply float_payload_range).
    by simpl_len. }
  apply andb_true_iff in Hok as [Hlen%Z.ltb_lt Hmark].
  destruct (encode_sized v Hnull Href Hint Hfl) as [-> ->].
  by apply decode_sized.
Qed.

Lemma decode_encode_columns row i rest defs :
  forallb codec_ok row = true ->
  decode_columns (length row) i (concat (map encodeColumn row) ++ rest) defs = Ok (map stored row).
Proof.
  revert i. induction row as [|v row IH]; intros i Hok; [done|].
  cbn [forallb] in Hok. apply andb_true_iff in Hok as [Hv Hrow].
  cbn [length map concat decode_columns]. rewrite <- app_assoc.
  rewrite decode_encode_column by done.
  unfold zlen. rewrite Nat2Z.id, drop_app_length, IH by done. done.
Qed.

Lemma decode_row_ok rowID row rest defs :
  in_u64 rowID -> zlen row < 2 ^ 16 -> forallb codec_ok row = true ->
  DecodeRow (EncodeRow rowID row ++ rest) defs = Ok (rowID, map stored row).
Proof.
  intros Hid Hlen Hok. pose proof (zlen_nonneg row).
  unfold DecodeRow, EncodeRow. rewrite <- !app_assoc.
  pose proof (zlen_nonneg (concat (map encodeColumn row))). pose proof (zlen_nonneg rest).
  simpl_len. ztest.
  rewrite slice_field, slice_skip_field by lia. simpl (_ - _)%nat. rewrite slice_field.
  rewrite get_put_u64 by done. rewrite get_put_u16 by apply u16_range.
  rewrite u16_small by (unfold in_u16; lia).
  replace (drop 10 (put_le 8 rowID ++ put_le 2 (zlen row) ++ concat (map encodeColumn row) ++ rest))
    with (concat (map encodeColumn row) ++ rest).
  - unfold zlen at 1. rewrite Nat2Z.id, decode_encode_columns by done. done.
  - change 10%nat with (8 + 2)%nat. by rewrite <- drop_drop, !drop_field.
Qed.

(** C5: a row whose values the format holds is read back in its stored
    form, with its identifier, whatever bytes follow and whatever column
    definitions the reader has. *)
Theorem DecodeRow_EncodeRow rowID row rest defs :
  in_u64 rowID -> zlen row < 2 ^ 16 -> forallb codec_ok row = true ->
  DecodeRow (EncodeRow rowID row ++ rest) defs = Ok (rowID, map stored row).
Proof. apply decode_row_ok. Qed.
End RoundTrip.

Theorem DecodeRow_EncodeRow_witness :
  let row := [NewIntValue (-5); NewStringValue (str "ab"); NewNullValue; NewBlobRefValue 7 70000] in
  DecodeRow (EncodeRow (H := plain_runtime) 9 row ++ [Byte.x01]) [] = Ok (9, map (stored (H := plain_runtime)) row).
Proof.
  apply (DecodeRow_EncodeRow (H := plain_runtime)); [unfold in_u64; lia | reflexivity | reflexivity].
Defined.

(** ** What does not survive *)

Section Losses.
Context `{GoRuntime}.

(** An inline BLOB or IMAGE whose length is 254 modulo 256 is
    read back as a reference to an external blob, and only its first 18
    bytes are consumed. *)
Theorem decode_blob_254 v data rest cd :
  IsNull v = false -> BlobRefOf v = None -> one_of (Type_ v) blob_types = true ->
  Data v = GBytes data -> zlen data < 2 ^ 32 - 5 -> zlen data mod 256 = 254 ->
  exists id size,
    decodeColumn (encodeColumn v ++ rest) cd = Ok (NewBlobRefValue id size, 18).
Proof.
  intros Hnull Href Hbt Hd Hlen Hmod.
  assert (Hty : in_range 0 13 (Type_ v) = true).
  { apply existsb_exists in Hbt as (a & Ha & ->%Z.eqb_eq).
    by destruct Ha as [<-|[<-|[]]]. }
  assert (Hge : 254 <= zlen data).
  { pose proof (zlen_nonneg data). pose proof (Z.mod_le (zlen data) 256). lia. }
  destruct (encode_sized v Hnull Href) as [-> _].
  { by apply (one_of_disjoint blob_types). }
  { pose proof (one_of_disjoint blob_types [TypeFloat] _ eq_refl Hbt) as Hf.
    by apply orb_false_iff in Hf as [? _]. }
  unfold sized_payload.
  rewrite (one_of_disjoint blob_types (text_types ++ time_types)), Hbt, Hd by done.
  cbn [blob_payload].
  apply type_byte in Hty as [Hb Hn].
  unfold decodeColumn. rewrite sized_second, Hmod by done. rewrite sized_app. cbn iota.
  rewrite Hb, Hn, Hbt. pose proof (zlen_nonneg rest). simpl_len. ztest.
  cbn [andb]. eauto.
Qed.

(** The values [EstimateRowSize] sizes exactly: NULLs, blob references and
    the named column types, a text column holding no byte slice (the
    encoder would print it). *)
Definition sizable (v : Value) : Prop :=
  IsNull v = true \/ BlobRefOf v <> None \/
  (in_range TypeSeq TypeImage (Type_ v) = true /\ Type_ v <> TypeFile /\
   (one_of (Type_ v) blob_types = false -> forall b, Data v <> GBytes b)).

Lemma in_sized_types t :
  in_range TypeSeq TypeImage t = true -> t <> TypeFile ->
  one_of t [TypeInt; TypeSeq] = false -> (t =? TypeFloat) = false ->
  one_of t [TypeInt; TypeSeq; TypeFloat] = false /\
  one_of t (text_types ++ blob_types ++ time_types) = true.
Proof.
  unfold one_of, text_types, blob_types, time_types. cbn [existsb app].
  intros Hty%in_range_iff.
  unfold TypeSeq, TypeImage, TypeFile, TypeInt, TypeFloat, TypeVarchar, TypeText, TypeChar,
    TypeBlob, TypeDate, TypeTime, TypeDatetime in *. lia.
Qed.

Lemma estimate_column_exact v : sizable v -> estimate_column v = zlen (encodeColumn v).
Proof.
  intros Hv. unfold estimate_column.
  destruct (IsNull v) eqn:Hnull; [by unfold encodeColumn; rewrite Hnull|].
  destruct (BlobRefOf v) as [r|] eqn:Href.
  { unfold encodeColumn. rewrite Hnull, Href. by simpl_len. }
  destruct Hv as [?|[?|(Hty & Hfile & Hb)]]; [congruence..|].
  destruct (one_of (Type_ v) [TypeInt; TypeSeq]) eqn:Hint.
  { unfold encodeColumn. rewrite Hnull, Href, Hint.
    replace (one_of (Type_ v) [TypeInt; TypeSeq; TypeFloat]) with true; [by simpl_len|].
    unfold one_of in *. cbn [existsb] in *. lia. }
  destruct (Type_ v =? TypeFloat) eqn:Hfl.
  { unfold encodeColumn. rewrite Hnull, Href, Hint, Hfl.
    replace (one_of (Type_ v) [TypeInt; TypeSeq; TypeFloat]) with true; [by simpl_len|].
    unfold one_of in *. cbn [existsb] in *. lia. }
  destruct (encode_sized v Hnull Href Hint Hfl) as [-> _]. rewrite zlen_sized.
  destruct (in_sized_types _ Hty Hfile Hint Hfl) as [-> ->].
  f_equal. unfold sized_payload.
  destruct (one_of (Type_ v) blob_types) eqn:Hbt.
  { rewrite (one_of_disjoint blob_types (text_types ++ time_types)) by done.
    by destruct (Data v). }
  specialize (Hb eq_refl).
  destruct (one_of (Type_ v) (text_types ++ time_types)); destruct (Data v); try done;
    by exfalso; eapply Hb.
Qed.

(** On such values the size estimate is the exact length of the
    encoding. *)
Theorem EstimateRowSize_exact rowID row :
  Forall sizable row -> EstimateRowSize row = zlen (EncodeRow rowID row).
Proof.
  intros Hrow. unfold EstimateRowSize, EncodeRow. simpl_len.
  replace (8 + (2 + zlen (concat (map encodeColumn row)))) with
    (10 + zlen (concat (map encodeColumn row))) by lia.
  generalize 10 as acc.
  induction Hrow as [|v row Hv Hrow IH]; intros acc; cbn [fold_left map concat].
  { rewrite zlen_nil. lia. }
  rewrite IH, zlen_app, estimate_column_exact by done. lia.
Qed.
End Losses.

Theorem decode_blob_254_witness :
  exists id size,
    decodeColumn (encodeColumn (H := plain_runtime) (NewBlobValue (repeat Byte.x41 254)) ++ []) zero_column
    = Ok (NewBlobRefValue id size, 18).
Proof.
  apply (decode_blob_254 (H := plain_runtime) (NewBlobValue (repeat Byte.x41 254)) (repeat Byte.x41 254));
    reflexivity.
Defined.

Theorem EstimateRowSize_exact_witness :
  EstimateRowSize (H := plain_runtime) [NewIntValue 3; NewStringValue (str "abc"); NewNullValue] =
  zlen (EncodeRow (H := plain_runtime) 1 [NewIntValue 3; NewStringValue (str "abc"); NewNullValue]).
Proof.
  apply (EstimateRowSize_exact (H := plain_runtime)).
  repeat first [ apply Forall_nil; exact I | apply Forall_cons; split ];
    first [ left; reflexivity | right; right; split; [reflexivity|split; [discriminate|discriminate]] ].
Defined.

(** A FLOAT column keeps the integer part of its value only: 3.5 is
    stored and read back as 3. *)
Theorem float_column_truncated :
  let v := NewFloatValue (S754_finite false 7881299347898368 (-51)) in
  float_trunc (S754_finite false 7881299347898368 (-51)) = Some 3 /\
  SFeqb (S754_finite false 7881299347898368 (-51)) (float_of_Z 3) = false /\
  DecodeRow (EncodeRow (H := plain_runtime) 1 [v]) [] = Ok (1, [NewFloatValue (float_of_Z 3)]).
Proof. vm_compute. auto. Qed.
