(* ===== verification/Page.v ===== *)
(** * Slotted pages (src/storage/page.go)

    A page is a 32-byte header and 16352 bytes of content. Cell pointers
    (16-bit offsets) grow from the start of the content, row data grows down
    from its end; [FreeSpace] is the offset of the last row written. *)

From S2P Require Import Prelude GoLib Types RowCodec.
Local Open Scope Z_scope.

Definition PageSize16KB : Z := 16384.
Definition PageHeaderSizeV2 : Z := 32.
Definition MaxPageContentV2 : Z := PageSize16KB - PageHeaderSizeV2.
Definition MaxContent : nat := Z.to_nat MaxPageContentV2.

Definition PageTypeFree : Z := 0.
Definition PageTypeData : Z := 1.
Definition PageTypeOverflow : Z := 2.
Definition PageTypeBTree : Z := 3.
Definition PageTypeBTreeLeaf : Z := 4.

Definition PageType_String (pt : Z) : bytes :=
  if pt =? PageTypeFree then str "FREE" else if pt =? PageTypeData then str "DATA"
  else if pt =? PageTypeOverflow then str "OVERFLOW" else if pt =? PageTypeBTree then str "BTREE"
  else if pt =? PageTypeBTreeLeaf then str "BTREE_LEAF" else str "UNKNOWN".

Definition PageFlagEncrypted : Z := 1.
Definition PageFlagCompressed : Z := 2.
Definition PageFlagDirty : Z := 4.

Record PageHeaderV2 := mkHeader {
  PageID : Z;       (* uint64 *)
  PageType : Z;     (* uint8 *)
  Flags : Z;        (* uint8 *)
  Version : Z;      (* uint16 *)
  FreeSpace : Z;    (* uint16 *)
  CellCount : Z;    (* uint16 *)
  Fragmented : Z;   (* uint16 *)
  Reserved : Z;     (* uint16 *)
  RightPage : Z;    (* uint64 *)
  Checksum : Z      (* uint32 *)
}.

Record PageV2 := mkPage { Header : PageHeaderV2; Content : bytes }.

(** Assignments to header fields. *)
Definition set_flags (z : Z) (p : PageV2) : PageV2 :=
  let h := Header p in
  mkPage (mkHeader (PageID h) (PageType h) z (Version h) (FreeSpace h) (CellCount h)
            (Fragmented h) (Reserved h) (RightPage h) (Checksum h)) (Content p).
Definition set_free (z : Z) (p : PageV2) : PageV2 :=
  let h := Header p in
  mkPage (mkHeader (PageID h) (PageType h) (Flags h) (Version h) z (CellCount h)
            (Fragmented h) (Reserved h) (RightPage h) (Checksum h)) (Content p).
Definition set_count (z : Z) (p : PageV2) : PageV2 :=
  let h := Header p in
  mkPage (mkHeader (PageID h) (PageType h) (Flags h) (Version h) (FreeSpace h) z
            (Fragmented h) (Reserved h) (RightPage h) (Checksum h)) (Content p).
Definition set_fragmented (z : Z) (p : PageV2) : PageV2 :=
  let h := Header p in
  mkPage (mkHeader (PageID h) (PageType h) (Flags h) (Version h) (FreeSpace h) (CellCount h)
            z (Reserved h) (RightPage h) (Checksum h)) (Content p).
Definition set_right (z : Z) (p : PageV2) : PageV2 :=
  let h := Header p in
  mkPage (mkHeader (PageID h) (PageType h) (Flags h) (Version h) (FreeSpace h) (CellCount h)
            (Fragmented h) (Reserved h) z (Checksum h)) (Content p).
Definition set_checksum (z : Z) (p : PageV2) : PageV2 :=
  let h := Header p in
  mkPage (mkHeader (PageID h) (PageType h) (Flags h) (Version h) (FreeSpace h) (CellCount h)
            (Fragmented h) (Reserved h) (RightPage h) z) (Content p).
Definition set_content (c : bytes) (p : PageV2) : PageV2 := mkPage (Header p) c.

Definition new_header (pageID pageType : Z) : PageHeaderV2 :=
  mkHeader pageID pageType 0 1 MaxPageContentV2 0 0 0 0 0.

Definition NewPageV2 (pageID pageType : Z) : PageV2 :=
  mkPage (new_header pageID pageType) (replicate MaxContent Byte.x00).

(** ** Space *)

Definition AvailableSpace (p : PageV2) : Z :=
  let h := Header p in
  let pointerArraySize := u16 (CellCount h * 2) in
  if FreeSpace h <? pointerArraySize then 0
  else
    let available := u16 (FreeSpace h - pointerArraySize) in
    if available <? Fragmented h then 0 else u16 (available - Fragmented h).

(** The row size is converted to uint16 before the pointer is added. *)
Definition CanInsert (p : PageV2) (rowSize : Z) : bool :=
  let needed := u16 (u16 rowSize + 2) in
  needed <=? AvailableSpace p.

Definition UsageRatio (p : PageV2) : float64 :=
  SFdiv 53 1024 (float_of_Z (u16 (MaxPageContentV2 - FreeSpace (Header p))))
                (float_of_Z MaxPageContentV2).

(** ** Checksum *)

Definition CalculateChecksum (p : PageV2) : Z := crc32_ieee (Content p).
Definition UpdateChecksum (p : PageV2) : PageV2 := set_checksum (CalculateChecksum p) p.
Definition VerifyChecksum (p : PageV2) : bool := Checksum (Header p) =? CalculateChecksum p.

(** ** Serialisation: the header fields at offsets 0, 8, 9, 10, 12, 14, 16,
    18, 20 and 28, the content at 32 *)

Definition header_bytes (h : PageHeaderV2) : bytes :=
  put_le 8 (PageID h) ++ put_le 1 (PageType h) ++ put_le 1 (Flags h) ++ put_le 2 (Version h)
  ++ put_le 2 (FreeSpace h) ++ put_le 2 (CellCount h) ++ put_le 2 (Fragmented h)
  ++ put_le 2 (Reserved h) ++ put_le 8 (RightPage h) ++ put_le 4 (Checksum h).

Definition ToBytes (p : PageV2) : bytes := header_bytes (Header p) ++ Content p.

Inductive PageError :=
  | BadPageSize (n : Z)
  | PageFull (available needed : Z)
  | IndexOutOfRange (i : Z)
  | InvalidOffset (off : Z)
  | InvalidPrevOffset (off : Z)
  | InvalidBounds (lo hi : Z)
  | AlreadyDeleted
  | BadRow (e : RowError).

Definition FromBytes (data : bytes) : outcome PageError PageV2 :=
  if negb (zlen data =? PageSize16KB) then Err (BadPageSize (zlen data))
  else
    let field lo hi := get_le (slice lo hi data) in
    Ok (mkPage (mkHeader (field 0%nat 8%nat) (field 8%nat 9%nat) (field 9%nat 10%nat)
                  (field 10%nat 12%nat) (field 12%nat 14%nat) (field 14%nat 16%nat)
                  (field 16%nat 18%nat) (field 18%nat 20%nat) (field 20%nat 28%nat)
                  (field 28%nat 32%nat))
               (drop 32 data)).

(** ** Cell pointers; an index past the array panics *)

Definition GetCellPointer (p : PageV2) (index : Z) : outcome PageError Z :=
  if (index <? 0) || (CellCount (Header p) <=? index) then Ok 0
  else
    let offset := Z.to_nat (index * 2) in
    if MaxPageContentV2 <? index * 2 + 2 then Panic
    else Ok (get_le (slice offset (offset + 2) (Content p))).

Definition SetCellPointer (p : PageV2) (index cellOffset : Z) : outcome PageError PageV2 :=
  if (index <? 0) || (MaxPageContentV2 <? index * 2 + 2) then Panic
  else Ok (set_content (copy_at (Z.to_nat (index * 2)) (put_le 2 cellOffset) (Content p)) p).

Definition AddCellPointer (p : PageV2) (cellOffset : Z) : outcome PageError PageV2 :=
  p ← SetCellPointer p (CellCount (Header p)) cellOffset;
  Ok (set_count (u16 (CellCount (Header p) + 1)) p).

(** ** Rows in a page *)

Section Rows.
Context `{GoRuntime}.

Definition InsertRowToPage (page : PageV2) (rowID : Z) (row : list Value)
  : outcome PageError (PageV2 * Z) :=
  let rowData := EncodeRow rowID row in
  let rowSize := zlen rowData in
  if negb (CanInsert page rowSize) then Err (PageFull (AvailableSpace page) (rowSize + 2))
  else
    let cellOffset := u16 (FreeSpace (Header page) - u16 rowSize) in
    if MaxPageContentV2 <? cellOffset then Panic
    else
      let page := set_content (copy_at (Z.to_nat cellOffset) rowData (Content page)) page in
      page ← AddCellPointer page cellOffset;
      let page := set_free cellOffset page in
      let page := set_flags (Z.lor (Flags (Header page)) PageFlagDirty) page in
      Ok (page, CellCount (Header page) - 1).

Definition GetRowFromPage (page : PageV2) (index : Z) (colDefs : list ColumnDef)
  : outcome PageError (Z * list Value) :=
  if (index <? 0) || (CellCount (Header page) <=? index) then Err (IndexOutOfRange index)
  else
    cellStart ← GetCellPointer page index;
    if (cellStart =? 0) || (MaxPageContentV2 <=? cellStart) then Err (InvalidOffset cellStart)
    else
      cellEnd ← (if index =? 0 then Ok MaxPageContentV2
                 else cellEnd ← GetCellPointer page (index - 1);
                      if (cellEnd =? 0) || (MaxPageContentV2 <=? cellEnd)
                      then Err (InvalidPrevOffset cellEnd) else Ok cellEnd);
      if cellEnd <=? cellStart then Err (InvalidBounds cellStart cellEnd)
      else match DecodeRow (slice (Z.to_nat cellStart) (Z.to_nat cellEnd) (Content page)) colDefs with
           | Ok r => Ok r
           | Err e => Err (BadRow e)
           | Panic => Panic
           | Hang => Hang
           end.

Definition DeleteRowFromPage (page : PageV2) (index : Z) : outcome PageError PageV2 :=
  if (index <? 0) || (CellCount (Header page) <=? index) then Err (IndexOutOfRange index)
  else
    cellStart ← GetCellPointer page index;
    if cellStart =? 0 then Err AlreadyDeleted
    else
      cellEnd ← (if index =? 0 then Ok MaxPageContentV2 else GetCellPointer page (index - 1));
      if cellEnd <=? cellStart then Err (InvalidBounds cellStart cellEnd)
      else
        let cellSize := u16 (cellEnd - cellStart) in
        let page := set_fragmented (u16 (Fragmented (Header page) + cellSize)) page in
        page ← SetCellPointer page index 0;
        Ok (set_flags (Z.lor (Flags (Header page)) PageFlagDirty) page).

Definition GetCellData (page : PageV2) (index : Z) : outcome PageError bytes :=
  if (index <? 0) || (CellCount (Header page) <=? index) then Err (IndexOutOfRange index)
  else
    cellStart ← GetCellPointer page index;
    if (cellStart =? 0) || (MaxPageContentV2 <=? cellStart) then Err (InvalidOffset cellStart)
    else
      cellEnd ← (if index =? 0 then Ok MaxPageContentV2 else GetCellPointer page (index - 1));
      if cellEnd <=? cellStart then Err (InvalidBounds cellStart cellEnd)
      else if MaxPageContentV2 <? cellEnd then Panic
      else Ok (slice (Z.to_nat cellStart) (Z.to_nat cellEnd) (Content page)).
End Rows.

(** ** Serialisation round trip *)

Definition header_ok (h : PageHeaderV2) : Prop :=
  in_u64 (PageID h) /\ in_u8 (PageType h) /\ in_u8 (Flags h) /\ in_u16 (Version h) /\
  in_u16 (FreeSpace h) /\ in_u16 (CellCount h) /\ in_u16 (Fragmented h) /\ in_u16 (Reserved h) /\
  in_u64 (RightPage h) /\ in_u32 (Checksum h).

(** The representation invariant of the Go struct: field widths and the
    length of the content array. *)
Definition page_ok (p : PageV2) : Prop := header_ok (Header p) /\ length (Content p) = MaxContent.

Lemma get_put_u8 z : in_u8 z -> get_le (put_le 1 z) = z.
Proof. intros. rewrite get_put_le. by apply Z.mod_small. Qed.

Lemma length_header_bytes h : length (header_bytes h) = 32%nat.
Proof. unfold header_bytes. by rewrite !length_app, !length_put_le. Qed.

Lemma zlen_ToBytes p : page_ok p -> zlen (ToBytes p) = PageSize16KB.
Proof.
  intros [_ Hc]. unfold ToBytes, zlen. rewrite length_app, length_header_bytes, Hc. done.
Qed.

(** Read one field of a concatenation. *)
Ltac read_field :=
  repeat (rewrite slice_skip_field by lia; cbn [Nat.sub]);
  first [ rewrite slice_field | rewrite slice_full by apply length_put_le ];
  first [ by apply get_put_u64 | by apply get_put_u32 | by apply get_put_u16 | by apply get_put_u8 ].

Lemma page_read_back p : page_ok p -> FromBytes (ToBytes p) = Ok p.
Proof.
  intros Hok. unfold FromBytes. rewrite zlen_ToBytes by done.
  change (PageSize16KB =? PageSize16KB) with true. cbn [negb]. f_equal.
  destruct p as [h c], Hok as [(?&?&?&?&?&?&?&?&?&?) Hc]. cbn [Header Content] in *.
  unfold ToBytes. cbn [Header Content].
  rewrite (drop_app_length' (header_bytes h)) by (symmetry; apply length_header_bytes). f_equal.
  destruct h. cbn [PageID PageType Flags Version FreeSpace CellCount Fragmented Reserved
    RightPage Checksum] in *.
  unfold header_bytes. cbn [PageID PageType Flags Version FreeSpace CellCount Fragmented Reserved
    RightPage Checksum]. rewrite <- !app_assoc.
  f_equal; read_field.
Qed.

(** A page is read back from its bytes. *)
Theorem FromBytes_ToBytes p : page_ok p -> FromBytes (ToBytes p) = Ok p.
Proof. apply page_read_back. Qed.

Theorem FromBytes_ToBytes_witness :
  FromBytes (ToBytes (NewPageV2 5 PageTypeData)) = Ok (NewPageV2 5 PageTypeData).
Proof.
  apply FromBytes_ToBytes. split; [|vm_compute; reflexivity].
  unfold header_ok, in_u8, in_u16, in_u32, in_u64. cbn. unfold MaxPageContentV2, PageSize16KB,
    PageHeaderSizeV2, PageTypeData. lia.
Defined.

(** The bytes of the page carry its checksum. *)
Lemma VerifyChecksum_UpdateChecksum p : VerifyChecksum (UpdateChecksum p) = true.
Proof. unfold VerifyChecksum, UpdateChecksum, CalculateChecksum. cbn. apply Z.eqb_refl. Qed.

(** ** The cells of a page

    The contents of a page, as the list of the rows written to it, oldest
    first; a deleted row keeps its bytes and loses its pointer. *)

Record Cell := mkCell { live : bool; cdata : bytes }.

(** The bytes used by a list of cells. *)
Definition total (cells : list Cell) : Z := foldr (fun c n => zlen (cdata c) + n) 0 cells.
Definition dead_total (cells : list Cell) : Z :=
  foldr (fun c n => (if live c then 0 else zlen (cdata c)) + n) 0 cells.

(** The offset of cell [i]. *)
Definition cell_off (cells : list Cell) (i : nat) : Z := MaxPageContentV2 - total (take (S i) cells).

Record page_repr (p : PageV2) (cells : list Cell) : Prop := {
  repr_len : length (Content p) = MaxContent;
  repr_count : CellCount (Header p) = zlen cells;
  repr_free : FreeSpace (Header p) = MaxPageContentV2 - total cells;
  repr_room : 2 * zlen cells <= MaxPageContentV2 - total cells;
  repr_frag : Fragmented (Header p) = dead_total cells;
  repr_nonempty : Forall (fun c => 0 < zlen (cdata c)) cells;
  repr_ptr : forall i c, cells !! i = Some c ->
    slice (2 * i) (2 * i + 2) (Content p) = put_le 2 (if live c then cell_off cells i else 0);
  repr_data : forall i c, cells !! i = Some c ->
    slice (Z.to_nat (cell_off cells i)) (Z.to_nat (cell_off cells i) + length (cdata c)) (Content p)
    = cdata c
}.

Section Totals.
Lemma total_app c1 c2 : total (c1 ++ c2) = total c1 + total c2.
Proof. unfold total. induction c1 as [|c c1 IH]; cbn [foldr app]; lia. Qed.
Lemma total_nonneg cells : 0 <= total cells.
Proof.
  unfold total. induction cells as [|c cells IH]; cbn [foldr]; [lia|].
  pose proof (zlen_nonneg (cdata c)). lia.
Qed.
Lemma dead_total_app c1 c2 : dead_total (c1 ++ c2) = dead_total c1 + dead_total c2.
Proof. unfold dead_total. induction c1 as [|c c1 IH]; cbn [foldr app]; lia. Qed.
Lemma dead_total_bounds cells : 0 <= dead_total cells <= total cells.
Proof.
  unfold dead_total, total. induction cells as [|c cells IH]; cbn [foldr]; [lia|].
  pose proof (zlen_nonneg (cdata c)). destruct (live c); lia.
Qed.
Lemma total_take_le k cells : total (take k cells) <= total cells.
Proof.
  rewrite <- (take_drop k cells) at 2. rewrite total_app.
  pose proof (total_nonneg (drop k cells)). lia.
Qed.
Lemma total_insert cells i c d :
  cells !! i = Some c -> zlen (cdata d) = zlen (cdata c) -> total (<[i:=d]> cells) = total cells.
Proof.
  intros Hi Hd. rewrite <- (take_drop_middle cells i c Hi) at 2.
  rewrite insert_take_drop by (by eapply lookup_lt_Some).
  rewrite !total_app. unfold total. cbn [foldr]. lia.
Qed.
Lemma dead_total_insert cells i c :
  cells !! i = Some c -> live c = true ->
  dead_total (<[i:=mkCell false (cdata c)]> cells) = dead_total cells + zlen (cdata c).
Proof.
  intros Hi Hl. rewrite <- (take_drop_middle cells i c Hi) at 2.
  rewrite insert_take_drop by (by eapply lookup_lt_Some).
  rewrite !dead_total_app. unfold dead_total. cbn [foldr live cdata]. rewrite Hl. lia.
Qed.

(** Consecutive cells are adjacent. *)
Lemma cell_off_step cells i c :
  cells !! i = Some c -> cell_off cells i = MaxPageContentV2 - total (take i cells) - zlen (cdata c).
Proof.
  intros Hi. unfold cell_off. rewrite (take_S_r _ _ _ Hi), total_app.
  unfold total at 2. cbn [foldr]. lia.
Qed.
Lemma cell_off_bounds p cells i c :
  page_repr p cells -> cells !! i = Some c ->
  2 * zlen cells <= cell_off cells i /\ cell_off cells i + zlen (cdata c) <= MaxPageContentV2
  /\ 0 < zlen (cdata c) /\ FreeSpace (Header p) <= cell_off cells i.
Proof.
  intros Hp Hi. pose proof (repr_room _ _ Hp). pose proof (repr_free _ _ Hp).
  pose proof (repr_nonempty _ _ Hp) as Hne. rewrite Forall_lookup in Hne. specialize (Hne _ _ Hi).
  pose proof (total_take_le (S i) cells). pose proof (total_nonneg (take i cells)).
  pose proof (cell_off_step _ _ _ Hi). unfold cell_off in *. lia.
Qed.
Lemma cell_off_app_l cells d i :
  (i < length cells)%nat -> cell_off (cells ++ d) i = cell_off cells i.
Proof. intros. unfold cell_off. by rewrite take_app_le by lia. Qed.
Lemma cell_off_last cells c :
  cell_off (cells ++ [c]) (length cells) = MaxPageContentV2 - total cells - zlen (cdata c).
Proof.
  unfold cell_off. rewrite take_ge by (rewrite length_app; simpl; lia).
  rewrite total_app. unfold total at 2. cbn [foldr]. lia.
Qed.
Lemma cell_off_insert cells i c d j :
  cells !! i = Some c -> zlen (cdata d) = zlen (cdata c) ->
  cell_off (<[i:=d]> cells) j = cell_off cells j.
Proof.
  intros Hi Hd. unfold cell_off. f_equal.
  destruct (decide (i < S j)%nat).
  - rewrite take_insert_lt by done. by apply (total_insert _ _ c); [rewrite lookup_take_lt|].
  - by rewrite take_insert_ge by lia.
Qed.
End Totals.

(** ** Operations on a represented page *)

Section Operations.
Context `{GoRuntime}.

Lemma MaxPageContent_value : MaxPageContentV2 = 16352.
Proof. reflexivity. Qed.
Lemma MaxContent_value : Z.of_nat MaxContent = 16352.
Proof. reflexivity. Qed.

Lemma repr_new id ty : page_repr (NewPageV2 id ty) [].
Proof.
  constructor; cbn; rewrite ?length_replicate; try done; try lia.
Qed.

Lemma repr_bounds p cells : page_repr p cells ->
  0 <= total cells /\ 2 * zlen cells <= 16352 - total cells /\
  0 <= dead_total cells <= total cells /\ 0 <= zlen cells.
Proof.
  intros Hp. pose proof (repr_room _ _ Hp). rewrite MaxPageContent_value in *.
  pose proof (total_nonneg cells). pose proof (dead_total_bounds cells).
  pose proof (zlen_nonneg cells). lia.
Qed.

(** The available space of a represented page: what lies between the
    pointers and the rows, less the bytes of the deleted rows. *)
Lemma AvailableSpace_repr p cells : page_repr p cells ->
  AvailableSpace p = Z.max 0 (16352 - total cells - 2 * zlen cells - dead_total cells).
Proof.
  intros Hp. destruct (repr_bounds _ _ Hp) as (?&?&?&?).
  unfold AvailableSpace. rewrite (repr_count _ _ Hp), (repr_free _ _ Hp), (repr_frag _ _ Hp).
  rewrite MaxPageContent_value, (u16_small (zlen cells * 2)) by (unfold in_u16; lia).
  ztest. rewrite u16_small by (unfold in_u16; lia).
  destruct (Z.ltb_spec (16352 - total cells - zlen cells * 2) (dead_total cells)); [lia|].
  rewrite u16_small by (unfold in_u16; lia). lia.
Qed.

Lemma CanInsert_repr p cells n : page_repr p cells -> 0 <= n < 2 ^ 16 - 2 ->
  CanInsert p n = (n + 2 <=? 16352 - total cells - 2 * zlen cells - dead_total cells).
Proof.
  intros Hp Hn. unfold CanInsert. rewrite (AvailableSpace_repr _ _ Hp).
  rewrite (u16_small n), u16_small by (unfold in_u16; lia). lia.
Qed.

Lemma GetCellPointer_repr p cells i c : page_repr p cells -> cells !! i = Some c ->
  GetCellPointer p (Z.of_nat i) = Ok (if live c then cell_off cells i else 0).
Proof.
  intros Hp Hi. destruct (repr_bounds _ _ Hp) as (?&?&?&?).
  destruct (cell_off_bounds _ _ _ _ Hp Hi) as (?&?&?&?).
  assert (Z.of_nat i < zlen cells) by (apply lookup_lt_Some in Hi; unfold zlen; lia).
  unfold GetCellPointer. rewrite (repr_count _ _ Hp), MaxPageContent_value in *. ztest. cbn [orb].
  replace (Z.to_nat (Z.of_nat i * 2)) with (2 * i)%nat by lia.
  rewrite (repr_ptr _ _ Hp _ _ Hi), get_put_u16; [done|].
  unfold in_u16. destruct (live c); lia.
Qed.

(** Writing row data below [FreeSpace] and the next pointer changes no
    existing pointer and no existing row. *)
Lemma repr_insert p cells data flags :
  page_repr p cells -> 0 < zlen data ->
  zlen data + 2 <= 16352 - total cells - 2 * zlen cells ->
  let off := 16352 - total cells - zlen data in
  page_repr (set_flags flags (set_free off (set_count (zlen cells + 1)
              (set_content (copy_at (2 * length cells) (put_le 2 off)
                              (copy_at (Z.to_nat off) data (Content p))) p))))
            (cells ++ [mkCell true data]).
Proof.
  intros Hp Hd Hroom off. destruct (repr_bounds _ _ Hp) as (?&?&?&?).
  pose proof MaxContent_value. pose proof (repr_len _ _ Hp) as Hlen.
  assert (Hz : zlen cells = Z.of_nat (length cells) /\ zlen data = Z.of_nat (length data)) by done.
  destruct Hz as [Hzc Hzd].
  assert (Hl1 : length (copy_at (Z.to_nat off) data (Content p)) = MaxContent).
  { rewrite length_copy_at; lia. }
  assert (Hput : length (put_le 2 off) = 2%nat) by apply length_put_le.
  constructor; cbn [Header Content set_flags set_free set_count set_content CellCount FreeSpace
    Fragmented].
  - rewrite length_copy_at by lia. done.
  - simpl_len. lia.
  - rewrite total_app, MaxPageContent_value. unfold total at 2. cbn [foldr cdata]. lia.
  - rewrite total_app, MaxPageContent_value. simpl_len. unfold total at 2. cbn [foldr cdata]. lia.
  - rewrite dead_total_app, (repr_frag _ _ Hp). unfold dead_total at 3. cbn [foldr live]. lia.
  - apply Forall_app. split; [apply (repr_nonempty _ _ Hp)|]. by apply Forall_singleton.
  - intros i c Hi. destruct (decide (i < length cells)%nat) as [Hlt|Hge].
    + rewrite lookup_app_l in Hi by done.
      rewrite slice_copy_at_before, slice_copy_at_before, cell_off_app_l by lia.
      by apply (repr_ptr _ _ Hp).
    + assert (i = length cells) as -> by (apply lookup_lt_Some in Hi; rewrite length_app in Hi; simpl in Hi; lia).
      rewrite lookup_app_r, Nat.sub_diag in Hi by lia. injection Hi as <-. cbn [live].
      replace (2 * length cells + 2)%nat with (2 * length cells + length (put_le 2 off))%nat by lia.
      rewrite slice_copy_at_same by lia.
      rewrite cell_off_last. cbn [cdata]. rewrite MaxPageContent_value. done.
  - intros i c Hi. destruct (decide (i < length cells)%nat) as [Hlt|Hge].
    + rewrite lookup_app_l in Hi by done.
      pose proof (cell_off_bounds _ _ _ _ Hp Hi) as (?&?&?&?).
      pose proof (repr_free _ _ Hp) as Hfree. rewrite MaxPageContent_value in *.
      rewrite cell_off_app_l by done.
      rewrite slice_copy_at_after, slice_copy_at_after by lia.
      by apply (repr_data _ _ Hp).
    + assert (i = length cells) as -> by (apply lookup_lt_Some in Hi; rewrite length_app in Hi; simpl in Hi; lia).
      rewrite lookup_app_r, Nat.sub_diag in Hi by lia. injection Hi as <-.
      rewrite cell_off_last. cbn [cdata]. rewrite MaxPageContent_value. fold off.
      rewrite slice_copy_at_after by lia. apply slice_copy_at_same. lia.
Qed.

Lemma set_proj p z c :
  Header (set_content c p) = Header p /\ Content (set_content c p) = c /\
  CellCount (Header (set_count z p)) = z /\ FreeSpace (Header (set_count z p)) = FreeSpace (Header p) /\
  CellCount (Header (set_free z p)) = CellCount (Header p).
Proof. done. Qed.

Lemma zlen_EncodeRow_pos rowID row : 10 <= zlen (EncodeRow rowID row).
Proof. unfold EncodeRow. simpl_len. pose proof (zlen_nonneg (concat (map encodeColumn row))). lia. Qed.

(** What the other pages and the file see of a page is left alone. *)
Definition same_identity (p q : PageV2) : Prop :=
  PageID (Header q) = PageID (Header p) /\ PageType (Header q) = PageType (Header p) /\
  RightPage (Header q) = RightPage (Header p) /\ Version (Header q) = Version (Header p) /\
  Reserved (Header q) = Reserved (Header p).

(** A row that fits is appended as a live cell. *)
Lemma insert_row_ok p cells rowID row : page_repr p cells ->
  zlen (EncodeRow rowID row) < 2 ^ 16 - 2 ->
  zlen (EncodeRow rowID row) + 2 <= 16352 - total cells - 2 * zlen cells - dead_total cells ->
  exists p', InsertRowToPage p rowID row = Ok (p', zlen cells) /\
         page_repr p' (cells ++ [mkCell true (EncodeRow rowID row)]) /\ same_identity p p'.
Proof.
  intros Hp. pose proof (zlen_EncodeRow_pos rowID row).
  set (n := zlen (EncodeRow rowID row)) in *. intros Hn Hfit.
  destruct (repr_bounds _ _ Hp) as (?&?&?&?). pose proof MaxContent_value.
  unfold InsertRowToPage. fold n. rewrite (CanInsert_repr _ _ _ Hp) by lia. ztest. cbn [negb].
  rewrite (repr_free _ _ Hp), MaxPageContent_value, (u16_small n) by (unfold in_u16; lia).
  rewrite u16_small by (unfold in_u16; lia). ztest.
  unfold AddCellPointer. cbn [Header set_content]. rewrite (repr_count _ _ Hp).
  unfold SetCellPointer. rewrite MaxPageContent_value. ztest. cbn [orb mbind outcome_bind].
  cbn [Header set_content Content]. rewrite (repr_count _ _ Hp), u16_small by (unfold in_u16; lia).
  eexists. split; [do 2 f_equal; cbn [Header set_flags set_free set_count CellCount]; lia|].
  split; [|by repeat split].
  replace (Z.to_nat (zlen cells * 2)) with (2 * length cells)%nat by (unfold zlen; lia).
  assert (0 < zlen (EncodeRow rowID row)) as Hlo by (fold n; lia).
  assert (zlen (EncodeRow rowID row) + 2 <= 16352 - total cells - 2 * zlen cells) as Hhi by (fold n; lia).
  exact (repr_insert p cells _ _ Hp Hlo Hhi).
Qed.

(** On a page that holds [cells], inserting a row shorter
    than 65534 bytes either appends its encoding as a new live cell and
    returns its index, or, when the row, its pointer and the deleted bytes
    do not fit, reports the page full. *)
Theorem InsertRowToPage_spec p cells rowID row :
  page_repr p cells -> zlen (EncodeRow rowID row) < 2 ^ 16 - 2 ->
  let n := zlen (EncodeRow rowID row) in
  if n + 2 <=? 16352 - total cells - 2 * zlen cells - dead_total cells
  then exists p', InsertRowToPage p rowID row = Ok (p', zlen cells) /\
         page_repr p' (cells ++ [mkCell true (EncodeRow rowID row)]) /\ same_identity p p'
  else InsertRowToPage p rowID row = Err (PageFull (AvailableSpace p) (n + 2)).
Proof.
  intros Hp Hn n. pose proof (zlen_nonneg (EncodeRow rowID row)).
  destruct (Z.leb_spec (n + 2) (16352 - total cells - 2 * zlen cells - dead_total cells)) as [Hfit|Hfull].
  - by apply insert_row_ok.
  - unfold InsertRowToPage. rewrite (CanInsert_repr _ _ _ Hp) by lia. fold n. by ztest.
Qed.

(** Is the cell before [i] live (or [i] the first)? *)
Definition prev_live (cells : list Cell) (i : nat) : bool :=
  match i with
  | O => true
  | S j => match cells !! j with Some c => live c | None => false end
  end.

(** The end of cell [i], as the code computes it. *)
Lemma cell_end_repr p cells i c :
  page_repr p cells -> cells !! i = Some c ->
  (if Z.of_nat i =? 0 then Ok MaxPageContentV2 else GetCellPointer p (Z.of_nat i - 1)) =
  Ok (if prev_live cells i then cell_off cells i + zlen (cdata c) else 0).
Proof.
  intros Hp Hi. destruct i as [|j]; cbn [prev_live].
  - ztest. rewrite (cell_off_step _ _ _ Hi), take_0. unfold total. cbn [foldr]. f_equal. lia.
  - ztest. destruct (lookup_lt_is_Some_2 cells j) as [d Hd].
    { apply lookup_lt_Some in Hi. lia. }
    replace (Z.of_nat (S j) - 1) with (Z.of_nat j) by lia.
    rewrite (GetCellPointer_repr _ _ _ _ Hp Hd), Hd.
    rewrite (cell_off_step cells (S j) c Hi). unfold cell_off.
    destruct (live d); [f_equal; lia | done].
Qed.

Lemma cell_index_ok p cells i c : page_repr p cells -> cells !! i = Some c ->
  (Z.of_nat i <? 0) || (CellCount (Header p) <=? Z.of_nat i) = false.
Proof.
  intros Hp Hi. rewrite (repr_count _ _ Hp). unfold zlen.
  apply lookup_lt_Some in Hi. lia.
Qed.

Lemma cell_data_slice p cells i c : page_repr p cells -> cells !! i = Some c ->
  slice (Z.to_nat (cell_off cells i)) (Z.to_nat (cell_off cells i + zlen (cdata c))) (Content p) = cdata c.
Proof.
  intros Hp Hi. destruct (cell_off_bounds _ _ _ _ Hp Hi) as (?&?&?&?).
  destruct (repr_bounds _ _ Hp) as (?&?&?&?).
  rewrite <- (repr_data _ _ Hp _ _ Hi) at 2. f_equal. unfold zlen in *. lia.
Qed.

Lemma cell_data_ok p cells i :
  page_repr p cells ->
  GetCellData p (Z.of_nat i) =
  match cells !! i with
  | None => Err (IndexOutOfRange (Z.of_nat i))
  | Some c =>
    if negb (live c) then Err (InvalidOffset 0)
    else if prev_live cells i then Ok (cdata c)
    else Err (InvalidBounds (cell_off cells i) 0)
  end.
Proof.
  intros Hp. unfold GetCellData. destruct (cells !! i) as [c|] eqn:Hi.
  2:{ rewrite (repr_count _ _ Hp). apply lookup_ge_None in Hi.
      destruct (Z.ltb_spec (Z.of_nat i) 0); [lia|].
      destruct (Z.leb_spec (zlen cells) (Z.of_nat i)); [done|unfold zlen in *; lia]. }
  destruct (cell_off_bounds _ _ _ _ Hp Hi) as (?&?&?&?).
  destruct (repr_bounds _ _ Hp) as (?&?&?&?).
  assert (1 <= zlen cells) by (apply lookup_lt_Some in Hi; unfold zlen; lia).
  rewrite (cell_index_ok _ _ _ _ Hp Hi), (GetCellPointer_repr _ _ _ _ Hp Hi).
  cbn [mbind outcome_bind]. destruct (live c) eqn:Hl; cbn [negb]; [|done].
  rewrite MaxPageContent_value in *. ztest. cbn [orb].
  rewrite <- MaxPageContent_value at 1.
  rewrite (cell_end_repr _ _ _ _ Hp Hi). cbn [mbind outcome_bind].
  destruct (prev_live cells i); ztest; [|done].
  by rewrite (cell_data_slice _ _ _ _ Hp Hi).
Qed.

(** The raw cell of index [i] is returned exactly when neither
    it nor the cell written before it was deleted: the end of a cell is
    found through its predecessor's pointer, which a deletion clears. *)
Theorem GetCellData_spec p cells i :
  page_repr p cells ->
  GetCellData p (Z.of_nat i) =
  match cells !! i with
  | None => Err (IndexOutOfRange (Z.of_nat i))
  | Some c =>
    if negb (live c) then Err (InvalidOffset 0)
    else if prev_live cells i then Ok (cdata c)
    else Err (InvalidBounds (cell_off cells i) 0)
  end.
Proof. apply cell_data_ok. Qed.

Lemma get_row_ok p cells i defs :
  page_repr p cells ->
  GetRowFromPage p (Z.of_nat i) defs =
  match cells !! i with
  | None => Err (IndexOutOfRange (Z.of_nat i))
  | Some c =>
    if negb (live c) then Err (InvalidOffset 0)
    else if prev_live cells i then
      match DecodeRow (cdata c) defs with
      | Ok r => Ok r | Err e => Err (BadRow e) | Panic => Panic | Hang => Hang
      end
    else Err (InvalidPrevOffset 0)
  end.
Proof.
  intros Hp. unfold GetRowFromPage. destruct (cells !! i) as [c|] eqn:Hi.
  2:{ rewrite (repr_count _ _ Hp). apply lookup_ge_None in Hi.
      destruct (Z.ltb_spec (Z.of_nat i) 0); [lia|].
      destruct (Z.leb_spec (zlen cells) (Z.of_nat i)); [done|unfold zlen in *; lia]. }
  destruct (cell_off_bounds _ _ _ _ Hp Hi) as (?&?&?&?).
  destruct (repr_bounds _ _ Hp) as (?&?&?&?).
  assert (1 <= zlen cells) by (apply lookup_lt_Some in Hi; unfold zlen; lia).
  pose proof (cell_end_repr _ _ _ _ Hp Hi) as He.
  rewrite (cell_index_ok _ _ _ _ Hp Hi), (GetCellPointer_repr _ _ _ _ Hp Hi).
  cbn [mbind outcome_bind]. destruct (live c) eqn:Hl; cbn [negb]; [|done].
  rewrite MaxPageContent_value in *. ztest. cbn [orb].
  destruct (Z.of_nat i =? 0) eqn:Hz.
  - injection He as He. cbn [mbind outcome_bind].
    destruct (prev_live cells i); [|lia]. rewrite He. ztest.
    by rewrite (cell_data_slice _ _ _ _ Hp Hi).
  - rewrite He. cbn [mbind outcome_bind].
    destruct (prev_live cells i) eqn:Hpl; [|done].
    assert (cell_off cells i + zlen (cdata c) < 16352) as Hlt.
    { destruct i as [|j]; [done|]. cbn [prev_live] in Hpl.
      destruct (cells !! j) as [d|] eqn:Hj; [|done].
      destruct (cell_off_bounds _ _ _ _ Hp Hj) as (?&?&?&?).
      rewrite (cell_off_step _ _ _ Hi), MaxPageContent_value in *.
      unfold cell_off in *. rewrite MaxPageContent_value in *. lia. }
    ztest. cbn [orb mbind outcome_bind]. ztest.
    by rewrite (cell_data_slice _ _ _ _ Hp Hi).
Qed.

(** The same for the decoded row. *)
Theorem GetRowFromPage_spec p cells i defs :
  page_repr p cells ->
  GetRowFromPage p (Z.of_nat i) defs =
  match cells !! i with
  | None => Err (IndexOutOfRange (Z.of_nat i))
  | Some c =>
    if negb (live c) then Err (InvalidOffset 0)
    else if prev_live cells i then
      match DecodeRow (cdata c) defs with
      | Ok r => Ok r | Err e => Err (BadRow e) | Panic => Panic | Hang => Hang
      end
    else Err (InvalidPrevOffset 0)
  end.
Proof. apply get_row_ok. Qed.

(** Clearing a pointer and counting its bytes as fragmented. *)
Lemma repr_delete p cells i c flags :
  page_repr p cells -> cells !! i = Some c -> live c = true ->
  page_repr (set_flags flags (set_content (copy_at (2 * i) (put_le 2 0) (Content p))
              (set_fragmented (dead_total cells + zlen (cdata c)) p)))
            (<[i:=mkCell false (cdata c)]> cells).
Proof.
  intros Hp Hi Hl. destruct (repr_bounds _ _ Hp) as (?&?&?&?). pose proof MaxContent_value.
  pose proof (repr_len _ _ Hp) as Hlen.
  assert (Hz : zlen cells = Z.of_nat (length cells)) by done.
  pose proof (lookup_lt_Some _ _ _ Hi) as Hlt.
  assert (Hput : length (put_le 2 0) = 2%nat) by apply length_put_le.
  assert (Ht : total (<[i:=mkCell false (cdata c)]> cells) = total cells) by (by apply (total_insert _ _ c)).
  assert (Hzl : zlen (<[i:=mkCell false (cdata c)]> cells) = zlen cells)
    by (unfold zlen; by rewrite length_insert).
  assert (Hoff : forall j, cell_off (<[i:=mkCell false (cdata c)]> cells) j = cell_off cells j)
    by (intros; by apply (cell_off_insert _ _ c)).
  constructor; cbn [Header Content set_flags set_content set_fragmented CellCount FreeSpace Fragmented];
    rewrite ?Ht, ?Hzl.
  - rewrite length_copy_at by lia. done.
  - apply (repr_count _ _ Hp).
  - apply (repr_free _ _ Hp).
  - apply (repr_room _ _ Hp).
  - by rewrite dead_total_insert.
  - apply Forall_insert; [apply (repr_nonempty _ _ Hp)|].
    pose proof (cell_off_bounds _ _ _ _ Hp Hi) as (_&_&?&_). done.
  - intros j d Hj. rewrite Hoff. destruct (decide (i = j)) as [<-|Hne].
    + rewrite list_lookup_insert_eq in Hj by done. injection Hj as <-. cbn [live].
      replace (2 * i + 2)%nat with (2 * i + length (put_le 2 0))%nat by lia.
      apply slice_copy_at_same. lia.
    + rewrite list_lookup_insert_ne in Hj by done.
      destruct (decide (j < i)%nat).
      * rewrite slice_copy_at_before by lia. by apply (repr_ptr _ _ Hp).
      * rewrite slice_copy_at_after by lia. by apply (repr_ptr _ _ Hp).
  - intros j d Hj. rewrite Hoff.
    assert (exists e, cells !! j = Some e /\ cdata e = cdata d) as (e & He & Hed).
    { destruct (decide (i = j)) as [<-|Hne].
      - rewrite list_lookup_insert_eq in Hj by done. injection Hj as <-. eauto.
      - rewrite list_lookup_insert_ne in Hj by done. eauto. }
    pose proof (cell_off_bounds _ _ _ _ Hp He) as (?&?&?&?).
    rewrite slice_copy_at_after by lia.
    rewrite <- Hed. by apply (repr_data _ _ Hp).
Qed.

(** Deleting a live cell whose predecessor is live marks it
    deleted, keeps every other cell and adds its size to the fragmented
    space; a cell after a deleted one cannot be deleted. *)
Theorem DeleteRowFromPage_spec p cells i :
  page_repr p cells ->
  match cells !! i with
  | None => DeleteRowFromPage p (Z.of_nat i) = Err (IndexOutOfRange (Z.of_nat i))
  | Some c =>
    if negb (live c) then DeleteRowFromPage p (Z.of_nat i) = Err AlreadyDeleted
    else if prev_live cells i then
      exists p', DeleteRowFromPage p (Z.of_nat i) = Ok p' /\
        page_repr p' (<[i:=mkCell false (cdata c)]> cells) /\ same_identity p p'
    else DeleteRowFromPage p (Z.of_nat i) = Err (InvalidBounds (cell_off cells i) 0)
  end.
Proof.
  intros Hp. unfold DeleteRowFromPage. destruct (cells !! i) as [c|] eqn:Hi.
  2:{ rewrite (repr_count _ _ Hp). apply lookup_ge_None in Hi.
      destruct (Z.ltb_spec (Z.of_nat i) 0); [lia|].
      destruct (Z.leb_spec (zlen cells) (Z.of_nat i)); [done|unfold zlen in *; lia]. }
  destruct (cell_off_bounds _ _ _ _ Hp Hi) as (?&?&?&?).
  destruct (repr_bounds _ _ Hp) as (?&?&?&?).
  assert (Z.of_nat i < zlen cells) by (apply lookup_lt_Some in Hi; unfold zlen; lia).
  rewrite (cell_index_ok _ _ _ _ Hp Hi), (GetCellPointer_repr _ _ _ _ Hp Hi).
  cbn [mbind outcome_bind]. destruct (live c) eqn:Hl; cbn [negb]; [|done].
  ztest. rewrite (cell_end_repr _ _ _ _ Hp Hi). cbn [mbind outcome_bind].
  destruct (prev_live cells i); [|by ztest].
  ztest. rewrite (repr_frag _ _ Hp).
  replace (cell_off cells i + zlen (cdata c) - cell_off cells i) with (zlen (cdata c)) by lia.
  rewrite MaxPageContent_value in *.
  pose proof (dead_total_bounds (<[i:=mkCell false (cdata c)]> cells)) as Hdb.
  rewrite (dead_total_insert _ _ _ Hi Hl), (total_insert _ _ c) in Hdb by done.
  rewrite (u16_small (zlen (cdata c))), u16_small by (unfold in_u16; lia).
  unfold SetCellPointer. rewrite MaxPageContent_value. ztest. cbn [orb mbind outcome_bind].
  eexists. split; [reflexivity|]. split; [|by repeat split].
  cbn [Content set_fragmented]. replace (Z.to_nat (Z.of_nat i * 2)) with (2 * i)%nat by lia.
  by apply repr_delete.
Qed.

(** Deleting a row makes the next row of the page, if it
    is live, unreadable and undeletable. *)
Theorem delete_hides_next p cells i c d p' defs :
  page_repr p cells -> cells !! i = Some c -> live c = true -> prev_live cells i = true ->
  cells !! S i = Some d -> live d = true ->
  DeleteRowFromPage p (Z.of_nat i) = Ok p' ->
  (exists e, GetCellData p' (Z.of_nat (S i)) = Err e) /\
  (exists e, GetRowFromPage p' (Z.of_nat (S i)) defs = Err e) /\
  (exists e, DeleteRowFromPage p' (Z.of_nat (S i)) = Err e).
Proof.
  intros Hp Hi Hl Hpl Hd Hld Hdel.
  pose proof (DeleteRowFromPage_spec p cells i Hp) as Hs.
  rewrite Hi, Hl, Hpl, Hdel in Hs. cbn [negb] in Hs.
  destruct Hs as (q & Hq & Hq' & _). injection Hq as <-.
  assert (Hd' : <[i:=mkCell false (cdata c)]> cells !! S i = Some d)
    by (rewrite list_lookup_insert_ne by lia; done).
  assert (Hpl' : prev_live (<[i:=mkCell false (cdata c)]> cells) (S i) = false).
  { cbn [prev_live]. by rewrite list_lookup_insert_eq by (by eapply lookup_lt_Some). }
  split_and!.
  - rewrite (GetCellData_spec _ _ _ Hq'), Hd', Hld, Hpl'. cbn. eauto.
  - rewrite (GetRowFromPage_spec _ _ _ _ Hq'), Hd', Hld, Hpl'. cbn. eauto.
  - pose proof (DeleteRowFromPage_spec _ _ (S i) Hq') as Hs. rewrite Hd', Hld, Hpl' in Hs.
    cbn in Hs. eauto.
Qed.

(** The row size is taken modulo 2^16 in the space test. *)
Lemma CanInsert_mod p n : CanInsert p n = CanInsert p (u16 n).
Proof. unfold CanInsert. by rewrite (u16_small (u16 n)) by apply u16_range. Qed.
End Operations.

(** ** A page with two rows *)

Definition ok_or {E A} (d : A) (m : outcome E A) : A := match m with Ok a => a | _ => d end.

Definition two_rows : PageV2 :=
  let p0 := NewPageV2 1 PageTypeData in
  let p1 := fst (ok_or (p0, 0) (InsertRowToPage (H := plain_runtime) p0 1 [NewIntValue 7])) in
  fst (ok_or (p1, 0) (InsertRowToPage (H := plain_runtime) p1 2 [NewStringValue (str "xyz")])).

Definition two_cells : list Cell :=
  [mkCell true (EncodeRow (H := plain_runtime) 1 [NewIntValue 7]);
   mkCell true (EncodeRow (H := plain_runtime) 2 [NewStringValue (str "xyz")])].

Lemma two_rows_repr : page_repr two_rows two_cells.
Proof.
  constructor.
  1-3,5: vm_compute; reflexivity.
  - vm_compute. discriminate.
  - repeat constructor.
  - intros [|[|i]] c Hi; [injection Hi as <-; vm_compute; reflexivity ..|done].
  - intros [|[|i]] c Hi; [injection Hi as <-; vm_compute; reflexivity ..|done].
Qed.

Theorem InsertRowToPage_spec_witness :
  exists p', InsertRowToPage (H := plain_runtime) two_rows 3 [NewNullValue] = Ok (p', 2) /\
    page_repr p' (two_cells ++ [mkCell true (EncodeRow (H := plain_runtime) 3 [NewNullValue])]) /\
    same_identity two_rows p'.
Proof.
  apply (InsertRowToPage_spec (H := plain_runtime) two_rows two_cells 3 [NewNullValue] two_rows_repr).
  reflexivity.
Defined.

Theorem GetCellData_spec_witness :
  GetCellData two_rows (Z.of_nat 1) =
  Ok (EncodeRow (H := plain_runtime) 2 [NewStringValue (str "xyz")]).
Proof. exact (GetCellData_spec two_rows two_cells 1 two_rows_repr). Defined.

Theorem GetRowFromPage_spec_witness :
  GetRowFromPage two_rows (Z.of_nat 1) [] =
  match DecodeRow (EncodeRow (H := plain_runtime) 2 [NewStringValue (str "xyz")]) [] with
  | Ok r => Ok r | Err e => Err (BadRow e) | Panic => Panic | Hang => Hang
  end.
Proof. exact (GetRowFromPage_spec two_rows two_cells 1 [] two_rows_repr). Defined.

Theorem DeleteRowFromPage_spec_witness :
  exists p', DeleteRowFromPage two_rows (Z.of_nat 0) = Ok p' /\
    page_repr p' (<[0%nat:=mkCell false (EncodeRow (H := plain_runtime) 1 [NewIntValue 7])]> two_cells) /\
    same_identity two_rows p'.
Proof. exact (DeleteRowFromPage_spec two_rows two_cells 0 two_rows_repr). Defined.

Theorem delete_hides_next_witness :
  exists p', DeleteRowFromPage two_rows (Z.of_nat 0) = Ok p' /\
    (exists e, GetCellData p' (Z.of_nat 1) = Err e) /\
    (exists e, GetRowFromPage p' (Z.of_nat 1) [] = Err e) /\
    (exists e, DeleteRowFromPage p' (Z.of_nat 1) = Err e).
Proof.
  eexists. split; [vm_compute; reflexivity|].
  apply (delete_hides_next two_rows two_cells 0
           (mkCell true (EncodeRow (H := plain_runtime) 1 [NewIntValue 7]))
           (mkCell true (EncodeRow (H := plain_runtime) 2 [NewStringValue (str "xyz")])));
    [exact two_rows_repr | vm_compute; reflexivity ..].
Defined.

(** A row of 70017 bytes is accepted by an empty page: its size
    is taken modulo 2^16, only its first 4481 bytes are kept and it cannot
    be read back. *)
Theorem InsertRow_oversize :
  let row := [NewStringValue (repeat Byte.x41 (Z.to_nat 70002))] in
  let p := NewPageV2 1 PageTypeData in
  match InsertRowToPage (H := plain_runtime) p 1 row with
  | Ok (p', i) => zlen (EncodeRow (H := plain_runtime) 1 row) = 70017 /\
                  FreeSpace (Header p') = 16352 - 4481 /\
                  is_ok (GetRowFromPage p' i []) = false
  | _ => False
  end.
Proof. vm_compute. auto. Qed.
