(* ===== verification/PageCache.v ===== *)
(** * The LRU page cache (src/storage/pagecache.go)

    The cache is generic in the type [P] of page handles and in the
    operation that reads a page's identifier. A list element of
    container/list is modelled with its identity, since the code reaches it
    through the pointers kept in [lruMap]. The mutex is not modelled: each
    operation holds it from start to end. *)

From S2P Require Import Prelude.
Local Open Scope Z_scope.

Record Element (P : Type) := mkElement { eid : nat; ekey : Z; epage : P }.
Arguments mkElement {P}. Arguments eid {P}. Arguments ekey {P}. Arguments epage {P}.

Record PageCacheConfig := mkConfig { MaxPages : Z; WriteBehind : bool; WriteBatch : Z }.

Definition DefaultPageCacheConfig : PageCacheConfig := mkConfig 1000 true 100.

Record PageCache (P : Type) := mkCache {
  config : PageCacheConfig;
  pages : gmap Z P;
  lruList : list (Element P);       (* front first *)
  lruMap : gmap Z nat;              (* page ID -> element *)
  dirty : gmap Z bool;
  hits : Z;
  misses : Z;
  next_eid : nat                    (* identity of the next list element *)
}.
Arguments mkCache {P}. Arguments config {P}. Arguments pages {P}. Arguments lruList {P}.
Arguments lruMap {P}. Arguments dirty {P}. Arguments hits {P}. Arguments misses {P}.
Arguments next_eid {P}.

Inductive CacheError := NoPages | DirtyPage (pageID : Z).

Section Cache.
Context {P : Type} (page_id : P -> Z).
Implicit Types c : PageCache P.

Definition NewPageCache (cfg : PageCacheConfig) : PageCache P :=
  mkCache cfg ∅ [] ∅ ∅ 0 0 0.

(** container/list *)
Definition MoveToFront (e : nat) (l : list (Element P)) : list (Element P) :=
  match List.find (fun x => Nat.eqb (eid x) e) l with
  | Some x => x :: List.filter (fun y => negb (Nat.eqb (eid y) e)) l
  | None => l
  end.
Definition RemoveElement (e : nat) (l : list (Element P)) : list (Element P) :=
  List.filter (fun y => negb (Nat.eqb (eid y) e)) l.

Definition set_lru (l : list (Element P)) c : PageCache P :=
  mkCache (config c) (pages c) l (lruMap c) (dirty c) (hits c) (misses c) (next_eid c).
Definition set_pages (m : gmap Z P) c : PageCache P :=
  mkCache (config c) m (lruList c) (lruMap c) (dirty c) (hits c) (misses c) (next_eid c).
Definition set_dirty (d : gmap Z bool) c : PageCache P :=
  mkCache (config c) (pages c) (lruList c) (lruMap c) d (hits c) (misses c) (next_eid c).

Definition touchPage (pageID : Z) c : PageCache P :=
  match lruMap c !! pageID with
  | Some e => set_lru (MoveToFront e (lruList c)) c
  | None => c
  end.

Definition is_dirty (d : gmap Z bool) (pageID : Z) : bool := default false (d !! pageID).

(** The back of the list goes, unless it is dirty: then it moves to the
    front and the eviction fails. *)
Definition evictLRU c : PageCache P * option CacheError :=
  match last (lruList c) with
  | None => (c, Some NoPages)
  | Some element =>
    let pageID := ekey element in
    if is_dirty (dirty c) pageID then
      (set_lru (MoveToFront (eid element) (lruList c)) c, Some (DirtyPage pageID))
    else
      (mkCache (config c) (delete pageID (pages c)) (RemoveElement (eid element) (lruList c))
         (delete pageID (lruMap c)) (dirty c) (hits c) (misses c) (next_eid c), None)
  end.

(** [for cond(len(c.pages)) { evictLRU }]; every turn removes a list
    element or stops, so the length of the list bounds the turns. *)
Fixpoint evict_while (fuel : nat) (cond : Z -> bool) c : PageCache P * option CacheError :=
  if cond (Z.of_nat (size (pages c))) then
    match fuel with
    | O => (c, Some NoPages)
    | S n => match evictLRU c with
             | (c', Some e) => (c', Some e)
             | (c', None) => evict_while n cond c'
             end
    end
  else (c, None).

Definition Get (pageID : Z) c : PageCache P * option P :=
  match pages c !! pageID with
  | None => (mkCache (config c) (pages c) (lruList c) (lruMap c) (dirty c) (hits c)
               (misses c + 1) (next_eid c), None)
  | Some page =>
    let c := mkCache (config c) (pages c) (lruList c) (lruMap c) (dirty c) (hits c + 1)
               (misses c) (next_eid c) in
    (touchPage pageID c, Some page)
  end.

(** The page is not nil: a nil page is refused before the cache is used. *)
Definition Put (page : P) c : PageCache P * option CacheError :=
  let pageID := page_id page in
  match pages c !! pageID with
  | Some _ => (touchPage pageID (set_pages (<[pageID:=page]> (pages c)) c), None)
  | None =>
    match evict_while (S (length (lruList c))) (fun n => MaxPages (config c) <=? n) c with
    | (c', Some e) => (c', Some e)
    | (c', None) =>
      (mkCache (config c') (<[pageID:=page]> (pages c'))
         (mkElement (next_eid c') pageID page :: lruList c')
         (<[pageID:=next_eid c']> (lruMap c')) (dirty c') (hits c') (misses c')
         (S (next_eid c')), None)
    end
  end.

Definition MarkDirty (pageID : Z) c : PageCache P := set_dirty (<[pageID:=true]> (dirty c)) c.
Definition IsDirty (pageID : Z) c : bool := is_dirty (dirty c) pageID.
Definition ClearDirty (pageID : Z) c : PageCache P := set_dirty (delete pageID (dirty c)) c.
Definition GetDirtyPages c : list Z := (map_to_list (dirty c)).*1.

Definition Remove (pageID : Z) c : PageCache P :=
  let '(l, m) := match lruMap c !! pageID with
                 | Some e => (RemoveElement e (lruList c), delete pageID (lruMap c))
                 | None => (lruList c, lruMap c)
                 end in
  mkCache (config c) (delete pageID (pages c)) l m (delete pageID (dirty c)) (hits c) (misses c)
    (next_eid c).

Definition Clear c : PageCache P :=
  mkCache (config c) ∅ [] ∅ ∅ (hits c) (misses c) (next_eid c).

Definition Size c : Z := Z.of_nat (size (pages c)).

Definition Resize (maxPages : Z) c : PageCache P * option CacheError :=
  let c := mkCache (mkConfig maxPages (WriteBehind (config c)) (WriteBatch (config c)))
             (pages c) (lruList c) (lruMap c) (dirty c) (hits c) (misses c) (next_eid c) in
  evict_while (S (length (lruList c))) (fun n => maxPages <? n) c.

(** The numbers of [Stats], without the rate of hits, which is [hits] of
    [hits + misses] as a float. *)
Definition PageSizeBytes : Z := 16384.
Definition Stats c : list (string * Z) :=
  [("pages", Z.of_nat (size (pages c))); ("max_pages", MaxPages (config c)); ("dirty", Z.of_nat (size (dirty c)));
   ("hits", hits c); ("misses", misses c); ("usage_mb", Z.of_nat (size (pages c)) * PageSizeBytes / (1024 * 1024))]%string.

(** Flushing, with the state [W] that [writeFunc] changes; [None] is its
    error. The pages are visited in the order Go's map iteration gives,
    an argument here. *)
Section Flush.
Context {W : Type} (writeFunc : P -> W -> option W).

Fixpoint Flush (order : list Z) c (w : W) : PageCache P * W * option Z :=
  match order with
  | [] => (c, w, None)
  | pageID :: rest =>
    if is_dirty (dirty c) pageID then
      match pages c !! pageID with
      | None => Flush rest (ClearDirty pageID c) w
      | Some page =>
        match writeFunc page w with
        | None => (c, w, Some pageID)
        | Some w' => Flush rest (ClearDirty pageID c) w'
        end
      end
    else Flush rest c w
  end.

Definition FlushPage (pageID : Z) c (w : W) : PageCache P * W * option Z :=
  if negb (is_dirty (dirty c) pageID) then (c, w, None)
  else match pages c !! pageID with
       | None => (ClearDirty pageID c, w, None)
       | Some page => match writeFunc page w with
                      | None => (c, w, Some pageID)
                      | Some w' => (ClearDirty pageID c, w', None)
                      end
       end.
End Flush.

(** ** The invariant *)

Record cache_ok c : Prop := {
  ok_eids : NoDup (eid <$> lruList c);
  ok_keys : NoDup (ekey <$> lruList c);
  ok_fresh : Forall (fun x => eid x < next_eid c)%nat (lruList c);
  ok_map : forall k e, lruMap c !! k = Some e <-> exists x, x ∈ lruList c /\ eid x = e /\ ekey x = k;
  ok_pages : forall k, is_Some (pages c !! k) <-> k ∈ ekey <$> lruList c
}.

(** ** Lemmas *)

Lemma filter_other (l : list (Element P)) e :
  Forall (fun y => eid y <> e) l -> List.filter (fun y => negb (Nat.eqb (eid y) e)) l = l.
Proof.
  induction 1 as [|y l Hy Hl IH]; [done|]. cbn [List.filter].
  rewrite (proj2 (Nat.eqb_neq _ _) Hy). cbn [negb]. by rewrite IH.
Qed.

Lemma NoDup_split_eids l1 (x : Element P) l2 :
  NoDup (eid <$> l1 ++ x :: l2) ->
  Forall (fun y => eid y <> eid x) l1 /\ Forall (fun y => eid y <> eid x) l2.
Proof.
  rewrite fmap_app, fmap_cons. intros (_ & Hd & [Hx _]%NoDup_cons)%NoDup_app.
  split; rewrite Forall_forall; intros y Hy Heq.
  - apply (Hd (eid y)); [by apply list_elem_of_fmap_2|]. rewrite Heq. by left.
  - apply Hx. rewrite <- Heq. by apply list_elem_of_fmap_2.
Qed.

Lemma find_split l1 (x : Element P) l2 :
  Forall (fun y => eid y <> eid x) l1 ->
  List.find (fun y => Nat.eqb (eid y) (eid x)) (l1 ++ x :: l2) = Some x.
Proof.
  induction 1 as [|y l Hy Hl IH]; cbn [app List.find]; [by rewrite Nat.eqb_refl|].
  by rewrite (proj2 (Nat.eqb_neq _ _) Hy).
Qed.

Lemma RemoveElement_split l1 (x : Element P) l2 :
  NoDup (eid <$> l1 ++ x :: l2) -> RemoveElement (eid x) (l1 ++ x :: l2) = l1 ++ l2.
Proof.
  intros [H1 H2]%NoDup_split_eids. unfold RemoveElement.
  rewrite List.filter_app. cbn [List.filter]. rewrite Nat.eqb_refl. cbn [negb].
  by rewrite !filter_other.
Qed.

Lemma MoveToFront_split l1 (x : Element P) l2 :
  NoDup (eid <$> l1 ++ x :: l2) -> MoveToFront (eid x) (l1 ++ x :: l2) = x :: l1 ++ l2.
Proof.
  intros Hnd. pose proof (NoDup_split_eids _ _ _ Hnd) as [H1 H2].
  unfold MoveToFront. rewrite find_split by done. f_equal. by apply RemoveElement_split.
Qed.

(** The order of the list is not part of the invariant. *)
Lemma cache_ok_perm c l : l ≡ₚ lruList c -> cache_ok c -> cache_ok (set_lru l c).
Proof.
  intros Hl [H1 H2 H3 H4 H5]. constructor; cbn.
  - by rewrite Hl.
  - by rewrite Hl.
  - by rewrite Hl.
  - intros k e. rewrite H4. by setoid_rewrite Hl.
  - intros k. rewrite H5. by rewrite Hl.
Qed.

(** The list around the element of a cached page. *)
Lemma ok_element c k : cache_ok c -> is_Some (pages c !! k) ->
  exists l1 x l2, lruList c = l1 ++ x :: l2 /\ ekey x = k /\ lruMap c !! k = Some (eid x).
Proof.
  intros Hok Hk. apply (ok_pages _ Hok) in Hk.
  apply list_elem_of_fmap in Hk as (x & -> & Hx).
  destruct (list_elem_of_split _ _ Hx) as (l1 & l2 & Hl).
  exists l1, x, l2. split; [done|]. split; [done|]. apply (ok_map _ Hok). eauto.
Qed.

Lemma touchPage_split c l1 x l2 :
  cache_ok c -> lruList c = l1 ++ x :: l2 -> lruMap c !! ekey x = Some (eid x) ->
  touchPage (ekey x) c = set_lru (x :: l1 ++ l2) c.
Proof.
  intros Hok Hl Hm. unfold touchPage. rewrite Hm, Hl, MoveToFront_split; [done|].
  rewrite <- Hl. apply (ok_eids _ Hok).
Qed.

Lemma touchPage_ok k c : cache_ok c -> cache_ok (touchPage k c).
Proof.
  intros Hok. unfold touchPage. destruct (lruMap c !! k) as [e|] eqn:Hm; [|done].
  apply (ok_map _ Hok) in Hm as (x & Hx & <- & <-).
  apply cache_ok_perm; [|done].
  destruct (list_elem_of_split _ _ Hx) as (l1 & l2 & Hl). rewrite Hl.
  rewrite MoveToFront_split by (rewrite <- Hl; apply (ok_eids _ Hok)).
  by rewrite Permutation_middle.
Qed.

(** One page per list element. *)
Lemma ok_size c : cache_ok c -> size (pages c) = length (lruList c).
Proof.
  intros Hok. rewrite <- (size_dom (D := gset Z)).
  replace (dom (pages c)) with (list_to_set (C := gset Z) (ekey <$> lruList c)).
  - rewrite size_list_to_set by apply (ok_keys _ Hok). by rewrite length_fmap.
  - apply set_eq. intros k. rewrite elem_of_list_to_set, elem_of_dom. symmetry. apply (ok_pages _ Hok).
Qed.

(** Removing a cached page, as [evictLRU] and [Remove] do. *)
Lemma remove_ok c l1 x l2 d :
  cache_ok c -> lruList c = l1 ++ x :: l2 ->
  cache_ok (mkCache (config c) (delete (ekey x) (pages c)) (l1 ++ l2)
              (delete (ekey x) (lruMap c)) d (hits c) (misses c) (next_eid c)).
Proof.
  intros Hok Hl. destruct Hok as [H1 H2 H3 H4 H5]. rewrite Hl in *.
  assert (Hkey : forall y, y ∈ l1 ++ l2 -> ekey y <> ekey x).
  { rewrite fmap_app, fmap_cons in H2. apply NoDup_app in H2 as (_ & Hd & [Hx _]%NoDup_cons).
    intros y [Hy|Hy]%elem_of_app Heq.
    - apply (Hd (ekey y)); [by apply list_elem_of_fmap_2|]. rewrite Heq. by left.
    - apply Hx. rewrite <- Heq. by apply list_elem_of_fmap_2. }
  assert (Hmem : forall y, y ∈ l1 ++ x :: l2 <-> y = x \/ y ∈ l1 ++ l2)
    by (intros; rewrite !elem_of_app, elem_of_cons; tauto).
  constructor; cbn [lruList pages lruMap next_eid].
  - rewrite fmap_app in *. apply NoDup_app in H1 as (?&Hd&[??]%NoDup_cons).
    apply NoDup_app. split_and!; [done| |done]. intros e He. specialize (Hd e He). by apply not_elem_of_cons in Hd as [_ ?].
  - rewrite fmap_app in *. apply NoDup_app in H2 as (?&Hd&[??]%NoDup_cons).
    apply NoDup_app. split_and!; [done| |done]. intros e He. specialize (Hd e He). by apply not_elem_of_cons in Hd as [_ ?].
  - apply Forall_app in H3 as [? [? ?]%Forall_cons]. by apply Forall_app.
  - intros k e. destruct (decide (k = ekey x)) as [->|Hne].
    + rewrite lookup_delete_eq. split; [done|]. intros (y & Hy & _ & Hk). by apply Hkey in Hy.
    + rewrite lookup_delete_ne, H4 by done. split; intros (y & Hy & He & Hk); exists y.
      * apply Hmem in Hy as [->|Hy]; [by subst|done].
      * rewrite Hmem. auto.
  - intros k. destruct (decide (k = ekey x)) as [->|Hne].
    + rewrite lookup_delete_eq. split; [by intros []|].
      intros (y & Heq & Hy)%list_elem_of_fmap. by apply Hkey in Hy.
    + rewrite lookup_delete_ne, H5 by done. rewrite !fmap_app, fmap_cons, !elem_of_app, elem_of_cons. tauto.
Qed.

Lemma set_dirty_ok d c : cache_ok c -> cache_ok (set_dirty d c).
Proof. intros [????]. by constructor. Qed.

Lemma evictLRU_spec c c' r : cache_ok c -> evictLRU c = (c', r) ->
  match r with
  | Some NoPages => lruList c = [] /\ c' = c
  | Some (DirtyPage k) => exists l x, lruList c = l ++ [x] /\ k = ekey x /\
      is_dirty (dirty c) k = true /\ c' = set_lru (x :: l) c /\ cache_ok c'
  | None => exists l x, lruList c = l ++ [x] /\ is_dirty (dirty c) (ekey x) = false /\
      lruList c' = l /\ pages c' = delete (ekey x) (pages c) /\ dirty c' = dirty c /\
      config c' = config c /\ cache_ok c'
  end.
Proof.
  intros Hok. unfold evictLRU. destruct (last (lruList c)) as [x|] eqn:Hlast.
  2:{ intros [= <- <-]. by apply last_None in Hlast. }
  apply last_Some in Hlast as [l Hl].
  assert (Hnd : NoDup (eid <$> l ++ [x])) by (rewrite <- Hl; apply (ok_eids _ Hok)).
  destruct (is_dirty (dirty c) (ekey x)) eqn:Hd; intros [= <- <-].
  - exists l, x. rewrite Hl, MoveToFront_split, app_nil_r by done. split_and!; try done.
    apply cache_ok_perm; [|done]. rewrite Hl. apply Permutation_cons_append.
  - exists l, x. cbn [lruList pages dirty config]. rewrite Hl, RemoveElement_split, app_nil_r by done.
    split_and!; try done. rewrite <- (app_nil_r l). by apply remove_ok.
Qed.

(** What a sequence of evictions removed: [ev], the back of the list. *)
Definition evicted c c' (ev : list (Element P)) : Prop :=
  Forall (fun x => is_dirty (dirty c) (ekey x) = false) ev /\
  (forall k, pages c' !! k = if decide (k ∈ ekey <$> ev) then None else pages c !! k) /\
  dirty c' = dirty c /\ config c' = config c /\ cache_ok c'.

Lemma evicted_nil c l : cache_ok (set_lru l c) -> evicted c (set_lru l c) [].
Proof.
  intros Hok. split; [constructor|]. split; [|done].
  intros k. by rewrite decide_False by apply not_elem_of_nil.
Qed.

(** The loop of evictions, given enough fuel: it ends because the condition
    fails, because nothing is left, or at a dirty page. *)
Lemma evict_while_spec fuel cond c c' r :
  (length (lruList c) < fuel)%nat -> cache_ok c -> evict_while fuel cond c = (c', r) ->
  exists kept ev, lruList c = kept ++ ev /\ evicted c c' ev /\
    match r with
    | None => lruList c' = kept /\ cond (Z.of_nat (size (pages c'))) = false
    | Some NoPages => kept = [] /\ lruList c' = []
    | Some (DirtyPage k) => exists l x, kept = l ++ [x] /\ k = ekey x /\
        is_dirty (dirty c) k = true /\ lruList c' = x :: l
    end.
Proof.
  revert c. induction fuel as [|fuel IH]; intros c Hf Hok; [lia|]. cbn [evict_while].
  destruct (cond (Z.of_nat (size (pages c)))) eqn:Hc.
  2:{ intros [= <- <-]. exists (lruList c), []. rewrite app_nil_r.
      split; [done|]. split; [|done]. destruct c. by apply (evicted_nil (mkCache _ _ _ _ _ _ _ _)). }
  destruct (evictLRU c) as [c1 [e|]] eqn:He; pose proof (evictLRU_spec _ _ _ Hok He) as Hs.
  - intros [= <- <-]. destruct e as [|k].
    + destruct Hs as [Hl ->]. exists [], []. rewrite Hl. split; [done|]. split; [|done]. destruct c. by apply (evicted_nil (mkCache _ _ _ _ _ _ _ _)).
    + destruct Hs as (l & x & Hl & -> & Hd & -> & Hok'). exists (l ++ [x]), [].
      rewrite app_nil_r. split; [done|]. split; [by apply evicted_nil|]. by exists l, x.
  - destruct Hs as (l & x & Hl & Hd & Hl1 & Hp1 & Hd1 & Hc1 & Hok1).
    intros Hrec. destruct (IH c1) as (kept & ev & Hkept & (Hev & Hpg & Hdd & Hcc & Hok') & Hr);
      [rewrite Hl1; rewrite Hl, length_app in Hf; simpl in Hf; lia | done..|].
    exists kept, (ev ++ [x]). rewrite Hl, <- Hl1, Hkept, app_assoc. rewrite Hd1 in *.
    split; [done|]. split; [|by destruct r as [[]|]].
    split_and!; [|intros k|congruence|congruence|done].
    + apply Forall_app. split; [done|]. by apply Forall_singleton.
    + rewrite Hpg, Hp1, fmap_app. destruct (decide (k ∈ ekey <$> ev)) as [H|H].
      * by rewrite decide_True by (apply elem_of_app; by left).
      * destruct (decide (k = ekey x)) as [->|Hne].
        -- rewrite lookup_delete_eq. by rewrite decide_True by (apply elem_of_app; right; by left).
        -- rewrite lookup_delete_ne by done. rewrite decide_False; [done|].
           by intros [?|?%list_elem_of_singleton]%elem_of_app.
Qed.

(** When nothing is left to evict the loop still wanted to. *)
Lemma evict_while_nopages fuel cond c c' :
  evict_while fuel cond c = (c', Some NoPages) -> cond (Z.of_nat (size (pages c'))) = true.
Proof.
  revert c. induction fuel as [|fuel IH]; intros c; cbn [evict_while];
    destruct (cond (Z.of_nat (size (pages c)))) eqn:Hc; try done.
  - by intros [= <-].
  - destruct (evictLRU c) as [c1 [e|]] eqn:He; [|by apply IH].
    intros [= <- ->]. unfold evictLRU in He. destruct (last (lruList c)); [|by injection He as <-].
    by destruct (is_dirty _ _).
Qed.

(** Adding a page that is not cached. *)
Lemma insert_ok c p :
  cache_ok c -> pages c !! page_id p = None ->
  cache_ok (mkCache (config c) (<[page_id p:=p]> (pages c))
              (mkElement (next_eid c) (page_id p) p :: lruList c)
              (<[page_id p:=next_eid c]> (lruMap c)) (dirty c) (hits c) (misses c) (S (next_eid c))).
Proof.
  intros Hok Hp. destruct Hok as [H1 H2 H3 H4 H5].
  assert (Hnk : page_id p ∉ ekey <$> lruList c).
  { intros Hk. apply H5 in Hk as [q Hq]. congruence. }
  rewrite Forall_forall in H3.
  constructor; cbn [lruList pages lruMap next_eid].
  - rewrite fmap_cons. apply NoDup_cons. split; [|done].
    intros (y & Heq & Hy)%list_elem_of_fmap. apply H3 in Hy. cbn in Heq. lia.
  - rewrite fmap_cons. by apply NoDup_cons.
  - apply Forall_cons. split; [cbn; lia|]. apply Forall_forall. intros y Hy%H3. lia.
  - intros k e. destruct (decide (k = page_id p)) as [->|Hne].
    + rewrite lookup_insert_eq. split.
      * intros [= <-]. eexists. split; [by left|done].
      * intros (y & Hy & <- & Hk). apply elem_of_cons in Hy as [->|Hy]; [done|].
        exfalso. apply Hnk. rewrite <- Hk. by apply list_elem_of_fmap_2.
    + rewrite lookup_insert_ne, H4 by done. split; intros (y & Hy & He & Hk); exists y.
      * split; [by right|done].
      * apply elem_of_cons in Hy as [->|Hy]; [by cbn in Hk|done].
  - intros k. rewrite fmap_cons. cbn [ekey]. destruct (decide (k = page_id p)) as [->|Hne].
    + rewrite lookup_insert_eq. split; [by left|eauto].
    + rewrite lookup_insert_ne, H5 by done. rewrite elem_of_cons. tauto.
Qed.

(** Replacing a cached page. *)
Lemma set_pages_ok c k p : cache_ok c -> is_Some (pages c !! k) ->
  cache_ok (set_pages (<[k:=p]> (pages c)) c).
Proof.
  intros [H1 H2 H3 H4 H5] Hk. constructor; cbn; try done.
  intros j. destruct (decide (j = k)) as [->|Hne].
  - rewrite lookup_insert_eq, <- H5. split; [done|eauto].
  - by rewrite lookup_insert_ne.
Qed.

Lemma Put_ok p c : cache_ok c -> cache_ok (Put p c).1.
Proof.
  intros Hok. unfold Put. destruct (pages c !! page_id p) as [q|] eqn:Hp.
  { cbn [fst]. apply touchPage_ok, set_pages_ok; eauto. }
  destruct (evict_while _ _ c) as [c' [e|]] eqn:He;
    destruct (evict_while_spec _ _ _ _ _ (Nat.lt_succ_diag_r _) Hok He) as (kept & ev & Hl & (Hev & Hpg & _ & _ & Hok') & Hr);
    cbn [fst]; [done|].
  apply insert_ok; [done|]. rewrite Hpg, Hp. by destruct (decide _).
Qed.

(** The entry of the page that was put, if there is one, is that page. *)
Lemma Put_self p c q : cache_ok c -> pages (Put p c).1 !! page_id p = Some q -> q = p.
Proof.
  intros Hok. unfold Put. destruct (pages c !! page_id p) as [r|] eqn:Hp.
  { cbn [fst]. unfold touchPage. case_match; cbn; rewrite lookup_insert_eq; congruence. }
  destruct (evict_while _ _ c) as [c' [e|]] eqn:He;
    destruct (evict_while_spec _ _ _ _ _ (Nat.lt_succ_diag_r _) Hok He) as (kept & ev & _ & (_ & Hpg & _) & _);
    cbn [fst pages].
  - rewrite Hpg, Hp. by case_decide.
  - rewrite lookup_insert_eq. congruence.
Qed.

(** What a cache holds after [Put]: the page, and nothing new besides. *)
Lemma Put_lookup p c k q : cache_ok c -> pages (Put p c).1 !! k = Some q ->
  (k = page_id p /\ q = p) \/ pages c !! k = Some q.
Proof.
  intros Hok. unfold Put. destruct (pages c !! page_id p) as [r|] eqn:Hp.
  { cbn [fst]. unfold touchPage. case_match; cbn; rewrite lookup_insert;
      (case_decide; [intros [= <-]; auto|auto]). }
  destruct (evict_while _ _ c) as [c' [e|]] eqn:He;
    destruct (evict_while_spec _ _ _ _ _ (Nat.lt_succ_diag_r _) Hok He) as (kept & ev & _ & (_ & Hpg & _) & _);
    cbn [fst pages].
  - rewrite Hpg. case_decide; [done|auto].
  - rewrite lookup_insert. case_decide; [intros [= <-]; auto|]. rewrite Hpg. case_decide; [done|auto].
Qed.

Lemma Get_ok k c : cache_ok c -> cache_ok (Get k c).1.
Proof.
  intros Hok. unfold Get. destruct (pages c !! k); cbn [fst].
  - apply touchPage_ok. destruct Hok. by constructor.
  - destruct Hok. by constructor.
Qed.

Lemma Remove_ok k c : cache_ok c -> cache_ok (Remove k c).
Proof.
  intros Hok. unfold Remove. destruct (lruMap c !! k) as [e|] eqn:Hm.
  - pose proof (proj1 (ok_map _ Hok _ _) Hm) as (x & Hx & <- & <-).
    destruct (list_elem_of_split _ _ Hx) as (l1 & l2 & Hl).
    rewrite Hl, RemoveElement_split by (rewrite <- Hl; apply (ok_eids _ Hok)).
    by apply remove_ok.
  - assert (Hp : pages c !! k = None).
    { destruct (pages c !! k) as [p|] eqn:Hp; [|done].
      destruct (ok_element c k Hok ltac:(eauto)) as (l1 & x & l2 & _ & _ & ?). congruence. }
    rewrite delete_id by done. destruct Hok. by constructor.
Qed.

Lemma Resize_ok n c : cache_ok c -> cache_ok (Resize n c).1.
Proof.
  intros Hok. unfold Resize.
  set (c0 := mkCache (mkConfig n _ _) _ _ _ _ _ _ _).
  assert (Hok0 : cache_ok c0) by (destruct Hok; by constructor).
  destruct (evict_while _ _ c0) as [c' r] eqn:He.
  destruct (evict_while_spec _ _ _ _ _ (Nat.lt_succ_diag_r _) Hok0 He) as (kept & ev & _ & (_ & _ & _ & _ & ?) & _).
  done.
Qed.

Lemma Flush_ok {W} (f : P -> W -> option W) order c w : cache_ok c -> cache_ok (Flush f order c w).1.1.
Proof.
  revert c w. induction order as [|k rest IH]; intros c w Hok; cbn [Flush]; [done|].
  destruct (is_dirty (dirty c) k); [|by apply IH].
  destruct (pages c !! k); [|by apply IH, set_dirty_ok].
  destruct (f _ w); [by apply IH, set_dirty_ok|done].
Qed.

(** ** Runs of operations *)

Inductive CacheOp :=
  | OGet (k : Z)
  | OPut (p : P)
  | OMarkDirty (k : Z)
  | OClearDirty (k : Z)
  | ORemove (k : Z)
  | OClear
  | OResize (n : Z)
  | OFlush (writes : P -> bool) (order : list Z).

Definition apply_op (op : CacheOp) c : PageCache P :=
  match op with
  | OGet k => (Get k c).1
  | OPut p => (Put p c).1
  | OMarkDirty k => MarkDirty k c
  | OClearDirty k => ClearDirty k c
  | ORemove k => Remove k c
  | OClear => Clear c
  | OResize n => (Resize n c).1
  | OFlush writes order => (Flush (fun p w => if writes p then Some w else None) order c tt).1.1
  end.

Definition run_ops (ops : list CacheOp) c : PageCache P := fold_left (fun c op => apply_op op c) ops c.

Definition no_resize (op : CacheOp) : Prop := match op with OResize _ => False | _ => True end.

Lemma empty_ok cfg d h m n : cache_ok (mkCache cfg ∅ [] ∅ d h m n).
Proof.
  constructor; cbn; try constructor.
  - by rewrite lookup_empty.
  - by intros (x & Hx%elem_of_nil & _).
  - rewrite lookup_empty. by intros [].
  - by intros ?%elem_of_nil.
Qed.

Lemma new_ok cfg : cache_ok (NewPageCache cfg).
Proof. apply empty_ok. Qed.

Lemma apply_op_ok op c : cache_ok c -> cache_ok (apply_op op c).
Proof.
  intros Hok. destruct op; cbn [apply_op].
  - by apply Get_ok.
  - by apply Put_ok.
  - by apply set_dirty_ok.
  - by apply set_dirty_ok.
  - by apply Remove_ok.
  - pose proof (new_ok (config c)) as [????]. by constructor.
  - by apply Resize_ok.
  - by apply Flush_ok.
Qed.

Lemma run_ops_ok ops c : cache_ok c -> cache_ok (run_ops ops c).
Proof.
  revert c. induction ops as [|op ops IH]; intros c Hok; [done|]. by apply IH, apply_op_ok.
Qed.

Definition within c : Prop := Z.of_nat (size (pages c)) <= Z.max 0 (MaxPages (config c)).

Lemma touchPage_frame k c :
  pages (touchPage k c) = pages c /\ config (touchPage k c) = config c /\ dirty (touchPage k c) = dirty c.
Proof. unfold touchPage. by destruct (lruMap c !! k). Qed.

Lemma Get_frame k c :
  pages (Get k c).1 = pages c /\ config (Get k c).1 = config c /\ dirty (Get k c).1 = dirty c.
Proof. unfold Get. destruct (pages c !! k); [|done]. cbn [fst].
  match goal with |- context [touchPage k ?d] => by destruct (touchPage_frame k d) as (-> & -> & ->) end.
Qed.

Lemma evicted_size c c' ev : cache_ok c -> evicted c c' ev -> (size (pages c') <= size (pages c))%nat.
Proof.
  intros _ (_ & Hpg & _). apply map_subseteq_size. apply map_subseteq_spec.
  intros k x Hk. rewrite Hpg in Hk. by destruct (decide _).
Qed.

Lemma Put_within p c : cache_ok c -> within c ->
  within (Put p c).1 /\ config (Put p c).1 = config c.
Proof.
  intros Hok Hw. unfold Put, within in *. destruct (pages c !! page_id p) as [q|] eqn:Hp.
  { cbn [fst]. destruct (touchPage_frame (page_id p) (set_pages (<[page_id p:=p]> (pages c)) c))
      as (-> & -> & _). cbn. by rewrite map_size_insert_Some. }
  destruct (evict_while _ _ c) as [c' [e|]] eqn:He;
    destruct (evict_while_spec _ _ _ _ _ (Nat.lt_succ_diag_r _) Hok He) as (kept & ev & Hl & Hevd & Hr);
    pose proof (evicted_size _ _ _ Hok Hevd); destruct Hevd as (_ & Hpg & _ & Hc & Hok');
    cbn [fst pages config]; rewrite Hc.
  - split; [lia|done].
  - destruct Hr as [_ Hcond]. apply Z.leb_gt in Hcond. split; [|done].
    rewrite map_size_insert_None; [lia|]. rewrite Hpg, Hp. by destruct (decide _).
Qed.

Lemma Flush_frame {W} (f : P -> W -> option W) order c w :
  pages (Flush f order c w).1.1 = pages c /\ config (Flush f order c w).1.1 = config c.
Proof.
  revert c w. induction order as [|k rest IH]; intros c w; cbn [Flush]; [done|].
  destruct (is_dirty (dirty c) k); [|apply IH].
  destruct (pages c !! k); [destruct (f _ w); [|done]|].
  - by destruct (IH (ClearDirty k c) w0) as [-> ->].
  - by destruct (IH (ClearDirty k c) w) as [-> ->].
Qed.

Lemma apply_op_within op c : no_resize op -> cache_ok c -> within c ->
  within (apply_op op c) /\ config (apply_op op c) = config c.
Proof.
  intros Hno Hok Hw. unfold within in *. destruct op as [k|p|k|k|k| |n|f order]; cbn [apply_op]; try done.
  - destruct (Get_frame k c) as (-> & -> & _). done.
  - by apply Put_within.
  - unfold Remove. case_match; cbn [pages config]; (split; [|done]);
      pose proof (map_subseteq_size _ _ (delete_subseteq (pages c) k)); lia.
  - cbn. split; [|done]. rewrite map_size_empty. lia.
  - destruct (Flush_frame (fun p w => if f p then Some w else None) order c tt) as [-> ->]. done.
Qed.

(** C11: whatever operations a cache goes through, its page table, its element
    table and its list hold the same pages, one element each; and where it was
    not resized it holds at most MaxPages pages. *)
Theorem cache_invariant cfg ops :
  cache_ok (run_ops ops (NewPageCache cfg)) /\
  (Forall no_resize ops ->
   Z.of_nat (size (pages (run_ops ops (NewPageCache cfg)))) <= Z.max 0 (MaxPages cfg)).
Proof.
  split; [apply run_ops_ok, new_ok|]. intros Hops.
  assert (Hgen : forall c, cache_ok c -> within c ->
    within (run_ops ops c) /\ config (run_ops ops c) = config c).
  { induction Hops as [|op ops Hop Hops IH]; intros c Hok Hw; [done|].
    destruct (apply_op_within op c Hop Hok Hw) as [Hw' Hc'].
    destruct (IH (apply_op op c)) as [? Hc]; [by apply apply_op_ok|done|].
    split; [done|]. change (run_ops (op :: ops) c) with (run_ops ops (apply_op op c)). congruence. }
  destruct (Hgen (NewPageCache cfg) (new_ok cfg)) as [Hw Hc].
  { unfold within. cbn. rewrite map_size_empty. lia. }
  unfold within in Hw. by rewrite Hc in Hw.
Qed.

(** A hit returns the cached page and makes it the most
    recently used; a miss changes nothing but the miss counter. *)
Theorem Get_spec k c : cache_ok c ->
  (Get k c).2 = pages c !! k /\ pages (Get k c).1 = pages c /\ dirty (Get k c).1 = dirty c /\
  match pages c !! k with
  | Some _ => exists l1 l2, ekey <$> lruList c = l1 ++ k :: l2 /\
                ekey <$> lruList (Get k c).1 = k :: l1 ++ l2 /\ hits (Get k c).1 = hits c + 1
  | None => lruList (Get k c).1 = lruList c /\ misses (Get k c).1 = misses c + 1
  end.
Proof.
  intros Hok. destruct (Get_frame k c) as (Hp & _ & Hd). rewrite Hp, Hd.
  split; [unfold Get; by destruct (pages c !! k)|]. split; [done|]. split; [done|].
  unfold Get. destruct (pages c !! k) as [p|] eqn:Hk; [|done]. cbn [fst].
  destruct (ok_element c k Hok ltac:(eauto)) as (l1 & x & l2 & Hl & <- & Hm).
  exists (ekey <$> l1), (ekey <$> l2).
  rewrite (touchPage_split _ l1 x l2); [|by destruct Hok|done|done].
  cbn [lruList set_lru hits]. rewrite Hl, fmap_app, !fmap_cons, fmap_app. done.
Qed.

(** A successful [Put] of a new page evicts only clean pages,
    the least recently used first, until there is room, and puts the page
    in front; it fails only at a dirty page or when nothing can be
    cached, and then the page is not added. *)
Theorem Put_spec p c : cache_ok c -> pages c !! page_id p = None ->
  exists kept ev, lruList c = kept ++ ev /\
    Forall (fun x => is_dirty (dirty c) (ekey x) = false) ev /\
    dirty (Put p c).1 = dirty c /\
    match (Put p c).2 with
    | None => ekey <$> lruList (Put p c).1 = page_id p :: (ekey <$> kept) /\
              Z.of_nat (size (pages (Put p c).1)) <= Z.max 1 (MaxPages (config c)) /\
              forall k, pages (Put p c).1 !! k =
                if decide (k = page_id p) then Some p
                else if decide (k ∈ ekey <$> ev) then None else pages c !! k
    | Some e => pages (Put p c).1 !! page_id p = None /\
                match e with
                | NoPages => MaxPages (config c) <= 0
                | DirtyPage k => exists l x, kept = l ++ [x] /\ ekey x = k /\ is_dirty (dirty c) k = true
                end
    end.
Proof.
  intros Hok Hp. unfold Put. rewrite Hp.
  destruct (evict_while _ _ c) as [c' r] eqn:He.
  destruct (evict_while_spec _ _ _ _ _ (Nat.lt_succ_diag_r _) Hok He) as (kept & ev & Hl & Hevd & Hr).
  pose proof Hevd as (Hev & Hpg & Hd & Hc & Hok').
  assert (Hp' : pages c' !! page_id p = None) by (rewrite Hpg, Hp; by destruct (decide _)).
  exists kept, ev. split; [done|]. split; [done|].
  destruct r as [[|k]|]; cbn [fst snd dirty].
  - split; [done|]. split; [done|]. destruct Hr as [-> Hl'].
    pose proof (evict_while_nopages _ _ _ _ He) as Hle. cbn beta in Hle.
    rewrite (ok_size _ Hok'), Hl' in Hle. by apply Z.leb_le in Hle.
  - split; [done|]. split; [done|]. destruct Hr as (l & x & ? & ? & ? & _). eauto 6.
  - split; [done|]. destruct Hr as [Hl' Hcond]. apply Z.leb_gt in Hcond.
    cbn [lruList pages config]. rewrite fmap_cons, Hl'. split; [done|].
    split; [rewrite map_size_insert_None by done; lia|].
    intros k. destruct (decide (k = page_id p)) as [->|Hne]; [by rewrite lookup_insert_eq|].
    by rewrite lookup_insert_ne, Hpg.
Qed.
End Cache.

(** ** Examples: pages that are their own identifiers *)

Definition small_cache : PageCache Z :=
  run_ops id [OPut 1; OPut 2; OGet 1] (NewPageCache (mkConfig 2 true 100)).

Theorem cache_invariant_witness :
  cache_ok (run_ops id [OPut 1; OPut 2; OGet 1; OPut 3] (NewPageCache (mkConfig 2 true 100))) /\
  Z.of_nat (size (pages (run_ops id [OPut 1; OPut 2; OGet 1; OPut 3] (NewPageCache (mkConfig 2 true 100)))))
    <= Z.max 0 2.
Proof.
  destruct (cache_invariant id (mkConfig 2 true 100) [OPut 1; OPut 2; OGet 1; OPut 3]) as [H1 H2].
  split; [exact H1 | apply H2; repeat constructor].
Defined.

Lemma small_cache_ok : cache_ok small_cache.
Proof. apply run_ops_ok, new_ok. Qed.

Theorem Get_spec_witness :
  (Get 2 small_cache).2 = Some 2 /\ ekey <$> lruList (Get 2 small_cache).1 = [2; 1].
Proof.
  destruct (Get_spec 2 small_cache small_cache_ok) as (H & _).
  split; [exact H | reflexivity].
Defined.

Theorem Put_spec_witness :
  exists kept ev, lruList small_cache = kept ++ ev /\
    Forall (fun x => is_dirty (dirty small_cache) (ekey x) = false) ev /\
    ekey <$> lruList (Put id 3 small_cache).1 = [3; 1].
Proof.
  destruct (Put_spec id 3 small_cache small_cache_ok eq_refl) as (kept & ev & H1 & H2 & _).
  exists kept, ev. split; [exact H1 | split; [exact H2 | reflexivity]].
Defined.
