(* ===== verification/TableFile.v ===== *)
(** * Table files (src/storage/tablefile.go)

    A table's file is a sequence of 16 KB blocks: block 0 is the header,
    the others are pages. Pages are read through the cache and written
    through to the file. The file is the list of its blocks; input/output
    errors other than reading past the end are not modelled. The lock of
    the table file is modelled where it matters: a read that misses the
    cache takes the read lock, which waits for ever when the same call
    already holds the write lock ([Hang]).

    A page pointer obtained from the cache is modelled by its value: every
    operation that modifies a page writes it back, to the file and to the
    cache, before it returns. *)

From S2P Require Import Prelude GoLib Types RowCodec Page PageCache.
Local Open Scope Z_scope.

Definition TableFileMagic : bytes := str "XXLDTBL" ++ [Byte.x00].
Definition TableFileVersion : Z := 1.

Record TableFileHeader := mkTFH {
  Magic : bytes;
  hVersion : Z;
  TableID : Z;
  hPageSize : Z;
  PageCount : Z;                       (* uint32 *)
  RootPage : Z;
  FirstDataPage : Z;
  LastDataPage : Z;
  FreePageList : Z;
  RowCount : Z;                        (* uint64 *)
  ColumnDefs : option (list ColumnDef) (* None: a nil slice *)
}.

(** The table file, with what it shares with its storage: the row
    identifier counter and the page cache. *)
Record TableFile := mkTF {
  header : TableFileHeader;
  file : list bytes;
  cache : option (PageCache PageV2);
  hdirty : bool;
  nextID : Z
}.

Inductive TFError :=
  | ReadFailed (pageID : Z)
  | BadMagic (m : bytes)
  | BadColumnDefs
  | RowTooLarge (n : Z)
  | RowNotFound (rowID : Z)
  | OnPage (e : PageError)
  | FileExists.

Abbreviation TF := (SO TableFile TFError).

Definition set_header (h : TableFileHeader) (t : TableFile) : TableFile :=
  mkTF h (file t) (cache t) (hdirty t) (nextID t).
Definition set_file (f : list bytes) (t : TableFile) : TableFile :=
  mkTF (header t) f (cache t) (hdirty t) (nextID t).
Definition set_cache (c : option (PageCache PageV2)) (t : TableFile) : TableFile :=
  mkTF (header t) (file t) c (hdirty t) (nextID t).
Definition set_hdirty (b : bool) (t : TableFile) : TableFile :=
  mkTF (header t) (file t) (cache t) b (nextID t).
Definition set_nextID (n : Z) (t : TableFile) : TableFile :=
  mkTF (header t) (file t) (cache t) (hdirty t) n.

Definition h_pagecount (n : Z) (h : TableFileHeader) : TableFileHeader :=
  mkTFH (Magic h) (hVersion h) (TableID h) (hPageSize h) n (RootPage h) (FirstDataPage h)
    (LastDataPage h) (FreePageList h) (RowCount h) (ColumnDefs h).
Definition h_first (n : Z) (h : TableFileHeader) : TableFileHeader :=
  mkTFH (Magic h) (hVersion h) (TableID h) (hPageSize h) (PageCount h) (RootPage h) n
    (LastDataPage h) (FreePageList h) (RowCount h) (ColumnDefs h).
Definition h_last (n : Z) (h : TableFileHeader) : TableFileHeader :=
  mkTFH (Magic h) (hVersion h) (TableID h) (hPageSize h) (PageCount h) (RootPage h) (FirstDataPage h)
    n (FreePageList h) (RowCount h) (ColumnDefs h).
Definition h_free (n : Z) (h : TableFileHeader) : TableFileHeader :=
  mkTFH (Magic h) (hVersion h) (TableID h) (hPageSize h) (PageCount h) (RootPage h) (FirstDataPage h)
    (LastDataPage h) n (RowCount h) (ColumnDefs h).
Definition h_rows (n : Z) (h : TableFileHeader) : TableFileHeader :=
  mkTFH (Magic h) (hVersion h) (TableID h) (hPageSize h) (PageCount h) (RootPage h) (FirstDataPage h)
    (LastDataPage h) (FreePageList h) n (ColumnDefs h).

(** Assign header fields and set the dirty flag. *)
Definition change_header (f : TableFileHeader -> TableFileHeader) : TF unit :=
  modify (fun t => set_hdirty true (set_header (f (header t)) t)).

Definition page_key (p : PageV2) : Z := PageID (Header p).

(** ** The file *)

Definition zero_block : bytes := replicate (Z.to_nat PageSize16KB) Byte.x00.

(** [int64(pageID) * PageSize16KB] *)
Definition page_offset (pageID : Z) : Z := i64 (i64 pageID * PageSize16KB).

Definition read_block (f : list bytes) (offset : Z) : option bytes :=
  if offset <? 0 then None else f !! Z.to_nat (offset / PageSize16KB).

(** WriteAt; writing past the end leaves a hole of zeros. *)
Definition write_block (offset : Z) (b : bytes) (f : list bytes) : list bytes :=
  let i := Z.to_nat (offset / PageSize16KB) in
  if (i <? length f)%nat then <[i:=b]> f else f ++ replicate (i - length f) zero_block ++ [b].

(** ** The header block *)

(** encoding/json on the column definitions *)
Class ColumnJSON := {
  marshal_columns : list ColumnDef -> bytes;
  unmarshal_columns : bytes -> option (list ColumnDef)
}.

Section Header.
Context `{ColumnJSON}.

Definition header_fields (h : TableFileHeader) : bytes :=
  take 8 (Magic h) ++ put_le 2 (hVersion h) ++ put_le 8 (TableID h) ++ put_le 2 (hPageSize h)
  ++ put_le 4 (PageCount h) ++ put_le 8 (RootPage h) ++ put_le 8 (FirstDataPage h)
  ++ put_le 8 (LastDataPage h) ++ put_le 8 (FreePageList h) ++ put_le 8 (RowCount h).

Definition header_block (h : TableFileHeader) : bytes :=
  let headerData := copy_at 0 (header_fields h) zero_block in
  match ColumnDefs h with
  | None => headerData
  | Some cols =>
    let colDefsData := marshal_columns cols in
    copy_at 66 colDefsData (copy_at 64 (put_le 2 (u16 (zlen colDefsData))) headerData)
  end.

Definition writeHeader : TF unit :=
  h ← gets header;
  modify (fun t => set_file (write_block 0 (header_block h) (file t)) t);;
  modify (set_hdirty false).

Definition readHeader : TF unit :=
  f ← gets file;
  match read_block f 0 with
  | None => fail (ReadFailed 0)
  | Some d =>
    let magic := slice 0 8 d in
    if negb (bytes_eqb magic TableFileMagic) then fail (BadMagic magic)
    else
      let field lo hi := get_le (slice lo hi d) in
      old ← gets header;
      let set cols := modify (set_header
        (mkTFH magic (field 8 10)%nat (field 10 18)%nat (field 18 20)%nat (field 20 24)%nat
           (field 24 32)%nat (field 32 40)%nat (field 40 48)%nat (field 48 56)%nat (field 56 64)%nat
           cols)) in
      let colDefsLen := field 64%nat 66%nat in
      if 0 <? colDefsLen then
        let hi := u16 (66 + colDefsLen) in
        if (hi <? 66) || (PageSize16KB <? hi) then set (ColumnDefs old);; lift Panic
        else match unmarshal_columns (slice 66 (Z.to_nat hi) d) with
             | None => set (ColumnDefs old);; fail BadColumnDefs
             | Some cols => set (Some cols)
             end
      else set (ColumnDefs old)
  end.
End Header.

Definition empty_header : TableFileHeader := mkTFH (replicate 8 Byte.x00) 0 0 0 0 0 0 0 0 0 None.

(** CreateTableFile, from the existing file of that name, if any. *)
Definition CreateTableFile `{ColumnJSON} (existing : option (list bytes)) (tableID : Z)
  (columns : option (list ColumnDef)) (c : option (PageCache PageV2)) (next : Z)
  : outcome TFError TableFile :=
  match existing with
  | Some _ => Err FileExists
  | None =>
    let h := mkTFH TableFileMagic TableFileVersion tableID PageSize16KB 1 0 0 0 0 0 columns in
    match writeHeader (mkTF h [] c true next) with
    | (Ok _, t) => Ok t
    | (Err e, _) => Err e
    | (Panic, _) => Panic
    | (Hang, _) => Hang
    end
  end.

(** OpenTableFile on the blocks of an existing file. *)
Definition OpenTableFile `{ColumnJSON} (blocks : list bytes) (c : option (PageCache PageV2)) (next : Z)
  : outcome TFError TableFile :=
  match readHeader (mkTF empty_header blocks c false next) with
  | (Ok _, t) => Ok t
  | (Err e, _) => Err e
  | (Panic, _) => Panic
  | (Hang, _) => Hang
  end.

(** ** Pages *)

Definition on_cache (f : PageCache PageV2 -> PageCache PageV2) : TF unit :=
  modify (fun t => set_cache (f <$> cache t) t).

(** A cache lookup, which counts and reorders. *)
Definition cache_get (pageID : Z) : TF (option PageV2) := fun t =>
  match cache t with
  | None => (Ok None, t)
  | Some c => let '(c', r) := Get pageID c in (Ok r, set_cache (Some c') t)
  end.

(** The error of [Put] is dropped by every caller. *)
Definition cache_put (p : PageV2) : TF unit := on_cache (fun c => (Put page_key p c).1).

Definition readPageNoLock (pageID : Z) : TF PageV2 :=
  cached ← cache_get pageID;
  match cached with
  | Some page => mret page
  | None =>
    f ← gets file;
    match read_block f (page_offset pageID) with
    | None => fail (ReadFailed pageID)
    | Some pageData =>
      match FromBytes pageData with
      | Ok page => cache_put page;; mret page
      | Err e => fail (OnPage e)
      | _ => lift Panic
      end
    end
  end.

(** How the caller holds the table's lock. *)
Inductive Held := NotHeld | ReadHeld | WriteHeld.

Definition readPage (held : Held) (pageID : Z) : TF PageV2 :=
  cached ← cache_get pageID;
  match cached with
  | Some page => mret page
  | None => match held with
            | WriteHeld => lift Hang          (* tf.mu.RLock under tf.mu.Lock *)
            | _ => readPageNoLock pageID
            end
  end.

(** The page as it is after the write: its checksum is updated. *)
Definition writePageToFileNoLock (page : PageV2) : TF PageV2 :=
  let page := UpdateChecksum page in
  modify (fun t => set_file (write_block (page_offset (page_key page)) (ToBytes page) (file t)) t);;
  mret page.

Definition writePage (page : PageV2) : TF unit :=
  page ← writePageToFileNoLock page;
  cache_put page;;
  on_cache (ClearDirty (page_key page)).

Definition writePageToFileWithCache (page : PageV2) : TF PageV2 :=
  page ← writePageToFileNoLock page;
  cache_put page;;
  mret page.

Definition allocatePageNoLock (pageType : Z) : TF (PageV2 * Z) :=
  h ← gets header;
  if 0 <? FreePageList h then
    let freePageID := FreePageList h in
    page ← readPageNoLock freePageID;
    change_header (h_free (RightPage (Header page)));;
    mret (mkPage (new_header freePageID pageType) (Content page), freePageID)
  else
    let pageID := PageCount h in
    let page := NewPageV2 pageID pageType in
    change_header (fun h => h_pagecount (u32 (PageCount h + 1)) h);;
    page ← writePageToFileWithCache page;
    mret (page, pageID).

(** [tf.mu.Lock] and the same. *)
Definition allocatePage (held : Held) (pageType : Z) : TF (PageV2 * Z) :=
  match held with
  | NotHeld => allocatePageNoLock pageType
  | _ => lift Hang
  end.

Definition on_page {A} (m : outcome PageError A) : TF A :=
  match m with
  | Ok a => mret a
  | Err e => fail (OnPage e)
  | Panic => lift Panic
  | Hang => lift Hang
  end.

(** ** Rows *)

Definition defs_of (h : TableFileHeader) : list ColumnDef := default [] (ColumnDefs h).

Section Rows.
Context `{GoRuntime}.

(** The page a new row goes to: the last one if it has room, otherwise a
    new page linked after it. *)
Definition insert_target (rowSize : Z) : TF PageV2 :=
  h ← gets header;
  target ← (if 0 <? LastDataPage h then
              page ← readPageNoLock (LastDataPage h);
              mret (if CanInsert page rowSize then Some page else None)
            else mret None);
  match target with
  | Some page => mret page
  | None =>
    '(page, pageID) ← allocatePageNoLock PageTypeData;
    h ← gets header;
    when (FirstDataPage h =? 0) (modify (fun t => set_header (h_first pageID (header t)) t));;
    when (0 <? LastDataPage h)
      (r ← try (readPageNoLock (LastDataPage h));
       match r with
       | inl lastPage => writePage (set_right pageID lastPage)
       | inr _ => mret tt
       end);;
    change_header (h_last pageID);;
    mret page
  end.

Definition InsertRow (row : list Value) : TF Z :=
  rowID ← gets nextID;
  modify (set_nextID (u64 (rowID + 1)));;
  let rowSize := zlen (EncodeRow rowID row) in
  if MaxPageContentV2 - 100 <? rowSize then fail (RowTooLarge rowSize)
  else
    targetPage ← insert_target rowSize;
    '(targetPage, _) ← on_page (InsertRowToPage targetPage rowID row);
    writePage targetPage;;
    change_header (fun h => h_rows (u64 (RowCount h + 1)) h);;
    mret rowID.

(** The cell of a page whose decoded row has the identifier: cells that do
    not read or decode are skipped. *)
Fixpoint find_row (skipDeleted : bool) (page : PageV2) (defs : list ColumnDef) (rowID : Z)
  (count : nat) (i : Z) : outcome PageError (option Z) :=
  match count with
  | O => Ok None
  | S count' =>
    let next := find_row skipDeleted page defs rowID count' (i + 1) in
    cellOffset ← (if skipDeleted then GetCellPointer page i else Ok 1);
    if cellOffset =? 0 then next
    else match GetCellData page i with
         | Ok cellData =>
           match DecodeRow cellData defs with
           | Ok (decodedRowID, _) => if decodedRowID =? rowID then Ok (Some i) else next
           | Err _ => next
           | Panic => Panic
           | Hang => Hang
           end
         | Err _ => next
         | Panic => Panic
         | Hang => Hang
         end
  end.

(** The number of cells of a page, the bound of the loops over them. *)
Definition cell_loop (page : PageV2) : nat := Z.to_nat (CellCount (Header page)).

(** [for pageID := first; pageID > 0; pageID = page.RightPage]: look for
    the row page by page and act on the cell found. A chain longer than
    [fuel] (a cycle) is a loop that does not end. *)
Fixpoint on_row {A} (fuel : nat) (held : Held) (skipDeleted : bool) (rowID pageID : Z)
  (found : Z -> PageV2 -> Z -> TF A) : TF A :=
  match fuel with
  | O => lift Hang
  | S n =>
    if 0 <? pageID then
      page ← readPage held pageID;
      h ← gets header;
      r ← on_page (find_row skipDeleted page (defs_of h) rowID (cell_loop page) 0);
      match r with
      | Some i => found pageID page i
      | None => on_row n held skipDeleted rowID (RightPage (Header page)) found
      end
    else fail (RowNotFound rowID)
  end.

Definition GetRow (fuel : nat) (rowID : Z) : TF (list Value) :=
  h ← gets header;
  on_row fuel ReadHeld false rowID (FirstDataPage h) (fun pageID page i =>
    '(_, row) ← on_page (GetRowFromPage page i (defs_of h));
    mret row).

Definition DeleteRow (fuel : nat) (rowID : Z) : TF unit :=
  h ← gets header;
  on_row fuel WriteHeld true rowID (FirstDataPage h) (fun pageID page i =>
    page ← on_page (DeleteRowFromPage page i);
    writePage page;;
    change_header (fun h => h_rows (u64 (RowCount h - 1)) h)).

Definition UpdateRow (fuel : nat) (rowID : Z) (row : list Value) : TF unit :=
  h ← gets header;
  on_row fuel WriteHeld true rowID (FirstDataPage h) (fun pageID page i =>
    let newRowSize := zlen (EncodeRow rowID row) in
    page ← on_page (DeleteRowFromPage page i);
    page ← (if CanInsert page newRowSize then
              '(page, _) ← on_page (InsertRowToPage page rowID row); mret page
            else
              h ← gets header;
              target ← (if (0 <? LastDataPage h) && negb (LastDataPage h =? pageID) then
                          r ← try (readPage WriteHeld (LastDataPage h));
                          mret (match r with
                                | inl lastPage => if CanInsert lastPage newRowSize then Some lastPage else None
                                | inr _ => None
                                end)
                        else mret None);
              '(page, targetPage) ← (match target with
                | Some p => mret (page, p)
                | None =>
                  '(newPage, newPageID) ← allocatePage WriteHeld PageTypeData;
                  change_header (h_last newPageID);;
                  mret (set_right newPageID page, newPage)
                end);
              '(targetPage, _) ← on_page (InsertRowToPage targetPage rowID row);
              writePage targetPage;;
              mret page);
    writePage page).

(** ** Scanning *)

Record RowIterator := mkIter {
  it_pageID : Z;
  it_cellIdx : Z;
  it_page : option PageV2;
  it_err : option TFError;
  it_started : bool
}.

Definition ScanRows : TF RowIterator :=
  h ← gets header; mret (mkIter (FirstDataPage h) 0 None None false).

(** The first cell at or after [cellIdx] with a pointer. *)
Fixpoint skip_deleted (page : PageV2) (count : nat) (cellIdx : Z) : outcome PageError (option Z) :=
  match count with
  | O => Ok None
  | S n => if cellIdx <? CellCount (Header page) then
             p ← GetCellPointer page cellIdx;
             if 0 <? p then Ok (Some cellIdx) else skip_deleted page n (cellIdx + 1)
           else Ok None
  end.

(** Reading a page in the iterator, whose error stays in it. *)
Definition iter_read (pageID : Z) : TF (PageV2 + TFError) := try (readPage NotHeld pageID).

(** The [for] loop of [Next], one page per turn. *)
Fixpoint next_loop (fuel : nat) (pageID cellIdx : Z) (page : option PageV2) (started : bool)
  : TF (bool * RowIterator) :=
  match fuel with
  | O => lift Hang
  | S n =>
    match page with
    | None => mret (false, mkIter pageID cellIdx None None started)
    | Some pg =>
      let cellIdx := if started then cellIdx + 1 else cellIdx in
      r ← on_page (skip_deleted pg (S (cell_loop pg)) cellIdx);
      match r with
      | Some i => mret (true, mkIter pageID i page None true)
      | None =>
        let pageID := RightPage (Header pg) in
        if pageID =? 0 then mret (false, mkIter pageID cellIdx None None true)
        else
          r ← iter_read pageID;
          match r with
          | inr e => mret (false, mkIter pageID cellIdx None (Some e) true)
          | inl pg' => next_loop n pageID 0 (Some pg') false
          end
      end
    end
  end.

Definition Next (fuel : nat) (it : RowIterator) : TF (bool * RowIterator) :=
  match it_err it with
  | Some _ => mret (false, it)
  | None =>
    match it_page it with
    | None =>
      if 0 <? it_pageID it then
        r ← iter_read (it_pageID it);
        match r with
        | inr e => mret (false, mkIter (it_pageID it) (it_cellIdx it) None (Some e) (it_started it))
        | inl pg => next_loop fuel (it_pageID it) 0 (Some pg) (it_started it)
        end
      else next_loop fuel (it_pageID it) (it_cellIdx it) None (it_started it)
    | Some pg => next_loop fuel (it_pageID it) (it_cellIdx it) (Some pg) (it_started it)
    end
  end.

Definition iter_row (it : RowIterator) : TF (Z * list Value) :=
  match it_err it, it_page it with
  | Some e, _ => fail e
  | None, None => mret (0, [])
  | None, Some pg => h ← gets header; on_page (GetRowFromPage pg (it_cellIdx it) (defs_of h))
  end.

(** [for iter.Next() { ... }]; [rows] bounds the turns. *)
Fixpoint collect (rows fuel : nat) (it : RowIterator) : TF (list (Z * list Value)) :=
  match rows with
  | O => lift Hang
  | S n =>
    '(more, it) ← Next fuel it;
    if more : bool then
      r ← iter_row it;
      rs ← collect n fuel it;
      mret (r :: rs)
    else match it_err it with
         | Some e => fail e
         | None => mret []
         end
  end.

Definition GetAllRowsWithIDs (rows fuel : nat) : TF (list (Z * list Value)) :=
  it ← ScanRows; collect rows fuel it.

Definition GetAllRows (rows fuel : nat) : TF (list (list Value)) :=
  it ← ScanRows; rs ← collect rows fuel it; mret rs.*2.
End Rows.

(** ** Whole-file operations *)

Definition Clear : TF unit :=
  change_header (fun h => h_free 0 (h_rows 0 (h_last 0 (h_first 0 h))));;
  on_cache PageCache.Clear;;
  modify (fun t => set_file (take 1 (file t)) t);;
  modify (fun t => set_header (h_pagecount 1 (header t)) t).

(** Flush and Close write the dirty pages in the order of Go's map
    iteration, then the header if it changed. *)
Fixpoint flush_pages (order : list Z) : TF unit :=
  match order with
  | [] => mret tt
  | pageID :: rest =>
    c ← gets cache;
    match c with
    | None => mret tt
    | Some c =>
      when (IsDirty pageID c)
        (match pages c !! pageID with
         | None => on_cache (ClearDirty pageID)
         | Some page => _ ← writePageToFileNoLock page; on_cache (ClearDirty pageID)
         end);;
      flush_pages rest
    end
  end.

Definition Flush `{ColumnJSON} (order : list Z) : TF unit :=
  flush_pages order;;
  d ← gets hdirty;
  when d writeHeader.

Definition Close `{ColumnJSON} (order : list Z) : TF unit := Flush order.

(** ** Reading the header back *)

Section HeaderRoundTrip.
Context `{ColumnJSON}.

Definition tfheader_ok (h : TableFileHeader) : Prop :=
  Magic h = TableFileMagic /\ in_u16 (hVersion h) /\ in_u64 (TableID h) /\ in_u16 (hPageSize h) /\
  in_u32 (PageCount h) /\ in_u64 (RootPage h) /\ in_u64 (FirstDataPage h) /\
  in_u64 (LastDataPage h) /\ in_u64 (FreePageList h) /\ in_u64 (RowCount h).

Lemma length_header_fields h : Magic h = TableFileMagic -> length (header_fields h) = 64%nat.
Proof. intros Hm. unfold header_fields. by rewrite Hm, !length_app, !length_put_le. Qed.

Lemma length_zero_block : length zero_block = Z.to_nat 16384.
Proof. apply length_replicate. Qed.

(** The column definitions start with their length, after the fields. *)
Lemma header_block_parts h : tfheader_ok h ->
  (forall cols, ColumnDefs h = Some cols -> zlen (marshal_columns cols) <= 16384 - 66) ->
  length (header_block h) = Z.to_nat 16384 /\
  slice 0 64 (header_block h) = header_fields h /\
  match ColumnDefs h with
  | None => slice 64 66 (header_block h) = put_le 2 0
  | Some cols => slice 64 66 (header_block h) = put_le 2 (u16 (zlen (marshal_columns cols))) /\
      slice 66 (66 + length (marshal_columns cols)) (header_block h) = marshal_columns cols
  end.
Proof.
  intros (Hm & _) Hfit. pose proof (length_header_fields h Hm) as Hl. pose proof length_zero_block as Hz.
  set (b0 := copy_at 0 (header_fields h) zero_block).
  assert (Hl0 : length b0 = Z.to_nat 16384) by (unfold b0; rewrite length_copy_at; lia).
  assert (H0 : slice 0 64 b0 = header_fields h).
  { unfold b0. apply slice_copy_at; lia. }
  assert (H1 : slice 64 66 b0 = put_le 2 0).
  { unfold b0. rewrite slice_copy_at_after by lia. reflexivity. }
  unfold header_block. fold b0. destruct (ColumnDefs h) as [cols|]; [|done].
  specialize (Hfit cols eq_refl). unfold zlen in *.
  set (b1 := copy_at 64 _ b0). pose proof (length_put_le 2 (u16 (Z.of_nat (length (marshal_columns cols))))) as Hp.
  assert (Hl1 : length b1 = Z.to_nat 16384) by (unfold b1; rewrite length_copy_at; lia).
  split; [rewrite length_copy_at; lia|]. split; [|split].
  - rewrite slice_copy_at_before by lia. unfold b1. by rewrite slice_copy_at_before by lia.
  - rewrite slice_copy_at_before by lia. unfold b1.
    apply slice_copy_at; lia.
  - apply slice_copy_at_same. lia.
Qed.

Lemma header_field lo hi h : tfheader_ok h ->
  (forall cols, ColumnDefs h = Some cols -> zlen (marshal_columns cols) <= 16384 - 66) ->
  (hi <= 64)%nat -> slice lo hi (header_block h) = slice lo hi (header_fields h).
Proof.
  intros Hh Hfit Hhi. destruct (header_block_parts h Hh Hfit) as (_ & E & _).
  by rewrite <- E, slice_prefix.
Qed.

Lemma header_fields_read h : tfheader_ok h ->
  (forall cols, ColumnDefs h = Some cols -> zlen (marshal_columns cols) <= 16384 - 66) ->
  slice 0 8 (header_block h) = TableFileMagic /\
  (let f lo hi := get_le (slice lo hi (header_block h)) in
   f 8 10 = hVersion h /\ f 10 18 = TableID h /\ f 18 20 = hPageSize h /\
   f 20 24 = PageCount h /\ f 24 32 = RootPage h /\ f 32 40 = FirstDataPage h /\
   f 40 48 = LastDataPage h /\ f 48 56 = FreePageList h /\ f 56 64 = RowCount h)%nat.
Proof.
  intros Hh Hfit. pose proof (fun lo hi => header_field lo hi h Hh Hfit) as Hf.
  destruct Hh as (Hm & ? & ? & ? & ? & ? & ? & ? & ? & ?).
  cbv zeta. rewrite !Hf by lia. unfold header_fields. rewrite Hm.
  change (take 8 TableFileMagic) with TableFileMagic.
  split; [by apply slice_app_exact|].
  rewrite !(slice_app_skip _ _ TableFileMagic) by (cbn; lia).
  change (length TableFileMagic) with 8%nat. cbn [Nat.sub]. split_and!; read_field.
Qed.

(** The header block of a table opens as the same header, when
    its fields are in range, JSON reads back what it wrote and the column
    definitions fit the block. *)
Theorem OpenTableFile_header h rest c next : tfheader_ok h ->
  match ColumnDefs h with
  | None => True
  | Some cols => 0 < zlen (marshal_columns cols) <= 16384 - 66 /\
                 unmarshal_columns (marshal_columns cols) = Some cols
  end ->
  OpenTableFile (header_block h :: rest) c next = Ok (mkTF h (header_block h :: rest) c false next).
Proof.
  intros Hh Hcols.
  assert (Hfit : forall cols, ColumnDefs h = Some cols -> zlen (marshal_columns cols) <= 16384 - 66).
  { intros cols E. rewrite E in Hcols. lia. }
  destruct (header_block_parts h Hh Hfit) as (_ & _ & Htail).
  destruct (header_fields_read h Hh Hfit) as (E0 & E1 & E2 & E3 & E4 & E5 & E6 & E7 & E8 & E9).
  unfold OpenTableFile, readHeader. rewrite bind_gets. cbn [file].
  change (read_block (header_block h :: rest) 0) with (Some (header_block h)). cbn iota.
  rewrite E0, E1, E2, E3, E4, E5, E6, E7, E8, E9.
  change (bytes_eqb TableFileMagic TableFileMagic) with true. cbn [negb].
  rewrite bind_gets. cbn [header ColumnDefs empty_header].
  destruct h as [m v i ps pc rp fd ld fl rc cols]. destruct Hh as (Hm & _). cbn [Magic] in Hm. subst m.
  cbn [Magic hVersion TableID hPageSize PageCount RootPage FirstDataPage LastDataPage
    FreePageList RowCount ColumnDefs] in *.
  destruct cols as [cols|].
  - destruct Hcols as [Hlen Hjson], Htail as [-> Htail].
    rewrite get_put_u16 by apply u16_range. rewrite !u16_small by (unfold in_u16; lia).
    change PageSize16KB with 16384. ztest. cbn [orb].
    replace (Z.to_nat (66 + zlen (marshal_columns cols))) with (66 + length (marshal_columns cols))%nat
      by (unfold zlen; lia).
    rewrite Htail, Hjson. done.
  - rewrite Htail. done.
Qed.
End HeaderRoundTrip.

(** A table without column definitions, for examples. *)
#[export] Instance no_columns : ColumnJSON :=
  {| marshal_columns := fun _ => str "[]"; unmarshal_columns := fun _ => Some [] |}.

Definition sample_header : TableFileHeader :=
  mkTFH TableFileMagic 1 7 16384 3 0 1 2 0 12 (Some []).

Theorem OpenTableFile_header_witness :
  OpenTableFile [header_block sample_header] None 1 =
  Ok (mkTF sample_header [header_block sample_header] None false 1).
Proof.
  apply OpenTableFile_header.
  - split; [reflexivity|]. unfold sample_header, in_u16, in_u32, in_u64. cbn. lia.
  - split; [by vm_compute|reflexivity].
Defined.
