(* ===== verification/TableSpec.v ===== *)
(** * What a table file stores (specification of TableFile)

    The abstract contents of a table are the list of its data pages, each
    the list of its cells, in chain order. [table_repr] relates them to the
    file, the header and the cache; the operations of TableFile are shown to
    implement appending a row and listing the rows. *)

From S2P Require Import Prelude GoLib Types RowCodec Page PageCache TableFile.
Local Open Scope Z_scope.

(** ** Pages on disk *)

(** Block [id] of the file is the page [p], whose identifier is [id]. *)
Definition on_disk (f : list bytes) (id : Z) (p : PageV2) : Prop :=
  page_ok p /\ page_key p = id /\ 0 < id < 2 ^ 32 /\ f !! Z.to_nat id = Some (ToBytes p).

(** Every cached page is the page on disk. *)
Definition coherent (t : TableFile) : Prop :=
  match cache t with
  | None => True
  | Some c => cache_ok c /\ forall id p, pages c !! id = Some p -> on_disk (file t) id p
  end.

Lemma ToBytes_inj p q : page_ok p -> page_ok q -> ToBytes p = ToBytes q -> p = q.
Proof.
  intros Hp Hq E. apply (f_equal FromBytes) in E. rewrite !page_read_back in E by done. congruence.
Qed.

Lemma on_disk_unique f id p q : on_disk f id p -> on_disk f id q -> p = q.
Proof. intros (?&_&_&?) (?&_&_&?). apply ToBytes_inj; congruence. Qed.

Lemma page_offset_small id : 0 <= id < 2 ^ 32 -> page_offset id = id * 16384.
Proof.
  intros. unfold page_offset. change PageSize16KB with 16384.
  rewrite (i64_small id) by (unfold in_i64; lia). apply i64_small. unfold in_i64. lia.
Qed.

Lemma read_block_id f id : 0 <= id < 2 ^ 32 -> read_block f (page_offset id) = f !! Z.to_nat id.
Proof.
  intros. rewrite page_offset_small by done. unfold read_block. ztest.
  change PageSize16KB with 16384. by rewrite Z.div_mul by lia.
Qed.

(** Writing block [id] of a file, in place or just past its end. *)
Lemma write_block_id f id b : 0 <= id < 2 ^ 32 -> (Z.to_nat id <= length f)%nat ->
  write_block (page_offset id) b f =
  if decide (Z.to_nat id < length f)%nat then <[Z.to_nat id := b]> f else f ++ [b].
Proof.
  intros Hid Hlen. rewrite page_offset_small by done. unfold write_block.
  change PageSize16KB with 16384. rewrite Z.div_mul by lia.
  destruct (Nat.ltb_spec (Z.to_nat id) (length f)); case_decide; try lia; [done|].
  replace (Z.to_nat id - length f)%nat with 0%nat by lia. done.
Qed.

Lemma write_block_lookup f id b : 0 <= id < 2 ^ 32 -> (Z.to_nat id <= length f)%nat ->
  write_block (page_offset id) b f !! Z.to_nat id = Some b /\
  (forall j, j <> Z.to_nat id -> write_block (page_offset id) b f !! j = f !! j) /\
  length (write_block (page_offset id) b f) = Nat.max (length f) (S (Z.to_nat id)).
Proof.
  intros Hid Hlen. rewrite write_block_id by done. case_decide.
  - split_and!.
    + by apply list_lookup_insert_eq.
    + intros. by apply list_lookup_insert_ne.
    + rewrite length_insert. lia.
  - assert (Z.to_nat id = length f) as Heq by lia. split_and!.
    + rewrite Heq. apply list_lookup_middle. done.
    + intros j Hj. destruct (decide (j < length f)%nat); [by apply lookup_app_l|].
      rewrite !lookup_ge_None_2; [done|lia|rewrite length_app; simpl; lia].
    + rewrite length_app. simpl. lia.
Qed.

(** ** Reading *)

(** A step that changes nothing but the cache. *)
Definition only_cache (t t' : TableFile) : Prop := exists c, t' = set_cache c t /\ coherent t'.

Lemma only_cache_refl t : coherent t -> only_cache t t.
Proof. intros. exists (cache t). by destruct t. Qed.

Lemma only_cache_trans t1 t2 t3 : only_cache t1 t2 -> only_cache t2 t3 -> only_cache t1 t3.
Proof. intros (c1 & -> & _) (c2 & -> & ?). by exists c2. Qed.

Lemma only_cache_frame t t' : only_cache t t' ->
  header t' = header t /\ file t' = file t /\ nextID t' = nextID t /\ hdirty t' = hdirty t /\ coherent t'.
Proof. by intros (c & -> & ?). Qed.

Lemma cache_get_spec id t : coherent t ->
  exists r t', cache_get id t = (Ok r, t') /\ only_cache t t' /\
    forall p, r = Some p -> on_disk (file t) id p.
Proof.
  intros Hco. unfold cache_get, coherent in *. destruct (cache t) as [c|] eqn:Hc.
  - destruct Hco as [Hok Hpg].
    destruct (Get id c) as [c' r] eqn:Hg. exists r, (set_cache (Some c') t).
    pose proof (Get_ok id c Hok) as Hok'. pose proof (Get_frame id c) as (Hp & _).
    rewrite Hg in Hok', Hp. cbn [fst] in *.
    split; [done|]. split.
    + exists (Some c'). split; [done|]. cbn. split; [done|]. intros k p. rewrite Hp. apply Hpg.
    + intros p ->. apply Hpg. unfold Get in Hg. destruct (pages c !! id); congruence.
  - exists None, t. split; [done|]. split; [|done].
    apply only_cache_refl. unfold coherent. by rewrite Hc.
Qed.

Lemma cache_put_spec p id t : coherent t -> on_disk (file t) id p ->
  exists t', cache_put p t = (Ok tt, t') /\ only_cache t t'.
Proof.
  intros Hco Hd. eexists. split; [reflexivity|]. exists ((fun c => (Put page_key p c).1) <$> cache t).
  split; [done|]. unfold coherent in *. cbn. destruct (cache t) as [c|]; [|done]. cbn.
  destruct Hco as [Hok Hpg]. split; [by apply Put_ok|].
  intros k q [[-> ->]|Hq]%Put_lookup; [|by apply Hpg|done].
  destruct Hd as (? & Hk & ? & ?). by rewrite Hk.
Qed.

Lemma readPageNoLock_spec id p t : coherent t -> on_disk (file t) id p ->
  exists t', readPageNoLock id t = (Ok p, t') /\ only_cache t t'.
Proof.
  intros Hco Hd. destruct (cache_get_spec id t Hco) as (r & t1 & Hg & H1 & Hr).
  unfold readPageNoLock. rewrite (bind_ok _ _ _ _ _ Hg).
  destruct r as [q|].
  - exists t1. split; [|done]. by rewrite (on_disk_unique _ _ _ _ Hd (Hr q eq_refl)).
  - destruct (only_cache_frame _ _ H1) as (_ & Hf & _ & _ & Hco1).
    rewrite bind_gets, Hf. destruct Hd as (Hok & Hk & Hid & Hb).
    rewrite read_block_id, Hb, page_read_back by (done || lia).
    destruct (cache_put_spec p id t1 Hco1) as (t2 & Hp & H2); [by rewrite Hf|].
    rewrite (bind_ok _ _ _ _ _ Hp). exists t2. split; [done|]. by eapply only_cache_trans.
Qed.

Lemma readPage_spec held id p t : held <> WriteHeld -> coherent t -> on_disk (file t) id p ->
  exists t', readPage held id t = (Ok p, t') /\ only_cache t t'.
Proof.
  intros Hh Hco Hd. destruct (cache_get_spec id t Hco) as (r & t1 & Hg & H1 & Hr).
  unfold readPage. rewrite (bind_ok _ _ _ _ _ Hg). destruct r as [q|].
  - exists t1. split; [|done]. by rewrite (on_disk_unique _ _ _ _ Hd (Hr q eq_refl)).
  - destruct (only_cache_frame _ _ H1) as (_ & Hf & _ & _ & Hco1).
    destruct (readPageNoLock_spec id p t1) as (t2 & E & H2); [done|by rewrite Hf|].
    exists t2. split; [by destruct held|]. by eapply only_cache_trans.
Qed.

(** ** Writing *)

Lemma page_ok_checksum p : page_ok p -> page_ok (UpdateChecksum p).
Proof.
  intros [(?&?&?&?&?&?&?&?&?&?) ?]. split; [|done].
  unfold header_ok. cbn. split_and!; try done; apply crc32_range.
Qed.

(** A write of page [id]: the block holds the page with its checksum, the
    rest of the file is unchanged, header and counter too. *)
Definition wrote (id : Z) (p : PageV2) (t t' : TableFile) : Prop :=
  on_disk (file t') id (UpdateChecksum p) /\
  (forall j q, j <> id -> on_disk (file t) j q -> on_disk (file t') j q) /\
  length (file t') = Nat.max (length (file t)) (S (Z.to_nat id)) /\
  header t' = header t /\ nextID t' = nextID t /\ coherent t'.

Section Writing.
Context (id : Z) (p : PageV2) (t : TableFile).
Hypotheses (Hco : coherent t) (Hok : page_ok p) (Hk : page_key p = id)
           (Hid : 0 < id < 2 ^ 32) (Hlen : (Z.to_nat id <= length (file t))%nat).

Let f' := write_block (page_offset id) (ToBytes (UpdateChecksum p)) (file t).

Lemma write_file : writePageToFileNoLock p t = (Ok (UpdateChecksum p), set_file f' t).
Proof using Hk.
  unfold writePageToFileNoLock. rewrite bind_modify. unfold f'.
  by replace (page_key (UpdateChecksum p)) with id.
Qed.

Lemma wrote_disk : on_disk f' id (UpdateChecksum p).
Proof using Hok Hk Hid Hlen.
  destruct (write_block_lookup (file t) id (ToBytes (UpdateChecksum p))) as (H & _ & _); [lia|done|].
  split; [by apply page_ok_checksum|]. by split.
Qed.

Lemma wrote_other j q : j <> id -> on_disk (file t) j q -> on_disk f' j q.
Proof using Hok Hk Hid Hlen.
  intros Hj (? & ? & ? & ?). split; [done|]. split; [done|]. split; [done|].
  destruct (write_block_lookup (file t) id (ToBytes (UpdateChecksum p))) as (_ & Hother & _); [lia|done|].
  unfold f'. by rewrite Hother by lia.
Qed.

(** The cache after the new version of the page was put in it. *)
Lemma wrote_coherent g :
  (forall c, cache_ok c -> cache_ok (g c)) -> (forall c, pages (g c) = pages c) ->
  coherent (set_cache ((fun c => g (Put page_key (UpdateChecksum p) c).1) <$> cache t) (set_file f' t)).
Proof using Hco Hok Hk Hid Hlen.
  intros Hg Hgp. unfold coherent in *. cbn. destruct (cache t) as [c|]; [|done]. cbn.
  destruct Hco as [Hcok Hpg]. split; [by apply Hg, Put_ok|].
  assert (Hcok' : cache_ok (Put page_key (UpdateChecksum p) c).1) by by apply Put_ok.
  intros k q. rewrite Hgp. intros Hq.
  destruct (decide (k = id)) as [->|Hne].
  - (* the entry of this page is the new version *)
    rewrite <- Hk in Hq. change (page_key p) with (page_key (UpdateChecksum p)) in Hq.
    apply Put_self in Hq as ->; [apply wrote_disk|done].
  - apply Put_lookup in Hq as [[-> ->]|Hq]; [by destruct Hne|by apply wrote_other, Hpg|done].
Qed.

Lemma writePage_spec : exists t', writePage p t = (Ok tt, t') /\ wrote id p t t'.
Proof using Hco Hok Hk Hid Hlen.
  unfold writePage. rewrite (bind_ok _ _ _ _ _ write_file).
  eexists. split; [reflexivity|].
  pose proof (wrote_coherent (ClearDirty id)) as Hc.
  replace (ClearDirty (page_key (UpdateChecksum p))) with (ClearDirty (P := PageV2) id) by (by rewrite <- Hk).
  split_and!; try done.
  - apply wrote_disk.
  - apply wrote_other.
  - by destruct (write_block_lookup (file t) id (ToBytes (UpdateChecksum p))) as (_ & _ & ?); [lia|..].
  - cbn.
    specialize (Hc (fun c => set_dirty_ok _ c) (fun _ => eq_refl)).
    destruct (cache t); exact Hc.
Qed.

Lemma writePageToFileWithCache_spec :
  exists t', writePageToFileWithCache p t = (Ok (UpdateChecksum p), t') /\ wrote id p t t'.
Proof using Hco Hok Hk Hid Hlen.
  unfold writePageToFileWithCache. rewrite (bind_ok _ _ _ _ _ write_file).
  eexists. split; [reflexivity|].
  pose proof (wrote_coherent (fun c => c) (fun _ H => H) (fun _ => eq_refl)) as Hc.
  split_and!; try done.
  - apply wrote_disk.
  - apply wrote_other.
  - by destruct (write_block_lookup (file t) id (ToBytes (UpdateChecksum p))) as (_ & _ & ?); [lia|..].
Qed.
End Writing.

(** ** The contents of a table *)

(** The identifier of the [i]-th data page, and what it links to. *)
Definition pid (i : nat) : Z := Z.of_nat i + 1.
Definition right_of (n i : nat) : Z := if decide (S i = n) then 0 else pid (S i).

Record table_repr (t : TableFile) (pgs : list (list Cell)) : Prop := {
  tr_len : length (file t) = S (length pgs);
  tr_count : PageCount (header t) = 1 + zlen pgs;
  tr_bound : zlen pgs < 2 ^ 32 - 1;
  tr_first : FirstDataPage (header t) = match pgs with [] => 0 | _ => 1 end;
  tr_last : LastDataPage (header t) = zlen pgs;
  tr_free : FreePageList (header t) = 0;
  tr_pages : forall i cells, pgs !! i = Some cells ->
    exists p, on_disk (file t) (pid i) p /\ page_repr p cells /\
              RightPage (Header p) = right_of (length pgs) i;
  tr_coherent : coherent t
}.

Lemma table_repr_cache t t' pgs : only_cache t t' -> table_repr t pgs -> table_repr t' pgs.
Proof. intros (c & -> & Hco) [????????]. by constructor. Qed.

Lemma page_repr_checksum p cells : page_repr p cells -> page_repr (UpdateChecksum p) cells.
Proof. intros [????????]. by constructor. Qed.

Lemma page_repr_right p cells z : page_repr p cells -> page_repr (set_right z p) cells.
Proof. intros [????????]. by constructor. Qed.

(** The last page of a list of pages, and the pages before it. *)
Lemma pages_snoc (pgs : list (list Cell)) : pgs <> [] -> exists l cells, pgs = l ++ [cells].
Proof. intros Hne. destruct (exists_last Hne) as (l & cells & ->). eauto. Qed.

Lemma pid_bounds t pgs i cells : table_repr t pgs -> pgs !! i = Some cells ->
  0 < pid i < 2 ^ 32 /\ (Z.to_nat (pid i) < length (file t))%nat /\ Z.to_nat (pid i) = S i.
Proof.
  intros Hr Hi%lookup_lt_Some. pose proof (tr_bound _ _ Hr). pose proof (tr_len _ _ Hr) as ->.
  unfold pid, zlen in *. lia.
Qed.

Section Insert.
Context `{GoRuntime}.

(** The page operations keep the Go representation invariant. *)
Lemma page_ok_insert p cells rowID row p' i :
  page_ok p -> page_repr p cells -> InsertRowToPage p rowID row = Ok (p', i) ->
  page_repr p' (cells ++ [mkCell true (EncodeRow rowID row)]) -> same_identity p p' -> page_ok p'.
Proof.
  intros [(?&?&?&?&?&?&?&?&?&?) Hc] Hp Hi Hp' (Hid & Hty & Hr & Hv & Hres).
  assert (Hfc : Flags (Header p') = Z.lor (Flags (Header p)) PageFlagDirty /\
                Checksum (Header p') = Checksum (Header p)).
  { unfold InsertRowToPage, AddCellPointer, SetCellPointer in Hi.
    repeat case_match; try done. cbn in Hi. injection Hi as <- _. done. }
  destruct Hfc as [Hf Hck]. destruct (repr_bounds _ _ Hp') as (?&?&?&?).
  split; [|apply (repr_len _ _ Hp')].
  unfold header_ok. rewrite Hid, Hty, Hv, Hres, Hr, Hf, Hck, (repr_count _ _ Hp'),
    (repr_free _ _ Hp'), (repr_frag _ _ Hp'), MaxPageContent_value.
  split_and!; try done; try (unfold in_u16; lia).
  unfold in_u8, PageFlagDirty in *. split; [apply Z.lor_nonneg; lia|].
  destruct (Z.eq_dec (Z.lor (Flags (Header p)) 4) 0) as [->|]; [lia|].
  apply Z.log2_lt_pow2; [pose proof (proj2 (Z.lor_nonneg (Flags (Header p)) 4)); lia|].
  rewrite Z.log2_lor by lia. apply Z.max_lub_lt; [|done].
  destruct (Z.eq_dec (Flags (Header p)) 0) as [->|]; [done|]. apply Z.log2_lt_pow2; lia.
Qed.

Lemma page_ok_new id : 0 < id < 2 ^ 32 -> page_ok (NewPageV2 id PageTypeData).
Proof.
  intros. split; [|apply length_replicate].
  unfold header_ok, NewPageV2, new_header. cbn.
  unfold in_u64, in_u8, in_u16, in_u32, PageTypeData, MaxPageContentV2, PageSize16KB,
    PageHeaderSizeV2. lia.
Qed.

(** A row that passes the size limit fits an empty page. *)
Lemma insert_fresh id rowID row : 0 < id < 2 ^ 32 ->
  zlen (EncodeRow rowID row) <= MaxPageContentV2 - 100 ->
  exists p', InsertRowToPage (UpdateChecksum (NewPageV2 id PageTypeData)) rowID row = Ok (p', 0) /\
    page_repr p' [mkCell true (EncodeRow rowID row)] /\ page_ok p' /\ page_key p' = id /\
    RightPage (Header p') = 0.
Proof.
  intros Hid Hn. rewrite MaxPageContent_value in Hn.
  pose proof (page_repr_checksum _ _ (repr_new id PageTypeData)) as Hp.
  pose proof (insert_row_ok _ _ rowID row Hp) as Hs.
  pose proof (zlen_EncodeRow_pos rowID row).
  destruct Hs as (p' & Hi & Hp' & Hsame); [lia|cbn; unfold zlen at 2; cbn; lia|].
  exists p'. split; [done|]. split; [done|]. split.
  - exact (page_ok_insert _ [] rowID row p' _ (page_ok_checksum _ (page_ok_new id Hid)) Hp Hi Hp' Hsame).
  - destruct Hsame as (Hk & _ & Hr & _). by rewrite Hr.
Qed.

(** The room left on the last page. *)
Definition room (cells : list Cell) : Z := 16352 - total cells - 2 * zlen cells - dead_total cells.

(** ** Where a new row goes *)

Lemma tables_coherent t h : coherent t -> coherent (set_hdirty true (set_header h t)).
Proof. done. Qed.

Lemma page_ok_right p z : page_ok p -> in_u64 z -> page_ok (set_right z p).
Proof. intros [(?&?&?&?&?&?&?&?&?&?) ?] ?. by split. Qed.

(** Linking a page before a page just allocated. *)
Definition link (new : Z) (h : TableFileHeader) : TableFileHeader :=
  h_last new (if FirstDataPage h =? 0 then h_first new h else h).

Lemma allocate_new t pgs : table_repr t pgs -> zlen pgs < 2 ^ 32 - 2 ->
  let p := UpdateChecksum (NewPageV2 (zlen pgs + 1) PageTypeData) in
  exists t', allocatePageNoLock PageTypeData t = (Ok (p, zlen pgs + 1), t') /\
    on_disk (file t') (zlen pgs + 1) p /\
    (forall j q, j <> zlen pgs + 1 -> on_disk (file t) j q -> on_disk (file t') j q) /\
    length (file t') = S (length (file t)) /\
    header t' = h_pagecount (zlen pgs + 2) (header t) /\ nextID t' = nextID t /\ coherent t'.
Proof.
  intros Hr Hb p. pose proof (zlen_nonneg pgs). unfold allocatePageNoLock.
  rewrite bind_gets, (tr_free _ _ Hr), (tr_count _ _ Hr). change (0 <? 0) with false. cbn [negb].
  unfold change_header. rewrite bind_modify.
  set (t1 := set_hdirty true _).
  replace (1 + zlen pgs) with (zlen pgs + 1) by lia.
  destruct (writePageToFileWithCache_spec (zlen pgs + 1) (NewPageV2 (zlen pgs + 1) PageTypeData) t1)
    as (t2 & E & Hd & Ho & Hl & Hh & Hn & Hc).
  - exact (tr_coherent _ _ Hr).
  - apply page_ok_new. lia.
  - done.
  - lia.
  - change (file t1) with (file t). rewrite (tr_len _ _ Hr). unfold zlen. lia.
  - rewrite (bind_ok _ _ _ _ _ E). exists t2. split; [reflexivity|].
    split; [exact Hd|]. split; [exact Ho|]. split; [|split; [|split; [exact Hn|exact Hc]]].
    + rewrite Hl. change (file t1) with (file t). rewrite (tr_len _ _ Hr). unfold zlen. lia.
    + rewrite Hh. unfold t1. cbn. unfold h_pagecount. rewrite (tr_count _ _ Hr).
      rewrite u32_small by (unfold in_u32; lia). f_equal. lia.
Qed.

(** The last page of a non-empty table, read from cache or file. *)
Lemma read_last t l cells : table_repr t (l ++ [cells]) ->
  exists p t', readPageNoLock (LastDataPage (header t)) t = (Ok p, t') /\ only_cache t t' /\
    on_disk (file t) (pid (length l)) p /\ page_repr p cells /\ RightPage (Header p) = 0.
Proof.
  intros Hr. destruct (tr_pages _ _ Hr (length l) cells) as (p & Hd & Hp & Hri).
  { by rewrite lookup_app_r, Nat.sub_diag. }
  assert (LastDataPage (header t) = pid (length l)) as ->.
  { rewrite (tr_last _ _ Hr). unfold pid, zlen. rewrite length_app. simpl. lia. }
  destruct (readPageNoLock_spec _ _ _ (tr_coherent _ _ Hr) Hd) as (t' & E & Ho).
  exists p, t'. split; [done|]. split; [done|]. split; [done|]. split; [done|].
  rewrite Hri. unfold right_of. rewrite length_app. simpl. rewrite decide_True; [done|lia].
Qed.

(** A table whose last page was just allocated, linked and made last. *)
Lemma repr_linked t t1 pgs p : table_repr t pgs -> zlen pgs < 2 ^ 32 - 2 ->
  on_disk (file t1) (zlen pgs + 1) p -> page_repr p [] -> RightPage (Header p) = 0 ->
  (forall j q, 0 < j < zlen pgs -> on_disk (file t) j q -> on_disk (file t1) j q) ->
  (forall l cells, pgs = l ++ [cells] -> exists q, on_disk (file t1) (zlen pgs) q /\
     page_repr q cells /\ RightPage (Header q) = zlen pgs + 1) ->
  length (file t1) = S (length (file t)) -> coherent t1 ->
  header t1 = link (zlen pgs + 1) (h_pagecount (zlen pgs + 2) (header t)) ->
  table_repr t1 (pgs ++ [[]]).
Proof.
  intros Hr Hb Hd Hp Hri Ho Hlast Hl Hc Hh. pose proof (zlen_nonneg pgs).
  constructor; try done.
  - rewrite Hl, (tr_len _ _ Hr), length_app. simpl. lia.
  - rewrite Hh. simpl_len. unfold link. case_match; cbn; lia.
  - simpl_len. lia.
  - rewrite Hh. unfold link. cbn. rewrite (tr_first _ _ Hr).
    destruct pgs; [done|]. cbn. by rewrite (tr_first _ _ Hr).
  - rewrite Hh. simpl_len. unfold link. case_match; cbn; lia.
  - rewrite Hh. unfold link. case_match; cbn; apply (tr_free _ _ Hr).
  - intros i cells Hi. unfold right_of. rewrite length_app. cbn [length].
    apply lookup_app_Some in Hi as [Hi|[Hge Hi]].
    + pose proof (lookup_lt_Some _ _ _ Hi). rewrite decide_False by lia.
      destruct (decide (S i = length pgs)) as [Hlst|Hn].
      * destruct (pages_snoc pgs) as (l & c & ->); [by intros ->|].
        rewrite length_app in Hlst. simpl in Hlst.
        rewrite lookup_app_r, list_lookup_singleton in Hi by lia.
        replace (i - length l)%nat with 0%nat in Hi by lia. injection Hi as ->.
        destruct (Hlast l cells eq_refl) as (q & ? & ? & Hq). exists q.
        unfold pid. unfold zlen in *. rewrite length_app in *. cbn [length] in *.
        replace (Z.of_nat i + 1) with (Z.of_nat (length l + 1)) by lia.
        split; [done|]. split; [done|]. rewrite Hq. lia.
      * destruct (tr_pages _ _ Hr i cells Hi) as (q & ? & ? & Hq). exists q.
        split; [apply Ho; [unfold pid, zlen; lia|done]|]. split; [done|].
        rewrite Hq. unfold right_of. by rewrite decide_False.
    + apply list_lookup_singleton_Some in Hi as [Hi <-].
      assert (i = length pgs) as -> by lia. exists p. rewrite decide_True by lia.
      split; [exact Hd|]. by split.
Qed.

(** The part of [insert_target] that allocates, factored out. *)
Definition extend : TF PageV2 :=
  '(page, pageID) ← allocatePageNoLock PageTypeData;
  h ← gets header;
  when (FirstDataPage h =? 0) (modify (fun t => set_header (h_first pageID (header t)) t));;
  when (0 <? LastDataPage h)
    (r ← try (readPageNoLock (LastDataPage h));
     match r with
     | inl lastPage => writePage (set_right pageID lastPage)
     | inr _ => mret tt
     end);;
  change_header (h_last pageID);;
  mret page.

(** What [extend] and [insert_target] leave unchanged. *)
Definition keeps (t t' : TableFile) : Prop :=
  nextID t' = nextID t /\ RowCount (header t') = RowCount (header t) /\
  ColumnDefs (header t') = ColumnDefs (header t) /\ TableID (header t') = TableID (header t).

Definition extended (pgs : list (list Cell)) (t : TableFile) : Prop :=
  let p := UpdateChecksum (NewPageV2 (zlen pgs + 1) PageTypeData) in
  exists t', extend t = (Ok p, t') /\ table_repr t' (pgs ++ [[]]) /\
    on_disk (file t') (zlen pgs + 1) p /\ keeps t t'.

Lemma extend_empty t : table_repr t [] -> extended [] t.
Proof.
  intros Hr. destruct (allocate_new t [] Hr ltac:(done)) as (t1 & E & Hd & Ho & Hl & Hh & Hn & Hc).
  change (zlen [] + 1) with 1 in *. change (zlen [] + 2) with 2 in *.
  unfold extended, extend. rewrite (bind_ok _ _ _ _ _ E). rewrite bind_gets, Hh. cbn [FirstDataPage
    LastDataPage h_pagecount]. rewrite (tr_first _ _ Hr), (tr_last _ _ Hr).
  change (0 =? 0) with true. change (0 <? zlen []) with false. cbn [when].
  rewrite bind_modify.
  eexists. split; [reflexivity|]. split; [|split].
  - eapply (repr_linked t _ [] _ Hr);
      [done|exact Hd|apply page_repr_checksum, repr_new|reflexivity| | |exact Hl|exact Hc|].
    + intros j q Hj. change (zlen []) with 0 in Hj. lia.
    + intros l cells Hl'. by destruct l.
    + cbn. rewrite Hh. unfold link. cbn. by rewrite (tr_first _ _ Hr).
  - exact Hd.
  - unfold keeps. cbn. by rewrite Hh, Hn.
Qed.

Lemma extend_linked t l cells : table_repr t (l ++ [cells]) -> zlen (l ++ [cells]) < 2 ^ 32 - 2 ->
  extended (l ++ [cells]) t.
Proof.
  intros Hr Hb. set (pgs := l ++ [cells]) in *.
  assert (Hlen : zlen pgs = pid (length l)).
  { unfold pgs, pid, zlen. rewrite length_app. simpl. lia. }
  assert (Hpos : 0 < zlen pgs) by (rewrite Hlen; unfold pid; lia).
  destruct (allocate_new t pgs Hr Hb) as (t1 & E1 & Hd & Ho & Hl & Hh & Hn & Hc).
  destruct (tr_pages _ _ Hr (length l) cells) as (q & Hq & Hqr & Hqright).
  { unfold pgs. by rewrite lookup_app_r, Nat.sub_diag. }
  rewrite <- Hlen in Hq.
  destruct (readPageNoLock_spec (zlen pgs) q t1 Hc) as (t2 & E2 & H2); [apply Ho; [lia|done]|].
  destruct (only_cache_frame _ _ H2) as (Hh2 & Hf2 & Hn2 & _ & Hc2).
  set (q' := set_right (zlen pgs + 1) q).
  destruct (writePage_spec (zlen pgs) q' t2 Hc2) as (t3 & E3 & Hd3 & Ho3 & Hl3 & Hh3 & Hn3 & Hc3).
  { apply page_ok_right; [apply Hq|unfold in_u64; lia]. }
  { apply Hq. }
  { lia. }
  { rewrite Hf2, Hl, (tr_len _ _ Hr). unfold zlen. lia. }
  set (t4 := set_hdirty true (set_header (h_last (zlen pgs + 1) (header t3)) t3)).
  assert (E : extend t = (Ok (UpdateChecksum (NewPageV2 (zlen pgs + 1) PageTypeData)), t4)).
  { unfold extend. rewrite (bind_ok _ _ _ _ _ E1), bind_gets, Hh. cbn [FirstDataPage
      LastDataPage h_pagecount]. rewrite (tr_first _ _ Hr), (tr_last _ _ Hr).
    replace (match pgs with [] => 0 | _ => 1 end =? 0) with false by (unfold pgs; by destruct l).
    ztest. cbn [when]. rewrite (bind_ok _ _ _ tt t1) by reflexivity.
    rewrite (bind_ok _ _ _ tt t3); [reflexivity|].
    rewrite (bind_ok _ _ t1 (inl q) t2); [exact E3|]. unfold try. by rewrite E2. }
  exists t4. split; [exact E|].
  assert (Hfile : forall j p, j <> zlen pgs -> on_disk (file t1) j p -> on_disk (file t4) j p).
  { intros j p Hj Hp. apply Ho3; [done|]. by rewrite Hf2. }
  split; [|split].
  - eapply (repr_linked t t4 pgs _ Hr Hb); [apply Hfile, Hd; lia|apply page_repr_checksum, repr_new|
      reflexivity| | | |exact Hc3|].
    + intros j p Hj Hp. apply Hfile; [lia|]. apply Ho; [lia|done].
    + intros l' c' Heq. apply app_inj_tail in Heq as [<- <-].
      exists (UpdateChecksum q'). split; [exact Hd3|].
      split; [apply page_repr_checksum, page_repr_right, Hqr|reflexivity].
    + change (file t4) with (file t3). rewrite Hl3, Hf2, Hl, (tr_len _ _ Hr). unfold zlen. lia.
    + change (header t4) with (h_last (zlen pgs + 1) (header t3)). rewrite Hh3, Hh2, Hh.
      unfold link. cbn [FirstDataPage h_pagecount]. rewrite (tr_first _ _ Hr).
      unfold pgs. by destruct l.
  - apply Hfile, Hd. lia.
  - unfold keeps. change (header t4) with (h_last (zlen pgs + 1) (header t3)).
    change (nextID t4) with (nextID t3). rewrite Hh3, Hh2, Hh, Hn3, Hn2, Hn. done.
Qed.

Lemma extend_ok t pgs : table_repr t pgs -> zlen pgs < 2 ^ 32 - 2 -> extended pgs t.
Proof.
  intros Hr Hb. destruct (decide (pgs = [])) as [->|Hne]; [by apply extend_empty|].
  destruct (pages_snoc pgs Hne) as (l & cells & ->). by apply extend_linked.
Qed.

(** ** Inserting a row *)

(** Rewriting one page of a table. *)
Lemma repr_update t t' pgs i cells cells' p :
  table_repr t pgs -> pgs !! i = Some cells -> wrote (pid i) p t t' ->
  page_repr p cells' -> RightPage (Header p) = right_of (length pgs) i ->
  table_repr t' (<[i:=cells']> pgs).
Proof.
  intros Hr Hi (Hd & Ho & Hl & Hh & Hn & Hc) Hp Hri.
  pose proof (lookup_lt_Some _ _ _ Hi). pose proof (pid_bounds _ _ _ _ Hr Hi) as (? & ? & ?).
  assert (Hz : zlen (<[i:=cells']> pgs) = zlen pgs) by (unfold zlen; by rewrite length_insert).
  constructor; rewrite ?Hh, ?Hz, ?length_insert; try apply Hr; try done.
  - rewrite Hl, (tr_len _ _ Hr). lia.
  - rewrite (tr_first _ _ Hr). destruct pgs; [done|]. by destruct i.
  - intros j c Hj. destruct (decide (j = i)) as [->|Hne].
    + rewrite list_lookup_insert_eq in Hj by done. injection Hj as <-.
      exists (UpdateChecksum p). split; [done|]. split; [by apply page_repr_checksum|done].
    + rewrite list_lookup_insert_ne in Hj by done.
      destruct (tr_pages _ _ Hr j c Hj) as (q & Hq & Hqr & Hqri). exists q.
      split; [apply Ho; [unfold pid; lia|done]|]. by split.
Qed.

(** The table chosen for a row of [n] bytes: the last page if it has room,
    otherwise one more page. *)
Definition target (pgs : list (list Cell)) (n : Z) : list (list Cell) :=
  match last pgs with
  | Some cells => if n + 2 <=? room cells then pgs else pgs ++ [[]]
  | None => pgs ++ [[]]
  end.

Definition targeted (pgs : list (list Cell)) (n : Z) (t : TableFile) : Prop :=
  exists p t' l cells, insert_target n t = (Ok p, t') /\ target pgs n = l ++ [cells] /\
    table_repr t' (l ++ [cells]) /\ on_disk (file t') (pid (length l)) p /\ page_repr p cells /\
    RightPage (Header p) = 0 /\ n + 2 <= room cells /\ keeps t t'.

Lemma targeted_extend t t' pgs n : only_cache t t' -> n + 2 <= 16352 -> table_repr t pgs ->
  zlen pgs < 2 ^ 32 - 2 -> insert_target n t = extend t' -> target pgs n = pgs ++ [[]] ->
  targeted pgs n t.
Proof.
  intros Hoc Hn Hr Hb E Ht. destruct (extend_ok t' pgs) as (t'' & Ee & Hr' & Hd & Hk);
    [by eapply table_repr_cache|done|].
  exists (UpdateChecksum (NewPageV2 (zlen pgs + 1) PageTypeData)), t'', pgs, [].
  rewrite E, Ee. split; [done|]. split; [done|]. split; [done|]. split; [done|].
  split; [apply page_repr_checksum, repr_new|]. split; [done|]. split; [done|].
  destruct (only_cache_frame _ _ Hoc) as (Hh & _ & Hnx & _). unfold keeps in *.
  by rewrite Hh, Hnx in Hk.
Qed.

Lemma insert_target_ok t pgs n : table_repr t pgs -> 0 <= n <= 16252 -> zlen pgs < 2 ^ 32 - 2 ->
  targeted pgs n t.
Proof.
  intros Hr Hn Hb. destruct (decide (pgs = [])) as [->|Hne].
  { eapply (targeted_extend t t); [apply only_cache_refl, Hr|lia|exact Hr|exact Hb| |done].
    unfold insert_target. rewrite bind_gets, (tr_last _ _ Hr). done. }
  destruct (pages_snoc pgs Hne) as (l & cells & ->).
  destruct (read_last t l cells Hr) as (p & t1 & E & Ho & Hd & Hp & Hri).
  assert (Hc : CanInsert p n = (n + 2 <=? room cells)) by (apply CanInsert_repr; [done|lia]).
  assert (Eq : insert_target n t = (if n + 2 <=? room cells then (Ok p, t1) else extend t1)).
  { unfold insert_target. rewrite bind_gets.
    assert (0 < LastDataPage (header t)).
    { rewrite (tr_last _ _ Hr). unfold zlen. rewrite length_app. simpl. lia. }
    ztest. rewrite (bind_ok _ _ t (if n + 2 <=? room cells then Some p else None) t1).
    - by destruct (n + 2 <=? room cells).
    - rewrite (bind_ok _ _ _ _ _ E), Hc. done. }
  assert (Et : target (l ++ [cells]) n =
               if n + 2 <=? room cells then l ++ [cells] else (l ++ [cells]) ++ [[]]).
  { unfold target. by rewrite last_snoc. }
  destruct (Z.leb_spec (n + 2) (room cells)) as [Hfit|Hfull].
  - exists p, t1, l, cells. rewrite Eq. destruct (only_cache_frame _ _ Ho) as (Hh & Hf & Hnx & _).
    split; [done|]. split; [done|]. split; [by eapply table_repr_cache|]. rewrite Hf.
    split; [done|]. split; [done|]. split; [done|]. split; [done|]. unfold keeps. by rewrite Hh, Hnx.
  - eapply (targeted_extend t t1); [done|lia|done..].
Qed.

(** Adding a cell to the page chosen for it. *)
Definition add_cell (pgs : list (list Cell)) (c : Cell) : list (list Cell) :=
  let pgs := target pgs (zlen (cdata c)) in
  match last pgs with
  | Some cells => <[pred (length pgs) := cells ++ [c]]> pgs
  | None => pgs
  end.

Lemma add_cell_concat pgs c : concat (add_cell pgs c) = concat pgs ++ [c].
Proof.
  assert (Hs : forall l cells, <[pred (length (l ++ [cells])) := cells ++ [c]]> (l ++ [cells]) =
                               l ++ [cells ++ [c]]).
  { intros. rewrite length_app. cbn [length]. replace (pred (length l + 1)) with (length l + 0)%nat by lia.
    by rewrite insert_app_r. }
  unfold add_cell, target. destruct (last pgs) as [cells|] eqn:Hl.
  - apply last_Some in Hl as [l ->].
    destruct (_ <=? _); rewrite last_snoc, Hs, !concat_app; cbn; rewrite ?app_nil_r, <- ?app_assoc; done.
  - apply last_None in Hl as ->. done.
Qed.

(** The row identifier and contents after an insertion. *)
Lemma table_insert_ok t pgs row :
  let rowID := nextID t in
  let cell := mkCell true (EncodeRow rowID row) in
  table_repr t pgs -> zlen pgs < 2 ^ 32 - 2 -> in_u64 rowID ->
  zlen (EncodeRow rowID row) <= MaxPageContentV2 - 100 ->
  exists t', InsertRow row t = (Ok rowID, t') /\ table_repr t' (add_cell pgs cell) /\
    nextID t' = u64 (rowID + 1) /\ RowCount (header t') = u64 (RowCount (header t) + 1) /\
    ColumnDefs (header t') = ColumnDefs (header t) /\ TableID (header t') = TableID (header t).
Proof.
  intros rowID cell Hr Hb Hid Hn. rewrite MaxPageContent_value in Hn.
  pose proof (zlen_nonneg (EncodeRow rowID row)) as Hpos.
  set (t0 := set_nextID (u64 (rowID + 1)) t).
  assert (Hr0 : table_repr t0 pgs) by (destruct Hr; by constructor).
  destruct (insert_target_ok t0 pgs (zlen (EncodeRow rowID row)) Hr0)
    as (p & t1 & l & cells & E1 & Et & Hr1 & Hd & Hp & Hri & Hroom & Hkeep); [lia|exact Hb|].
  destruct (insert_row_ok p cells rowID row Hp) as (p' & Ep & Hp' & Hsame); [lia| |].
  { unfold room in Hroom. lia. }
  destruct (pid_bounds t1 (l ++ [cells]) (length l) cells Hr1) as (Hid1 & Hlt & _).
  { by rewrite lookup_app_r, Nat.sub_diag. }
  destruct (writePage_spec (pid (length l)) p' t1) as (t2 & E2 & Hw).
  - exact (tr_coherent _ _ Hr1).
  - exact (page_ok_insert p cells rowID row p' _ (proj1 Hd) Hp Ep Hp' Hsame).
  - destruct Hsame as (Hk & _). unfold page_key. rewrite Hk. apply Hd.
  - exact Hid1.
  - lia.
  - eexists. split.
    + unfold InsertRow. rewrite bind_gets, bind_modify. fold t0. fold rowID.
      replace (MaxPageContentV2 - 100 <? zlen (EncodeRow rowID row)) with false
        by (rewrite MaxPageContent_value; symmetry; apply Z.ltb_ge; lia).
      rewrite (bind_ok _ _ _ _ _ E1), Ep. cbn [on_page].
      rewrite (bind_ok _ _ t1 (p', zlen cells) t1) by reflexivity.
      rewrite (bind_ok _ _ _ _ _ E2). unfold change_header. rewrite bind_modify. reflexivity.
    + pose proof Hw as (Hd' & Ho' & Hl' & Hh' & Hn' & Hc'). destruct Hkeep as (Hk1 & Hk2 & Hk3 & Hk4).
      split.
      * assert (Ha : add_cell pgs cell = <[length l := cells ++ [cell]]> (l ++ [cells])).
        { unfold add_cell. cbn [cdata cell]. rewrite Et, last_snoc, length_app. cbn [length].
          f_equal. lia. }
        rewrite Ha.
        assert (Hr2 : table_repr t2 (<[length l := cells ++ [cell]]> (l ++ [cells]))).
        { eapply (repr_update t1 t2 _ _ _ _ p' Hr1); [|exact Hw|exact Hp'|].
          - by rewrite lookup_app_r, Nat.sub_diag.
          - destruct Hsame as (_ & _ & Hri' & _). rewrite Hri', Hri. unfold right_of.
            rewrite length_app. cbn [length]. rewrite decide_True; [done|lia]. }
        destruct Hr2. by constructor.
      * cbn. rewrite Hh', Hn', Hk1, Hk2, Hk3, Hk4. done.
Qed.
End Insert.

(** ** Listing the rows *)

Section Scan.
Context `{GoRuntime}.
Context (defs : list ColumnDef).

Definition tf_of {A} (m : outcome PageError A) : outcome TFError A :=
  match m with Ok a => Ok a | Err e => Err (OnPage e) | Panic => Panic | Hang => Hang end.

Lemma on_page_run {A} (m : outcome PageError A) t : on_page m t = (tf_of m, t).
Proof. by destruct m. Qed.

(** The row of a live cell. *)
Definition row_of (c : Cell) : outcome TFError (Z * list Value) :=
  match DecodeRow (cdata c) defs with
  | Ok r => Ok r
  | Err e => Err (OnPage (BadRow e))
  | Panic => Panic
  | Hang => Hang
  end.

(** What reading the live cells of a page gives: a cell whose predecessor
    was deleted cannot be read. [prev]: is the previous cell live? *)
Fixpoint results (prev : bool) (cells : list Cell) : list (outcome TFError (Z * list Value)) :=
  match cells with
  | [] => []
  | c :: rest =>
    if live c then (if prev then row_of c else Err (OnPage (InvalidPrevOffset 0))) :: results true rest
    else results false rest
  end.

Definition all_results (pgs : list (list Cell)) := concat (map (results true) pgs).

(** The first result that is not a row ends the listing. *)
Fixpoint all_ok {A} (l : list (outcome TFError A)) : outcome TFError (list A) :=
  match l with
  | [] => Ok []
  | r :: rest => a ← r; rs ← all_ok rest; Ok (a :: rs)
  end.

(** The results from cell [k] of page [i]. *)
Definition rest_from (pgs : list (list Cell)) (i k : nat) :=
  let cells := default [] (pgs !! i) in
  results (prev_live cells k) (drop k cells) ++ all_results (drop (S i) pgs).

(** The first live cell at or after [k]. *)
Fixpoint first_live (k : nat) (cells : list Cell) : option nat :=
  match cells with
  | [] => None
  | c :: rest => if live c then Some k else first_live (S k) rest
  end.

Lemma skip_deleted_repr p cells n k : page_repr p cells -> (length cells < k + n)%nat ->
  skip_deleted p n (Z.of_nat k) = Ok (Z.of_nat <$> first_live k (drop k cells)).
Proof.
  intros Hp. revert k. induction n as [|n IH]; intros k Hn.
  - by rewrite drop_ge by lia.
  - cbn [skip_deleted]. rewrite (repr_count _ _ Hp). unfold zlen.
    destruct (Z.ltb_spec (Z.of_nat k) (Z.of_nat (length cells))) as [Hlt|Hge].
    + destruct (lookup_lt_is_Some_2 cells k) as [c Hc]; [lia|].
      rewrite (GetCellPointer_repr _ _ _ _ Hp Hc). cbn [mbind outcome_bind].
      rewrite (drop_S _ _ _ Hc). cbn [first_live].
      destruct (cell_off_bounds _ _ _ _ Hp Hc) as (?&?&?&?). pose proof (repr_bounds _ _ Hp).
      assert (0 < cell_off cells k) by (apply lookup_lt_Some in Hc; unfold zlen in *; lia).
      destruct (live c); [by ztest|]. change (0 <? 0) with false. cbn iota.
      replace (Z.of_nat k + 1) with (Z.of_nat (S k)) by lia. apply IH. lia.
    + by rewrite drop_ge by lia.
Qed.

Lemma first_live_results cells k : 
  match first_live k (drop k cells) with
  | None => results (prev_live cells k) (drop k cells) = []
  | Some j => exists c, cells !! j = Some c /\ live c = true /\
      results (prev_live cells k) (drop k cells) =
      (if prev_live cells j then row_of c else Err (OnPage (InvalidPrevOffset 0)))
        :: results (prev_live cells (S j)) (drop (S j) cells)
  end.
Proof.
  remember (length cells - k)%nat as n eqn:Hn. revert k Hn.
  induction n as [|n IH]; intros k Hn.
  - by rewrite drop_ge by lia.
  - destruct (lookup_lt_is_Some_2 cells k) as [c Hc]; [lia|].
    rewrite (drop_S _ _ _ Hc). cbn [first_live results].
    assert (Hpl : prev_live cells (S k) = live c) by (cbn; by rewrite Hc).
    destruct (live c) eqn:Hl.
    + exists c. by rewrite Hpl.
    + specialize (IH (S k) ltac:(lia)). by rewrite Hpl in IH.
Qed.

Section Loop.
Context (t0 : TableFile) (pgs : list (list Cell)) (Hr : table_repr t0 pgs).

(** The iterator stands on page [i]. *)
Record at_cell (i : nat) (p : PageV2) (cells : list Cell) : Prop := {
  at_lookup : pgs !! i = Some cells;
  at_disk : on_disk (file t0) (pid i) p;
  at_repr : page_repr p cells;
  at_right : RightPage (Header p) = right_of (length pgs) i
}.

(** The outcome of a turn of [Next] before cell [k] of page [i]. *)
Definition turn (i k : nat) (res : outcome TFError (bool * RowIterator)) : Prop :=
  match rest_from pgs i k with
  | [] => exists it, res = Ok (false, it) /\ it_err it = None
  | r :: rs => exists i' k' p cells,
      res = Ok (true, mkIter (pid i') (Z.of_nat k') (Some p) None true) /\
      at_cell i' p cells /\ tf_of (GetRowFromPage p (Z.of_nat k') defs) = r /\
      rs = rest_from pgs i' (S k')
  end.

Lemma at_page i cells : pgs !! i = Some cells -> exists p, at_cell i p cells.
Proof using Hr.
  intros Hi. destruct (tr_pages _ _ Hr i cells Hi) as (p & ? & ? & ?). by exists p.
Qed.

Lemma rest_next i k cells : pgs !! i = Some cells ->
  results (prev_live cells k) (drop k cells) = [] ->
  rest_from pgs i k =
  match pgs !! S i with None => [] | Some _ => rest_from pgs (S i) 0 end.
Proof.
  intros Hi He. unfold rest_from at 1. rewrite Hi. cbn [default]. cbn. rewrite He. cbn [app].
  destruct (pgs !! S i) as [c|] eqn:Hn.
  - rewrite (drop_S _ _ _ Hn). unfold rest_from. rewrite Hn. done.
  - apply lookup_ge_None in Hn. by rewrite drop_ge.
Qed.

Lemma next_loop_ok fuel : forall i k p cells started idx t,
  at_cell i p cells -> only_cache t0 t -> (length pgs < i + fuel)%nat ->
  (if started : bool then idx + 1 else idx) = Z.of_nat k ->
  exists res t', next_loop fuel (pid i) idx (Some p) started t = (res, t') /\
    only_cache t0 t' /\ turn i k res.
Proof using Hr.
  induction fuel as [|fuel IH]; intros i k p cells started idx t Hat Ho Hf Hk.
  { pose proof (lookup_lt_Some _ _ _ (at_lookup _ _ _ Hat)). lia. }
  destruct Hat as [Hi Hd Hp Hri]. cbn [next_loop]. rewrite Hk.
  rewrite (bind_ok _ _ t (Z.of_nat <$> first_live k (drop k cells)) t).
  2:{ rewrite on_page_run, (skip_deleted_repr _ cells); [done|exact Hp|].
      unfold cell_loop. rewrite (repr_count _ _ Hp). unfold zlen. lia. }
  pose proof (first_live_results cells k) as Hl.
  destruct (first_live k (drop k cells)) as [j|]; cbn [fmap option_fmap option_map].
  - destruct Hl as (c & Hc & Hlive & Hres). eexists _, t. split; [reflexivity|]. split; [done|].
    unfold turn. assert (rest_from pgs i k =
      (if prev_live cells j then row_of c else Err (OnPage (InvalidPrevOffset 0)))
        :: rest_from pgs i (S j)) as ->.
    { unfold rest_from. rewrite Hi. cbn. by rewrite Hres. }
    exists i, j, p, cells. split; [done|]. split; [by constructor|]. split; [|done].
    rewrite (get_row_ok _ _ _ _ Hp), Hc, Hlive. cbn [negb].
    destruct (prev_live cells j); [|done]. unfold row_of. by destruct (DecodeRow _ _).
  - pose proof (rest_next i k cells Hi Hl) as Hrest. rewrite Hri. unfold right_of.
    destruct (pgs !! S i) as [cells'|] eqn:Hn.
    + pose proof (lookup_lt_Some _ _ _ Hn). rewrite decide_False by lia.
      assert (0 < pid (S i)) by (unfold pid; lia). ztest.
      destruct (at_page _ _ Hn) as (p' & Hat'). pose proof (at_disk _ _ _ Hat') as Hd'.
      destruct (only_cache_frame _ _ Ho) as (_ & Hfi & _ & _ & Hc).
      destruct (readPage_spec NotHeld (pid (S i)) p' t) as (t1 & E & Ho1);
        [done|done|by rewrite Hfi|].
      rewrite (bind_ok _ _ t (inl p') t1); [|unfold iter_read, try; by rewrite E].
      destruct (IH (S i) 0%nat p' cells' false 0 t1 Hat') as (res & t' & E' & Ho' & Ht);
        [by eapply only_cache_trans|lia|done|].
      exists res, t'. split; [exact E'|]. split; [done|]. unfold turn in *. by rewrite Hrest.
    + apply lookup_ge_None in Hn. pose proof (lookup_lt_Some _ _ _ Hi).
      rewrite decide_True by lia. change (0 =? 0) with true. cbn iota.
      eexists _, t. split; [reflexivity|]. split; [done|]. unfold turn. rewrite Hrest.
      eexists. by split.
Qed.

Context (Hdefs : defs_of (header t0) = defs) (fuel : nat) (Hfuel : (length pgs < fuel)%nat).

(** The loop after a turn of [Next]. *)
Lemma collect_turn n : forall it i k t res t',
  Next fuel it t = (res, t') -> only_cache t0 t' -> turn i k res ->
  (length (rest_from pgs i k) < n)%nat ->
  exists t'', collect n fuel it t = (all_ok (rest_from pgs i k), t'') /\ only_cache t0 t''.
Proof using Hr Hdefs Hfuel.
  induction n as [|n IH]; intros it i k t res t' E Ho Ht Hn; [lia|].
  unfold turn in Ht. cbn [collect]. destruct (rest_from pgs i k) as [|r rs].
  - destruct Ht as (it' & -> & He). rewrite (bind_ok _ _ _ _ _ E), He.
    by exists t'.
  - destruct Ht as (i' & k' & p & cells & -> & Hat & Hrow & ->).
    rewrite (bind_ok _ _ _ _ _ E). unfold iter_row. cbn [it_err it_page it_cellIdx].
    destruct (only_cache_frame _ _ Ho) as (Hh & _).
    set (it' := mkIter _ _ _ _ _).
    assert (Hg : (h ← gets header; on_page (GetRowFromPage p (Z.of_nat k') (defs_of h)))
                   t' = (r, t')).
    { rewrite bind_gets, Hh, Hdefs, on_page_run, Hrow. done. }
    destruct r as [a|e| |].
    2: rewrite (bind_err _ _ _ _ _ Hg); by exists t'.
    2: rewrite (bind_panic _ _ _ _ Hg); by exists t'.
    2: rewrite (bind_hang _ _ _ _ Hg); by exists t'.
    rewrite (bind_ok _ _ _ _ _ Hg).
    destruct (next_loop_ok fuel i' (S k') p cells true (Z.of_nat k') t' Hat Ho)
      as (res2 & t2 & E2 & Ho2 & Ht2); [lia|lia|].
    destruct (IH it' i' (S k') t' res2 t2) as (t3 & E3 & Ho3); [exact E2|done|done|cbn in Hn; lia|].
    exists t3. split; [|done]. cbn [all_ok mbind outcome_bind].
    unfold mbind, SO_bind. rewrite E3. by destruct (all_ok _).
Qed.

Lemma scan_ok n : (length (all_results pgs) < n)%nat ->
  exists t', GetAllRowsWithIDs n fuel t0 = (all_ok (all_results pgs), t') /\ only_cache t0 t'.
Proof using Hr Hdefs Hfuel.
  intros Hn. unfold GetAllRowsWithIDs.
  rewrite (bind_ok _ _ t0 (mkIter (FirstDataPage (header t0)) 0 None None false) t0) by reflexivity.
  pose proof (only_cache_refl _ (tr_coherent _ _ Hr)) as Hrefl.
  pose proof (tr_first _ _ Hr) as Hfirst.
  destruct (pgs !! 0%nat) as [cells|] eqn:H0.
  - assert (Hall : all_results pgs = rest_from pgs 0 0).
    { unfold rest_from. rewrite H0. destruct pgs; [done|]. injection H0 as ->. done. }
    assert (Hf1 : FirstDataPage (header t0) = 1) by (rewrite Hfirst; by destruct pgs).
    rewrite Hall in *.
    destruct (at_page _ _ H0) as (p & Hat).
    destruct (readPage_spec NotHeld (pid 0) p t0) as (t1 & E & Ho);
      [done|apply Hr|apply Hat|].
    destruct (next_loop_ok fuel 0 0 p cells false 0 t1 Hat Ho) as (res & t2 & E2 & Ho2 & Ht);
      [lia|done|].
    apply (collect_turn n _ _ _ _ res t2); [|done|done|done].
    unfold Next. cbn [it_err it_page it_pageID it_started]. rewrite Hf1.
    change (0 <? 1) with true. cbn iota. change 1 with (pid 0).
    rewrite (bind_ok _ _ t0 (inl p) t1); [exact E2|]. unfold iter_read, try. by rewrite E.
  - destruct pgs; [|done]. exists t0. split; [|done]. destruct n; [cbn in Hn; lia|].
    cbn [collect]. destruct fuel; [cbn in Hfuel; lia|]. unfold Next. cbn [it_err it_page it_pageID].
    rewrite Hfirst. done.
Qed.
End Loop.
End Scan.

(** ** The table as a list of rows *)

Section Contract.
Context `{GoRuntime}.

(** The table holds these rows, none of them deleted. *)
Definition table_holds (t : TableFile) (rows : list (Z * list Value)) : Prop :=
  exists pgs, table_repr t pgs /\
    Forall2 (fun c r => live c = true /\ row_of (defs_of (header t)) c = Ok r) (concat pgs) rows.

Lemma results_live defs cells rows :
  Forall2 (fun c r => live c = true /\ row_of defs c = Ok r) cells rows ->
  results defs true cells = map Ok rows.
Proof. induction 1 as [|c r cells rows [Hl Hr] _ IH]; [done|]. cbn. by rewrite Hl, Hr, IH. Qed.

Lemma all_results_live defs pgs rows :
  Forall2 (fun c r => live c = true /\ row_of defs c = Ok r) (concat pgs) rows ->
  all_results defs pgs = map Ok rows.
Proof.
  revert rows. induction pgs as [|cells pgs IH]; intros rows Hf.
  - by inversion Hf.
  - cbn in Hf. apply Forall2_app_inv_l in Hf as (r1 & r2 & H1 & H2 & ->).
    unfold all_results in *. cbn. rewrite map_app, (results_live _ _ _ H1). f_equal. by apply IH.
Qed.

Lemma all_ok_map (rows : list (Z * list Value)) : all_ok (map Ok rows) = Ok rows.
Proof. induction rows as [|r rows IH]; [done|]. cbn [map all_ok mbind outcome_bind]. by rewrite IH. Qed.

(** A row the format holds is read back in its stored form. *)
Lemma row_of_encoded defs rowID row : in_u64 rowID -> zlen row < 2 ^ 16 ->
  forallb codec_ok row = true ->
  row_of defs (mkCell true (EncodeRow rowID row)) = Ok (rowID, map stored row).
Proof.
  intros. unfold row_of. cbn [cdata].
  pose proof (decode_row_ok rowID row [] defs) as E. rewrite app_nil_r in E. by rewrite E.
Qed.

Lemma clear_ok t pgs : table_repr t pgs ->
  exists t', Clear t = (Ok tt, t') /\ table_repr t' [] /\ nextID t' = nextID t /\
    RowCount (header t') = 0 /\ ColumnDefs (header t') = ColumnDefs (header t).
Proof.
  intros Hr. unfold Clear, change_header, on_cache.
  rewrite bind_modify. rewrite bind_modify. rewrite bind_modify. eexists. split; [reflexivity|].
  split; [|done]. constructor; try done.
  - cbn. rewrite length_take, (tr_len _ _ Hr). lia.
  - pose proof (tr_coherent _ _ Hr) as Hc. unfold coherent in *. cbn.
    destruct (cache t) as [c|]; [|done]. cbn. split; [apply empty_ok|].
    intros id p. by rewrite lookup_empty.
Qed.

(** What a row must satisfy to be stored and read back. *)
Definition row_ok (row : list Value) : Prop :=
  forallb codec_ok row = true /\ zlen row < 2 ^ 16 /\
  forall rowID, zlen (EncodeRow rowID row) <= MaxPageContentV2 - 100.

Lemma zlen_EncodeRow rowID row :
  zlen (EncodeRow rowID row) = 10 + zlen (concat (map encodeColumn row)).
Proof. unfold EncodeRow. simpl_len. lia. Qed.

(** ** Histories of a table *)

Inductive TableOp := OpInsert (row : list Value) | OpScan | OpClear.
Inductive TableRes := RInserted (rowID : Z) | RRows (rows : list (Z * list Value)) | RCleared.

(** The operation on a table file, with [n] bounding its loops. *)
Definition run_op (n : nat) (op : TableOp) : TF TableRes :=
  match op with
  | OpInsert row => rowID ← InsertRow row; mret (RInserted rowID)
  | OpScan => rows ← GetAllRowsWithIDs n n; mret (RRows rows)
  | OpClear => Clear;; mret RCleared
  end.

(** The same on a list of rows and the next identifier. *)
Definition model_op (op : TableOp) (s : list (Z * list Value) * Z)
  : TableRes * (list (Z * list Value) * Z) :=
  let '(rows, next) := s in
  match op with
  | OpInsert row => (RInserted next, (rows ++ [(next, map stored row)], u64 (next + 1)))
  | OpScan => (RRows rows, s)
  | OpClear => (RCleared, ([], next))
  end.

Fixpoint run_ops (n : nat) (ops : list TableOp) : TF (list TableRes) :=
  match ops with
  | [] => mret []
  | op :: rest => r ← run_op n op; rs ← run_ops n rest; mret (r :: rs)
  end.

Fixpoint model_ops (ops : list TableOp) (s : list (Z * list Value) * Z) : list TableRes :=
  match ops with
  | [] => []
  | op :: rest => let '(r, s') := model_op op s in r :: model_ops rest s'
  end.

Definition op_ok (op : TableOp) : Prop :=
  match op with OpInsert row => row_ok row | _ => True end.

(** The table file implements the list, with at most [k] pages and rows. *)
Definition implements (k : nat) (t : TableFile) (s : list (Z * list Value) * Z) : Prop :=
  nextID t = s.2 /\ in_u64 s.2 /\ (length s.1 <= k)%nat /\
  exists pgs, table_repr t pgs /\ (length pgs <= k)%nat /\
    Forall2 (fun c r => live c = true /\ row_of (defs_of (header t)) c = Ok r) (concat pgs) s.1.

Lemma length_add_cell pgs c : (length (add_cell pgs c) <= S (length pgs))%nat.
Proof.
  unfold add_cell, target.
  destruct (last pgs); [destruct (_ <=? _)|]; case_match; rewrite ?length_insert, ?length_app; cbn; lia.
Qed.

Lemma run_op_ok n k op t s : implements k t s -> op_ok op -> (k < n)%nat ->
  Z.of_nat n < 2 ^ 32 - 2 ->
  exists t', run_op n op t = (Ok (model_op op s).1, t') /\ implements (S k) t' (model_op op s).2.
Proof.
  destruct s as [rows next]. intros (Hn & Hu & Hlen & pgs & Hr & Hpl & Hf) Hop Hk Hbig.
  cbn [fst snd] in *. destruct op as [row| |]; cbn [model_op fst snd].
  - destruct Hop as (Hok & Hl & Hsz).
    destruct (table_insert_ok t pgs row Hr) as (t' & E & Hr' & Hn' & _ & Hd & _).
    { unfold zlen. lia. } { by rewrite Hn. } { apply Hsz. }
    exists t'. cbn [run_op]. rewrite (bind_ok _ _ _ _ _ E), Hn. split; [done|].
    split; [by rewrite Hn', Hn|]. split; [apply u64_range|].
    split; [cbn; rewrite length_app; cbn; lia|].
    eexists. split; [exact Hr'|]. split; [pose proof (length_add_cell pgs (mkCell true (EncodeRow (nextID t) row))); lia|].
    rewrite add_cell_concat. cbn [fst]. unfold defs_of. rewrite Hd. apply Forall2_app; [exact Hf|].
    constructor; [|constructor]. split; [done|]. rewrite Hn. by apply row_of_encoded.
  - pose proof (all_results_live _ _ _ Hf) as Hall.
    destruct (scan_ok (defs_of (header t)) t pgs Hr eq_refl n ltac:(lia) n) as (t' & E & Ho).
    { rewrite Hall, length_map. lia. }
    exists t'. cbn [run_op]. rewrite (bind_ok _ _ t rows t').
    2:{ by rewrite E, Hall, all_ok_map. }
    split; [done|]. destruct (only_cache_frame _ _ Ho) as (Hh & _ & Hnx & _).
    split; [by rewrite Hnx|]. split; [done|]. split; [cbn; lia|].
    exists pgs. split; [by eapply table_repr_cache|]. split; [lia|]. by rewrite Hh.
  - destruct (clear_ok t pgs Hr) as (t' & E & Hr' & Hnx & _ & Hd).
    exists t'. cbn [run_op]. rewrite (bind_ok _ _ _ _ _ E). split; [done|].
    split; [by rewrite Hnx|]. split; [done|]. split; [cbn; lia|].
    exists []. split; [done|]. split; [cbn; lia|]. apply Forall2_nil_2.
Qed.

Lemma run_ops_impl ops : forall n k t s, implements k t s -> Forall op_ok ops ->
  (k + length ops < n)%nat -> Z.of_nat n < 2 ^ 32 - 2 ->
  exists t', run_ops n ops t = (Ok (model_ops ops s), t').
Proof.
  induction ops as [|op ops IH]; intros n k t s Hi Hok Hn Hbig; [by exists t|].
  inversion Hok as [|? ? Hop Hrest]; subst. cbn [length] in Hn.
  destruct (run_op_ok n k op t s Hi Hop) as (t' & E & Hi'); [lia|done|].
  cbn [run_ops model_ops]. destruct (model_op op s) as [r s'] eqn:Hm.
  destruct (IH n (S k) t' s' Hi' Hrest) as (t'' & E'); [lia|done|].
  exists t''. rewrite (bind_ok _ _ _ _ _ E), (bind_ok _ _ _ _ _ E'). done.
Qed.
End Contract.

(** ** Creating and opening *)

Definition fresh_cache (c : option (PageCache PageV2)) : Prop :=
  match c with None => True | Some c => cache_ok c /\ pages c = ∅ end.

Section Creation.
Context `{GoRuntime} `{ColumnJSON}.

Lemma create_implements tableID cols c next : fresh_cache c -> in_u64 next ->
  exists t, CreateTableFile None tableID cols c next = Ok t /\ implements 0 t ([], next).
Proof.
  intros Hc Hn. eexists. split; [reflexivity|].
  split; [done|]. split; [done|]. split; [cbn; lia|]. exists []. split; [|split; [cbn; lia|apply Forall2_nil_2]].
  constructor; try done. unfold coherent, fresh_cache in *. cbn.
  destruct c as [c|]; [|done]. destruct Hc as [Hok He]. split; [done|].
  intros id p. by rewrite He, lookup_empty.
Qed.

(** C2: a table file refines the list of its rows. From a newly created table
    with an empty cache or none, fewer than 2^32 - 2 insertions, scans and
    truncations return what the list model returns: consecutive identifiers,
    and the rows in insertion order in their stored form, over as many pages
    as they need. The rows inserted are ones the format holds ([op_ok]): of
    fewer than 2^16 values, fitting in a page, whose values are read back as
    they are stored, which leaves out an inline BLOB of exactly 254 bytes
    ([RowCodec.decode_blob_254]). Loops are bounded by [n], which exceeds the
    number of operations. *)
Theorem table_history tableID cols c next ops n :
  fresh_cache c -> in_u64 next -> Forall op_ok ops ->
  (length ops < n)%nat -> Z.of_nat n < 2 ^ 32 - 2 ->
  exists t t', CreateTableFile None tableID cols c next = Ok t /\
               run_ops n ops t = (Ok (model_ops ops ([], next)), t').
Proof.
  intros Hc Hn Hok Hlen Hbig.
  destruct (create_implements tableID cols c next Hc Hn) as (t & E & Hi).
  destruct (run_ops_impl ops n 0 t ([], next) Hi Hok) as (t' & E'); [lia|done|].
  by exists t, t'.
Qed.

(** C7: an insertion into a table with these pages appends one
    cell to the last page, or to a new page when that one is full, and
    returns and consumes the next row identifier. *)
Theorem InsertRow_spec t pgs row :
  table_repr t pgs -> zlen pgs < 2 ^ 32 - 2 -> in_u64 (nextID t) ->
  zlen (EncodeRow (nextID t) row) <= MaxPageContentV2 - 100 ->
  exists t', InsertRow row t = (Ok (nextID t), t') /\
    table_repr t' (add_cell pgs (mkCell true (EncodeRow (nextID t) row))) /\
    nextID t' = u64 (nextID t + 1) /\ RowCount (header t') = u64 (RowCount (header t) + 1) /\
    ColumnDefs (header t') = ColumnDefs (header t) /\ TableID (header t') = TableID (header t).
Proof. apply table_insert_ok. Qed.

(** A row that does not fit a page is refused, and the
    identifier is consumed. *)
Theorem InsertRow_too_large t row :
  MaxPageContentV2 - 100 < zlen (EncodeRow (nextID t) row) ->
  InsertRow row t = (Err (RowTooLarge (zlen (EncodeRow (nextID t) row))),
                     set_nextID (u64 (nextID t + 1)) t).
Proof.
  intros Hbig. unfold InsertRow. rewrite bind_gets, bind_modify. cbv zeta.
  by rewrite (proj2 (Z.ltb_lt _ _) Hbig).
Qed.

(** C8: listing a table reads its live cells in chain order and
    stops at the first that cannot be read; a live cell that follows a
    deleted one cannot be. The table is unchanged, but for its cache. *)
Theorem GetAllRowsWithIDs_spec t pgs rows fuel :
  table_repr t pgs -> (length pgs < fuel)%nat ->
  (length (all_results (defs_of (header t)) pgs) < rows)%nat ->
  exists t', GetAllRowsWithIDs rows fuel t =
             (all_ok (all_results (defs_of (header t)) pgs), t') /\ only_cache t t'.
Proof. intros. by apply scan_ok. Qed.
End Creation.

(** ** Witnesses *)

#[local] Existing Instance plain_runtime.

Definition sample_row : list Value := [NewIntValue 7; NewStringValue (str "abc")].

Lemma sample_row_ok : row_ok sample_row.
Proof.
  split; [reflexivity|]. split; [reflexivity|]. intros rowID. rewrite zlen_EncodeRow. by vm_compute.
Qed.

Definition sample_ops : list TableOp :=
  [OpInsert sample_row; OpInsert sample_row; OpScan; OpClear; OpInsert sample_row; OpScan].

Theorem table_history_witness :
  exists t t', CreateTableFile None 1 (Some []) None 1 = Ok t /\
    run_ops 10 sample_ops t =
    (Ok [RInserted 1; RInserted 2; RRows [(1, sample_row); (2, sample_row)]; RCleared;
         RInserted 3; RRows [(3, sample_row)]], t').
Proof.
  apply (table_history 1 (Some []) None 1 sample_ops 10); [exact I|unfold in_u64; lia| |cbn; lia|done].
  unfold sample_ops. repeat constructor; try exact I; apply sample_row_ok.
Defined.

(** A table of one page with one cell. *)
Definition sample_table : TableFile :=
  match CreateTableFile None 1 (Some []) None 1 with
  | Ok t => (InsertRow sample_row t).2
  | _ => mkTF empty_header [] None false 0
  end.

Definition sample_pages : list (list Cell) := [[mkCell true (EncodeRow 1 sample_row)]].

Lemma sample_table_repr : table_repr sample_table sample_pages.
Proof.
  unfold sample_table. destruct (create_implements 1 (Some []) None 1 I ltac:(unfold in_u64; lia)) as (t & -> & Hi).
  destruct Hi as (Hn & _ & _ & pgs & Hr & Hl & _). destruct pgs; [|cbn in Hl; lia].
  destruct (table_insert_ok t [] sample_row Hr) as (t' & E & Hr' & _); [done|by rewrite Hn| |].
  - rewrite zlen_EncodeRow. by vm_compute.
  - rewrite E. cbn [snd]. cbn [snd] in Hn. by rewrite Hn in Hr'.
Qed.

Theorem InsertRow_spec_witness :
  exists t', InsertRow sample_row sample_table = (Ok 2, t') /\
    table_repr t' (add_cell sample_pages (mkCell true (EncodeRow 2 sample_row))) /\ nextID t' = 3 /\
    RowCount (header t') = 2 /\ ColumnDefs (header t') = Some [] /\ TableID (header t') = 1.
Proof.
  assert (E : nextID sample_table = 2 /\ RowCount (header sample_table) = 1 /\
              ColumnDefs (header sample_table) = Some [] /\ TableID (header sample_table) = 1)
    by (vm_compute; done).
  destruct E as (E1 & E2 & E3 & E4).
  destruct (InsertRow_spec sample_table sample_pages sample_row) as (t' & H1 & H2 & H3 & H4 & H5 & H6).
  - apply sample_table_repr.
  - done.
  - by rewrite E1.
  - rewrite zlen_EncodeRow. by vm_compute.
  - rewrite E1 in *. rewrite E2 in H4. rewrite E3 in H5. rewrite E4 in H6.
    exists t'. split; [exact H1|]. split; [exact H2|]. split; [exact H3|]. split; [exact H4|].
    split; [exact H5|exact H6].
Defined.

(** A row of one string of 17000 bytes. *)
Definition big_row : list Value := [NewStringValue (replicate (Z.to_nat 17000) Byte.x41)].

Theorem InsertRow_too_large_witness :
  InsertRow big_row sample_table =
  (Err (RowTooLarge (zlen (EncodeRow (nextID sample_table) big_row))),
   set_nextID (u64 (nextID sample_table + 1)) sample_table).
Proof. apply InsertRow_too_large. rewrite zlen_EncodeRow. by vm_compute. Defined.

Theorem GetAllRowsWithIDs_spec_witness :
  exists t', GetAllRowsWithIDs 5 5 sample_table = (Ok [(1, sample_row)], t') /\ only_cache sample_table t'.
Proof.
  assert (E : all_ok (all_results (defs_of (header sample_table)) sample_pages) = Ok [(1, sample_row)])
    by (vm_compute; reflexivity).
  rewrite <- E. apply GetAllRowsWithIDs_spec; [apply sample_table_repr|cbn; lia|].
  vm_compute. lia.
Defined.

(** * Limits of table files

    What the table file operations do outside of these histories: deleting and
    updating rows, and tables that share a page cache. *)

(** ** The lock *)

Section Lock.
Context `{GoRuntime}.

Definition uncached (id : Z) (t : TableFile) : Prop :=
  match cache t with None => True | Some c => pages c !! id = None end.

Lemma readPage_waits id t : uncached id t -> exists t', readPage WriteHeld id t = (Hang, t').
Proof.
  intros Hu. unfold readPage.
  assert (exists t', cache_get id t = (Ok None, t')) as (t' & E).
  { unfold cache_get, uncached in *. destruct (cache t) as [c|]; [|eauto].
    unfold Get. rewrite Hu. eauto. }
  exists t'. by rewrite (bind_ok _ _ _ _ _ E).
Qed.

Lemma on_row_waits {A} fuel skip rowID id (found : Z -> PageV2 -> Z -> TF A) t :
  0 < id -> uncached id t -> exists t', on_row (S fuel) WriteHeld skip rowID id found t = (Hang, t').
Proof.
  intros Hid Hu. destruct (readPage_waits id t Hu) as (t' & E). exists t'. cbn [on_row]. ztest.
  by rewrite (bind_hang _ _ _ _ E).
Qed.

(** C38: deleting or updating a row does not return when the first
    page of the table is not in the cache: it holds the write lock of the
    table and waits for its read lock. *)
Theorem delete_update_deadlock fuel rowID row t :
  0 < FirstDataPage (header t) -> uncached (FirstDataPage (header t)) t ->
  (exists t', DeleteRow (S fuel) rowID t = (Hang, t')) /\
  (exists t', UpdateRow (S fuel) rowID row t = (Hang, t')).
Proof.
  intros Hid Hu. unfold DeleteRow, UpdateRow. rewrite !bind_gets. split; by apply on_row_waits.
Qed.
End Lock.

#[local] Existing Instance plain_runtime.

Theorem delete_update_deadlock_witness :
  (exists t', DeleteRow 5 1 sample_table = (Hang, t')) /\
  (exists t', UpdateRow 5 1 sample_row sample_table = (Hang, t')).
Proof.
  apply (delete_update_deadlock 4 1 sample_row sample_table); [by vm_compute|].
  vm_compute. exact I.
Defined.

(** ** Tables that share a cache *)

Section Shared.
Definition new_cache : PageCache PageV2 := NewPageCache DefaultPageCacheConfig.

Definition run_state {A} (m : TF A) (t : TableFile) : TableFile := (m t).2.

(** Hand the cache and the identifier counter of one table to another. *)
Definition share (from to : TableFile) : TableFile :=
  set_nextID (nextID from) (set_cache (cache from) to).

Definition new_table (id : Z) (c : option (PageCache PageV2)) (next : Z) : TableFile :=
  match CreateTableFile None id (Some []) c next with
  | Ok t => t
  | _ => mkTF empty_header [] None false 0
  end.

(** Insert [a] into one new table, then [b] into another, then list the
    first. *)
Definition first_listing (a b : list Value) (c : option (PageCache PageV2))
  : outcome TFError (list (Z * list Value)) :=
  let t1 := run_state (InsertRow a) (new_table 1 c 1) in
  let t2 := run_state (InsertRow b) (share t1 (new_table 2 c 1)) in
  (GetAllRowsWithIDs 5 5 (share t2 t1)).1.

(** The page cache of a storage is keyed by the page number
    alone. With the default cache, listing a table after an insertion into
    a second table gives the row of the second table; without a cache, it
    gives the table's own row. *)
Theorem shared_cache_mixes_tables :
  let a := [NewStringValue (str "a")] in
  let b := [NewStringValue (str "b")] in
  first_listing a b None = Ok [(1, a)] /\
  first_listing a b (Some new_cache) = Ok [(2, b)].
Proof. vm_compute. split; reflexivity. Qed.
End Shared.

(** ** Deleted rows *)

(** Deleting a row makes the row after it unreadable, and
    with it the listing of the table. *)
Theorem delete_breaks_listing :
  let t0 := new_table 1 (Some new_cache) 1 in
  let t2 := run_state (InsertRow sample_row) (run_state (InsertRow sample_row) t0) in
  let t := run_state (DeleteRow 5 1) t2 in
  (GetAllRowsWithIDs 5 5 t2).1 = Ok [(1, sample_row); (2, sample_row)] /\
  (DeleteRow 5 1 t2).1 = Ok tt /\
  (GetAllRowsWithIDs 5 5 t).1 = Err (OnPage (InvalidPrevOffset 0)) /\
  (GetRow 5 2 t).1 = Err (RowNotFound 2).
Proof. vm_compute. repeat split. Qed.
