(* ===== verification/Crypto.v ===== *)
(** * TXDEF encryption (src/storage/crypto/crypto.go)

    Encryption of buffers and streams with a code. The bytes of the random
    source are a parameter. An io.Reader is its remaining data with the
    number of bytes each [Read] is ready to return; the writer is the list
    of the bytes written, and does not fail. *)

From S2P Require Import Prelude GoLib.
Local Open Scope Z_scope.

Definition MagicTXDEF : bytes := str "//TXDEF#".
Definition HeaderLen : nat := 8.
Definition BufferSize : nat := 4096.

Inductive CryptoError := ErrInvalidMagic | ErrDecryptionFailed | ErrUnexpectedEOF | ErrShortHeader.

(** A uint32 sum. *)
Definition sumBytes (data : bytes) : Z := fold_left (fun sum b => u32 (sum + byte.unsigned b)) data 0.

Definition code_or_default (code : bytes) : bytes := match code with [] => str "xxldb" | _ => code end.

Definition addLen (codeBytes : bytes) : nat := Z.to_nat (sumBytes codeBytes mod 5 + 2).
Definition encIndex (codeBytes : bytes) : nat :=
  Z.to_nat (sumBytes codeBytes mod Z.of_nat (addLen codeBytes)).

(** Byte [i mod len] of the code. *)
Definition code_byte (codeBytes : bytes) (i : nat) : byte :=
  default Byte.x00 (codeBytes !! (i mod length codeBytes)%nat).

Definition enc_byte (codeBytes : bytes) (idxByte : byte) (i : nat) (b : byte) : byte :=
  byte.of_Z (byte.unsigned b + byte.unsigned (code_byte codeBytes i) + Z.of_nat (S i) + byte.unsigned idxByte).
Definition dec_byte (codeBytes : bytes) (idxByte : byte) (i : nat) (b : byte) : byte :=
  byte.of_Z (byte.unsigned b - byte.unsigned (code_byte codeBytes i) - Z.of_nat (S i) - byte.unsigned idxByte).

(** The loops over the data, from position [i]. *)
Fixpoint enc_bytes (codeBytes : bytes) (idxByte : byte) (i : nat) (data : bytes) : bytes :=
  match data with
  | [] => []
  | b :: rest => enc_byte codeBytes idxByte i b :: enc_bytes codeBytes idxByte (S i) rest
  end.
Fixpoint dec_bytes (codeBytes : bytes) (idxByte : byte) (i : nat) (data : bytes) : bytes :=
  match data with
  | [] => []
  | b :: rest => dec_byte codeBytes idxByte i b :: dec_bytes codeBytes idxByte (S i) rest
  end.

(** [bytes.HasPrefix] *)
Definition has_prefix (p s : bytes) : bool := bool_decide (take (length p) s = p).

Definition IsEncrypted (data : bytes) : bool := has_prefix MagicTXDEF data.

Section Random.
(** crypto/rand: the bytes of one [rand.Read] *)
Context (rand : nat -> byte).

Definition random_bytes (n : nat) : bytes := map rand (seq 0 n).

(** [None] is a nil slice. *)
Definition EncryptData (srcData : option bytes) (code : bytes) : option bytes :=
  match srcData with
  | None => None
  | Some [] => srcData
  | Some data =>
    let codeBytes := code_or_default code in
    let randomBytes := random_bytes (addLen codeBytes) in
    let idxByte := default Byte.x00 (randomBytes !! encIndex codeBytes) in
    Some (MagicTXDEF ++ randomBytes ++ enc_bytes codeBytes idxByte 0 data)
  end.

Definition DecryptData (srcData : option bytes) (code : bytes) : outcome CryptoError (option bytes) :=
  match srcData with
  | None => Ok None
  | Some data =>
    let codeBytes := code_or_default code in
    if negb (has_prefix MagicTXDEF data) then Err ErrInvalidMagic
    else
      let data := drop HeaderLen data in
      if (length data <? addLen codeBytes)%nat then Err ErrDecryptionFailed
      else match data !! encIndex codeBytes with
           | None => Panic
           | Some idxByte => Ok (Some (dec_bytes codeBytes idxByte 0 (drop (addLen codeBytes) data)))
           end
  end.

(** ** Streams *)

Record Reader := mkReader { unread : bytes; sizes : list nat }.

(** [Read] into a buffer of [k] bytes: the bytes, or end of file. *)
Definition read (k : nat) (r : Reader) : option (bytes * Reader) :=
  match unread r with
  | [] => None
  | _ =>
    let '(n, rest) := match sizes r with [] => (k, []) | s :: rest => (min k s, rest) end in
    Some (take n (unread r), mkReader (drop n (unread r)) rest)
  end.

(** [io.ReadFull] *)
Fixpoint read_full (fuel k : nat) (r : Reader) : outcome CryptoError (bytes * Reader) :=
  match k, fuel with
  | O, _ => Ok ([], r)
  | _, O => Hang
  | _, S fuel =>
    match read k r with
    | None => Err ErrUnexpectedEOF
    | Some (data, r) =>
      '(rest, r) ← read_full fuel (k - length data) r;
      Ok (data ++ rest, r)
    end
  end.

(** The copy loop, over [f i data]. *)
Fixpoint copy_loop (fuel : nat) (f : nat -> bytes -> bytes) (i : nat) (r : Reader) : outcome CryptoError bytes :=
  match fuel with
  | O => Hang
  | S fuel =>
    match read BufferSize r with
    | None => Ok []
    | Some (data, r) =>
      rest ← copy_loop fuel f (i + length data)%nat r;
      Ok (f i data ++ rest)
    end
  end.

Definition EncryptStream (fuel : nat) (reader : Reader) (code : bytes) : outcome CryptoError bytes :=
  let codeBytes := code_or_default code in
  let randomBytes := random_bytes (addLen codeBytes) in
  let idxByte := default Byte.x00 (randomBytes !! encIndex codeBytes) in
  out ← copy_loop fuel (enc_bytes codeBytes idxByte) 0 reader;
  Ok (MagicTXDEF ++ randomBytes ++ out).

Definition DecryptStream (fuel : nat) (reader : Reader) (code : bytes) : outcome CryptoError bytes :=
  let codeBytes := code_or_default code in
  '(header, reader) ← read_full fuel HeaderLen reader;
  if negb (bool_decide (header = MagicTXDEF)) then Err ErrInvalidMagic
  else
    '(randomBytes, reader) ← read_full fuel (addLen codeBytes) reader;
    match randomBytes !! encIndex codeBytes with
    | None => Panic
    | Some idxByte => copy_loop fuel (dec_bytes codeBytes idxByte) 0 reader
    end.
End Random.

(** ** Encryptors *)

Record Encryptor := mkEncryptor { code : bytes }.

Definition NewEncryptor (password : bytes) (salt : option bytes) : Encryptor :=
  mkEncryptor (code_or_default password).

Definition Encrypt (rand : nat -> byte) (e : Encryptor) (plaintext : option bytes) : option bytes :=
  EncryptData rand plaintext (code e).
Definition Decrypt (e : Encryptor) (ciphertext : option bytes) : outcome CryptoError (option bytes) :=
  DecryptData ciphertext (code e).
Definition EncryptFile := Encrypt.
Definition DecryptFile := Decrypt.

Definition ReadHeader (data : bytes) : outcome CryptoError bytes :=
  if (length data <? HeaderLen)%nat then Err ErrShortHeader else Ok (take HeaderLen data).

(** ** Lemmas *)

Lemma dec_enc_byte c x i b : dec_byte c x i (enc_byte c x i b) = b.
Proof.
  unfold dec_byte, enc_byte. rewrite byte.unsigned_of_Z. unfold byte.wrap.
  set (k := byte.unsigned (code_byte c i) + Z.of_nat (S i) + byte.unsigned x).
  replace (byte.unsigned b + byte.unsigned (code_byte c i) + Z.of_nat (S i) + byte.unsigned x)
    with (byte.unsigned b + k) by (unfold k; lia).
  replace ((byte.unsigned b + k) mod 2 ^ 8 - byte.unsigned (code_byte c i) - Z.of_nat (S i) - byte.unsigned x)
    with ((byte.unsigned b + k) mod 2 ^ 8 - k) by (unfold k; lia).
  apply byte.unsigned_inj. rewrite byte.unsigned_of_Z. unfold byte.wrap.
  rewrite Zminus_mod_idemp_l. replace (byte.unsigned b + k - k) with (byte.unsigned b) by lia.
  apply Z.mod_small, byte.unsigned_range.
Qed.

Lemma dec_enc_bytes c x i data : dec_bytes c x i (enc_bytes c x i data) = data.
Proof. revert i. induction data as [|b data IH]; intros i; [done|]. cbn. by rewrite dec_enc_byte, IH. Qed.

Lemma enc_bytes_app c x i d1 d2 :
  enc_bytes c x i (d1 ++ d2) = enc_bytes c x i d1 ++ enc_bytes c x (i + length d1) d2.
Proof.
  revert i. induction d1 as [|b d1 IH]; intros i; cbn; [by rewrite Nat.add_0_r|].
  rewrite IH. do 3 f_equal. lia.
Qed.

Lemma dec_bytes_app c x i d1 d2 :
  dec_bytes c x i (d1 ++ d2) = dec_bytes c x i d1 ++ dec_bytes c x (i + length d1) d2.
Proof.
  revert i. induction d1 as [|b d1 IH]; intros i; cbn; [by rewrite Nat.add_0_r|].
  rewrite IH. do 3 f_equal. lia.
Qed.

Lemma enc_index_lt c : (encIndex c < addLen c)%nat.
Proof.
  unfold encIndex. assert (0 < Z.of_nat (addLen c)).
  { unfold addLen. pose proof (Z.mod_pos_bound (sumBytes c) 5). lia. }
  pose proof (Z.mod_pos_bound (sumBytes c) (Z.of_nat (addLen c))). lia.
Qed.

Lemma length_random r n : length (random_bytes r n) = n.
Proof. unfold random_bytes. by rewrite length_map, length_seq. Qed.

Lemma random_lookup r c : exists b, random_bytes r (addLen c) !! encIndex c = Some b.
Proof. apply lookup_lt_is_Some_2. rewrite length_random. apply enc_index_lt. Qed.

Lemma has_prefix_app p s : has_prefix p (p ++ s) = true.
Proof. unfold has_prefix. apply bool_decide_eq_true. by rewrite take_app_length. Qed.

Lemma has_prefix_split p s : has_prefix p s = true -> s = p ++ drop (length p) s.
Proof. intros H%bool_decide_eq_true. rewrite <- H at 1. by rewrite take_drop. Qed.

Lemma length_enc_bytes c x i d : length (enc_bytes c x i d) = length d.
Proof. revert i. induction d as [|b d IH]; intros i; cbn; [done|]. by rewrite IH. Qed.

Lemma add_len_le c : (addLen c <= 6)%nat.
Proof. unfold addLen. pose proof (Z.mod_pos_bound (sumBytes c) 5). lia. Qed.

(** ** Reading a stream *)

(** What is left to read: bytes and scheduled reads. *)
Definition work (r : Reader) : nat := length (unread r) + length (sizes r).

Lemma read_spec k r : unread r <> [] -> (0 < k)%nat ->
  exists n r', read k r = Some (take n (unread r), r') /\ (n <= k)%nat /\
    unread r' = drop n (unread r) /\ (work r' < work r)%nat.
Proof.
  intros Hne Hk. unfold read, work. destruct r as [[|b l] sz]; [done|]. cbn [unread sizes].
  destruct sz as [|s sz].
  - exists k, (mkReader (drop k (b :: l)) []). split_and!; try done. cbn [unread sizes].
    rewrite length_drop. cbn [length]. lia.
  - exists (min k s), (mkReader (drop (min k s) (b :: l)) sz). split_and!; try done; [lia|].
    cbn [unread sizes]. rewrite length_drop. cbn [length]. lia.
Qed.

Lemma copy_loop_spec f fuel : (forall i, f i [] = []) ->
  (forall i d1 d2, f i (d1 ++ d2) = f i d1 ++ f (i + length d1)%nat d2) ->
  forall i r, (work r < fuel)%nat -> copy_loop fuel f i r = Ok (f i (unread r)).
Proof.
  intros Hnil Happ. induction fuel as [|fuel IH]; intros i r Hw; [lia|]. cbn [copy_loop].
  destruct (decide (unread r = [])) as [He|Hne].
  - unfold read. by rewrite He, Hnil.
  - destruct (read_spec BufferSize r Hne) as (n & r' & E & _ & Hu & Hlt); [unfold BufferSize; lia|].
    rewrite E, IH by lia. cbn [mbind outcome_bind]. rewrite Hu, <- Happ. by rewrite take_drop.
Qed.

Lemma read_full_spec fuel : forall k r, (k + length (sizes r) < fuel)%nat ->
  if (k <=? length (unread r))%nat
  then exists r', read_full fuel k r = Ok (take k (unread r), r') /\ unread r' = drop k (unread r) /\
         (work r' + k <= work r)%nat /\ (length (sizes r') <= length (sizes r))%nat
  else read_full fuel k r = Err ErrUnexpectedEOF.
Proof.
  induction fuel as [|fuel IH]; intros k r Hf; [lia|].
  destruct k as [|k].
  { exists r. cbn. rewrite drop_0. by split_and!; try lia. }
  cbn [read_full]. unfold read, work. destruct r as [[|b l] sz]; [done|]. cbn [unread sizes] in *.
  set (data := b :: l). destruct sz as [|s sz].
  - rewrite length_take. pose proof (Nat.leb_spec (S k) (length data)) as Hle.
    destruct (S k <=? length data)%nat; inversion Hle; clear Hle.
    + rewrite Nat.min_l, Nat.sub_diag by lia. destruct fuel as [|fuel]; [cbn in Hf; lia|].
      cbn [read_full mbind outcome_bind]. rewrite app_nil_r. eexists. split; [done|].
      cbn [unread sizes]. rewrite length_drop. cbn [length] in *. split; [done|]. lia.
    + rewrite Nat.min_r by lia.
      specialize (IH (S k - length data)%nat (mkReader (drop (S k) data) [])).
      cbn [unread sizes] in IH. rewrite length_drop in IH.
      destruct (Nat.leb_spec (S k - length data) (length data - S k)); [lia|].
      rewrite IH by (cbn in *; lia). done.
  - specialize (IH (S k - length (take (min (S k) s) data))%nat (mkReader (drop (min (S k) s) data) sz)).
    cbn [unread sizes] in IH. rewrite length_drop, length_take in *.
    set (n := min (min (S k) s) (length data)) in *.
    assert (Heq : drop (min (S k) s) data = drop n data).
    { destruct (decide (min (S k) s <= length data)%nat); [by replace n with (min (S k) s) by lia|].
      by rewrite !drop_ge by lia. }
    assert (Htk : take (min (S k) s) data = take n data).
    { destruct (decide (min (S k) s <= length data)%nat); [by replace n with (min (S k) s) by lia|].
      by rewrite !take_ge by lia. }
    rewrite Heq, Htk in *. cbn [length] in Hf. specialize (IH ltac:(lia)).
    pose proof (Nat.leb_spec (S k) (length data)) as Hle.
    pose proof (Nat.leb_spec (S k - n) (length data - min (S k) s)) as Hle'.
    destruct (S k <=? length data)%nat; inversion Hle; clear Hle;
    destruct (S k - n <=? length data - min (S k) s)%nat; inversion Hle'; clear Hle'; try lia.
    + destruct IH as (r' & -> & Hu & Hw & Hs). cbn [mbind outcome_bind]. exists r'.
      rewrite take_take_drop. split; [do 3 f_equal; lia|].
      unfold work in Hw. cbn [unread sizes] in Hw. rewrite length_drop in Hw.
      split; [rewrite Hu, drop_drop; f_equal; lia|]. cbn [length]. unfold work. lia.
    + by rewrite IH.
Qed.

(** ** Properties *)

Lemma decrypt_encrypt_ok rand data code : data <> [] ->
  DecryptData (EncryptData rand (Some data) code) code = Ok (Some data).
Proof.
  intros Hne. destruct data as [|b data]; [done|]. unfold EncryptData, DecryptData.
  set (c := code_or_default code). rewrite has_prefix_app. cbn [negb].
  change HeaderLen with (length MagicTXDEF). rewrite drop_app_length.
  rewrite length_app, length_random. destruct (Nat.ltb_spec (addLen c + length (enc_bytes c
    (default Byte.x00 (random_bytes rand (addLen c) !! encIndex c)) 0 (b :: data))) (addLen c)); [lia|].
  destruct (random_lookup rand c) as (x & Hx).
  rewrite lookup_app_l by (rewrite length_random; apply enc_index_lt). rewrite Hx. cbn [default].
  rewrite drop_app_ge by (rewrite length_random; lia).
  rewrite length_random, Nat.sub_diag, drop_0. change (default Byte.x00 (Some x)) with x.
  by rewrite dec_enc_bytes.
Qed.

(** C32: what is encrypted with a code is decrypted with it, whatever
    the random bytes, when it is not empty. *)
Theorem decrypt_encrypt rand data code : data <> [] ->
  DecryptData (EncryptData rand (Some data) code) code = Ok (Some data).
Proof. apply decrypt_encrypt_ok. Qed.

Theorem decrypt_encrypt_witness :
  DecryptData (EncryptData (fun i => byte.of_Z (Z.of_nat i * 37)) (Some (str "secret")) (str "pw")) (str "pw") =
  Ok (Some (str "secret")).
Proof. by apply decrypt_encrypt. Defined.

(** Encrypting or decrypting a stream gives what encrypting
    or decrypting its data in one piece gives, however the reader splits
    it. Decrypting checks its prefix; a stream that is too short is an error
    in both. *)
Theorem streams_match rand fuel r code :
  unread r <> [] -> (work r + 16 < fuel)%nat ->
  (Some <$> EncryptStream rand fuel r code) = Ok (EncryptData rand (Some (unread r)) code) /\
  match DecryptData (Some (unread r)) code, DecryptStream fuel r code with
  | Ok d, Ok d' => d = Some d'
  | Err _, Err _ => True
  | _, _ => False
  end.
Proof.
  intros Hne Hw. unfold EncryptStream, EncryptData, DecryptStream, DecryptData.
  set (c := code_or_default code). split.
  - rewrite (copy_loop_spec _ fuel); [|done|intros; apply enc_bytes_app|lia].
    cbn [mbind outcome_bind fmap]. destruct (unread r); done.
  - assert (Ha : (addLen c <= 6)%nat).
    { unfold addLen. pose proof (Z.mod_pos_bound (sumBytes c) 5). lia. }
    pose proof (read_full_spec fuel HeaderLen r) as H1. unfold work, HeaderLen in *.
    specialize (H1 ltac:(lia)). destruct (Nat.leb_spec 8 (length (unread r))) as [Hlen|Hlen].
    2:{ rewrite H1. assert (has_prefix MagicTXDEF (unread r) = false) as ->; [|done].
        apply bool_decide_eq_false. intros E. apply (f_equal length) in E.
        rewrite length_take in E. change (length MagicTXDEF) with 8%nat in E. lia. }
    destruct H1 as (r1 & -> & Hu1 & Hw1 & Hs1). cbn [mbind outcome_bind].
    change (bool_decide (take 8 (unread r) = MagicTXDEF)) with (has_prefix MagicTXDEF (unread r)).
    destruct (has_prefix MagicTXDEF (unread r)); [|done]. cbn [negb]. rewrite <- Hu1.
    pose proof (read_full_spec fuel (addLen c) r1 ltac:(lia)) as H2.
    destruct (Nat.leb_spec (addLen c) (length (unread r1))), (Nat.ltb_spec (length (unread r1)) (addLen c));
      try lia; [|by rewrite H2].
    destruct H2 as (r2 & -> & Hu2 & Hw2 & _). cbn [mbind outcome_bind].
    rewrite lookup_take, decide_True by apply enc_index_lt.
    destruct (unread r1 !! encIndex c) as [x|] eqn:Hx.
    + rewrite (copy_loop_spec _ fuel); [|done|intros; apply dec_bytes_app|unfold work in *; lia].
      by rewrite Hu2.
    + apply lookup_ge_None in Hx. pose proof (enc_index_lt c). lia.
Qed.

Theorem streams_match_witness :
  let r := mkReader (str "some text") [3; 0; 2]%nat in
  let rand := fun i => byte.of_Z (Z.of_nat i * 37) in
  (Some <$> EncryptStream rand 40 r (str "pw")) = Ok (EncryptData rand (Some (unread r)) (str "pw")) /\
  match DecryptData (Some (unread r)) (str "pw"), DecryptStream 40 r (str "pw") with
  | Ok d, Ok d' => d = Some d'
  | Err _, Err _ => True
  | _, _ => False
  end.
Proof. apply streams_match; [done|vm_compute; lia]. Defined.

(** An empty buffer is stored as it is, and then refused. *)
Lemma empty_not_decrypted rand code :
  DecryptData (EncryptData rand (Some []) code) code = Err ErrInvalidMagic.
Proof. done. Qed.
