(* ===== verification/Json.v ===== *)
(** * JSON values (src/types/types.go, src/storage/wal.go)

    The trees encoding/json writes and reads, the marshalling of values and
    tables, and the conversions from what is read back to values. The text
    of JSON is left to the library: a tree is marshalled with its integers
    exact ([JInt]) and read back with every number a float64 ([decoded]). *)

From S2P Require Import Prelude GoLib Types.
Local Open Scope Z_scope.

#[warnings="-register-all"]
Inductive json :=
  | JNull
  | JBool (b : bool)
  | JInt (n : Z)
  | JFloat (f : float64)
  | JStr (s : bytes)
  | JArr (l : list json)
  | JObj (l : list (bytes * json)).

(** What json.Unmarshal into an interface{} gives for a tree. *)
Fixpoint decoded (j : json) : json :=
  match j with
  | JInt n => JFloat (float_of_Z n)
  | JArr l => JArr (map decoded l)
  | JObj l => JObj (map (fun '(k, v) => (k, decoded v)) l)
  | _ => j
  end.

(** encoding/json and fmt on what the model keeps abstract *)
Class JSONRuntime := {
  marshal_time : Time -> bytes;             (* time.Time *)
  marshal_other : bytes -> bytes -> json;   (* another type, by name and text *)
  sprint_json : json -> bytes               (* %v of a decoded tree *)
}.

Definition rfc3339 : bytes := str "2006-01-02T15:04:05Z07:00".

(** A map lookup. *)
Fixpoint jget (k : bytes) (l : list (bytes * json)) : option json :=
  match l with
  | [] => None
  | (k', v) :: rest => if bytes_eqb k k' then Some v else jget k rest
  end.

Section Json.
Context `{GoRuntime} `{JSONRuntime}.

(** ** Marshalling *)

(** An interface{} field that is omitted when nil; an error for a float
    JSON cannot write. *)
Definition data_json (d : GoData) : outcome unit (option json) :=
  let float f := match f with
                 | S754_nan | S754_infinity _ => Err tt
                 | _ => Ok (Some (JFloat f))
                 end in
  match d with
  | GNil => Ok None
  | GInt _ n => Ok (Some (JInt n))
  | GFloat32 f => float (float_of_float32 f)
  | GFloat64 f => float f
  | GString s => Ok (Some (JStr s))
  | GBytes b => Ok (Some (JStr (base64_encode b)))
  | GBool b => Ok (Some (JBool b))
  | GTime t => Ok (Some (JStr (marshal_time t)))
  | GOther type text => Ok (Some (marshal_other type text))
  end.

Definition field (k : string) (j : option json) : list (bytes * json) :=
  match j with Some v => [(str k, v)] | None => [] end.

Definition blobref_json (r : BlobRef) : json := JObj [(str "id", JInt (ID r)); (str "size", JInt (Size r))].

(** [Value.MarshalJSON] *)
Definition value_json (v : Value) : outcome unit json :=
  let obj data ref :=
    JObj ([(str "type", JStr (DataType_String (Type_ v)))] ++ field "data" data
          ++ [(str "is_null", JBool (IsNull v))] ++ field "blob_ref" ref) in
  if IsNull v then Ok (obj None None)
  else match BlobRefOf v with
       | Some r => Ok (obj None (Some (blobref_json r)))
       | None =>
         if one_of (Type_ v) [TypeDate; TypeTime; TypeDatetime] then
           Ok (obj (match Data v with GTime t => Some (JStr (time_format rfc3339 t)) | _ => None end) None)
         else if Type_ v =? TypeBlob then
           Ok (obj (match Data v with GBytes b => Some (JStr (base64_encode b)) | _ => None end) None)
         else d ← data_json (Data v); Ok (obj d None)
       end.

Fixpoint values_json (row : list Value) : outcome unit (list json) :=
  match row with
  | [] => Ok []
  | v :: rest => j ← value_json v; js ← values_json rest; Ok (j :: js)
  end.

Definition int_field (k : string) (omit_zero : bool) (n : Z) : list (bytes * json) :=
  if omit_zero && (n =? 0) then [] else [(str k, JInt n)].

Definition column_json (c : ColumnDef) : outcome unit json :=
  default_json ← match Default c with
                 | None => Ok None
                 | Some v => j ← value_json v; Ok (Some j)
                 end;
  Ok (JObj ([(str "name", JStr (Name c)); (str "type", JInt (CType c))]
            ++ int_field "length" true (Length c) ++ int_field "precision" true (Precision c)
            ++ [(str "nullable", JBool (Nullable c))] ++ field "default" default_json
            ++ [(str "primary_key", JBool (PrimaryKey c)); (str "auto_inc", JBool (AutoInc c))])).

Fixpoint columns_json (cols : list ColumnDef) : outcome unit (list json) :=
  match cols with
  | [] => Ok []
  | c :: rest => j ← column_json c; js ← columns_json rest; Ok (j :: js)
  end.

(** The table of the storage: TableInfo with its data file. *)
Definition table_json (t : TableInfo) (created updated : Time) (dataFile : bytes) : outcome unit json :=
  cols ← columns_json (Columns t);
  Ok (JObj [(str "id", JInt (TID t)); (str "name", JStr (TName t)); (str "columns", JArr cols);
            (str "created_at", JStr (marshal_time created)); (str "updated_at", JStr (marshal_time updated));
            (str "row_count", JInt (RowCount t)); (str "data_file", JStr dataFile)]).

(** ** Reading back *)

(** A decoded tree as the dynamic value of an interface{}. *)
Definition json_data (j : json) : GoData :=
  match j with
  | JNull => GNil
  | JBool b => GBool b
  | JInt n => GInt KInt64 n
  | JFloat f => GFloat64 f
  | JStr s => GString s
  | JArr _ => GOther (str "[]interface {}") (sprint_json j)
  | JObj _ => GOther (str "map[string]interface {}") (sprint_json j)
  end.

Definition json_byte (j : json) : byte :=
  match j with JFloat f => byte.of_Z (float_to_int64 f) | _ => Byte.x00 end.

Definition float_eq (f g : float64) : bool := SFeqb f g.

(** The conversion of a map that carries a type name; [None] when the code
    falls through to its generic cases. *)
Definition typed_value (typeStr : bytes) (m : list (bytes * json)) : option Value :=
  let data := jget (str "data") m in
  if existsb (bytes_eqb typeStr) [str "INT"; str "SEQ"] then
    match data with Some (JFloat f) => Some (NewIntValue (float_to_int64 f)) | _ => None end
  else if bytes_eqb typeStr (str "FLOAT") then
    match data with Some (JFloat f) => Some (NewFloatValue f) | _ => None end
  else if existsb (bytes_eqb typeStr) [str "VARCHAR"; str "CHAR"; str "TEXT"] then
    match data with Some (JStr s) => Some (NewStringValue s) | _ => None end
  else if bytes_eqb typeStr (str "BLOB") then
    let num k ref := match jget (str k) ref with Some (JFloat f) => Some f | _ => None end in
    let ref := match jget (str "blob_ref") m with
               | Some (JObj ref) =>
                 let id := match num "id" ref with Some f => float_to_uint64 f | None => 0 end in
                 let size := match num "size" ref with Some f => float_to_int64 f | None => 0 end in
                 if 0 <? id then Some (NewBlobRefValue id size) else None
               | _ => None
               end in
    match ref with
    | Some v => Some v
    | None => match data with
              | Some (JStr s) => Some (NewBlobValue s)
              | Some (JArr l) => Some (NewBlobValue (map json_byte l))
              | _ => None
              end
    end
  else None.

Definition interfaceToValue (v : json) : Value :=
  let generic :=
    match v with
    | JStr s => NewStringValue s
    | JFloat f => if float_eq f (float_of_Z (float_to_int64 f)) then NewIntValue (float_to_int64 f)
                  else NewFloatValue f
    | JInt n => NewIntValue n
    | JBool b => NewBoolValue b
    | JArr _ => NewNullValue
    | JNull => NewNullValue
    | JObj _ => NewStringValue (sprint_json v)
    end in
  match v with
  | JNull => NewNullValue
  | JObj m =>
    match jget (str "is_null") m with
    | Some (JBool true) => NewNullValue
    | _ =>
      let typed := match jget (str "type") m with Some (JStr t) => typed_value t m | _ => None end in
      match typed with
      | Some v => v
      | None => match jget (str "data") m with
                | Some data => NewValue (json_data data)
                | None => generic
                end
      end
    end
  | _ => generic
  end.

(** [fmt.Sscanf(val, "%d", &i)]: an integer after blanks. *)
Context (sscan_int : bytes -> option Z).

Definition rawToValue (v : json) (columns : option (list ColumnDef)) (colIndex : nat) : Value :=
  let generic := interfaceToValue v in
  match v with
  | JNull => NewNullValue
  | _ =>
    let colType := match columns with
                   | Some cols => match cols !! colIndex with Some c => CType c | None => TypeUnknown end
                   | None => TypeUnknown
                   end in
    match v with
    | JArr [JFloat marker; JFloat id; JFloat size] =>
      if float_eq marker (float_of_Z 1) then NewBlobRefValue (float_to_uint64 id) (float_to_int64 size)
      else generic
    | _ =>
      if one_of colType [TypeInt; TypeSeq] then
        match v with
        | JFloat f => NewIntValue (float_to_int64 f)
        | JInt n => NewIntValue n
        | JStr s => match sscan_int s with Some i => NewIntValue i | None => generic end
        | _ => generic
        end
      else if colType =? TypeFloat then
        match v with
        | JFloat f => NewFloatValue f
        | JInt n => NewFloatValue (float_of_Z n)
        | _ => generic
        end
      else if one_of colType [TypeBlob; TypeImage] then
        match v with JStr s => NewBlobValue s | _ => generic end
      else generic
    end
  end.
End Json.

(** ** Reading a value back *)

(** A field of a fixed type: absent or null leaves it as it is, another type is
    an error. Keys are matched as MarshalJSON writes them. *)
Definition string_field (k : string) (m : list (bytes * json)) : option bytes :=
  match jget (str k) m with None | Some JNull => Some [] | Some (JStr s) => Some s | _ => None end.
Definition bool_field (k : string) (m : list (bytes * json)) : option bool :=
  match jget (str k) m with None | Some JNull => Some false | Some (JBool b) => Some b | _ => None end.
Definition number_field (k : string) (m : list (bytes * json)) : option Z :=
  match jget (str k) m with None | Some JNull => Some 0 | Some (JInt n) => Some n | _ => None end.
Definition blobref_field (m : list (bytes * json)) : option (option BlobRef) :=
  match jget (str "blob_ref") m with
  | None | Some JNull => Some None
  | Some (JObj r) =>
    id ← number_field "id" r; size ← number_field "size" r;
    if (0 <=? id) && (id <? 2 ^ 64) && (- 2 ^ 63 <=? size) && (size <? 2 ^ 63) then Some (Some {| ID := id; Size := size |}) else None
  | _ => None
  end.
(** The data of a type from an interface{}; [no_time] is the zero time. *)
Definition unmarshal_data `{GoRuntime} (no_time : Time) (t : DataType) (raw : GoData) : GoData :=
  if one_of t [TypeInt; TypeSeq] then match raw with GFloat64 f => GInt KInt64 (float_to_int64 f) | d => d end
  else if one_of t [TypeDate; TypeTime; TypeDatetime] then
    match raw with GString s => GTime (default no_time (time_parse rfc3339 s)) | _ => GNil end
  else raw.
(** [Value.UnmarshalJSON] *)
Definition UnmarshalJSON `{GoRuntime} `{JSONRuntime} (no_time : Time) (j : json) : option Value :=
  m ← match j with JObj m => Some m | JNull => Some [] | _ => None end;
  type ← string_field "type" m; null ← bool_field "is_null" m; ref ← blobref_field m;
  let t := ParseDataType type in
  let raw := match jget (str "data") m with Some d => json_data (decoded d) | None => GNil end in
  Some (mkValue t (match null, ref with false, None => unmarshal_data no_time t raw | _, _ => GNil end) null ref).

(** ** Values through JSON *)

(** An integer a float64 holds exactly. *)
Definition float_exact `{GoRuntime} (n : Z) : bool := float_to_int64 (float_of_Z n) =? n.
Definition float_exact_u `{GoRuntime} (n : Z) : bool := float_to_uint64 (float_of_Z n) =? n.

(** The values the theorem below covers: those the constructors of types.go
    make and the engine stores. *)
Inductive plain_value `{GoRuntime} : Value -> Prop :=
  | PlainNull d ref : plain_value (mkValue d ref true None)
  | PlainInt k n : float_exact n = true -> plain_value (mkValue TypeInt (GInt k n) false None)
  | PlainFloat s m e : plain_value (NewFloatValue (S754_finite s m e))
  | PlainString d s : one_of d [TypeVarchar; TypeChar; TypeText] = true ->
      plain_value (mkValue d (GString s) false None)
  | PlainBlob b : plain_value (NewBlobValue b)
  | PlainImage b : plain_value (NewImageValue b)
  | PlainRef id size : 0 < id -> float_exact_u id = true -> float_exact size = true ->
      plain_value (NewBlobRefValue id size).

(** What the log gives back for such a value. Binary data comes back as its
    base64 text. *)
Definition replayed (v : Value) : Value :=
  if IsNull v then NewNullValue
  else match BlobRefOf v, Data v with
       | Some r, _ => NewBlobRefValue (ID r) (Size r)
       | None, GInt _ n => NewIntValue n
       | None, GString s => NewStringValue s
       | None, GBytes b => if Type_ v =? TypeBlob then NewBlobValue (base64_encode b)
                           else NewStringValue (base64_encode b)
       | None, _ => v
       end.

(** Evaluate the comparisons of literal strings. *)
Ltac eval_eqb :=
  repeat match goal with
    |- context [bytes_eqb ?a ?b] =>
      let r := eval vm_compute in (bytes_eqb a b) in change (bytes_eqb a b) with r; cbn iota
    end.

Lemma replay_value_ok `{GoRuntime} `{JSONRuntime} v : plain_value v ->
  exists j, value_json v = Ok j /\ interfaceToValue (decoded j) = replayed v.
Proof.
  intros Hv. destruct Hv as [d ref|k n Hn|s m e|d s Hd|b|b|id size Hpos Hid Hsz].
  4: unfold one_of in Hd; cbn in Hd;
     repeat (apply orb_true_iff in Hd as [Hd%Z.eqb_eq|Hd]; [subst d|]); [..|done].
  all: eexists; (split; [reflexivity|]); try reflexivity.
  - apply Z.eqb_eq in Hn. transitivity (NewIntValue (float_to_int64 (float_of_Z n))); [reflexivity|].
    by rewrite Hn.
  - apply Z.eqb_eq in Hid, Hsz. apply Z.ltb_lt in Hpos.
    change (decoded _) with (JObj [(str "type", JStr (str "BLOB")); (str "is_null", JBool false);
      (str "blob_ref", JObj [(str "id", JFloat (float_of_Z id)); (str "size", JFloat (float_of_Z size))])]).
    revert Hid Hsz. generalize (float_of_Z id) (float_of_Z size). intros fi fs Hid Hsz.
    unfold interfaceToValue, typed_value. cbn [jget existsb]. eval_eqb.
    cbn [orb]. cbv zeta. cbn iota. cbn [jget]. eval_eqb. by rewrite Hid, Hsz, Hpos.
Qed.

(** A value that is logged is replayed as an equal value, except
    that its type becomes the one of its data, and that binary data comes
    back as the base64 text that JSON holds it in. *)
Theorem interfaceToValue_value_json `{GoRuntime} `{JSONRuntime} v : plain_value v ->
  exists j, value_json v = Ok j /\ interfaceToValue (decoded j) = replayed v.
Proof. apply replay_value_ok. Qed.

Definition plain_json : JSONRuntime := {|
  marshal_time t := itoa t;
  marshal_other _ text := JStr text;
  sprint_json _ := str "map[]"
|}.

Theorem interfaceToValue_value_json_witness :
  exists j, value_json (H := plain_runtime) (H0 := plain_json) (NewBlobValue (str "hello")) = Ok j /\
    interfaceToValue (H := plain_runtime) (H0 := plain_json) (decoded j) = NewBlobValue (str "aGVsbG8=").
Proof.
  exact (interfaceToValue_value_json (H := plain_runtime) (H0 := plain_json) _
           (@PlainBlob plain_runtime (str "hello"))).
Defined.

(** ** Values of metadata *)

(** What a value is when it is read back as a value: its type by its name,
    binary data as the text that holds it. *)
Definition reread `{GoRuntime} (v : Value) : Value :=
  mkValue (ParseDataType (DataType_String (Type_ v)))
    (if IsNull v then GNil
     else match BlobRefOf v, Data v with
          | Some _, _ => GNil
          | None, GInt _ n => GInt KInt64 n
          | None, GBytes b => GString (base64_encode b)
          | None, d => d
          end)
    (IsNull v) (if IsNull v then None else BlobRefOf v).

Lemma float_exact_u_range `{GoRuntime} n : float_exact_u n = true -> 0 <= n < 2 ^ 64.
Proof.
  unfold float_exact_u. intros <-%Z.eqb_eq. unfold float_to_uint64. destruct (float_trunc _) as [z|]; [|apply u64_range].
  destruct ((0 <=? z) && (z <? 2 ^ 64)) eqn:E; [lia|apply u64_range].
Qed.
Lemma float_exact_range `{GoRuntime} n : float_exact n = true -> - 2 ^ 63 <= n < 2 ^ 63.
Proof.
  unfold float_exact. intros <-%Z.eqb_eq. unfold float_to_int64. destruct (float_trunc _) as [z|]; [|apply i64_range].
  destruct ((- 2 ^ 63 <=? z) && (z <? 2 ^ 63)) eqn:E; [lia|apply i64_range].
Qed.
Lemma field_read k k' d m : bytes_eqb (str k) (str k') = false -> jget (str k) (field k' d ++ m) = jget (str k) m.
Proof. intros Hk. destruct d; cbn [field app jget]; [by rewrite Hk|done]. Qed.
Lemma unmarshal_written `{GoRuntime} `{JSONRuntime} no_time dt d b r : (forall x, r = Some x -> 0 <= ID x < 2 ^ 64 /\ - 2 ^ 63 <= Size x < 2 ^ 63) ->
  UnmarshalJSON no_time (JObj ([(str "type", JStr (DataType_String dt))] ++ field "data" d ++ [(str "is_null", JBool b)] ++ field "blob_ref" (blobref_json <$> r))) =
  Some (mkValue (ParseDataType (DataType_String dt))
    (match b, r with false, None => unmarshal_data no_time (ParseDataType (DataType_String dt)) (match d with Some d => json_data (decoded d) | None => GNil end) | _, _ => GNil end) b r).
Proof.
  intros Hr. unfold UnmarshalJSON. generalize (DataType_String dt). intros t. set (m := _ ++ _).
  assert (Ht : string_field "type" m = Some t) by done.
  assert (Hb : bool_field "is_null" m = Some b) by (unfold bool_field, m; cbn [app jget]; eval_eqb; rewrite field_read by (vm_compute; reflexivity); done).
  assert (Hf : blobref_field m = Some r).
  { unfold blobref_field, m. cbn [app jget]. eval_eqb. rewrite field_read by (vm_compute; reflexivity). cbn [app jget]. eval_eqb. destruct r as [[id size]|]; [|done]. cbn [fmap option_fmap option_map field jget]. eval_eqb.
    destruct (Hr _ eq_refl) as [Hi Hs]. cbn [ID Size] in *. unfold blobref_json, number_field. cbn [jget ID Size]. eval_eqb. cbn [mbind option_bind].
    rewrite !(proj2 (Z.leb_le _ _)), !(proj2 (Z.ltb_lt _ _)) by lia. done. }
  assert (Hd : jget (str "data") m = d).
  { unfold m. cbn [app jget]. eval_eqb. destruct d as [d|]; cbn [field app jget]; eval_eqb; [done|]. by destruct r. }
  cbn [mbind option_bind]. rewrite Ht. cbn [mbind option_bind]. rewrite Hb. cbn [mbind option_bind]. rewrite Hf. cbn [mbind option_bind]. rewrite Hd. by destruct b, r.
Qed.
(** A value that is written as JSON, as the default of a column is, is read
    back with the type that its type's name stands for and with the same data,
    but for binary data, which is the text of it in base64. *)
Lemma UnmarshalJSON_value_json `{GoRuntime} `{JSONRuntime} no_time v : plain_value v ->
  exists j, value_json v = Ok j /\ UnmarshalJSON no_time j = Some (reread v).
Proof.
  intros Hv. destruct Hv as [d ref|k n Hn|s m e|d s Hd|b|b|id size Hpos Hid Hsz].
  - eexists. split; [reflexivity|]. exact (unmarshal_written no_time d None true None ltac:(done)).
  - eexists. split; [reflexivity|]. etransitivity; [exact (unmarshal_written no_time TypeInt (Some (JInt n)) false None ltac:(done))|].
    rewrite ParseDataType_String. apply Z.eqb_eq in Hn. unfold reread. cbn [Type_ Data IsNull BlobRefOf]. rewrite ParseDataType_String. cbn -[float_to_int64 float_of_Z]. by rewrite Hn.
  - eexists. split; [reflexivity|]. etransitivity; [exact (unmarshal_written no_time TypeFloat (Some (JFloat (S754_finite s m e))) false None ltac:(done))|].
    unfold reread. cbn [Type_ Data IsNull BlobRefOf NewFloatValue]. by rewrite ParseDataType_String.
  - unfold one_of in Hd. cbn in Hd. repeat (apply orb_true_iff in Hd as [Hd%Z.eqb_eq|Hd]; [subst d|]); [..|done].
    all: eexists; split; [reflexivity|]; etransitivity; [exact (unmarshal_written no_time _ (Some (JStr s)) false None ltac:(done))|].
    all: unfold reread; cbn [Type_ Data IsNull BlobRefOf]; by rewrite ParseDataType_String.
  - eexists. split; [reflexivity|]. etransitivity; [exact (unmarshal_written no_time TypeBlob (Some (JStr (base64_encode b))) false None ltac:(done))|].
    unfold reread. cbn [Type_ Data IsNull BlobRefOf NewBlobValue]. by rewrite ParseDataType_String.
  - eexists. split; [reflexivity|]. etransitivity; [exact (unmarshal_written no_time TypeImage (Some (JStr (base64_encode b))) false None ltac:(done))|].
    unfold reread. cbn [Type_ Data IsNull BlobRefOf NewImageValue]. by rewrite ParseDataType_String.
  - eexists. split; [reflexivity|]. etransitivity; [apply (unmarshal_written no_time TypeBlob None false (Some {| ID := id; Size := size |}))|done].
    intros x [= <-]. cbn [ID Size]. split; [by apply float_exact_u_range|by apply float_exact_range].
Qed.
