(* ===== verification/Wal.v ===== *)
(** * The write-ahead log (src/storage/wal.go)

    Records are framed by a header of 16 bytes: sequence number, length and
    checksum of the data. The file is its bytes; the JSON text of a record
    is left to encoding/json ([RecordJSON]). *)

From S2P Require Import Prelude GoLib Types Crypto Json.
Local Open Scope Z_scope.

Definition WALTypeBegin : Z := 0.
Definition WALTypeInsert : Z := 1.
Definition WALTypeUpdate : Z := 2.
Definition WALTypeDelete : Z := 3.
Definition WALTypeCreateTable : Z := 4.
Definition WALTypeDropTable : Z := 5.
Definition WALTypeCommit : Z := 6.
Definition WALTypeRollback : Z := 7.
Definition WALTypeCheckpoint : Z := 8.
Definition WALTypeRenameTable : Z := 9.
Definition WALTypeTruncateTable : Z := 10.

Definition WALType_String (t : Z) : bytes :=
  str (if t =? WALTypeBegin then "BEGIN" else if t =? WALTypeInsert then "INSERT"
       else if t =? WALTypeUpdate then "UPDATE" else if t =? WALTypeDelete then "DELETE"
       else if t =? WALTypeCreateTable then "CREATE_TABLE" else if t =? WALTypeDropTable then "DROP_TABLE"
       else if t =? WALTypeCommit then "COMMIT" else if t =? WALTypeRollback then "ROLLBACK"
       else if t =? WALTypeCheckpoint then "CHECKPOINT" else if t =? WALTypeRenameTable then "RENAME_TABLE"
       else if t =? WALTypeTruncateTable then "TRUNCATE_TABLE" else "UNKNOWN").

(** [RData] and [ROldData] are trees; [None] is a nil interface. *)
Record WALRecord := mkRecord {
  RLSN : Z;
  RTxnID : Z;
  RType : Z;
  RTableID : Z;
  RRowID : Z;
  RTimestamp : Z;
  RData : option json;
  ROldData : option json
}.

Record WALHeader := mkWALHeader { HLSN : Z; HLength : Z; HChecksum : Z }.

(** A record as json.Unmarshal gives it: the numbered fields are exact, the
    data are decoded trees, and a JSON null is a nil interface. *)
Definition decoded_opt (o : option json) : option json :=
  match o with
  | Some JNull => None
  | Some j => Some (decoded j)
  | None => None
  end.
Definition decoded_record (r : WALRecord) : WALRecord :=
  mkRecord (RLSN r) (RTxnID r) (RType r) (RTableID r) (RRowID r) (RTimestamp r)
    (decoded_opt (RData r)) (decoded_opt (ROldData r)).

Class RecordJSON := {
  marshal_record : WALRecord -> bytes;
  unmarshal_record : bytes -> option WALRecord
}.

(** The clock and the random source, at each sequence number. *)
Class Environment := {
  nanos_at : Z -> Z;
  rand_at : Z -> nat -> byte
}.

Inductive WALError := ReadHeaderFailed | ReadDataFailed | UnmarshalFailed.

(** ** Framing *)

Definition put_header (h : WALHeader) : bytes :=
  put_le 8 (HLSN h) ++ put_le 4 (HLength h) ++ put_le 4 (HChecksum h).
Definition get_header (b : bytes) : WALHeader :=
  mkWALHeader (get_le (slice 0 8 b)) (get_le (slice 8 12 b)) (get_le (slice 12 16 b)).

Definition frame (lsn : Z) (data : bytes) : bytes :=
  put_header (mkWALHeader lsn (u32 (zlen data)) (crc32_ieee data)) ++ data.

Record WAL := mkWAL {
  wfile : option bytes;               (* None: not open *)
  wlsn : Z;
  wenabled : bool;
  wencryptor : option Encryptor
}.

(** The headers in the file; a seek past the end succeeds, and the next read
    finds the end of the file. *)
Fixpoint last_lsn (fuel : nat) (f : bytes) (maxLSN : Z) : outcome WALError Z :=
  match fuel with
  | O => Hang
  | S n =>
    match f with
    | [] => Ok maxLSN
    | _ => if (length f <? 16)%nat then Err ReadHeaderFailed
           else let h := get_header (take 16 f) in
                last_lsn n (drop (Z.to_nat (HLength h)) (drop 16 f)) (Z.max maxLSN (HLSN h))
    end
  end.

Definition readLastLSN (f : bytes) : outcome WALError Z := last_lsn (S (length f)) f 0.

(** The file is opened, or created empty. *)
Definition NewWAL (path_set : bool) (contents : bytes) : WAL :=
  if path_set then
    mkWAL (Some contents) (match readLastLSN contents with Ok n => n | _ => 0 end) true None
  else mkWAL None 0 false None.

Section Log.
Context `{RecordJSON} `{Environment}.

Definition Write (record : WALRecord) (w : WAL) : outcome WALError Z * WAL :=
  match wenabled w, wfile w with
  | true, Some f =>
    let lsn := u64 (wlsn w + 1) in
    let record := mkRecord lsn (RTxnID record) (RType record) (RTableID record) (RRowID record)
                    (nanos_at lsn) (RData record) (ROldData record) in
    let data := marshal_record record in
    let data := match wencryptor w with
                | Some _ => default [] (EncryptData (rand_at lsn) (Some data) [])
                | None => data
                end in
    (Ok lsn, mkWAL (Some (f ++ frame lsn data)) lsn true (wencryptor w))
  | _, _ => (Ok 0, w)
  end.

(** The records up to the end of the file or the first that is corrupted or
    does not decrypt. *)
Fixpoint read_records (fuel : nat) (enc : option Encryptor) (f : bytes) : outcome WALError (list WALRecord) :=
  match fuel with
  | O => Hang
  | S n =>
    match f with
    | [] => Ok []
    | _ =>
      if (length f <? 16)%nat then Err ReadHeaderFailed
      else
        let h := get_header (take 16 f) in
        let f := drop 16 f in
        let len := Z.to_nat (HLength h) in
        if (length f <? len)%nat then Err ReadDataFailed
        else
          let data := take len f in
          if negb (crc32_ieee data =? HChecksum h) then Ok []
          else
            let plain := match enc with
                         | None => Some data
                         | Some e => match Decrypt e (Some data) with
                                     | Ok d => Some (default [] d)
                                     | _ => None
                                     end
                         end in
            match plain with
            | None => Ok []
            | Some data =>
              match unmarshal_record data with
              | None => Err UnmarshalFailed
              | Some r => rs ← read_records n enc (drop len f); Ok (r :: rs)
              end
            end
    end
  end.

Definition ReadAll (w : WAL) : outcome WALError (list WALRecord) :=
  match wenabled w, wfile w with
  | true, Some f => read_records (S (length f)) (wencryptor w) f
  | _, _ => Ok []
  end.

Definition Truncate (w : WAL) : WAL :=
  match wenabled w, wfile w with
  | true, Some _ => mkWAL (Some []) 0 true (wencryptor w)
  | _, _ => w
  end.

Definition SetEncryptor (e : option Encryptor) (w : WAL) : WAL :=
  mkWAL (wfile w) (wlsn w) (wenabled w) e.
Definition CurrentLSN (w : WAL) : Z := wlsn w.
End Log.

(** ** Lemmas *)

Section Reading.
Context `{RecordJSON} `{Environment}.

Definition decrypted (enc : option Encryptor) (data : bytes) : option bytes :=
  match enc with
  | None => Some data
  | Some e => match Decrypt e (Some data) with Ok d => Some (default [] d) | _ => None end
  end.

(** A framed record that reads as [r]. *)
Definition readable (enc : option Encryptor) (e : Z * bytes) (r : WALRecord) : Prop :=
  in_u64 e.1 /\ zlen e.2 < 2 ^ 32 /\
  exists p, decrypted enc e.2 = Some p /\ unmarshal_record p = Some r.

Definition frames (es : list (Z * bytes)) : bytes := concat (map (fun e => frame e.1 e.2) es).

Lemma length_put_header h : length (put_header h) = 16%nat.
Proof. unfold put_header. by rewrite !length_app, !length_put_le. Qed.

Lemma get_put_header h : in_u64 (HLSN h) -> in_u32 (HLength h) -> in_u32 (HChecksum h) ->
  get_header (put_header h) = h.
Proof.
  intros. destruct h as [l n c]. unfold get_header, put_header. cbn [HLSN HLength HChecksum] in *. f_equal.
  - rewrite slice_field. by apply get_put_u64.
  - rewrite slice_skip_field by lia. cbn [Nat.sub]. rewrite slice_field. by apply get_put_u32.
  - rewrite !slice_skip_field by lia. cbn [Nat.sub].
    rewrite slice_full by apply length_put_le. by apply get_put_u32.
Qed.

Lemma length_frame lsn data : length (frame lsn data) = (16 + length data)%nat.
Proof. unfold frame. by rewrite length_app, length_put_header. Qed.

Lemma take_frame lsn data tail : take 16 (frame lsn data ++ tail) = put_header (mkWALHeader lsn (u32 (zlen data)) (crc32_ieee data)).
Proof. unfold frame. rewrite <- app_assoc. by rewrite take_app_length' by (symmetry; apply length_put_header). Qed.

Lemma drop_frame lsn data tail : drop 16 (frame lsn data ++ tail) = data ++ tail.
Proof. unfold frame. rewrite <- app_assoc. by rewrite drop_app_length' by (symmetry; apply length_put_header). Qed.

Lemma header_of_frame lsn data tail : in_u64 lsn -> zlen data < 2 ^ 32 ->
  get_header (take 16 (frame lsn data ++ tail)) = mkWALHeader lsn (zlen data) (crc32_ieee data).
Proof.
  intros Hl Hd. pose proof (zlen_nonneg data). rewrite take_frame, get_put_header.
  - f_equal. apply u32_small. unfold in_u32. lia.
  - done.
  - apply u32_range.
  - apply crc32_range.
Qed.

Lemma frame_cons lsn data tail : exists b l, frame lsn data ++ tail = b :: l.
Proof.
  assert (Hl : (0 < length (frame lsn data ++ tail))%nat) by (rewrite length_app, length_frame; lia).
  destruct (frame lsn data ++ tail) as [|b l]; [cbn in Hl; lia|]. by exists b, l.
Qed.

Lemma read_frame n enc lsn data r tail : readable enc (lsn, data) r ->
  read_records (S n) enc (frame lsn data ++ tail) = (rs ← read_records n enc tail; Ok (r :: rs)).
Proof.
  intros (Hl & Hd & p & Hp & Hr). cbn [fst snd] in *. cbn [read_records].
  destruct (frame_cons lsn data tail) as (b & l & Heq). rewrite Heq, <- Heq.
  rewrite header_of_frame, drop_frame by done. cbn [HLSN HLength HChecksum].
  replace (Z.to_nat (zlen data)) with (length data) by (unfold zlen; lia).
  rewrite !length_app, length_frame.
  destruct (Nat.ltb_spec (16 + length data + length tail) 16); [lia|].
  destruct (Nat.ltb_spec (length data + length tail) (length data)); [lia|].
  rewrite take_app_length, drop_app_length, Z.eqb_refl. cbn [negb].
  change (match enc with None => Some data | Some e => _ end) with (decrypted enc data).
  by rewrite Hp, Hr.
Qed.

Lemma read_frames es rs enc n tail : Forall2 (readable enc) es rs ->
  read_records (length es + n) enc (frames es ++ tail) = (rs' ← read_records n enc tail; Ok (rs ++ rs')).
Proof.
  induction 1 as [|[lsn data] r es rs Hr _ IH].
  - cbn. by destruct (read_records n enc tail).
  - cbn [length Nat.add]. unfold frames in *. cbn [map concat fst snd]. rewrite <- app_assoc.
    rewrite (read_frame _ _ _ _ _ _ Hr), IH. cbn [mbind outcome_bind].
    by destruct (read_records n enc tail).
Qed.

Lemma length_frames es : (16 * length es <= length (frames es))%nat.
Proof.
  induction es as [|[lsn data] es IH]; [cbn; lia|]. unfold frames in *. cbn [map concat length fst snd].
  rewrite length_app, length_frame. lia.
Qed.

(** Reading a file that starts with readable records. *)
Lemma read_all_prefix enc es rs tail : Forall2 (readable enc) es rs ->
  exists n, (length tail <= n)%nat /\
    read_records (S (length (frames es ++ tail))) enc (frames es ++ tail) =
    (rs' ← read_records (S n) enc tail; Ok (rs ++ rs')).
Proof.
  intros Hr. exists (length (frames es ++ tail) - length es)%nat. pose proof (length_frames es).
  rewrite length_app. split; [lia|].
  rewrite <- (read_frames es rs enc _ tail Hr). f_equal. lia.
Qed.

(** A frame that was cut short. *)
Lemma read_torn n enc lsn data k : in_u64 lsn -> zlen data < 2 ^ 32 ->
  (0 < k < 16 + length data)%nat ->
  read_records (S n) enc (take k (frame lsn data)) = Err (if (k <? 16)%nat then ReadHeaderFailed else ReadDataFailed).
Proof.
  intros Hl Hd Hk. cbn [read_records].
  assert (Hlen : length (take k (frame lsn data)) = k) by (rewrite length_take, length_frame; lia).
  destruct (take k (frame lsn data)) as [|b l] eqn:Heq; [cbn in Hlen; lia|]. rewrite <- Heq in *.
  rewrite Hlen. destruct (Nat.ltb_spec k 16); [done|].
  assert (Hh : take 16 (take k (frame lsn data)) = take 16 (frame lsn data ++ [])).
  { rewrite take_take, app_nil_r. f_equal. lia. }
  rewrite Hh, header_of_frame by done. cbn [HLength].
  rewrite length_drop, Hlen. replace (Z.to_nat (zlen data)) with (length data) by (unfold zlen; lia).
  destruct (Nat.ltb_spec (k - 16) (length data)); [done|lia].
Qed.
End Reading.

(** ** Histories of a log *)

Section History.
Context `{RecordJSON} `{Environment}.

(** A record as [Write] completes it. *)
Definition stamped (lsn : Z) (r : WALRecord) : WALRecord :=
  mkRecord lsn (RTxnID r) (RType r) (RTableID r) (RRowID r) (nanos_at lsn) (RData r) (ROldData r).

Fixpoint write_all (rs : list WALRecord) (w : WAL) : WAL :=
  match rs with
  | [] => w
  | r :: rest => write_all rest (Write r w).2
  end.

(** The records written from sequence number [lsn + 1] on. *)
Fixpoint numbered (lsn : Z) (rs : list WALRecord) : list WALRecord :=
  match rs with
  | [] => []
  | r :: rest => stamped (u64 (lsn + 1)) r :: numbered (u64 (lsn + 1)) rest
  end.

(** JSON reads back the record, whose text is neither empty nor too long. *)
Definition json_ok (r : WALRecord) : Prop :=
  unmarshal_record (marshal_record r) = Some (decoded_record r) /\
  0 < zlen (marshal_record r) < 2 ^ 32 - 20.

(** The encryptor of a log: none, or one for the code that [Write] uses. *)
Definition same_code (enc : option Encryptor) : Prop :=
  match enc with None => True | Some e => code_or_default (code e) = code_or_default [] end.

Lemma decrypt_default rand data c : data <> [] -> code_or_default c = code_or_default [] ->
  DecryptData (EncryptData rand (Some data) []) c = Ok (Some data).
Proof.
  intros Hne Hc. rewrite <- (decrypt_encrypt_ok rand data [] Hne).
  unfold EncryptData, DecryptData. rewrite Hc. by destruct data.
Qed.

Lemma zlen_encrypted rand data c : data <> [] ->
  zlen (default [] (EncryptData rand (Some data) c)) <= zlen data + 14.
Proof.
  intros Hne. destruct data as [|b data]; [done|]. unfold EncryptData. cbv zeta.
  cbn [default from_option id]. simpl_len. unfold zlen. rewrite length_random, length_enc_bytes.
  pose proof (add_len_le (code_or_default c)). cbn [length]. change (Z.of_nat (length MagicTXDEF)) with 8. lia.
Qed.

Lemma write_readable w r f : wenabled w = true -> wfile w = Some f -> same_code (wencryptor w) ->
  let lsn := u64 (wlsn w + 1) in
  json_ok (stamped lsn r) ->
  exists data, Write r w = (Ok lsn, mkWAL (Some (f ++ frame lsn data)) lsn true (wencryptor w)) /\
    readable (wencryptor w) (lsn, data) (decoded_record (stamped lsn r)).
Proof.
  intros He Hf Hc lsn [Hj Hl]. unfold Write. rewrite He, Hf. cbv zeta. fold lsn. fold (stamped lsn r).
  assert (Hne : marshal_record (stamped lsn r) <> []) by (intros E; rewrite E in Hl; by destruct Hl).
  eexists. split; [reflexivity|]. split; [apply u64_range|]. cbn [fst snd].
  destruct (wencryptor w) as [e|]; cbn [decrypted].
  - pose proof (zlen_encrypted (rand_at lsn) _ [] Hne). split; [lia|].
    exists (marshal_record (stamped lsn r)). split; [|exact Hj].
    pose proof (decrypt_default (rand_at lsn) _ (code e) Hne Hc) as Hd.
    unfold Decrypt. destruct (EncryptData _ _ []) as [d|] eqn:E;
      [cbn [from_option id]; by rewrite Hd|].
    by destruct (marshal_record (stamped lsn r)).
  - split; [lia|]. by exists (marshal_record (stamped lsn r)).
Qed.

Lemma write_all_frames rs : forall w es rs0,
  wenabled w = true -> wfile w = Some (frames es) -> same_code (wencryptor w) ->
  Forall2 (readable (wencryptor w)) es rs0 -> Forall json_ok (numbered (wlsn w) rs) ->
  exists es', wfile (write_all rs w) = Some (frames es') /\ wenabled (write_all rs w) = true /\
    wencryptor (write_all rs w) = wencryptor w /\
    Forall2 (readable (wencryptor w)) es' (rs0 ++ map decoded_record (numbered (wlsn w) rs)).
Proof.
  induction rs as [|r rs IH]; intros w es rs0 He Hf Hc Hes Hj.
  { exists es. cbn. by rewrite app_nil_r. }
  cbn [numbered] in *. apply Forall_cons in Hj as [Hr Hj].
  destruct (write_readable w r _ He Hf Hc Hr) as (data & E & Hd).
  set (lsn := u64 (wlsn w + 1)) in *. set (w' := mkWAL _ lsn true (wencryptor w)) in E.
  destruct (IH w' (es ++ [(lsn, data)]) (rs0 ++ [decoded_record (stamped lsn r)])) as (es' & H1 & H2 & H3 & H4).
  - done.
  - unfold w'. cbn [wfile]. unfold frames. rewrite map_app, concat_app. cbn [map concat fst snd].
    by rewrite app_nil_r.
  - exact Hc.
  - apply Forall2_app; [done|]. by constructor.
  - exact Hj.
  - exists es'. cbn [write_all]. rewrite E. cbn [snd]. split; [done|]. split; [done|]. split; [done|].
    cbn [wencryptor w' wlsn] in H4. rewrite <- app_assoc in H4. exact H4.
Qed.

(** C31: reading a log that is not encrypted, or encrypted for the default
    code, gives back the records written to it, in order, numbered from one
    and with their times, with their data as JSON decodes them, when JSON
    reads back what it wrote of these records. *)
Theorem ReadAll_Write enc rs :
  same_code enc -> Forall json_ok (numbered 0 rs) ->
  ReadAll (write_all rs (SetEncryptor enc (NewWAL true []))) = Ok (map decoded_record (numbered 0 rs)).
Proof.
  intros Hc Hj. set (w := SetEncryptor enc (NewWAL true [])).
  destruct (write_all_frames rs w [] []) as (es & Hf & He & Hw & Hes); [done..|].
  unfold ReadAll. rewrite He, Hf, Hw. change (wencryptor w) with enc in *.
  destruct (read_all_prefix enc es _ [] Hes) as (n & _ & E). rewrite app_nil_r in E. rewrite E.
  cbn [read_records mbind outcome_bind]. by rewrite app_nil_r.
Qed.

(** A log whose last record was not completely written is not
    read at all: the records before it are lost with it. *)
Theorem torn_record_loses_log enc es rs lsn data k w :
  Forall2 (readable enc) es rs -> in_u64 lsn -> zlen data < 2 ^ 32 ->
  (0 < k < 16 + length data)%nat ->
  wenabled w = true -> wencryptor w = enc -> wfile w = Some (frames es ++ take k (frame lsn data)) ->
  ReadAll w = Err (if (k <? 16)%nat then ReadHeaderFailed else ReadDataFailed).
Proof.
  intros Hes Hl Hd Hk He Hw Hf. unfold ReadAll. rewrite He, Hf, Hw.
  destruct (read_all_prefix enc es rs (take k (frame lsn data)) Hes) as (n & _ & E).
  by rewrite E, read_torn.
Qed.

(** A record whose data do not match its checksum ends the
    log: the records before it are read. *)
Theorem corrupt_record_ends_log enc es rs lsn data data' tail w :
  Forall2 (readable enc) es rs -> in_u64 lsn -> zlen data < 2 ^ 32 -> length data' = length data ->
  crc32_ieee data' <> crc32_ieee data ->
  wenabled w = true -> wencryptor w = enc ->
  wfile w = Some (frames es ++ take 16 (frame lsn data) ++ data' ++ tail) ->
  ReadAll w = Ok rs.
Proof.
  intros Hes Hl Hd Hlen Hcrc He Hw Hf. unfold ReadAll. rewrite He, Hf, Hw.
  destruct (read_all_prefix enc es rs (take 16 (frame lsn data) ++ data' ++ tail) Hes) as (n & _ & E).
  rewrite E. cbn [read_records].
  pose proof (take_frame lsn data []) as Ht. rewrite app_nil_r in Ht.
  assert (Hh : get_header (take 16 (take 16 (frame lsn data) ++ data' ++ tail)) =
               mkWALHeader lsn (zlen data) (crc32_ieee data)).
  { rewrite Ht, take_app_length' by (symmetry; apply length_put_header).
    rewrite <- (header_of_frame lsn data [] Hl Hd). by rewrite take_frame. }
  assert (Hdr : drop 16 (take 16 (frame lsn data) ++ data' ++ tail) = data' ++ tail).
  { by rewrite Ht, drop_app_length' by (symmetry; apply length_put_header). }
  destruct (take 16 (frame lsn data) ++ data' ++ tail) as [|b l] eqn:Heq; [cbn; by rewrite app_nil_r|].
  rewrite <- Heq in *. rewrite Hh, Hdr. cbn [HLength HChecksum].
  replace (Z.to_nat (zlen data)) with (length data') by (unfold zlen; lia).
  assert (Hl16 : length (take 16 (frame lsn data)) = 16%nat) by (rewrite Ht; apply length_put_header).
  rewrite !length_app, Hl16.
  destruct (Nat.ltb_spec (16 + (length data' + length tail)) 16); [lia|].
  destruct (Nat.ltb_spec (length data' + length tail) (length data')); [lia|].
  rewrite take_app_length, (proj2 (Z.eqb_neq _ _) Hcrc). cbn. by rewrite app_nil_r.
Qed.
End History.

(** ** Witnesses *)

(** A text for records that carry no data. *)
Definition plain_records : RecordJSON := {|
  marshal_record r := put_le 8 (RLSN r) ++ put_le 8 (RTxnID r) ++ put_le 8 (RType r)
    ++ put_le 8 (RTableID r) ++ put_le 8 (RRowID r) ++ put_le 8 (RTimestamp r);
  unmarshal_record d :=
    let f i := get_le (slice (8 * i) (8 * i + 8) d) in
    Some (mkRecord (f 0%nat) (f 1%nat) (f 2%nat) (f 3%nat) (f 4%nat) (f 5%nat) None None)
|}.

Definition plain_environment : Environment :=
  {| nanos_at n := 1000 + n; rand_at n i := byte.of_Z (n + Z.of_nat i) |}.

#[local] Existing Instance plain_records.
#[local] Existing Instance plain_environment.

Definition sample_records : list WALRecord :=
  [mkRecord 0 0 WALTypeInsert 1 7 0 None None; mkRecord 0 3 WALTypeCommit 0 0 0 None None].

Lemma sample_json_ok : Forall json_ok (numbered 0 sample_records).
Proof. repeat constructor. Qed.

Theorem ReadAll_Write_witness :
  ReadAll (write_all sample_records (SetEncryptor (Some (NewEncryptor [] None)) (NewWAL true []))) =
  Ok [mkRecord 1 0 WALTypeInsert 1 7 1001 None None; mkRecord 2 3 WALTypeCommit 0 0 1002 None None].
Proof.
  exact (ReadAll_Write (Some (NewEncryptor [] None)) sample_records eq_refl sample_json_ok).
Defined.

Definition sample_entry : Z * bytes := (1, marshal_record (stamped 1 (mkRecord 0 0 WALTypeInsert 1 7 0 None None))).

Lemma sample_readable :
  Forall2 (readable None) [sample_entry] [mkRecord 1 0 WALTypeInsert 1 7 1001 None None].
Proof.
  constructor; [|constructor]. split; [done|]. split; [done|]. eexists. split; reflexivity.
Qed.

Theorem torn_record_loses_log_witness :
  ReadAll (mkWAL (Some (frames [sample_entry] ++ take 20 (frame 2 sample_entry.2))) 1 true None) =
  Err ReadDataFailed.
Proof.
  apply (torn_record_loses_log None [sample_entry] _ 2 sample_entry.2 20 _ sample_readable);
    [split; done|done|split; by apply Nat.ltb_lt|done..].
Defined.

Theorem corrupt_record_ends_log_witness :
  ReadAll (mkWAL (Some (frames [sample_entry] ++ take 16 (frame 2 (str "abc")) ++ str "abd" ++ [])) 1 true None) =
  Ok [mkRecord 1 0 WALTypeInsert 1 7 1001 None None].
Proof.
  apply (corrupt_record_ends_log None [sample_entry] _ 2 (str "abc") (str "abd") [] _ sample_readable);
    [split; done|done|done|by vm_compute|done..].
Defined.
