(* ===== verification/Storage.v ===== *)
(** * The storage engine (src/storage/storage.go, update_callback.go, delete_callback.go)

    Tables, sequences and rows. A persistent storage keeps the rows of a
    table in its table file; an in-memory storage, and a persistent one for
    tables that have no file, keep them in maps. Operations run in a state
    monad over the whole storage. Errors of the file system are not
    modelled, except those the code makes itself. *)

From S2P Require Import Prelude GoLib Types RowCodec Page PageCache TableFile Crypto Json Wal.
Local Open Scope Z_scope.

(** The table record of the storage. *)
Record STable := mkSTable { info : TableInfo; DataFile : bytes }.

(** What the metadata file holds: the rows as trees. *)
Record Metadata := mkMeta {
  m_tables : gmap bytes STable;
  m_sequences : gmap bytes Z;
  m_nextID : Z;
  m_rows : gmap bytes (list (Z * list json));
  m_encrypted : bool
}.

Record Storage := mkStorage {
  enabled : bool;
  tables : gmap bytes STable;
  sequences : gmap bytes Z;
  snextID : Z;
  tableFiles : gmap bytes TableFile;
  disk : gmap bytes (list bytes);            (* data/<name>.db *)
  pageCache : PageCache PageV2;
  rowData : gmap bytes (list (list Value));
  rowIDs : gmap bytes (list Z);
  walFile : option bytes;
  walSeq : Z;
  encryptor : option Encryptor;              (* set and enabled *)
  blobs : gmap Z bytes;                      (* the blob files, by identifier *)
  blobThreshold : Z;
  skipSave : bool;
  metadata : option Metadata                 (* the metadata file *)
}.

Inductive StorageError :=
  | TableExists | NoTable | ValueTooLong (column : bytes) | NullColumn (column : bytes)
  | InTableFile (e : TFError) | InWAL (e : WALError) | MarshalError | NoBlob | MemoryMode.

Abbreviation SM := (SO Storage StorageError).

Definition set_tables x s := mkStorage (enabled s) x (sequences s) (snextID s) (tableFiles s) (disk s) (pageCache s) (rowData s) (rowIDs s) (walFile s) (walSeq s) (encryptor s) (blobs s) (blobThreshold s) (skipSave s) (metadata s).
Definition set_sequences x s := mkStorage (enabled s) (tables s) x (snextID s) (tableFiles s) (disk s) (pageCache s) (rowData s) (rowIDs s) (walFile s) (walSeq s) (encryptor s) (blobs s) (blobThreshold s) (skipSave s) (metadata s).
Definition set_snextID x s := mkStorage (enabled s) (tables s) (sequences s) x (tableFiles s) (disk s) (pageCache s) (rowData s) (rowIDs s) (walFile s) (walSeq s) (encryptor s) (blobs s) (blobThreshold s) (skipSave s) (metadata s).
Definition set_tableFiles x s := mkStorage (enabled s) (tables s) (sequences s) (snextID s) x (disk s) (pageCache s) (rowData s) (rowIDs s) (walFile s) (walSeq s) (encryptor s) (blobs s) (blobThreshold s) (skipSave s) (metadata s).
Definition set_disk x s := mkStorage (enabled s) (tables s) (sequences s) (snextID s) (tableFiles s) x (pageCache s) (rowData s) (rowIDs s) (walFile s) (walSeq s) (encryptor s) (blobs s) (blobThreshold s) (skipSave s) (metadata s).
Definition set_pageCache x s := mkStorage (enabled s) (tables s) (sequences s) (snextID s) (tableFiles s) (disk s) x (rowData s) (rowIDs s) (walFile s) (walSeq s) (encryptor s) (blobs s) (blobThreshold s) (skipSave s) (metadata s).
Definition set_rowData x s := mkStorage (enabled s) (tables s) (sequences s) (snextID s) (tableFiles s) (disk s) (pageCache s) x (rowIDs s) (walFile s) (walSeq s) (encryptor s) (blobs s) (blobThreshold s) (skipSave s) (metadata s).
Definition set_rowIDs x s := mkStorage (enabled s) (tables s) (sequences s) (snextID s) (tableFiles s) (disk s) (pageCache s) (rowData s) x (walFile s) (walSeq s) (encryptor s) (blobs s) (blobThreshold s) (skipSave s) (metadata s).
Definition set_wal f n s := mkStorage (enabled s) (tables s) (sequences s) (snextID s) (tableFiles s) (disk s) (pageCache s) (rowData s) (rowIDs s) f n (encryptor s) (blobs s) (blobThreshold s) (skipSave s) (metadata s).
Definition set_blobs x s := mkStorage (enabled s) (tables s) (sequences s) (snextID s) (tableFiles s) (disk s) (pageCache s) (rowData s) (rowIDs s) (walFile s) (walSeq s) (encryptor s) x (blobThreshold s) (skipSave s) (metadata s).
Definition set_skipSave x s := mkStorage (enabled s) (tables s) (sequences s) (snextID s) (tableFiles s) (disk s) (pageCache s) (rowData s) (rowIDs s) (walFile s) (walSeq s) (encryptor s) (blobs s) (blobThreshold s) x (metadata s).
Definition set_metadata x s := mkStorage (enabled s) (tables s) (sequences s) (snextID s) (tableFiles s) (disk s) (pageCache s) (rowData s) (rowIDs s) (walFile s) (walSeq s) (encryptor s) (blobs s) (blobThreshold s) (skipSave s) x.

(** An empty storage, in memory or with an open log. *)
Definition NewStorage (persistent : bool) (threshold : Z) : Storage :=
  mkStorage persistent ∅ ∅ 1 ∅ ∅ (NewPageCache DefaultPageCacheConfig) ∅ ∅
    (if persistent then Some [] else None) 0 None ∅ threshold false None.

(** Run a table file operation: the page cache and the identifier counter
    are those of the storage, the blocks those of the file on disk, if its
    name is still there. *)
Definition run_tf {A} (name : bytes) (tf : TableFile) (m : TF A) : SM A := fun s =>
  let '(r, tf') := m (set_nextID (snextID s) (set_cache (Some (pageCache s)) tf)) in
  let s := set_tableFiles (<[name:=tf']> (tableFiles s)) s in
  let s := set_pageCache (default (pageCache s) (cache tf')) s in
  let s := set_snextID (nextID tf') s in
  let s := set_disk (alter (fun _ => file tf') name (disk s)) s in
  (match r with Ok a => Ok a | Err e => Err (InTableFile e) | Panic => Panic | Hang => Hang end, s).

(** Consume an identifier. *)
Definition next_id : SM Z :=
  n ← gets snextID; modify (set_snextID (u64 (n + 1)));; mret n.

Definition get_table (name : bytes) : SM STable :=
  s ← gets tables;
  match s !! name with Some t => mret t | None => fail NoTable end.

Definition change_info (name : bytes) (f : TableInfo -> TableInfo) : SM unit :=
  modify (fun s => set_tables (alter (fun t => mkSTable (f (info t)) (DataFile t)) name (tables s)) s).

Definition set_rowcount (n : Z) (t : TableInfo) : TableInfo := mkTable (TID t) (TName t) (Columns t) n.

Definition is_auto (c : ColumnDef) : bool := AutoInc c || (CType c =? TypeSeq).

Definition seq_key (table column : bytes) : bytes := table ++ str "_" ++ column.

(** ** The log and the metadata file *)

Section Engine.
Context `{GoRuntime} `{JSONRuntime} `{RecordJSON} `{Environment} `{ColumnJSON}.

(** A failed json.Marshal. *)
Definition marshalled {A} (m : outcome unit A) : SM A :=
  match m with
  | Ok a => mret a
  | Err _ => fail MarshalError
  | Panic => lift Panic
  | Hang => lift Hang
  end.

Definition row_json (row : list Value) : outcome unit (option json) :=
  js ← values_json row; Ok (Some (JArr js)).

Definition no_data : outcome unit (option json) := Ok None.

Definition writeWAL (type txn tableID rowID : Z) (data oldData : outcome unit (option json)) : SM unit :=
  s ← gets (fun s => s);
  match enabled s, walFile s with
  | true, Some f =>
    let lsn := u64 (walSeq s + 1) in
    modify (set_wal (Some f) lsn);;
    d ← marshalled data;
    o ← marshalled oldData;
    let text := marshal_record (mkRecord lsn txn type tableID rowID (nanos_at lsn) d o) in
    let text := match encryptor s with
                | Some e => default [] (Encrypt (rand_at lsn) e (Some text))
                | None => text
                end in
    modify (set_wal (Some (f ++ frame lsn text)) lsn)
  | _, _ => mret tt
  end.

(** The raw value that the metadata file holds for a value. *)
Definition raw_json (v : Value) : outcome unit json :=
  if IsNull v then Ok JNull
  else match BlobRefOf v with
       | Some r => Ok (JArr [JInt 1; JInt (ID r); JInt (Types.Size r)])
       | None => d ← data_json (Data v); Ok (default JNull d)
       end.

Fixpoint raw_row (row : list Value) : outcome unit (list json) :=
  match row with
  | [] => Ok []
  | v :: rest => j ← raw_json v; js ← raw_row rest; Ok (j :: js)
  end.

(** The rows of a table with their identifiers. *)
Fixpoint raw_rows (rows : list (list Value)) (ids : list Z) : outcome unit (list (Z * list json)) :=
  match rows, ids with
  | [], _ => Ok []
  | _, [] => Panic
  | row :: rows, id :: ids => js ← raw_row row; rest ← raw_rows rows ids; Ok ((id, js) :: rest)
  end.

Definition raw_tables (s : Storage) : outcome unit (gmap bytes (list (Z * list json))) :=
  map_fold (fun name rows acc =>
    m ← acc; r ← raw_rows rows (default [] (rowIDs s !! name)); Ok (<[name:=r]> m)) (Ok ∅) (rowData s).

(** [encrypted] is what the file says of its encryption. *)
Definition write_tree (encrypted : bool) : SM unit :=
  s ← gets (fun s => s);
  if negb (enabled s) || skipSave s then mret tt
  else
    rows ← marshalled (raw_tables s);
    modify (set_metadata (Some (mkMeta (tables s) (sequences s) (snextID s) rows encrypted))).
(** A storage on its own is encrypted when it has an encryptor; [Keys] has the
    flag that the code keeps apart from it. *)
Definition saveMetadata : SM unit := s ← gets (fun s => s); write_tree (bool_decide (is_Some (encryptor s))).

(** Log and save, as the operations on a persistent storage end. *)
Definition truncateWAL : SM unit :=
  modify (fun s => match walFile s with Some _ => set_wal (Some []) 0 s | None => s end).

Definition SetSkipSave (skip : bool) : SM unit := modify (set_skipSave skip).

Definition ForceSave : SM unit :=
  old ← gets skipSave;
  modify (set_skipSave false);;
  r ← try saveMetadata;
  match r with
  | inr e => modify (set_skipSave old);; fail e
  | inl _ => truncateWAL;; modify (set_skipSave old)
  end.

Definition Checkpoint : SM unit :=
  s ← gets (fun s => s);
  if enabled s then
    saveMetadata;;
    writeWAL WALTypeCheckpoint 0 0 0 no_data no_data;;
    truncateWAL
  else mret tt.

Definition BeginTxn : SM Z :=
  s ← gets (fun s => s);
  modify (set_wal (walFile s) (u64 (walSeq s + 1)));;
  mret (u64 (walSeq s + 1)).
Definition CommitTxn (txnID : Z) : SM unit := writeWAL WALTypeCommit txnID 0 0 no_data no_data.
Definition RollbackTxn (txnID : Z) : SM unit := writeWAL WALTypeRollback txnID 0 0 no_data no_data.

(** ** Tables *)

Definition create_file (name : bytes) (id : Z) (cols : list ColumnDef) : SM TableFile := fun s =>
  match CreateTableFile (disk s !! name) id (Some cols) (Some (pageCache s)) (snextID s) with
  | Ok tf => (Ok tf, set_tableFiles (<[name:=tf]> (tableFiles s)) (set_disk (<[name:=file tf]> (disk s)) s))
  | Err e => (Err (InTableFile e), s)
  | Panic => (Panic, s)
  | Hang => (Hang, s)
  end.

Definition open_file (name : bytes) (blocks : list bytes) : SM TableFile := fun s =>
  match OpenTableFile blocks (Some (pageCache s)) (snextID s) with
  | Ok tf => (Ok tf, set_tableFiles (<[name:=tf]> (tableFiles s)) s)
  | Err e => (Err (InTableFile e), s)
  | Panic => (Panic, s)
  | Hang => (Hang, s)
  end.

Definition reset_sequences (name : bytes) (cols : list ColumnDef) : SM unit :=
  modify (fun s => set_sequences
    (fold_left (fun m c => if is_auto c then <[seq_key name (Name c) := 0]> m else m) cols (sequences s)) s).

Definition CreateTable (name : bytes) (cols : list ColumnDef) : SM TableInfo :=
  s ← gets (fun s => s);
  match tables s !! name with
  | Some _ => fail TableExists
  | None =>
    id ← next_id;
    let t := mkTable id name cols 0 in
    let st := mkSTable t (str "table_" ++ itoa id ++ str ".db") in
    modify (fun s => set_tables (<[name:=st]> (tables s)) s);;
    reset_sequences name cols;;
    (if enabled s then
       _ ← create_file name id cols;
       seq ← gets walSeq;
       let now := nanos_at seq in
       writeWAL WALTypeCreateTable 0 id 0 (j ← table_json t now now (DataFile st); Ok (Some j)) no_data;;
       saveMetadata
     else
       modify (fun s => set_rowIDs (<[name:=[]]> (rowIDs s)) (set_rowData (<[name:=[]]> (rowData s)) s)));;
    mret t
  end.

(** The name, without its extension, of a file of the data directory. *)
Definition strip_ext (file : bytes) : option bytes :=
  let n := (length file - 3)%nat in
  if bool_decide (drop n file = str ".db") then Some (take n file) else None.

Definition DropTable (name : bytes) : SM unit :=
  t ← get_table name;
  s ← gets enabled;
  when (s && negb (bool_decide (DataFile t = [])))
    (modify (fun s => match strip_ext (DataFile t) with
                      | Some base => set_disk (delete base (disk s)) s
                      | None => s
                      end));;
  modify (fun s => set_sequences
    (fold_left (fun m c => if is_auto c then delete (seq_key name (Name c)) m else m)
       (Columns (info t)) (sequences s)) s);;
  modify (fun s => set_rowData (delete name (rowData s)) s);;
  modify (fun s => set_rowIDs (delete name (rowIDs s)) s);;
  modify (fun s => set_tables (delete name (tables s)) s);;
  if s : bool then
    writeWAL WALTypeDropTable 0 (TID (info t)) 0 (Ok (Some (JStr name))) no_data;;
    saveMetadata
  else mret tt.

Definition GetTableInfo (name : bytes) : SM TableInfo := t ← get_table name; mret (info t).

(** Move an entry of a map. *)
Definition move_key {A} (old new : bytes) (m : gmap bytes A) : gmap bytes A :=
  match m !! old with Some x => <[new:=x]> (delete old m) | None => m end.

Definition RenameTable (oldName newName : bytes) : SM unit :=
  t ← get_table oldName;
  s ← gets (fun s => s);
  match tables s !! newName with
  | Some _ => fail TableExists
  | None =>
    let i := info t in
    let t' := mkSTable (mkTable (TID i) newName (Columns i) (Types.RowCount i)) (DataFile t) in
    modify (fun s => set_tables (<[newName:=t']> (delete oldName (tables s))) s);;
    modify (fun s => match tableFiles s !! oldName with
                     | Some _ => set_disk (move_key oldName newName (disk s))
                                   (set_tableFiles (move_key oldName newName (tableFiles s)) s)
                     | None => s
                     end);;
    modify (fun s => set_rowData (move_key oldName newName (rowData s)) s);;
    modify (fun s => set_rowIDs (move_key oldName newName (rowIDs s)) s);;
    modify (fun s => set_sequences
      (fold_left (fun m c => if is_auto c then move_key (seq_key oldName (Name c)) (seq_key newName (Name c)) m else m)
         (Columns i) (sequences s)) s);;
    if enabled s then
      writeWAL WALTypeRenameTable 0 (TID i) 0 (Ok (Some (JStr (oldName ++ str ":" ++ newName)))) no_data;;
      saveMetadata
    else mret tt
  end.

Definition TruncateTable (name : bytes) : SM unit :=
  t ← get_table name;
  s ← gets (fun s => s);
  match tableFiles s !! name with
  | Some tf =>
    run_tf name tf TableFile.Clear;;
    reset_sequences name (Columns (info t));;
    change_info name (set_rowcount 0)
  | None =>
    modify (fun s => set_rowIDs (<[name:=[]]> (rowIDs s)) (set_rowData (<[name:=[]]> (rowData s)) s));;
    reset_sequences name (Columns (info t));;
    change_info name (set_rowcount 0);;
    if enabled s then
      writeWAL WALTypeTruncateTable 0 (TID (info t)) 0 (Ok (Some (JStr name))) no_data;;
      saveMetadata
    else mret tt
  end.
(** ** Blobs *)

Definition store_bytes (e : option Encryptor) (id : Z) (data : bytes) : bytes :=
  match e with
  | Some e => default [] (Encrypt (rand_at id) e (Some data))
  | None => data
  end.

Definition load_bytes (e : option Encryptor) (data : bytes) : bytes :=
  match e with
  | Some e => match Decrypt e (Some data) with Ok d => default [] d | _ => data end
  | None => data
  end.

Definition WriteBlob (data : bytes) : SM Z :=
  s ← gets (fun s => s);
  if enabled s then
    id ← next_id;
    modify (fun s => set_blobs (<[id:=store_bytes (encryptor s) id data]> (blobs s)) s);;
    mret id
  else fail MemoryMode.

Definition read_blob (s : Storage) (blobID : Z) : option bytes :=
  if enabled s then load_bytes (encryptor s) <$> blobs s !! blobID else None.

Definition ReadBlob (blobID : Z) : SM bytes :=
  s ← gets (fun s => s);
  if enabled s then
    match read_blob s blobID with Some d => mret d | None => fail NoBlob end
  else fail MemoryMode.

Definition DeleteBlob (blobID : Z) : SM unit :=
  s ← gets (fun s => s);
  if enabled s then
    match blobs s !! blobID with
    | Some _ => modify (set_blobs (delete blobID (blobs s)))
    | None => fail NoBlob
    end
  else mret tt.

Definition processBlobValue (v : Value) : SM Value :=
  if IsNull v then mret v
  else match Data v with
       | GBytes data =>
         s ← gets (fun s => s);
         if blobThreshold s <? zlen data then
           id ← next_id;
           modify (fun s => set_blobs (<[id:=store_bytes (encryptor s) id data]> (blobs s)) s);;
           mret (NewBlobRefValue id (zlen data))
         else mret v
       | _ => mret v
       end.

Definition resolveBlobRef (s : Storage) (v : Value) : Value :=
  match BlobRefOf v with
  | None => v
  | Some r => match read_blob s (ID r) with
              | Some data => mkValue (Type_ v) (GBytes data) false (Some r)
              | None => v
              end
  end.

(** ** Inserting *)

(** Pad to a number of characters. *)
Definition pad_char (length : Z) (text : bytes) : bytes :=
  of_runes (runes text ++ replicate (Z.to_nat (length - rune_count text)) 32).

(** The checks and the padding that CHAR and VARCHAR columns apply: the
    value, and whether it was padded. *)
Definition fit_value (col : ColumnDef) (v : Value) : outcome StorageError (Value * bool) :=
  let text := ToString v in
  if (CType col =? TypeChar) && (0 <? Length col) && negb (IsNull v) then
    if Length col <? rune_count text then Err (ValueTooLong (Name col))
    else if rune_count text <? Length col then Ok (NewStringValue (pad_char (Length col) text), true)
    else Ok (v, false)
  else if (CType col =? TypeVarchar) && (0 <? Length col) && (Length col <? rune_count text) then
    Err (ValueTooLong (Name col))
  else Ok (v, false).

Definition process_insert (col : ColumnDef) (v : Value) : SM Value :=
  '(v, _) ← lift (fit_value col v);
  if negb (Nullable col) && IsNull v && negb (AutoInc col) && negb (CType col =? TypeSeq) then
    fail (NullColumn (Name col))
  else
    s ← gets (fun s => s);
    if enabled s && (0 <? blobThreshold s) && one_of (CType col) [TypeBlob; TypeImage]
    then processBlobValue v else mret v.

Fixpoint process_row (i : nat) (cols : list ColumnDef) (row : list Value) : SM (list Value) :=
  match cols with
  | [] => mret row
  | col :: rest =>
    match row !! i with
    | None => process_row (S i) rest row
    | Some v => v ← process_insert col v; process_row (S i) rest (<[i:=v]> row)
    end
  end.

(** Fill the auto-increment columns from their sequences. *)
Fixpoint fill_auto (table : bytes) (i : nat) (cols : list ColumnDef) (row : list Value) (last : Z)
  : SM (list Value * Z) :=
  match cols with
  | [] => mret (row, last)
  | col :: rest =>
    if is_auto col then
      let key := seq_key table (Name col) in
      seqs ← gets sequences;
      let n := i64 (default 0 (seqs !! key) + 1) in
      modify (fun s => set_sequences (<[key:=n]> (sequences s)) s);;
      match row !! i with
      | None => lift Panic
      | Some _ => fill_auto table (S i) rest (<[i:=NewIntValue n]> row) n
      end
    else fill_auto table (S i) rest row last
  end.

Definition bump_rows (name : bytes) (d : Z) : SM unit :=
  change_info name (fun i => set_rowcount (i64 (Types.RowCount i + d)) i).

(** The table file of a table: open, or on disk and readable. *)
Definition table_file (name : bytes) : SM (option TableFile) :=
  s ← gets (fun s => s);
  match tableFiles s !! name with
  | Some tf => mret (Some tf)
  | None =>
    match disk s !! name with
    | None => mret None
    | Some blocks =>
      r ← try (open_file name blocks);
      mret (match r with inl tf => Some tf | inr _ => None end)
    end
  end.

(** Append to the rows in memory. *)
Definition append_row (name : bytes) (row : list Value) (rowID : Z) : SM unit :=
  modify (fun s => set_rowIDs (<[name:=default [] (rowIDs s !! name) ++ [rowID]]> (rowIDs s))
                     (set_rowData (<[name:=default [] (rowData s !! name) ++ [row]]> (rowData s)) s)).

Definition InsertRow (tableName : bytes) (row : list Value) : SM (Z * Z) :=
  t ← get_table tableName;
  row ← process_row 0 (Columns (info t)) row;
  '(row, lastInsertID) ← fill_auto tableName 0 (Columns (info t)) row 0;
  rowID ← next_id;
  f ← table_file tableName;
  match f with
  | Some tf =>
    insertedRowID ← run_tf tableName tf (TableFile.InsertRow row);
    bump_rows tableName 1;;
    mret (insertedRowID, lastInsertID)
  | None =>
    s ← gets enabled;
    when s (writeWAL WALTypeInsert 0 (TID (info t)) rowID (row_json row) no_data);;
    append_row tableName row rowID;;
    bump_rows tableName 1;;
    when s saveMetadata;;
    mret (rowID, lastInsertID)
  end.

(** ** Reading *)

Definition GetRowsWithIDs (n : nat) (tableName : bytes) : SM (list (Z * list Value)) :=
  _ ← get_table tableName;
  f ← table_file tableName;
  match f with
  | Some tf =>
    rows ← run_tf tableName tf (GetAllRowsWithIDs n n);
    s ← gets (fun s => s);
    mret (map (fun r => (r.1, map (resolveBlobRef s) r.2)) rows)
  | None =>
    s ← gets (fun s => s);
    match rowData s !! tableName with
    | None => mret []
    | Some rows =>
      let ids := default [] (rowIDs s !! tableName) in
      if (length ids <? length rows)%nat then lift Panic
      else mret (zip_with (fun id row => (id, map (resolveBlobRef s) row)) ids rows)
    end
  end.

Definition GetRows (n : nat) (tableName : bytes) : SM (list (list Value)) :=
  _ ← get_table tableName;
  f ← table_file tableName;
  match f with
  | Some tf =>
    rows ← run_tf tableName tf (GetAllRows n n);
    s ← gets (fun s => s);
    mret (map (map (resolveBlobRef s)) rows)
  | None =>
    s ← gets (fun s => s);
    mret (map (map (resolveBlobRef s)) (default [] (rowData s !! tableName)))
  end.

Definition GetRowsWithoutBlobRefs (tableName : bytes) : SM (list (list Value)) :=
  _ ← get_table tableName;
  s ← gets (fun s => s);
  mret (default [] (rowData s !! tableName)).

(** ** Updating *)

(** The updates of a row, in the order of Go's map iteration. *)
Abbreviation updates := (list (nat * Value)).

(** A function the caller passes, which is run while the storage is locked:
    it may panic, or wait for the lock. *)
Abbreviation callback A := (list Value -> outcome StorageError A).
Definition returning {A} (f : list Value -> A) : callback A := fun row => Ok (f row).

Definition process_update (cols : list ColumnDef) (colIdx : nat) (v : Value) : outcome StorageError Value :=
  match cols !! colIdx with
  | None => Ok v
  | Some col =>
    '(v, padded) ← fit_value col v;
    if negb padded && negb (Nullable col) && IsNull v then Err (NullColumn (Name col)) else Ok v
  end.

(** Assign to a cell of a row in memory. *)
Definition set_cell (name : bytes) (i colIdx : nat) (v : Value) : SM unit :=
  modify (fun s => set_rowData (alter (alter (<[colIdx:=v]>) i) name (rowData s)) s).

Fixpoint apply_updates (name : bytes) (cols : list ColumnDef) (check : bool) (i width : nat) (u : updates) : SM unit :=
  match u with
  | [] => mret tt
  | (colIdx, v) :: rest =>
    when (colIdx <? width)%nat
      (v ← lift (if check then process_update cols colIdx v else Ok v);
       set_cell name i colIdx v);;
    apply_updates name cols check i width rest
  end.

(** The loop over the rows in memory: the number of rows updated and the
    calls of the callback, when there is one ([calls]). The old row in the log
    is the new one: both are the same slice. *)
Fixpoint update_loop (name : bytes) (t : TableInfo) (check calls : bool) (updateFunc : callback updates)
  (condition : callback bool) (i : nat) (rows : list (list Value)) : SM (Z * list (Z * list Value)) :=
  match rows with
  | [] => mret (0, [])
  | row :: rest =>
    chosen ← lift (condition row);
    if (chosen : bool) then
      u ← lift (updateFunc row);
      apply_updates name (Columns t) check i (length row) u;;
      s ← gets (fun s => s);
      match (default [] (rowIDs s !! name)) !! i, calls || enabled s with
      | None, true => lift Panic
      | id, _ =>
        let id := default 0 id in
        let row' := default [] ((default [] (rowData s !! name)) !! i) in
        when (enabled s) (writeWAL WALTypeUpdate 0 (TID t) id (row_json row') (row_json row'));;
        '(n, called) ← update_loop name t check calls updateFunc condition (S i) rest;
        mret (n + 1, (id, row') :: called)
      end
    else update_loop name t check calls updateFunc condition (S i) rest
  end.

Definition update_memory (name : bytes) (t : TableInfo) (check calls : bool) (updateFunc : callback updates)
  (condition : callback bool) : SM (Z * list (Z * list Value)) :=
  s ← gets (fun s => s);
  match rowData s !! name with
  | None => mret (0, [])
  | Some rows =>
    r ← update_loop name t check calls updateFunc condition 0 rows;
    when ((0 <? r.1) && enabled s) saveMetadata;;
    mret r
  end.

Definition UpdateRowsWithCallback (name : bytes) (updateFunc : callback updates)
  (condition : callback bool) : SM (Z * list (Z * list Value)) :=
  t ← get_table name; update_memory name (info t) true true updateFunc condition.

Definition UpdateRowsWithFunc (name : bytes) (updateFunc : callback updates)
  (condition : callback bool) : SM Z :=
  t ← get_table name; r ← update_memory name (info t) true false updateFunc condition; mret r.1.

(** Insert rows one by one, up to the first error. *)
Fixpoint reinsert (rows : list (list Value)) : TF unit :=
  match rows with
  | [] => mret tt
  | row :: rest => _ ← TableFile.InsertRow row; reinsert rest
  end.

(** Rewrite a table file with these rows. *)
Definition rewrite_file (name : bytes) (tf : TableFile) (rows : list (list Value)) : SM unit :=
  run_tf name tf (TableFile.Clear;; reinsert rows);;
  change_info name (set_rowcount (zlen rows)).

Definition assign (u : updates) (row : list Value) : list Value :=
  fold_left (fun row '(colIdx, v) => <[colIdx:=v]> row) u row.

Definition UpdateRows (n : nat) (name : bytes) (u : updates) (condition : list Value -> bool) : SM Z :=
  t ← get_table name;
  files ← gets tableFiles;
  match files !! name with
  | Some tf =>
    rows ← run_tf name tf (GetAllRows n n);
    files ← gets tableFiles;
    let count := zlen (List.filter condition rows) in
    when (0 <? count)
      (rewrite_file name (default tf (files !! name))
         (map (fun row => if condition row then assign u row else row) rows));;
    mret count
  | None =>
    r ← update_memory name (info t) false false (returning (fun _ => u)) (returning condition);
    mret r.1
  end.

(** ** Deleting *)

(** The rows to keep with their identifiers, and the rows deleted. *)
Fixpoint delete_loop (t : TableInfo) (calls : bool) (condition : callback bool)
  (rows : list (list Value)) (ids : list Z)
  : SM (list (list Value) * list Z * list (Z * list Value)) :=
  match rows with
  | [] => mret ([], [], [])
  | row :: rows =>
    s ← gets enabled;
    gone ← lift (condition row);
    match ids, negb gone || calls || s with
    | [], true => lift Panic
    | _, _ =>
      let id := List.hd 0 ids in
      when (gone && s) (writeWAL WALTypeDelete 0 (TID t) id (row_json row) no_data);;
      '(keep, keepIDs, deleted) ← delete_loop t calls condition rows (tl ids);
      mret (if gone then (keep, keepIDs, (id, row) :: deleted)
            else (row :: keep, id :: keepIDs, deleted))
    end
  end.

Definition delete_memory (name : bytes) (t : TableInfo) (calls : bool) (condition : callback bool)
  : SM (Z * list (Z * list Value)) :=
  s ← gets (fun s => s);
  match rowData s !! name with
  | None => mret (0, [])
  | Some rows =>
    '(keep, keepIDs, gone) ← delete_loop t calls condition rows (default [] (rowIDs s !! name));
    let count := zlen gone in
    when (0 <? count)
      (modify (fun s => set_rowIDs (<[name:=keepIDs]> (rowIDs s)) (set_rowData (<[name:=keep]> (rowData s)) s));;
       bump_rows name (- count);;
       when (enabled s) saveMetadata);;
    mret (count, gone)
  end.

(** The count, and the calls of the callback. *)
Definition DeleteRowsWithCallback (name : bytes) (condition : callback bool) : SM (Z * list (Z * list Value)) :=
  t ← get_table name; delete_memory name (info t) true condition.

Definition DeleteRows (n : nat) (name : bytes) (condition : list Value -> bool) : SM Z :=
  t ← get_table name;
  files ← gets tableFiles;
  match files !! name with
  | Some tf =>
    rows ← run_tf name tf (GetAllRows n n);
    files ← gets tableFiles;
    let keep := List.filter (fun row => negb (condition row)) rows in
    let count := zlen rows - zlen keep in
    when (0 <? count) (rewrite_file name (default tf (files !! name)) keep);;
    mret count
  | None =>
    r ← delete_memory name (info t) false (returning condition); mret r.1
  end.

Definition GetSequence (name : bytes) : SM Z := q ← gets sequences; mret (default 0 (q !! name)).
Definition SetSequence (name : bytes) (value : Z) : SM unit :=
  modify (fun s => set_sequences (<[name:=value]> (sequences s)) s).

(** ** Recovery *)

Definition obj_get (k : string) (j : json) : option json :=
  match j with JObj m => jget (str k) m | _ => None end.
Definition as_string (j : option json) : option bytes := match j with Some (JStr s) => Some s | _ => None end.
Definition as_number (j : option json) : option float64 := match j with Some (JFloat f) => Some f | _ => None end.
Definition as_bool (j : option json) : bool := match j with Some (JBool b) => b | _ => false end.

Definition decode_column (j : json) : ColumnDef :=
  mkColumn (default [] (as_string (obj_get "name" j)))
    (match obj_get "type" j with
     | Some (JStr t) => ParseDataType t
     | Some (JFloat f) => float_to_int64 f
     | _ => TypeUnknown
     end)
    (match as_number (obj_get "length" j) with Some f => float_to_int64 f | None => 0 end)
    0 (as_bool (obj_get "nullable" j)) None (as_bool (obj_get "primary_key" j)) (as_bool (obj_get "auto_inc" j)).

Definition is_object (j : json) : bool := match j with JObj _ => true | _ => false end.

Definition decode_table (j : json) : TableInfo :=
  mkTable (match as_number (obj_get "id" j) with Some f => float_to_uint64 f | None => 0 end)
    (default [] (as_string (obj_get "name" j)))
    (match obj_get "columns" j with
     | Some (JArr cols) => map decode_column (List.filter is_object cols)
     | _ => []
     end) 0.

(** The name of the table with an identifier; the code takes the first in
    the order of Go's map iteration, and no table when its name is empty. *)
Definition table_named (id : Z) (tbls : gmap bytes STable) : option bytes :=
  match List.find (fun p => TID (info p.2) =? id) (map_to_list tbls) with
  | Some ([], _) | None => None
  | Some (name, _) => Some name
  end.

(** The position of an identifier. *)
Fixpoint index_of (id : Z) (ids : list Z) : option nat :=
  match ids with
  | [] => None
  | x :: rest => if x =? id then Some 0%nat else S <$> index_of id rest
  end.

Definition replayed_row (r : WALRecord) : option (list Value) :=
  match RData r with Some (JArr vals) => Some (map interfaceToValue vals) | _ => None end.

(** One record of the log. *)
Definition replay (r : WALRecord) (s : Storage) : Storage :=
  let s :=
    if RType r =? WALTypeCreateTable then
      match RData r with
      | Some (JObj m) =>
        let t := decode_table (JObj m) in
        set_rowIDs (<[TName t:=[]]> (rowIDs s)) (set_rowData (<[TName t:=[]]> (rowData s))
          (set_tables (<[TName t:=mkSTable t []]> (tables s)) s))
      | _ => s
      end
    else if RType r =? WALTypeDropTable then
      match RData r with
      | Some (JStr name) =>
        set_rowIDs (delete name (rowIDs s)) (set_rowData (delete name (rowData s))
          (set_tables (delete name (tables s)) s))
      | _ => s
      end
    else match table_named (RTableID r) (tables s) with
    | None => s
    | Some name =>
      let rows := default [] (rowData s !! name) in
      let ids := default [] (rowIDs s !! name) in
      if RType r =? WALTypeInsert then
        match replayed_row r with
        | Some row => set_rowIDs (<[name:=ids ++ [RRowID r]]> (rowIDs s))
                        (set_rowData (<[name:=rows ++ [row]]> (rowData s)) s)
        | None => s
        end
      else if RType r =? WALTypeUpdate then
        match index_of (RRowID r) ids, replayed_row r with
        | Some i, Some row => set_rowData (<[name:=<[i:=row]> rows]> (rowData s)) s
        | _, _ => s
        end
      else if RType r =? WALTypeDelete then
        match index_of (RRowID r) ids with
        | Some i => set_rowIDs (<[name:=take i ids ++ drop (S i) ids]> (rowIDs s))
                      (set_rowData (<[name:=take i rows ++ drop (S i) rows]> (rowData s)) s)
        | None => s
        end
      else s
    end in
  set_wal (walFile s) (Z.max (walSeq s) (RLSN r)) s.

(** The records are replayed only if the whole log could be read. *)
Definition recoverFromWAL (s : Storage) : Storage :=
  match enabled s, walFile s with
  | true, Some f =>
    match ReadAll (SetEncryptor (encryptor s) (NewWAL true f)) with
    | Ok records => fold_left (fun s r => replay r s) records s
    | _ => s
    end
  | _, _ => s
  end.

Context (sscan_int : bytes -> option Z).

Definition load_row (cols : option (list ColumnDef)) (r : Z * list json) : Z * list Value :=
  (float_to_uint64 (float_of_Z r.1),
   imap (fun i j => rawToValue sscan_int (decoded j) cols i) r.2).

(** The metadata file of a storage that is not encrypted. The records of the
    tables themselves are read back as they were written. *)
Definition loadMetadata (m : Metadata) (s : Storage) : Storage :=
  let rows := map_imap (fun name rs =>
    Some (map (load_row ((fun t => Columns (info t)) <$> m_tables m !! name)) rs)) (m_rows m) in
  let fill {A} (f : gmap bytes (list A)) (old : gmap bytes (list A)) :=
    union_with (fun a b => Some (a ++ b)) (union_with (fun a _ => Some a) old ((fun _ => []) <$> m_tables m)) f in
  let s := set_tables (m_tables m) s in
  let s := set_sequences (m_sequences m) s in
  let s := set_snextID (if m_nextID m =? 0 then 1 else m_nextID m) s in
  let s := set_rowData (fill ((map snd) <$> rows) (rowData s)) s in
  set_rowIDs (fill ((map fst) <$> rows) (rowIDs s)) s.

(** Open a storage on the files another one left, without encryption. *)
Definition open_storage (threshold : Z) (old : Storage) : Storage :=
  let s := mkStorage true ∅ ∅ 1 ∅ (disk old) (NewPageCache DefaultPageCacheConfig) ∅ ∅
             (Some (default [] (walFile old))) 0 None (blobs old) threshold false (metadata old) in
  match metadata old with
  | None => s
  | Some m => recoverFromWAL (loadMetadata m s)
  end.

(** Close: flush the table files, save and truncate the log. [order] is the
    order of the dirty pages and of the table files. *)
Fixpoint close_files (files : list bytes) (order : list Z) : SM unit :=
  match files with
  | [] => mret tt
  | name :: rest =>
    open ← gets tableFiles;
    (match open !! name with
     | None => mret tt
     | Some tf =>
       run_tf name tf (TableFile.Flush order);;
       modify (fun s => set_tableFiles (delete name (tableFiles s)) s)
     end);;
    close_files rest order
  end.

Definition CloseStorage (order : list Z) : SM unit :=
  s ← gets (fun s => s);
  close_files (map_to_list (tableFiles s)).*1 order;;
  if enabled s then saveMetadata;; modify (fun s => set_wal ((fun _ => []) <$> walFile s) (walSeq s) s) else mret tt.
End Engine.
