(* ===== verification/StorageSpec.v ===== *)
(** * What the storage engine keeps (specification of Storage)

    The rows in memory are a list of rows with identifiers; the operations
    append, map and filter it. Rows satisfy the constraints of their
    columns, identifiers are never reused. *)

From S2P Require Import Prelude GoLib Types RowCodec Page PageCache TableFile Crypto Json Wal Storage.
Local Open Scope Z_scope.

Create HintDb frames.

Section Constraints.
Context `{GoRuntime} `{JSONRuntime} `{RecordJSON} `{Environment} `{ColumnJSON}.

(** ** Column constraints *)

(** A value that its column accepts. *)
Definition column_ok (c : ColumnDef) (v : Value) : Prop :=
  (CType c = TypeChar -> 0 < Length c -> IsNull v = false -> rune_count (ToString v) = Length c) /\
  (CType c = TypeVarchar -> 0 < Length c -> rune_count (ToString v) <= Length c) /\
  (Nullable c = false -> IsNull v = false).

Lemma ToString_string s : ToString (NewStringValue s) = s.
Proof. reflexivity. Qed.

(** Padding reaches exactly the length of the column. *)
Lemma rune_count_pad n text : rune_count text <= n -> rune_count (pad_char n text) = n.
Proof.
  intros Hle. unfold rune_count, pad_char. rewrite runes_of_runes.
  - unfold zlen. rewrite length_app, length_replicate. unfold rune_count, zlen in *. lia.
  - rewrite forallb_app, runes_valid. cbn [andb].
    induction (Z.to_nat (n - rune_count text)) as [|k IH]; [done|]. exact IH.
Qed.

Lemma fit_value_ok c v w b : fit_value c v = Ok (w, b) ->
  (CType c = TypeChar -> 0 < Length c -> IsNull w = false -> rune_count (ToString w) = Length c) /\
  (CType c = TypeVarchar -> 0 < Length c -> rune_count (ToString w) <= Length c) /\
  (b = false -> w = v) /\ (IsNull w = true -> w = v).
Proof.
  unfold fit_value. destruct ((CType c =? TypeChar) && (0 <? Length c) && negb (IsNull v)) eqn:Hc.
  - apply andb_true_iff in Hc as [[Ht%Z.eqb_eq Hl%Z.ltb_lt]%andb_true_iff Hn].
    destruct (Z.ltb_spec (Length c) (rune_count (ToString v))); [done|].
    destruct (Z.ltb_spec (rune_count (ToString v)) (Length c)); intros [= <- <-].
    + split_and!; try done; [|intros E; by rewrite Ht in E].
      intros. rewrite ToString_string. by apply rune_count_pad.
    + split_and!; try done; intros; lia.
  - destruct ((CType c =? TypeVarchar) && (0 <? Length c) && (Length c <? rune_count (ToString v))) eqn:Hv;
      [done|]. intros [= <- <-]. split_and!; try done.
    + intros Ht Hl Hn. rewrite Ht, Hn in Hc. apply Z.ltb_lt in Hl. by rewrite Hl in Hc.
    + intros Ht Hl. rewrite Ht in Hv. apply Z.ltb_lt in Hl. rewrite Hl in Hv.
      change ((TypeVarchar =? TypeVarchar) && true) with true in Hv. apply Z.ltb_ge in Hv. done.
Qed.

(** A BLOB column keeps its constraint when the value moves to a file. *)
Lemma process_insert_ok c v s w s' : process_insert c v s = (Ok w, s') ->
  is_auto c = false -> column_ok c w.
Proof.
  intros Hp Ha. unfold process_insert in Hp.
  destruct (fit_value c v) as [[w0 b]| | |] eqn:Hf; try done.
  apply orb_false_iff in Ha as [Ha Hs].
  destruct (fit_value_ok _ _ _ _ Hf) as (Hchar & Hvar & _ & _).
  change ((let '(v0, _) := (w0, b) in
    if negb (Nullable c) && IsNull v0 && negb (AutoInc c) && negb (CType c =? TypeSeq) then fail (NullColumn (Name c))
    else s0 ← gets (fun s0 => s0);
         if enabled s0 && (0 <? blobThreshold s0) && one_of (CType c) [TypeBlob; TypeImage]
         then processBlobValue v0 else mret v0) s = (Ok w, s')) in Hp.
  rewrite Ha, Hs in Hp. cbn [negb] in Hp. rewrite !andb_true_r in Hp.
  destruct (negb (Nullable c) && IsNull w0) eqn:Hn; [done|]. rewrite bind_gets in Hp.
  assert (Hnull : Nullable c = false -> IsNull w0 = false).
  { intros E. rewrite E in Hn. exact Hn. }
  destruct (enabled s && (0 <? blobThreshold s) && one_of (CType c) [TypeBlob; TypeImage]) eqn:Hb.
  - apply andb_true_iff in Hb as [_ Hb].
    assert (CType c <> TypeChar /\ CType c <> TypeVarchar) as [Hnc Hnv].
    { split; intros E; by rewrite E in Hb. }
    split; [done|]. split; [done|]. intros E. specialize (Hnull E).
    unfold processBlobValue in Hp. rewrite Hnull in Hp.
    destruct (Data w0); try (injection Hp as <- <-; exact Hnull).
    rewrite bind_gets in Hp. destruct (blobThreshold s <? zlen b0).
    + unfold next_id in Hp. cbn in Hp. by injection Hp as <- <-.
    + by injection Hp as <- <-.
  - injection Hp as <- <-. by split_and!.
Qed.

(** ** What the parts of an operation leave alone *)

Definition same_rows (s s' : Storage) : Prop :=
  rowData s' = rowData s /\ rowIDs s' = rowIDs s /\ tables s' = tables s /\
  tableFiles s' = tableFiles s /\ disk s' = disk s /\ enabled s' = enabled s.

#[local] Instance same_rows_preorder : PreOrder same_rows.
Proof.
  split; [by repeat split|].
  intros a b c (?&?&?&?&?&?) (?&?&?&?&?&?). unfold same_rows. split_and!; congruence.
Qed.

(** A computation that relates the states before and after it, whatever its
    result. *)
Definition framed (R : relation Storage) {A} (m : SM A) : Prop := forall s, R s (m s).2.

Section Framing.
Context (R : relation Storage) `{!PreOrder R}.

Lemma framed_ret {A} (a : A) : framed R (mret a).
Proof. intros s. reflexivity. Qed.
Lemma framed_lift {A} (m : outcome StorageError A) : framed R (lift m).
Proof. intros s. reflexivity. Qed.
Lemma framed_fail {A} e : framed R (fail e : SM A).
Proof. intros s. reflexivity. Qed.
Lemma framed_gets {A} (f : Storage -> A) : framed R (gets f).
Proof. intros s. reflexivity. Qed.
Lemma framed_modify f : (forall s, R s (f s)) -> framed R (modify f).
Proof. intros Hf s. apply Hf. Qed.
Lemma framed_bind {A B} (m : SM A) (k : A -> SM B) :
  framed R m -> (forall a, framed R (k a)) -> framed R (m ≫= k).
Proof.
  intros Hm Hk s. specialize (Hm s). unfold mbind, SO_bind.
  destruct (m s) as [[a| | |] s']; try exact Hm. etransitivity; [exact Hm|apply Hk].
Qed.
Lemma framed_when b m : framed R m -> framed R (when b m).
Proof. intros Hm. destruct b; [exact Hm|apply framed_ret]. Qed.
End Framing.

Ltac frame :=
  repeat first
    [ apply framed_ret; apply _ | apply framed_lift; apply _ | apply framed_fail; apply _
    | apply framed_gets; apply _ | apply framed_when; [apply _|]
    | apply framed_modify; intros ?; by repeat split
    | apply framed_bind; [apply _| |intros ?] | progress eauto with frames | case_match ].

Lemma next_id_framed : framed same_rows next_id.
Proof. unfold next_id. frame. Qed.
Lemma marshalled_framed {A} (m : outcome unit A) : framed same_rows (marshalled m).
Proof. unfold marshalled. frame. Qed.
Hint Resolve next_id_framed marshalled_framed : frames.
Lemma writeWAL_framed ty tx ti ri d o : framed same_rows (writeWAL ty tx ti ri d o).
Proof. unfold writeWAL. frame. Qed.
Lemma saveMetadata_framed : framed same_rows saveMetadata.
Proof. unfold saveMetadata, write_tree. frame. Qed.
Lemma processBlobValue_framed v : framed same_rows (processBlobValue v).
Proof. unfold processBlobValue. frame. Qed.
Hint Resolve writeWAL_framed saveMetadata_framed processBlobValue_framed : frames.
Lemma process_insert_framed c v : framed same_rows (process_insert c v).
Proof. unfold process_insert. frame. Qed.
Hint Resolve process_insert_framed : frames.
Lemma process_row_framed cols : forall i row, framed same_rows (process_row i cols row).
Proof. induction cols as [|c cols IH]; intros i row; cbn [process_row]; frame. Qed.
Lemma fill_auto_framed table cols : forall i row last, framed same_rows (fill_auto table i cols row last).
Proof. induction cols as [|c cols IH]; intros i row last; cbn [fill_auto]; frame. Qed.

(** ** Inserting a row *)

(** The columns from position [i] on accept their values. *)
Definition accepted (i : nat) (cols : list ColumnDef) (row : list Value) : Prop :=
  forall k c v, cols !! k = Some c -> row !! (i + k)%nat = Some v -> is_auto c = false -> column_ok c v.

Lemma process_row_ok cols : forall i row s row' s', process_row i cols row s = (Ok row', s') ->
  length row' = length row /\ (forall j, (j < i)%nat -> row' !! j = row !! j) /\ accepted i cols row'.
Proof.
  induction cols as [|c cols IH]; intros i row s row' s' Hp; cbn [process_row] in Hp.
  { injection Hp as <- <-. split; [done|]. split; [done|]. intros k c v Hk. done. }
  assert (Hstep : forall row1 s1, process_row (S i) cols row1 s1 = (Ok row', s') ->
    length row1 = length row -> (forall j, (j < i)%nat -> row1 !! j = row !! j) ->
    (forall v, row1 !! i = Some v -> is_auto c = false -> column_ok c v) ->
    length row' = length row /\ (forall j, (j < i)%nat -> row' !! j = row !! j) /\ accepted i (c :: cols) row').
  { intros row1 s1 E Hl Hj Hc. destruct (IH _ _ _ _ _ E) as (Hl' & Hj' & Ha).
    split; [congruence|]. split; [intros j Hlt; rewrite Hj' by lia; by apply Hj|].
    intros [|k] c' v Hk Hv.
    - injection Hk as <-. rewrite Nat.add_0_r, Hj' in Hv by lia. by apply Hc.
    - cbn in Hk. apply (Ha k); [done|]. by replace (S i + k)%nat with (i + S k)%nat by lia. }
  destruct (row !! i) as [v|] eqn:Hi.
  - apply bind_inv in Hp as (w & s1 & E1 & E2). apply (Hstep _ _ E2).
    + apply length_insert.
    + intros j Hj. by apply list_lookup_insert_ne; lia.
    + intros v' Hv' Ha. rewrite list_lookup_insert_eq in Hv' by (by apply lookup_lt_Some in Hi).
      injection Hv' as <-. by eapply process_insert_ok.
  - apply (Hstep _ _ Hp); try done. intros v Hv. congruence.
Qed.

(** The sequences only grow, and fill their columns. *)
Lemma fill_auto_ok table cols : forall i row last s row' last' s',
  fill_auto table i cols row last s = (Ok (row', last'), s') ->
  length row' = length row /\ (forall j, (j < i)%nat -> row' !! j = row !! j) /\
  forall k c, cols !! k = Some c ->
    if is_auto c then exists n, row' !! (i + k)%nat = Some (NewIntValue n)
    else row' !! (i + k)%nat = row !! (i + k)%nat.
Proof.
  induction cols as [|c cols IH]; intros i row last s row' last' s' Hp; cbn [fill_auto] in Hp.
  { injection Hp as <- <- <-. by split_and!. }
  destruct (is_auto c) eqn:Ha.
  - rewrite bind_gets, bind_modify in Hp. destruct (row !! i) as [v|] eqn:Hi; [|done].
    destruct (IH _ _ _ _ _ _ _ Hp) as (Hl & Hj & Hk). rewrite length_insert in Hl.
    split; [done|]. split.
    + intros j Hlt. rewrite Hj by lia. by apply list_lookup_insert_ne; lia.
    + intros [|k] c' Hc'.
      * injection Hc' as <-. rewrite Ha, Nat.add_0_r, Hj by lia. eexists.
        apply list_lookup_insert_eq. by apply lookup_lt_Some in Hi.
      * specialize (Hk k c' Hc'). replace (i + S k)%nat with (S i + k)%nat by lia.
        destruct (is_auto c'); [done|]. rewrite Hk. by apply list_lookup_insert_ne; lia.
  - destruct (IH _ _ _ _ _ _ _ Hp) as (Hl & Hj & Hk). split; [done|]. split.
    + intros j Hlt. by rewrite Hj by lia.
    + intros [|k] c' Hc'.
      * injection Hc' as <-. rewrite Ha, Nat.add_0_r. by apply Hj; lia.
      * specialize (Hk k c' Hc'). by replace (i + S k)%nat with (S i + k)%nat by lia.
Qed.

Lemma framed_ok {A} (m : SM A) s a s' : framed same_rows m -> m s = (Ok a, s') -> same_rows s s'.
Proof. intros Hm E. specialize (Hm s). by rewrite E in Hm. Qed.

Lemma bump_rows_rows name d s : rowData (bump_rows name d s).2 = rowData s /\ rowIDs (bump_rows name d s).2 = rowIDs s.
Proof. done. Qed.

(** C39: when a row is inserted in a table kept in memory, it is
    appended to the rows under a fresh identifier, and each of its values
    satisfies its column: an auto-increment column holds an integer, a CHAR
    column exactly its length in characters, a VARCHAR column at most its
    length, and a NOT NULL column no NULL. *)
Theorem InsertRow_constraints name t row s id last s' :
  tables s !! name = Some t -> tableFiles s !! name = None -> disk s !! name = None ->
  InsertRow name row s = (Ok (id, last), s') ->
  exists row', rowData s' !! name = Some (default [] (rowData s !! name) ++ [row']) /\
    rowIDs s' !! name = Some (default [] (rowIDs s !! name) ++ [id]) /\
    length row' = length row /\
    forall i c v, Columns (info t) !! i = Some c -> row' !! i = Some v ->
      if is_auto c then exists n, v = NewIntValue n else column_ok c v.
Proof.
  intros Ht Hf Hd Hi. unfold InsertRow in Hi.
  assert (Hg : get_table name s = (Ok t, s)) by (unfold get_table; rewrite bind_gets, Ht; done).
  rewrite (bind_ok _ _ _ _ _ Hg) in Hi.
  apply bind_inv in Hi as (row1 & s1 & E1 & Hi).
  pose proof (framed_ok _ _ _ _ (process_row_framed _ _ _) E1) as Hs1.
  apply bind_inv in Hi as ([row2 last2] & s2 & E2 & Hi).
  pose proof (framed_ok _ _ _ _ (fill_auto_framed _ _ _ _ _) E2) as Hs2.
  apply bind_inv in Hi as (rid & s3 & E3 & Hi).
  pose proof (framed_ok _ _ _ _ next_id_framed E3) as Hs3.
  assert (Hsame : same_rows s s3) by (etransitivity; [exact Hs1|etransitivity; [exact Hs2|exact Hs3]]).
  destruct Hsame as (Hr & Hids & Htb & Htf & Hdk & Hen).
  assert (Hfile : table_file name s3 = (Ok None, s3)).
  { unfold table_file. by rewrite bind_gets, Htf, Hf, Hdk, Hd. }
  rewrite (bind_ok _ _ _ _ _ Hfile), bind_gets in Hi.
  apply bind_inv in Hi as ([] & s4 & E4 & Hi).
  pose proof (framed_ok _ _ _ _ (framed_when same_rows _ _ (writeWAL_framed _ _ _ _ _ _)) E4) as (Hr4 & Hids4 & _).
  unfold append_row in Hi. rewrite bind_modify in Hi. unfold bump_rows, change_info in Hi.
  rewrite bind_modify in Hi. apply bind_inv in Hi as ([] & s5 & E5 & Hi). injection Hi as <- <- <-.
  pose proof (framed_ok _ _ _ _ (framed_when same_rows _ _ saveMetadata_framed) E5) as (Hr5 & Hids5 & _).
  destruct (process_row_ok _ _ _ _ _ _ E1) as (Hl1 & _ & Hok).
  destruct (fill_auto_ok _ _ _ _ _ _ _ _ _ E2) as (Hl2 & _ & Hauto).
  exists row2. rewrite Hr5, Hids5. cbn [rowData rowIDs set_rowData set_rowIDs set_tables].
  rewrite !lookup_insert_eq, Hr4, Hids4, Hr, Hids.
  split; [done|]. split; [done|]. split; [congruence|]. intros i c v Hc Hv.
  specialize (Hauto i c Hc). cbn [Nat.add] in Hauto. destruct (is_auto c) eqn:Ha.
  - destruct Hauto as [n Hn]. exists n. congruence.
  - apply (Hok i); [done|cbn; congruence|done].
Qed.

(** ** Deleting rows in memory *)

Lemma bind_returning {A B} (f : list Value -> A) row (k : A -> SM B) s : (lift (returning f row) ≫= k) s = k (f row) s.
Proof. done. Qed.

Lemma set_rowData_id s name rows : rowData s !! name = Some rows ->
  set_rowData (<[name:=rows]> (rowData s)) s = s.
Proof. intros Hr. rewrite insert_id by done. by destruct s. Qed.

Lemma set_rowData_twice s m m' : set_rowData m (set_rowData m' s) = set_rowData m s.
Proof. done. Qed.

(** The rows of a table with their identifiers. *)
Definition selected (condition : list Value -> bool) (ids : list Z) (rows : list (list Value)) : list (Z * list Value) :=
  List.filter (fun p => condition p.2) (zip ids rows).

Lemma delete_loop_memory t calls condition rows : forall ids s, enabled s = false -> length ids = length rows ->
  delete_loop t calls (returning condition) rows ids s =
  (Ok ((selected (fun r => negb (condition r)) ids rows).*2,
       (selected (fun r => negb (condition r)) ids rows).*1, selected condition ids rows), s).
Proof.
  induction rows as [|row rows IH]; intros ids s He Hl; [by destruct ids|].
  destruct ids as [|id ids]; [done|]. injection Hl as Hl. cbn [delete_loop]. rewrite bind_gets, He. rewrite bind_returning.
  rewrite andb_false_r. cbn [when List.hd tl].
  rewrite (bind_ok (mret tt) _ s tt s) by done. rewrite (bind_ok _ _ _ _ _ (IH ids s He Hl)).
  unfold selected. cbn [zip_with List.filter snd]. by destruct (condition row).
Qed.

(** DELETE on a table in memory removes exactly the rows that
    satisfy the condition, with their identifiers, keeps the others in
    order, and reports the rows removed and their number. *)
Theorem DeleteRows_memory name t condition s rows ids :
  enabled s = false -> tables s !! name = Some t ->
  rowData s !! name = Some rows -> rowIDs s !! name = Some ids -> length ids = length rows ->
  let gone := selected condition ids rows in
  let kept := selected (fun r => negb (condition r)) ids rows in
  exists s', DeleteRowsWithCallback name (returning condition) s = (Ok (zlen gone, gone), s') /\
    rowData s' !! name = Some kept.*2 /\ rowIDs s' !! name = Some kept.*1 /\
    (forall other, other <> name -> rowData s' !! other = rowData s !! other /\
                                    rowIDs s' !! other = rowIDs s !! other).
Proof.
  intros He Ht Hr Hids Hl gone kept. unfold DeleteRowsWithCallback.
  assert (Hg : get_table name s = (Ok t, s)) by (unfold get_table; rewrite bind_gets, Ht; done).
  rewrite (bind_ok _ _ _ _ _ Hg). unfold delete_memory. rewrite bind_gets, Hr, Hids. cbn [default from_option id].
  rewrite (bind_ok _ _ _ _ _ (delete_loop_memory (info t) true condition rows ids s He Hl)). fold gone kept.
  destruct (Z.ltb_spec 0 (zlen gone)) as [Hpos|Hzero]; cbn [when].
  - unfold bump_rows, change_info. rewrite He. cbn [when].
    eexists. split; [reflexivity|]. cbn [rowData rowIDs set_tables set_rowIDs set_rowData].
    rewrite !lookup_insert_eq. split; [done|]. split; [done|].
    intros other Hne. by rewrite !lookup_insert_ne by done.
  - assert (Hk : kept = zip ids rows).
    { assert (Hgone : gone = []) by (destruct gone; [done|unfold zlen in Hzero; cbn in Hzero; lia]).
      unfold kept, gone, selected in *. clear -Hgone. induction (zip ids rows) as [|p l IH]; [done|].
      cbn in *. destruct (condition p.2); [done|]. cbn. by rewrite IH. }
    exists s. split; [reflexivity|]. rewrite Hk, fst_zip, snd_zip by lia. by rewrite Hr, Hids.
Qed.

(** ** Updating rows in memory *)

(** The updates of one row, applied in order. *)
Fixpoint apply_pure (cols : list ColumnDef) (check : bool) (width : nat) (u : list (nat * Value)) (row : list Value)
  : outcome StorageError (list Value) :=
  match u with
  | [] => Ok row
  | (colIdx, v) :: rest =>
    if (colIdx <? width)%nat then
      v ← (if check then process_update cols colIdx v else Ok v);
      apply_pure cols check width rest (<[colIdx:=v]> row)
    else apply_pure cols check width rest row
  end.

Lemma apply_updates_run name cols check i width u : forall rows row row' s,
  rowData s !! name = Some rows -> rows !! i = Some row -> apply_pure cols check width u row = Ok row' ->
  apply_updates name cols check i width u s = (Ok tt, set_rowData (<[name:=<[i:=row']> rows]> (rowData s)) s).
Proof.
  induction u as [|[k v] u IH]; intros rows row row' s Hr Hi Ha; cbn [apply_pure apply_updates] in *.
  { injection Ha as <-. rewrite list_insert_id by done. by rewrite set_rowData_id. }
  destruct (k <? width)%nat; cbn [when].
  - destruct (if check then process_update cols k v else Ok v) as [w| | |] eqn:Hp; try done.
    cbn [mbind outcome_bind] in Ha.
    set (s1 := set_rowData (alter (alter (<[k:=w]>) i) name (rowData s)) s).
    rewrite (bind_ok _ _ s tt s1).
    2:{ by rewrite (bind_ok _ _ s w s). }
    assert (Hi1 : <[i:=<[k:=w]> row]> rows !! i = Some (<[k:=w]> row)).
    { apply list_lookup_insert_eq. by apply lookup_lt_Some in Hi. }
    assert (Hr1 : rowData s1 !! name = Some (<[i:=<[k:=w]> row]> rows)).
    { unfold s1. cbn. rewrite lookup_alter_eq, Hr. cbn. f_equal.
      apply list_eq. intros j. destruct (decide (j = i)) as [->|Hne].
      - by rewrite list_lookup_alter_eq, Hi, Hi1.
      - by rewrite list_lookup_alter_ne, list_lookup_insert_ne by done. }
    rewrite (IH _ _ _ s1 Hr1 Hi1 Ha). f_equal. unfold s1. rewrite set_rowData_twice. f_equal.
    cbn [rowData set_rowData]. rewrite list_insert_insert_eq.
    apply map_eq. intros x. destruct (decide (x = name)) as [->|Hne].
    + by rewrite !lookup_insert_eq.
    + by rewrite !lookup_insert_ne, lookup_alter_ne by done.
  - rewrite (bind_ok (mret tt) _ s tt s) by done. exact (IH rows row row' s Hr Hi Ha).
Qed.

Section Update.
Context (name : bytes) (t : STable) (check calls : bool).
Context (updateFunc : list Value -> list (nat * Value)) (condition : list Value -> bool).

(** The row after an UPDATE, when its updates succeed. *)
Definition updated (row : list Value) : list Value :=
  if condition row then
    match apply_pure (Columns (info t)) check (length row) (updateFunc row) row with
    | Ok row' => row'
    | _ => row
    end
  else row.

Definition update_succeeds (row : list Value) : Prop :=
  condition row = true ->
  exists row', apply_pure (Columns (info t)) check (length row) (updateFunc row) row = Ok row'.

(** The rows updated, with their new contents. *)
Definition touched (ids : list Z) (rows : list (list Value)) : list (Z * list Value) :=
  map (fun p => (p.1, updated p.2)) (selected condition ids rows).

Lemma update_loop_memory rest : forall ids0 done0 ids s,
  enabled s = false -> rowData s !! name = Some (done0 ++ rest) -> rowIDs s !! name = Some (ids0 ++ ids) ->
  length ids0 = length done0 -> length ids = length rest -> Forall update_succeeds rest ->
  update_loop name (info t) check calls (returning updateFunc) (returning condition) (length done0) rest s =
  (Ok (zlen (touched ids rest), touched ids rest),
   set_rowData (<[name:=done0 ++ map updated rest]> (rowData s)) s).
Proof.
  induction rest as [|row rest IH]; intros ids0 done0 ids s He Hr Hids Hl0 Hl Hok.
  { cbn [update_loop map]. destruct ids; [|done]. by rewrite set_rowData_id. }
  destruct ids as [|id ids]; [done|]. injection Hl as Hl.
  apply Forall_cons in Hok as [Hrow Hok]. cbn [update_loop map]. unfold touched, selected.
  cbn [zip_with List.filter snd]. rewrite bind_returning. destruct (condition row) eqn:Hc.
  - rewrite bind_returning. destruct (Hrow Hc) as [row' Ha].
    assert (Hu : updated row = row') by (unfold updated; by rewrite Hc, Ha).
    assert (Hi : (done0 ++ row :: rest) !! length done0 = Some row) by (by rewrite lookup_app_r, Nat.sub_diag).
    rewrite (bind_ok _ _ _ _ _ (apply_updates_run name _ check _ _ _ _ row row' s Hr Hi Ha)).
    rewrite insert_app_r_alt, Nat.sub_diag by lia.
    change (<[0%nat:=row']> (row :: rest)) with (row' :: rest).
    set (s1 := set_rowData (<[name:=done0 ++ row' :: rest]> (rowData s)) s).
    assert (Hr1 : rowData s1 !! name = Some ((done0 ++ [row']) ++ rest)).
    { unfold s1. cbn. by rewrite lookup_insert_eq, <- app_assoc. }
    assert (Hids1 : rowIDs s1 !! name = Some ((ids0 ++ [id]) ++ ids)) by (by rewrite <- app_assoc).
    assert (Hid : default [] (rowIDs s1 !! name) !! length done0 = Some id).
    { rewrite Hids1. change (default [] (Some ?l)) with l.
      rewrite <- app_assoc, <- Hl0, lookup_app_r, Nat.sub_diag by lia. done. }
    assert (Hnew : default [] (default [] (rowData s1 !! name) !! length done0) = row').
    { rewrite Hr1. change (default [] (Some ?l)) with l.
      rewrite <- app_assoc, lookup_app_r, Nat.sub_diag by lia. done. }
    rewrite bind_gets. cbv beta. rewrite Hid, Hnew. cbv zeta. change (default 0 (Some id)) with id.
    change (enabled s1) with (enabled s). rewrite He. cbn [when].
    rewrite (bind_ok (mret tt) _ s1 tt s1) by done.
    specialize (IH (ids0 ++ [id]) (done0 ++ [row']) ids s1).
    rewrite !length_app in IH. cbn [length] in IH. rewrite !Nat.add_1_r in IH.
    rewrite (bind_ok _ _ _ _ _ (IH He Hr1 Hids1 ltac:(lia) Hl Hok)).
    cbn [map fst snd]. rewrite Hu. unfold touched, selected.
    rewrite zlen_cons, Z.add_comm. unfold mret, SO_ret. f_equal.
    unfold s1. cbn [rowData set_rowData]. by rewrite set_rowData_twice, insert_insert_eq, <- app_assoc.
  - specialize (IH (ids0 ++ [id]) (done0 ++ [row]) ids s). rewrite !length_app in IH.
    cbn [length] in IH. rewrite !Nat.add_1_r in IH.
    assert (Hu : updated row = row) by (unfold updated; by rewrite Hc).
    rewrite (IH He); [|by rewrite <- app_assoc|by rewrite <- app_assoc|lia|done|done].
    rewrite Hu.
    by rewrite <- app_assoc.
Qed.
End Update.

(** UPDATE on a table in memory, when the new values are valid,
    replaces exactly the rows that satisfy the condition by the rows with
    their updates applied in order, keeps identifiers and the other rows,
    and reports the new rows and their number. *)
Theorem UpdateRows_memory name t updateFunc condition s rows ids :
  enabled s = false -> tables s !! name = Some t ->
  rowData s !! name = Some rows -> rowIDs s !! name = Some ids -> length ids = length rows ->
  Forall (update_succeeds t true updateFunc condition) rows ->
  UpdateRowsWithCallback name (returning updateFunc) (returning condition) s =
  (Ok (zlen (touched t true updateFunc condition ids rows), touched t true updateFunc condition ids rows),
   set_rowData (<[name:=map (updated t true updateFunc condition) rows]> (rowData s)) s).
Proof.
  intros He Ht Hr Hids Hl Hok. unfold UpdateRowsWithCallback.
  assert (Hg : get_table name s = (Ok t, s)) by (unfold get_table; rewrite bind_gets, Ht; done).
  rewrite (bind_ok _ _ _ _ _ Hg). unfold update_memory. rewrite bind_gets, Hr.
  pose proof (update_loop_memory name t true true updateFunc condition rows [] [] ids s He Hr Hids
                eq_refl Hl Hok) as E.
  rewrite (bind_ok _ _ _ _ _ E). cbn [app]. by rewrite He, andb_false_r.
Qed.

(** UPDATE and DELETE statements change nothing and report no
    row when the rows of the table are in its table file, that is, not in
    memory; the file is not even opened. *)
Theorem update_delete_skip_table_files name t updateFunc condition s :
  tables s !! name = Some t -> default [] (rowData s !! name) = [] ->
  UpdateRowsWithCallback name (returning updateFunc) (returning condition) s = (Ok (0, []), s) /\
  DeleteRowsWithCallback name (returning condition) s = (Ok (0, []), s).
Proof.
  intros Ht Hr. unfold UpdateRowsWithCallback, DeleteRowsWithCallback.
  assert (Hg : get_table name s = (Ok t, s)) by (unfold get_table; rewrite bind_gets, Ht; done).
  rewrite !(bind_ok _ _ _ _ _ Hg). unfold update_memory, delete_memory. rewrite !bind_gets.
  destruct (rowData s !! name) as [rows|]; [|done]. cbn in Hr. subst rows. done.
Qed.

(** ** The rows in memory over any history *)

Inductive StorageOp :=
  | OpCreate (name : bytes) (cols : list ColumnDef)
  | OpDrop (name : bytes)
  | OpRename (oldName newName : bytes)
  | OpTruncate (name : bytes)
  | OpInsertRow (name : bytes) (row : list Value)
  | OpUpdate (name : bytes) (f : list Value -> list (nat * Value)) (c : list Value -> bool)
  | OpDelete (name : bytes) (c : list Value -> bool).

(** The storage after an operation, whether it succeeded or not. *)
Definition run_storage_op (op : StorageOp) (s : Storage) : Storage :=
  match op with
  | OpCreate name cols => (CreateTable name cols s).2
  | OpDrop name => (DropTable name s).2
  | OpRename old new => (RenameTable old new s).2
  | OpTruncate name => (TruncateTable name s).2
  | OpInsertRow name row => (InsertRow name row s).2
  | OpUpdate name f c => (UpdateRowsWithCallback name (returning f) (returning c) s).2
  | OpDelete name c => (DeleteRowsWithCallback name (returning c) s).2
  end.

(** An in-memory storage: every row has an identifier, which no other row of
    its table has and which was already handed out. *)
Definition rows_ok (next : Z) (rows : option (list (list Value))) (ids : option (list Z)) : Prop :=
  match rows, ids with
  | Some rows, Some ids => length ids = length rows /\ NoDup ids /\ Forall (fun id => 0 <= id < next) ids
  | None, None => True
  | _, _ => False
  end.

Record memory_ok (s : Storage) : Prop := {
  mo_memory : enabled s = false /\ tableFiles s = ∅ /\ disk s = ∅;
  mo_next : 0 <= snextID s;
  mo_rows : forall name, rows_ok (snextID s) (rowData s !! name) (rowIDs s !! name)
}.

(** Changes that keep the rows and their identifiers, but for the contents
    of the rows. *)
Definition same_shape (s s' : Storage) : Prop :=
  enabled s' = enabled s /\ tableFiles s' = tableFiles s /\ disk s' = disk s /\
  snextID s' = snextID s /\ rowIDs s' = rowIDs s /\
  forall name, length <$> rowData s' !! name = length <$> rowData s !! name.

#[local] Instance same_shape_preorder : PreOrder same_shape.
Proof.
  split; [by repeat split|].
  intros a b c (?&?&?&?&?&Hab) (?&?&?&?&?&Hbc). unfold same_shape. split_and!; try congruence.
Qed.

Lemma memory_ok_shape s s' : same_shape s s' -> memory_ok s -> memory_ok s'.
Proof.
  intros (He & Htf & Hd & Hn & Hids & Hr) [(M1 & M2 & M3) M4 M5].
  constructor; [by rewrite He, Htf, Hd|by rewrite Hn|].
  intros name. specialize (M5 name). specialize (Hr name). rewrite Hids, Hn. unfold rows_ok in *.
  destruct (rowData s !! name), (rowData s' !! name); try done.
  injection Hr as Hr. destruct (rowIDs s !! name); [|done]. by rewrite Hr.
Qed.

Lemma marshalled_shape {A} (m : outcome unit A) : framed same_shape (marshalled m).
Proof. unfold marshalled. frame. Qed.
Hint Resolve marshalled_shape : frames.
Lemma writeWAL_shape ty tx ti ri d o : framed same_shape (writeWAL ty tx ti ri d o).
Proof. unfold writeWAL. frame. Qed.
Lemma saveMetadata_shape : framed same_shape saveMetadata.
Proof. unfold saveMetadata, write_tree. frame. Qed.
Lemma change_info_shape name f : framed same_shape (change_info name f).
Proof. unfold change_info. frame. Qed.
Lemma reset_sequences_shape name cols : framed same_shape (reset_sequences name cols).
Proof. unfold reset_sequences. frame. Qed.
Lemma get_table_shape name : framed same_shape (get_table name).
Proof. unfold get_table. frame. Qed.
Lemma fill_auto_shape table cols : forall i row last, framed same_shape (fill_auto table i cols row last).
Proof. induction cols as [|c cols IH]; intros i row last; cbn [fill_auto]; frame. Qed.
Lemma set_cell_shape name i k v : framed same_shape (set_cell name i k v).
Proof.
  unfold set_cell. apply framed_modify. intros s. repeat split. intros other. cbn.
  destruct (decide (other = name)) as [->|Hne].
  - rewrite lookup_alter_eq. destruct (rowData s !! name); cbn; [|done]. by rewrite length_alter.
  - by rewrite lookup_alter_ne by done.
Qed.
Hint Resolve writeWAL_shape saveMetadata_shape change_info_shape reset_sequences_shape get_table_shape
  fill_auto_shape set_cell_shape : frames.

Lemma apply_updates_shape name cols check i width u : framed same_shape (apply_updates name cols check i width u).
Proof. induction u as [|[k v] u IH]; cbn [apply_updates]; frame. Qed.
Hint Resolve apply_updates_shape : frames.
Lemma update_loop_shape name t check calls f c rows : forall i,
  framed same_shape (update_loop name t check calls f c i rows).
Proof. induction rows as [|row rows IH]; intros i; cbn [update_loop]; frame. Qed.
Hint Resolve update_loop_shape : frames.
Lemma update_shape name f c : framed same_shape (UpdateRowsWithCallback name f c).
Proof. unfold UpdateRowsWithCallback, update_memory. frame. Qed.

(** ** Each operation in memory *)

Lemma snd_bind {A B} (m : SM A) (k : A -> SM B) s :
  ((m ≫= k) s).2 = match m s with (Ok a, s1) => (k a s1).2 | (_, s1) => s1 end.
Proof. unfold mbind, SO_bind. by destruct (m s) as [[] s1]. Qed.

Lemma rows_ok_mono n n' rows ids : n <= n' -> rows_ok n rows ids -> rows_ok n' rows ids.
Proof.
  intros Hn. unfold rows_ok. destruct rows, ids; try done. intros (? & ? & Hf). split_and!; try done.
  eapply Forall_impl; [exact Hf|]. cbn. lia.
Qed.

(** New contents for the maps of rows and of identifiers. *)
Lemma memory_ok_maps s s' : memory_ok s ->
  enabled s' = enabled s -> tableFiles s' = tableFiles s -> disk s' = disk s -> snextID s <= snextID s' ->
  (forall name, rows_ok (snextID s') (rowData s' !! name) (rowIDs s' !! name)) -> memory_ok s'.
Proof.
  intros [(M1 & M2 & M3) M4 M5] He Htf Hd Hn Hr. constructor; [by rewrite He, Htf, Hd|lia|done].
Qed.

Lemma rows_ok_insert (n : Z) (name : bytes) (rows : list (list Value)) (ids : list Z) (m : gmap bytes (list (list Value))) (mi : gmap bytes (list Z)) :
  rows_ok n (Some rows) (Some ids) -> (forall other, rows_ok n (m !! other) (mi !! other)) ->
  forall other, rows_ok n (<[name:=rows]> m !! other) (<[name:=ids]> mi !! other).
Proof.
  intros Hnew Hold other. destruct (decide (other = name)) as [->|Hne].
  - by rewrite !lookup_insert_eq.
  - by rewrite !lookup_insert_ne by done.
Qed.

Lemma rows_ok_delete (n : Z) (name : bytes) (m : gmap bytes (list (list Value))) (mi : gmap bytes (list Z)) :
  (forall other, rows_ok n (m !! other) (mi !! other)) ->
  forall other, rows_ok n (delete name m !! other) (delete name mi !! other).
Proof.
  intros Hold other. destruct (decide (other = name)) as [->|Hne].
  - by rewrite !lookup_delete_eq.
  - by rewrite !lookup_delete_ne by done.
Qed.

Lemma rows_ok_move (n : Z) (old new : bytes) (m : gmap bytes (list (list Value))) (mi : gmap bytes (list Z)) :
  (forall other, rows_ok n (m !! other) (mi !! other)) ->
  forall other, rows_ok n (move_key old new m !! other) (move_key old new mi !! other).
Proof.
  intros Hold. unfold move_key. pose proof (Hold old) as Ho. unfold rows_ok in Ho.
  destruct (m !! old) as [rows|], (mi !! old) as [ids|]; try done.
  intros other. by apply rows_ok_insert; [|apply rows_ok_delete].
Qed.

Lemma rows_ok_nil n : rows_ok n (Some []) (Some []).
Proof. split; [done|]. split; constructor. Qed.

Lemma next_id_run s : 0 <= snextID s < 2 ^ 64 - 1 -> next_id s = (Ok (snextID s), set_snextID (snextID s + 1) s).
Proof.
  intros Hn. unfold next_id. rewrite bind_gets, bind_modify, u64_small by (unfold in_u64; lia). done.
Qed.

Lemma get_table_run name s : get_table name s =
  (match tables s !! name with Some t => Ok t | None => Err NoTable end, s).
Proof. unfold get_table. rewrite bind_gets. by destruct (tables s !! name). Qed.

Lemma get_table_ok name t s : tables s !! name = Some t -> get_table name s = (Ok t, s).
Proof. intros Ht. by rewrite get_table_run, Ht. Qed.

Lemma get_table_none name s : tables s !! name = None -> get_table name s = (Err NoTable, s).
Proof. intros Ht. by rewrite get_table_run, Ht. Qed.

Lemma create_memory name cols s : memory_ok s -> snextID s < 2 ^ 64 - 1 ->
  memory_ok (CreateTable name cols s).2 /\ snextID (CreateTable name cols s).2 <= snextID s + 1.
Proof.
  intros Hm Hn. pose proof (mo_next _ Hm). unfold CreateTable. rewrite bind_gets. cbv beta.
  destruct (tables s !! name); [cbn; split; [done|lia]|].
  rewrite (bind_ok _ _ _ _ _ (next_id_run s ltac:(lia))). cbv zeta. rewrite bind_modify.
  unfold reset_sequences. rewrite bind_modify, (proj1 (mo_memory _ Hm)), bind_modify.
  split; [|cbn; lia]. eapply memory_ok_maps; [exact Hm|done..|cbn; lia|].
  cbn [snd rowData rowIDs snextID mret SO_ret set_rowData set_rowIDs set_sequences set_tables set_snextID].
  apply rows_ok_insert; [apply rows_ok_nil|].
  intros other. eapply rows_ok_mono; [|apply (mo_rows _ Hm)]. lia.
Qed.

Lemma drop_memory name s : memory_ok s ->
  memory_ok (DropTable name s).2 /\ snextID (DropTable name s).2 = snextID s.
Proof.
  intros Hm. unfold DropTable. destruct (tables s !! name) as [t|] eqn:Ht.
  2:{ by rewrite (bind_err _ _ _ _ _ (get_table_none _ _ Ht)). }
  rewrite (bind_ok _ _ _ _ _ (get_table_ok _ _ _ Ht)), bind_gets, (proj1 (mo_memory _ Hm)). cbn [andb when].
  rewrite (bind_ok (mret tt) _ s tt s), !bind_modify by done.
  split; [|done]. eapply memory_ok_maps; [exact Hm|done..|cbn; lia|].
  apply rows_ok_delete, (mo_rows _ Hm).
Qed.

Lemma rename_memory old new s : memory_ok s ->
  memory_ok (RenameTable old new s).2 /\ snextID (RenameTable old new s).2 = snextID s.
Proof.
  intros Hm. unfold RenameTable. destruct (tables s !! old) as [t|] eqn:Ht.
  2:{ by rewrite (bind_err _ _ _ _ _ (get_table_none _ _ Ht)). }
  rewrite (bind_ok _ _ _ _ _ (get_table_ok _ _ _ Ht)), bind_gets. cbv beta.
  destruct (tables s !! new); [done|]. destruct (mo_memory _ Hm) as (He & Htf & Hd).
  cbv zeta. rewrite !bind_modify, He.
  cbn [tableFiles set_tables]. rewrite Htf, lookup_empty.
  split; [|done]. eapply memory_ok_maps; [exact Hm|done..|cbn; lia|].
  apply rows_ok_move, (mo_rows _ Hm).
Qed.

Lemma truncate_memory name s : memory_ok s ->
  memory_ok (TruncateTable name s).2 /\ snextID (TruncateTable name s).2 = snextID s.
Proof.
  intros Hm. unfold TruncateTable. destruct (tables s !! name) as [t|] eqn:Ht.
  2:{ by rewrite (bind_err _ _ _ _ _ (get_table_none _ _ Ht)). }
  destruct (mo_memory _ Hm) as (He & Htf & Hd).
  rewrite (bind_ok _ _ _ _ _ (get_table_ok _ _ _ Ht)), bind_gets, Htf, lookup_empty, bind_modify.
  unfold reset_sequences, change_info. rewrite !bind_modify, He.
  split; [|done]. eapply memory_ok_maps; [exact Hm|done..|cbn; lia|].
  apply rows_ok_insert; [apply rows_ok_nil|apply (mo_rows _ Hm)].
Qed.

Lemma delete_memory_ok name c s : memory_ok s ->
  memory_ok (DeleteRowsWithCallback name (returning c) s).2 /\ snextID (DeleteRowsWithCallback name (returning c) s).2 = snextID s.
Proof.
  intros Hm. unfold DeleteRowsWithCallback. destruct (tables s !! name) as [t|] eqn:Ht.
  2:{ by rewrite (bind_err _ _ _ _ _ (get_table_none _ _ Ht)). }
  rewrite (bind_ok _ _ _ _ _ (get_table_ok _ _ _ Ht)). unfold delete_memory. rewrite bind_gets.
  destruct (mo_memory _ Hm) as (He & Htf & Hd). pose proof (mo_rows _ Hm name) as Hrow.
  destruct (rowData s !! name) as [rows|] eqn:Hr; [|done].
  destruct (rowIDs s !! name) as [ids|] eqn:Hids; [|done]. destruct Hrow as (Hl & Hnd & Hold).
  change (default [] (Some ids)) with ids.
  rewrite (bind_ok _ _ _ _ _ (delete_loop_memory (info t) true c rows ids s He Hl)).
  destruct (0 <? zlen (selected c ids rows)); [|done].
  cbn [when]. rewrite He. cbn [when]. unfold bump_rows, change_info.
  erewrite (bind_ok _ _ s tt) by reflexivity.
  split; [|done]. eapply memory_ok_maps; [exact Hm|done..|cbn; lia|].
  apply rows_ok_insert; [|apply (mo_rows _ Hm)].
  assert (Hsub : (selected (fun r => negb (c r)) ids rows).*1 `sublist_of` ids).
  { unfold selected. clear -Hl. revert rows Hl. induction ids as [|id ids IH]; intros [|row rows] Hl; try done.
    injection Hl as Hl. cbn. destruct (negb (c row)); cbn; [by constructor; apply IH|by constructor; apply IH]. }
  unfold rows_ok. split_and!.
  - by rewrite !length_fmap.
  - by eapply sublist_NoDup.
  - rewrite Forall_forall in *. intros x Hx. apply Hold. by eapply elem_of_sublist.
Qed.

Lemma process_insert_memory c v s : enabled s = false -> (process_insert c v s).2 = s.
Proof.
  intros He. unfold process_insert. rewrite snd_bind. unfold lift.
  destruct (fit_value c v) as [[w b]| | |]; try done.
  destruct (negb (Nullable c) && IsNull w && negb (AutoInc c) && negb (CType c =? TypeSeq)); [done|].
  rewrite bind_gets. cbv beta. by rewrite He.
Qed.

Lemma process_row_memory cols : forall i row s, enabled s = false -> (process_row i cols row s).2 = s.
Proof.
  induction cols as [|c cols IH]; intros i row s He; cbn [process_row]; [done|].
  destruct (row !! i) as [v|]; [|by apply IH]. rewrite snd_bind.
  pose proof (process_insert_memory c v s He) as Hp.
  destruct (process_insert c v s) as [[w| | |] s1]; cbn in Hp; subst; try done. by apply IH.
Qed.

Lemma insert_memory name row s : memory_ok s -> snextID s < 2 ^ 64 - 1 ->
  memory_ok (InsertRow name row s).2 /\ snextID (InsertRow name row s).2 <= snextID s + 1.
Proof.
  intros Hm Hn. pose proof (mo_next _ Hm). unfold InsertRow. destruct (tables s !! name) as [t|] eqn:Ht.
  2:{ rewrite (bind_err _ _ _ _ _ (get_table_none _ _ Ht)). split; [done|cbn; lia]. }
  rewrite (bind_ok _ _ _ _ _ (get_table_ok _ _ _ Ht)). rewrite snd_bind.
  pose proof (process_row_memory (Columns (info t)) 0 row s (proj1 (mo_memory _ Hm))) as Hp.
  destruct (process_row 0 (Columns (info t)) row s) as [[row1| | |] s1]; cbn in Hp; subst s1;
    try (split; [done|lia]).
  rewrite snd_bind. pose proof (fill_auto_shape name (Columns (info t)) 0 row1 0 s) as Hs.
  destruct (fill_auto name 0 (Columns (info t)) row1 0 s) as [r s2]. cbn [snd] in Hs.
  pose proof (memory_ok_shape _ _ Hs Hm) as Hm2. destruct Hs as (_ & _ & _ & Hn2 & _).
  destruct r as [[row2 last]| | |]; try (split; [done|lia]).
  rewrite (bind_ok _ _ _ _ _ (next_id_run s2 ltac:(lia))).
  destruct (mo_memory _ Hm2) as (He2 & Htf2 & Hd2). set (s3 := set_snextID (snextID s2 + 1) s2).
  assert (Hfile : table_file name s3 = (Ok None, s3)).
  { unfold table_file, s3. rewrite bind_gets. cbn [tableFiles disk set_snextID].
    by rewrite Htf2, Hd2, !lookup_empty. }
  rewrite (bind_ok _ _ _ _ _ Hfile), bind_gets. change (enabled s3) with (enabled s2). rewrite He2.
  unfold append_row, bump_rows, change_info. rewrite (bind_ok (when false _) _ s3 tt s3) by done.
  rewrite !bind_modify. erewrite (bind_ok (when false saveMetadata) _ _ tt) by reflexivity.
  split; [|cbn; lia].
  eapply memory_ok_maps; [exact Hm2|done..|cbn; lia|].
  cbn [snd rowData rowIDs snextID mret SO_ret set_rowData set_rowIDs set_tables set_snextID when mbind SO_bind s3].
  pose proof (mo_rows _ Hm2 name) as Hrow.
  apply rows_ok_insert; [|intros other; eapply rows_ok_mono; [|apply (mo_rows _ Hm2)]; lia].
  unfold rows_ok in *. destruct (rowData s2 !! name) as [rows|], (rowIDs s2 !! name) as [ids|]; try done.
  - cbn [default from_option Datatypes.id]. destruct Hrow as (Hl & Hnd & Hold).
    split; [rewrite !length_app; cbn; unfold Datatypes.id; lia|]. split.
    + apply NoDup_app. split; [done|]. split; [|apply NoDup_singleton].
      intros x Hx ->%list_elem_of_singleton. rewrite Forall_forall in Hold. apply Hold in Hx. lia.
    + apply Forall_app. split; [eapply Forall_impl; [exact Hold|]; cbn; lia|].
      apply Forall_singleton. lia.
  - cbn. split; [done|]. split; [apply NoDup_singleton|]. apply Forall_singleton. lia.
Qed.

Lemma storage_op_ok op s : memory_ok s -> snextID s < 2 ^ 64 - 1 ->
  memory_ok (run_storage_op op s) /\ snextID (run_storage_op op s) <= snextID s + 1.
Proof.
  intros Hm Hn. destruct op as [name cols|name|old new|name|name row|name f c|name c]; cbn [run_storage_op].
  - by apply create_memory.
  - destruct (drop_memory name s Hm) as [? ->]. split; [done|lia].
  - destruct (rename_memory old new s Hm) as [? ->]. split; [done|lia].
  - destruct (truncate_memory name s Hm) as [? ->]. split; [done|lia].
  - by apply insert_memory.
  - pose proof (update_shape name (returning f) (returning c) s) as Hs. split; [by eapply memory_ok_shape|].
    destruct Hs as (_ & _ & _ & -> & _). lia.
  - destruct (delete_memory_ok name c s Hm) as [? ->]. split; [done|lia].
Qed.

(** C6: whatever operations an in-memory storage goes through, failed
    ones included, each table has as many identifiers as rows, no two of its
    rows share one, and all were handed out by the counter. *)
Theorem memory_invariant threshold ops :
  Z.of_nat (length ops) < 2 ^ 64 - 2 ->
  memory_ok (fold_left (fun s op => run_storage_op op s) ops (NewStorage false threshold)).
Proof.
  intros Hlen. set (s0 := NewStorage false threshold).
  assert (Hm0 : memory_ok s0) by (constructor; [done|cbn; lia|intros name; cbn; by rewrite !lookup_empty]).
  assert (Hn : snextID s0 + Z.of_nat (length ops) < 2 ^ 64 - 1) by (cbn; lia).
  clearbody s0. clear Hlen. revert s0 Hm0 Hn. induction ops as [|op ops IH]; intros s Hm Hn; [done|].
  cbn [fold_left length] in *. destruct (storage_op_ok op s Hm) as [Hm' Hn']; [lia|].
  apply IH; [done|lia].
Qed.
End Constraints.

(** ** Witnesses *)

#[local] Existing Instance plain_runtime.
#[local] Existing Instance plain_json.
#[local] Existing Instance plain_environment.
#[local] Existing Instance no_columns.

(** Records whose text is their sequence number, read back from a list of
    the records a scenario writes. *)
Definition numbered_records (known : list WALRecord) : RecordJSON := {|
  marshal_record r := put_le 8 (RLSN r);
  unmarshal_record d := decoded_record <$> List.find (fun r => RLSN r =? get_le d) known
|}.

Section Examples.
Let records := numbered_records [].
#[local] Existing Instance records.

Definition users : bytes := str "users".
Definition user_columns : list ColumnDef :=
  [WithAutoInc (NewColumnDef (str "id") TypeInt 0) true;
   WithNullable (NewColumnDef (str "name") TypeChar 4) false].
Definition user_row (s : string) : list Value := [NewNullValue; NewStringValue (str s)].

(** Two users in memory. *)
Definition two_users : Storage :=
  let s := (CreateTable users user_columns (NewStorage false 0)).2 in
  (InsertRow users (user_row "bob") (InsertRow users (user_row "al") s).2).2.

Definition users_table : STable := default (mkSTable (mkTable 0 [] [] 0) []) (tables two_users !! users).

Theorem InsertRow_constraints_witness :
  exists row', rowData (InsertRow users (user_row "eve") two_users).2 !! users =
      Some (default [] (rowData two_users !! users) ++ [row']) /\
    rowIDs (InsertRow users (user_row "eve") two_users).2 !! users =
      Some (default [] (rowIDs two_users !! users) ++ [4]) /\
    length row' = 2%nat /\
    forall i c v, Columns (info users_table) !! i = Some c -> row' !! i = Some v ->
      if is_auto c then exists n, v = NewIntValue n else column_ok c v.
Proof.
  apply (InsertRow_constraints users users_table (user_row "eve") two_users 4 3
           (InsertRow users (user_row "eve") two_users).2); vm_compute; reflexivity.
Defined.

Definition named (s : string) (row : list Value) : bool :=
  match row with [_; v] => Equals v (NewStringValue (str s)) | _ => false end.

Theorem DeleteRows_memory_witness :
  exists s', DeleteRowsWithCallback users (returning (named "al  ")) two_users =
      (Ok (1, [(2, [NewIntValue 1; NewStringValue (str "al  ")])]), s') /\
    rowData s' !! users = Some [[NewIntValue 2; NewStringValue (str "bob ")]] /\
    rowIDs s' !! users = Some [3] /\
    (forall other, other <> users -> rowData s' !! other = rowData two_users !! other /\
                                     rowIDs s' !! other = rowIDs two_users !! other).
Proof.
  exact (DeleteRows_memory users users_table (named "al  ") two_users
           [[NewIntValue 1; NewStringValue (str "al  ")]; [NewIntValue 2; NewStringValue (str "bob ")]]
           [2; 3] eq_refl eq_refl eq_refl eq_refl eq_refl).
Defined.

Theorem UpdateRows_memory_witness :
  let f := fun _ : list Value => [(1%nat, NewStringValue (str "x"))] in
  UpdateRowsWithCallback users (returning f) (returning (named "al  ")) two_users =
  (Ok (1, [(2, [NewIntValue 1; NewStringValue (str "x   ")])]),
   set_rowData (<[users := [[NewIntValue 1; NewStringValue (str "x   ")];
                            [NewIntValue 2; NewStringValue (str "bob ")]]]> (rowData two_users)) two_users).
Proof.
  apply (UpdateRows_memory users users_table (fun _ : list Value => [(1%nat, NewStringValue (str "x"))])
           (named "al  ") two_users
           [[NewIntValue 1; NewStringValue (str "al  ")]; [NewIntValue 2; NewStringValue (str "bob ")]]
           [2; 3] eq_refl eq_refl eq_refl eq_refl eq_refl).
  repeat constructor; intros _; eexists; reflexivity.
Defined.

Theorem memory_invariant_witness :
  memory_ok (fold_left (fun s op => run_storage_op op s)
    [OpCreate users user_columns; OpInsertRow users (user_row "al"); OpDelete users (named "al  ")]
    (NewStorage false 0)).
Proof. apply (memory_invariant 0 [_; _; _]). reflexivity. Defined.

(** A persistent table with one row. *)
Definition stored_user : Storage :=
  let s := (CreateTable users user_columns (NewStorage true 65536)).2 in
  (InsertRow users (user_row "al") s).2.

Theorem update_delete_skip_table_files_witness :
  (GetRows 5 users stored_user).1 = Ok [[NewIntValue 1; NewStringValue (str "al  ")]] /\
  UpdateRowsWithCallback users (returning (fun _ => [(1%nat, NewStringValue (str "x"))])) (returning (fun _ => true)) stored_user =
    (Ok (0, []), stored_user) /\
  DeleteRowsWithCallback users (returning (fun _ => true)) stored_user = (Ok (0, []), stored_user).
Proof.
  split; [vm_compute; reflexivity|].
  apply (update_delete_skip_table_files users (default users_table (tables stored_user !! users)));
    vm_compute; reflexivity.
Defined.

(** A table of a persistent storage that was dropped cannot be
    created again: DROP TABLE leaves the table file, CREATE TABLE fails on
    it, but the table is then there again, with the rows it had. *)
Theorem dropped_table_not_recreated :
  let s := (DropTable users stored_user).2 in
  let s' := (CreateTable users user_columns s).2 in
  (DropTable users stored_user).1 = Ok tt /\
  (CreateTable users user_columns s).1 = Err (InTableFile FileExists) /\
  (exists t, (GetTableInfo users s').1 = Ok t) /\
  (GetRows 5 users s').1 = Ok [[NewIntValue 1; NewStringValue (str "al  ")]].
Proof. vm_compute. split; [reflexivity|]. split; [reflexivity|]. split; [by eexists|reflexivity]. Qed.
End Examples.

(** ** After a crash *)

Section Crash.
(** A persistent table without a table file, as an older version made them. *)
Definition legacy : Storage :=
  set_tables {[users := mkSTable (mkTable 1 users user_columns 0) (str "table_1.db")]}
    (set_snextID 2 (NewStorage true 65536)).

Definition no_scan (s : bytes) : option Z := None.

(** The record of one insertion, as it is written. *)
Definition insert_record : WALRecord :=
  mkRecord 1 0 WALTypeInsert 1 2 1001
    (Some (JArr [JObj [(str "type", JStr (str "INT")); (str "data", JInt 1); (str "is_null", JBool false)];
                 JObj [(str "type", JStr (str "VARCHAR")); (str "data", JStr (str "al  "));
                       (str "is_null", JBool false)]])) None.

(** An insertion saves the row in the metadata file and keeps
    it in the log; opening the files it left loads the row and replays it,
    so that the table holds it twice, under the same identifier. *)
Theorem crash_duplicates_row :
  let json := numbered_records [insert_record] in
  let s := (InsertRow (H1 := json) users (user_row "al") legacy).2 in
  let row := [NewIntValue 1; NewStringValue (str "al  ")] in
  rowData s !! users = Some [row] /\
  ReadAll (H := json) (NewWAL true (default [] (walFile s))) = Ok [decoded_record insert_record] /\
  (let opened := open_storage (H1 := json) no_scan 65536 s in
   rowData opened !! users = Some [row; row] /\ rowIDs opened !! users = Some [2; 2]).
Proof. vm_compute. split_and!; reflexivity. Qed.

(** The records of CREATE TABLE and of a renaming. *)
Definition create_record : WALRecord :=
  mkRecord 1 0 WALTypeCreateTable 1 0 1001
    (Some (JObj [(str "id", JInt 1); (str "name", JStr users); (str "columns", JArr [])])) None.
Definition rename_record : WALRecord :=
  mkRecord 2 0 WALTypeRenameTable 1 0 1002 (Some (JStr (str "users:people"))) None.

(** A table that was created and renamed since the last
    checkpoint comes back under both names: the renaming is not replayed. *)
Theorem crash_resurrects_renamed_table :
  let json := numbered_records [create_record; rename_record] in
  let s := (CreateTable (H1 := json) users [] (NewStorage true 65536)).2 in
  let s := (RenameTable (H1 := json) users (str "people") s).2 in
  (GetTableInfo users s).1 = Err NoTable /\
  (let opened := open_storage (H1 := json) no_scan 65536 s in
   (exists t, (GetTableInfo users opened).1 = Ok t) /\
   (exists t, (GetTableInfo (str "people") opened).1 = Ok t)).
Proof. vm_compute. split; [reflexivity|]. split; by eexists. Qed.
End Crash.

(** The sequence of a column is named by joining the table and
    the column with an underscore, which two tables can share: creating a
    second table restarts the first one's identifiers. *)
Theorem sequence_names_collide :
  let json := numbered_records [] in
  let col n := WithAutoInc (NewColumnDef n TypeInt 0) true in
  let s := (CreateTable (H1 := json) (str "a") [col (str "b_c")] (NewStorage false 0)).2 in
  let s := (InsertRow (H1 := json) (str "a") [NewNullValue] s).2 in
  let s := (CreateTable (H1 := json) (str "a_b") [col (str "c")] s).2 in
  let s := (InsertRow (H1 := json) (str "a") [NewNullValue] s).2 in
  rowData s !! str "a" = Some [[NewIntValue 1]; [NewIntValue 1]].
Proof. vm_compute. reflexivity. Qed.

(** A NULL is too long for a VARCHAR column of fewer than four characters:
    its text is measured. *)
Lemma null_too_long :
  fit_value (NewColumnDef (str "c") TypeVarchar 3) NewNullValue = Err (ValueTooLong (str "c")).
Proof. reflexivity. Qed.
