(* ===== verification/Lexer.v ===== *)
(** * The SQL lexer (parser/lexer.go)

    Tokens, the keywords, the lexer's state and every scanning function.
    Positions are byte offsets into the input. The loops that consume input
    take the number of bytes left as their bound: each turn consumes a
    character, so that the bound is never what stops them ([NextToken_some],
    [Tokenize_total]). [Tokenize_words] is the converse of scanning: text
    written token by token is read back as those tokens. *)

From S2P Require Import Prelude GoLib.

Open Scope Z_scope.

Inductive TokenType : Type :=
  | TokEOF | TokError | TokIdent | TokNumber | TokString | TokKeyword | TokOperator
  | TokComma | TokLParen | TokRParen | TokLBracket | TokRBracket | TokSemicolon
  | TokDot | TokStar | TokParameter.

#[export] Instance TokenType_eq_dec : EqDecision TokenType.
Proof. solve_decision. Defined.

Record Token : Type := mkToken { TType : TokenType; TValue : bytes; TPos : nat }.

#[export] Instance Token_eq_dec : EqDecision Token.
Proof. solve_decision. Defined.

(** [Token.String] *)
Definition Token_String (t : Token) : bytes :=
  let tagged name := str name ++ str "(" ++ TValue t ++ str ")" in
  match TType t with
  | TokEOF => str "EOF"
  | TokError => tagged "ERROR"%string
  | TokIdent => tagged "IDENT"%string
  | TokNumber => tagged "NUMBER"%string
  | TokString => tagged "STRING"%string
  | TokKeyword => tagged "KEYWORD"%string
  | TokOperator => tagged "OP"%string
  | TokComma => str ","
  | TokLParen => str "("
  | TokRParen => str ")"
  | TokLBracket => str "["
  | TokRBracket => str "]"
  | TokSemicolon => str ";"
  | TokDot => str "."
  | TokStar => str "*"
  | TokParameter => tagged "PARAM"%string
  end.

Definition keywords : list bytes := map str
  (["CREATE"; "DROP"; "ALTER"; "TABLE"; "INDEX";
    "SELECT"; "INSERT"; "UPDATE"; "DELETE"; "INTO"; "VALUES"; "SET";
    "FROM"; "WHERE"; "AND"; "OR"; "NOT"; "ORDER"; "BY"; "GROUP"; "HAVING";
    "LIMIT"; "OFFSET"; "ASC"; "DESC"; "DISTINCT"; "ALL";
    "JOIN"; "INNER"; "LEFT"; "RIGHT"; "OUTER"; "CROSS"; "ON"; "USING";
    "UNION"; "INTERSECT"; "EXCEPT";
    "SEQ"; "INT"; "INTEGER"; "BIGINT"; "SMALLINT"; "FLOAT"; "DOUBLE"; "DECIMAL"; "NUMERIC";
    "CHAR"; "CHARACTER"; "VARCHAR"; "TEXT"; "CLOB"; "DATE"; "TIME"; "DATETIME"; "TIMESTAMP";
    "BLOB"; "BINARY"; "FILE"; "BOOLEAN"; "BOOL";
    "PRIMARY"; "KEY"; "FOREIGN"; "REFERENCES"; "UNIQUE"; "NULL"; "DEFAULT"; "CHECK";
    "CONSTRAINT"; "AUTO_INCREMENT"; "AUTOINCREMENT";
    "AS"; "IN"; "BETWEEN"; "LIKE"; "IS"; "EXISTS"; "CASE"; "WHEN"; "THEN"; "ELSE"; "END";
    "IF"; "NULLIF"; "COALESCE"; "TRUE"; "FALSE";
    "SHOW"; "TABLES"; "DATABASES"; "COLUMNS"; "DESCRIBE"; "FULL"; "VARIABLES"; "STATUS";
    "WARNINGS"; "GRANTS"; "PROCESSLIST"; "INDEXES"; "GLOBAL"; "SESSION";
    "FUNCTION"; "PROCEDURE"; "TRIGGERS"; "TRIGGER"; "COLLATION"; "OPEN"; "EVENTS"; "EVENT";
    "ENGINES"; "ENGINE"; "KEYS"; "USE"; "DATABASE"; "SCHEMA";
    "LOAD"; "OUTFILE"; "FOLDER"; "BACKUP"; "RESTORE"; "USER"; "PASSWORD"; "LOG"; "LEVEL";
    "BEGIN"; "COMMIT"; "ROLLBACK"; "TRANSACTION"; "START";
    "FULLTEXT"; "MATCH"; "AGAINST"; "WITH"]%string).

(** [keywords[s]] *)
Definition is_keyword (s : bytes) : bool := bool_decide (s ∈ keywords).

Record Lexer : Type := mkLexer { input : bytes; pos : nat; start : nat; width : nat }.

Definition NewLexer (i : bytes) : Lexer := mkLexer i 0 0 0.

Definition set_start (n : nat) (l : Lexer) : Lexer := mkLexer (input l) (pos l) n (width l).

Definition isLetter (r : Z) : bool :=
  in_range (chr "a") (chr "z") r || in_range (chr "A") (chr "Z") r.
Definition isDigit (r : Z) : bool := in_range (chr "0") (chr "9") r.

(** The input from the position on; the slice expression is in range. *)
Definition rest (l : Lexer) : bytes := drop (pos l) (input l).

(** The character that starts a text, 0 where there is none. *)
Definition head_rune (s : bytes) : Z := match s with [] => 0 | _ => (decode_rune s).1 end.

Definition next (l : Lexer) : Z * Lexer :=
  if (length (input l) <=? pos l)%nat then (0, l)
  else let '(r, w) := decode_rune (rest l) in (r, mkLexer (input l) (pos l + w) (start l) w).

(** [l.next()] whose result is dropped *)
Definition skip (l : Lexer) : Lexer := (next l).2.

Definition peek (l : Lexer) : Z :=
  if (length (input l) <=? pos l)%nat then 0 else (decode_rune (rest l)).1.

(** [for i := 0; i < offset && pos < len; i++ { pos += w }] *)
Fixpoint peekAt_pos (offset : nat) (p : nat) (i : bytes) : nat :=
  match offset with
  | O => p
  | S n => if (length i <=? p)%nat then p
           else peekAt_pos n (p + (decode_rune (drop p i)).2) i
  end.
Definition peekAt (offset : nat) (l : Lexer) : Z :=
  let p := peekAt_pos offset (pos l) (input l) in
  if (length (input l) <=? p)%nat then 0 else (decode_rune (drop p (input l))).1.

(** The bytes left, the bound of the loops below. *)
Definition left_of (l : Lexer) : nat := length (input l) - pos l.

(** [for p(l.peek()) { l.next() }] *)
Fixpoint skip_loop (fuel : nat) (p : Z -> bool) (l : Lexer) : Lexer :=
  match fuel with
  | O => l
  | S n => if p (peek l) then skip_loop n p (skip l) else l
  end.
Definition skip_while (p : Z -> bool) (l : Lexer) : Lexer := skip_loop (left_of l) p l.

Definition skipWhitespace : Lexer -> Lexer := skip_while is_space.

Definition skipLineComment : Lexer -> Lexer :=
  skip_while (fun r => negb ((r =? 0) || (r =? 10))).

Fixpoint skip_comment (fuel : nat) (l : Lexer) : Lexer :=
  match fuel with
  | O => l
  | S n =>
    let r := peek l in
    if r =? 0 then l
    else if (r =? chr "*") && (peekAt 1 l =? chr "/") then skip (skip l)
    else skip_comment n (skip l)
  end.
Definition skipBlockComment (l : Lexer) : Lexer :=
  let l := skip (skip l) in skip_comment (left_of l) l.

(** [Token{Type: ty, Value: v, Pos: l.start}] *)
Definition tok_at (ty : TokenType) (v : bytes) (l : Lexer) : Token := mkToken ty v (start l).

(** [l.input[l.start:l.pos]] *)
Definition lexeme (l : Lexer) : bytes := slice (start l) (pos l) (input l).

Definition ident_char (r : Z) : bool := isLetter r || isDigit r || (r =? chr "_").

(** The identifier is made of ASCII characters, on which strings.ToUpper
    works byte by byte. *)
Definition scanIdentOrKeyword (l : Lexer) : Token * Lexer :=
  let l := skip_while ident_char l in
  let value := lexeme l in
  let upper := map upper_byte value in
  if is_keyword upper then (tok_at TokKeyword upper l, l) else (tok_at TokIdent value l, l).

Fixpoint number_loop (fuel : nat) (hasDot hasExp : bool) (l : Lexer) : Lexer :=
  match fuel with
  | O => l
  | S n =>
    let r := peek l in
    if isDigit r then number_loop n hasDot hasExp (skip l)
    else if (r =? chr ".") && negb hasDot && negb hasExp then number_loop n true hasExp (skip l)
    else if ((r =? chr "e") || (r =? chr "E")) && negb hasExp then
      let l := skip l in
      let r := peek l in
      number_loop n hasDot true (if (r =? chr "+") || (r =? chr "-") then skip l else l)
    else l
  end.
Definition scanNumber (l : Lexer) : Token * Lexer :=
  let l := number_loop (left_of l) false false l in (tok_at TokNumber (lexeme l) l, l).

Fixpoint backtick_loop (fuel : nat) (sb : bytes) (l : Lexer) : option (Token * Lexer) :=
  match fuel with
  | O => None
  | S n =>
    let r := peek l in
    if r =? 0 then Some (tok_at TokError (str "unterminated backtick identifier") l, l)
    else if r =? chr "`" then let l := skip l in Some (tok_at TokIdent sb l, l)
    else let '(r, l) := next l in backtick_loop n (sb ++ encode_rune r) l
  end.
Definition scanBacktickIdent (l : Lexer) : option (Token * Lexer) :=
  let l := skip l in backtick_loop (S (left_of l)) [] l.

(** What an escaped character stands for. *)
Definition unescape (quote escaped : Z) : bytes :=
  if escaped =? chr "n" then [byte.of_Z 10]
  else if escaped =? chr "t" then [byte.of_Z 9]
  else if escaped =? chr "r" then [byte.of_Z 13]
  else if escaped =? chr "\" then str "\"
  else if escaped =? quote then encode_rune quote
  else str "\" ++ encode_rune escaped.

Fixpoint string_loop (fuel : nat) (quote : Z) (sb : bytes) (l : Lexer) : option (Token * Lexer) :=
  match fuel with
  | O => None
  | S n =>
    let r := peek l in
    if r =? 0 then Some (tok_at TokError (str "unterminated string") l, l)
    else if r =? quote then
      let l := skip l in
      if peek l =? quote then string_loop n quote (sb ++ encode_rune quote) (skip l)
      else Some (tok_at TokString sb l, l)
    else if r =? chr "\" then
      let l := skip l in
      let escaped := peek l in
      if escaped =? 0 then Some (tok_at TokError (str "unterminated escape sequence") l, l)
      else string_loop n quote (sb ++ unescape quote escaped) (skip l)
    else string_loop n quote (sb ++ encode_rune r) (skip l)
  end.
Definition scanString (l : Lexer) : option (Token * Lexer) :=
  let '(quote, l) := next l in string_loop (S (left_of l)) quote [] l.

Definition scanParameter (l : Lexer) : Token * Lexer :=
  let l := skip l in
  let first := pos l in
  let l := skip_while isDigit l in
  if (first <? pos l)%nat then (tok_at TokParameter (lexeme l) l, l)
  else (tok_at TokIdent (str "$") l, l).

(** An operator that is the character consumed, or it and a second one. *)
Definition scanOperator (l : Lexer) : Token * Lexer :=
  let '(r, l) := next l in
  let one s := (tok_at TokOperator (str s) l, l) in
  let two s := let l := skip l in (tok_at TokOperator (str s) l, l) in
  if r =? chr "=" then one "="%string
  else if r =? chr "<" then
    if peek l =? chr "=" then two "<="%string
    else if peek l =? chr ">" then two "<>"%string
    else if peek l =? chr "<" then two "<<"%string
    else one "<"%string
  else if r =? chr ">" then
    if peek l =? chr "=" then two ">="%string
    else if peek l =? chr ">" then two ">>"%string
    else one ">"%string
  else if r =? chr "!" then
    if peek l =? chr "=" then two "!="%string else one "!"%string
  else if r =? chr "|" then
    if peek l =? chr "|" then two "||"%string else one "|"%string
  else if r =? chr "+" then one "+"%string
  else if r =? chr "-" then one "-"%string
  else if r =? chr "/" then one "/"%string
  else if r =? chr "%" then one "%"%string
  else (tok_at TokOperator (encode_rune r) l, l).

Definition variable_char (r : Z) : bool := ident_char r || (r =? chr ".").

Definition scanSystemVariable (l : Lexer) : Token * Lexer :=
  let l := skip l in
  let l := if peek l =? chr "@" then skip l else l in
  let l := skip_while variable_char l in
  (tok_at TokIdent (lexeme l) l, l).

(** The tokens of one character that need no look ahead. *)
Definition punctuation (r : Z) : option (TokenType * bytes) :=
  if r =? chr "?" then Some (TokParameter, str "?")
  else if r =? chr "(" then Some (TokLParen, str "(")
  else if r =? chr ")" then Some (TokRParen, str ")")
  else if r =? chr "[" then Some (TokLBracket, str "[")
  else if r =? chr "]" then Some (TokRBracket, str "]")
  else if r =? chr "," then Some (TokComma, str ",")
  else if r =? chr ";" then Some (TokSemicolon, str ";")
  else if r =? chr "." then Some (TokDot, str ".")
  else None.

Definition operator_char (r : Z) : bool :=
  (r =? chr "=") || (r =? chr "<") || (r =? chr ">") || (r =? chr "!") || (r =? chr "|")
  || (r =? chr "+") || (r =? chr "%").

(** The switch of [NextToken] on the character at the position, which is not
    the end of the input; [again] is the call of [NextToken] after a comment.
    No character is named by two cases, so that their order does not matter. *)
Definition dispatch (again : Lexer -> option (Token * Lexer)) (l : Lexer) : option (Token * Lexer) :=
  let r := peek l in
  if r =? 0 then Some (mkToken TokEOF [] (pos l), l)
  else if isLetter r || (r =? chr "_") then Some (scanIdentOrKeyword l)
  else if isDigit r then Some (scanNumber l)
  else if (r =? chr "'") || (r =? 34) then scanString l
  else if r =? chr "`" then scanBacktickIdent l
  else if r =? chr "$" then Some (scanParameter l)
  else if r =? chr "*" then
    if peekAt 1 l =? chr "/" then again (skip (skip l))
    else let l := skip l in Some (tok_at TokStar (str "*") l, l)
  else if r =? chr "@" then Some (scanSystemVariable l)
  else if r =? chr "/" then
    if peekAt 1 l =? chr "*" then
      if peekAt 2 l =? chr "!" then again (skip_while isDigit (skip (skip (skip l))))
      else again (skipBlockComment l)
    else Some (scanOperator l)
  else if r =? chr "-" then
    if peekAt 1 l =? chr "-" then again (skipLineComment l)
    else Some (scanOperator l)
  else match punctuation r with
       | Some (ty, v) => let l := skip l in Some (tok_at ty v l, l)
       | None =>
         if operator_char r then Some (scanOperator l)
         else let l := skip l in
              Some (tok_at TokError (str "unexpected character: " ++ encode_rune r) l, l)
       end.

Fixpoint next_token (fuel : nat) (l : Lexer) : option (Token * Lexer) :=
  match fuel with
  | O => None
  | S n =>
    let l := skipWhitespace l in
    if (length (input l) <=? pos l)%nat then Some (mkToken TokEOF [] (pos l), l)
    else dispatch (next_token n) (set_start (pos l) l)
  end.
Definition NextToken (l : Lexer) : option (Token * Lexer) := next_token (S (left_of l)) l.

Definition is_last (t : Token) : bool := bool_decide (TType t = TokEOF) || bool_decide (TType t = TokError).

Fixpoint tokenize_loop (fuel : nat) (l : Lexer) : option (list Token) :=
  match fuel with
  | O => None
  | S n =>
    '(tok, l) ← NextToken l;
    if is_last tok then Some [tok] else tokens ← tokenize_loop n l; Some (tok :: tokens)
  end.
Definition Tokenize (i : bytes) : option (list Token) := tokenize_loop (S (length i)) (NewLexer i).

Example tokenize_query :
  option_map (map (fun t => (TType t, TValue t))) (Tokenize (str "select a*2 from t where b<>'it''s' -- end")) =
  Some [(TokKeyword, str "SELECT"); (TokIdent, str "a"); (TokStar, str "*"); (TokNumber, str "2");
        (TokKeyword, str "FROM"); (TokIdent, str "t"); (TokKeyword, str "WHERE"); (TokIdent, str "b");
        (TokOperator, str "<>"); (TokString, str "it's"); (TokEOF, [])].
Proof. vm_compute. reflexivity. Qed.

(** ** Scanning terminates and makes progress *)

Ltac chars := repeat
  match goal with
  | |- context [chr ?s] => let v := eval vm_compute in (chr s) in change (chr s) with v
  | H : context [chr ?s] |- _ => let v := eval vm_compute in (chr s) in change (chr s) with v in H
  end.

Ltac strs := repeat
  match goal with
  | |- context [str ?s] => let v := eval vm_compute in (str s) in change (str s) with v
  | H : context [str ?s] |- _ => let v := eval vm_compute in (str s) in change (str s) with v in H
  end.

(** A later state of the same scan. *)
Definition later (l l' : Lexer) : Prop :=
  input l' = input l /\ start l' = start l /\ (pos l <= pos l')%nat /\
  (pos l <= length (input l) -> pos l' <= length (input l))%nat.

#[export] Instance later_preorder : PreOrder later.
Proof.
  split; [by intros l|]. intros a b c (Hi & Hs & Hp & Hl) (Hi' & Hs' & Hp' & Hl'). unfold later.
  rewrite Hi in *. split_and!; [congruence..|lia|lia].
Qed.

Lemma skip_later l : later l (skip l).
Proof.
  unfold later, skip, next. destruct (Nat.leb_spec (length (input l)) (pos l)); [done|].
  pose proof (decode_rune_width (rest l)) as Hw. unfold rest in *.
  assert (Hne : drop (pos l) (input l) <> []).
  { intros E. apply (f_equal length) in E. rewrite length_drop in E. cbn in E. lia. }
  specialize (Hw Hne). destruct (decode_rune _) as [r w]. cbn [snd input start pos] in *.
  rewrite length_drop in Hw. split_and!; [done..|lia|lia].
Qed.

Lemma skip_pos l : peek l <> 0 -> (pos l < pos (skip l))%nat.
Proof.
  unfold peek, skip, next. destruct (Nat.leb_spec (length (input l)) (pos l)); [done|]. intros _.
  pose proof (decode_rune_width (rest l)) as Hw. unfold rest in *.
  destruct (drop (pos l) (input l)) eqn:E.
  { apply (f_equal length) in E. rewrite length_drop in E. cbn in E. lia. }
  specialize (Hw ltac:(done)). destruct (decode_rune _) as [r w]. cbn [snd pos] in *. lia.
Qed.

Lemma peek_inside l : peek l <> 0 -> (pos l < length (input l))%nat.
Proof. unfold peek. destruct (Nat.leb_spec (length (input l)) (pos l)); [done|lia]. Qed.

Lemma next_eq l : next l = (peek l, skip l).
Proof.
  unfold skip, next, peek. destruct (_ <=? _)%nat; [done|]. by destruct (decode_rune (rest l)).
Qed.

(** Consuming a character leaves less to read. *)
Lemma skip_left l : peek l <> 0 -> (left_of (skip l) < left_of l)%nat.
Proof.
  intros Hp. pose proof (skip_pos l Hp). pose proof (peek_inside l Hp).
  destruct (skip_later l) as (Hi & _ & _ & Hl). unfold left_of. rewrite Hi. specialize (Hl ltac:(lia)). lia.
Qed.

Lemma skip_loop_later fuel p : forall l, later l (skip_loop fuel p l).
Proof.
  induction fuel as [|n IH]; intros l; cbn [skip_loop]; [done|]. destruct (p (peek l)); [|done].
  etransitivity; [apply skip_later|apply IH].
Qed.
Lemma skip_while_later p l : later l (skip_while p l).
Proof. apply skip_loop_later. Qed.

Lemma skip_comment_later fuel : forall l, later l (skip_comment fuel l).
Proof.
  induction fuel as [|n IH]; intros l; cbn [skip_comment]; [done|].
  case_match; [done|]. case_match; [etransitivity; apply skip_later|].
  etransitivity; [apply skip_later|apply IH].
Qed.

Lemma number_loop_later fuel : forall d e l, later l (number_loop fuel d e l).
Proof.
  induction fuel as [|n IH]; intros d e l; cbn [number_loop]; [done|].
  case_match; [etransitivity; [apply skip_later|apply IH]|].
  case_match; [etransitivity; [apply skip_later|apply IH]|].
  case_match; [|done]. etransitivity; [apply skip_later|].
  case_match; [etransitivity; [apply skip_later|]|]; apply IH.
Qed.

Create HintDb lexer.
#[export] Hint Resolve skip_later skip_while_later skip_comment_later number_loop_later : lexer.

(** The bound of the loops is not what ends them: with more of it they do
    the same. *)
Lemma skip_loop_enough p : p 0 = false -> forall n l, (left_of l <= n)%nat -> skip_loop n p l = skip_while p l.
Proof.
  intros Hp0 n l. unfold skip_while. remember (left_of l) as m eqn:Hm.
  assert (Hle : (left_of l <= m)%nat) by lia. clear Hm. revert n l Hle.
  induction m as [|m IH]; intros n l Hm Hn.
  - destruct n as [|n]; [done|]. cbn [skip_loop]. replace (peek l) with 0; [by rewrite Hp0|].
    unfold peek. unfold left_of in Hm. destruct (Nat.leb_spec (length (input l)) (pos l)); [done|lia].
  - destruct n as [|n]; [lia|]. cbn [skip_loop]. destruct (p (peek l)) eqn:Hp; [|done].
    assert (Hne : peek l <> 0) by (intros E; rewrite E in Hp; congruence).
    pose proof (skip_left l Hne). rewrite (IH n (skip l)) by lia. done.
Qed.

Lemma skip_while_done p l : p 0 = false -> p (peek (skip_while p l)) = false.
Proof.
  intros Hp0. unfold skip_while. remember (left_of l) as m eqn:Hm.
  assert (Hle : (left_of l <= m)%nat) by lia. clear Hm. revert l Hle. induction m as [|m IH]; intros l Hm; cbn [skip_loop].
  - replace (peek l) with 0; [done|]. unfold peek, left_of in *. destruct (Nat.leb_spec (length (input l)) (pos l)); [done|lia].
  - destruct (p (peek l)) eqn:Hp; [|done].
    assert (Hne : peek l <> 0) by (intros E; rewrite E in Hp; congruence).
    pose proof (skip_left l Hne). apply IH. lia.
Qed.

Lemma skip_while_progress p l : p (peek l) = true -> peek l <> 0 -> (pos l < pos (skip_while p l))%nat.
Proof.
  intros Hp Hne. unfold skip_while. pose proof (peek_inside l Hne).
  destruct (left_of l) as [|n] eqn:E; [unfold left_of in E; lia|]. cbn [skip_loop]. rewrite Hp.
  pose proof (skip_pos l Hne). destruct (skip_loop_later n p (skip l)) as (_ & _ & ? & _). lia.
Qed.

(** A scanned token starts where the scan started and ends beyond it. *)
Definition scanned (l : Lexer) (r : Token * Lexer) : Prop :=
  later l r.2 /\ TPos r.1 = start l /\ TType r.1 <> TokEOF /\ (pos l < pos r.2)%nat.

Lemma later_start l l' : later l l' -> start l' = start l.
Proof. intros H. apply H. Qed.
Lemma later_pos l l' : later l l' -> (pos l <= pos l')%nat.
Proof. intros H. apply H. Qed.

Lemma scanned_later l r : peek l <> 0 -> later (skip l) r.2 -> TPos r.1 = start (skip l) ->
  TType r.1 <> TokEOF -> scanned l r.
Proof.
  intros Hp Hl Hs Ht. pose proof (skip_pos l Hp). pose proof (later_pos _ _ Hl).
  split_and!; [etransitivity; [apply skip_later|done]| |done|lia].
  rewrite Hs. apply skip_later.
Qed.

Lemma backtick_loop_some fuel : forall sb l, (left_of l < fuel)%nat ->
  exists r, backtick_loop fuel sb l = Some r /\ later l r.2 /\ TPos r.1 = start l /\ TType r.1 <> TokEOF.
Proof.
  induction fuel as [|n IH]; intros sb l Hf; [lia|]. cbn [backtick_loop].
  destruct (Z.eqb_spec (peek l) 0) as [|Hne]; [by eexists|]. case_match.
  { eexists. split; [done|]. cbn. split_and!; [apply skip_later|apply skip_later|done]. }
  rewrite next_eq. pose proof (skip_left l Hne).
  destruct (IH (sb ++ encode_rune (peek l)) (skip l)) as (r & -> & Hl & Hp & Ht); [lia|].
  eexists. split; [done|]. split_and!; [etransitivity; [apply skip_later|done]| |done].
  rewrite Hp. apply skip_later.
Qed.

Lemma string_loop_some fuel quote : forall sb l, (left_of l < fuel)%nat ->
  exists r, string_loop fuel quote sb l = Some r /\ later l r.2 /\ TPos r.1 = start l /\ TType r.1 <> TokEOF.
Proof.
  assert (Hgo : forall l l' r, later l l' -> later l' r.2 /\ TPos r.1 = start l' /\ TType r.1 <> TokEOF ->
                later l r.2 /\ TPos r.1 = start l /\ TType r.1 <> TokEOF).
  { intros l l' r H1 (H2 & H3 & H4). split_and!; [by etransitivity| |done]. rewrite H3. apply H1. }
  induction fuel as [|n IH]; intros sb l Hf; [lia|]. cbn [string_loop].
  destruct (Z.eqb_spec (peek l) 0) as [|Hne]; [by eexists|].
  pose proof (skip_left l Hne). pose proof (skip_left (skip l)) as H2.
  assert (Hmore : forall sb l', later l l' -> (left_of l' < n)%nat ->
    exists r, string_loop n quote sb l' = Some r /\ later l r.2 /\ TPos r.1 = start l /\ TType r.1 <> TokEOF).
  { intros sb' l' Hl Hn. destruct (IH sb' l' Hn) as (r & Hr & Hx). eexists. split; [done|]. by eapply Hgo. }
  case_match.
  { destruct (Z.eqb_spec (peek (skip l)) quote) as [Hq|].
    - apply Hmore; [etransitivity; apply skip_later|]. 
      assert (peek (skip l) <> 0) as Hz; [|specialize (H2 Hz); lia].
      rewrite Hq. destruct (Z.eqb_spec (peek l) quote); [congruence|done].
    - eexists. split; [done|]. apply (Hgo l (skip l)); [apply skip_later|by cbn]. }
  case_match; [|apply Hmore; [apply skip_later|lia]].
  destruct (Z.eqb_spec (peek (skip l)) 0) as [|Hz].
  - eexists. split; [done|]. apply (Hgo l (skip l)); [apply skip_later|by cbn].
  - specialize (H2 Hz). apply Hmore; [etransitivity; apply skip_later|lia].
Qed.

Lemma number_loop_progress l : isDigit (peek l) = true -> peek l <> 0 ->
  (pos l < pos (number_loop (left_of l) false false l))%nat.
Proof.
  intros Hp Hne. pose proof (peek_inside l Hne).
  destruct (left_of l) as [|n] eqn:E; [unfold left_of in E; lia|]. cbn [number_loop]. rewrite Hp.
  pose proof (skip_pos l Hne). pose proof (later_pos _ _ (number_loop_later n false false (skip l))). lia.
Qed.

Lemma scanIdentOrKeyword_scanned l : ident_char (peek l) = true -> peek l <> 0 -> scanned l (scanIdentOrKeyword l).
Proof.
  intros Hc Hne. pose proof (skip_while_progress ident_char l Hc Hne). pose proof (skip_while_later ident_char l) as Hl.
  unfold scanIdentOrKeyword, scanned. destruct (is_keyword _); cbn; split_and!; try done; apply Hl.
Qed.

Lemma scanNumber_scanned l : isDigit (peek l) = true -> peek l <> 0 -> scanned l (scanNumber l).
Proof.
  intros Hc Hne. pose proof (number_loop_progress l Hc Hne).
  pose proof (number_loop_later (left_of l) false false l) as Hl.
  unfold scanNumber, scanned. cbn. split_and!; try done; apply Hl.
Qed.

Lemma scanParameter_scanned l : peek l <> 0 -> scanned l (scanParameter l).
Proof.
  intros Hne. pose proof (skip_while_later isDigit (skip l)) as Hl. unfold scanParameter.
  destruct (_ <? _)%nat; apply scanned_later; cbn; try done; apply Hl.
Qed.

Lemma scanSystemVariable_scanned l : peek l <> 0 -> scanned l (scanSystemVariable l).
Proof.
  intros Hne. unfold scanSystemVariable.
  assert (Hl : later (skip l) (skip_while variable_char (if peek (skip l) =? chr "@" then skip (skip l) else skip l))).
  { case_match; [etransitivity; [apply skip_later|]|]; apply skip_while_later. }
  apply scanned_later; cbn; try done. apply Hl.
Qed.

Lemma scanOperator_scanned l : peek l <> 0 -> scanned l (scanOperator l).
Proof.
  intros Hne. unfold scanOperator. rewrite next_eq.
  repeat match goal with |- context [if ?b then _ else _] => destruct b end;
    apply scanned_later; cbn; try done; apply skip_later.
Qed.

Lemma scanString_scanned l : peek l <> 0 -> exists r, scanString l = Some r /\ scanned l r.
Proof.
  intros Hne. unfold scanString. rewrite next_eq.
  destruct (string_loop_some (S (left_of (skip l))) (peek l) [] (skip l)) as (r & -> & ? & ? & ?); [lia|].
  eexists. split; [done|]. by apply scanned_later.
Qed.

Lemma scanBacktickIdent_scanned l : peek l <> 0 -> exists r, scanBacktickIdent l = Some r /\ scanned l r.
Proof.
  intros Hne. unfold scanBacktickIdent.
  destruct (backtick_loop_some (S (left_of (skip l))) [] (skip l)) as (r & -> & ? & ? & ?); [lia|].
  eexists. split; [done|]. by apply scanned_later.
Qed.

(** What [NextToken] answers: the end of the input, or a token that starts
    at or after the position and ends strictly after its start. *)
Definition answered (l : Lexer) (r : Token * Lexer) : Prop :=
  input r.2 = input l /\ (pos l <= TPos r.1 <= pos r.2)%nat /\
  (TType r.1 <> TokEOF -> TPos r.1 < pos r.2)%nat /\
  (pos l <= length (input l) -> pos r.2 <= length (input l))%nat.

Lemma scanned_answered l l' r : later l l' -> start l' = pos l' -> scanned l' r -> answered l r.
Proof.
  intros (Hi & Hs & Hp & Hle) Hst ((Hi' & Hs' & Hp' & Hle') & Ht & _ & Hlt). rewrite Hi in *.
  split_and!; [congruence|lia|lia|lia|]. intros. apply Hle'. auto.
Qed.

Lemma answered_later l l' r : later l l' -> answered l' r -> answered l r.
Proof.
  intros (Hi & Hs & Hp & Hle) (Hi' & Hr & Ht & Hl). rewrite Hi in *.
  split_and!; [congruence|lia|lia|done|]. intros. apply Hl. auto.
Qed.

Lemma later_left l l' : later l l' -> (left_of l' <= left_of l)%nat.
Proof. intros (Hi & _ & Hp & _). unfold left_of. rewrite Hi. lia. Qed.

Lemma later_set_start n l : pos (set_start n l) = pos l /\ input (set_start n l) = input l /\
  peek (set_start n l) = peek l /\ left_of (set_start n l) = left_of l.
Proof. done. Qed.

(** A comment is skipped to a place further on. *)
Lemma comment_later l l1 : peek l <> 0 -> later (skip l) l1 -> later l l1 /\ (left_of l1 < left_of l)%nat.
Proof.
  intros Hne Hl. pose proof (skip_left l Hne). pose proof (later_left _ _ Hl).
  split; [etransitivity; [apply skip_later|done]|lia].
Qed.

Lemma skipBlockComment_later l : later (skip l) (skipBlockComment l).
Proof. unfold skipBlockComment. etransitivity; [apply skip_later|apply skip_comment_later]. Qed.

Lemma skip_line_later l : peek l <> 0 -> peek l <> 10 -> later (skip l) (skipLineComment l).
Proof.
  intros H1 H2. unfold skipLineComment, skip_while. pose proof (peek_inside l H1).
  destruct (left_of l) as [|n] eqn:E; [unfold left_of in E; lia|]. cbn [skip_loop].
  replace (negb _) with true by lia. apply skip_loop_later.
Qed.

(** Changing where the token starts is no move, but the later scan of a
    comment forgets it. *)
Lemma next_token_some fuel : forall l, (left_of l < fuel)%nat ->
  exists r, next_token fuel l = Some r /\ answered l r.
Proof.
  induction fuel as [|n IH]; intros l0 Hf; [lia|]. cbn [next_token]. unfold dispatch.
  pose proof (skip_while_later is_space l0) as Hws. change (skip_while is_space) with skipWhitespace in Hws.
  set (l1 := skipWhitespace l0) in *. pose proof (later_left _ _ Hws).
  destruct (Nat.leb_spec (length (input l1)) (pos l1)) as [|Hin].
  { eexists. split; [done|]. apply (answered_later _ l1); [done|]. unfold answered. cbn. split_and!; done || lia. }
  set (l := set_start (pos l1) l1). cbv zeta.
  assert (Ha : forall r, scanned l r -> answered l0 r).
  { intros r Hr. apply (answered_later _ l1); [done|]. pose proof (scanned_answered l l r) as Hx.
    apply Hx; [reflexivity|reflexivity|done]. }
  assert (Hm : forall l2, later (skip l) l2 -> peek l <> 0 -> exists r, next_token n l2 = Some r /\ answered l0 r).
  { intros l2 Hl Hp. destruct (comment_later _ _ Hp Hl) as [Hl2 Hlt].
    destruct (IH l2) as (r & Hr & Hans); [change (left_of l) with (left_of l1) in Hlt; lia|].
    eexists. split; [done|]. apply (answered_later _ l1); [done|].
    pose proof (answered_later l l2 r Hl2 Hans) as Hx. exact Hx. }
  assert (Hend : answered l0 (mkToken TokEOF [] (pos l), l)).
  { apply (answered_later _ l1); [done|]. unfold answered. cbn. split_and!; done || lia. }
  clearbody l. destruct (Z.eqb_spec (peek l) 0) as [|Hne]; [by eexists|]. clear Hend.
  assert (Hone : forall r, r.2 = skip l -> TPos r.1 = start (skip l) -> TType r.1 <> TokEOF -> answered l0 r).
  { intros r H1 H2 H3. apply Ha, scanned_later; rewrite ?H1; done. }
  destruct (isLetter (peek l) || (peek l =? chr "_")) eqn:Hlet.
  { eexists. split; [done|]. apply Ha, scanIdentOrKeyword_scanned; [|done]. unfold ident_char. destruct (isLetter (peek l)), (peek l =? chr "_"); cbn in *; try done; by rewrite orb_true_r. }
  destruct (isDigit (peek l)) eqn:Hdig.
  { eexists. split; [done|]. by apply Ha, scanNumber_scanned. }
  case_match. { destruct (scanString_scanned l Hne) as (r & -> & Hr). eexists. split; [done|]. by apply Ha. }
  case_match. { destruct (scanBacktickIdent_scanned l Hne) as (r & -> & Hr). eexists. split; [done|]. by apply Ha. }
  case_match. { eexists. split; [done|]. by apply Ha, scanParameter_scanned. }
  case_match. { case_match; [by apply Hm; [apply skip_later|]|]. eexists. split; [done|]. by apply Hone. }
  case_match. { eexists. split; [done|]. by apply Ha, scanSystemVariable_scanned. }
  case_match.
  { case_match; [case_match|].
    - apply Hm; [|done]. etransitivity; [apply skip_later|]. etransitivity; [apply skip_later|apply skip_while_later].
    - apply Hm; [apply skipBlockComment_later|done].
    - eexists. split; [done|]. by apply Ha, scanOperator_scanned. }
  destruct (Z.eqb_spec (peek l) (chr "-")) as [Hd|Hd].
  { case_match.
    - apply Hm; [|done]. apply skip_line_later; [done|]. rewrite Hd. done.
    - eexists. split; [done|]. by apply Ha, scanOperator_scanned. }
  case_match eqn:Hpu.
  { destruct p as [ty v]. eexists. split; [done|]. apply Hone; [done..|].
    unfold punctuation in Hpu. cbn. repeat (case_match; [by simplify_eq|]). done. }
  case_match; eexists; (split; [done|]); [by apply Ha, scanOperator_scanned|by apply Hone].
Qed.

Lemma NextToken_some l : exists r, NextToken l = Some r /\ answered l r.
Proof. apply next_token_some. lia. Qed.

(** Tokens in the order of the text: each starts before the next one. *)
Fixpoint ordered (from : nat) (ts : list Token) : Prop :=
  match ts with
  | [] => True
  | t :: ts => (from <= TPos t)%nat /\ ordered (S (TPos t)) ts
  end.

Lemma ordered_mono a b ts : (a <= b)%nat -> ordered b ts -> ordered a ts.
Proof. destruct ts as [|t ts]; [done|]. cbn. intros Hab [Hb Ho]. split; [lia|done]. Qed.

Lemma is_last_eof t : is_last t = false -> TType t <> TokEOF.
Proof. unfold is_last. intros [H _]%orb_false_iff. by apply bool_decide_eq_false in H. Qed.

Lemma tokenize_loop_some fuel : forall l, (left_of l < fuel)%nat -> (pos l <= length (input l))%nat ->
  exists ts last, tokenize_loop fuel l = Some (ts ++ [last]) /\ is_last last = true /\
    Forall (fun t => is_last t = false) ts /\ ordered (pos l) (ts ++ [last]) /\
    Forall (fun t => TPos t <= length (input l))%nat (ts ++ [last]).
Proof.
  induction fuel as [|n IH]; intros l Hf Hin; [lia|]. cbn [tokenize_loop].
  destruct (NextToken_some l) as ([tok l'] & -> & Hi & Hpos & Hend & Hle). cbn [fst snd mbind option_bind] in *.
  destruct (is_last tok) eqn:Hlast.
  { exists [], tok. cbn. split_and!; try done; [lia|]. repeat constructor. lia. }
  specialize (Hend (is_last_eof _ Hlast)). specialize (Hle Hin).
  destruct (IH l') as (ts & last & -> & Hl & Hts & Ho & Hb); [|by rewrite Hi|].
  { unfold left_of in *. rewrite Hi. lia. }
  rewrite Hi in Hb. exists (tok :: ts), last. cbn [mbind option_bind app].
  split_and!; [done..|by constructor| |].
  - cbn. split; [lia|]. eapply ordered_mono; [|done]. lia.
  - constructor; [lia|done].
Qed.

(** Every text is split into finitely many tokens: only the last
    one is the end of the input or an error, and each token starts in the
    text, after the start of the one before it. *)
Theorem Tokenize_total i :
  exists ts last, Tokenize i = Some (ts ++ [last]) /\ is_last last = true /\
    Forall (fun t => is_last t = false) ts /\ ordered 0 (ts ++ [last]) /\
    Forall (fun t => TPos t <= length i)%nat (ts ++ [last]).
Proof.
  apply (tokenize_loop_some (S (length i)) (NewLexer i)); unfold left_of; cbn [NewLexer input pos]; lia.
Qed.

(** ** Text written token by token is read back *)

(** The scan has moved on by [n] bytes. *)
Definition moved (n : nat) (l l' : Lexer) : Prop :=
  input l' = input l /\ start l' = start l /\ pos l' = (pos l + n)%nat.

Lemma moved_trans n m l1 l2 l3 : moved n l1 l2 -> moved m l2 l3 -> moved (n + m) l1 l3.
Proof. unfold moved. intros (?&?&?) (?&?&?). split_and!; [congruence..|lia]. Qed.

Lemma rest_moved n l l' : moved n l l' -> rest l' = drop n (rest l).
Proof. intros (Hi & _ & Hp). unfold rest. by rewrite Hi, Hp, drop_drop. Qed.

Lemma rest_app v s l l' : rest l = v ++ s -> moved (length v) l l' -> rest l' = s.
Proof. intros Hr Hm. by rewrite (rest_moved _ _ _ Hm), Hr, drop_app_length. Qed.

Lemma peek_rest l : peek l = head_rune (rest l).
Proof.
  unfold peek, rest, head_rune. destruct (Nat.leb_spec (length (input l)) (pos l)).
  - by rewrite drop_ge by done.
  - destruct (drop (pos l) (input l)) eqn:E; [|done].
    apply (f_equal length) in E. rewrite length_drop in E. cbn in E. lia.
Qed.

Lemma rest_inside l b s : rest l = b :: s -> (length (input l) <=? pos l)%nat = false.
Proof.
  intros Hr. apply Nat.leb_gt. apply (f_equal length) in Hr. unfold rest in Hr.
  rewrite length_drop in Hr. cbn in Hr. lia.
Qed.

Definition ascii (b : byte) : Prop := byte.unsigned b < 0x80.

Lemma head_rune_byte b s : ascii b -> head_rune (b :: s) = byte.unsigned b.
Proof. intros. cbn [head_rune]. by rewrite decode_rune_ascii. Qed.

Lemma skip_byte b s l : rest l = b :: s -> ascii b -> moved 1 l (skip l).
Proof.
  intros Hr Hb. unfold skip, next. rewrite (rest_inside _ _ _ Hr), Hr, decode_rune_ascii by done. by split_and!.
Qed.

Lemma encode_rune_cons r : exists b s, encode_rune r = b :: s.
Proof. unfold encode_rune, encode_rune_raw. repeat case_match; eauto. Qed.

Lemma head_rune_encode r s : valid_rune r = true -> head_rune (encode_rune r ++ s) = r.
Proof.
  intros Hv. pose proof (decode_encode_raw r s Hv) as Hd. unfold encode_rune. rewrite Hv.
  destruct (encode_rune_cons r) as (b & t & E). unfold encode_rune in E. rewrite Hv in E. rewrite E in *.
  cbn [app head_rune] in *. by rewrite Hd.
Qed.

Lemma skip_rune r s l : valid_rune r = true -> rest l = encode_rune r ++ s ->
  moved (length (encode_rune r)) l (skip l).
Proof.
  intros Hv Hr. pose proof (decode_encode_raw r s Hv) as Hd. unfold skip, next.
  destruct (encode_rune_cons r) as (b & t & E).
  rewrite (rest_inside l b (t ++ s)) by (by rewrite Hr, E). rewrite Hr. unfold encode_rune in *. rewrite Hv in *.
  rewrite Hd. by split_and!.
Qed.

(** The slice from the start of the token is the text moved over. *)
Lemma lexeme_moved v s l l' : rest l = v ++ s -> start l = pos l -> moved (length v) l l' -> lexeme l' = v.
Proof.
  intros Hr Hst (Hi & Hs & Hp). unfold lexeme, slice. rewrite Hi, Hs, Hst, Hp.
  fold (rest l). rewrite Hr. replace (pos l + length v - pos l)%nat with (length v) by lia.
  by rewrite take_app_length.
Qed.

Lemma skip_loop_text p v s : Forall (fun b => ascii b /\ p (byte.unsigned b) = true) v -> p (head_rune s) = false ->
  forall n l, rest l = v ++ s -> (length v < n)%nat -> moved (length v) l (skip_loop n p l).
Proof.
  intros Hv Hs. induction Hv as [|b v [Hb Hp] Hv IH]; intros n l Hr Hn; (destruct n as [|n]; [cbn in Hn; lia|]).
  - cbn [skip_loop]. rewrite peek_rest, Hr. cbn [app]. rewrite Hs. unfold moved. cbn. split_and!; [done..|lia].
  - cbn [skip_loop app length] in *. rewrite peek_rest, Hr, head_rune_byte, Hp by done.
    pose proof (skip_byte _ _ _ Hr Hb) as Hm. eapply (moved_trans 1 (length v)); [done|].
    apply IH; [|lia]. by rewrite (rest_moved _ _ _ Hm), Hr.
Qed.

Lemma skip_while_text p v s l : rest l = v ++ s -> Forall (fun b => ascii b /\ p (byte.unsigned b) = true) v ->
  p (head_rune s) = false -> p 0 = false -> moved (length v) l (skip_while p l).
Proof.
  intros Hr Hv Hs Hp0. rewrite <- (skip_loop_enough p Hp0 (S (left_of l))) by lia.
  apply (skip_loop_text p v s); try done. unfold left_of.
  apply (f_equal length) in Hr. unfold rest in Hr. rewrite length_drop, length_app in Hr. lia.
Qed.

(** How a character is written inside single quotes. *)
Definition quoted_rune (r : Z) : bytes :=
  if r =? 39 then str "''" else if r =? 92 then str "\\" else encode_rune r.
Definition quoted_text (rs : list Z) : bytes := concat (map quoted_rune rs).

(** A character that is not the terminator 0. *)
Definition text_rune (r : Z) : Prop := valid_rune r = true /\ r <> 0.

Lemma encode_ascii r : 0 <= r < 0x80 -> encode_rune r = [byte.of_Z r].
Proof.
  intros Hr. unfold encode_rune, encode_rune_raw, valid_rune, in_range.
  replace ((0 <=? r) && (r <=? 55295) || _) with true by lia. by replace (r <? 128) with true by lia.
Qed.

Lemma app_no_runes sb : sb ++ of_runes [] = sb.
Proof. exact (app_nil_r sb). Qed.

Lemma string_loop_text rs s l : forall n sb, Forall text_rune rs -> rest l = quoted_text rs ++ str "'" ++ s ->
  head_rune s <> 39 -> (length rs < n)%nat ->
  exists l', string_loop n 39 sb l = Some (tok_at TokString (sb ++ of_runes rs) l', l') /\
    moved (length (quoted_text rs) + 1) l l'.
Proof.
  intros n sb Hrs Hr Hs Hn. revert l n sb Hr Hn. induction Hrs as [|r rs [Hv H0] Hrs IH]; intros l n sb Hr Hn;
    (destruct n as [|n]; [cbn in Hn; lia|]); cbn [string_loop].
  - pose proof (skip_byte Byte.x27 s l Hr eq_refl) as Hm.
    rewrite (peek_rest l), (peek_rest (skip l)), (rest_moved _ _ _ Hm), Hr. cbn [app drop quoted_text map concat].
    change (str "'") with [Byte.x27]. cbn [app drop]. rewrite head_rune_byte by done. change (byte.unsigned Byte.x27) with 39. cbn [Z.eqb Pos.eqb].
    rewrite drop_0. destruct (Z.eqb_spec (head_rune s) 39); [done|]. exists (skip l). rewrite app_no_runes. split; [done|exact Hm].
  - unfold quoted_text in *. cbn [map concat length] in *. rewrite <- app_assoc in Hr.
    assert (Hgo : forall k l2, moved k l l2 -> k = length (quoted_rune r) ->
      exists l', string_loop n 39 (sb ++ encode_rune r) l2 = Some (tok_at TokString (sb ++ of_runes (r :: rs)) l', l') /\
        moved (length (quoted_rune r ++ concat (map quoted_rune rs)) + 1) l l').
    { intros k l2 Hm ->. pose proof (rest_app _ _ _ _ Hr Hm) as Hr2.
      destruct (IH l2 n (sb ++ encode_rune r) Hr2) as (l' & -> & Hm'); [lia|]. exists l'.
      split; [|rewrite length_app, <- Nat.add_assoc; by eapply moved_trans].
      f_equal. f_equal. unfold tok_at, of_runes. by rewrite <- app_assoc. }
    unfold quoted_rune in *. destruct (Z.eqb_spec r 39) as [->|Hq].
    { assert (Hr1 : rest l = Byte.x27 :: Byte.x27 :: concat (map quoted_rune rs) ++ str "'" ++ s) by exact Hr.
      pose proof (skip_byte _ _ _ Hr1 eq_refl) as Hm1. pose proof (rest_moved _ _ _ Hm1) as Hr2. rewrite Hr1 in Hr2.
      pose proof (skip_byte _ _ _ Hr2 eq_refl) as Hm2.
      rewrite (peek_rest l), (peek_rest (skip l)), Hr2, Hr1, !head_rune_byte by done. cbn [drop].
      apply (Hgo 2%nat); [by apply (moved_trans 1 1 _ _ _ Hm1)|done]. }
    destruct (Z.eqb_spec r 92) as [->|Hb].
    { assert (Hr1 : rest l = Byte.x5c :: Byte.x5c :: concat (map quoted_rune rs) ++ str "'" ++ s) by exact Hr.
      pose proof (skip_byte _ _ _ Hr1 eq_refl) as Hm1. pose proof (rest_moved _ _ _ Hm1) as Hr2. rewrite Hr1 in Hr2.
      pose proof (skip_byte _ _ _ Hr2 eq_refl) as Hm2.
      rewrite (peek_rest l), (peek_rest (skip l)), Hr2, Hr1, !head_rune_byte by done. cbn [drop].
      apply (Hgo 2%nat); [by apply (moved_trans 1 1 _ _ _ Hm1)|done]. }
    pose proof (skip_rune _ _ _ Hv Hr) as Hm. rewrite (peek_rest l), Hr, head_rune_encode by done. chars.
    replace (r =? 0) with false by lia. replace (r =? 39) with false by lia. replace (r =? 92) with false by lia.
    by apply (Hgo _ _ Hm).
Qed.

Lemma backtick_loop_text rs s l : forall n sb, Forall (fun r => text_rune r /\ r <> 96) rs ->
  rest l = of_runes rs ++ str "`" ++ s -> (length rs < n)%nat ->
  exists l', backtick_loop n sb l = Some (tok_at TokIdent (sb ++ of_runes rs) l', l') /\
    moved (length (of_runes rs) + 1) l l'.
Proof.
  intros n sb Hrs Hr Hn. revert l n sb Hr Hn. induction Hrs as [|r rs [[Hv H0] Hq] Hrs IH]; intros l n sb Hr Hn;
    (destruct n as [|n]; [cbn in Hn; lia|]); cbn [backtick_loop].
  - pose proof (skip_byte Byte.x60 s l Hr eq_refl) as Hm. rewrite (peek_rest l), Hr.
    change (of_runes [] ++ str "`" ++ s) with (Byte.x60 :: s). rewrite head_rune_byte by done.
    exists (skip l). rewrite app_no_runes. split; [done|exact Hm].
  - unfold of_runes in *. cbn [map concat length] in *. rewrite <- app_assoc in Hr.
    pose proof (skip_rune _ _ _ Hv Hr) as Hm. rewrite next_eq, (peek_rest l), Hr, head_rune_encode by done. chars.
    replace (r =? 0) with false by lia. replace (r =? 96) with false by lia.
    pose proof (rest_app _ _ _ _ Hr Hm) as Hr2.
    destruct (IH (skip l) n (sb ++ encode_rune r) Hr2) as (l' & -> & Hm'); [lia|]. exists l'.
    split; [|rewrite length_app, <- Nat.add_assoc; by eapply moved_trans]. by rewrite <- app_assoc.
Qed.

(** Numbers: digits, perhaps a point and digits, perhaps an exponent. *)
Definition digit_text (ds : bytes) : Prop := Forall (fun b => isDigit (byte.unsigned b) = true) ds.

Lemma digit_ascii ds : digit_text ds -> Forall (fun b => ascii b /\ isDigit (byte.unsigned b) = true) ds.
Proof.
  intros H. eapply Forall_impl; [exact H|]. cbn. intros b Hb. split; [|done].
  unfold isDigit, in_range in Hb. chars. unfold ascii. lia.
Qed.

Lemma number_digits d e ds s : digit_text ds -> forall n l, rest l = ds ++ s -> (length ds <= n)%nat ->
  exists l', number_loop n d e l = number_loop (n - length ds) d e l' /\ moved (length ds) l l'.
Proof.
  intros Hds. apply digit_ascii in Hds. induction Hds as [|b ds [Ha Hb] Hds IH]; intros n l Hr Hn.
  - exists l. rewrite Nat.sub_0_r. split; [done|]. unfold moved. cbn. split_and!; [done..|lia].
  - cbn [app length] in *. destruct n as [|n]; [lia|]. cbn [number_loop].
    rewrite peek_rest, Hr, head_rune_byte, Hb by done. pose proof (skip_byte _ _ _ Hr Ha) as Hm.
    destruct (IH n (skip l)) as (l' & -> & Hm'); [by rewrite (rest_moved _ _ _ Hm), Hr|lia|].
    exists l'. split; [done|]. by apply (moved_trans 1 (length ds) l (skip l)).
Qed.

(** What follows a word: white space. *)
Definition gap (b : byte) : bool :=
  in_range 9 13 (byte.unsigned b) || (byte.unsigned b =? 32).

Lemma gap_range b : gap b = true -> 9 <= byte.unsigned b <= 32 /\ ascii b.
Proof. unfold gap, in_range, ascii. intros H. split; lia. Qed.

Definition fraction := option bytes.
Definition exponent := option (byte * bytes * bytes).
Definition fraction_text (f : fraction) : bytes := match f with Some ds => str "." ++ ds | None => [] end.
Definition exponent_text (x : exponent) : bytes :=
  match x with Some (m, sign, ds) => [m] ++ sign ++ ds | None => [] end.
Definition fraction_ok (f : fraction) : Prop := match f with Some ds => digit_text ds | None => True end.
Definition exponent_ok (x : exponent) : Prop :=
  match x with
  | Some (m, sign, ds) => (m = Byte.x65 \/ m = Byte.x45) /\ (sign = [] \/ sign = str "+" \/ sign = str "-") /\ digit_text ds
  | None => True
  end.

(** The character after digits that an exponent or a gap starts with. *)
Lemma number_stop n d e l b s : rest l = b :: s -> gap b = true -> number_loop n d e l = l.
Proof.
  intros Hr Hb. destruct (gap_range b Hb) as [Hg Ha]. destruct n; [done|]. cbn [number_loop].
  rewrite peek_rest, Hr, head_rune_byte by done. unfold isDigit, in_range. chars.
  replace ((48 <=? byte.unsigned b) && (byte.unsigned b <=? 57)) with false by lia.
  replace (byte.unsigned b =? 46) with false by lia. cbn [andb].
  by replace ((byte.unsigned b =? 101) || (byte.unsigned b =? 69)) with false by lia.
Qed.

Lemma number_exponent d x b s : exponent_ok x -> gap b = true -> forall n l,
  rest l = exponent_text x ++ b :: s -> (length (exponent_text x) < n)%nat ->
  moved (length (exponent_text x)) l (number_loop n d false l).
Proof.
  intros Hx Hb n l Hr Hn. destruct (gap_range b Hb) as [Hg Ha].
  assert (Hnone : forall n d e l, rest l = b :: s -> moved 0 l (number_loop n d e l)).
  { intros. rewrite (number_stop _ _ _ _ b s) by done. unfold moved. split_and!; [done..|lia]. }
  destruct x as [[[m sign] ds]|]; [|by apply Hnone].
  destruct Hx as (Hm & Hsg & Hds). cbn [exponent_text app length] in *. destruct n as [|n]; [lia|]. cbn [number_loop].
  assert (Hma : ascii m) by (destruct Hm as [-> | ->]; done).
  pose proof (skip_byte _ _ _ Hr Hma) as Hm1. pose proof (rest_moved _ _ _ Hm1) as Hr1. rewrite Hr in Hr1. cbn [drop] in Hr1.
  rewrite drop_0 in Hr1.
  replace (isDigit (peek l)) with false by (rewrite peek_rest, Hr, head_rune_byte by done; by destruct Hm as [-> | ->]).
  replace (peek l =? chr ".") with false by (rewrite peek_rest, Hr, head_rune_byte by done; by destruct Hm as [-> | ->]).
  cbn [andb]. replace ((peek l =? chr "e") || (peek l =? chr "E")) with true
    by (rewrite peek_rest, Hr, head_rune_byte by done; by destruct Hm as [-> | ->]). cbn [andb negb].
  assert (Hdigits : forall k l2, rest l2 = ds ++ b :: s -> (length ds <= k)%nat ->
    moved (length ds) l2 (number_loop k d true l2)).
  { intros k l2 Hr2 Hk. destruct (number_digits d true ds (b :: s) Hds k l2 Hr2 Hk) as (l' & -> & Hmv).
    rewrite (number_stop _ _ _ _ b s); [done| |done]. by rewrite (rest_app _ _ _ _ Hr2 Hmv). }
  rewrite length_app in Hn |- *. rewrite <- app_assoc in Hr1.
  apply (moved_trans 1 _ _ _ _ Hm1). destruct Hsg as [-> | Hsg].
  - cbn [app length] in *. replace (_ || _) with false; [apply Hdigits; [done|lia]|].
    rewrite peek_rest, Hr1. destruct ds as [|c ds]; cbn [app].
    + rewrite head_rune_byte by done. chars. lia.
    + apply Forall_cons in Hds as [Hc _]. unfold isDigit, in_range in Hc. chars.
      rewrite head_rune_byte by (unfold ascii; lia). lia.
  - assert (Hsign : exists c, sign = [c] /\ ascii c /\ (byte.unsigned c = 43 \/ byte.unsigned c = 45)).
    { destruct Hsg as [-> | ->]; eexists; (split; [reflexivity|]); split; auto; done. }
    destruct Hsign as (c & -> & Hca & Hcs). cbn [app length] in *.
    pose proof (skip_byte _ _ _ Hr1 Hca) as Hm2. rewrite peek_rest, Hr1, head_rune_byte by done. chars.
    replace (_ || _) with true by lia. apply (moved_trans 1 _ _ _ _ Hm2). apply Hdigits; [|lia].
    by rewrite (rest_moved _ _ _ Hm2), Hr1.
Qed.

Lemma number_text_moved ds f x b s l : ds <> [] -> digit_text ds -> fraction_ok f -> exponent_ok x -> gap b = true ->
  let v := ds ++ fraction_text f ++ exponent_text x in
  rest l = v ++ b :: s -> moved (length v) l (number_loop (left_of l) false false l).
Proof.
  intros Hne Hds Hf Hx Hb v Hr. pose proof (f_equal length Hr) as Hlen. unfold rest in Hlen.
  rewrite length_drop, length_app in Hlen. cbn [length] in Hlen. unfold left_of.
  assert (Hle : (length v < length (input l) - pos l)%nat) by lia. clear Hlen.
  set (n := (length (input l) - pos l)%nat) in *. clearbody n. unfold v in *. clear v. rewrite !length_app in *.
  rewrite <- !app_assoc in Hr.
  destruct (number_digits false false ds _ Hds n l Hr) as (l1 & -> & Hm1); [lia|].
  pose proof (rest_app _ _ _ _ Hr Hm1) as Hr1. apply (moved_trans _ _ _ _ _ Hm1).
  destruct f as [fs|]; cbn [fraction_text app length] in *.
  - destruct (n - length ds)%nat as [|k] eqn:Hk; [lia|]. cbn [number_loop].
    change (str "." ++ fs) with (Byte.x2e :: fs) in *. cbn [app length] in *.
    pose proof (skip_byte _ _ _ Hr1 eq_refl) as Hm2. pose proof (rest_moved _ _ _ Hm2) as Hr2. rewrite Hr1 in Hr2. cbn [drop] in Hr2.
    rewrite drop_0 in Hr2. rewrite peek_rest, Hr1, head_rune_byte by done. cbn -[number_loop skip moved length].
    apply (moved_trans 1 _ _ _ _ Hm2). cbn [fraction_ok] in Hf.
    destruct (number_digits true false fs _ Hf k (skip l1) Hr2) as (l3 & -> & Hm3); [lia|].
    apply (moved_trans _ _ _ _ _ Hm3). apply (number_exponent _ x b s); [done..| |lia].
    by apply (rest_app _ _ _ _ Hr2 Hm3).
  - apply (number_exponent _ x b s); [done..|lia].
Qed.

Lemma gap_tests b : gap b = true ->
  is_space (byte.unsigned b) = true /\ ident_char (byte.unsigned b) = false /\ isDigit (byte.unsigned b) = false /\
  variable_char (byte.unsigned b) = false.
Proof.
  unfold gap, is_space, variable_char, ident_char, isLetter, isDigit, in_range. chars.
  intros H. split_and!; lia.
Qed.

(** The operators and the marks, with the text of each. *)
Definition operators : list bytes := map str
  (["="; "<"; "<="; "<>"; "<<"; ">"; ">="; ">>"; "!"; "!="; "|"; "||"; "+"; "-"; "/"; "%"]%string).
Definition marks : list (TokenType * bytes) :=
  [(TokParameter, str "?"); (TokLParen, str "("); (TokRParen, str ")"); (TokLBracket, str "[");
   (TokRBracket, str "]"); (TokComma, str ","); (TokSemicolon, str ";"); (TokDot, str "."); (TokStar, str "*")].

(** Words: what a text is written with. *)
Inductive word : Type :=
  | WName (v : bytes)
  | WQuoted (rs : list Z)
  | WNumber (ds : bytes) (f : fraction) (x : exponent)
  | WString (rs : list Z)
  | WOp (s : bytes)
  | WMark (ty : TokenType) (s : bytes)
  | WParam (ds : bytes)
  | WVariable (v : bytes).

Definition text (w : word) : bytes :=
  match w with
  | WName v => v
  | WQuoted rs => str "`" ++ of_runes rs ++ str "`"
  | WNumber ds f x => ds ++ fraction_text f ++ exponent_text x
  | WString rs => str "'" ++ quoted_text rs ++ str "'"
  | WOp s => s
  | WMark _ s => s
  | WParam ds => str "$" ++ ds
  | WVariable v => str "@" ++ str "@" ++ v
  end.

Definition meaning (w : word) : TokenType * bytes :=
  match w with
  | WName v => if is_keyword (map upper_byte v) then (TokKeyword, map upper_byte v) else (TokIdent, v)
  | WQuoted rs => (TokIdent, of_runes rs)
  | WNumber _ _ _ => (TokNumber, text w)
  | WString rs => (TokString, of_runes rs)
  | WOp s => (TokOperator, s)
  | WMark ty s => (ty, s)
  | WParam _ => (TokParameter, text w)
  | WVariable _ => (TokIdent, text w)
  end.

Definition spelled (p : Z -> bool) (v : bytes) : Prop := Forall (fun b => ascii b /\ p (byte.unsigned b) = true) v.

Definition word_ok (w : word) : Prop :=
  match w with
  | WName v => spelled ident_char v /\ exists b t, v = b :: t /\ isDigit (byte.unsigned b) = false
  | WQuoted rs => Forall (fun r => text_rune r /\ r <> 96) rs
  | WNumber ds f x => ds <> [] /\ digit_text ds /\ fraction_ok f /\ exponent_ok x
  | WString rs => Forall text_rune rs
  | WOp s => s ∈ operators
  | WMark ty s => (ty, s) ∈ marks
  | WParam ds => ds <> [] /\ digit_text ds
  | WVariable v => spelled variable_char v
  end.

(** The first character of a word decides the case of the switch. *)
Ltac dispatched Hr :=
  unfold dispatch; rewrite !peek_rest, Hr; cbn [app]; rewrite ?head_rune_byte by done.

Lemma dispatch_name again l b t : rest l = b :: t -> ascii b -> ident_char (byte.unsigned b) = true ->
  isDigit (byte.unsigned b) = false -> dispatch again l = Some (scanIdentOrKeyword l).
Proof.
  intros Hr Ha Hc Hd. dispatched Hr. unfold ident_char in Hc. rewrite Hd, orb_false_r in Hc. rewrite Hc.
  destruct (Z.eqb_spec (byte.unsigned b) 0) as [E|]; [by rewrite E in Hc|done].
Qed.

Lemma dispatch_digit again l b t : rest l = b :: t -> ascii b -> isDigit (byte.unsigned b) = true ->
  dispatch again l = Some (scanNumber l).
Proof.
  intros Hr Ha Hd. dispatched Hr. rewrite Hd. unfold isDigit, isLetter, in_range in *. chars.
  replace (byte.unsigned b =? 0) with false by lia. by replace (_ || (byte.unsigned b =? 95)) with false by lia.
Qed.

Lemma peekAt_1 l a b t : rest l = a :: b :: t -> ascii a -> ascii b -> peekAt 1 l = byte.unsigned b.
Proof.
  intros Hr Ha Hb. unfold peekAt. cbn [peekAt_pos]. rewrite (rest_inside _ _ _ Hr). fold (rest l). rewrite Hr.
  rewrite decode_rune_ascii by done. cbn [snd]. pose proof (f_equal length Hr) as Hl. unfold rest in Hl.
  rewrite length_drop in Hl. cbn [length] in Hl.
  replace (length (input l) <=? pos l + 1)%nat with false by (symmetry; apply Nat.leb_gt; lia).
  rewrite <- drop_drop. fold (rest l). rewrite Hr. change (drop 1 (a :: b :: t)) with (b :: t). by rewrite decode_rune_ascii.
Qed.

Definition lexes (l : Lexer) (w : word) (r : option (Token * Lexer)) : Prop :=
  exists l', r = Some (tok_at (meaning w).1 (meaning w).2 l', l') /\ moved (length (text w)) l l'.

Ltac in_list H :=
  cbn [operators marks map] in H;
  repeat (apply elem_of_cons in H as [H|H]; [simplify_eq|]); [..|by apply elem_of_nil in H].

Lemma dispatch_mark again l ty s b t : (ty, s) ∈ marks -> gap b = true -> rest l = s ++ b :: t ->
  lexes l (WMark ty s) (dispatch again l).
Proof.
  intros Hin Hb Hr. destruct (gap_range b Hb) as [Hg Ha]. unfold lexes. cbn [meaning text fst snd]. exists (skip l).
  assert (Hm : moved (length s) l (skip l)).
  { in_list Hin; by apply (skip_byte _ _ _ Hr). }
  split; [|done]. in_list Hin; dispatched Hr; try done.
  rewrite (peekAt_1 _ _ _ _ Hr) by done. chars. cbv beta iota zeta delta [isLetter isDigit in_range].
  chars. by replace (byte.unsigned b =? 47) with false by lia.
Qed.

Lemma scanOperator_text l s b t : s ∈ operators -> gap b = true -> rest l = s ++ b :: t ->
  lexes l (WOp s) (Some (scanOperator l)).
Proof.
  intros Hin Hb Hr. destruct (gap_range b Hb) as [Hg Ha]. unfold lexes, scanOperator. rewrite next_eq.
  cbn [meaning text fst snd]. assert (Hne : forall z, 33 <= z -> (byte.unsigned b =? z) = false) by (intros; lia).
  in_list Hin; (
    strs; cbn [app length] in *; pose proof (skip_byte _ _ _ Hr eq_refl) as Hm1;
    pose proof (rest_moved _ _ _ Hm1) as Hr1; rewrite Hr in Hr1;
    match type of Hr1 with _ = drop 1 (_ :: ?u) => change (rest (skip l) = u) in Hr1 end;
    rewrite !peek_rest, Hr, Hr1; rewrite !head_rune_byte by done; chars; rewrite ?Hne by done).
  all: first [ by exists (skip l) | exists (skip (skip l)); (split; [done|]);
    apply (moved_trans 1 1 _ _ _ Hm1); eapply skip_byte; [exact Hr1|done] ].
Qed.

Lemma dispatch_op again l s b t : s ∈ operators -> gap b = true -> rest l = s ++ b :: t ->
  dispatch again l = Some (scanOperator l).
Proof.
  intros Hin Hb Hr. destruct (gap_range b Hb) as [Hg Ha].
  assert (Hne : forall z, 33 <= z -> (byte.unsigned b =? z) = false) by (intros; lia).
  in_list Hin; strs; cbn [app] in Hr; dispatched Hr; try done;
    rewrite (peekAt_1 _ _ _ _ Hr) by done; chars; cbv beta iota zeta delta [isLetter isDigit in_range]; chars;
    rewrite !Hne by done; done.
Qed.

(** The other words, at the start of a token. *)
Lemma spelled_cons p b v : spelled p (b :: v) -> ascii b /\ p (byte.unsigned b) = true /\ spelled p v.
Proof. intros [[H1 H2] H3]%Forall_cons. done. Qed.

Lemma length_concat_runes (f : Z -> bytes) rs : (forall r, f r <> []) -> (length rs <= length (concat (map f rs)))%nat.
Proof.
  intros Hf. induction rs as [|r rs IH]; [done|]. cbn [map concat length]. rewrite length_app.
  specialize (Hf r). destruct (f r); [done|]. cbn [length]. lia.
Qed.

Lemma encode_rune_nonnil r : encode_rune r <> [].
Proof. destruct (encode_rune_cons r) as (b & s & ->). done. Qed.
Lemma quoted_rune_nonnil r : quoted_rune r <> [].
Proof. unfold quoted_rune. case_match; [done|]. case_match; [done|]. apply encode_rune_nonnil. Qed.

Lemma rest_length l s : rest l = s -> (length s <= left_of l)%nat.
Proof. intros <-. unfold rest, left_of. rewrite length_drop. lia. Qed.

(** What is left after the character that opens a word. *)
Lemma skip_rest b s l : rest l = b :: s -> ascii b -> rest (skip l) = s.
Proof. intros Hr Hb. by rewrite (rest_moved _ _ _ (skip_byte _ _ _ Hr Hb)), Hr. Qed.

Lemma lex_name again l v b t : word_ok (WName v) -> gap b = true -> start l = pos l -> rest l = v ++ b :: t ->
  lexes l (WName v) (dispatch again l).
Proof.
  intros [Hv (c & v' & E & Hd)] Hb Hst Hr. destruct (gap_range b Hb) as [Hg Ha].
  destruct (gap_tests b Hb) as (_ & Hid & _). pose proof (skip_while_text ident_char v (b :: t) l Hr Hv) as Hm.
  rewrite head_rune_byte in Hm by done. specialize (Hm Hid eq_refl).
  destruct (spelled_cons ident_char c v') as (Hc & Hci & _); [by rewrite <- E|].
  rewrite (dispatch_name _ _ c (v' ++ b :: t)) by (done || by rewrite Hr, E).
  unfold scanIdentOrKeyword, lexes. rewrite (lexeme_moved _ _ _ _ Hr Hst Hm). exists (skip_while ident_char l).
  cbn [meaning text]. split; [by destruct (is_keyword _)|done].
Qed.

Lemma lex_quoted again l rs b t : word_ok (WQuoted rs) -> rest l = text (WQuoted rs) ++ b :: t ->
  lexes l (WQuoted rs) (dispatch again l).
Proof.
  cbn [word_ok text]. intros Hw Hr. rewrite <- !app_assoc in Hr. change (str "`" ++ ?x) with (Byte.x60 :: x) in Hr.
  pose proof (skip_byte _ _ _ Hr eq_refl) as Hm. pose proof (skip_rest _ _ _ Hr eq_refl) as Hr2.
  destruct (backtick_loop_text rs (b :: t) (skip l) (S (left_of (skip l))) [] Hw Hr2) as (l' & E & Hm').
  { apply rest_length in Hr2. rewrite length_app in Hr2.
    pose proof (length_concat_runes encode_rune rs encode_rune_nonnil). unfold of_runes in Hr2. lia. }
  dispatched Hr. unfold scanBacktickIdent, lexes. exists l'. cbn -[backtick_loop encode_rune of_runes]. rewrite E.
  split; [done|]. rewrite length_app. cbn [length]. by apply (moved_trans 1 _ _ _ _ Hm).
Qed.

Lemma lex_string again l rs b t : word_ok (WString rs) -> gap b = true -> rest l = text (WString rs) ++ b :: t ->
  lexes l (WString rs) (dispatch again l).
Proof.
  cbn [word_ok text]. intros Hw Hb Hr. destruct (gap_range b Hb) as [Hg Ha].
  rewrite <- !app_assoc in Hr. change (str "'" ++ ?x) with (Byte.x27 :: x) in Hr at 1.
  pose proof (skip_byte _ _ _ Hr eq_refl) as Hm. pose proof (skip_rest _ _ _ Hr eq_refl) as Hr2.
  destruct (string_loop_text rs (b :: t) (skip l) (S (left_of (skip l))) [] Hw Hr2) as (l' & E & Hm').
  { rewrite head_rune_byte by done. lia. }
  { apply rest_length in Hr2. rewrite length_app in Hr2.
    pose proof (length_concat_runes quoted_rune rs quoted_rune_nonnil). unfold quoted_text in Hr2. lia. }
  dispatched Hr. unfold scanString, lexes. rewrite next_eq, peek_rest, Hr, head_rune_byte by done.
  exists l'. cbn -[string_loop of_runes quoted_text]. change (Z.of_N (Byte.to_N Byte.x27)) with 39. rewrite E.
  split; [done|]. rewrite length_app. cbn [length]. by apply (moved_trans 1 _ _ _ _ Hm).
Qed.

Lemma lex_number again l ds f x b t : word_ok (WNumber ds f x) -> gap b = true -> start l = pos l ->
  rest l = text (WNumber ds f x) ++ b :: t -> lexes l (WNumber ds f x) (dispatch again l).
Proof.
  intros (Hne & Hds & Hf & Hx) Hb Hst Hr. pose proof (number_text_moved ds f x b t l Hne Hds Hf Hx Hb Hr) as Hm.
  destruct ds as [|c ds]; [done|]. apply digit_ascii in Hds. destruct (spelled_cons _ _ _ Hds) as (Hc & Hci & _).
  rewrite (dispatch_digit _ _ _ _ Hr) by done. unfold scanNumber, lexes.
  rewrite (lexeme_moved _ _ _ _ Hr Hst Hm). by eexists.
Qed.

Lemma lex_param again l ds b t : word_ok (WParam ds) -> gap b = true -> start l = pos l ->
  rest l = text (WParam ds) ++ b :: t -> lexes l (WParam ds) (dispatch again l).
Proof.
  intros [Hne Hds] Hb Hst Hr. destruct (gap_tests b Hb) as (_ & _ & Hdi & _). destruct (gap_range b Hb) as [_ Ha].
  pose proof Hr as Hr1. change (text (WParam ds) ++ b :: t) with (Byte.x24 :: ds ++ b :: t) in Hr1.
  pose proof (skip_byte _ _ _ Hr1 eq_refl) as Hm. pose proof (skip_rest _ _ _ Hr1 eq_refl) as Hr2.
  pose proof (skip_while_text isDigit ds (b :: t) (skip l) Hr2 (digit_ascii _ Hds)) as Hm2.
  rewrite head_rune_byte in Hm2 by done. specialize (Hm2 Hdi eq_refl).
  pose proof (moved_trans _ _ _ _ _ Hm Hm2) as Hm3. dispatched Hr1. unfold scanParameter, lexes.
  rewrite (lexeme_moved (text (WParam ds)) _ _ _ Hr Hst Hm3). destruct Hm2 as (_ & _ & Hp). rewrite Hp.
  destruct ds; [done|]. cbn [length] in *. destruct (Nat.ltb_spec (pos (skip l)) (pos (skip l) + S (length ds))); [|lia].
  by eexists.
Qed.

Lemma lex_variable again l v b t : word_ok (WVariable v) -> gap b = true -> start l = pos l ->
  rest l = text (WVariable v) ++ b :: t -> lexes l (WVariable v) (dispatch again l).
Proof.
  intros Hv Hb Hst Hr. destruct (gap_tests b Hb) as (_ & _ & _ & Hva). destruct (gap_range b Hb) as [_ Ha].
  pose proof Hr as Hr1. change (text (WVariable v) ++ b :: t) with (Byte.x40 :: Byte.x40 :: v ++ b :: t) in Hr1.
  pose proof (skip_byte _ _ _ Hr1 eq_refl) as Hm. pose proof (skip_rest _ _ _ Hr1 eq_refl) as Hr2.
  pose proof (skip_byte _ _ _ Hr2 eq_refl) as Hm2. pose proof (skip_rest _ _ _ Hr2 eq_refl) as Hr3.
  pose proof (skip_while_text variable_char v (b :: t) _ Hr3 Hv) as Hm3.
  rewrite head_rune_byte in Hm3 by done. specialize (Hm3 Hva eq_refl).
  pose proof (moved_trans _ _ _ _ _ Hm (moved_trans _ _ _ _ _ Hm2 Hm3)) as Hm4.
  dispatched Hr1. unfold scanSystemVariable, lexes. rewrite (peek_rest (skip l)), Hr2, head_rune_byte by done.
  change (byte.unsigned Byte.x40 =? chr "@") with true. cbn iota.
  rewrite (lexeme_moved (text (WVariable v)) _ _ _ Hr Hst Hm4). by eexists.
Qed.

Lemma dispatch_word again l w b t : word_ok w -> gap b = true -> start l = pos l -> rest l = text w ++ b :: t ->
  lexes l w (dispatch again l).
Proof.
  intros Hw Hb Hst Hr. destruct w as [v|rs|ds f x|rs|s|ty s|ds|v].
  - by apply (lex_name _ _ _ b t).
  - by apply (lex_quoted _ _ _ b t).
  - by apply (lex_number _ _ _ _ _ b t).
  - by apply (lex_string _ _ _ b t).
  - rewrite (dispatch_op _ _ _ _ _ Hw Hb Hr). by apply (scanOperator_text _ _ _ _ Hw Hb Hr).
  - by apply (dispatch_mark _ _ _ _ _ _ Hw Hb Hr).
  - by apply (lex_param _ _ _ b t).
  - by apply (lex_variable _ _ _ b t).
Qed.

(** A word starts with a character that is no white space. *)
Lemma word_head w s : word_ok w -> exists b t, text w ++ s = b :: t /\ ascii b /\ 32 < byte.unsigned b.
Proof.
  destruct w as [v|rs|ds f x|rs|o|ty o|ds|v]; cbn [word_ok text]; intros Hw.
  - destruct Hw as (Hv & c & v' & -> & _). destruct (spelled_cons _ _ _ Hv) as (Hc & Hci & _).
    exists c, (v' ++ s). split_and!; [done..|]. unfold ident_char, isLetter, isDigit, in_range in Hci. chars. lia.
  - eexists _, _. split; [reflexivity|]. done.
  - destruct Hw as (Hne & Hds & _). destruct ds as [|c ds]; [done|]. apply digit_ascii in Hds.
    destruct (spelled_cons _ _ _ Hds) as (Hc & Hci & _). eexists _, _. split; [reflexivity|]. split; [done|].
    unfold isDigit, in_range in Hci. chars. lia.
  - eexists _, _. split; [reflexivity|]. done.
  - in_list Hw; eexists _, _; (split; [reflexivity|]); done.
  - in_list Hw; eexists _, _; (split; [reflexivity|]); done.
  - eexists _, _. split; [reflexivity|]. done.
  - eexists _, _. split; [reflexivity|]. done.
Qed.

Lemma space_small b : ascii b -> 32 < byte.unsigned b -> is_space (byte.unsigned b) = false.
Proof. intros Ha Hb. unfold ascii in Ha. unfold is_space, in_range. lia. Qed.

Lemma gaps_spaces g : Forall (fun b => gap b = true) g -> spelled is_space g.
Proof.
  intros H. eapply Forall_impl; [exact H|]. cbn. intros b Hb.
  destruct (gap_range b Hb), (gap_tests b Hb). done.
Qed.

Lemma next_token_word l g w b t : word_ok w -> Forall (fun b => gap b = true) g -> gap b = true ->
  rest l = g ++ text w ++ b :: t ->
  exists l', NextToken l = Some (mkToken (meaning w).1 (meaning w).2 (pos l + length g), l') /\
    rest l' = b :: t /\ pos l' = (pos l + length g + length (text w))%nat /\ input l' = input l.
Proof.
  intros Hw Hg Hb Hr. destruct (word_head w (b :: t) Hw) as (c & u & E & Hc & Hbig).
  pose proof (skip_while_text is_space g _ l Hr (gaps_spaces g Hg)) as Hm. rewrite E, head_rune_byte in Hm by done.
  specialize (Hm (space_small c Hc Hbig) eq_refl). pose proof (rest_app _ _ _ _ Hr Hm) as Hr1.
  change (skip_while is_space l) with (skipWhitespace l) in *. destruct Hm as (Hi & _ & Hp).
  unfold NextToken. cbn [next_token]. rewrite (rest_inside _ c u) by (by rewrite Hr1, E).
  set (l1 := set_start (pos (skipWhitespace l)) (skipWhitespace l)).
  destruct (dispatch_word (next_token (left_of l)) l1 w b t Hw Hb eq_refl Hr1) as (l' & -> & Hm2).
  exists l'. pose proof (rest_app _ _ _ _ (Hr1 : rest l1 = _) Hm2) as Hr2. destruct Hm2 as (Hi2 & Hs2 & Hp2).
  cbn in Hi2, Hs2, Hp2. unfold tok_at. rewrite Hs2, Hp. split_and!; [done..|lia|congruence].
Qed.

(** A text: words, each followed by white space. *)
Definition write (ws : list (word * bytes)) : bytes := concat (map (fun '(w, g) => text w ++ g) ws).
Definition gapped (wg : word * bytes) : Prop :=
  word_ok wg.1 /\ wg.2 <> [] /\ Forall (fun b => gap b = true) wg.2.

(** Its tokens, and where they start. *)
Fixpoint tokens_of (from : nat) (ws : list (word * bytes)) : list Token :=
  match ws with
  | [] => [mkToken TokEOF [] from]
  | (w, g) :: ws =>
    mkToken (meaning w).1 (meaning w).2 from :: tokens_of (from + length (text w) + length g) ws
  end.

Lemma meaning_not_last w n : word_ok w -> is_last (mkToken (meaning w).1 (meaning w).2 n) = false.
Proof.
  unfold is_last. destruct w as [v|rs|ds f x|rs|o|ty o|ds|v]; cbn [word_ok meaning fst snd TType]; try done.
  - intros _. by destruct (is_keyword _).
  - intros Hw. in_list Hw; done.
Qed.

Lemma tokenize_loop_words ws : Forall gapped ws -> forall g fuel l, Forall (fun b => gap b = true) g ->
  rest l = g ++ write ws -> (pos l <= length (input l))%nat -> (length ws < fuel)%nat ->
  tokenize_loop fuel l = Some (tokens_of (pos l + length g) ws).
Proof.
  induction 1 as [|[w h] ws (Hw & Hne & Hh) Hws IH]; intros g fuel l Hg Hr Hin Hf;
    (destruct fuel as [|n]; [cbn in Hf; lia|]); cbn [fst snd] in *; cbn [tokenize_loop].
  - cbn [write map concat] in Hr.
    pose proof (skip_while_text is_space g [] l Hr (gaps_spaces g Hg) eq_refl eq_refl) as Hm.
    pose proof (rest_app _ _ _ _ Hr Hm) as Hr1. change (skip_while is_space l) with (skipWhitespace l) in *.
    destruct Hm as (Hi & _ & Hp). unfold NextToken. cbn [next_token].
    replace (length (input (skipWhitespace l)) <=? pos (skipWhitespace l))%nat with true.
    { cbn. by rewrite Hp. }
    symmetry. apply Nat.leb_le. apply (f_equal length) in Hr1. unfold rest in Hr1. rewrite length_drop in Hr1. cbn in Hr1. lia.
  - destruct h as [|b h]; [done|]. apply Forall_cons in Hh as [Hb Hh].
    assert (Hr1 : rest l = g ++ text w ++ b :: (h ++ write ws)).
    { rewrite Hr. unfold write. cbn [map concat]. by rewrite <- app_assoc. }
    destruct (next_token_word l g w b _ Hw Hg Hb Hr1) as (l' & -> & Hr2 & Hp & Hi). cbn [mbind option_bind].
    rewrite meaning_not_last by done. rewrite (IH (b :: h) n l'); [| |done| |cbn in Hf; lia].
    + cbn [mbind option_bind tokens_of length]. rewrite Hp. done.
    + by constructor.
    + rewrite Hi, Hp. apply (f_equal length) in Hr1. unfold rest in Hr1. rewrite length_drop, !length_app in Hr1. lia.
Qed.

Lemma Tokenize_write ws : Forall gapped ws -> Tokenize (write ws) = Some (tokens_of 0 ws).
Proof.
  intros Hws. assert (Hlen : (length ws <= length (write ws))%nat).
  { clear -Hws. unfold write. induction Hws as [|[w g] ws (_ & Hne & _) _ IH]; [done|]. cbn [map concat length] in *.
    rewrite !length_app. destruct g; [done|]. cbn [length]. lia. }
  apply (tokenize_loop_words ws Hws [] (S (length (write ws))) (NewLexer (write ws))); [done|done|cbn; lia|lia].
Qed.

(** C15: a text written as words with white space after each, names,
    numbers, quoted strings and identifiers, operators, marks, parameters and
    variables, is split into exactly those words, each with its meaning and
    position: quotes and escapes are undone, keywords are capitalised. *)
Theorem Tokenize_words ws : Forall gapped ws -> Tokenize (write ws) = Some (tokens_of 0 ws).
Proof. exact (Tokenize_write ws). Qed.

(** [select a_1, 'it''s \ ok' from `my table` where n >= 2.5e-3 ] *)
Definition sample_words : list (word * bytes) :=
  map (fun w => (w, str " "))
    [WName (str "select"); WName (str "a_1"); WMark TokComma (str ",");
     WString (runes (str "it's \ ok")); WName (str "from"); WQuoted (runes (str "my table"));
     WName (str "where"); WName (str "n"); WOp (str ">="); 
     WNumber (str "2") (Some (str "5")) (Some (Byte.x65, str "-", str "3"));
     WMark TokSemicolon (str ";")].

Theorem Tokenize_words_witness :
  Forall gapped sample_words /\ Tokenize (write sample_words) = Some (tokens_of 0 sample_words).
Proof.
  assert (Hok : Forall gapped sample_words).
  { repeat (apply Forall_cons; split; [split; [|split; [discriminate|by repeat constructor]]|]); [..|apply Forall_nil; exact I].
    all: cbn [fst word_ok]; unfold spelled, digit_text, text_rune; try (by repeat constructor).
    all: try (split; [by repeat constructor|eexists _, _; split; [reflexivity|done]]).
  }
  split; [exact Hok|]. apply (Tokenize_words sample_words Hok).
Defined.
