(* ===== verification/Ast.v ===== *)
(** * Syntax trees of SQL (parser/ast.go)

    The Go structures [Expression] and [Statement] carry a type tag and the
    fields of every kind of node; here they are inductive types with a
    constructor per tag that holds the fields the parser sets for it. A
    subquery is always a SELECT, so that expressions are mutually recursive
    with [Select] only; [FromClause], [SelectColumn], [JoinClause],
    [OrderByClause] and [SelectFields] take the recursive types as parameters. *)

From S2P Require Import Prelude GoLib Types.

(** The result columns. *)
Record SelectColumn (E : Type) := mkSelectColumn { Expr : option E; ColAlias : bytes; TableName : bytes; All : bool }.
Arguments mkSelectColumn {E}. Arguments Expr {E}. Arguments ColAlias {E}. Arguments TableName {E}. Arguments All {E}.

(** The field [Join] of the Go structure is never set. *)
Record FromClause (S : Type) := mkFrom { FromTable : bytes; Database : bytes; FromAlias : bytes; FromSubquery : option S }.
Arguments mkFrom {S}. Arguments FromTable {S}. Arguments Database {S}. Arguments FromAlias {S}. Arguments FromSubquery {S}.

(** The field [Next] of the Go structure is never set. *)
Record JoinClause (E : Type) := mkJoin {
  JoinType : bytes; JoinTable : bytes; JoinAlias : bytes; On : option E; Using : list bytes }.
Arguments mkJoin {E}. Arguments JoinType {E}. Arguments JoinTable {E}. Arguments JoinAlias {E}.
Arguments On {E}. Arguments Using {E}.

Record OrderByClause (E : Type) := mkOrder { OrderExpr : E; Direction : bytes }.
Arguments mkOrder {E}. Arguments OrderExpr {E}. Arguments Direction {E}.

Record WhenClause (E : Type) := mkWhen { Cond : E; Then : E }.
Arguments mkWhen {E}. Arguments Cond {E}. Arguments Then {E}.

(** A statement of type [StmtSelect]; its field [Table] is that of [From]. *)
Record SelectFields (E S : Type) := mkSelectFields {
  Distinct : bool;
  SColumns : list (SelectColumn E);
  From : option (FromClause S);
  Joins : list (JoinClause E);
  Where : option E;
  GroupBy : list bytes;
  Having : option E;
  OrderBy : list (OrderByClause E);
  Limit : option E;
  Offset : option E;
  Union : list S;
  UnionAll : bool
}.
Arguments mkSelectFields {E S}. Arguments Distinct {E S}. Arguments SColumns {E S}. Arguments From {E S}.
Arguments Joins {E S}. Arguments Where {E S}. Arguments GroupBy {E S}. Arguments Having {E S}.
Arguments OrderBy {E S}. Arguments Limit {E S}. Arguments Offset {E S}. Arguments Union {E S}.
Arguments UnionAll {E S}.

(** [ExprIn] has a list or a subquery. *)
#[warnings="-register-all"]
Inductive Expression : Type :=
  | ExprLiteral (v : GoData)
  | ExprColumn (table column : bytes)
  | ExprFunction (name : bytes) (args : list Expression)
  | ExprUnaryOp (op : bytes) (right : Expression)
  | ExprBinaryOp (left : Expression) (op : bytes) (right : Expression)
  | ExprCase (caseExpr : option Expression) (whens : list (WhenClause Expression)) (elseExpr : option Expression)
  | ExprIn (left : Expression) (values : list Expression)
  | ExprInSelect (left : Expression) (query : Select)
  | ExprBetween (left low high : Expression)
  | ExprExists (query : Select)
  | ExprSubquery (query : Select)
  | ExprStar (table : bytes)
  | ExprMatch (column query mode : bytes) (level : Z)
with Select : Type :=
  | StmtSelect (fields : SelectFields Expression Select).

(** [stmt.Table] of a SELECT *)
Definition select_table (q : Select) : bytes :=
  match q with StmtSelect f => match From f with Some c => FromTable c | None => [] end end.

Definition NewLiteralExpr (v : GoData) : Expression := ExprLiteral v.
Definition NewColumnExpr (name : bytes) : Expression := ExprColumn [] name.
Definition NewQualifiedColumnExpr (table column : bytes) : Expression := ExprColumn table column.
Definition NewBinaryExpr (left : Expression) (op : bytes) (right : Expression) : Expression := ExprBinaryOp left op right.
Definition NewUnaryExpr (op : bytes) (right : Expression) : Expression := ExprUnaryOp op right.
Definition NewStarExpr (table : bytes) : Expression := ExprStar table.
Definition NewFunctionExpr `{GoRuntime} (name : bytes) (args : list Expression) : Expression :=
  ExprFunction (to_upper name) args.

(** The definition of a column, with its type as text. The field
    [Precision] is never set. *)
Record ColumnDef := mkColumnDef {
  DName : bytes; DType : bytes; DLength : Z; DScale : Z; DNullable : bool;
  DDefault : option Expression; DAutoInc : bool; DPrimaryKey : bool; DUnique : bool; DReferences : bytes }.

Record Constraint := mkConstraint {
  ConName : bytes; ConType : bytes; ConColumns : list bytes; RefTable : bytes; RefColumns : list bytes;
  ConExpr : option Expression }.

Record AlterAction := mkAlter {
  AlterType : bytes; AlterColumn : bytes; AlterDef : option ColumnDef; NewName : bytes }.

(** Statements, a constructor per statement type with the fields the parser
    sets. [Values] of INSERT is the first of the rows. *)
Inductive Statement : Type :=
  | SelectStmt (q : Select)
  | InsertStmt (table : bytes) (columns : list bytes) (rows : list (list Expression)) (query : option Select)
  | UpdateStmt (table : bytes) (updates : gmap bytes Expression) (cond limit : option Expression)
  | DeleteStmt (table : bytes) (cond limit : option Expression)
  | CreateTableStmt (ifNotExists : bool) (table : bytes) (defs : list ColumnDef) (constraints : list Constraint)
  | DropTableStmt (ifExists : bool) (table : bytes)
  | AlterTableStmt (table : bytes) (actions : list AlterAction)
  | CreateIndexStmt (unique fullText : bool) (name table : bytes) (columns : list bytes)
      (options : option (gmap bytes bytes))
  | DropIndexStmt (name table : bytes)
  | CreateDatabaseStmt (ifNotExists : bool) (name : bytes)
  | DropDatabaseStmt (ifExists : bool) (name : bytes)
  | DescribeStmt (table : bytes)
  | SetStmt (var : bytes) (value : Expression)
  | ShowStmt (type target pattern : bytes)
  | UseStmt (name : bytes)
  | BackupStmt (path : bytes)
  | RestoreStmt (path : bytes)
  | BeginStmt
  | CommitStmt
  | RollbackStmt.

(** [StatementType.String] of the statement's type *)
Definition StatementType_String (s : Statement) : bytes :=
  str match s with
      | SelectStmt _ => "SELECT"
      | InsertStmt _ _ _ _ => "INSERT"
      | UpdateStmt _ _ _ _ => "UPDATE"
      | DeleteStmt _ _ _ => "DELETE"
      | CreateTableStmt _ _ _ _ => "CREATE TABLE"
      | DropTableStmt _ _ => "DROP TABLE"
      | AlterTableStmt _ _ => "ALTER TABLE"
      | CreateIndexStmt _ _ _ _ _ _ => "CREATE INDEX"
      | DropIndexStmt _ _ => "DROP INDEX"
      | CreateDatabaseStmt _ _ => "CREATE DATABASE"
      | DropDatabaseStmt _ _ => "DROP DATABASE"
      | DescribeStmt _ => "DESCRIBE"
      | SetStmt _ _ => "SET"
      | ShowStmt _ _ _ => "SHOW"
      | UseStmt _ => "USE"
      | BackupStmt _ => "BACKUP"
      | RestoreStmt _ => "RESTORE"
      | BeginStmt => "BEGIN"
      | CommitStmt => "COMMIT"
      | RollbackStmt => "ROLLBACK"
      end.

Section Text.
Context `{GoRuntime}.

(** strings.Join *)
Fixpoint join (sep : bytes) (parts : list bytes) : bytes :=
  match parts with
  | [] => []
  | [p] => p
  | p :: parts => p ++ sep ++ join sep parts
  end.

(** [Expression.String]; a subquery has no text. *)
Fixpoint Expression_String (e : Expression) : bytes :=
  match e with
  | ExprLiteral (GString v) => str "'" ++ v ++ str "'"
  | ExprLiteral v => sprint_v v
  | ExprColumn table column => match table with [] => column | _ => table ++ str "." ++ column end
  | ExprFunction name args => name ++ str "(" ++ join (str ", ") (map Expression_String args) ++ str ")"
  | ExprUnaryOp op r => op ++ Expression_String r
  | ExprBinaryOp l op r => Expression_String l ++ str " " ++ op ++ str " " ++ Expression_String r
  | ExprCase caseExpr whens elseExpr =>
    str "CASE"
    ++ match caseExpr with Some c => str " " ++ Expression_String c | None => [] end
    ++ concat (map (fun w => str " WHEN " ++ Expression_String (Cond w)
                             ++ str " THEN " ++ Expression_String (Then w)) whens)
    ++ match elseExpr with Some x => str " ELSE " ++ Expression_String x | None => [] end
    ++ str " END"
  | ExprIn l values =>
    Expression_String l ++ str " IN (" ++ join (str ", ") (map Expression_String values) ++ str ")"
  | ExprInSelect l _ => Expression_String l ++ str " IN ()"
  | ExprBetween l low high =>
    Expression_String l ++ str " BETWEEN " ++ Expression_String low ++ str " AND " ++ Expression_String high
  | ExprStar table => match table with [] => str "*" | _ => table ++ str ".*" end
  | ExprMatch column query mode _ =>
    str "MATCH(" ++ column ++ str ") AGAINST('" ++ query ++ str "'"
    ++ match mode with [] => [] | _ => str " WITH " ++ mode end ++ str ")"
  | ExprExists _ | ExprSubquery _ => []
  end.

(** [SelectColumn.String]; a nil expression has no text. *)
Definition SelectColumn_String (c : SelectColumn Expression) : bytes :=
  let text := match Expr c with Some e => Expression_String e | None => [] end in
  if All c then str "*"
  else match ColAlias c with [] => text | a => text ++ str " AS " ++ a end.

(** [ColumnDef.String] *)
Definition ColumnDef_String (c : ColumnDef) : bytes :=
  DName c ++ str " " ++ DType c
  ++ (if (0 <? DLength c)%Z
      then str "(" ++ itoa (DLength c)
           ++ (if (0 <? DScale c)%Z then str ", " ++ itoa (DScale c) else []) ++ str ")"
      else [])
  ++ (if DPrimaryKey c then str " PRIMARY KEY" else [])
  ++ (if DAutoInc c then str " AUTO_INCREMENT" else [])
  ++ (if negb (DNullable c) && negb (DPrimaryKey c) then str " NOT NULL" else [])
  ++ (if DUnique c && negb (DPrimaryKey c) then str " UNIQUE" else [])
  ++ match DDefault c with Some e => str " DEFAULT " ++ Expression_String e | None => [] end.
End Text.
