(* ===== verification/Parser.v ===== *)
(** * The SQL parser: queries and expressions (parser/parser.go)

    A parser is a list of tokens and a position; parsing functions are
    computations on it that may fail. Expressions and SELECT statements
    contain each other: the functions for them are written over a section
    variable for each of the two, and [parsers] ties the knot with a bound on
    the depth. A parenthesis, keyword or operator is consumed before every
    nested call, so that the number of tokens left bounds the depth, and the
    turns of every loop ([ParserSpec.Parse_total]). *)

From S2P Require Import Prelude GoLib Types Lexer Ast.

(** The errors, by their format. *)
Inductive ParseError : Type :=
  | ExpectedType (want got : TokenType)
  | ExpectedValue (want got : bytes)
  | Expected (what : bytes) (got : Token)
  | ExpectedNull (after : bytes)
  | ExpectedColumn
  | Unsupported (what value : bytes)
  | UnexpectedToken (t : Token)
  | InvalidNumber (value : bytes)
  | AfterMatch (e : ParseError).

Record Parser : Type := mkParser { tokens : list Token; ppos : nat }.

Abbreviation PM := (SO Parser ParseError).

(** [Tokenize] always answers ([Lexer.Tokenize_total]). *)
Definition NewParser (input : bytes) : Parser := mkParser (default [] (Tokenize input)) 0.

Definition eof : Token := mkToken TokEOF [] 0.

(** [p.peek(offset)]; [p.current()] is [p.peek(0)]. *)
Definition token_at (offset : nat) (p : Parser) : Token := default eof (tokens p !! (ppos p + offset)%nat).
Definition cur (p : Parser) : Token := default eof (tokens p !! ppos p).
Definition current : PM Token := gets cur.

(** The tokens left: the bound of the loops. *)
Definition remaining (p : Parser) : nat := length (tokens p) - ppos p.

Definition advance : PM Token :=
  tok ← current;
  modify (fun p => mkParser (tokens p) (S (ppos p)));;
  mret tok.

(** [advance] whose token is dropped *)
Definition step : PM unit := _ ← advance; mret tt.

Section Parsing.
Context `{GoRuntime}.

Definition expect (typ : TokenType) (value : bytes) : PM unit :=
  tok ← current;
  if negb (bool_decide (TType tok = typ)) then fail (ExpectedType typ (TType tok))
  else if negb (bool_decide (value = [])) && negb (bool_decide (to_upper (TValue tok) = to_upper value))
  then fail (ExpectedValue value (TValue tok))
  else step.

Definition token_matches (typ : TokenType) (values : list bytes) (tok : Token) : bool :=
  bool_decide (TType tok = typ) &&
  match values with
  | [] => true
  | _ => existsb (fun v => bool_decide (to_upper (TValue tok) = to_upper v)) values
  end.
Definition match_tok (typ : TokenType) (values : list bytes) : PM bool :=
  gets (fun p => token_matches typ values (cur p)).
Definition match_op (values : list string) : PM bool := match_tok TokOperator (map str values).
Definition match_type (typ : TokenType) : PM bool := match_tok typ [].
Definition matchKeyword (keywords : list string) : PM bool := match_tok TokKeyword (map str keywords).

Definition expect_keyword (s : string) : PM unit := expect TokKeyword (str s).

(** [if p.match(...) { p.advance() }] *)
Definition optional (m : PM bool) : PM bool := b ← m; if (b : bool) then step;; mret true else mret false.

(** [if !p.match(TokIdent) { return expected what }; p.advance().Value] *)
Definition ident (what : string) : PM bytes :=
  b ← match_type TokIdent;
  if (b : bool) then tok ← advance; mret (TValue tok)
  else tok ← current; fail (Expected (str what) tok).

(** [for { item; if !p.match(TokComma) { break }; p.advance() }] *)
Fixpoint comma_loop {A} (fuel : nat) (item : PM A) : PM (list A) :=
  match fuel with
  | O => lift Hang
  | S n =>
    x ← item;
    more ← optional (match_type TokComma);
    if (more : bool) then xs ← comma_loop n item; mret (x :: xs) else mret [x]
  end.

(** A loop bounded by the tokens left when it starts. *)
Definition bounded {A} (loop : nat -> PM A) : PM A :=
  n ← gets remaining; loop (S n).
Definition comma_list {A} (item : PM A) : PM (list A) := bounded (fun n => comma_loop n item).

(** [for p.match(...) { body }] *)
Fixpoint while_loop {A} (fuel : nat) (test : PM bool) (body : PM A) : PM (list A) :=
  match fuel with
  | O => lift Hang
  | S n => b ← test; if (b : bool) then x ← body; xs ← while_loop n test body; mret (x :: xs) else mret []
  end.
Definition while_list {A} (test : PM bool) (body : PM A) : PM (list A) := bounded (fun n => while_loop n test body).

(** An optional clause: a keyword and what it introduces. *)
Definition clause {A} (keyword : string) (body : PM A) : PM (option A) :=
  b ← optional (matchKeyword [keyword]);
  if (b : bool) then x ← body; mret (Some x) else mret None.

Definition parseTableNameWithDB : PM (bytes * bytes) :=
  i ← match_type TokIdent;
  k ← match_type TokKeyword;
  if negb i && negb k then mret ([], [])
  else
    tok ← advance;
    let name := TValue tok in
    dot ← optional (match_type TokDot);
    if (dot : bool) then
      i ← match_type TokIdent;
      k ← match_type TokKeyword;
      if (i || k) then tok ← advance; mret (name, TValue tok) else mret ([], name)
    else mret ([], name).

Definition parseTableName : PM bytes := '(_, table) ← parseTableNameWithDB; mret table.

(** [if !p.match(TokIdent) { return expected what }; p.parseTableName()] *)
Definition table_name (what : string) : PM bytes :=
  b ← match_type TokIdent;
  if (b : bool) then parseTableName else tok ← current; fail (Expected (str what) tok).

(** [p.isKeyword(s)] *)
Definition isKeyword (s : bytes) : bool := is_keyword (to_upper s).

(** [p.match(TokIdent) && !p.isKeyword(p.current().Value)], then its value *)
Definition alias : PM bytes :=
  i ← match_type TokIdent;
  tok ← current;
  if i && negb (isKeyword (TValue tok)) then tok ← advance; mret (TValue tok) else mret [].

(** [strconv.ParseInt], then [strconv.ParseFloat] *)
Definition contains (b : Init.Byte.byte) (s : bytes) : bool := bool_decide (b ∈ s).
Definition parseNumberLiteral : PM Expression :=
  tok ← advance;
  let value := TValue tok in
  let as_float := match parse_float value with
                  | Some f => mret (NewLiteralExpr (GFloat64 f))
                  | None => fail (InvalidNumber value)
                  end in
  if negb (contains Byte.x2e value) && negb (contains Byte.x45 (to_upper value)) then
    match parse_int value with
    | Some n => mret (NewLiteralExpr (GInt KInt64 n))
    | None => as_float
    end
  else as_float.

(** The error of [m], in another error. *)
Definition wrap_error {A} (f : ParseError -> ParseError) (m : PM A) : PM A := fun p =>
  match m p with
  | (Err e, p') => (Err (f e), p')
  | r => r
  end.

Definition match_mode : PM bytes :=
  w ← optional (matchKeyword ["WITH"]);
  if (w : bool) then
    q ← optional (matchKeyword ["QUERY"]);
    if (q : bool) then expect_keyword "EXPANSION";; mret (str "QUERY EXPANSION")
    else
      b ← optional (matchKeyword ["BOOLEAN"]);
      if (b : bool) then expect_keyword "MODE";; mret (str "BOOLEAN") else mret []
  else mret [].

Definition match_level : PM Z :=
  l ← optional (matchKeyword ["LEVEL"]);
  if (l : bool) then
    b ← match_type TokNumber;
    if (b : bool) then
      tok ← advance;
      mret match parse_int (TValue tok) with
           | Some n => if (1 <=? n)%Z && (n <=? 3)%Z then n else 0%Z
           | None => 0%Z
           end
    else tok ← current; fail (Expected (str "level number after LEVEL") tok)
  else mret 0%Z.

Definition parseMatchAgainst : PM Expression :=
  step;;
  wrap_error AfterMatch (expect TokLParen []);;
  column ← ident "column name in MATCH";
  expect TokRParen [];;
  a ← matchKeyword ["AGAINST"];
  if negb a then tok ← current; fail (Expected (str "AGAINST after MATCH(column)") tok)
  else
    step;;
    expect TokLParen [];;
    s ← match_type TokString;
    if negb s then tok ← current; fail (Expected (str "search query string") tok)
    else
      query ← advance;
      mode ← match_mode;
      level ← match_level;
      expect TokRParen [];;
      mret (ExprMatch column (TValue query) mode level).

Section Nested.
Variable parseExpression : PM Expression.
Variable parseSelect : PM Select.

(** [( SELECT ... )], the opening parenthesis consumed *)
Definition subquery : PM Select := q ← parseSelect; expect TokRParen [];; mret q.

(** The arguments of a function call, which may be marked DISTINCT. *)
Definition argument : PM Expression :=
  d ← optional (matchKeyword ["DISTINCT"]);
  e ← parseExpression;
  mret (if (d : bool) then NewUnaryExpr (str "DISTINCT") e else e).

Definition parseIdentOrFunction : PM Expression :=
  tok ← advance;
  let name := TValue tok in
  call ← optional (match_type TokLParen);
  if (call : bool) then
    star ← optional (match_type TokStar);
    args ← (if (star : bool) then mret [NewStarExpr []]
            else close ← match_type TokRParen;
                 if negb close then comma_list argument else mret []);
    expect TokRParen [];;
    mret (NewFunctionExpr name args)
  else
    dot ← optional (match_type TokDot);
    if (dot : bool) then
      i ← match_type TokIdent;
      k ← match_type TokKeyword;
      if negb i && negb k then fail ExpectedColumn
      else col ← advance; mret (NewQualifiedColumnExpr name (TValue col))
    else mret (NewColumnExpr name).

Definition parseParenExpr : PM Expression :=
  step;;
  s ← matchKeyword ["SELECT"];
  if (s : bool) then q ← subquery; mret (ExprSubquery q)
  else e ← parseExpression; expect TokRParen [];; mret e.

Definition when_clause : PM (WhenClause Expression) :=
  step;;
  cond ← parseExpression;
  expect_keyword "THEN";;
  e ← parseExpression;
  mret (mkWhen cond e).

Definition parseCaseExpr : PM Expression :=
  step;;
  w ← matchKeyword ["WHEN"];
  caseExpr ← (if negb w then e ← parseExpression; mret (Some e) else mret None);
  whens ← while_list (matchKeyword ["WHEN"]) when_clause;
  elseExpr ← clause "ELSE" parseExpression;
  expect_keyword "END";;
  mret (ExprCase caseExpr whens elseExpr).

Definition parseExistsExpr : PM Expression :=
  step;;
  expect TokLParen [];;
  q ← subquery;
  mret (ExprExists q).

Definition parsePrimaryExpr : PM Expression :=
  tok ← current;
  let word := to_upper (TValue tok) in
  match TType tok with
  | TokNumber => parseNumberLiteral
  | TokString => step;; mret (NewLiteralExpr (GString (TValue tok)))
  | TokKeyword =>
    if bool_decide (word = str "NULL") then step;; mret (NewLiteralExpr GNil)
    else if bool_decide (word = str "TRUE") then step;; mret (NewLiteralExpr (GBool true))
    else if bool_decide (word = str "FALSE") then step;; mret (NewLiteralExpr (GBool false))
    else if bool_decide (word = str "CASE") then parseCaseExpr
    else if bool_decide (word = str "EXISTS") then parseExistsExpr
    else if bool_decide (word = str "MATCH") then parseMatchAgainst
    else parseIdentOrFunction
  | TokIdent => parseIdentOrFunction
  | TokLParen => parseParenExpr
  | TokStar => step;; mret (NewStarExpr [])
  | _ => fail (UnexpectedToken tok)
  end.

Fixpoint unary_loop (fuel : nat) : PM Expression :=
  match fuel with
  | O => lift Hang
  | S n =>
    b ← match_op ["+"; "-"]%string;
    if (b : bool) then op ← advance; right ← unary_loop n; mret (NewUnaryExpr (TValue op) right)
    else parsePrimaryExpr
  end.
Definition parseUnaryExpr : PM Expression := bounded unary_loop.

(** [for op, ok := ...; ok { right := operand(); left = NewBinaryExpr(left, op, right) }] *)
Fixpoint binary_loop (fuel : nat) (operator : PM (option bytes)) (operand : PM Expression)
  (left : Expression) : PM Expression :=
  match fuel with
  | O => lift Hang
  | S n =>
    o ← operator;
    match o with
    | Some op => right ← operand; binary_loop n operator operand (NewBinaryExpr left op right)
    | None => mret left
    end
  end.
Definition binary (operator : PM (option bytes)) (operand : PM Expression) : PM Expression :=
  left ← operand;
  bounded (fun n => binary_loop n operator operand left).

(** [if test { op = p.advance().Value }] *)
Definition operator_value (test : PM bool) : PM (option bytes) :=
  b ← test; if (b : bool) then tok ← advance; mret (Some (TValue tok)) else mret None.
(** [if p.matchKeyword(s) { p.advance(); op = s }] *)
Definition operator_keyword (s : string) : PM (option bytes) :=
  b ← optional (matchKeyword [s]); mret (if (b : bool) then Some (str s) else None).

Definition parseMultiplicativeExpr : PM Expression :=
  binary (operator_value (match_op ["*"; "/"; "%"]%string)) parseUnaryExpr.

Definition additive_operator : PM (option bytes) :=
  o ← operator_value (match_op ["+"; "-"]%string);
  match o with
  | Some op => mret (Some op)
  | None => b ← optional (match_op ["||"]); mret (if (b : bool) then Some (str "||") else None)
  end.
Definition parseAdditiveExpr : PM Expression := binary additive_operator parseMultiplicativeExpr.

Definition parseInExpr (left : Expression) : PM Expression :=
  expect TokLParen [];;
  s ← matchKeyword ["SELECT"];
  if (s : bool) then q ← subquery; mret (ExprInSelect left q)
  else
    values ← comma_list parseExpression;
    expect TokRParen [];;
    mret (ExprIn left values).

Definition parseBetweenExpr (left : Expression) : PM Expression :=
  low ← parseAdditiveExpr;
  expect_keyword "AND";;
  high ← parseAdditiveExpr;
  mret (ExprBetween left low high).

(** What follows [left IS]. *)
Definition parse_is (left : Expression) : PM Expression :=
  n ← optional (matchKeyword ["NOT"]);
  if (n : bool) then
    null ← optional (matchKeyword ["NULL"]);
    if (null : bool) then mret (NewBinaryExpr left (str "IS NOT") (NewLiteralExpr GNil))
    else fail (ExpectedNull (str "IS NOT"))
  else
    null ← optional (matchKeyword ["NULL"]);
    if (null : bool) then mret (NewBinaryExpr left (str "IS") (NewLiteralExpr GNil))
    else fail (ExpectedNull (str "IS")).

Definition parseComparisonExpr : PM Expression :=
  left ← parseAdditiveExpr;
  o ← operator_value (match_op ["="; "<"; ">"; "<="; ">="; "<>"; "!="]%string);
  match o with
  | Some op => right ← parseAdditiveExpr; mret (NewBinaryExpr left op right)
  | None =>
    is_ ← optional (matchKeyword ["IS"]);
    if (is_ : bool) then parse_is left
    else
      in_ ← optional (matchKeyword ["IN"]);
      if (in_ : bool) then parseInExpr left
      else
        between ← optional (matchKeyword ["BETWEEN"]);
        if (between : bool) then parseBetweenExpr left
        else
          like ← optional (matchKeyword ["LIKE"]);
          if (like : bool) then right ← parseAdditiveExpr; mret (NewBinaryExpr left (str "LIKE") right)
          else mret left
  end.

Definition parseNotExpr : PM Expression :=
  n ← optional (matchKeyword ["NOT"]);
  if (n : bool) then right ← parseComparisonExpr; mret (NewUnaryExpr (str "NOT") right)
  else parseComparisonExpr.

Definition parseAndExpr : PM Expression := binary (operator_keyword "AND") parseNotExpr.
Definition parseOrExpr : PM Expression := binary (operator_keyword "OR") parseAndExpr.

Definition parseSelectColumn : PM (SelectColumn Expression) :=
  star ← optional (match_type TokStar);
  if (star : bool) then mret (mkSelectColumn None [] [] true)
  else
    i ← match_type TokIdent;
    t1 ← gets (token_at 1);
    t2 ← gets (token_at 2);
    if i && bool_decide (TType t1 = TokDot) && bool_decide (TType t2 = TokStar) then
      tok ← advance; step;; step;; mret (mkSelectColumn None [] (TValue tok) true)
    else
      expr ← parseExpression;
      as_ ← optional (matchKeyword ["AS"]);
      name ← (if (as_ : bool) then i ← match_type TokIdent;
                          if (i : bool) then tok ← advance; mret (TValue tok) else mret []
              else alias);
      mret (mkSelectColumn (Some expr) name [] false).
Definition parseSelectColumns : PM (list (SelectColumn Expression)) := comma_list parseSelectColumn.

Definition parseFromClause : PM (FromClause Select) :=
  paren ← optional (match_type TokLParen);
  '(database, table, sub) ←
    (if (paren : bool) then q ← subquery; mret ([], [], Some q)
     else b ← match_type TokIdent;
          if (b : bool) then '(database, table) ← parseTableNameWithDB; mret (database, table, None)
          else tok ← current; fail (Expected (str "table name") tok));
  optional (matchKeyword ["AS"]);;
  name ← alias;
  mret (mkFrom table database name sub).

(** [p.expect(TokKeyword, "JOIN")] whose error is dropped *)
Definition expect_join : PM unit := _ ← try (expect_keyword "JOIN"); mret tt.

Definition join_type : PM bytes :=
  tok ← current;
  let word := to_upper (TValue tok) in
  if bool_decide (word = str "INNER") then step;; expect_join;; mret word
  else if bool_decide (word = str "LEFT") || bool_decide (word = str "RIGHT") then
    step;; optional (matchKeyword ["OUTER"]);; expect_join;; mret word
  else if bool_decide (word = str "CROSS") then step;; expect_join;; mret word
  else step;; mret (str "INNER").

Definition using_columns : PM (list bytes) :=
  expect TokLParen [];;
  cols ← comma_list (ident "column name");
  expect TokRParen [];;
  mret cols.

Definition parseJoinClause : PM (JoinClause Expression) :=
  type ← join_type;
  table ← table_name "table name";
  optional (matchKeyword ["AS"]);;
  name ← alias;
  on ← clause "ON" parseExpression;
  using_ ← clause "USING" using_columns;
  mret (mkJoin type table name on (default [] using_)).

Definition parseGroupByList : PM (list bytes) := comma_list (ident "column name").

Definition order_item : PM (OrderByClause Expression) :=
  expr ← parseExpression;
  asc ← optional (matchKeyword ["ASC"]);
  if (asc : bool) then mret (mkOrder expr (str "ASC"))
  else desc ← optional (matchKeyword ["DESC"]);
       mret (mkOrder expr (str (if (desc : bool) then "DESC" else "ASC")%string)).
Definition parseOrderByList : PM (list (OrderByClause Expression)) := comma_list order_item.

(** A SELECT after UNION, and whether ALL was given. *)
Definition union_part : PM (bool * Select) :=
  step;;
  all ← optional (matchKeyword ["ALL"]);
  right ← parseSelect;
  mret (all, right).

Definition parseSelectBody : PM Select :=
  step;;
  distinct ← optional (matchKeyword ["DISTINCT"]);
  cols ← parseSelectColumns;
  from ← clause "FROM" parseFromClause;
  joins ← while_list (matchKeyword ["JOIN"; "INNER"; "LEFT"; "RIGHT"; "CROSS"]%string) parseJoinClause;
  cond ← clause "WHERE" parseExpression;
  groupBy ← clause "GROUP" (expect_keyword "BY";; parseGroupByList);
  having ← clause "HAVING" parseExpression;
  orderBy ← clause "ORDER" (expect_keyword "BY";; parseOrderByList);
  limit ← clause "LIMIT" parseExpression;
  offset ← clause "OFFSET" parseExpression;
  unions ← while_list (matchKeyword ["UNION"]) union_part;
  mret (StmtSelect (mkSelectFields distinct cols from joins cond (default [] groupBy) having
                      (default [] orderBy) limit offset (map snd unions)
                      (List.last (map fst unions) false))).
End Nested.

(** [parseExpression] and [parseSelect] to a given depth. *)
Fixpoint parsers (depth : nat) : PM Expression * PM Select :=
  match depth with
  | O => (lift Hang, lift Hang)
  | S n => let '(e, s) := parsers n in (parseOrExpr e s, parseSelectBody e s)
  end.

Definition parseExpression : PM Expression := n ← gets remaining; (parsers (n + 2)).1.
Definition parseSelect : PM Select := n ← gets remaining; (parsers (n + 2)).2.
End Parsing.
