(* ===== verification/ParserDml.v ===== *)
(** * The SQL parser: statements (parser/parser_dml.go and [Parse] of
    parser/parser.go)

    One function per statement over the parser of [Parser], and [Parse], which
    chooses by the first keyword. *)

From S2P Require Import Prelude GoLib Types Lexer Ast Parser.

Section Statements.
Context `{GoRuntime}.

(** The error "expected what, got the current token" *)
Definition expected {A} (what : string) : PM A := tok ← current; fail (Expected (str what) tok).

(** [(] items [)] *)
Definition parenthesised {A} (body : PM A) : PM A :=
  expect TokLParen [];;
  x ← body;
  expect TokRParen [];;
  mret x.

Definition column_names : PM (list bytes) := comma_list (ident "column name").

(** The same, the opening parenthesis being looked for first. *)
Definition optional_names : PM (list bytes) :=
  b ← optional (match_type TokLParen);
  if (b : bool) then cols ← column_names; expect TokRParen [];; mret cols else mret [].

Definition value_row : PM (list Expression) := parenthesised (comma_list parseExpression).

Definition parseInsert : PM Statement :=
  step;;
  expect_keyword "INTO";;
  table ← table_name "table name";
  cols ← optional_names;
  values ← optional (matchKeyword ["VALUES"]);
  if (values : bool) then
    rows ← comma_list value_row;
    mret (InsertStmt table cols rows None)
  else
    select ← matchKeyword ["SELECT"];
    if (select : bool) then q ← parseSelect; mret (InsertStmt table cols [] (Some q))
    else
      dflt ← optional (matchKeyword ["DEFAULT"]);
      if (dflt : bool) then expect_keyword "VALUES";; mret (InsertStmt table cols [] None)
      else expected "VALUES or SELECT".

Definition assignment : PM (bytes * Expression) :=
  col ← ident "column name";
  expect TokOperator (str "=");;
  e ← parseExpression;
  mret (col, e).

(** [stmt.Updates[colName] = expr], in order *)
Definition update_map (l : list (bytes * Expression)) : gmap bytes Expression :=
  fold_left (fun m '(k, e) => <[k:=e]> m) l ∅.

Definition parseUpdate : PM Statement :=
  step;;
  table ← table_name "table name";
  expect_keyword "SET";;
  updates ← comma_list assignment;
  cond ← clause "WHERE" parseExpression;
  limit ← clause "LIMIT" parseExpression;
  mret (UpdateStmt table (update_map updates) cond limit).

Definition parseDelete : PM Statement :=
  step;;
  expect_keyword "FROM";;
  table ← table_name "table name";
  cond ← clause "WHERE" parseExpression;
  limit ← clause "LIMIT" parseExpression;
  mret (DeleteStmt table cond limit).

(** [parseInt]: fmt.Sscanf(s, "%d", &n), of the digits a number starts with;
    the result stays 0 where they are no 64-bit integer. *)
Fixpoint leading_digits (s : bytes) : bytes :=
  match s with
  | b :: t => if isDigit (byte.unsigned b) then b :: leading_digits t else []
  | [] => []
  end.
Definition parseInt (s : bytes) : Z := default 0%Z (parse_int (leading_digits s)).

Definition number (what : string) : PM Z :=
  b ← match_type TokNumber;
  if (b : bool) then tok ← advance; mret (parseInt (TValue tok)) else expected what.

(** The length and the scale of a type. *)
Definition type_length : PM (Z * Z) :=
  b ← optional (match_type TokLParen);
  if (b : bool) then
    len ← number "length";
    comma ← optional (match_type TokComma);
    scale ← (if (comma : bool) then number "scale" else mret 0%Z);
    expect TokRParen [];;
    mret (len, scale)
  else mret (0%Z, 0%Z).

Definition set_primary c := mkColumnDef (DName c) (DType c) (DLength c) (DScale c) false (DDefault c) (DAutoInc c) true (DUnique c) (DReferences c).
Definition set_nullable b c := mkColumnDef (DName c) (DType c) (DLength c) (DScale c) b (DDefault c) (DAutoInc c) (DPrimaryKey c) (DUnique c) (DReferences c).
Definition set_unique c := mkColumnDef (DName c) (DType c) (DLength c) (DScale c) (DNullable c) (DDefault c) (DAutoInc c) (DPrimaryKey c) true (DReferences c).
Definition set_default e c := mkColumnDef (DName c) (DType c) (DLength c) (DScale c) (DNullable c) (Some e) (DAutoInc c) (DPrimaryKey c) (DUnique c) (DReferences c).
Definition set_autoinc c := mkColumnDef (DName c) (DType c) (DLength c) (DScale c) (DNullable c) (DDefault c) true (DPrimaryKey c) (DUnique c) (DReferences c).
Definition set_references r c := mkColumnDef (DName c) (DType c) (DLength c) (DScale c) (DNullable c) (DDefault c) (DAutoInc c) (DPrimaryKey c) (DUnique c) r.

(** One constraint of a column, if there is one. *)
Definition column_option (col : ColumnDef) : PM (option ColumnDef) :=
  primary ← optional (matchKeyword ["PRIMARY"]);
  if (primary : bool) then expect_keyword "KEY";; mret (Some (set_primary col))
  else
    not ← optional (matchKeyword ["NOT"]);
    if (not : bool) then expect_keyword "NULL";; mret (Some (set_nullable false col))
    else
      null ← optional (matchKeyword ["NULL"]);
      if (null : bool) then mret (Some (set_nullable true col))
      else
        unique ← optional (matchKeyword ["UNIQUE"]);
        if (unique : bool) then mret (Some (set_unique col))
        else
          dflt ← optional (matchKeyword ["DEFAULT"]);
          if (dflt : bool) then e ← parseExpression; mret (Some (set_default e col))
          else
            auto ← optional (matchKeyword ["AUTO_INCREMENT"; "AUTOINCREMENT"]%string);
            if (auto : bool) then mret (Some (set_autoinc col))
            else
              refs ← optional (matchKeyword ["REFERENCES"]);
              if (refs : bool) then r ← ident "table name"; mret (Some (set_references r col))
              else mret None.

Fixpoint column_options (fuel : nat) (col : ColumnDef) : PM ColumnDef :=
  match fuel with
  | O => lift Hang
  | S n =>
    o ← column_option col;
    match o with Some col => column_options n col | None => mret col end
  end.

(** The value of an identifier or keyword *)
Definition word_value (what : string) : PM bytes :=
  i ← match_type TokIdent;
  k ← match_type TokKeyword;
  if negb i && negb k then expected what else tok ← advance; mret (TValue tok).

Definition parseColumnDef : PM ColumnDef :=
  name ← word_value "column name";
  type ← word_value "data type";
  '(len, scale) ← type_length;
  bounded (fun n => column_options n (mkColumnDef name type len scale true None false false false [])).

Definition constraint_words : list string := ["PRIMARY"; "FOREIGN"; "UNIQUE"; "CHECK"; "CONSTRAINT"]%string.

Definition parseConstraint : PM Constraint :=
  named ← optional (matchKeyword ["CONSTRAINT"]);
  name ← (if (named : bool) then ident "constraint name" else mret []);
  primary ← optional (matchKeyword ["PRIMARY"]);
  if (primary : bool) then
    expect_keyword "KEY";;
    cols ← parenthesised column_names;
    mret (mkConstraint name (str "PRIMARY KEY") cols [] [] None)
  else
    foreign ← optional (matchKeyword ["FOREIGN"]);
    if (foreign : bool) then
      expect_keyword "KEY";;
      cols ← parenthesised column_names;
      expect_keyword "REFERENCES";;
      table ← table_name "table name";
      refs ← optional_names;
      mret (mkConstraint name (str "FOREIGN KEY") cols table refs None)
    else
      unique ← optional (matchKeyword ["UNIQUE"]);
      if (unique : bool) then
        cols ← optional_names;
        mret (mkConstraint name (str "UNIQUE") cols [] [] None)
      else
        check ← optional (matchKeyword ["CHECK"]);
        if (check : bool) then
          e ← parenthesised parseExpression;
          mret (mkConstraint name (str "CHECK") [] [] [] (Some e))
        else mret (mkConstraint name [] [] [] [] None).

(** [IF NOT EXISTS] and [IF EXISTS] *)
Definition if_not_exists : PM bool :=
  b ← optional (matchKeyword ["IF"]);
  if (b : bool) then expect_keyword "NOT";; expect_keyword "EXISTS";; mret true else mret false.
Definition if_exists : PM bool :=
  b ← optional (matchKeyword ["IF"]);
  if (b : bool) then expect_keyword "EXISTS";; mret true else mret false.

(** [for { if p.match(TokRParen) { break }; element; if !comma { break } }] *)
Fixpoint table_elements (fuel : nat) : PM (list (ColumnDef + Constraint)) :=
  match fuel with
  | O => lift Hang
  | S n =>
    close ← match_type TokRParen;
    if (close : bool) then mret []
    else
      c ← matchKeyword constraint_words;
      x ← (if (c : bool) then k ← parseConstraint; mret (inr k) else d ← parseColumnDef; mret (inl d));
      more ← optional (match_type TokComma);
      if (more : bool) then xs ← table_elements n; mret (x :: xs) else mret [x]
  end.

Definition parseCreateTable : PM Statement :=
  step;;
  exists_ ← if_not_exists;
  table ← table_name "table name";
  elements ← parenthesised (bounded table_elements);
  mret (CreateTableStmt exists_ table
          (omap (fun x => match x with inl d => Some d | inr _ => None end) elements)
          (omap (fun x => match x with inr c => Some c | inl _ => None end) elements)).

(** The word FTS or FULLTEXT after USING. *)
Definition using_fts : PM bool :=
  u ← optional (matchKeyword ["USING"]);
  if (u : bool) then
    k ← optional (matchKeyword ["FTS"; "FULLTEXT"]%string);
    if (k : bool) then mret true
    else
      i ← optional (match_tok TokIdent [str "FTS"; str "FULLTEXT"]);
      if (i : bool) then mret true else expected "FTS or FULLTEXT after USING"
  else mret false.

Definition parseCreateIndex : PM Statement :=
  unique ← optional (matchKeyword ["UNIQUE"]);
  expect_keyword "INDEX";;
  name ← ident "index name";
  expect_keyword "ON";;
  table ← table_name "table name";
  cols ← parenthesised column_names;
  fts ← using_fts;
  mret (CreateIndexStmt unique fts name table cols None).

(** [name = value] *)
Definition fts_option : PM (bytes * bytes) :=
  key ← ident "option name";
  tok ← current;
  if negb (bool_decide (TType tok = TokOperator)) || negb (bool_decide (TValue tok = str "="))
  then expected "= after option name"
  else
    step;;
    s ← match_type TokString;
    n ← match_type TokNumber;
    i ← match_type TokIdent;
    if s || n || i then v ← advance; mret (to_upper key, TValue v) else expected "option value".

(** [for !p.match(TokRParen) && p.current().Type != TokEOF], the comma
    between options being optional *)
Fixpoint fts_options (fuel : nat) : PM (list (bytes * bytes)) :=
  match fuel with
  | O => lift Hang
  | S n =>
    tok ← current;
    if bool_decide (TType tok = TokRParen) || bool_decide (TType tok = TokEOF) then mret []
    else
      o ← fts_option;
      optional (match_type TokComma);;
      os ← fts_options n;
      mret (o :: os)
  end.

Definition parseFTSOptions : PM (gmap bytes bytes) :=
  step;;
  paren ← optional (match_type TokLParen);
  os ← (if (paren : bool) then os ← bounded fts_options; expect TokRParen [];; mret os
        else o ← fts_option; mret [o]);
  mret (fold_left (fun m '(k, v) => <[k:=v]> m) os ∅).

Definition parseCreateFullTextIndex : PM Statement :=
  step;;
  expect_keyword "INDEX";;
  named ← match_type TokIdent;
  name ← (if (named : bool) then tok ← advance; mret (TValue tok) else mret []);
  expect_keyword "ON";;
  table ← table_name "table name";
  col ← parenthesised (ident "column name");
  w ← matchKeyword ["WITH"];
  options ← (if (w : bool) then os ← parseFTSOptions; mret (Some os) else mret None);
  mret (CreateIndexStmt false true name table [col] options).

Definition parseCreateDatabase : PM Statement :=
  step;;
  exists_ ← if_not_exists;
  name ← table_name "database name";
  mret (CreateDatabaseStmt exists_ name).

Definition unsupported {A} (what : string) : PM A := tok ← current; fail (Unsupported (str what) (TValue tok)).

Definition parseCreate : PM Statement :=
  step;;
  table ← matchKeyword ["TABLE"];
  fulltext ← matchKeyword ["FULLTEXT"];
  index ← matchKeyword ["INDEX"; "UNIQUE"]%string;
  database ← matchKeyword ["DATABASE"; "SCHEMA"]%string;
  if (table : bool) then parseCreateTable
  else if (fulltext : bool) then parseCreateFullTextIndex
  else if (index : bool) then parseCreateIndex
  else if (database : bool) then parseCreateDatabase
  else unsupported "CREATE".

Definition parseDropTable : PM Statement :=
  step;;
  exists_ ← if_exists;
  table ← table_name "table name";
  mret (DropTableStmt exists_ table).

Definition parseDropIndex : PM Statement :=
  step;;
  name ← ident "index name";
  on ← clause "ON" (table_name "table name");
  mret (DropIndexStmt name (default [] on)).

Definition parseDropDatabase : PM Statement :=
  step;;
  exists_ ← if_exists;
  name ← table_name "database name";
  mret (DropDatabaseStmt exists_ name).

Definition parseDrop : PM Statement :=
  step;;
  table ← matchKeyword ["TABLE"];
  index ← matchKeyword ["INDEX"];
  database ← matchKeyword ["DATABASE"; "SCHEMA"]%string;
  if (table : bool) then parseDropTable
  else if (index : bool) then parseDropIndex
  else if (database : bool) then parseDropDatabase
  else unsupported "DROP".

(** [MODIFY] and [ADD] with a column definition *)
Definition alter_column (type : string) : PM AlterAction :=
  optional (matchKeyword ["COLUMN"]);;
  d ← parseColumnDef;
  mret (mkAlter (str type) [] (Some d) []).

Definition alter_rename : PM AlterAction :=
  column ← optional (matchKeyword ["COLUMN"]);
  if (column : bool) then
    old ← ident "column name";
    expect_keyword "TO";;
    new ← ident "new column name";
    mret (mkAlter (str "RENAME") old None new)
  else
    new ← clause "TO" (ident "new table name");
    mret (mkAlter (str "RENAME") [] None (default [] new)).

(** One action, if there is one. A constraint that is added is parsed and
    dropped. *)
Definition alter_action : PM (option AlterAction) :=
  add ← optional (matchKeyword ["ADD"]);
  if (add : bool) then
    column ← matchKeyword ["COLUMN"];
    constraint ← matchKeyword constraint_words;
    if negb column && constraint then
      _ ← parseConstraint; mret (Some (mkAlter (str "ADD") [] None []))
    else a ← alter_column "ADD"; mret (Some a)
  else
    drop ← optional (matchKeyword ["DROP"]);
    if (drop : bool) then
      optional (matchKeyword ["COLUMN"]);;
      col ← ident "column name";
      mret (Some (mkAlter (str "DROP") col None []))
    else
      modify_ ← optional (matchKeyword ["MODIFY"; "ALTER"]%string);
      if (modify_ : bool) then a ← alter_column "MODIFY"; mret (Some a)
      else
        rename ← optional (matchKeyword ["RENAME"]);
        if (rename : bool) then a ← alter_rename; mret (Some a) else mret None.

Fixpoint alter_actions (fuel : nat) : PM (list AlterAction) :=
  match fuel with
  | O => lift Hang
  | S n =>
    o ← alter_action;
    match o with
    | None => mret []
    | Some a =>
      more ← optional (match_type TokComma);
      if (more : bool) then rest ← alter_actions n; mret (a :: rest) else mret [a]
    end
  end.

Definition parseAlter : PM Statement :=
  step;;
  expect_keyword "TABLE";;
  table ← table_name "table name";
  actions ← bounded alter_actions;
  mret (AlterTableStmt table actions).

Definition parseSet : PM Statement :=
  step;;
  var ← word_value "variable name";
  level ← (if bool_decide (to_upper var = str "LOG") then optional (matchKeyword ["LEVEL"]) else mret false);
  optional (match_op ["="]);;
  e ← parseExpression;
  mret (SetStmt (if (level : bool) then str "LOG_LEVEL" else var) e).

(** [for p.current() is neither EOF nor a semicolon { p.advance() }] *)
Fixpoint skip_loop (fuel : nat) : PM unit :=
  match fuel with
  | O => lift Hang
  | S n =>
    tok ← current;
    if bool_decide (TType tok = TokEOF) || bool_decide (TType tok = TokSemicolon) then mret tt
    else step;; skip_loop n
  end.
Definition skip_rest : PM unit := bounded skip_loop.

Definition show (type target pattern : bytes) : PM Statement := mret (ShowStmt type target pattern).
Definition show_simple (type : string) : PM Statement := step;; show (str type) [] [].

(** [FROM table] *)
Definition show_from : PM bytes := t ← clause "FROM" (ident "table name"); mret (default [] t).

(** A token of the type, if there is one. *)
Definition take_type (typ : TokenType) : PM bytes :=
  b ← match_type typ; if (b : bool) then tok ← advance; mret (TValue tok) else mret [].

Definition show_table_status : PM Statement :=
  step;;
  status ← optional (matchKeyword ["STATUS"]);
  if (status : bool) then
    from ← clause "FROM" (take_type TokIdent);
    like ← clause "LIKE" (take_type TokString);
    show (str "TABLE STATUS") (default [] from) (default [] like)
  else show [] [] [].

Definition show_triggers : PM Statement :=
  step;;
  from ← optional (matchKeyword ["FROM"; "IN"]%string);
  target ← (if (from : bool) then take_type TokIdent else mret []);
  skip_rest;;
  show (str "TRIGGERS") target [].

Definition show_create : PM Statement :=
  step;;
  table ← optional (matchKeyword ["TABLE"]);
  target ← (if (table : bool) then table_name "table name" else mret []);
  show (str "CREATE") target [].

Definition show_columns (isFull : bool) : PM Statement :=
  step;; target ← show_from; show (str (if isFull then "FULL COLUMNS" else "COLUMNS")) target [].
Definition show_index : PM Statement := step;; target ← show_from; show (str "INDEX") target [].

(** OPEN TABLES, COLLATION and EVENTS: the rest is skipped. *)
Definition show_skip (type : string) : PM Statement := step;; skip_rest;; show (str type) [] [].
(** FUNCTION STATUS and PROCEDURE STATUS *)
Definition show_status (type : string) : PM Statement :=
  step;; optional (matchKeyword ["STATUS"]);; skip_rest;; show (str type) [] [].

(** The cases of SHOW, by the keyword. *)
Definition show_cases (isFull : bool) : list (list string * PM Statement) :=
  [(["TABLES"], show_simple (if isFull then "FULL TABLES" else "TABLES"));
   (["DATABASES"], show_simple "DATABASES");
   (["COLUMNS"], show_columns isFull);
   (["CREATE"], show_create);
   (["VARIABLES"], show_simple "VARIABLES");
   (["STATUS"], show_simple "STATUS");
   (["WARNINGS"], show_simple "WARNINGS");
   (["GRANTS"], show_simple "GRANTS");
   (["INDEX"; "INDEXES"; "KEYS"], show_index);
   (["PROCESSLIST"], show_simple "PROCESSLIST");
   (["ENGINES"; "ENGINE"], show_simple "ENGINES");
   (["OPEN"], show_skip "OPEN TABLES");
   (["COLLATION"], show_skip "COLLATION");
   (["FUNCTION"], show_status "FUNCTION STATUS");
   (["PROCEDURE"], show_status "PROCEDURE STATUS");
   (["TRIGGERS"], show_triggers);
   (["EVENTS"], show_skip "EVENTS");
   (["TABLE"], show_table_status)]%string.

(** [if p.matchKeyword(k1) { c1 } else if p.matchKeyword(k2) { c2 } ... ] *)
Fixpoint choose (cases : list (list string * PM Statement)) (otherwise : PM Statement) : PM Statement :=
  match cases with
  | [] => otherwise
  | (keys, body) :: cases =>
    b ← matchKeyword keys;
    if (b : bool) then body else choose cases otherwise
  end.

Definition parseShow : PM Statement :=
  step;;
  optional (matchKeyword ["GLOBAL"; "SESSION"]%string);;
  isFull ← optional (matchKeyword ["FULL"]);
  choose (show_cases isFull) (unsupported "SHOW").

Definition parseUse : PM Statement := step;; name ← table_name "database name"; mret (UseStmt name).
Definition parseDescribe : PM Statement := step;; table ← table_name "table name"; mret (DescribeStmt table).

(** A path: a string or an identifier *)
Definition file_path : PM bytes :=
  s ← match_type TokString;
  i ← match_type TokIdent;
  if s || i then tok ← advance; mret (TValue tok) else expected "file path".

Definition parseBackup : PM Statement :=
  step;; optional (matchKeyword ["TO"]);; path ← file_path; mret (BackupStmt path).
Definition parseRestore : PM Statement :=
  step;; optional (matchKeyword ["FROM"]);; path ← file_path; mret (RestoreStmt path).

Definition parseBegin : PM Statement := step;; optional (matchKeyword ["TRANSACTION"]);; mret BeginStmt.
Definition parseStartTransaction : PM Statement := step;; expect_keyword "TRANSACTION";; mret BeginStmt.
Definition parseCommit : PM Statement := step;; optional (matchKeyword ["TRANSACTION"]);; mret CommitStmt.
Definition parseRollback : PM Statement := step;; optional (matchKeyword ["TRANSACTION"]);; mret RollbackStmt.

(** The statements, by their first keyword. *)
Definition statements : list (string * PM Statement) :=
  [("SELECT", q ← parseSelect; mret (SelectStmt q));
   ("INSERT", parseInsert); ("UPDATE", parseUpdate); ("DELETE", parseDelete);
   ("CREATE", parseCreate); ("DROP", parseDrop); ("ALTER", parseAlter);
   ("SET", parseSet); ("SHOW", parseShow); ("USE", parseUse);
   ("DESCRIBE", parseDescribe); ("DESC", parseDescribe);
   ("BACKUP", parseBackup); ("RESTORE", parseRestore);
   ("BEGIN", parseBegin); ("START", parseStartTransaction);
   ("COMMIT", parseCommit); ("ROLLBACK", parseRollback)]%string.

(** [switch strings.ToUpper(tok.Value)] *)
Fixpoint parse_case (cases : list (string * PM Statement)) (tok : Token) : PM Statement :=
  match cases with
  | [] => fail (Unsupported (str "statement") (TValue tok))
  | (k, body) :: cases =>
    if bool_decide (to_upper (TValue tok) = str k) then body else parse_case cases tok
  end.

Definition Parse : PM Statement :=
  tok ← current;
  if negb (bool_decide (TType tok = TokKeyword)) then fail (Expected (str "keyword") tok)
  else parse_case statements tok.

(** [ParseString] *)
Definition ParseString (sql : bytes) : outcome ParseError Statement := (Parse (NewParser sql)).1.
End Statements.
