(* ===== verification/ParserSpec.v ===== *)
(** * The SQL parser answers on every text

    [safe m p] says that the parsing function [m] returns a value or an error
    when it runs on the parser [p], never runs out of the bounds given to its
    loops and nested calls, and leaves no more tokens than it found. A rule
    per construct of the parsing monad, gathered in the tactic [prun], proves
    it for each function; [Parse_total] puts them together. *)

From S2P Require Import Prelude GoLib Types Lexer Ast Parser ParserDml.

Section Rules.
Context `{GoRuntime}.

(** [Q] holds of what [m] returns and of the parser it leaves. *)
Definition runs {A} (m : PM A) (p : Parser) (Q : A -> Parser -> Prop) : Prop :=
  match m p with
  | (Ok a, p') => (remaining p' <= remaining p)%nat /\ Q a p'
  | (Err _, p') => (remaining p' <= remaining p)%nat
  | _ => False
  end.
Definition safe {A} (m : PM A) (p : Parser) : Prop := runs m p (fun _ _ => True).
Definition eats {A} (m : PM A) (p : Parser) : Prop := runs m p (fun _ p' => remaining p' < remaining p)%nat.

(** A test looks at the current token, which is no end of the input where
    the test holds. *)
Definition test (m : PM bool) : Prop :=
  forall p, exists b, m p = (Ok b, p) /\ (b = true -> 0 < remaining p)%nat.

(** An operator is consumed where there is one. *)
Definition operator_ok (o : PM (option bytes)) : Prop :=
  forall p, runs o p (fun r p' => is_Some r -> remaining p' < remaining p)%nat.

Lemma runs_ret {A} (a : A) p (Q : A -> Parser -> Prop) : Q a p -> runs (mret a) p Q.
Proof. unfold runs. cbn. auto. Qed.

Lemma runs_bind {A B} (m : PM A) (k : A -> PM B) p Q Q' :
  runs m p Q' ->
  (forall a p', (remaining p' <= remaining p)%nat -> Q' a p' ->
     runs (k a) p' (fun b p'' => (remaining p'' <= remaining p)%nat -> Q b p'')) ->
  runs (m ≫= k) p Q.
Proof.
  unfold runs, mbind, SO_bind. destruct (m p) as [[a|e| |] p']; try done. intros [Hle Ha] Hk.
  specialize (Hk a p' Hle Ha). destruct (k a p') as [[b|e| |] p'']; try done; [|lia].
  destruct Hk as [Hle' HQ]. split; [lia|]. apply HQ. lia.
Qed.

Lemma runs_mono {A} (m : PM A) p (Q Q' : A -> Parser -> Prop) :
  runs m p Q -> (forall a p', Q a p' -> Q' a p') -> runs m p Q'.
Proof. unfold runs. destruct (m p) as [[a|e| |] p']; try done. intros [? ?] HQ. auto. Qed.

Lemma safe_of {A} (m : PM A) p Q : runs m p Q -> safe m p.
Proof. intros Hm. by apply (runs_mono _ _ _ _ Hm). Qed.

Lemma runs_safe {A} (m : PM A) p (Q : A -> Parser -> Prop) : safe m p -> (forall a p', Q a p') -> runs m p Q.
Proof. intros Hm HQ. apply (runs_mono _ _ _ _ Hm). auto. Qed.

Lemma safe_ret {A} (a : A) p : safe (mret a) p.
Proof. by apply runs_ret. Qed.

Lemma safe_fail {A} e p : safe (fail e : PM A) p.
Proof. unfold safe, runs. cbn. lia. Qed.

Lemma safe_bind {A B} (m : PM A) (k : A -> PM B) p : safe m p ->
  (forall a p', (remaining p' <= remaining p)%nat -> safe (k a) p') -> safe (m ≫= k) p.
Proof. intros Hm Hk. eapply runs_bind; [exact Hm|]. intros a p' Hle _. by apply (runs_mono _ _ _ _ (Hk a p' Hle)). Qed.

Lemma eats_bind {A B} (m : PM A) (k : A -> PM B) p : eats m p ->
  (forall a p', (remaining p' < remaining p)%nat -> safe (k a) p') -> eats (m ≫= k) p.
Proof.
  intros Hm Hk. unfold eats, safe, runs, mbind, SO_bind in *. destruct (m p) as [[a|e| |] p']; try done.
  destruct Hm as [_ Hlt]. specialize (Hk a p' Hlt). destruct (k a p') as [[b|e| |] p'']; try done; [|lia].
  destruct Hk. split; lia.
Qed.

Lemma safe_gets_bind {A B} (f : Parser -> A) (k : A -> PM B) p : safe (k (f p)) p -> safe (gets f ≫= k) p.
Proof. unfold safe, runs. by rewrite bind_gets. Qed.

Lemma cur_remaining p : TType (cur p) <> TokEOF -> (0 < remaining p)%nat.
Proof.
  unfold cur, remaining. destruct (tokens p !! ppos p) eqn:E; [|by cbn]. apply lookup_lt_Some in E. lia.
Qed.

(** The parser one token further on. *)
Definition stepped (p : Parser) : Parser := mkParser (tokens p) (S (ppos p)).

Lemma remaining_stepped p : remaining (stepped p) = pred (remaining p).
Proof. unfold remaining, stepped. simpl. lia. Qed.

Lemma advance_run p : advance p = (Ok (cur p), stepped p).
Proof. reflexivity. Qed.
Lemma step_run p : step p = (Ok tt, stepped p).
Proof. reflexivity. Qed.

Lemma safe_advance p : safe advance p.
Proof. unfold safe, runs. rewrite advance_run. rewrite ?remaining_stepped. split; [lia|done]. Qed.
Lemma safe_step p : safe step p.
Proof. unfold safe, runs. rewrite step_run. rewrite ?remaining_stepped. split; [lia|done]. Qed.
Lemma eats_advance p : (0 < remaining p)%nat -> eats advance p.
Proof. unfold eats, runs. rewrite advance_run. rewrite ?remaining_stepped. lia. Qed.
Lemma eats_step p : (0 < remaining p)%nat -> eats step p.
Proof. unfold eats, runs. rewrite step_run. rewrite ?remaining_stepped. lia. Qed.

Lemma eats_bind_advance {B} (k : Token -> PM B) p : (0 < remaining p)%nat ->
  (forall p', (remaining p' < remaining p)%nat -> safe (k (cur p)) p') -> safe (advance ≫= k) p.
Proof.
  intros Hp Hk. unfold safe, runs, mbind, SO_bind in *. rewrite advance_run.
  assert (Hlt : (remaining (stepped p) < remaining p)%nat) by (rewrite remaining_stepped; lia).
  specialize (Hk (stepped p) Hlt). destruct (k (cur p) (stepped p)) as [[b|e| |] p'']; try done; [|lia]. split; [lia|done].
Qed.

Lemma eats_bind_step {B} (k : unit -> PM B) p : (0 < remaining p)%nat ->
  (forall p', (remaining p' < remaining p)%nat -> safe (k tt) p') -> safe (step ≫= k) p.
Proof.
  intros Hp Hk. apply safe_of with (Q := fun _ p' => (remaining p' < remaining p)%nat). apply eats_bind; [by apply eats_step|].
  intros [] p'. apply Hk.
Qed.

Lemma test_match typ values : typ <> TokEOF -> test (match_tok typ values).
Proof.
  intros Ht p. eexists. split; [reflexivity|]. unfold token_matches. intros [Hb _]%andb_true_iff.
  apply bool_decide_eq_true in Hb. apply cur_remaining. congruence.
Qed.
Lemma test_type typ : typ <> TokEOF -> test (match_type typ).
Proof. apply test_match. Qed.
Lemma test_op l : test (match_op l).
Proof. by apply test_match. Qed.
Lemma test_keyword l : test (matchKeyword l).
Proof. by apply test_match. Qed.

Lemma safe_test_bind {B} (t : PM bool) (k : bool -> PM B) p : test t ->
  ((0 < remaining p)%nat -> safe (k true) p) -> safe (k false) p -> safe (t ≫= k) p.
Proof.
  intros Ht H1 H2. destruct (Ht p) as (b & Hb & Hp). unfold safe, runs in *. rewrite (bind_ok _ _ _ _ _ Hb).
  destruct b; [by apply H1, Hp|exact H2].
Qed.

Lemma optional_run (t : PM bool) p : test t ->
  (optional t p = (Ok true, stepped p) /\ (0 < remaining p)%nat) \/ optional t p = (Ok false, p).
Proof.
  intros Ht. destruct (Ht p) as (b & Hb & Hp). unfold optional. rewrite (bind_ok _ _ _ _ _ Hb). destruct b; [left|by right].
  split; [reflexivity|auto].
Qed.

Lemma safe_optional_bind {B} (t : PM bool) (k : bool -> PM B) p : test t ->
  (forall p', (remaining p' < remaining p)%nat -> safe (k true) p') -> safe (k false) p -> safe (optional t ≫= k) p.
Proof.
  intros Ht H1 H2. unfold safe, runs. destruct (optional_run t p Ht) as [[Ho Hp]|Ho]; rewrite (bind_ok _ _ _ _ _ Ho); [|exact H2].
  assert (Hlt : (remaining (stepped p) < remaining p)%nat) by (rewrite remaining_stepped; lia).
  specialize (H1 (stepped p) Hlt). unfold safe, runs in H1. destruct (k true (stepped p)) as [[b|e| |] p'']; try done; [|lia]. split; [lia|done].
Qed.

Lemma safe_optional (t : PM bool) p : test t -> safe (optional t) p.
Proof.
  intros Ht. unfold safe, runs. destruct (optional_run t p Ht) as [[Ho Hp]|Ho]; rewrite Ho; [|done].
  rewrite ?remaining_stepped. split; [lia|done].
Qed.

Lemma safe_test (t : PM bool) p : test t -> safe t p.
Proof. intros Ht. destruct (Ht p) as (b & Hb & _). unfold safe, runs. rewrite Hb. done. Qed.

Lemma expect_eats typ value p : typ <> TokEOF -> eats (expect typ value) p.
Proof.
  intros Ht. unfold eats, runs, expect, current. rewrite bind_gets. destruct (bool_decide_reflect (TType (cur p) = typ)) as [E|]; [|cbn; lia].
  cbn [negb]. destruct (_ && _); [cbn; lia|]. apply eats_step, cur_remaining. congruence.
Qed.
Lemma safe_expect typ value p : typ <> TokEOF -> safe (expect typ value) p.
Proof. intros Ht. eapply safe_of, expect_eats, Ht. Qed.
Lemma safe_expect_keyword s p : safe (expect_keyword s) p.
Proof. by apply safe_expect. Qed.

Lemma safe_expect_bind {B} typ value (k : unit -> PM B) p : typ <> TokEOF ->
  (forall p', (remaining p' < remaining p)%nat -> safe (k tt) p') -> safe (expect typ value ≫= k) p.
Proof.
  intros Ht Hk. eapply safe_of, eats_bind; [by apply expect_eats|]. intros [] p'. apply Hk.
Qed.

Lemma safe_bounded {A} (loop : nat -> PM A) p : safe (loop (S (remaining p))) p -> safe (bounded loop) p.
Proof. intros Hl. by apply (safe_gets_bind remaining (fun n => loop (S n))). Qed.
End Rules.

(** The rules, applied to the construct at the head of the goal. *)
Create HintDb parser.
#[export] Hint Resolve test_type test_op test_keyword test_match safe_ret safe_fail safe_advance safe_step
  safe_optional safe_test safe_expect safe_expect_keyword : parser.
#[export] Hint Extern 1 (_ <> TokEOF) => discriminate : parser.
#[export] Hint Extern 3 (_ <= _)%nat => lia : parser.
#[export] Hint Extern 3 (_ < _)%nat => lia : parser.

Ltac prun_head :=
  lazymatch goal with
  | |- safe (mbind _ (optional _)) _ => apply safe_optional_bind; [solve [eauto with parser]|intros ? ?|]
  | |- safe (mbind _ (expect _ _)) _ => apply safe_expect_bind; [discriminate|intros ? ?]
  | |- safe (mbind _ (expect_keyword _)) _ => apply safe_expect_bind; [discriminate|intros ? ?]
  | |- safe (mbind _ (gets _)) _ => apply safe_gets_bind
  | |- safe (mbind _ current) _ => apply safe_gets_bind
  | |- safe (mbind _ (match_type _)) _ => apply safe_test_bind; [solve [eauto with parser]|intros ?|]
  | |- safe (mbind _ (match_op _)) _ => apply safe_test_bind; [solve [eauto with parser]|intros ?|]
  | |- safe (mbind _ (match_tok _ _)) _ => apply safe_test_bind; [solve [eauto with parser]|intros ?|]
  | |- safe (mbind _ (matchKeyword _)) _ => apply safe_test_bind; [solve [eauto with parser]|intros ?|]
  | |- safe (mbind _ advance) _ =>
    first [apply eats_bind_advance; [lia|intros ? ?] | apply safe_bind; [apply safe_advance|intros ? ? ?]]
  | |- safe (mbind _ step) _ =>
    first [apply eats_bind_step; [lia|intros ? ?] | apply safe_bind; [apply safe_step|intros ? ? ?]]
  | |- safe (mbind _ _) _ => apply safe_bind; [|intros ? ? ?]
  | |- safe (if ?b then _ else _) _ => destruct b
  | |- safe (match ?x with _ => _ end) _ => destruct x
  | |- safe _ _ => solve [eauto with parser]
  end.
Ltac prun := repeat (cbv beta iota zeta; cbn [negb andb orb]; prun_head).

Section Loops.
Context `{GoRuntime}.

Lemma safe_comma_loop {A} (item : PM A) r : (forall p, (remaining p <= r)%nat -> safe item p) ->
  forall n p, (remaining p <= r)%nat -> (remaining p < n)%nat -> safe (comma_loop n item) p.
Proof.
  intros Hi. induction n as [|n IH]; intros p Hr Hn; [lia|]. cbn [comma_loop]. apply safe_bind; [by apply Hi|].
  intros x p' Hp'. prun.
Qed.
Lemma safe_comma_list {A} (item : PM A) p : (forall p', (remaining p' <= remaining p)%nat -> safe item p') ->
  safe (comma_list item) p.
Proof. intros Hi. apply safe_bounded. apply (safe_comma_loop item (remaining p)); [done|lia..]. Qed.

Lemma safe_while_loop {A} (t : PM bool) (body : PM A) r : test t ->
  (forall p, (remaining p <= r)%nat -> (0 < remaining p)%nat -> eats body p) ->
  forall n p, (remaining p <= r)%nat -> (remaining p < n)%nat -> safe (while_loop n t body) p.
Proof.
  intros Ht Hb. induction n as [|n IH]; intros p Hr Hn; [lia|]. cbn [while_loop].
  apply safe_test_bind; [done|intros Hp|apply safe_ret]. cbn. eapply safe_of, eats_bind; [by apply Hb|].
  intros x p' Hlt. apply safe_bind; [apply IH; lia|]. intros. apply safe_ret.
Qed.
Lemma safe_while_list {A} (t : PM bool) (body : PM A) p : test t ->
  (forall p', (remaining p' <= remaining p)%nat -> (0 < remaining p')%nat -> eats body p') ->
  safe (while_list t body) p.
Proof. intros Ht Hi. apply safe_bounded. apply (safe_while_loop t body (remaining p)); [done..|lia|lia]. Qed.

Lemma safe_clause {A} k (body : PM A) p : (forall p', (remaining p' < remaining p)%nat -> safe body p') ->
  safe (clause k body) p.
Proof. intros Hb. unfold clause. prun. Qed.

Lemma safe_binary_loop o operand r : operator_ok o -> (forall p, (remaining p <= r)%nat -> safe operand p) ->
  forall n p left, (remaining p <= r)%nat -> (remaining p < n)%nat -> safe (binary_loop n o operand left) p.
Proof.
  intros Ho Hb. induction n as [|n IH]; intros p l Hr Hn; [lia|]. cbn [binary_loop].
  eapply safe_of with (Q := fun _ _ => True). eapply runs_bind; [apply Ho|]. intros [op|] p' Hle Hop; [|by apply runs_ret].
  specialize (Hop ltac:(eauto)). eapply runs_mono; [|by intros]. apply safe_bind; [apply Hb; lia|]. intros x p'' Hle'. apply IH; lia.
Qed.
Lemma safe_binary o operand p : operator_ok o -> (forall p', (remaining p' <= remaining p)%nat -> safe operand p') ->
  safe (binary o operand) p.
Proof.
  intros Ho Hb. unfold binary. apply safe_bind; [by apply Hb|]. intros l p' Hle.
  apply safe_bounded, (safe_binary_loop o operand (remaining p')); [done|intros; apply Hb; lia|lia|lia].
Qed.

Lemma eats_optional (t : PM bool) p : test t -> runs (optional t) p (fun b p' => b = true -> remaining p' < remaining p)%nat.
Proof.
  intros Ht. unfold runs. destruct (optional_run t p Ht) as [[-> Hp]| ->]; [|done].
  rewrite remaining_stepped. split; [lia|intros; lia].
Qed.

Lemma operator_value_ok t : test t -> operator_ok (operator_value t).
Proof.
  intros Ht p. unfold operator_value. destruct (Ht p) as (b & Hb & Hp). unfold runs at 1. rewrite (bind_ok _ _ _ _ _ Hb).
  fold (runs (if b then tok ← advance; mret (Some (TValue tok)) else mret None) p).
  destruct b; [|apply runs_ret; by intros [? ?]].
  eapply runs_bind; [by apply eats_advance, Hp|]. intros tok p' _ Hlt. by apply runs_ret.
Qed.

Lemma optional_operator_ok s t : test t ->
  operator_ok (b ← optional t; mret (if (b : bool) then Some s else None)).
Proof.
  intros Ht p. eapply runs_bind; [by apply eats_optional|]. intros [] p' _ Hlt; apply runs_ret; [by auto|by intros _ [? ?]].
Qed.
Lemma operator_keyword_ok s : operator_ok (operator_keyword s).
Proof. apply optional_operator_ok, test_keyword. Qed.
Lemma additive_operator_ok : operator_ok additive_operator.
Proof.
  intros p. unfold additive_operator. eapply runs_bind; [apply operator_value_ok, test_op|].
  intros [op|] p' Hle Hop; [apply runs_ret; by auto|].
  eapply runs_mono; [apply (optional_operator_ok (str "||")), test_op|]. intros a p'' Hlt _ Hs. specialize (Hlt Hs). lia.
Qed.

Lemma safe_ident what p : safe (ident what) p.
Proof. unfold ident. prun. Qed.
Lemma safe_parseTableNameWithDB p : safe parseTableNameWithDB p.
Proof. unfold parseTableNameWithDB. prun. Qed.
Lemma safe_parseTableName p : safe parseTableName p.
Proof. unfold parseTableName. prun. apply safe_parseTableNameWithDB. Qed.
Lemma safe_table_name what p : safe (table_name what) p.
Proof. unfold table_name. prun. apply safe_parseTableName. Qed.
Lemma safe_alias p : safe alias p.
Proof. unfold alias. prun. Qed.
Lemma safe_parseNumberLiteral p : safe parseNumberLiteral p.
Proof. unfold parseNumberLiteral. prun. Qed.
Lemma safe_wrap_error {A} f (m : PM A) p : safe m p -> safe (wrap_error f m) p.
Proof. unfold safe, runs, wrap_error. by destruct (m p) as [[a|e| |] p']. Qed.
Lemma safe_try {A} (m : PM A) p : safe m p -> safe (try m) p.
Proof. unfold safe, runs, try. by destruct (m p) as [[a|e| |] p']; [..|]. Qed.
Lemma safe_match_mode p : safe match_mode p.
Proof. unfold match_mode. prun. Qed.
Lemma safe_match_level p : safe match_level p.
Proof. unfold match_level. prun. Qed.
End Loops.
#[export] Hint Resolve safe_ident safe_parseTableNameWithDB safe_parseTableName safe_table_name safe_alias
  safe_parseNumberLiteral safe_match_mode safe_match_level : parser.

Lemma safe_parseMatchAgainst `{GoRuntime} p : safe parseMatchAgainst p.
Proof. unfold parseMatchAgainst. prun. apply safe_wrap_error. prun. Qed.
#[export] Hint Resolve safe_parseMatchAgainst : parser.

(** ** The functions of expressions and queries

    With the nested parsers safe wherever fewer than [B] tokens are left (or
    none, for expressions), the functions over them are safe wherever at most
    [B] are. *)
Section Nested.
Context `{GoRuntime}.
Variables (e : PM Expression) (s : PM Select) (B : nat).
Hypothesis He : forall p, (remaining p < B)%nat -> safe e p.
Hypothesis Hs : forall p, (remaining p < B)%nat -> safe s p.

#[local] Hint Resolve He Hs : parser.

Lemma safe_subquery p : (remaining p < B)%nat -> safe (subquery s) p.
Proof. intros Hp. unfold subquery. prun. Qed.
#[local] Hint Resolve safe_subquery : parser.

Lemma safe_argument p : (remaining p < B)%nat -> safe (argument e) p.
Proof. intros Hp. unfold argument. prun. Qed.

Lemma safe_parseIdentOrFunction p : (remaining p <= B)%nat -> (0 < remaining p)%nat -> safe (parseIdentOrFunction e) p.
Proof.
  intros Hp H0. unfold parseIdentOrFunction. prun. apply safe_comma_list. intros. apply safe_argument. lia.
Qed.
#[local] Hint Resolve safe_parseIdentOrFunction : parser.

Lemma safe_parseParenExpr p : (remaining p <= B)%nat -> (0 < remaining p)%nat -> safe (parseParenExpr e s) p.
Proof. intros Hp H0. unfold parseParenExpr. prun. Qed.
#[local] Hint Resolve safe_parseParenExpr : parser.

Lemma eats_when_clause p : (remaining p < B)%nat -> (0 < remaining p)%nat -> eats (when_clause e) p.
Proof.
  intros Hp H0. unfold when_clause. apply eats_bind; [by apply eats_step|]. intros [] p' Hlt. prun.
Qed.

Lemma safe_parseCaseExpr p : (remaining p <= B)%nat -> (0 < remaining p)%nat -> safe (parseCaseExpr e) p.
Proof.
  intros Hp H0. unfold parseCaseExpr. prun.
  all: try (apply safe_while_list; [apply test_keyword|intros; apply eats_when_clause; lia]).
  all: apply safe_clause; intros; apply He; lia.
Qed.
#[local] Hint Resolve safe_parseCaseExpr : parser.

Lemma safe_parseExistsExpr p : (remaining p <= B)%nat -> (0 < remaining p)%nat -> safe (parseExistsExpr s) p.
Proof. intros Hp H0. unfold parseExistsExpr. prun. Qed.
#[local] Hint Resolve safe_parseExistsExpr : parser.

Lemma safe_parsePrimaryExpr p : (remaining p <= B)%nat -> safe (parsePrimaryExpr e s) p.
Proof.
  intros Hp. unfold parsePrimaryExpr. apply safe_gets_bind. pose proof (cur_remaining p) as H0.
  destruct (TType (cur p)); try specialize (H0 ltac:(discriminate)); prun.
Qed.

Lemma safe_unary_loop n : forall p, (remaining p <= B)%nat -> (remaining p < n)%nat -> safe (unary_loop e s n) p.
Proof.
  induction n as [|n IH]; intros p Hp Hn; [lia|]. cbn [unary_loop]. prun. by apply safe_parsePrimaryExpr.
Qed.
Lemma safe_parseUnaryExpr p : (remaining p <= B)%nat -> safe (parseUnaryExpr e s) p.
Proof. intros Hp. apply safe_bounded, safe_unary_loop; lia. Qed.

Lemma safe_parseMultiplicativeExpr p : (remaining p <= B)%nat -> safe (parseMultiplicativeExpr e s) p.
Proof. intros Hp. apply safe_binary; [apply operator_value_ok, test_op|]. intros. apply safe_parseUnaryExpr. lia. Qed.

Lemma safe_parseAdditiveExpr p : (remaining p <= B)%nat -> safe (parseAdditiveExpr e s) p.
Proof. intros Hp. apply safe_binary; [apply additive_operator_ok|]. intros. apply safe_parseMultiplicativeExpr. lia. Qed.
#[local] Hint Resolve safe_parseAdditiveExpr : parser.

Lemma safe_parseInExpr l p : (remaining p < B)%nat -> safe (parseInExpr e s l) p.
Proof. intros Hp. unfold parseInExpr. prun. apply safe_comma_list. intros. apply He. lia. Qed.
Lemma safe_parseBetweenExpr l p : (remaining p <= B)%nat -> safe (parseBetweenExpr e s l) p.
Proof. intros Hp. unfold parseBetweenExpr. prun. Qed.
#[local] Hint Resolve safe_parseInExpr safe_parseBetweenExpr : parser.

Lemma safe_parseComparisonExpr p : (remaining p <= B)%nat -> safe (parseComparisonExpr e s) p.
Proof.
  intros Hp. unfold parseComparisonExpr. apply safe_bind; [by apply safe_parseAdditiveExpr|]. intros l p' Hle.
  apply safe_bind; [eapply safe_of, operator_value_ok, test_op|]. intros [op|] p'' Hle'; unfold parse_is; prun.
Qed.
#[local] Hint Resolve safe_parseComparisonExpr : parser.

Lemma safe_parseNotExpr p : (remaining p <= B)%nat -> safe (parseNotExpr e s) p.
Proof. intros Hp. unfold parseNotExpr. prun. Qed.
Lemma safe_parseAndExpr p : (remaining p <= B)%nat -> safe (parseAndExpr e s) p.
Proof. intros Hp. apply safe_binary; [apply operator_keyword_ok|]. intros. apply safe_parseNotExpr. lia. Qed.
Lemma safe_parseOrExpr p : (remaining p <= B)%nat -> safe (parseOrExpr e s) p.
Proof. intros Hp. apply safe_binary; [apply operator_keyword_ok|]. intros. apply safe_parseAndExpr. lia. Qed.

Hypothesis He0 : forall p, remaining p = 0%nat -> safe e p.

(** Where an expression may stand at the end of the input. *)
Lemma safe_inner p : (remaining p < max B 1)%nat -> safe e p.
Proof. intros Hp. destruct (decide (remaining p = 0%nat)); [by apply He0|apply He; lia]. Qed.
#[local] Hint Resolve safe_inner : parser.

Lemma safe_parseSelectColumn p : (remaining p < max B 1)%nat -> safe (parseSelectColumn e) p.
Proof. intros Hp. unfold parseSelectColumn. prun. Qed.

Lemma safe_parseFromClause p : (remaining p < B)%nat -> safe (parseFromClause s) p.
Proof. intros Hp. unfold parseFromClause. prun. Qed.

Lemma safe_expect_join p : safe expect_join p.
Proof. unfold expect_join. prun. apply safe_try, safe_expect_keyword. Qed.
#[local] Hint Resolve safe_expect_join : parser.

Lemma eats_join_type p : (0 < remaining p)%nat -> eats join_type p.
Proof.
  intros Hp. unfold join_type, current, eats, runs. rewrite bind_gets.
  repeat match goal with |- context [if ?b then _ else _] => destruct b end; (apply eats_bind; [by apply eats_step|intros [] p' Hlt; prun]).
Qed.

Lemma safe_using_columns p : safe using_columns p.
Proof. unfold using_columns. prun. apply safe_comma_list. intros. apply safe_ident. Qed.

Lemma eats_parseJoinClause p : (remaining p < max B 1)%nat -> (0 < remaining p)%nat -> eats (parseJoinClause e) p.
Proof.
  intros Hp H0. unfold parseJoinClause. apply eats_bind; [by apply eats_join_type|]. intros t p' Hlt. prun.
  all: apply safe_clause; intros; first [apply safe_using_columns|apply safe_inner; lia].
Qed.

Lemma safe_order_item p : (remaining p < max B 1)%nat -> safe (order_item e) p.
Proof. intros Hp. unfold order_item. prun. Qed.

Lemma eats_union_part p : (remaining p <= B)%nat -> (0 < remaining p)%nat -> eats (union_part s) p.
Proof. intros Hp H0. unfold union_part. apply eats_bind; [by apply eats_step|]. intros [] p' Hlt. prun. Qed.

Lemma safe_parseSelectBody p : (remaining p <= B)%nat -> safe (parseSelectBody e s) p.
Proof.
  intros Hp. unfold parseSelectBody.
  apply runs_bind with (Q' := fun _ p' => (remaining p' < max B 1)%nat).
  { unfold runs. rewrite step_run, remaining_stepped. lia. }
  intros [] p' _ Hlt. apply runs_safe; [|by intros]. unfold parseSelectColumns, parseGroupByList, parseOrderByList.
  prun.
  all: try (apply safe_comma_list; intros; apply safe_parseSelectColumn; lia).
  all: try (apply safe_while_list; [apply test_keyword|intros; first [apply eats_parseJoinClause|apply eats_union_part]; lia]).
  all: apply safe_clause; intros; first [apply safe_inner; lia|apply safe_parseFromClause; lia|prun].
  all: apply safe_comma_list; intros; first [apply safe_ident|apply safe_order_item; lia].
Qed.
End Nested.

Section Statements.
Context `{GoRuntime}.

Lemma parsers_safe k :
  (forall p, (remaining p + 2 <= k)%nat -> safe (parsers k).1 p /\ safe (parsers k).2 p) /\
  ((1 <= k)%nat -> forall p, remaining p = 0%nat -> safe (parsers k).1 p).
Proof.
  induction k as [|k [IH IH0]]; [split; intros; lia|]. cbn [parsers]. destruct (parsers k) as [e s]. cbn [fst snd] in *.
  assert (He : forall p, (remaining p < k - 1)%nat -> safe e p) by (intros; apply IH; lia).
  assert (Hs : forall p, (remaining p < k - 1)%nat -> safe s p) by (intros; apply IH; lia).
  split.
  - intros p Hp. split; [apply (safe_parseOrExpr e s (k - 1)); try done; lia|].
    apply (safe_parseSelectBody e s (k - 1)); [done|done|apply IH0; lia|lia].
  - intros _ p Hp. apply (safe_parseOrExpr e s (k - 1)); try done. lia.
Qed.

Lemma safe_parseExpression p : safe parseExpression p.
Proof. unfold parseExpression. prun. destruct (parsers_safe (remaining p + 2)) as [Hp _]. by apply Hp. Qed.
Lemma safe_parseSelect p : safe parseSelect p.
Proof. unfold parseSelect. prun. destruct (parsers_safe (remaining p + 2)) as [Hp _]. by apply Hp. Qed.
#[local] Hint Resolve safe_parseExpression safe_parseSelect : parser.

Lemma safe_expected {A} what p : safe (expected what : PM A) p.
Proof. unfold expected. prun. Qed.
Lemma safe_unsupported {A} what p : safe (unsupported what : PM A) p.
Proof. unfold unsupported. prun. Qed.
#[local] Hint Resolve safe_expected safe_unsupported : parser.

Lemma safe_parenthesised {A} (body : PM A) p : (forall p', safe body p') -> safe (parenthesised body) p.
Proof. intros Hb. unfold parenthesised. prun. Qed.
Lemma safe_list {A} (item : PM A) p : (forall p', safe item p') -> safe (comma_list item) p.
Proof. intros Hi. by apply safe_comma_list. Qed.
Lemma safe_part {A} k (body : PM A) p : (forall p', safe body p') -> safe (clause k body) p.
Proof. intros Hb. by apply safe_clause. Qed.
#[local] Hint Resolve safe_parenthesised safe_list safe_part : parser.

Lemma safe_column_names p : safe column_names p.
Proof. unfold column_names. prun. Qed.
#[local] Hint Resolve safe_column_names : parser.
Lemma safe_optional_names p : safe optional_names p.
Proof. unfold optional_names. prun. Qed.
Lemma safe_value_row p : safe value_row p.
Proof. unfold value_row. prun. Qed.
#[local] Hint Resolve safe_optional_names safe_value_row : parser.

Lemma safe_parseInsert p : safe parseInsert p.
Proof. unfold parseInsert. prun. Qed.
Lemma safe_assignment p : safe assignment p.
Proof. unfold assignment. prun. Qed.
#[local] Hint Resolve safe_assignment : parser.
Lemma safe_parseUpdate p : safe parseUpdate p.
Proof. unfold parseUpdate. prun. Qed.
Lemma safe_parseDelete p : safe parseDelete p.
Proof. unfold parseDelete. prun. Qed.

Lemma safe_number what p : safe (number what) p.
Proof. unfold number. prun. Qed.
Lemma safe_word_value what p : safe (word_value what) p.
Proof. unfold word_value. prun. Qed.
#[local] Hint Resolve safe_number safe_word_value : parser.
Lemma safe_type_length p : safe type_length p.
Proof. unfold type_length. prun. Qed.
#[local] Hint Resolve safe_type_length : parser.

(** An alternative that starts with a keyword consumes it. *)
Lemma runs_optional_bind {B} (t : PM bool) (k : bool -> PM B) p (Q : B -> Parser -> Prop) : test t ->
  (forall b p', (remaining p' < remaining p)%nat -> Q b p') ->
  (forall p', (remaining p' < remaining p)%nat -> safe (k true) p') ->
  runs (k false) p Q -> runs (optional t ≫= k) p Q.
Proof.
  intros Ht HQ H1 H2. destruct (optional_run t p Ht) as [[Ho Hp]|Ho].
  - assert (Hlt : (remaining (stepped p) < remaining p)%nat) by (rewrite remaining_stepped; lia).
    specialize (H1 _ Hlt). unfold safe, runs in *. rewrite (bind_ok _ _ _ _ _ Ho).
    destruct (k true (stepped p)) as [[b|err| |] p']; try done; [|lia]. destruct H1 as [Hle _]. split; [lia|apply HQ; lia].
  - unfold runs in *. by rewrite (bind_ok _ _ _ _ _ Ho).
Qed.

Lemma column_option_ok col p : runs (column_option col) p (fun o p' => is_Some o -> remaining p' < remaining p)%nat.
Proof.
  unfold column_option.
  repeat (apply runs_optional_bind; [apply test_keyword|by intros|intros p' Hlt; prun|]).
  apply runs_ret. by intros [? ?].
Qed.

Lemma safe_column_options n : forall col p, (remaining p < n)%nat -> safe (column_options n col) p.
Proof.
  induction n as [|n IH]; intros col p Hn; [lia|]. cbn [column_options].
  eapply runs_bind; [apply column_option_ok|]. intros [c|] p' Hle Hlt; [|by apply runs_ret].
  specialize (Hlt ltac:(eauto)). apply runs_safe; [apply IH; lia|done].
Qed.

Lemma safe_parseColumnDef p : safe parseColumnDef p.
Proof. unfold parseColumnDef. prun. apply safe_bounded, safe_column_options. lia. Qed.
#[local] Hint Resolve safe_parseColumnDef : parser.
Lemma safe_parseConstraint p : safe parseConstraint p.
Proof. unfold parseConstraint. prun. Qed.
#[local] Hint Resolve safe_parseConstraint : parser.

Lemma safe_if_not_exists p : safe if_not_exists p.
Proof. unfold if_not_exists. prun. Qed.
Lemma safe_if_exists p : safe if_exists p.
Proof. unfold if_exists. prun. Qed.
#[local] Hint Resolve safe_if_not_exists safe_if_exists : parser.

Lemma safe_table_elements n : forall p, (remaining p < n)%nat -> safe (table_elements n) p.
Proof.
  induction n as [|n IH]; intros p Hn; [lia|]. cbn [table_elements]. prun.
Qed.

Lemma safe_parseCreateTable p : safe parseCreateTable p.
Proof.
  unfold parseCreateTable. prun. apply safe_parenthesised. intros. apply safe_bounded, safe_table_elements. lia.
Qed.

Lemma safe_using_fts p : safe using_fts p.
Proof. unfold using_fts. prun. Qed.
#[local] Hint Resolve safe_using_fts : parser.
Lemma safe_parseCreateIndex p : safe parseCreateIndex p.
Proof. unfold parseCreateIndex. prun. Qed.

Lemma eats_fail {A} err p : eats (fail err : PM A) p.
Proof. unfold eats, runs. cbn. lia. Qed.

Lemma eats_ident what p : eats (ident what) p.
Proof.
  unfold ident, eats, runs. destruct (test_type TokIdent ltac:(discriminate) p) as (b & Hb & Hp).
  rewrite (bind_ok _ _ _ _ _ Hb). destruct b; [|apply eats_fail].
  apply (eats_bind advance (fun tok => mret (TValue tok))); [by apply eats_advance, Hp|intros; apply safe_ret].
Qed.

Lemma eats_fts_option p : eats fts_option p.
Proof. unfold fts_option. apply eats_bind; [apply eats_ident|]. intros key p' Hlt. prun. Qed.

Lemma safe_fts_options n : forall p, (remaining p < n)%nat -> safe (fts_options n) p.
Proof.
  induction n as [|n IH]; intros p Hn; [lia|]. cbn [fts_options]. apply safe_gets_bind.
  destruct (_ || _); [apply safe_ret|]. eapply safe_of, (eats_bind fts_option); [apply eats_fts_option|].
  intros o p' Hlt. prun.
Qed.
Lemma safe_fts_option p : safe fts_option p.
Proof. eapply safe_of, eats_fts_option. Qed.
#[local] Hint Resolve safe_fts_option : parser.

Lemma safe_parseFTSOptions p : safe parseFTSOptions p.
Proof. unfold parseFTSOptions. prun. apply safe_bounded, safe_fts_options. lia. Qed.
#[local] Hint Resolve safe_parseFTSOptions : parser.
Lemma safe_parseCreateFullTextIndex p : safe parseCreateFullTextIndex p.
Proof. unfold parseCreateFullTextIndex. prun. Qed.
Lemma safe_parseCreateDatabase p : safe parseCreateDatabase p.
Proof. unfold parseCreateDatabase. prun. Qed.
#[local] Hint Resolve safe_parseCreateTable safe_parseCreateIndex safe_parseCreateFullTextIndex safe_parseCreateDatabase : parser.
Lemma safe_parseCreate p : safe parseCreate p.
Proof. unfold parseCreate. prun. Qed.

Lemma safe_parseDropTable p : safe parseDropTable p.
Proof. unfold parseDropTable. prun. Qed.
Lemma safe_parseDropIndex p : safe parseDropIndex p.
Proof. unfold parseDropIndex. prun. Qed.
Lemma safe_parseDropDatabase p : safe parseDropDatabase p.
Proof. unfold parseDropDatabase. prun. Qed.
#[local] Hint Resolve safe_parseDropTable safe_parseDropIndex safe_parseDropDatabase : parser.
Lemma safe_parseDrop p : safe parseDrop p.
Proof. unfold parseDrop. prun. Qed.

Lemma safe_alter_column type p : safe (alter_column type) p.
Proof. unfold alter_column. prun. Qed.
Lemma safe_alter_rename p : safe alter_rename p.
Proof. unfold alter_rename. prun. Qed.
#[local] Hint Resolve safe_alter_column safe_alter_rename : parser.
Lemma safe_alter_action p : safe alter_action p.
Proof. unfold alter_action. prun. Qed.
#[local] Hint Resolve safe_alter_action : parser.
Lemma safe_alter_actions n : forall p, (remaining p < n)%nat -> safe (alter_actions n) p.
Proof. induction n as [|n IH]; intros p Hn; [lia|]. cbn [alter_actions]. prun. Qed.
Lemma safe_parseAlter p : safe parseAlter p.
Proof. unfold parseAlter. prun. apply safe_bounded, safe_alter_actions. lia. Qed.

Lemma safe_parseSet p : safe parseSet p.
Proof. unfold parseSet. prun. Qed.

Lemma safe_skip_loop n : forall p, (remaining p < n)%nat -> safe (ParserDml.skip_loop n) p.
Proof.
  induction n as [|n IH]; intros p Hn; [lia|]. cbn [ParserDml.skip_loop]. apply safe_gets_bind.
  destruct (bool_decide_reflect (TType (cur p) = TokEOF)) as [|He]; [apply safe_ret|]. cbn [orb].
  apply cur_remaining in He. prun.
Qed.
Lemma safe_skip_rest p : safe skip_rest p.
Proof. apply safe_bounded, safe_skip_loop. lia. Qed.
#[local] Hint Resolve safe_skip_rest : parser.

Lemma safe_show t x y p : safe (show t x y) p.
Proof. apply safe_ret. Qed.
Lemma safe_show_from p : safe show_from p.
Proof. unfold show_from. prun. Qed.
Lemma safe_take_type ty p : ty <> TokEOF -> safe (take_type ty) p.
Proof. intros Ht. unfold take_type. prun. Qed.
#[local] Hint Resolve safe_show safe_show_from safe_take_type : parser.

Lemma safe_show_cases full keys body p : (keys, body) ∈ show_cases full -> safe body p.
Proof.
  unfold show_cases. intros Hin.
  repeat (apply elem_of_cons in Hin as [Hin|Hin]; [injection Hin as _ ->|]); [..|by apply elem_of_nil in Hin].
  all: unfold show_simple, show_columns, show_index, show_create, show_skip, show_status, show_triggers, show_table_status.
  all: prun.
Qed.

Lemma safe_choose cases other p : (forall keys body, (keys, body) ∈ cases -> safe body p) -> safe other p ->
  safe (choose cases other) p.
Proof.
  intros Hc Ho. induction cases as [|[keys body] cases IH]; [done|]. cbn [choose]. prun.
  - apply (Hc keys). by left.
  - apply IH. intros k b Hin. apply (Hc k). by right.
Qed.

Lemma safe_parseShow p : safe parseShow p.
Proof.
  unfold parseShow. prun.
  all: apply safe_choose; [intros; by eapply safe_show_cases|apply safe_unsupported].
Qed.

Lemma safe_file_path p : safe file_path p.
Proof. unfold file_path. prun. Qed.
#[local] Hint Resolve safe_file_path : parser.

Lemma safe_statements k body p : (k, body) ∈ statements -> safe body p.
Proof.
  unfold statements. intros Hin.
  repeat (apply elem_of_cons in Hin as [Hin|Hin]; [injection Hin as _ ->|]); [..|by apply elem_of_nil in Hin].
  - prun.
  - apply safe_parseInsert.
  - apply safe_parseUpdate.
  - apply safe_parseDelete.
  - apply safe_parseCreate.
  - apply safe_parseDrop.
  - apply safe_parseAlter.
  - apply safe_parseSet.
  - apply safe_parseShow.
  - unfold parseUse. prun.
  - unfold parseDescribe. prun.
  - unfold parseDescribe. prun.
  - unfold parseBackup. prun.
  - unfold parseRestore. prun.
  - unfold parseBegin. prun.
  - unfold parseStartTransaction. prun.
  - unfold parseCommit. prun.
  - unfold parseRollback. prun.
Qed.

Lemma safe_parse_case cases tok p : (forall k body, (k, body) ∈ cases -> safe body p) -> safe (parse_case cases tok) p.
Proof.
  intros Hc. induction cases as [|[k body] cases IH]; [apply safe_fail|]. cbn [parse_case]. prun.
  - apply (Hc k). by left.
  - apply IH. intros k' b Hin. apply (Hc k'). by right.
Qed.

Lemma safe_Parse p : safe Parse p.
Proof.
  unfold Parse. prun. apply safe_parse_case. intros k body Hin. by eapply safe_statements.
Qed.

(** C9: the parser answers every text with a statement or an error: it
    neither loops nor nests for ever, nor panics. *)
Theorem Parse_total sql :
  (exists stmt, ParseString sql = Ok stmt) \/ (exists err, ParseString sql = Err err).
Proof.
  pose proof (safe_Parse (NewParser sql)) as Hs. unfold safe, runs, ParseString in *.
  destruct (Parse (NewParser sql)) as [[stmt|err| |] p']; [left; by eexists|right; by eexists|done|done].
Qed.
End Statements.
