(* ===== verification/Print.v ===== *)
(** * Writing queries as text

    The converse of the parser: [print] and [print_select] give the words of
    an expression and of a SELECT, and [Lexer.write] their text. Operands are
    put in parentheses unless they are atoms. [printable] and
    [printable_select] describe the syntax trees that have a text: names are
    valid UTF-8 without a backtick, function names are capitals, integers are
    not negative (a sign is an operator), there is no operator [*] (the
    lexer has no such operator), and only DISTINCT stands before an argument.
    These definitions are the specification of the parser, not part of the
    program. *)

From S2P Require Import Prelude GoLib Types Lexer Ast Parser.

Definition kw (s : string) : word := WName (str s).
Definition lp : word := WMark TokLParen (str "(").
Definition rp : word := WMark TokRParen (str ")").
Definition comma : word := WMark TokComma (str ",").
Definition dot : word := WMark TokDot (str ".").
Definition star : word := WMark TokStar (str "*").

(** An identifier, in backticks. *)
Definition quoted (c : bytes) : word := WQuoted (runes c).
Definition text_of (s : bytes) : word := WString (runes s).
Definition number_of (n : Z) : word := WNumber (itoa n) None None.

Fixpoint commas (l : list (list word)) : list word :=
  match l with
  | [] => []
  | [w] => w
  | w :: l => w ++ comma :: commas l
  end.

(** A keyword and what it introduces, where there is something. *)
Definition opt {A} (k : string) (f : A -> list word) (o : option A) : list word :=
  match o with Some x => kw k :: f x | None => [] end.
Definition optional_list {A} (ks : list word) (f : A -> list word) (l : list A) : list word :=
  match l with [] => [] | _ => ks ++ commas (map f l) end.
Definition flag (b : bool) (k : string) : list word := if b then [kw k] else [].

Definition atomic (e : Expression) : bool :=
  match e with
  | ExprUnaryOp _ _ | ExprBinaryOp _ _ _ | ExprIn _ _ | ExprInSelect _ _ | ExprBetween _ _ _ | ExprStar _ => false
  | _ => true
  end.

Definition wrap (b : bool) (w : list word) : list word := if b then w else lp :: w ++ [rp].

Definition print_name (db name : bytes) : list word :=
  match db with [] => [quoted name] | _ => [quoted db; dot; quoted name] end.

Definition print_alias (a : bytes) : list word := match a with [] => [] | _ => [kw "AS"; quoted a] end.

Fixpoint print (e : Expression) : list word :=
  match e with
  | ExprLiteral GNil => [kw "NULL"]
  | ExprLiteral (GBool b) => [kw (if b then "TRUE" else "FALSE")%string]
  | ExprLiteral (GInt _ n) => [number_of n]
  | ExprLiteral (GString s) => [text_of s]
  | ExprLiteral _ => []
  | ExprColumn table column => print_name table column
  | ExprFunction name args => quoted name :: lp :: commas (map print args) ++ [rp]
  | ExprUnaryOp op r =>
    if bool_decide (op = str "DISTINCT") then kw "DISTINCT" :: print r
    else (if bool_decide (op = str "NOT") then kw "NOT" else WOp op) :: wrap (atomic r) (print r)
  | ExprBinaryOp l op r =>
    wrap (atomic l) (print l) ++
    if bool_decide (op = str "IS") then [kw "IS"; kw "NULL"]
    else if bool_decide (op = str "IS NOT") then [kw "IS"; kw "NOT"; kw "NULL"]
    else (if bool_decide (op ∈ [str "AND"; str "OR"; str "LIKE"]) then WName op else WOp op)
         :: wrap (atomic r) (print r)
  | ExprCase c whens x =>
    kw "CASE" :: match c with Some e => print e | None => [] end
    ++ concat (map (fun w => kw "WHEN" :: print (Cond w) ++ kw "THEN" :: print (Then w)) whens)
    ++ match x with Some e => kw "ELSE" :: print e | None => [] end ++ [kw "END"]
  | ExprIn l vs => wrap (atomic l) (print l) ++ kw "IN" :: lp :: commas (map print vs) ++ [rp]
  | ExprInSelect l q => wrap (atomic l) (print l) ++ kw "IN" :: lp :: print_select q ++ [rp]
  | ExprBetween l a b =>
    wrap (atomic l) (print l) ++ kw "BETWEEN" :: wrap (atomic a) (print a) ++ kw "AND" :: wrap (atomic b) (print b)
  | ExprExists q => kw "EXISTS" :: lp :: print_select q ++ [rp]
  | ExprSubquery q => lp :: print_select q ++ [rp]
  | ExprStar _ => [star]
  | ExprMatch col query _ level =>
    [kw "MATCH"; lp; quoted col; rp; kw "AGAINST"; lp; text_of query]
    ++ (if (level =? 0)%Z then [] else [kw "LEVEL"; number_of level]) ++ [rp]
  end
with print_select (q : Select) : list word :=
  match q with
  | StmtSelect f =>
    kw "SELECT" :: flag (Distinct f) "DISTINCT"
    ++ commas (map (fun c => match Expr c with
                             | Some e => print e ++ print_alias (ColAlias c)
                             | None => match TableName c with [] => [star] | t => [quoted t; dot; star] end
                             end) (SColumns f))
    ++ match From f with
       | Some c => kw "FROM" :: match FromSubquery c with
                                | Some q => lp :: print_select q ++ [rp]
                                | None => print_name (Database c) (FromTable c)
                                end ++ print_alias (FromAlias c)
       | None => []
       end
    ++ concat (map (fun j => WName (JoinType j) :: kw "JOIN" :: quoted (JoinTable j) :: print_alias (JoinAlias j)
                             ++ match On j with Some e => kw "ON" :: print e | None => [] end
                             ++ match Using j with
                                | [] => []
                                | cols => kw "USING" :: lp :: commas (map (fun c => [quoted c]) cols) ++ [rp]
                                end) (Joins f))
    ++ match Where f with Some e => kw "WHERE" :: print e | None => [] end
    ++ optional_list [kw "GROUP"; kw "BY"] (fun c => [quoted c]) (GroupBy f)
    ++ match Having f with Some e => kw "HAVING" :: print e | None => [] end
    ++ match OrderBy f with
       | [] => []
       | l => kw "ORDER" :: kw "BY" :: commas (map (fun o => print (OrderExpr o) ++ [WName (Direction o)]) l)
       end
    ++ match Limit f with Some e => kw "LIMIT" :: print e | None => [] end
    ++ match Offset f with Some e => kw "OFFSET" :: print e | None => [] end
    ++ concat (map (fun q => kw "UNION" :: flag (UnionAll f) "ALL" ++ print_select q) (Union f))
  end.

(** ** Which trees can be written *)

Definition no_zero (r : Z) : bool := negb (r =? 0)%Z.
Definition text_ok (s : bytes) : bool := bool_decide (of_runes (runes s) = s) && forallb no_zero (runes s).
Definition name_ok (c : bytes) : bool :=
  text_ok c && forallb (fun r => negb (r =? 96)%Z) (runes c) && negb (bool_decide (c = [])).
Definition opt_name_ok (c : bytes) : bool := bool_decide (c = []) || name_ok c.

Definition is_star (e : Expression) : bool := match e with ExprStar _ => true | _ => false end.
Definition is_distinct (e : Expression) : bool :=
  match e with ExprUnaryOp op _ => bool_decide (op = str "DISTINCT") | _ => false end.

Definition keyword_operators : list bytes := map str ["AND"; "OR"; "LIKE"]%string.
Definition symbol_operators : list bytes :=
  map str ["="; "<"; ">"; "<="; ">="; "<>"; "!="; "+"; "-"; "||"; "/"; "%"]%string.
Definition join_types : list bytes := map str ["INNER"; "LEFT"; "RIGHT"; "CROSS"]%string.

Section Printable.
Context `{GoRuntime}.

(** An alias is no keyword in any case. *)
Definition alias_ok (a : bytes) : bool := bool_decide (a = []) || (name_ok a && negb (isKeyword a)).

Fixpoint printable (e : Expression) : bool :=
  negb (is_distinct e) &&
  match e with
  | ExprLiteral GNil | ExprLiteral (GBool _) => true
  | ExprLiteral (GInt k n) => bool_decide (k = KInt64) && (0 <=? n)%Z && (n <? 2 ^ 63)%Z
  | ExprLiteral (GString s) => text_ok s
  | ExprLiteral _ => false
  | ExprColumn table column => opt_name_ok table && name_ok column
  | ExprFunction name args =>
    name_ok name && bool_decide (to_upper name = name) &&
    match args with
    | [ExprStar t] => bool_decide (t = [])
    | a :: _ => negb (is_star a)
    | [] => true
    end &&
    forallb (fun a => match a with
                      | ExprUnaryOp op r => if bool_decide (op = str "DISTINCT") then printable r else printable a
                      | _ => printable a
                      end) args
  | ExprUnaryOp op r => bool_decide (op ∈ [str "NOT"; str "+"; str "-"]) && printable r
  | ExprBinaryOp l op r =>
    printable l &&
    if bool_decide (op ∈ [str "IS"; str "IS NOT"]) then match r with ExprLiteral GNil => true | _ => false end
    else bool_decide (op ∈ keyword_operators ++ symbol_operators) && printable r
  | ExprCase c whens x =>
    match c with Some e => printable e | None => negb (bool_decide (length whens = 0%nat)) end
    && forallb (fun w => printable (Cond w) && printable (Then w)) whens
    && match x with Some e => printable e | None => true end
  | ExprIn l vs => printable l && negb (bool_decide (length vs = 0%nat)) && forallb printable vs
  | ExprInSelect l q => printable l && printable_select q
  | ExprBetween l a b => printable l && printable a && printable b
  | ExprExists q | ExprSubquery q => printable_select q
  | ExprStar t => bool_decide (t = [])
  | ExprMatch col query mode level =>
    name_ok col && text_ok query && bool_decide (mode = []) && (0 <=? level)%Z && (level <=? 3)%Z
  end
with printable_select (q : Select) : bool :=
  match q with
  | StmtSelect f =>
    negb (bool_decide (length (SColumns f) = 0%nat))
    && forallb (fun c => match Expr c with
                         | Some e => printable e && negb (is_star e) && opt_name_ok (ColAlias c)
                                     && bool_decide (TableName c = []) && negb (All c)
                         | None => opt_name_ok (TableName c) && bool_decide (ColAlias c = []) && All c
                         end) (SColumns f)
    && match From f with
       | Some c => alias_ok (FromAlias c) &&
                   match FromSubquery c with
                   | Some q => bool_decide (Database c = []) && bool_decide (FromTable c = []) && printable_select q
                   | None => opt_name_ok (Database c) && name_ok (FromTable c)
                   end
       | None => true
       end
    && forallb (fun j => bool_decide (JoinType j ∈ join_types) && name_ok (JoinTable j) && alias_ok (JoinAlias j)
                         && match On j with Some e => printable e | None => true end
                         && forallb name_ok (Using j)) (Joins f)
    && match Where f with Some e => printable e | None => true end
    && forallb name_ok (GroupBy f)
    && match Having f with Some e => printable e | None => true end
    && forallb (fun o => printable (OrderExpr o) && bool_decide (Direction o ∈ [str "ASC"; str "DESC"])) (OrderBy f)
    && match Limit f with Some e => printable e | None => true end
    && match Offset f with Some e => printable e | None => true end
    && match Union f with [] => negb (UnionAll f) | [q] => printable_select q | _ => false end
  end.
End Printable.

(** The text of words, one space after each. *)
Definition spaced (ws : list word) : bytes := write (map (fun w => (w, str " ")) ws).

Example print_query :
  spaced (print_select (StmtSelect (mkSelectFields true
    [mkSelectColumn (Some (ExprFunction (str "COUNT") [ExprStar []])) (str "n") [] false]
    (Some (mkFrom (str "t") [] [] None)) []
    (Some (ExprBinaryOp (ExprColumn [] (str "a")) (str "<") (ExprLiteral (GInt KInt64 3)))) [] None [] None None [] false)))
  = str "SELECT DISTINCT `COUNT` ( * ) AS `n` FROM `t` WHERE `a` < 3 ".
Proof. vm_compute. reflexivity. Qed.
