(* ===== verification/ParserRun.v ===== *)
(** * Running the parser on known tokens

    [goes m p x rest]: the parsing function [m] answers [x] on the parser [p]
    and leaves the tokens [rest]. One rule per construct of the parser, and
    for each level of the expression grammar how it parses what the level
    below does. *)

From S2P Require Import Prelude GoLib Types Lexer Ast Parser.

(** A token without its position. *)
Abbreviation lexeme := (TokenType * bytes)%type.
Definition lex (p : Parser) : list lexeme := map (fun t => (TType t, TValue t)) (drop (ppos p) (tokens p)).
Definition head (w : list lexeme) : lexeme := hd (TokEOF, []) w.

Section Run.
Context `{GoRuntime}.

Definition lexeme_matches (typ : TokenType) (values : list bytes) (l : lexeme) : bool :=
  token_matches typ values (mkToken l.1 l.2 0).

(** The tokens do not start with the one tested for. *)
Definition no (typ : TokenType) (values : list string) (w : list lexeme) : Prop :=
  lexeme_matches typ (map str values) (head w) = false.
Definition yes (typ : TokenType) (values : list string) (w : list lexeme) : Prop :=
  lexeme_matches typ (map str values) (head w) = true.

Definition goes {A} (m : PM A) (p : Parser) (x : A) (rest : list lexeme) : Prop :=
  exists p', m p = (Ok x, p') /\ lex p' = rest.

Lemma cur_lex p : (TType (cur p), TValue (cur p)) = head (lex p).
Proof.
  unfold cur, lex, head. destruct (tokens p !! ppos p) as [t|] eqn:E.
  - by rewrite (drop_S _ t (ppos p)).
  - apply lookup_ge_None in E. by rewrite drop_ge.
Qed.

Lemma match_lex typ values p : match_tok typ values p = (Ok (lexeme_matches typ values (head (lex p))), p).
Proof. unfold match_tok, gets. rewrite <- cur_lex. reflexivity. Qed.

Lemma remaining_lex p : remaining p = length (lex p).
Proof. unfold remaining, lex. by rewrite length_map, length_drop. Qed.

Lemma step_lex p t w : lex p = t :: w -> lex (mkParser (tokens p) (S (ppos p))) = w.
Proof.
  unfold lex. cbn [tokens ppos]. intros Hl. destruct (drop (ppos p) (tokens p)) as [|u d] eqn:E; [done|].
  injection Hl as _ <-. f_equal.
  replace (S (ppos p)) with (ppos p + 1)%nat by lia. by rewrite <- drop_drop, E.
Qed.

Lemma goes_ret {A} (x : A) p : goes (mret x) p x (lex p).
Proof. by exists p. Qed.
Lemma goes_ret' {A} (x : A) p w : lex p = w -> goes (mret x) p x w.
Proof. intros <-. apply goes_ret. Qed.

Lemma goes_ret_bind {A B} (x : A) (k : A -> PM B) p y rest : goes (k x) p y rest -> goes (mret x ≫= k) p y rest.
Proof. done. Qed.

Lemma goes_assoc {A B C} (m : PM A) (k : A -> PM B) (k' : B -> PM C) p y rest :
  goes (m ≫= fun x => k x ≫= k') p y rest -> goes ((m ≫= k) ≫= k') p y rest.
Proof. unfold goes, mbind, SO_bind. destruct (m p) as [[a|err| |] p']; done. Qed.

Lemma goes_unassoc {A B C} (m : PM A) (k : A -> PM B) (k' : B -> PM C) p y rest :
  goes ((m ≫= k) ≫= k') p y rest -> goes (m ≫= fun x => k x ≫= k') p y rest.
Proof. unfold goes, mbind, SO_bind. destruct (m p) as [[a|err| |] p']; done. Qed.

Lemma goes_wrap_error {A B} f (m : PM A) (k : A -> PM B) p y rest : goes (m ≫= k) p y rest -> goes (wrap_error f m ≫= k) p y rest.
Proof. unfold goes, wrap_error, mbind, SO_bind. destruct (m p) as [[a|err| |] p']; try done. intros (q & Hq & _). done. Qed.

Lemma goes_bind {A B} (m : PM A) (k : A -> PM B) p x y w rest : goes m p x w ->
  (forall p', lex p' = w -> goes (k x) p' y rest) -> goes (m ≫= k) p y rest.
Proof.
  intros (p' & Hm & Hl) Hk. destruct (Hk p' Hl) as (p'' & Hk' & Hr). exists p''. by rewrite (bind_ok _ _ _ _ _ Hm).
Qed.

Lemma goes_gets {A B} (f : Parser -> A) (k : A -> PM B) p y rest : goes (k (f p)) p y rest -> goes (gets f ≫= k) p y rest.
Proof. intros (p' & Hk & Hl). exists p'. by rewrite bind_gets. Qed.

Lemma goes_step {B} (k : unit -> PM B) p t w y rest : lex p = t :: w ->
  (forall p', lex p' = w -> goes (k tt) p' y rest) -> goes (step ≫= k) p y rest.
Proof.
  intros Hl Hk. eapply (goes_bind step _ _ tt); [|exact Hk]. eexists. split; [reflexivity|]. by eapply step_lex.
Qed.

Lemma goes_advance {B} (k : Token -> PM B) p ty v w y rest : lex p = (ty, v) :: w ->
  (forall p' tok, TType tok = ty -> TValue tok = v -> lex p' = w -> goes (k tok) p' y rest) ->
  goes (advance ≫= k) p y rest.
Proof.
  intros Hl Hk. pose proof (cur_lex p) as Hc. rewrite Hl in Hc. cbn in Hc. injection Hc as Ht Hv.
  eapply (goes_bind advance _ _ (cur p)); [eexists; split; [reflexivity|by eapply step_lex]|]. intros p'. by apply Hk.
Qed.

Lemma goes_test {B} typ values (k : bool -> PM B) b p y rest :
  lexeme_matches typ values (head (lex p)) = b -> goes (k b) p y rest -> goes (match_tok typ values ≫= k) p y rest.
Proof.
  intros Hb (p' & Hk & Hl). exists p'. split; [|done]. pose proof (match_lex typ values p) as Hm. rewrite Hb in Hm.
  by rewrite (bind_ok _ _ _ _ _ Hm).
Qed.

Lemma optional_no typ values p : lexeme_matches typ values (head (lex p)) = false ->
  optional (match_tok typ values) p = (Ok false, p).
Proof.
  intros Hb. unfold optional. pose proof (match_lex typ values p) as Hm. rewrite Hb in Hm.
  by rewrite (bind_ok _ _ _ _ _ Hm).
Qed.

Lemma goes_optional_no {B} typ values (k : bool -> PM B) p y rest :
  lexeme_matches typ values (head (lex p)) = false -> goes (k false) p y rest ->
  goes (optional (match_tok typ values) ≫= k) p y rest.
Proof. intros Hb (p' & Hk & Hl). exists p'. by rewrite (bind_ok _ _ _ _ _ (optional_no _ _ _ Hb)). Qed.

Lemma goes_optional_yes {B} typ values (k : bool -> PM B) p t w y rest :
  lex p = t :: w -> lexeme_matches typ values t = true ->
  (forall p', lex p' = w -> goes (k true) p' y rest) -> goes (optional (match_tok typ values) ≫= k) p y rest.
Proof.
  intros Hl Hb Hk. eapply goes_bind; [|exact Hk]. unfold optional. pose proof (match_lex typ values p) as Hm.
  rewrite Hl in Hm. cbn [head hd] in Hm. rewrite Hb in Hm. eexists. rewrite (bind_ok _ _ _ _ _ Hm).
  split; [reflexivity|]. by eapply step_lex.
Qed.

Lemma goes_expect {B} typ value (k : unit -> PM B) p v w y rest : lex p = (typ, v) :: w ->
  value = [] \/ to_upper v = to_upper value ->
  (forall p', lex p' = w -> goes (k tt) p' y rest) -> goes (expect typ value ≫= k) p y rest.
Proof.
  intros Hl Hv Hk. eapply goes_bind; [|exact Hk]. unfold expect, current. pose proof (cur_lex p) as Hc. rewrite Hl in Hc.
  cbn [head hd] in Hc. injection Hc as Ht Hval. unfold goes. rewrite bind_gets.
  rewrite bool_decide_eq_true_2 by done. cbn [negb]. rewrite Hval.
  replace (negb (bool_decide (value = [])) && negb (bool_decide (to_upper v = to_upper value))) with false.
  - eexists. split; [reflexivity|]. by eapply step_lex.
  - destruct Hv as [-> | Hv]; [done|]. rewrite (bool_decide_eq_true_2 (to_upper v = _)) by done. by rewrite andb_false_r.
Qed.

Lemma goes_bounded {A} (loop : nat -> PM A) p x rest :
  goes (loop (S (length (lex p)))) p x rest -> goes (bounded loop) p x rest.
Proof. intros Hl. apply goes_gets. by rewrite remaining_lex. Qed.

(** ** Lists *)

(** Items with a comma between them. *)
Fixpoint separated (ws : list (list lexeme)) : list lexeme :=
  match ws with
  | [] => []
  | [w] => w
  | w :: ws => w ++ (TokComma, str ",") :: separated ws
  end.

Lemma separated_length ws : (length ws <= S (length (separated ws)))%nat.
Proof.
  induction ws as [|w [|v ws] IH]; [cbn; lia..|]. change (separated (w :: v :: ws)) with (w ++ (TokComma, str ",") :: separated (v :: ws)).
  rewrite length_app. cbn [length] in *. lia.
Qed.

Lemma goes_comma_loop {A} (item : PM A) (f : A -> list lexeme) xs rest : no TokComma [] rest ->
  (forall x p w, x ∈ xs -> head w = (TokComma, str ",") \/ w = rest -> lex p = f x ++ w -> goes item p x w) ->
  xs <> [] -> forall n p, (length xs <= n)%nat -> lex p = separated (map f xs) ++ rest -> goes (comma_loop n item) p xs rest.
Proof.
  intros Hno. induction xs as [|x xs IH]; intros Hi Hne n p Hn Hl; [done|]. destruct n as [|n]; [cbn in Hn; lia|].
  cbn [comma_loop map length] in *. destruct xs as [|y xs].
  - cbn [map separated] in Hl. eapply goes_bind; [eapply Hi; [by left| |exact Hl]; by right|]. intros p' Hp'.
    apply goes_optional_no; [by rewrite Hp'|]. by apply goes_ret'.
  - change (separated _) with (f x ++ (TokComma, str ",") :: separated (map f (y :: xs))) in Hl.
    rewrite <- app_assoc in Hl. cbn [app] in Hl.
    eapply goes_bind; [eapply Hi; [by left| |exact Hl]; by left|]. intros p' Hp'.
    eapply goes_optional_yes; [exact Hp'|done|]. intros p'' Hp''.
    eapply goes_bind; [apply IH; [|done| |exact Hp'']|].
    + intros z q w Hz. apply Hi. by right.
    + cbn in *. lia.
    + intros q Hq. by apply goes_ret'.
Qed.

Lemma goes_comma_list {A} (item : PM A) (f : A -> list lexeme) xs rest p : xs <> [] -> no TokComma [] rest ->
  (forall x p w, x ∈ xs -> head w = (TokComma, str ",") \/ w = rest -> lex p = f x ++ w -> goes item p x w) ->
  lex p = separated (map f xs) ++ rest -> goes (comma_list item) p xs rest.
Proof.
  intros Hne Hno Hi Hl. apply goes_bounded. apply (goes_comma_loop item f xs rest); [done..| |done].
  rewrite Hl, length_app. pose proof (separated_length (map f xs)) as Hs. rewrite length_map in Hs. lia.
Qed.

(** Elements one after the other. *)
Lemma goes_while_loop {A} typ values (body : PM A) (f : A -> list lexeme) xs rest :
  lexeme_matches typ values (head rest) = false ->
  (forall x w, x ∈ xs -> lexeme_matches typ values (head (f x ++ w)) = true) ->
  (forall x p w, x ∈ xs -> w = rest \/ (exists y w', y ∈ xs /\ w = f y ++ w') -> lex p = f x ++ w -> goes body p x w) ->
  forall n p, (length xs < n)%nat -> lex p = concat (map f xs) ++ rest -> goes (while_loop n (match_tok typ values) body) p xs rest.
Proof.
  intros Hno. induction xs as [|x xs IH]; intros Ht Hi n p Hn Hl; (destruct n as [|n]; [cbn in Hn; lia|]);
    cbn [while_loop map concat length] in *.
  - apply goes_test with (b := false); [by rewrite Hl|]. by apply goes_ret'.
  - rewrite <- app_assoc in Hl. apply goes_test with (b := true); [rewrite Hl; apply Ht; by left|].
    eapply goes_bind; [eapply Hi; [by left| |exact Hl]|].
    + destruct xs as [|y xs]; [by left|right]. exists y. eexists. split; [right; by left|]. cbn [map concat]. by rewrite <- app_assoc.
    + intros p' Hp'. eapply goes_bind; [apply IH; [| |lia|exact Hp']|].
      * intros. apply Ht. by right.
      * intros z q w Hz [->|(y & w' & Hy & ->)]; apply Hi; [by right|by left|by right|].
        right. exists y, w'. split; [by right|done].
      * intros q Hq. by apply goes_ret'.
Qed.

Lemma goes_while_list {A} typ values (body : PM A) (f : A -> list lexeme) xs rest p :
  lexeme_matches typ values (head rest) = false -> (forall x, x ∈ xs -> f x <> []) ->
  (forall x w, x ∈ xs -> lexeme_matches typ values (head (f x ++ w)) = true) ->
  (forall x p w, x ∈ xs -> w = rest \/ (exists y w', y ∈ xs /\ w = f y ++ w') -> lex p = f x ++ w -> goes body p x w) ->
  lex p = concat (map f xs) ++ rest -> goes (while_list (match_tok typ values) body) p xs rest.
Proof.
  intros Hno Hne Ht Hi Hl. apply goes_bounded. apply (goes_while_loop typ values body f xs rest); [done..| |done].
  rewrite Hl, length_app. enough (length xs <= length (concat (map f xs)))%nat by lia. clear -Hne.
  induction xs as [|x xs IH]; [done|]. cbn [map concat length]. rewrite length_app.
  assert (length (f x) <> 0%nat) by (intros E; apply nil_length_inv in E; by apply (Hne x); [left|]).
  specialize (IH ltac:(intros y Hy; apply Hne; by right)). lia.
Qed.

(** ** The levels of the expression grammar *)

(** An operand, and no operator after it. *)
Lemma goes_binary_one o operand p x w : goes operand p x w ->
  (forall p', lex p' = w -> o p' = (Ok None, p')) -> goes (binary o operand) p x w.
Proof.
  intros Hx Ho. eapply goes_bind; [exact Hx|]. intros p' Hp'. apply goes_bounded. cbn [binary_loop].
  eapply (goes_bind o _ _ None _ w); [exists p'; split; [by apply Ho|done]|]. intros q Hq. by apply goes_ret'.
Qed.

(** Two operands with an operator between them. *)
Lemma goes_binary_two o operand p l op r w1 w2 w3 : goes operand p l w1 -> w1 <> [] ->
  (forall p1, lex p1 = w1 -> goes o p1 (Some op) w2) ->
  (forall p2, lex p2 = w2 -> goes operand p2 r w3) ->
  (forall p3, lex p3 = w3 -> o p3 = (Ok None, p3)) -> goes (binary o operand) p (ExprBinaryOp l op r) w3.
Proof.
  intros Hl Hne Ho Hr Hend. eapply goes_bind; [exact Hl|]. intros p1 Hp1. apply goes_bounded. cbn [binary_loop].
  eapply goes_bind; [by apply Ho|]. intros p2 Hp2. eapply goes_bind; [by apply Hr|]. intros p3 Hp3.
  rewrite Hp1. destruct w1 as [|t w1]; [done|]. cbn [length binary_loop].
  eapply (goes_bind o _ _ None _ w3); [exists p3; split; [by apply Hend|done]|]. intros q Hq. by apply goes_ret'.
Qed.

Lemma operator_value_no values p : lexeme_matches TokOperator values (head (lex p)) = false ->
  operator_value (match_tok TokOperator values) p = (Ok None, p).
Proof.
  intros Hb. unfold operator_value. pose proof (match_lex TokOperator values p) as Hm. rewrite Hb in Hm.
  by rewrite (bind_ok _ _ _ _ _ Hm).
Qed.
Lemma operator_value_yes values p op w : lex p = (TokOperator, op) :: w ->
  lexeme_matches TokOperator values (TokOperator, op) = true -> goes (operator_value (match_tok TokOperator values)) p (Some op) w.
Proof.
  intros Hl Hb. apply goes_test with (b := true); [by rewrite Hl|]. eapply goes_advance; [exact Hl|].
  intros p' tok _ <- Hp'. by apply goes_ret'.
Qed.
Lemma operator_keyword_no k p : no TokKeyword [k] (lex p) -> operator_keyword k p = (Ok None, p).
Proof. intros Hb. unfold operator_keyword. by rewrite (bind_ok _ _ _ _ _ (optional_no _ _ _ Hb)). Qed.
Lemma operator_keyword_yes k p w : lex p = (TokKeyword, str k) :: w -> yes TokKeyword [k] (lex p) ->
  goes (operator_keyword k) p (Some (str k)) w.
Proof.
  intros Hl Hy. eapply goes_optional_yes; [exact Hl|by rewrite Hl in Hy|]. intros p' Hp'. by apply goes_ret'.
Qed.
Lemma no_any typ values w : no typ [] w -> lexeme_matches typ values (head w) = false.
Proof.
  unfold no, lexeme_matches, token_matches. cbn [map TType]. rewrite andb_true_r. by intros ->.
Qed.

Lemma additive_operator_no p : no TokOperator ["+"; "-"]%string (lex p) -> no TokOperator ["||"] (lex p) ->
  additive_operator p = (Ok None, p).
Proof.
  intros H1 H2. unfold additive_operator, match_op. rewrite (bind_ok _ _ _ _ _ (operator_value_no _ _ H1)).
  by rewrite (bind_ok _ _ _ _ _ (optional_no _ _ _ H2)).
Qed.

Lemma additive_operator_yes p op w : lex p = (TokOperator, op) :: w -> op ∈ [str "+"; str "-"; str "||"] ->
  goes additive_operator p (Some op) w.
Proof.
  intros Hl Hop. unfold additive_operator, match_op.
  assert (Hc : lexeme_matches TokOperator (map str ["+"; "-"]%string) (TokOperator, op) = true \/ op = str "||").
  { repeat (apply elem_of_cons in Hop as [->|Hop]; [by (left + right)|]). by apply elem_of_nil in Hop. }
  destruct Hc as [Hc | ->].
  - eapply goes_bind; [by eapply operator_value_yes|]. intros p' Hp'. by apply goes_ret'.
  - eapply goes_bind; [exists p; split; [apply operator_value_no; by rewrite Hl|exact Hl]|]. intros p' Hp'.
    eapply goes_optional_yes; [exact Hp'|done|]. intros q Hq. by apply goes_ret'.
Qed.

Definition comparison_operators : list string := ["="; "<"; ">"; "<="; ">="; "<>"; "!="]%string.

Section Levels.
Variables (e : PM Expression) (s : PM Select).

Lemma lift_mult p x w : no TokOperator ["*"; "/"; "%"]%string w -> goes (parseUnaryExpr e s) p x w ->
  goes (parseMultiplicativeExpr e s) p x w.
Proof. intros Hno Hx. apply goes_binary_one; [done|]. intros p' Hp'. apply operator_value_no. by rewrite Hp'. Qed.

Lemma lift_add p x w : no TokOperator ["+"; "-"]%string w -> no TokOperator ["||"] w ->
  goes (parseMultiplicativeExpr e s) p x w -> goes (parseAdditiveExpr e s) p x w.
Proof. intros H1 H2 Hx. apply goes_binary_one; [done|]. intros p' Hp'. apply additive_operator_no; by rewrite Hp'. Qed.

Lemma lift_comparison p x w : no TokOperator comparison_operators w -> no TokKeyword ["IS"] w -> no TokKeyword ["IN"] w ->
  no TokKeyword ["BETWEEN"] w -> no TokKeyword ["LIKE"] w ->
  goes (parseAdditiveExpr e s) p x w -> goes (parseComparisonExpr e s) p x w.
Proof.
  intros H1 H2 H3 H4 H5 Hx. unfold parseComparisonExpr. eapply goes_bind; [exact Hx|]. intros p' Hp'.
  eapply (goes_bind _ _ _ None _ w); [exists p'; split; [apply operator_value_no; by rewrite Hp'|done]|]. intros q Hq.
  do 4 (apply goes_optional_no; [by rewrite Hq|]). by apply goes_ret'.
Qed.

Lemma lift_not p x w : no TokKeyword ["NOT"] (lex p) -> goes (parseComparisonExpr e s) p x w ->
  goes (parseNotExpr e s) p x w.
Proof. intros Hno Hx. by apply goes_optional_no. Qed.

Lemma lift_and p x w : no TokKeyword ["AND"] w -> goes (parseNotExpr e s) p x w -> goes (parseAndExpr e s) p x w.
Proof. intros Hno Hx. apply goes_binary_one; [done|]. intros p' Hp'. apply operator_keyword_no. by rewrite Hp'. Qed.

Lemma lift_or p x w : no TokKeyword ["OR"] w -> goes (parseAndExpr e s) p x w -> goes (parseOrExpr e s) p x w.
Proof. intros Hno Hx. apply goes_binary_one; [done|]. intros p' Hp'. apply operator_keyword_no. by rewrite Hp'. Qed.

(** No sign before a primary expression. *)
Lemma lift_unary p x w : no TokOperator ["+"; "-"]%string (lex p) -> goes (parsePrimaryExpr e s) p x w ->
  goes (parseUnaryExpr e s) p x w.
Proof.
  intros Hno Hx. apply goes_bounded. cbn [unary_loop]. by apply goes_test with (b := false).
Qed.
End Levels.
End Run.

(** ** Automation *)

(** The tests on the value of a keyword. *)
Ltac decide_words :=
  repeat match goal with
  | |- context [bool_decide (to_upper (str ?a) = str ?b)] =>
    let v := eval vm_compute in (String.eqb a b) in
    replace (bool_decide (to_upper (str a) = str b)) with v by reflexivity
  end; cbn iota.

(** One step of the parser on tokens that are known. *)
Ltac go :=
  lazymatch goal with
  | Hl : lex ?p = ?t :: ?w |- goes (mbind _ step) ?p _ _ =>
    eapply goes_step; [exact Hl|]; clear p Hl; intros p Hl; cbv beta
  | Hl : lex ?p = (?ty, ?v) :: ?w |- goes (mbind _ advance) ?p _ _ =>
    let tok := fresh "tok" in let Ht := fresh "Ht" in let Hv := fresh "Hv" in
    eapply goes_advance; [exact Hl|]; clear p Hl; intros p tok Ht Hv Hl; cbv beta zeta; rewrite ?Ht, ?Hv; clear Ht Hv tok
  | Hl : lex ?p = ?t :: ?w |- goes (mbind _ (expect _ _)) ?p _ _ =>
    eapply goes_expect; [exact Hl|first [left; reflexivity|right; reflexivity]|]; clear p Hl; intros p Hl; cbv beta
  | Hl : lex ?p = ?t :: ?w |- goes (mbind _ (expect_keyword _)) ?p _ _ =>
    eapply goes_expect; [exact Hl|right; reflexivity|]; clear p Hl; intros p Hl; cbv beta
  | Hl : lex ?p = ?w |- goes (mbind _ (optional _)) ?p _ _ =>
    first [ apply goes_optional_no; [rewrite Hl; reflexivity|]
          | eapply goes_optional_yes; [exact Hl|reflexivity|]; clear p Hl; intros p Hl ]; cbv beta iota
  | Hl : lex ?p = ?w |- goes (mbind _ (match_type _)) ?p _ _ =>
    first [ apply goes_test with (b := false); [rewrite Hl; reflexivity|]
          | apply goes_test with (b := true); [rewrite Hl; reflexivity|] ]; cbv beta iota; cbn [negb andb orb]
  | Hl : lex ?p = ?w |- goes (mbind _ (matchKeyword _)) ?p _ _ =>
    first [ apply goes_test with (b := false); [rewrite Hl; reflexivity|]
          | apply goes_test with (b := true); [rewrite Hl; reflexivity|] ]; cbv beta iota; cbn [negb andb orb]
  | |- goes (mbind _ (mbind _ _)) _ _ _ => apply goes_assoc; cbv beta iota
  | |- goes (mbind _ (wrap_error _ _)) _ _ _ => apply goes_wrap_error
  | |- goes (mbind _ (mret _)) _ _ _ => apply goes_ret_bind; cbv beta iota
  | Hl : lex ?p = ?w |- goes (mret _) ?p _ _ => apply goes_ret'; exact Hl
  end.
