(* ===== verification/ParserRoundTrip.v ===== *)
(** * Parsing a written query gives it back: expressions

    The parsing functions for expressions on the tokens of a printable one,
    the parsers for nested expressions and queries being right on shorter
    texts: the primary expressions first, then each level of the grammar up
    to OR ([level_all]). Queries follow in [ParserQuery]. *)

From S2P Require Import Prelude GoLib Types Lexer Ast Parser ParserDml Print ParserRun.

Definition mean (ws : list word) : list lexeme := map meaning ws.

Lemma mean_app v w : mean (v ++ w) = mean v ++ mean w.
Proof. apply map_app. Qed.
Lemma mean_cons v w : mean (v :: w) = meaning v :: mean w.
Proof. done. Qed.

Lemma mean_commas l : mean (commas l) = separated (map mean l).
Proof.
  induction l as [|w [|v l] IH]; [done..|]. change (commas (w :: v :: l)) with (w ++ comma :: commas (v :: l)).
  rewrite mean_app, mean_cons, IH. done.
Qed.

Lemma separated_first w ws y : exists y', separated (w :: ws) ++ y = w ++ y'.
Proof. destruct ws as [|v ws]; [by exists y|]. eexists. cbn [separated]. by rewrite <- app_assoc. Qed.

Lemma mean_concat l : mean (concat l) = concat (map mean l).
Proof. apply concat_map. Qed.

Lemma meaning_kw s : is_keyword (map upper_byte (str s)) = true -> map upper_byte (str s) = str s ->
  meaning (kw s) = (TokKeyword, str s).
Proof. intros H1 H2. cbn [kw meaning]. by rewrite H1, H2. Qed.

Lemma text_ok_runes s : text_ok s = true -> of_runes (runes s) = s.
Proof. unfold text_ok. intros [H _]%andb_true_iff. by apply bool_decide_eq_true in H. Qed.

Lemma name_ok_text c : name_ok c = true -> text_ok c = true.
Proof. unfold name_ok. by intros [[H _]%andb_true_iff _]%andb_true_iff. Qed.
Lemma name_ok_nonempty c : name_ok c = true -> c <> [].
Proof. unfold name_ok. intros [_ H]%andb_true_iff ->. done. Qed.

Lemma meaning_quoted c : name_ok c = true -> meaning (quoted c) = (TokIdent, c).
Proof. intros Hc. unfold quoted. cbn [meaning]. by rewrite text_ok_runes by by apply name_ok_text. Qed.
Lemma meaning_text s : text_ok s = true -> meaning (text_of s) = (TokString, s).
Proof. intros Hs. unfold text_of. cbn [meaning]. by rewrite text_ok_runes. Qed.
Lemma meaning_number n : meaning (number_of n) = (TokNumber, itoa n).
Proof. unfold number_of. cbn [meaning text fraction_text exponent_text]. by rewrite app_nil_r. Qed.

(** A member of a literal list, case by case. *)
Ltac member Hin :=
  cbn [map app] in Hin;
  repeat (apply elem_of_cons in Hin as [Hin|Hin]; [subst|]); [..|by apply elem_of_nil in Hin].

(** Membership in a literal list. *)
Ltac inlist := cbn [map]; rewrite ?elem_of_cons; tauto.

(** [x] in [y && z] *)
Ltac split_ok := repeat match goal with
  | Hb : (_ && _)%bool = true |- _ => apply andb_true_iff in Hb as [? ?]
  | Hb : bool_decide _ = true |- _ => apply bool_decide_eq_true in Hb
  | Hb : negb (bool_decide _) = true |- _ => apply negb_true_iff, bool_decide_eq_false in Hb
  end.

(** Keyword tokens, the words of a written query being known. *)
Ltac mean_in Hl :=
  repeat first [rewrite mean_app in Hl | rewrite mean_cons in Hl | rewrite mean_commas in Hl | rewrite mean_concat in Hl];
  repeat (rewrite meaning_kw in Hl by reflexivity);
  repeat (rewrite meaning_number in Hl);
  repeat (rewrite meaning_quoted in Hl by done); repeat (rewrite meaning_text in Hl by done);
  change (meaning lp) with (TokLParen, str "(") in Hl; change (meaning rp) with (TokRParen, str ")") in Hl;
  change (meaning dot) with (TokDot, str ".") in Hl; change (meaning star) with (TokStar, str "*") in Hl;
  change (mean []) with (@nil lexeme) in Hl;
  repeat first [rewrite <- app_assoc in Hl | rewrite <- app_comm_cons in Hl | rewrite app_nil_l in Hl].

(** An operand, in parentheses unless it is an atom. *)
Abbreviation operand x := (mean (wrap (atomic x) (print x))).

Section RoundTrip.
Context `{GoRuntime}.

(** What may come after an expression. *)
Definition continues (l : lexeme) : bool :=
  match l.1 with
  | TokLParen | TokDot | TokOperator => true
  | TokKeyword => existsb (fun k => lexeme_matches TokKeyword [str k] l) ["AND"; "OR"; "IS"; "IN"; "BETWEEN"; "LIKE"]%string
  | _ => false
  end.
Definition follow (w : list lexeme) : Prop := continues (head w) = false.

(** What comes after an operand: anything but a call or a field. *)
Definition operand_follow (w : list lexeme) : Prop := no TokLParen [] w /\ no TokDot [] w.

(** What an operand starts with. *)
Definition operand_first (l : lexeme) : bool :=
  match l.1 with
  | TokIdent | TokNumber | TokString | TokLParen => true
  | TokKeyword => bool_decide (l.2 ∈ map str ["NULL"; "TRUE"; "FALSE"; "CASE"; "EXISTS"; "MATCH"]%string)
  | _ => false
  end.

Lemma lexeme_type typ values ty v : ty <> typ -> lexeme_matches typ values (ty, v) = false.
Proof. intros Hne. unfold lexeme_matches, token_matches. cbn. by rewrite bool_decide_eq_false_2. Qed.

Lemma follow_no_keyword k w : follow w -> k ∈ ["AND"; "OR"; "IS"; "IN"; "BETWEEN"; "LIKE"]%string -> no TokKeyword [k] w.
Proof.
  unfold follow, continues, no. destruct (head w) as [ty v]. cbn [fst]. intros Hf Hk.
  destruct (decide (ty = TokKeyword)) as [->|]; [|by apply lexeme_type].
  destruct (lexeme_matches TokKeyword (map str [k]) (TokKeyword, v)) eqn:E; [|done].
  exfalso. enough (existsb (fun k => lexeme_matches TokKeyword [str k] (TokKeyword, v))
    ["AND"; "OR"; "IS"; "IN"; "BETWEEN"; "LIKE"]%string = true) by congruence.
  apply existsb_exists. exists k. split; [|done]. by apply list_elem_of_In.
Qed.

Lemma follow_no_type typ values w : follow w -> typ ∈ [TokLParen; TokDot; TokOperator] ->
  lexeme_matches typ values (head w) = false.
Proof.
  unfold follow, continues. destruct (head w) as [ty v]. cbn [fst]. intros Hf Hin. apply lexeme_type. intros ->.
  by member Hin.
Qed.

Lemma follow_operand w : follow w -> operand_follow w.
Proof. intros Hf. split; apply follow_no_type; try done; by repeat (try (left; done); right). Qed.

Lemma operand_first_type w typ values : operand_first (head w) = true ->
  typ ∈ [TokOperator; TokStar; TokRParen; TokComma; TokDot; TokEOF] -> lexeme_matches typ values (head w) = false.
Proof.
  unfold operand_first. destruct (head w) as [ty v]. cbn [fst]. intros Hf Hin. apply lexeme_type. intros ->.
  by member Hin.
Qed.
Lemma operand_first_keyword w k : operand_first (head w) = true ->
  k ∈ ["NOT"; "SELECT"; "DISTINCT"; "WHEN"]%string -> no TokKeyword [k] w.
Proof.
  unfold operand_first, no. destruct (head w) as [ty v]. cbn [fst snd]. intros Hf Hk.
  destruct (decide (ty = TokKeyword)) as [->|]; [|by apply lexeme_type]. apply bool_decide_eq_true in Hf.
  member Hk; member Hf; reflexivity.
Qed.

Lemma wrap_first b w : b = false -> mean (wrap b w) = (TokLParen, str "(") :: mean w ++ [(TokRParen, str ")")].
Proof. intros ->. cbn [wrap]. by rewrite mean_cons, mean_app. Qed.

Lemma head_app v w : v <> [] -> head (v ++ w) = head v.
Proof. by destruct v. Qed.

Lemma operand_head x w : printable x = true -> operand_first (head (mean (wrap (atomic x) (print x)) ++ w)) = true.
Proof.
  intros Hx. destruct (atomic x) eqn:Ha; [|by rewrite wrap_first]. cbn [wrap].
  destruct x as [v|table col|name args|op r|l op r|c whens x|l vs|l q|l a b|q|q|t|col query mode level]; try discriminate; cbn [print].
  - destruct v; try discriminate; try reflexivity. by destruct b.
  - by destruct table.
  - reflexivity.
  - reflexivity.
  - reflexivity.
  - reflexivity.
  - reflexivity.
Qed.
(** What a written expression other than a star starts with. *)
Definition expression_first (l : lexeme) : bool :=
  operand_first l || bool_decide (l = (TokKeyword, str "NOT")) || bool_decide (l.1 = TokOperator).

Lemma expression_head x w : printable x = true -> is_star x = false ->
  expression_first (head (mean (print x) ++ w)) = true.
Proof.
  intros Hx Hs. unfold expression_first.
  assert (Hop : forall l v, printable l = true -> operand_first (head (mean (wrap (atomic l) (print l) ++ v) ++ w)) = true).
  { intros l v Hl. rewrite mean_app, <- app_assoc. by apply operand_head. }
  destruct (atomic x) eqn:Ha; [pose proof (operand_head x w Hx) as Ho; rewrite Ha in Ho; cbn [wrap] in Ho; by rewrite Ho|].
  destruct x as [v|table col|name args|op r|l op r|c whens x|l vs|l q|l a b|q|q|t|col query mode level]; try discriminate; cbn [print printable] in *.
  - apply andb_true_iff in Hx as [_ [Hin _]%andb_true_iff]. apply bool_decide_eq_true in Hin. member Hin; reflexivity.
  - apply andb_true_iff in Hx as [_ [Hl _]%andb_true_iff]. by rewrite Hop.
  - apply andb_true_iff in Hx as [_ [[Hl _]%andb_true_iff _]%andb_true_iff]. by rewrite Hop.
  - apply andb_true_iff in Hx as [_ [Hl _]%andb_true_iff]. by rewrite Hop.
  - apply andb_true_iff in Hx as [_ [[Hl _]%andb_true_iff _]%andb_true_iff]. by rewrite Hop.
Qed.

Lemma expression_first_type w typ values : expression_first (head w) = true ->
  typ ∈ [TokStar; TokRParen; TokComma; TokDot; TokEOF] -> lexeme_matches typ values (head w) = false.
Proof.
  intros Hf Hin. destruct (head w) as [ty v] eqn:E. apply lexeme_type. intros ->. unfold expression_first in Hf.
  repeat (apply orb_true_iff in Hf as [Hf|Hf]).
  - pose proof (operand_first_type w typ [] ltac:(by rewrite E)) as Hm. rewrite E in Hm.
    member Hin; try discriminate Hf.
  - apply bool_decide_eq_true in Hf. injection Hf as -> _. by member Hin.
  - apply bool_decide_eq_true in Hf. cbn in Hf. subst. by member Hin.
Qed.

Lemma expression_first_keyword w k : expression_first (head w) = true ->
  k ∈ ["SELECT"; "DISTINCT"; "WHEN"]%string -> no TokKeyword [k] w.
Proof.
  intros Hf Hk. unfold no. destruct (head w) as [ty v] eqn:E. unfold expression_first in Hf.
  repeat (apply orb_true_iff in Hf as [Hf|Hf]).
  - pose proof (operand_first_keyword w k ltac:(by rewrite E)) as Hm. unfold no in Hm. rewrite E in Hm. apply Hm. by right.
  - apply bool_decide_eq_true in Hf. injection Hf as -> ->. by member Hk.
  - apply bool_decide_eq_true in Hf. cbn in Hf. subst. by apply lexeme_type.
Qed.

Lemma commas_length {A} (f : A -> list word) x xs : x ∈ xs -> (length (f x) <= length (commas (map f xs)))%nat.
Proof.
  induction xs as [|y xs IH]; [by intros ?%elem_of_nil|]. intros [->|Hx]%elem_of_cons.
  - destruct xs as [|z xs]; [done|]. change (commas _) with (f y ++ comma :: commas (map f (z :: xs))). rewrite length_app. lia.
  - specialize (IH Hx). destruct xs as [|z xs]; [by apply elem_of_nil in Hx|].
    change (commas (map f (y :: z :: xs))) with (f y ++ comma :: commas (map f (z :: xs))). rewrite length_app. cbn [length]. lia.
Qed.

Lemma concat_length {A} (f : A -> list word) x xs : x ∈ xs -> (length (f x) <= length (concat (map f xs)))%nat.
Proof.
  induction xs as [|y xs IH]; [by intros ?%elem_of_nil|]. cbn [map concat]. rewrite length_app.
  intros [->|Hx]%elem_of_cons; [lia|]. specialize (IH Hx). lia.
Qed.

Lemma forallb_elem {A} (f : A -> bool) xs x : forallb f xs = true -> x ∈ xs -> f x = true.
Proof. intros Hf Hx. rewrite forallb_forall in Hf. apply Hf. by apply list_elem_of_In. Qed.
(** The digits of a number have neither a point nor an exponent. *)
Lemma digits_plain m : 0 <= m ->
  digit_text (itoa m) /\ contains Byte.x2e (itoa m) = false /\ contains Byte.x45 (to_upper (itoa m)) = false.
Proof.
  intros Hm. assert (Hd : forall f z acc, 0 <= z -> digit_text acc -> digit_text (digits_fuel f z acc)).
  { induction f as [|f IH]; intros z acc Hz Ha; [done|]. cbn [digits_fuel].
    assert (Hb : digit_text (digit_byte (z mod 10) :: acc)).
    { constructor; [|done]. pose proof (Z.mod_pos_bound z 10 ltac:(lia)). unfold digit_byte.
      rewrite unsigned_byte by lia. unfold isDigit, in_range. chars. lia. }
    destruct (z <? 10); [done|]. apply IH; [|done]. by apply Z.div_pos. }
  assert (Ht : digit_text (itoa m)).
  { unfold itoa. replace (m <? 0) with false by lia. apply Hd; [lia|constructor]. }
  assert (Hno : forall (b : byte) s, isDigit (byte.unsigned b) = false -> digit_text s -> contains b s = false).
  { intros b t Hb Hs. apply bool_decide_eq_false. intros Hin. unfold digit_text in Hs. rewrite Forall_forall in Hs. rewrite (Hs b Hin) in Hb. done. }
  split_and!; [done|by apply Hno|]. apply Hno; [done|]. unfold to_upper.
  assert (Hup : Forall (fun b => byte.unsigned b < 0x80 /\ upper_byte b = b) (itoa m)).
  { eapply Forall_impl; [exact Ht|]. cbn. intros b Hb. unfold isDigit, in_range in Hb. chars. unfold upper_byte, in_range.
    replace ((97 <=? byte.unsigned b) && (byte.unsigned b <=? 122)) with false by lia. split; [lia|done]. }
  replace (is_ascii (itoa m)) with true.
  - replace (map upper_byte (itoa m)) with (itoa m); [done|]. clear Ht. induction Hup as [|b l [_ Hb] _ IH]; [done|].
    cbn [map]. by rewrite Hb, <- IH.
  - symmetry. unfold is_ascii. apply forallb_forall. intros b Hb. apply list_elem_of_In in Hb.
    rewrite Forall_forall in Hup. destruct (Hup b Hb). lia.
Qed.

(** What comes after a query. *)
Definition closes (w : list lexeme) : Prop := (head w).1 ∈ [TokRParen; TokEOF; TokSemicolon].

Lemma closes_no w typ values : closes w -> typ ∉ [TokRParen; TokEOF; TokSemicolon] -> lexeme_matches typ values (head w) = false.
Proof. unfold closes. destruct (head w) as [ty v]. cbn. intros Hc Hn. apply lexeme_type. by intros ->. Qed.
Lemma closes_follow w : closes w -> follow w.
Proof. unfold closes, follow. destruct (head w) as [ty v]. cbn. intros Hc. by member Hc. Qed.
Lemma follow_rparen v w : follow ((TokRParen, v) :: w).
Proof. reflexivity. Qed.

Section Primary.
Variables (e : PM Expression) (s : PM Select) (n : nat).
Hypothesis He : forall x p rest, printable x = true -> (length (print x) < n)%nat -> follow rest ->
  lex p = mean (print x) ++ rest -> goes e p x rest.
Hypothesis Hs : forall q p rest, printable_select q = true -> (length (print_select q) < n)%nat -> closes rest ->
  lex p = mean (print_select q) ++ rest -> goes s p q rest.

(** [parsePrimaryExpr] on a token of known type and value *)
Lemma primary_keyword p k w : lex p = (TokKeyword, str k) :: w ->
  parsePrimaryExpr e s p =
    (let word := to_upper (str k) in
     if bool_decide (word = str "NULL") then step;; mret (NewLiteralExpr GNil)
     else if bool_decide (word = str "TRUE") then step;; mret (NewLiteralExpr (GBool true))
     else if bool_decide (word = str "FALSE") then step;; mret (NewLiteralExpr (GBool false))
     else if bool_decide (word = str "CASE") then parseCaseExpr e
     else if bool_decide (word = str "EXISTS") then parseExistsExpr s
     else if bool_decide (word = str "MATCH") then parseMatchAgainst
     else parseIdentOrFunction e) p.
Proof.
  intros Hl. pose proof (cur_lex p) as Hc. rewrite Hl in Hc. cbn in Hc. injection Hc as Ht Hv.
  unfold parsePrimaryExpr, current. rewrite bind_gets. cbv zeta. by rewrite Ht, Hv.
Qed.

Lemma primary_other p ty v w : lex p = (ty, v) :: w -> ty ≠ TokKeyword ->
  parsePrimaryExpr e s p =
    match ty with
    | TokNumber => parseNumberLiteral p
    | TokString => (step;; mret (NewLiteralExpr (GString v))) p
    | TokIdent => parseIdentOrFunction e p
    | TokLParen => parseParenExpr e s p
    | TokStar => (step;; mret (NewStarExpr [])) p
    | _ => (fail (UnexpectedToken (cur p)) : PM Expression) p
    end.
Proof.
  intros Hl Hne. pose proof (cur_lex p) as Hc. rewrite Hl in Hc. cbn in Hc. injection Hc as Ht Hv.
  unfold parsePrimaryExpr, current. rewrite bind_gets. cbv zeta. rewrite Ht, Hv. by destruct ty.
Qed.

Definition primary_ok (x : Expression) : Prop := forall p rest, operand_follow rest ->
  lex p = mean (print x) ++ rest -> goes (parsePrimaryExpr e s) p x rest.

Lemma goes_eq {A} (m m' : PM A) p x rest : m p = m' p -> goes m' p x rest -> goes m p x rest.
Proof. unfold goes. by intros ->. Qed.

Ltac primary Hl :=
  mean_in Hl;
  first [ apply (goes_eq _ _ _ _ _ (primary_keyword _ _ _ Hl)); cbv zeta; decide_words
        | eapply goes_eq; [apply (primary_other _ _ _ _ Hl); discriminate|]; cbn iota ].

Lemma primary_literal v : printable (ExprLiteral v) = true -> primary_ok (ExprLiteral v).
Proof.
  intros Hx p rest Hf Hl. cbn [printable is_distinct negb andb] in Hx.
  destruct v as [|k m|f|f|t|b|[]|t|ty t]; try discriminate; cbn [print] in Hl.
  - primary Hl. by repeat go.
  - split_ok. subst k. primary Hl. unfold parseNumberLiteral. go.
    destruct (digits_plain m) as (Hd & Hc & He'); [lia|]. rewrite Hc, He'. cbn [negb andb].
    rewrite parse_int_itoa by (unfold in_i64; lia). by repeat go.
  - primary Hl. by repeat go.
  - primary Hl. by repeat go.
  - primary Hl. by repeat go.
Qed.

Lemma primary_column t c : printable (ExprColumn t c) = true -> primary_ok (ExprColumn t c).
Proof.
  intros Hx p rest [Hp Hd] Hl. cbn [printable is_distinct negb andb] in Hx.
  apply andb_true_iff in Hx as [Ht Hc]. unfold opt_name_ok in Ht. cbn [print] in Hl.
  destruct t as [|b t]; cbn [print_name] in Hl.
  - primary Hl. unfold parseIdentOrFunction. go.
    apply goes_optional_no; [by rewrite Hl|]. cbv iota. apply goes_optional_no; [by rewrite Hl|]. by go.
  - assert (Hn : name_ok (b :: t) = true) by exact Ht. primary Hl. unfold parseIdentOrFunction. do 3 go.
    do 2 go. go. by go.
Qed.

Lemma goes_argument a p rest : (if is_distinct a then match a with ExprUnaryOp _ r => printable r | _ => false end else printable a) = true ->
  (length (print a) < n)%nat -> follow rest -> lex p = mean (print a) ++ rest -> goes (argument e) p a rest.
Proof.
  intros Hx Hn Hf Hl. unfold argument. destruct (is_distinct a) eqn:Hd.
  - destruct a; try discriminate. cbn [is_distinct] in Hd. apply bool_decide_eq_true in Hd as ->.
    cbn [print] in Hl, Hn. rewrite bool_decide_eq_true_2 in Hl, Hn by done. cbn [length] in Hn. mean_in Hl. go.
    eapply goes_bind; [apply He; [done|lia|done|done]|]. clear p Hl. intros p Hl. by go.
  - apply goes_optional_no.
    { destruct (is_star a) eqn:Hst; [by destruct a; try discriminate; rewrite Hl|].
      pose proof (expression_head a rest Hx Hst) as Hh. rewrite <- Hl in Hh.
      apply (expression_first_keyword _ _ Hh). right. by left. }
    eapply goes_bind; [by apply He|]. clear p Hl. intros p Hl. by go.
Qed.
(** The condition on an argument, and on the list of them. *)
Definition argument_ok (a : Expression) : bool :=
  if is_distinct a then match a with ExprUnaryOp _ r => printable r | _ => false end else printable a.

Lemma printable_args name args : printable (ExprFunction name args) = true ->
  name_ok name = true /\ to_upper name = name /\ Forall (fun a => argument_ok a = true) args /\
  (args = [ExprStar []] \/ match args with a :: _ => is_star a = false | [] => True end).
Proof.
  cbn [printable is_distinct negb andb]. intros [[[Hn Hu]%andb_true_iff Hst]%andb_true_iff Ha]%andb_true_iff.
  apply bool_decide_eq_true in Hu. split_and!; [done..| |].
  - apply Forall_forall. intros a Hin. pose proof (forallb_elem _ _ _ Ha Hin) as Hx. cbn beta in Hx. unfold argument_ok, is_distinct.
    destruct a; exact Hx.
  - destruct args as [|[] args]; try (by right); try (right; by apply negb_true_iff in Hst).
    destruct args; [|done]. apply bool_decide_eq_true in Hst as ->. by left.
Qed.

Lemma comma_follow w rest : follow rest -> head w = (TokComma, str ",") \/ w = rest -> follow w.
Proof. intros Hf [Hw| ->]; [|done]. unfold follow. by rewrite Hw. Qed.

Lemma argument_head a w : argument_ok a = true -> is_star a = false -> expression_first (head (mean (print a) ++ w)) = true \/ is_distinct a = true.
Proof.
  unfold argument_ok. destruct (is_distinct a); [by right|]. left. by apply expression_head.
Qed.

Lemma argument_no a w typ : argument_ok a = true -> is_star a = false -> typ ∈ [TokStar; TokRParen] ->
  no typ [] (mean (print a) ++ w).
Proof.
  intros Ha Hst Ht. destruct (argument_head a w Ha Hst) as [Hh|Hd].
  - apply (expression_first_type _ _ _ Hh). by member Ht; [left|right; left].
  - destruct a; try discriminate. apply bool_decide_eq_true in Hd as ->. cbn [print]. rewrite bool_decide_eq_true_2 by done.
    rewrite mean_cons, meaning_kw by done. by member Ht.
Qed.

Lemma primary_function name args : printable (ExprFunction name args) = true ->
  (length (print (ExprFunction name args)) <= n)%nat -> primary_ok (ExprFunction name args).
Proof.
  intros Hx Hn p rest Hf Hl. destruct (printable_args _ _ Hx) as (Hname & Hup & Hargs & Hstar).
  cbn [print] in Hl, Hn. primary Hl. unfold parseIdentOrFunction. do 2 go.
  replace (ExprFunction name args) with (NewFunctionExpr name args) by (unfold NewFunctionExpr; by rewrite Hup).
  destruct Hstar as [->|Hstar]; [cbn [map commas separated mean app print] in Hl; mean_in Hl; by repeat go|].
  destruct args as [|a args]; [cbn [map commas separated app] in Hl; by repeat go|].
  apply Forall_cons in Hargs as Hboth. destruct Hboth as [Ha _].
  assert (Hhead : forall typ, typ ∈ [TokStar; TokRParen] -> no typ [] (lex p)).
  { intros typ Ht. rewrite Hl. destruct args as [|b args]; cbn [map].
    - cbn [separated]. by apply argument_no.
    - change (separated _) with (mean (print a) ++ (TokComma, str ",") :: separated (map mean (map print (b :: args)))).
      rewrite <- app_assoc. by apply argument_no. }
  apply goes_optional_no; [apply Hhead; by left|]. cbv beta iota.
  eapply (goes_bind _ _ _ (a :: args)).
  - apply goes_test with (b := false); [apply Hhead; right; by left|]. cbn [negb].
    rewrite map_map in Hl. eapply (goes_comma_list _ (fun x => mean (print x))); [done|..|exact Hl]; [done|].
    intros x q w Hin Hw Hq. apply goes_argument; [by rewrite Forall_forall in Hargs; apply Hargs| | |done].
    + cbn [length] in Hn. rewrite length_app in Hn. pose proof (commas_length print x (a :: args) Hin). lia.
    + by apply (comma_follow w ((TokRParen, str ")") :: rest)).
  - clear p Hl Hhead. intros p Hl. by repeat go.
Qed.

Lemma primary_exists q : printable_select q = true -> (length (print (ExprExists q)) <= n)%nat -> primary_ok (ExprExists q).
Proof.
  intros Hq Hn p rest _ Hl. cbn [print length] in Hl, Hn. rewrite length_app in Hn. primary Hl. unfold parseExistsExpr, subquery.
  do 2 go. eapply goes_bind; [eapply goes_bind; [apply Hs; [done|lia| |exact Hl]; by left|]|].
  - clear p Hl. intros p Hl. go. by go.
  - clear p Hl. intros p Hl. by go.
Qed.

Lemma select_first q w : exists v, mean (print_select q) ++ w = (TokKeyword, str "SELECT") :: v.
Proof. destruct q. eexists. cbn [print_select]. by rewrite mean_cons, meaning_kw. Qed.

Lemma goes_subquery q p v rest : printable_select q = true -> (length (print_select q) < n)%nat ->
  lex p = mean (print_select q) ++ (TokRParen, v) :: rest -> goes (subquery s) p q rest.
Proof.
  intros Hq Hn Hl. unfold subquery. eapply goes_bind; [apply Hs; [done|lia| |exact Hl]; by left|].
  clear p Hl. intros p Hl. go. by go.
Qed.

Lemma primary_subquery q : printable_select q = true -> (length (print (ExprSubquery q)) <= n)%nat -> primary_ok (ExprSubquery q).
Proof.
  intros Hq Hn p rest _ Hl. cbn [print length] in Hl, Hn. rewrite length_app in Hn. primary Hl. unfold parseParenExpr. go.
  apply goes_test with (b := true); [destruct (select_first q ((TokRParen, str ")") :: rest)) as [v E]; by rewrite Hl, E|].
  eapply goes_bind; [eapply (goes_subquery q); [done|lia|exact Hl]|]. clear p Hl. intros p Hl. by go.
Qed.

Lemma primary_paren x p rest : printable x = true -> (length (print x) < n)%nat ->
  lex p = (TokLParen, str "(") :: mean (print x) ++ (TokRParen, str ")") :: rest -> goes (parsePrimaryExpr e s) p x rest.
Proof.
  intros Hx Hn Hl. eapply goes_eq; [apply (primary_other _ _ _ _ Hl); discriminate|]. cbn iota. unfold parseParenExpr. go.
  apply goes_test with (b := false).
  { destruct (is_star x) eqn:Hst; [by destruct x; try discriminate; rewrite Hl|].
    pose proof (expression_head x ((TokRParen, str ")") :: rest) Hx Hst) as Hh. rewrite <- Hl in Hh.
    apply (expression_first_keyword _ _ Hh). by left. }
  eapply goes_bind; [by apply He; [| | |exact Hl]|]. clear p Hl. intros p Hl. go. by go.
Qed.
Lemma primary_match col query mode level : printable (ExprMatch col query mode level) = true ->
  primary_ok (ExprMatch col query mode level).
Proof.
  intros Hx p rest _ Hl. cbn [printable is_distinct negb andb] in Hx.
  apply andb_true_iff in Hx as [[[[Hc Hq]%andb_true_iff Hm]%andb_true_iff H0]%andb_true_iff H3].
  apply bool_decide_eq_true in Hm as ->. cbn [print] in Hl.
  assert (Hgo : forall p, lex p = mean (if level =? 0 then [] else [kw "LEVEL"; number_of level]) ++ (TokRParen, str ")") :: rest ->
    goes (mode ← match_mode; level ← match_level; expect TokRParen [];; mret (ExprMatch col query mode level)) p
      (ExprMatch col query [] level) rest).
  { clear p Hl. intros p Hl. unfold match_mode, match_level. destruct (Z.eqb_spec level 0) as [->|Hne]; mean_in Hl.
    - by repeat go.
    - repeat go. rewrite parse_int_itoa by (unfold in_i64; lia).
      replace ((1 <=? level) && (level <=? 3)) with true by lia. by repeat go. }
  change (mean (_ ++ _ ++ [rp])) with (mean ([kw "MATCH"; lp; quoted col; rp; kw "AGAINST"; lp; text_of query] ++ 
    (if level =? 0 then [] else [kw "LEVEL"; number_of level]) ++ [rp])) in Hl.
  primary Hl. unfold parseMatchAgainst, ident. do 14 go. by apply Hgo.
Qed.
(** The parts of a CASE, and what each is followed by. *)
Definition when_words (w : WhenClause Expression) : list lexeme :=
  mean (kw "WHEN" :: print (Cond w) ++ kw "THEN" :: print (Then w)).
Definition else_words (x : option Expression) : list lexeme :=
  mean (match x with Some y => kw "ELSE" :: print y | None => [] end).

Lemma else_head x rest : head (else_words x ++ (TokKeyword, str "END") :: rest) = (TokKeyword, str "ELSE")
  \/ head (else_words x ++ (TokKeyword, str "END") :: rest) = (TokKeyword, str "END").
Proof.
  unfold else_words. destruct x; [left|by right]. by rewrite mean_cons, meaning_kw.
Qed.

Lemma when_words_eq w : when_words w = (TokKeyword, str "WHEN") :: mean (print (Cond w)) ++ (TokKeyword, str "THEN") :: mean (print (Then w)).
Proof. unfold when_words. by rewrite mean_cons, mean_app, mean_cons, !meaning_kw. Qed.

Lemma goes_else x p rest : (forall y, x = Some y -> printable y = true /\ (length (print y) < n)%nat) ->
  lex p = else_words x ++ (TokKeyword, str "END") :: rest ->
  goes (clause "ELSE" e) p x ((TokKeyword, str "END") :: rest).
Proof.
  intros Hx Hl. unfold clause. destruct x as [y|]; cbn [else_words] in Hl; unfold else_words in Hl; mean_in Hl; [|by repeat go].
  destruct (Hx y eq_refl) as [Hy Hn]. go. eapply goes_bind; [apply (He y); [done|done| |exact Hl]; reflexivity|].
  clear p Hl. intros p Hl. by go.
Qed.

Lemma goes_when w p rest : printable (Cond w) = true -> printable (Then w) = true ->
  (length (print (Cond w)) + length (print (Then w)) < n)%nat -> follow rest ->
  lex p = when_words w ++ rest -> goes (when_clause e) p w rest.
Proof.
  intros Hc Ht Hn Hf Hl. rewrite when_words_eq in Hl. cbn [app] in Hl. rewrite <- app_assoc in Hl. unfold when_clause. go.
  eapply goes_bind; [apply (He (Cond w)); [done|lia| |exact Hl]; reflexivity|]. clear p Hl. intros p Hl. cbn [app] in Hl. go.
  eapply goes_bind; [apply (He (Then w)); [done|lia|done|exact Hl]|]. clear p Hl. intros p Hl. destruct w. by go.
Qed.

Lemma primary_case c whens x : printable (ExprCase c whens x) = true -> (length (print (ExprCase c whens x)) <= n)%nat ->
  primary_ok (ExprCase c whens x).
Proof.
  intros Hx Hn p rest _ Hl. cbn [printable is_distinct negb andb] in Hx.
  apply andb_true_iff in Hx as [[Hc Hw]%andb_true_iff Hx].
  cbn [print length] in Hl, Hn. rewrite !length_app in Hn.
  rewrite mean_cons, !mean_app, meaning_kw, mean_concat, map_map in Hl by done.
  change (mean (match x with Some y => kw "ELSE" :: print y | None => [] end)) with (else_words x) in Hl.
  change (map _ whens) with (map when_words whens) in Hl.
  change (mean [kw "END"]) with [meaning (kw "END")] in Hl. rewrite meaning_kw in Hl by done.
  cbn [app] in Hl. rewrite <- !app_assoc in Hl. cbn [app] in Hl.
  apply (goes_eq _ _ _ _ _ (primary_keyword _ _ _ Hl)); cbv zeta; decide_words. unfold parseCaseExpr. go.
  set (tail := else_words x ++ (TokKeyword, str "END") :: rest) in *.
  assert (Htail : forall w, w = tail \/ (exists y w', y ∈ whens /\ w = when_words y ++ w') -> follow w).
  { intros w [->|(y & w' & _ & ->)]; [|by rewrite when_words_eq].
    unfold follow, tail. by destruct (else_head x rest) as [-> | ->]. }
  assert (Hparts : forall p, lex p = concat (map when_words whens) ++ tail ->
    goes (whens ← while_list (matchKeyword ["WHEN"]) (when_clause e); elseExpr ← clause "ELSE" e; expect_keyword "END";;
          mret (ExprCase c whens elseExpr)) p (ExprCase c whens x) rest).
  { clear p Hl. intros p Hl. eapply (goes_bind _ _ _ whens _ tail).
    - apply (goes_while_list _ _ _ when_words); [| | | |exact Hl].
      + unfold tail. by destruct (else_head x rest) as [-> | ->].
      + intros w _. by rewrite when_words_eq.
      + intros w v _. by rewrite when_words_eq.
      + intros w q v Hin Hv Hq. pose proof (forallb_elem _ _ _ Hw Hin) as Hok. cbn beta in Hok. apply andb_true_iff in Hok as [H1 H2].
        apply goes_when; [done..| |by apply Htail|done].
        pose proof (concat_length (fun w => kw "WHEN" :: print (Cond w) ++ kw "THEN" :: print (Then w)) w whens Hin) as Hlen.
        cbn [length] in Hlen. rewrite length_app in Hlen. cbn [length] in Hlen. lia.
    - clear p Hl. intros p Hl. eapply goes_bind; [apply goes_else; [|exact Hl]|].
      + intros y ->. cbn [length] in Hn. split; [done|lia].
      + clear p Hl. intros p Hl. go. by go. }
  assert (Hnext : head (concat (map when_words whens) ++ tail) ∈ map (pair TokKeyword) (map str ["WHEN"; "ELSE"; "END"]%string)
    /\ (whens <> [] -> head (concat (map when_words whens) ++ tail) = (TokKeyword, str "WHEN"))).
  { destruct whens as [|w whens]; [split; [|done]|split; [|intros _]; cbn [map concat]; rewrite when_words_eq; [inlist|done]].
    cbn [map concat app]. unfold tail. destruct (else_head x rest) as [-> | ->]; inlist. }
  destruct c as [y|].
  - destruct Hnext as [Hnext _]. eapply goes_test with (b := false).
    + rewrite Hl. destruct (is_star y) eqn:Hst; [by destruct y|].
      apply (expression_first_keyword _ "WHEN" (expression_head y _ Hc Hst)). inlist.
    + cbn [negb]. go. eapply goes_bind; [apply (He y); [done|lia| |exact Hl]|].
      * unfold follow. by member Hnext; rewrite Hnext.
      * clear p Hl. intros p Hl. go. by apply Hparts.
  - cbn [mean map app] in Hl. destruct Hnext as [_ Hnext]. apply goes_test with (b := true).
    + rewrite Hl, Hnext; [done|]. intros ->. done.
    + cbn [negb]. go. by apply Hparts.
Qed.
Lemma operand_primary x p rest : printable x = true -> (length (wrap (atomic x) (print x)) <= n)%nat ->
  operand_follow rest -> lex p = mean (wrap (atomic x) (print x)) ++ rest -> goes (parsePrimaryExpr e s) p x rest.
Proof.
  intros Hx Hn Hf Hl. destruct (atomic x) eqn:Ha.
  - cbn [wrap] in *. destruct x as [v|t c|name args|op r|l op r|c whens y|l vs|l q|l a b|q|q|t|col query mode level]; try discriminate.
    + by apply primary_literal.
    + by apply primary_column.
    + by apply primary_function.
    + by apply primary_case.
    + cbn in Hx. by apply primary_exists.
    + cbn in Hx. by apply primary_subquery.
    + by apply primary_match.
  - rewrite wrap_first in Hl by done. cbn [wrap length] in Hn. rewrite length_app in Hn. cbn [length] in Hn.
    apply primary_paren; [done|lia|]. by rewrite Hl; cbn [app]; rewrite <- app_assoc.
Qed.

(** ** The levels *)


(** No token that would continue the expression. *)
Ltac stops := first
  [ reflexivity
  | apply follow_no_keyword; [assumption|inlist]
  | apply follow_no_type; [assumption|inlist] ].

Lemma operand_unary x p rest : printable x = true -> (length (wrap (atomic x) (print x)) <= n)%nat ->
  operand_follow rest -> lex p = operand x ++ rest -> goes (parseUnaryExpr e s) p x rest.
Proof.
  intros Hx Hn Hf Hl. apply lift_unary; [|by apply operand_primary].
  pose proof (operand_head x rest Hx) as Hh. rewrite <- Hl in Hh. apply (operand_first_type _ _ _ Hh). inlist.
Qed.

Lemma operand_not x p rest : printable x = true -> lex p = operand x ++ rest -> no TokKeyword ["NOT"] (lex p).
Proof.
  intros Hx Hl. pose proof (operand_head x rest Hx) as Hh. rewrite <- Hl in Hh.
  apply (operand_first_keyword _ _ Hh). inlist.
Qed.

(** An operand up to the level of [OR]. *)
Ltac operand_at Hl := first
  [ apply operand_unary; [assumption|lia|split; stops|exact Hl]
  | apply lift_mult; [stops|operand_at Hl]
  | apply lift_add; [stops|stops|operand_at Hl]
  | apply lift_comparison; [stops|stops|stops|stops|stops|operand_at Hl]
  | apply lift_not; [eapply operand_not; [|exact Hl]; assumption|operand_at Hl]
  | apply lift_and; [stops|operand_at Hl]
  | apply lift_or; [stops|operand_at Hl] ].

Definition level_ok (x : Expression) : Prop := forall p rest, follow rest ->
  lex p = mean (print x) ++ rest -> goes (parseOrExpr e s) p x rest.

Lemma level_atomic x : printable x = true -> (length (print x) <= n)%nat -> atomic x = true -> level_ok x.
Proof.
  intros Hx Hn Ha p rest Hf Hl. assert (Hw : wrap (atomic x) (print x) = print x) by by rewrite Ha.
  rewrite <- Hw in Hl, Hn. operand_at Hl.
Qed.

Lemma level_star p rest : follow rest -> lex p = (TokStar, str "*") :: rest -> goes (parseOrExpr e s) p (ExprStar []) rest.
Proof.
  intros Hf Hl. apply lift_or; [stops|]. apply lift_and; [stops|]. apply lift_not; [by rewrite Hl|].
  apply lift_comparison; [stops..|]. apply lift_add; [stops..|]. apply lift_mult; [stops|]. apply lift_unary; [by rewrite Hl|].
  eapply goes_eq; [apply (primary_other _ _ _ _ Hl); discriminate|]. cbn iota. by repeat go.
Qed.

Lemma print_not r : print (ExprUnaryOp (str "NOT") r) = kw "NOT" :: wrap (atomic r) (print r).
Proof. reflexivity. Qed.
Lemma print_sign op r : op ∈ [str "+"; str "-"] -> print (ExprUnaryOp op r) = WOp op :: wrap (atomic r) (print r).
Proof. intros Hop. by member Hop. Qed.

Lemma level_not r p rest : printable r = true -> (length (print (ExprUnaryOp (str "NOT") r)) <= n)%nat -> follow rest ->
  lex p = mean (print (ExprUnaryOp (str "NOT") r)) ++ rest -> goes (parseOrExpr e s) p (NewUnaryExpr (str "NOT") r) rest.
Proof.
  intros Hr Hn Hf Hl. rewrite print_not in *. cbn [length] in Hn. mean_in Hl.
  apply lift_or; [stops|]. apply lift_and; [stops|]. unfold parseNotExpr. go.
  eapply (goes_bind _ _ _ r _ rest); [operand_at Hl|]. clear p Hl. intros p Hl. by go.
Qed.

Lemma level_sign op r p rest : printable r = true -> op ∈ [str "+"; str "-"] ->
  (length (print (ExprUnaryOp op r)) <= n)%nat -> follow rest ->
  lex p = mean (print (ExprUnaryOp op r)) ++ rest -> goes (parseOrExpr e s) p (NewUnaryExpr op r) rest.
Proof.
  intros Hr Hop Hn Hf Hl. rewrite print_sign in * by done. cbn [length] in Hn.
  rewrite mean_cons in Hl. change (meaning (WOp op)) with (TokOperator, op) in Hl. cbn [app] in Hl.
  apply lift_or; [stops|]. apply lift_and; [stops|]. apply lift_not; [by rewrite Hl|].
  apply lift_comparison; [stops..|]. apply lift_add; [stops..|]. apply lift_mult; [stops|].
  apply goes_bounded. rewrite Hl. cbn [length unary_loop].
  apply goes_test with (b := true); [rewrite Hl; by member Hop|].
  eapply goes_advance; [exact Hl|]. clear p Hl. intros p tok _ -> Hl.
  eapply goes_bind; [|intros q Hq; by apply goes_ret'].
  pose proof (operand_head r rest Hr) as Hh. rewrite <- Hl in Hh. cbn [unary_loop].
  apply goes_test with (b := false); [apply (operand_first_type _ _ _ Hh); inlist|].
  apply operand_primary; [done|lia|split; stops|exact Hl].
Qed.

Lemma level_unary op r : printable (ExprUnaryOp op r) = true -> (length (print (ExprUnaryOp op r)) <= n)%nat ->
  level_ok (ExprUnaryOp op r).
Proof.
  intros Hx Hn p rest Hf Hl. cbn [printable] in Hx. apply andb_true_iff in Hx as [_ [Hop Hr]%andb_true_iff].
  apply bool_decide_eq_true, elem_of_cons in Hop as [->|Hop]; [by apply level_not|by apply level_sign].
Qed.

(** *** Operators between operands *)

Definition infix (op : bytes) : lexeme := (if bool_decide (op ∈ keyword_operators) then TokKeyword else TokOperator, op).

Lemma print_infix l op r : op ∈ keyword_operators ++ symbol_operators ->
  mean (print (ExprBinaryOp l op r)) = operand l ++ infix op :: operand r /\
  length (print (ExprBinaryOp l op r)) = (length (wrap (atomic l) (print l)) + S (length (wrap (atomic r) (print r))))%nat.
Proof.
  intros Hop. cbn [print]. rewrite mean_app, length_app.
  unfold keyword_operators, symbol_operators in Hop. member Hop; (split; reflexivity).
Qed.

Lemma infix_ok l op r : printable (ExprBinaryOp l op r) = true -> op ∈ keyword_operators ++ symbol_operators ->
  printable l = true /\ printable r = true.
Proof.
  cbn [printable is_distinct negb andb]. intros [Hl Hx]%andb_true_iff Hop. split; [done|].
  rewrite bool_decide_eq_false_2 in Hx; [by apply andb_true_iff in Hx as [_ Hx]|].
  intros Hin. unfold keyword_operators, symbol_operators in Hop. member Hin; by member Hop.
Qed.

(** The two operands of an infix operator, where their words are in bounds. *)
Definition operands_ok (l r : Expression) : Prop := printable l = true /\ printable r = true /\
  (length (wrap (atomic l) (print l)) <= n)%nat /\ (length (wrap (atomic r) (print r)) <= n)%nat.

Definition infix_level (op : bytes) : Prop := forall l r p rest, operands_ok l r -> follow rest ->
  lex p = operand l ++ infix op :: operand r ++ rest -> goes (parseOrExpr e s) p (ExprBinaryOp l op r) rest.

Lemma nonempty_operand x v w : operand x ++ v :: w <> [].
Proof. by destruct (operand x). Qed.

Lemma infix_or : infix_level (str "OR").
Proof.
  intros l r p rest (Hxl & Hxr & Hnl & Hnr) Hf Hl. change (infix _) with (TokKeyword, str "OR") in Hl.
  eapply goes_binary_two with (w1 := (TokKeyword, str "OR") :: operand r ++ rest) (w2 := operand r ++ rest); [operand_at Hl|done| | |].
  - intros p1 Hp1. apply operator_keyword_yes; by rewrite Hp1.
  - intros p2 Hp2. operand_at Hp2.
  - intros p3 Hp3. apply operator_keyword_no. rewrite Hp3. stops.
Qed.

Lemma infix_and : infix_level (str "AND").
Proof.
  intros l r p rest (Hxl & Hxr & Hnl & Hnr) Hf Hl. change (infix _) with (TokKeyword, str "AND") in Hl. apply lift_or; [stops|].
  eapply goes_binary_two with (w1 := (TokKeyword, str "AND") :: operand r ++ rest) (w2 := operand r ++ rest); [operand_at Hl|done| | |].
  - intros p1 Hp1. apply operator_keyword_yes; by rewrite Hp1.
  - intros p2 Hp2. operand_at Hp2.
  - intros p3 Hp3. apply operator_keyword_no. rewrite Hp3. stops.
Qed.

Lemma infix_like : infix_level (str "LIKE").
Proof.
  intros l r p rest (Hxl & Hxr & Hnl & Hnr) Hf Hl. change (infix _) with (TokKeyword, str "LIKE") in Hl.
  apply lift_or; [stops|]. apply lift_and; [stops|]. apply lift_not; [by apply (operand_not l _ _ Hxl Hl)|].
  eapply (goes_bind _ _ _ l _ ((TokKeyword, str "LIKE") :: operand r ++ rest)); [operand_at Hl|]. clear p Hl. intros p Hl.
  eapply (goes_bind _ _ _ None _ (lex p)); [exists p; split; [apply operator_value_no; by rewrite Hl|done]|].
  rewrite Hl. clear p Hl. intros p Hl. do 4 go.
  eapply (goes_bind _ _ _ r _ rest); [operand_at Hl|]. clear p Hl. intros p Hl. by go.
Qed.

Lemma infix_comparison op : op ∈ map str comparison_operators -> infix_level op.
Proof.
  intros Hop l r p rest (Hxl & Hxr & Hnl & Hnr) Hf Hl.
  replace (infix op) with (TokOperator, op) in Hl by by member Hop.
  assert (Hno : no TokOperator ["*"; "/"; "%"]%string ((TokOperator, op) :: operand r ++ rest) /\
                no TokOperator ["+"; "-"]%string ((TokOperator, op) :: operand r ++ rest) /\
                no TokOperator ["||"] ((TokOperator, op) :: operand r ++ rest)) by by member Hop.
  destruct Hno as (H1 & H2 & H3).
  apply lift_or; [stops|]. apply lift_and; [stops|]. apply lift_not; [by apply (operand_not l _ _ Hxl Hl)|].
  eapply (goes_bind _ _ _ l _ ((TokOperator, op) :: operand r ++ rest)).
  { apply lift_add; [done..|]. apply lift_mult; [done|]. operand_at Hl. }
  clear p Hl. intros p Hl.
  eapply (goes_bind _ _ _ (Some op) _ (operand r ++ rest)); [apply (operator_value_yes _ _ _ _ Hl); by member Hop|].
  clear p Hl. intros p Hl. eapply (goes_bind _ _ _ r _ rest); [operand_at Hl|]. clear p Hl. intros p Hl. by go.
Qed.

Lemma infix_additive op : op ∈ [str "+"; str "-"; str "||"] -> infix_level op.
Proof.
  intros Hop l r p rest (Hxl & Hxr & Hnl & Hnr) Hf Hl.
  replace (infix op) with (TokOperator, op) in Hl by by member Hop.
  assert (Hno : no TokOperator ["*"; "/"; "%"]%string ((TokOperator, op) :: operand r ++ rest)) by by member Hop.
  apply lift_or; [stops|]. apply lift_and; [stops|]. apply lift_not; [by apply (operand_not l _ _ Hxl Hl)|]. apply lift_comparison; [stops..|].
  eapply goes_binary_two with (w1 := (TokOperator, op) :: operand r ++ rest) (w2 := operand r ++ rest); [|done| | |].
  - apply lift_mult; [done|]. operand_at Hl.
  - intros p1 Hp1. by apply (additive_operator_yes _ _ _ Hp1).
  - intros p2 Hp2. operand_at Hp2.
  - intros p3 Hp3. apply additive_operator_no; rewrite Hp3; stops.
Qed.

Lemma infix_multiplicative op : op ∈ [str "/"; str "%"] -> infix_level op.
Proof.
  intros Hop l r p rest (Hxl & Hxr & Hnl & Hnr) Hf Hl.
  replace (infix op) with (TokOperator, op) in Hl by by member Hop.
  apply lift_or; [stops|]. apply lift_and; [stops|]. apply lift_not; [by apply (operand_not l _ _ Hxl Hl)|]. apply lift_comparison; [stops..|].
  apply lift_add; [stops..|].
  eapply goes_binary_two with (w1 := (TokOperator, op) :: operand r ++ rest) (w2 := operand r ++ rest); [|done| | |].
  - operand_at Hl.
  - intros p1 Hp1. apply (operator_value_yes _ _ _ _ Hp1). by member Hop.
  - intros p2 Hp2. operand_at Hp2.
  - intros p3 Hp3. apply operator_value_no. rewrite Hp3. stops.
Qed.

Lemma level_infix op : op ∈ keyword_operators ++ symbol_operators -> infix_level op.
Proof.
  unfold keyword_operators, symbol_operators. intros Hop. member Hop;
    first [exact infix_and | exact infix_or | exact infix_like | (apply infix_comparison; unfold comparison_operators; inlist) | (apply infix_additive; inlist)
          | (apply infix_multiplicative; inlist)].
Qed.

(** *** The other comparisons *)

(** What [parseComparisonExpr] does after an operand that no comparison
    operator follows. *)
Definition keyword_tail (l : Expression) : PM Expression :=
  is_ ← optional (matchKeyword ["IS"]);
  if (is_ : bool) then parse_is l
  else
    in_ ← optional (matchKeyword ["IN"]);
    if (in_ : bool) then parseInExpr e s l
    else
      between ← optional (matchKeyword ["BETWEEN"]);
      if (between : bool) then parseBetweenExpr e s l
      else
        like ← optional (matchKeyword ["LIKE"]);
        if (like : bool) then right ← parseAdditiveExpr e s; mret (NewBinaryExpr l (str "LIKE") right)
        else mret l.

Lemma before_keyword l k p w x rest : printable l = true -> (length (wrap (atomic l) (print l)) <= n)%nat ->
  k ∈ ["IS"; "IN"; "BETWEEN"]%string -> lex p = operand l ++ (TokKeyword, str k) :: w -> follow rest ->
  (forall q, lex q = (TokKeyword, str k) :: w -> goes (keyword_tail l) q x rest) ->
  goes (parseOrExpr e s) p x rest.
Proof.
  intros Hx Hn Hk Hl Hf Hrest.
  apply lift_or; [stops|]. apply lift_and; [stops|]. apply lift_not; [by apply (operand_not l _ _ Hx Hl)|].
  assert (Hop : operand_follow ((TokKeyword, str k) :: w)) by by member Hk.
  eapply (goes_bind _ _ _ l _ ((TokKeyword, str k) :: w)).
  { apply lift_add; [by member Hk..|]. apply lift_mult; [by member Hk|]. by apply operand_unary. }
  clear p Hl. intros p Hl.
  eapply (goes_bind _ _ _ None _ (lex p)); [exists p; split; [apply operator_value_no; rewrite Hl; by member Hk|done]|].
  rewrite Hl. clear p Hl. intros p Hl. by apply Hrest.
Qed.

Lemma level_is l op : op ∈ [str "IS"; str "IS NOT"] -> printable l = true ->
  (length (wrap (atomic l) (print l)) <= n)%nat -> level_ok (ExprBinaryOp l op (ExprLiteral GNil)).
Proof.
  intros Hop Hx Hn p rest Hf Hl. member Hop; cbn [print] in Hl; mean_in Hl.
  - apply (before_keyword l "IS" _ _ _ _ Hx Hn ltac:(inlist) Hl Hf). clear p Hl. intros p Hl.
    unfold keyword_tail. go. unfold parse_is. do 2 go. by go.
  - apply (before_keyword l "IS" _ _ _ _ Hx Hn ltac:(inlist) Hl Hf). clear p Hl. intros p Hl.
    unfold keyword_tail. go. unfold parse_is. do 2 go. by go.
Qed.

Lemma goes_rparen {A} (x : A) p v rest : lex p = (TokRParen, v) :: rest -> goes (expect TokRParen [];; mret x) p x rest.
Proof. intros Hl. go. by go. Qed.

Lemma level_in l vs : printable (ExprIn l vs) = true -> (length (print (ExprIn l vs)) <= n)%nat -> level_ok (ExprIn l vs).
Proof.
  intros Hx Hn p rest Hf Hl. cbn [printable is_distinct negb andb] in Hx.
  apply andb_true_iff in Hx as [[Hx Hne]%andb_true_iff Hvs]. apply negb_true_iff, bool_decide_eq_false in Hne.
  cbn [print] in Hl, Hn. rewrite length_app in Hn. cbn [length] in Hn. rewrite length_app in Hn.
  mean_in Hl.
  apply (before_keyword l "IN" _ _ _ _ Hx ltac:(lia) ltac:(inlist) Hl Hf). clear p Hl. intros p Hl.
  unfold keyword_tail. do 2 go. unfold parseInExpr. go.
  destruct vs as [|v vs]; [done|].
  apply goes_test with (b := false).
  { rewrite Hl. pose proof (forallb_elem _ _ v Hvs ltac:(by left)) as Hv. cbn [map].
    destruct (separated_first (mean (print v)) (map mean (map print vs)) ((TokRParen, str ")") :: rest)) as [y ->].
    destruct (is_star v) eqn:Hst; [by destruct v|].
    apply (expression_first_keyword _ "SELECT" (expression_head v _ Hv Hst)). inlist. }
  cbn iota. eapply (goes_bind _ _ _ (v :: vs)); [|clear p Hl; intros p Hl; by eapply goes_rparen].
  rewrite map_map in Hl. eapply (goes_comma_list _ (fun x => mean (print x))); [done|..|exact Hl]; [done|].
  intros x q w Hin Hw Hq. apply He; [by apply (forallb_elem _ _ _ Hvs)| | |done].
  - pose proof (commas_length print x (v :: vs) Hin). lia.
  - by apply (comma_follow w ((TokRParen, str ")") :: rest)).
Qed.

Lemma level_in_select l q : printable (ExprInSelect l q) = true -> (length (print (ExprInSelect l q)) <= n)%nat ->
  level_ok (ExprInSelect l q).
Proof.
  intros Hx Hn p rest Hf Hl. cbn in Hx. apply andb_true_iff in Hx as [Hx Hq].
  cbn [print] in Hl, Hn. rewrite length_app in Hn. cbn [length] in Hn. rewrite length_app in Hn. mean_in Hl.
  apply (before_keyword l "IN" _ _ _ _ Hx ltac:(lia) ltac:(inlist) Hl Hf). clear p Hl. intros p Hl.
  unfold keyword_tail. do 2 go. unfold parseInExpr. go.
  apply goes_test with (b := true); [destruct (select_first q ((TokRParen, str ")") :: rest)) as [v E]; by rewrite Hl, E|].
  eapply goes_bind; [eapply (goes_subquery q); [done|lia|exact Hl]|]. clear p Hl. intros p Hl. by go.
Qed.

Lemma level_between l a b : printable (ExprBetween l a b) = true -> (length (print (ExprBetween l a b)) <= n)%nat ->
  level_ok (ExprBetween l a b).
Proof.
  intros Hx Hn p rest Hf Hl. cbn [printable is_distinct negb andb] in Hx.
  apply andb_true_iff in Hx as [[Hx Ha]%andb_true_iff Hb].
  cbn [print] in Hl, Hn. rewrite length_app in Hn. cbn [length] in Hn. rewrite length_app in Hn. cbn [length] in Hn. mean_in Hl.
  apply (before_keyword l "BETWEEN" _ _ _ _ Hx ltac:(lia) ltac:(inlist) Hl Hf). clear p Hl. intros p Hl.
  unfold keyword_tail. do 3 go. unfold parseBetweenExpr.
  eapply (goes_bind _ _ _ a _ ((TokKeyword, str "AND") :: operand b ++ rest)); [operand_at Hl|]. clear p Hl. intros p Hl. go.
  eapply (goes_bind _ _ _ b _ rest); [operand_at Hl|]. clear p Hl. intros p Hl. by go.
Qed.

Lemma level_binary l op r : printable (ExprBinaryOp l op r) = true -> (length (print (ExprBinaryOp l op r)) <= n)%nat ->
  level_ok (ExprBinaryOp l op r).
Proof.
  intros Hx Hn. destruct (decide (op ∈ [str "IS"; str "IS NOT"])) as [Hop|Hop].
  - cbn [printable is_distinct negb andb] in Hx. rewrite bool_decide_eq_true_2 in Hx by done.
    apply andb_true_iff in Hx as [Hx Hr]. destruct r as [[]| | | | | | | | | | | |]; try discriminate.
    apply level_is; [done|done|]. cbn [print] in Hn. rewrite length_app in Hn. lia.
  - assert (Hin : op ∈ keyword_operators ++ symbol_operators).
    { cbn [printable is_distinct negb andb] in Hx. rewrite (bool_decide_eq_false_2 (op ∈ [_; _])) in Hx by done.
      apply andb_true_iff in Hx as [_ [Hx _]%andb_true_iff]. by apply bool_decide_eq_true in Hx. }
    destruct (infix_ok l op r Hx Hin) as [Hxl Hxr]. destruct (print_infix l op r Hin) as [Hp Hlen]. rewrite Hlen in Hn.
    intros p rest Hf Hl. apply level_infix; [done|split_and!; [done|done|lia|lia]|done|].
    rewrite Hl, Hp, <- app_assoc. reflexivity.
Qed.

(** Every printable expression with no more than [n] words. *)
Lemma level_all x : printable x = true -> (length (print x) <= n)%nat -> level_ok x.
Proof.
  intros Hx Hn. destruct (atomic x) eqn:Ha; [by apply level_atomic|].
  destruct x; try discriminate.
  - by apply level_unary.
  - by apply level_binary.
  - by apply level_in.
  - by apply level_in_select.
  - by apply level_between.
  - cbn in Hx. apply bool_decide_eq_true in Hx as ->. intros p rest Hf Hl. by apply level_star.
Qed.
End Primary.
End RoundTrip.
