(* ===== verification/ParserQuery.v ===== *)
(** * Parsing a written query gives it back: SELECT

    The clauses of a SELECT one after the other, each up to the keyword of a
    later one; then by induction on the depth bound of the parsers the
    round trip for nested queries and expressions ([parsers_print]), and
    with the lexer's theorem the one for texts ([ParseString_select]). *)

From S2P Require Import Prelude GoLib Types Lexer Ast Parser ParserDml Print ParserRun ParserRoundTrip.

Section Query.
Context `{GoRuntime}.

(** The end of a query, or a keyword of a later clause. *)
Definition heads (ks : list string) (w : list lexeme) : Prop :=
  closes w \/ head w ∈ map (fun k => (TokKeyword, str k)) ks.

Lemma heads_no ks w typ values : heads ks w -> typ ∉ [TokRParen; TokEOF; TokSemicolon] ->
  forallb (fun k => negb (lexeme_matches typ (map str values) (TokKeyword, str k))) ks = true -> no typ values w.
Proof.
  intros [Hc|Hin] Ht Hks; [by apply closes_no|]. apply list_elem_of_In, in_map_iff in Hin as (k & E & Hin).
  unfold no. rewrite <- E. apply negb_true_iff. rewrite forallb_forall in Hks. by apply Hks.
Qed.

Lemma heads_follow ks w : heads ks w -> forallb (fun k => negb (continues (TokKeyword, str k))) ks = true -> follow w.
Proof.
  intros [Hc|Hin] Hks; [by apply closes_follow|]. apply list_elem_of_In, in_map_iff in Hin as (k & E & Hin).
  unfold follow. rewrite <- E. apply negb_true_iff. rewrite forallb_forall in Hks. by apply Hks.
Qed.

(** An optional clause comes before what follows it. *)
Lemma heads_clause k ks v w : heads ks w -> v = [] \/ (exists v', v = (TokKeyword, str k) :: v') -> heads (k :: ks) (v ++ w).
Proof.
  intros [Hc|Hin] [->|[v' ->]]; [by left|right; by left|right; by right|right; by left].
Qed.
Lemma heads_more k ks w : heads ks w -> heads (k :: ks) w.
Proof. intros [Hc|Hin]; [by left|right; by right]. Qed.

Variables (e : PM Expression) (s : PM Select) (n : nat).
Hypothesis He : forall x p rest, printable x = true -> (length (print x) < n)%nat -> follow rest ->
  lex p = mean (print x) ++ rest -> goes e p x rest.
Hypothesis Hs : forall q p rest, printable_select q = true -> (length (print_select q) < n)%nat -> closes rest ->
  lex p = mean (print_select q) ++ rest -> goes s p q rest.

(** ** Clauses of one expression *)

Definition clause_words (k : string) (x : option Expression) : list word :=
  match x with Some y => kw k :: print y | None => [] end.
Definition opt_printable (x : option Expression) : bool := match x with Some y => printable y | None => true end.

(** A keyword as it is written. *)
Definition is_word (k : string) : Prop := meaning (kw k) = (TokKeyword, str k).

Lemma clause_first k x : is_word k -> mean (clause_words k x) = [] \/ exists v, mean (clause_words k x) = (TokKeyword, str k) :: v.
Proof. intros Hk. destruct x; [right|by left]. eexists. cbn [clause_words]. by rewrite mean_cons, Hk. Qed.

Lemma keyword_matches k : lexeme_matches TokKeyword [str k] (TokKeyword, str k) = true.
Proof. unfold lexeme_matches, token_matches. cbn [TType TValue existsb fst snd]. by rewrite !bool_decide_eq_true_2. Qed.

Lemma goes_clause k x p rest : is_word k -> opt_printable x = true -> (length (clause_words k x) <= n)%nat ->
  follow rest -> no TokKeyword [k] rest -> lex p = mean (clause_words k x) ++ rest -> goes (clause k e) p x rest.
Proof.
  intros Hk Hx Hn Hf Hno Hl. unfold clause. destruct x as [y|]; cbn [clause_words length] in *.
  - rewrite mean_cons, Hk in Hl. eapply goes_optional_yes; [exact Hl|apply keyword_matches|].
    clear p Hl. intros p Hl. cbn iota. eapply goes_bind; [by apply (He y)|]. clear p Hl. intros p Hl. by go.
  - change (lex p = rest) in Hl. apply goes_optional_no; [by rewrite Hl|]. cbn iota. by go.
Qed.

(** An optional keyword. *)
Lemma goes_flag {B} (b : bool) k (m : bool -> PM B) p w y rest : is_word k -> no TokKeyword [k] w ->
  lex p = mean (flag b k) ++ w -> (forall q, lex q = w -> goes (m b) q y rest) -> goes (optional (matchKeyword [k]) ≫= m) p y rest.
Proof.
  intros Hk Hno Hl Hm. destruct b; cbn [flag] in Hl.
  - rewrite mean_cons, Hk in Hl. eapply goes_optional_yes; [exact Hl|apply keyword_matches|exact Hm].
  - change (lex p = w) in Hl. apply goes_optional_no; [by rewrite Hl|]. by apply Hm.
Qed.

(** ** Names and aliases *)

Lemma alias_words a w : alias_ok a = true -> mean (print_alias a) ++ w = w \/
  exists v, mean (print_alias a) ++ w = (TokKeyword, str "AS") :: v.
Proof. intros Ha. destruct a; [by left|right]. eexists. cbn [print_alias]. by rewrite mean_cons, meaning_kw. Qed.

Lemma goes_alias a p rest : alias_ok a = true -> no TokIdent [] rest -> no TokKeyword ["AS"] rest ->
  lex p = mean (print_alias a) ++ rest -> goes (optional (matchKeyword ["AS"]);; alias) p a rest.
Proof.
  intros Ha Hi Hno Hl. destruct a as [|b a].
  - change (lex p = rest) in Hl. apply goes_optional_no; [by rewrite Hl|]. cbv beta. unfold alias, match_type, current.
    apply goes_test with (b := false); [by rewrite Hl|]. apply goes_gets. cbn [andb]. by go.
  - unfold alias_ok in Ha. apply orb_true_iff in Ha as [Ha|[Ha Hk]%andb_true_iff]; [by apply bool_decide_eq_true in Ha|].
    cbn [print_alias] in Hl. mean_in Hl. go. unfold alias, current. go. apply goes_gets.
    pose proof (cur_lex p) as Hc. rewrite Hl in Hc. cbn [head hd] in Hc. injection Hc as _ ->. rewrite Hk. cbn [andb]. go. by go.
Qed.

Lemma goes_alias_then {B} (k : bytes -> PM B) a p rest y w : alias_ok a = true -> no TokIdent [] rest ->
  no TokKeyword ["AS"] rest -> lex p = mean (print_alias a) ++ rest -> (forall q, lex q = rest -> goes (k a) q y w) ->
  goes (optional (matchKeyword ["AS"]);; (alias ≫= k)) p y w.
Proof. intros Ha Hi Hno Hl Hk. apply goes_unassoc. eapply goes_bind; [by eapply goes_alias|done]. Qed.

Lemma goes_name db t p rest : opt_name_ok db = true -> name_ok t = true -> no TokDot [] rest ->
  lex p = mean (print_name db t) ++ rest -> goes parseTableNameWithDB p (db, t) rest.
Proof.
  intros Hdb Ht Hno Hl. unfold parseTableNameWithDB. destruct db as [|b db]; cbn [print_name] in Hl.
  - mean_in Hl. do 3 go. apply goes_optional_no; [by rewrite Hl|]. cbn iota. by go.
  - assert (Hdb' : name_ok (b :: db) = true) by exact Hdb. mean_in Hl. do 7 go. by go.
Qed.

(** ** FROM and JOIN *)

Definition from_words (c : FromClause Select) : list word :=
  match FromSubquery c with
  | Some q => lp :: print_select q ++ [rp]
  | None => print_name (Database c) (FromTable c)
  end ++ print_alias (FromAlias c).
Definition from_ok (c : FromClause Select) : bool :=
  alias_ok (FromAlias c) &&
  match FromSubquery c with
  | Some q => bool_decide (Database c = []) && bool_decide (FromTable c = []) && printable_select q
  | None => opt_name_ok (Database c) && name_ok (FromTable c)
  end.

(** Nothing that would be read as part of a table reference. *)
Definition ends_table (w : list lexeme) : Prop := no TokIdent [] w /\ no TokKeyword ["AS"] w /\ no TokDot [] w.

Lemma alias_ends a w : alias_ok a = true -> no TokDot [] w -> no TokDot [] (mean (print_alias a) ++ w).
Proof. intros Ha Hw. by destruct (alias_words a w Ha) as [->|[v ->]]. Qed.

Lemma goes_from c p rest : from_ok c = true -> (length (from_words c) <= n)%nat -> ends_table rest ->
  lex p = mean (from_words c) ++ rest -> goes (parseFromClause s) p c rest.
Proof.
  intros Hc Hn (Hi & Has & Hdot) Hl. unfold from_ok in Hc. apply andb_true_iff in Hc as [Ha Hc].
  unfold from_words in Hl, Hn. unfold parseFromClause. destruct c as [table db a [q|]]; cbn [FromSubquery FromTable Database FromAlias] in *.
  - apply andb_true_iff in Hc as [[Hdb%bool_decide_eq_true Ht%bool_decide_eq_true]%andb_true_iff Hq]. subst db table.
    cbn [length app] in Hn. rewrite length_app in Hn. cbn [length] in Hn. rewrite length_app in Hn. mean_in Hl. go.
    apply goes_assoc. eapply goes_bind; [eapply (goes_subquery s n Hs q); [done|lia|exact Hl]|].
    clear p Hl. intros p Hl. go. apply (goes_alias_then _ a _ rest); [done..|]. clear p Hl. intros p Hl. by go.
  - apply andb_true_iff in Hc as [Hdb Ht]. rewrite mean_app, <- app_assoc in Hl.
    assert (Hp : forall b, lexeme_matches TokLParen b (head (lex p)) = false /\ lexeme_matches TokIdent [] (head (lex p)) = true).
    { intros b. rewrite Hl. by destruct db; cbn [print_name]; rewrite !mean_cons, meaning_quoted. }
    apply goes_optional_no; [apply Hp|]. cbn iota. apply goes_assoc.
    apply goes_test with (b := true); [by apply (Hp [])|]. apply goes_assoc.
    eapply goes_bind; [apply (goes_name db table _ _ Hdb Ht); [|exact Hl]; by apply alias_ends|].
    clear Hp p Hl. intros p Hl. cbv iota beta. go. apply (goes_alias_then _ a _ rest); [done..|]. clear p Hl. intros p Hl. by go.
Qed.

Definition using_words (cols : list bytes) : list word :=
  match cols with
  | [] => []
  | c :: l => kw "USING" :: lp :: commas (map (fun c => [quoted c]) (c :: l)) ++ [rp]
  end.
Definition join_words (j : JoinClause Expression) : list word :=
  WName (JoinType j) :: kw "JOIN" :: quoted (JoinTable j) :: print_alias (JoinAlias j)
  ++ clause_words "ON" (On j) ++ using_words (Using j).
Definition join_ok (j : JoinClause Expression) : bool :=
  bool_decide (JoinType j ∈ join_types) && name_ok (JoinTable j) && alias_ok (JoinAlias j)
  && opt_printable (On j) && forallb name_ok (Using j).

(** Names with a comma between them. *)
Lemma goes_names what cols p rest : forallb name_ok cols = true -> cols <> [] -> no TokComma [] rest ->
  lex p = mean (commas (map (fun c => [quoted c]) cols)) ++ rest -> goes (comma_list (ident what)) p cols rest.
Proof.
  intros Hok Hne Hno Hl. rewrite mean_commas, map_map in Hl.
  eapply (goes_comma_list _ (fun c => mean [quoted c])); [done|done| |exact Hl].
  intros c q w Hin _ Hq. pose proof (forallb_elem _ _ _ Hok Hin) as Hc. mean_in Hq. unfold ident. do 2 go. by go.
Qed.

Lemma goes_using cols p rest : forallb name_ok cols = true -> no TokKeyword ["USING"] rest ->
  lex p = mean (using_words cols) ++ rest ->
  goes (clause "USING" using_columns) p (match cols with [] => None | _ => Some cols end) rest.
Proof.
  intros Hok Hno Hl. unfold clause. destruct cols as [|c cols].
  - change (lex p = rest) in Hl. apply goes_optional_no; [by rewrite Hl|]. cbn iota. by go.
  - cbn [using_words] in Hl. rewrite !mean_cons, mean_app, meaning_kw, <- !app_comm_cons, <- app_assoc in Hl by done. go.
    unfold using_columns. change (meaning lp) with (TokLParen, str "(") in Hl. go. go.
    apply goes_assoc. eapply goes_bind; [eapply (goes_names _ (c :: cols)); [done|done| |exact Hl]; done|].
    clear p Hl. intros p Hl. change (mean [rp] ++ rest) with ((TokRParen, str ")") :: rest) in Hl. by repeat go.
Qed.

(** Nothing that would be read as part of a JOIN. *)
Definition ends_join (w : list lexeme) : Prop :=
  ends_table w /\ follow w /\ no TokKeyword ["ON"] w /\ no TokKeyword ["USING"] w.

Lemma goes_join_type ty p w : ty ∈ join_types -> lex p = (TokKeyword, ty) :: (TokKeyword, str "JOIN") :: w -> goes join_type p ty w.
Proof.
  intros Hty Hl. unfold join_type, current. apply goes_gets. cbv zeta.
  pose proof (cur_lex p) as Hc. rewrite Hl in Hc. cbn [head hd] in Hc. injection Hc as _ ->.
  assert (Hj : forall q, lex q = (TokKeyword, str "JOIN") :: w -> goes (expect_join;; mret ty) q ty w).
  { intros q Hq. unfold expect_join. apply goes_assoc.
    assert (Hx : goes (expect_keyword "JOIN") q tt w).
    { apply goes_eq with (m' := expect_keyword "JOIN" ≫= mret); [|by repeat go].
      unfold mbind, SO_bind. by destruct (expect_keyword "JOIN" q) as [[[]|er| |] q']. }
    destruct Hx as (q' & Hx & Hw). eapply goes_bind; [exists q'; split; [|exact Hw]|].
    - unfold try. rewrite Hx. reflexivity.
    - intros r Hr. by repeat go. }
  unfold join_types in Hty. member Hty; decide_words; cbn [orb]; cbv iota.
  - go. by apply Hj.
  - do 2 go. by apply Hj.
  - do 2 go. by apply Hj.
  - go. by apply Hj.
Qed.

Lemma join_tail on cols rest : ends_join rest ->
  ends_table (mean (clause_words "ON" on) ++ mean (using_words cols) ++ rest) /\
  follow (mean (using_words cols) ++ rest) /\ no TokKeyword ["ON"] (mean (using_words cols) ++ rest).
Proof.
  intros (Ht & Hf & Hon & _). destruct cols as [|c cols], on as [y|]; split_and!; try assumption; cbn [clause_words using_words];
    repeat split; reflexivity.
Qed.

Lemma goes_join j p rest : join_ok j = true -> (length (join_words j) <= n)%nat -> ends_join rest ->
  lex p = mean (join_words j) ++ rest -> goes (parseJoinClause e) p j rest.
Proof.
  destruct j as [ty t a on cols]. unfold join_ok, join_words. cbn [JoinType JoinTable JoinAlias On Using]. intros Hok Hn Hends Hl.
  apply andb_true_iff in Hok as [[[[Hty Ht]%andb_true_iff Ha]%andb_true_iff Hon]%andb_true_iff Hcols].
  apply bool_decide_eq_true in Hty. destruct (join_tail on cols rest Hends) as ((Hi & Has & Hdot) & Hf & Hnon).
  cbn [length] in Hn. rewrite !length_app in Hn. unfold parseJoinClause.
  rewrite !mean_cons, !mean_app, meaning_kw, meaning_quoted in Hl by done.
  replace (meaning (WName ty)) with (TokKeyword, ty) in Hl by by unfold join_types in Hty; member Hty.
  rewrite <- !app_comm_cons, <- !app_assoc in Hl.
  eapply goes_bind; [apply (goes_join_type _ _ _ Hty Hl)|]. clear p Hl. intros p Hl.
  unfold table_name. apply goes_assoc. go. unfold parseTableName. apply goes_assoc.
  eapply goes_bind; [apply (goes_name [] t); [done|done|by apply alias_ends|]; cbn [print_name]; rewrite mean_cons, meaning_quoted by done; exact Hl|].
  clear p Hl. intros p Hl. cbv beta iota. go. apply (goes_alias_then _ a _ _ _ _ Ha Hi Has Hl). clear p Hl. intros p Hl.
  eapply goes_bind; [apply (goes_clause "ON" on); [done|done|lia|done|done|exact Hl]|]. clear p Hl. intros p Hl.
  eapply goes_bind; [apply goes_using; [done|apply Hends|exact Hl]|]. clear p Hl. intros p Hl.
  replace (default [] _) with cols by by destruct cols. by go.
Qed.

(** ** GROUP BY and ORDER BY *)

Definition group_words (cols : list bytes) : list word := optional_list [kw "GROUP"; kw "BY"] (fun c => [quoted c]) cols.
Definition item_words (o : OrderByClause Expression) : list word := print (OrderExpr o) ++ [WName (Direction o)].
Definition order_words (l : list (OrderByClause Expression)) : list word :=
  match l with [] => [] | o :: l => kw "ORDER" :: kw "BY" :: commas (map item_words (o :: l)) end.
Definition item_ok (o : OrderByClause Expression) : bool :=
  printable (OrderExpr o) && bool_decide (Direction o ∈ [str "ASC"; str "DESC"]).

(** The field of an optional list. *)
Definition some_list {A} (l : list A) : option (list A) := match l with [] => None | _ => Some l end.
Lemma some_list_default {A} (l : list A) : default [] (some_list l) = l.
Proof. by destruct l. Qed.

Lemma goes_group cols p rest : forallb name_ok cols = true -> no TokComma [] rest -> no TokKeyword ["GROUP"] rest ->
  lex p = mean (group_words cols) ++ rest -> goes (clause "GROUP" (expect_keyword "BY";; parseGroupByList)) p (some_list cols) rest.
Proof.
  intros Hok Hc Hno Hl. unfold clause. destruct cols as [|c cols].
  - change (lex p = rest) in Hl. apply goes_optional_no; [by rewrite Hl|]. cbn iota. by go.
  - unfold group_words, optional_list in Hl. rewrite mean_app in Hl. change (mean [kw "GROUP"; kw "BY"]) with [(TokKeyword, str "GROUP"); (TokKeyword, str "BY")] in Hl.
    rewrite <- !app_assoc, <- !app_comm_cons, app_nil_l in Hl. do 3 go.
    eapply goes_bind; [by apply (goes_names _ (c :: cols) _ _ Hok)|]. clear p Hl. intros p Hl. by go.
Qed.

Lemma goes_item o p w : item_ok o = true -> (length (item_words o) <= n)%nat -> lex p = mean (item_words o) ++ w ->
  goes (order_item e) p o w.
Proof.
  destruct o as [x d]. unfold item_ok, item_words. cbn [OrderExpr Direction]. intros [Hx Hd]%andb_true_iff Hn Hl.
  apply bool_decide_eq_true in Hd. rewrite length_app in Hn. cbn [length] in Hn. unfold order_item.
  rewrite mean_app, <- app_assoc in Hl. change (mean [WName d] ++ w) with (meaning (WName d) :: w) in Hl.
  member Hd; (eapply goes_bind; [apply (He x); [done|lia| |exact Hl]; reflexivity|]);
    clear p Hl; intros p Hl; [change (meaning _) with (TokKeyword, str "ASC") in Hl|change (meaning _) with (TokKeyword, str "DESC") in Hl];
    by repeat go.
Qed.

Lemma goes_order l p rest : forallb item_ok l = true -> (length (order_words l) <= n)%nat -> no TokComma [] rest ->
  no TokKeyword ["ORDER"] rest -> lex p = mean (order_words l) ++ rest ->
  goes (clause "ORDER" (expect_keyword "BY";; parseOrderByList e)) p (some_list l) rest.
Proof.
  intros Hok Hn Hc Hno Hl. unfold clause. destruct l as [|o l].
  - change (lex p = rest) in Hl. apply goes_optional_no; [by rewrite Hl|]. cbn iota. by go.
  - cbn [order_words length] in Hl, Hn. rewrite !mean_cons, !meaning_kw, mean_commas, map_map, <- !app_comm_cons in Hl by done. do 3 go.
    eapply goes_bind; [|clear p Hl; intros p Hl; by go].
    eapply (goes_comma_list _ (fun x => mean (item_words x))); [done|done| |exact Hl].
    intros x q w Hin _ Hq. apply goes_item; [by apply (forallb_elem _ _ _ Hok)| |done].
    pose proof (commas_length item_words x (o :: l) Hin). lia.
Qed.

(** ** Columns *)

Definition column_words (c : SelectColumn Expression) : list word :=
  match Expr c with
  | Some x => print x ++ print_alias (ColAlias c)
  | None => match TableName c with [] => [star] | t => [quoted t; dot; star] end
  end.
Definition column_ok (c : SelectColumn Expression) : bool :=
  match Expr c with
  | Some x => printable x && negb (is_star x) && opt_name_ok (ColAlias c) && bool_decide (TableName c = []) && negb (All c)
  | None => opt_name_ok (TableName c) && bool_decide (ColAlias c = []) && All c
  end.

(** [name.*] *)
Definition field_star (w : list lexeme) : bool :=
  match w with (TokIdent, _) :: (TokDot, _) :: (TokStar, _) :: _ => true | _ => false end.

Lemma token_at_lex k p : TType (token_at k p) = (nth k (lex p) (TokEOF, [])).1.
Proof.
  unfold token_at, lex. rewrite <- (lookup_drop (tokens p) (ppos p) k). generalize (drop (ppos p) (tokens p)) as l.
  induction k as [|k IH]; intros [|t l]; try done. apply IH.
Qed.

Lemma field_star_test p : lexeme_matches TokIdent [] (head (lex p)) &&
  bool_decide (TType (token_at 1 p) = TokDot) && bool_decide (TType (token_at 2 p) = TokStar) = field_star (lex p).
Proof.
  rewrite !token_at_lex. destruct (lex p) as [|[t1 v1] [|[t2 v2] [|[t3 v3] w]]]; [done|..].
  - by destruct t1.
  - by destruct t1; try reflexivity; destruct t2.
  - destruct t1; try reflexivity; destruct t2; try reflexivity; by destruct t3.
Qed.

Lemma expression_not_field x w : printable x = true -> no TokDot [] w -> field_star (mean (print x) ++ w) = false.
Proof.
  intros Hx Hno.
  assert (Ho : forall l v, printable l = true -> (atomic l = true -> no TokDot [] v) -> field_star (operand l ++ v) = false).
  { intros l v Hl Hv. destruct (atomic l) eqn:Ha; [|by rewrite wrap_first]. cbn [wrap]. specialize (Hv eq_refl).
    destruct l as [g|t c|name args|op r|l op r|c whens y|l vs|l q|l a b|q|q|t|col query mode level]; try discriminate; try reflexivity.
    - destruct g as [|k m|f|f|t|[]|[]|t|ty t]; try discriminate; reflexivity.
    - destruct t; [|reflexivity]. cbn [print print_name mean map meaning quoted app]. unfold no in Hv.
      destruct v as [|[[] u] v]; try reflexivity. discriminate. }
  destruct (atomic x) eqn:Ha; [specialize (Ho x w Hx (fun _ => Hno)); by rewrite Ha in Ho|].
  destruct x as [g|t c|name args|op r|l op r|c whens y|l vs|l q|l a b|q|q|t|col query mode level]; try discriminate; cbn [print] in *.
  - cbn [printable] in Hx. apply andb_true_iff in Hx as [_ [Hop _]%andb_true_iff]. apply bool_decide_eq_true in Hop. by member Hop.
  - cbn [printable] in Hx. apply andb_true_iff in Hx as [_ [Hl _]%andb_true_iff]. rewrite mean_app, <- app_assoc. apply Ho; [done|].
    intros _. repeat case_bool_decide; try reflexivity. cbn [mean map meaning app]. by destruct (is_keyword _).
  - cbn [printable] in Hx. apply andb_true_iff in Hx as [_ [[Hl _]%andb_true_iff _]%andb_true_iff]. rewrite mean_app, <- app_assoc. by apply Ho.
  - cbn [printable] in Hx. apply andb_true_iff in Hx as [_ [Hl _]%andb_true_iff]. rewrite mean_app, <- app_assoc. by apply Ho.
  - cbn [printable] in Hx. apply andb_true_iff in Hx as [_ [[Hl _]%andb_true_iff _]%andb_true_iff]. rewrite mean_app, <- app_assoc. by apply Ho.
  - reflexivity.
Qed.

(** What comes after a column. *)
Definition ends_column (w : list lexeme) : Prop := follow w /\ no TokIdent [] w /\ no TokKeyword ["AS"] w.

Lemma goes_column c p rest : column_ok c = true -> (length (column_words c) < n)%nat -> ends_column rest ->
  lex p = mean (column_words c) ++ rest -> goes (parseSelectColumn e) p c rest.
Proof.
  destruct c as [x a t all]. unfold column_ok, column_words. cbn [Expr ColAlias TableName All]. intros Hok Hn (Hf & Hi & Has) Hl.
  unfold parseSelectColumn. destruct x as [x|].
  - apply andb_true_iff in Hok as [[[[Hx Hst]%andb_true_iff Ha]%andb_true_iff Ht]%andb_true_iff Hall].
    apply bool_decide_eq_true in Ht as ->. apply negb_true_iff in Hall as ->. apply negb_true_iff in Hst.
    rewrite length_app in Hn. rewrite mean_app, <- app_assoc in Hl.
    assert (Hfa : follow (mean (print_alias a) ++ rest)) by by destruct a.
    pose proof (expression_head x (mean (print_alias a) ++ rest) Hx Hst) as Hh. rewrite <- Hl in Hh.
    apply goes_optional_no; [apply (expression_first_type _ _ _ Hh); inlist|]. cbn iota.
    eapply goes_test; [reflexivity|]. apply goes_gets, goes_gets. rewrite field_star_test, Hl.
    rewrite expression_not_field by first [done|apply (follow_no_type TokDot []); [done|inlist]].
    eapply goes_bind; [apply (He x); [done|lia|done|exact Hl]|]. clear Hh p Hl. intros p Hl.
    destruct a as [|b a]; cbn [print_alias] in Hl.
    + change (lex p = rest) in Hl. apply goes_optional_no; [by rewrite Hl|]. cbn iota. unfold alias, match_type, current. apply goes_assoc.
      apply goes_test with (b := false); [by rewrite Hl|]. apply goes_assoc, goes_gets. cbn [andb]. go. by go.
    + assert (Hb : name_ok (b :: a) = true) by exact Ha. mean_in Hl. by repeat go.
  - apply andb_true_iff in Hok as [[Ht Ha]%andb_true_iff Hall]. apply bool_decide_eq_true in Ha as ->.
    destruct all; [|done]. destruct t as [|b t].
    + mean_in Hl. do 1 go. by go.
    + assert (Hb : name_ok (b :: t) = true) by exact Ht. mean_in Hl. go.
      eapply goes_test; [reflexivity|]. apply goes_gets, goes_gets. rewrite field_star_test, Hl. cbn [field_star]. do 3 go. by go.
Qed.

(** ** The whole SELECT *)

Definition union_words (all : bool) (q : Select) : list word := kw "UNION" :: flag all "ALL" ++ print_select q.

Lemma print_select_eq f : print_select (StmtSelect f) =
  kw "SELECT" :: flag (Distinct f) "DISTINCT" ++ commas (map column_words (SColumns f)) ++
  (match From f with Some c => kw "FROM" :: from_words c | None => [] end) ++
  concat (map join_words (Joins f)) ++ clause_words "WHERE" (Where f) ++ group_words (GroupBy f) ++
  clause_words "HAVING" (Having f) ++ order_words (OrderBy f) ++ clause_words "LIMIT" (Limit f) ++
  clause_words "OFFSET" (Offset f) ++ concat (map (union_words (UnionAll f)) (Union f)).
Proof. reflexivity. Qed.

(** What is checked of the clauses of a printable SELECT. *)
Definition clauses_ok (f : SelectFields Expression Select) : Prop :=
  SColumns f <> [] /\ forallb column_ok (SColumns f) = true /\
  match From f with Some c => from_ok c = true | None => True end /\
  forallb join_ok (Joins f) = true /\ opt_printable (Where f) = true /\ forallb name_ok (GroupBy f) = true /\
  opt_printable (Having f) = true /\ forallb item_ok (OrderBy f) = true /\
  opt_printable (Limit f) = true /\ opt_printable (Offset f) = true /\
  match Union f with [] => UnionAll f = false | [q] => printable_select q = true | _ => False end.

Lemma printable_clauses f : printable_select (StmtSelect f) = true -> clauses_ok f.
Proof.
  cbn [printable_select]. intros Hq. repeat apply andb_true_iff in Hq as [Hq ?].
  apply negb_true_iff, bool_decide_eq_false in Hq. unfold clauses_ok. split_and!; try assumption.
  - intros E. by rewrite E in Hq.
  - by destruct (From f).
  - destruct (Union f) as [|q [|]]; [by apply negb_true_iff|done|discriminate].
Qed.

(** The keywords that open a clause, in their order. *)
Definition clause_keywords : list string :=
  ["FROM"; "INNER"; "LEFT"; "RIGHT"; "CROSS"; "WHERE"; "GROUP"; "HAVING"; "ORDER"; "LIMIT"; "OFFSET"; "UNION"]%string.

(** The end of a query or a clause after the first [i]. *)
Definition from_clause (i : nat) (w : list lexeme) : Prop := heads (drop i clause_keywords) w.

Lemma heads_subset ks ks' w : heads ks w -> (forall k, In k ks -> In k ks') -> heads ks' w.
Proof.
  intros [Hc|Hin] Hk; [by left|right]. apply list_elem_of_In, in_map_iff in Hin as (k & <- & Hin).
  apply list_elem_of_In. apply (in_map (fun k => (TokKeyword, str k))). by apply Hk.
Qed.

Lemma from_clause_le i j w : (i <= j)%nat -> from_clause j w -> from_clause i w.
Proof.
  intros Hij Hw. apply (heads_subset _ _ _ Hw). intros k Hk. replace (drop j _) with (drop (j - i) (drop i clause_keywords)) in Hk.
  - rewrite <- (take_drop (j - i) (drop i clause_keywords)). apply in_or_app. by right.
  - rewrite drop_drop. f_equal. lia.
Qed.

Lemma from_clause_ends i w : from_clause i w -> ends_join w /\ ends_column w /\ no TokComma [] w.
Proof.
  intros Hw. apply (from_clause_le 0) in Hw; [|lia].
  assert (Hno : forall typ values, typ ∉ [TokRParen; TokEOF; TokSemicolon] ->
    forallb (fun k => negb (lexeme_matches typ (map str values) (TokKeyword, str k))) clause_keywords = true -> no typ values w)
    by (intros; eapply heads_no; done).
  pose proof (heads_follow _ _ Hw eq_refl) as Hf.
  unfold ends_join, ends_table, ends_column. split_and!; try done; apply Hno; try reflexivity; by rewrite !elem_of_cons, elem_of_nil; intros [|[|[|]]].
Qed.

(** The clause of index [i], which is optional, comes before a later one. *)
Lemma from_clause_opt i v w : from_clause (S i) w ->
  v = [] \/ (exists k v', clause_keywords !! i = Some k /\ v = (TokKeyword, str k) :: v') -> from_clause i (v ++ w).
Proof.
  intros Hw [->|(k & v' & Hk & ->)]; [apply (from_clause_le i (S i)); [lia|done]|].
  unfold from_clause. rewrite (drop_S _ _ _ Hk). right. by left.
Qed.

Lemma from_clause_no i k w : from_clause i w -> forallb (fun k' => negb (lexeme_matches TokKeyword [str k] (TokKeyword, str k'))) (drop i clause_keywords) = true ->
  no TokKeyword [k] w.
Proof. intros Hw Hk. apply (heads_no _ _ _ _ Hw); [|done]. by rewrite !elem_of_cons, elem_of_nil; intros [|[|[|]]]. Qed.

Lemma from_clause_expr i k x w : from_clause (S i) w -> clause_keywords !! i = Some k -> is_word k ->
  from_clause i (mean (clause_words k x) ++ w).
Proof.
  intros Hw Hi Hk. apply from_clause_opt; [done|]. destruct (clause_first k x Hk) as [E|[v E]]; [by left|right]. by exists k, v.
Qed.

Definition from_clause_words (f : option (FromClause Select)) : list word :=
  match f with Some c => kw "FROM" :: from_words c | None => [] end.

Lemma goes_from_clause f p rest : match f with Some c => from_ok c = true | None => True end ->
  (length (from_clause_words f) <= n)%nat -> from_clause 1 rest -> lex p = mean (from_clause_words f) ++ rest ->
  goes (clause "FROM" (parseFromClause s)) p f rest.
Proof.
  intros Hok Hn Hr Hl. unfold clause. destruct f as [c|]; cbn [from_clause_words length] in *.
  - rewrite mean_cons, meaning_kw in Hl by done. rewrite <- app_comm_cons in Hl. go.
    eapply goes_bind; [apply (goes_from c); [done|lia| |exact Hl]|clear p Hl; intros p Hl; by go].
    by destruct (from_clause_ends _ _ Hr) as ((Ht & _) & _).
  - change (lex p = rest) in Hl. apply goes_optional_no; [rewrite Hl; by apply (from_clause_no 1)|]. cbn iota. by go.
Qed.

Definition join_keywords : list string := ["JOIN"; "INNER"; "LEFT"; "RIGHT"; "CROSS"]%string.

Lemma join_words_first j w : join_ok j = true -> exists k v, k ∈ ["INNER"; "LEFT"; "RIGHT"; "CROSS"]%string /\
  mean (join_words j) ++ w = (TokKeyword, str k) :: v.
Proof.
  unfold join_ok. intros [[[[Hty _]%andb_true_iff _]%andb_true_iff _]%andb_true_iff _]%andb_true_iff.
  apply bool_decide_eq_true in Hty. unfold join_words, join_types in *.
  member Hty; match goal with E : JoinType j = str ?k |- _ => exists k; eexists; split; [inlist|]; rewrite mean_cons, E; reflexivity end.
Qed.

(** A JOIN comes after FROM. *)
Lemma join_words_from j w : join_ok j = true -> from_clause 1 (mean (join_words j) ++ w).
Proof.
  intros Hj. destruct (join_words_first j w Hj) as (k & v & Hk & ->). right. unfold clause_keywords, head. cbn [drop map hd].
  by member Hk; inlist.
Qed.

Lemma goes_joins js p rest : forallb join_ok js = true -> (length (concat (map join_words js)) <= n)%nat ->
  from_clause 5 rest -> lex p = mean (concat (map join_words js)) ++ rest ->
  goes (while_list (matchKeyword join_keywords) (parseJoinClause e)) p js rest.
Proof.
  intros Hok Hn Hr Hl. rewrite mean_concat, map_map in Hl.
  eapply (goes_while_list _ _ _ (fun j => mean (join_words j))); [| | | |exact Hl].
  - apply (heads_no _ _ _ join_keywords Hr); [|done]. by rewrite !elem_of_cons, elem_of_nil; intros [|[|[|]]].
  - done.
  - intros j w Hin. destruct (join_words_first j w) as (k & v & Hk & ->); [by apply (forallb_elem _ _ _ Hok)|]. by member Hk.
  - intros j q w Hin Hw Hq. apply goes_join; [by apply (forallb_elem _ _ _ Hok)| | |done].
    + pose proof (concat_length join_words j js Hin). lia.
    + destruct Hw as [->|(y & w' & Hy & ->)]; apply (from_clause_ends 1).
      * by apply (from_clause_le 1 5); [lia|].
      * apply join_words_from. by apply (forallb_elem _ _ _ Hok).
Qed.

Lemma goes_unions all us p rest : match us with [] => all = false | [q] => printable_select q = true | _ => False end ->
  (length (concat (map (union_words all) us)) <= n)%nat -> closes rest ->
  lex p = mean (concat (map (union_words all) us)) ++ rest ->
  goes (while_list (matchKeyword ["UNION"]) (union_part s)) p (map (pair all) us) rest.
Proof.
  intros Hok Hn Hc Hl. destruct us as [|q [|]]; [| |done].
  - change (lex p = rest) in Hl. apply goes_bounded. cbn [while_loop].
    apply goes_test with (b := false); [rewrite Hl; apply (closes_no _ _ _ Hc)|by go].
    by rewrite !elem_of_cons, elem_of_nil; intros [|[|[|]]].
  - cbn [map concat] in *. rewrite app_nil_r in *. unfold union_words in Hl, Hn. cbn [length] in Hn. rewrite length_app in Hn.
    rewrite mean_cons, mean_app, meaning_kw in Hl by done. rewrite <- app_comm_cons, <- app_assoc in Hl.
    apply goes_bounded. rewrite Hl. cbn [length while_loop].
    apply goes_test with (b := true); [by rewrite Hl|]. cbn iota. unfold union_part. apply goes_assoc. go. apply goes_assoc.
    apply (goes_flag all "ALL" _ _ (mean (print_select q) ++ rest)); [done|by destruct (select_first q rest) as [v ->]|exact Hl|].
    clear p Hl. intros p Hl. apply goes_assoc. eapply goes_bind; [apply (Hs q); [done|lia|done|exact Hl]|].
    clear p Hl. intros p Hl. go. apply goes_assoc.
    apply goes_test with (b := false); [rewrite Hl; apply (closes_no _ _ _ Hc)|cbn iota; by repeat go].
    by rewrite !elem_of_cons, elem_of_nil; intros [|[|[|]]].
Qed.

Lemma group_first cols : mean (group_words cols) = [] \/ exists v, mean (group_words cols) = (TokKeyword, str "GROUP") :: v.
Proof. destruct cols; [by left|right]. eexists. reflexivity. Qed.
Lemma order_first l : mean (order_words l) = [] \/ exists v, mean (order_words l) = (TokKeyword, str "ORDER") :: v.
Proof. destruct l; [by left|right]. eexists. reflexivity. Qed.
Lemma unions_first all us : mean (concat (map (union_words all) us)) = [] \/
  exists v, mean (concat (map (union_words all) us)) = (TokKeyword, str "UNION") :: v.
Proof. destruct us; [by left|right]. eexists. reflexivity. Qed.

(** The words of a SELECT from a clause on, and what comes after. *)
Definition tail_parts (f : SelectFields Expression Select) : list (list word) :=
  [from_clause_words (From f); concat (map join_words (Joins f));
   clause_words "WHERE" (Where f); group_words (GroupBy f); clause_words "HAVING" (Having f);
   order_words (OrderBy f); clause_words "LIMIT" (Limit f); clause_words "OFFSET" (Offset f);
   concat (map (union_words (UnionAll f)) (Union f))].
Definition tail_words (f : SelectFields Expression Select) (i : nat) (rest : list lexeme) : list lexeme :=
  concat (map mean (drop i (tail_parts f))) ++ rest.

Lemma tail_step f i w rest : tail_parts f !! i = Some w -> tail_words f i rest = mean w ++ tail_words f (S i) rest.
Proof. intros Hw. unfold tail_words. rewrite (drop_S _ _ _ Hw). cbn [map concat]. by rewrite <- app_assoc. Qed.

Lemma tail_length f i w : tail_parts f !! i = Some w -> (length w <= length (concat (tail_parts f)))%nat.
Proof.
  intros Hw%list_elem_of_lookup_2. pose proof (concat_length (fun w => w) w (tail_parts f) Hw) as Hl. by rewrite map_id in Hl.
Qed.

Lemma print_tail f : print_select (StmtSelect f) =
  kw "SELECT" :: flag (Distinct f) "DISTINCT" ++ commas (map column_words (SColumns f)) ++ concat (tail_parts f).
Proof. rewrite print_select_eq. unfold tail_parts. cbn [concat]. by rewrite app_nil_r. Qed.

Lemma tail_from f rest : clauses_ok f -> closes rest ->
  from_clause 0 (tail_words f 0 rest) /\ from_clause 1 (tail_words f 1 rest) /\ from_clause 5 (tail_words f 2 rest) /\
  from_clause 6 (tail_words f 3 rest) /\ from_clause 7 (tail_words f 4 rest) /\ from_clause 8 (tail_words f 5 rest) /\
  from_clause 9 (tail_words f 6 rest) /\ from_clause 10 (tail_words f 7 rest) /\ from_clause 11 (tail_words f 8 rest).
Proof.
  intros (_ & _ & _ & Hj & _) Hc. unfold tail_words, tail_parts. cbn [drop map concat]. rewrite app_nil_r, <- !app_assoc.
  assert (H11 : from_clause 11 (mean (concat (map (union_words (UnionAll f)) (Union f))) ++ rest)).
  { apply from_clause_opt; [by left|]. destruct (unions_first (UnionAll f) (Union f)) as [E|[v E]]; [by left|right]. by exists "UNION"%string, v. }
  pose proof (from_clause_expr 10 "OFFSET" (Offset f) _ H11 eq_refl eq_refl) as H10.
  pose proof (from_clause_expr 9 "LIMIT" (Limit f) _ H10 eq_refl eq_refl) as H9.
  assert (H8 : from_clause 8 (mean (order_words (OrderBy f)) ++ mean (clause_words "LIMIT" (Limit f)) ++
    mean (clause_words "OFFSET" (Offset f)) ++ mean (concat (map (union_words (UnionAll f)) (Union f))) ++ rest)).
  { apply from_clause_opt; [done|]. destruct (order_first (OrderBy f)) as [E|[v E]]; [by left|right]. by exists "ORDER"%string, v. }
  pose proof (from_clause_expr 7 "HAVING" (Having f) _ H8 eq_refl eq_refl) as H7.
  match type of H7 with from_clause _ ?w => assert (H6 : from_clause 6 (mean (group_words (GroupBy f)) ++ w)) end.
  { apply from_clause_opt; [done|]. destruct (group_first (GroupBy f)) as [E|[v E]]; [by left|right]. by exists "GROUP"%string, v. }
  pose proof (from_clause_expr 5 "WHERE" (Where f) _ H6 eq_refl eq_refl) as H5.
  match type of H5 with from_clause _ ?w => assert (H1 : from_clause 1 (mean (concat (map join_words (Joins f))) ++ w)) end.
  { destruct (Joins f) as [|j js]; [by apply (from_clause_le 1 5); [lia|]|]. cbn [map concat]. rewrite mean_app, <- app_assoc.
    apply join_words_from. by apply andb_true_iff in Hj as [Hj _]. }
  split_and!; try assumption. destruct (From f) as [c|]; [|by apply (from_clause_le 0 1); [lia|]].
  apply from_clause_opt; [done|right]. exists "FROM"%string. eexists. split; reflexivity.
Qed.

Lemma column_head c w : column_ok c = true -> no TokKeyword ["DISTINCT"] (mean (column_words c) ++ w).
Proof.
  destruct c as [x a t all]. unfold column_ok, column_words. cbn [Expr ColAlias TableName All]. destruct x as [x|].
  - intros [[[[Hx Hst]%andb_true_iff _]%andb_true_iff _]%andb_true_iff _]%andb_true_iff. apply negb_true_iff in Hst.
    rewrite mean_app, <- app_assoc. apply (expression_first_keyword _ _ (expression_head x _ Hx Hst)). inlist.
  - intros _. by destruct t.
Qed.

Lemma goes_columns f p rest : clauses_ok f -> (length (commas (map column_words (SColumns f))) < n)%nat -> ends_column rest ->
  no TokComma [] rest -> lex p = mean (commas (map column_words (SColumns f))) ++ rest ->
  goes (parseSelectColumns e) p (SColumns f) rest.
Proof.
  intros (Hne & Hok & _) Hn Hends Hno Hl. rewrite mean_commas, map_map in Hl.
  eapply (goes_comma_list _ (fun c => mean (column_words c))); [done|done| |exact Hl].
  intros c q w Hin Hw Hq. apply goes_column; [by apply (forallb_elem _ _ _ Hok)| | |done].
  - pose proof (commas_length column_words c _ Hin). lia.
  - destruct Hw as [Hw| ->]; [|done]. unfold ends_column, follow, no. by rewrite Hw.
Qed.

Lemma goes_select f p rest : printable_select (StmtSelect f) = true -> (length (print_select (StmtSelect f)) <= n)%nat ->
  closes rest -> lex p = mean (print_select (StmtSelect f)) ++ rest -> goes (parseSelectBody e s) p (StmtSelect f) rest.
Proof.
  intros Hq Hn Hc Hl. apply printable_clauses in Hq as Hok. pose proof Hok as (Hne & Hcols & Hfrom & Hjoins & Hwh & Hgr & Hha & Hor & Hli & Hof & Hun).
  rewrite print_tail in Hl, Hn. cbn [length] in Hn. rewrite !length_app in Hn.
  assert (Hlen : forall i w, tail_parts f !! i = Some w -> (length w <= n)%nat) by (intros i w Hw; pose proof (tail_length f i w Hw); lia).
  rewrite mean_cons, !mean_app, mean_concat, meaning_kw, <- app_comm_cons, <- !app_assoc in Hl by done.
  change (concat (map mean (tail_parts f)) ++ rest) with (tail_words f 0 rest) in Hl.
  destruct (tail_from f rest Hok Hc) as (T0 & T1 & T2 & T3 & T4 & T5 & T6 & T7 & T8).
  destruct (from_clause_ends _ _ T0) as (_ & E0 & C0). unfold parseSelectBody. go.
  eapply (goes_flag (Distinct f) "DISTINCT"); [done| |exact Hl|].
  { destruct (SColumns f) as [|c cs]; [done|]. cbn [map]. rewrite mean_commas. cbn [map].
    destruct (separated_first (mean (column_words c)) (map mean (map column_words cs)) (tail_words f 0 rest)) as [y ->].
    apply column_head. by apply andb_true_iff in Hcols as [Hcols _]. }
  clear p Hl. intros p Hl.
  eapply goes_bind; [apply (goes_columns f); [done|lia|done|done|exact Hl]|]. clear p Hl. intros p Hl.
  assert (Hexpr : forall i k x m q w, tail_parts f !! i = Some (clause_words k x) -> from_clause m (tail_words f (S i) rest) ->
    is_word k -> opt_printable x = true -> no TokKeyword [k] (tail_words f (S i) rest) -> lex q = tail_words f i rest ->
    w = tail_words f (S i) rest -> goes (clause k e) q x w).
  { intros i k x m q w Hi Hm Hk Hx Hno Hq' ->. destruct (from_clause_ends _ _ Hm) as ((_ & Hf & _) & _).
    apply (goes_clause k x); [done|done|by apply (Hlen i)|done|done|by rewrite <- tail_step]. }
  assert (Hends : forall m w, from_clause m w -> no TokComma [] w) by (intros m w Hm; apply (from_clause_ends m w Hm)).
  eapply goes_bind; [apply (goes_from_clause (From f) p (tail_words f 1 rest)); [done|by apply (Hlen 0%nat)|done|by rewrite <- tail_step]|].
  clear p Hl. intros p Hl.
  eapply goes_bind; [apply (goes_joins (Joins f) p (tail_words f 2 rest)); [done|by apply (Hlen 1%nat)|done|by rewrite <- tail_step]|].
  clear p Hl. intros p Hl.
  eapply goes_bind; [apply (Hexpr 2%nat "WHERE" (Where f) 6%nat); try done; by apply (from_clause_no 6)|]. clear p Hl. intros p Hl.
  eapply goes_bind; [apply (goes_group (GroupBy f) p (tail_words f 4 rest)); [done|by eapply Hends|by apply (from_clause_no 7)|by rewrite <- tail_step]|].
  clear p Hl. intros p Hl.
  eapply goes_bind; [apply (Hexpr 4%nat "HAVING" (Having f) 8%nat); try done; by apply (from_clause_no 8)|]. clear p Hl. intros p Hl.
  eapply goes_bind; [apply (goes_order (OrderBy f) p (tail_words f 6 rest));
    [done|by apply (Hlen 5%nat)|by eapply Hends|by apply (from_clause_no 9)|by rewrite <- tail_step]|].
  clear p Hl. intros p Hl.
  eapply goes_bind; [apply (Hexpr 6%nat "LIMIT" (Limit f) 10%nat); try done; by apply (from_clause_no 10)|]. clear p Hl. intros p Hl.
  eapply goes_bind; [apply (Hexpr 7%nat "OFFSET" (Offset f) 11%nat); try done; by apply (from_clause_no 11)|]. clear p Hl. intros p Hl.
  eapply goes_bind; [apply (goes_unions (UnionAll f) (Union f) p rest); [done|by apply (Hlen 8%nat)|done|]|].
  { by rewrite Hl, (tail_step f 8 _ rest eq_refl). }
  clear p Hl. intros p Hl.
  rewrite !some_list_default, !map_map. cbn [fst snd]. rewrite map_id.
  replace (List.last (map (fun _ => UnionAll f) (Union f)) false) with (UnionAll f) by by destruct (Union f) as [|q [|]].
  destruct f. by go.
Qed.
End Query.

(** ** Nested queries and expressions *)

Section Text.
Context `{GoRuntime}.

Lemma parsers_print d :
  (forall x p rest, printable x = true -> (length (print x) < d)%nat -> follow rest ->
    lex p = mean (print x) ++ rest -> goes (parsers d).1 p x rest) /\
  (forall q p rest, printable_select q = true -> (length (print_select q) < d)%nat -> closes rest ->
    lex p = mean (print_select q) ++ rest -> goes (parsers d).2 p q rest).
Proof.
  induction d as [|d [IHe IHs]]; [split; intros; lia|]. cbn [parsers]. destruct (parsers d) as [e s]. cbn [fst snd] in *. split.
  - intros x p rest Hx Hn Hf Hl. apply (level_all e s d IHe IHs x); [done|lia|done|done].
  - intros [f] p rest Hq Hn Hc Hl. apply (goes_select e s d IHe IHs f); [done|lia|done|done].
Qed.

Lemma goes_parseSelect q p rest : printable_select q = true -> closes rest -> lex p = mean (print_select q) ++ rest ->
  goes parseSelect p q rest.
Proof.
  intros Hq Hc Hl. apply goes_gets. apply (parsers_print (remaining p + 2)); [done| |done|done].
  rewrite remaining_lex, Hl, length_app. unfold mean. rewrite length_map. lia.
Qed.

(** ** The words of a printable query are words of the lexer *)

Lemma kw_ok k : forallb (fun b => (byte.unsigned b <? 0x80) && ident_char (byte.unsigned b)) (str k) = true ->
  match str k with b :: _ => negb (isDigit (byte.unsigned b)) | [] => false end = true -> word_ok (kw k).
Proof.
  intros Hall Hfirst. split.
  - apply Forall_forall. intros b Hb. pose proof (forallb_elem _ _ _ Hall Hb) as Hc. cbn beta in Hc.
    apply andb_true_iff in Hc as [Ha Hi]. split; [|done]. unfold ascii. lia.
  - destruct (str k) as [|b t]; [done|]. exists b, t. split; [done|]. by apply negb_true_iff.
Qed.

Lemma text_runes t : text_ok t = true -> Forall text_rune (runes t).
Proof.
  unfold text_ok. intros [_ Hz]%andb_true_iff. apply Forall_forall. intros r Hr.
  pose proof (forallb_elem _ _ _ Hz Hr) as Hr0. pose proof (forallb_elem _ _ _ (runes_valid t) Hr) as Hv.
  split; [done|]. unfold no_zero in Hr0. lia.
Qed.
Lemma text_of_ok t : text_ok t = true -> word_ok (text_of t).
Proof. apply text_runes. Qed.
Lemma quoted_ok c : name_ok c = true -> word_ok (quoted c).
Proof.
  intros Hc. pose proof (text_runes c (name_ok_text c Hc)) as Ht. apply Forall_forall. intros r Hr.
  rewrite Forall_forall in Ht. split; [by apply Ht|]. unfold name_ok in Hc. apply andb_true_iff in Hc as [[_ Hq]%andb_true_iff _].
  pose proof (forallb_elem _ _ _ Hq Hr) as Hr0. cbn beta in Hr0. lia.
Qed.
Lemma number_ok m : 0 <= m < 2 ^ 63 -> word_ok (number_of m).
Proof.
  intros Hm. destruct (digits_plain m) as (Hd & _); [lia|]. cbn [word_ok number_of]. split_and!; try done.
  intros E. assert (Hp : parse_int (itoa m) = Some m) by (apply parse_int_itoa; unfold in_i64; lia). by rewrite E in Hp.
Qed.

Lemma commas_ok l : Forall (Forall word_ok) l -> Forall word_ok (commas l).
Proof.
  induction 1 as [|w l Hw Hl IH]; [constructor|]. destruct l as [|v l]; [done|]. change (commas (w :: v :: l)) with (w ++ comma :: commas (v :: l)).
  apply Forall_app. split; [done|]. constructor; [|done]. cbn. unfold marks. rewrite !elem_of_cons. tauto.
Qed.
Lemma concat_ok l : Forall (Forall word_ok) l -> Forall word_ok (concat l).
Proof. induction 1; [constructor|]. cbn [concat]. by apply Forall_app. Qed.
Lemma map_ok {A} (f : A -> list word) l : (forall x, x ∈ l -> Forall word_ok (f x)) -> Forall (Forall word_ok) (map f l).
Proof. intros Hf. apply Forall_map, Forall_forall. exact Hf. Qed.

(** Words that are known. *)
Ltac known := first
  [ assumption
  | apply kw_ok; reflexivity
  | apply quoted_ok; assumption
  | apply text_of_ok; assumption
  | apply number_ok; lia
  | cbn; unfold marks; rewrite !elem_of_cons; tauto ].
Ltac words := repeat first
  [ apply Forall_nil; exact I
  | apply Forall_app; split
  | apply Forall_cons; split; [known|]
  | assumption ].

Lemma wrap_ok b w : Forall word_ok w -> Forall word_ok (wrap b w).
Proof. intros Hw. destruct b; [done|]. cbn [wrap]. words. Qed.
Lemma wrap_length b w : (length w <= length (wrap b w))%nat.
Proof. destruct b; [done|]. cbn [wrap length]. rewrite length_app. lia. Qed.
Lemma name_words_ok db t : opt_name_ok db = true -> name_ok t = true -> Forall word_ok (print_name db t).
Proof. intros Hdb Ht. destruct db as [|b db]; cbn [print_name]; [words|]. assert (Hb : name_ok (b :: db) = true) by exact Hdb. words. Qed.
Lemma alias_words_ok a : alias_ok a = true -> Forall word_ok (print_alias a).
Proof.
  unfold alias_ok. destruct a as [|b a]; [intros; words|]. intros [Ha|[Ha _]%andb_true_iff]%orb_true_iff; [done|]. cbn [print_alias]. words.
Qed.

Section Words.
Variable n : nat.
Hypothesis He : forall x, printable x = true -> (length (print x) < n)%nat -> Forall word_ok (print x).
Hypothesis Hs : forall q, printable_select q = true -> (length (print_select q) < n)%nat -> Forall word_ok (print_select q).

Lemma operand_words x : printable x = true -> (length (wrap (atomic x) (print x)) < n)%nat ->
  Forall word_ok (wrap (atomic x) (print x)).
Proof. intros Hx Hn. pose proof (wrap_length (atomic x) (print x)). apply wrap_ok, He; [done|lia]. Qed.

Lemma clause_words_ok k x : Forall word_ok [kw k] -> opt_printable x = true -> (length (clause_words k x) <= n)%nat ->
  Forall word_ok (clause_words k x).
Proof.
  intros Hk Hx Hn. destruct x as [y|]; cbn [clause_words length] in *; [|constructor]. apply Forall_app with (l1 := [kw k]).
  split; [done|]. apply He; [done|lia].
Qed.

Lemma infix_words l op r : printable (ExprBinaryOp l op r) = true -> (length (print (ExprBinaryOp l op r)) <= n)%nat ->
  Forall word_ok (print (ExprBinaryOp l op r)).
Proof.
  intros Hx Hn. cbn [print] in *. rewrite length_app in Hn. cbn [printable is_distinct negb andb] in Hx.
  apply andb_true_iff in Hx as [Hl Hx]. destruct (decide (op ∈ [str "IS"; str "IS NOT"])) as [Hop|Hop].
  - apply Forall_app. split; [apply operand_words; [done|]|].
    + match type of Hn with (_ + length ?w <= _)%nat =>
        assert (1 <= length w)%nat by (member Hop; apply le_n_S, Nat.le_0_l); lia end.
    + member Hop; words.
  - rewrite bool_decide_eq_false_2 in Hx by done. apply andb_true_iff in Hx as [Hin Hr]. apply bool_decide_eq_true in Hin.
    assert (Hno : bool_decide (op = str "IS") = false /\ bool_decide (op = str "IS NOT") = false).
    { split; apply bool_decide_eq_false; intros ->; apply Hop; inlist. }
    destruct Hno as [E1 E2]. rewrite E1, E2 in *. cbn [length] in Hn.
    apply Forall_app. split; [apply operand_words; [done|lia]|]. apply Forall_cons. split; [|apply operand_words; [done|lia]].
    unfold keyword_operators, symbol_operators in Hin. clear -Hin. member Hin.
    1: by apply (kw_ok "AND"). 1: by apply (kw_ok "OR"). 1: by apply (kw_ok "LIKE").
    all: match goal with |- word_ok (if _ then WName ?o else _) => change (o ∈ operators) end; unfold operators; inlist.
Qed.

Lemma printable_argument a : argument_ok a = true -> (length (print a) < n)%nat -> Forall word_ok (print a).
Proof.
  unfold argument_ok. destruct (is_distinct a) eqn:Hd; [|by apply He]. destruct a; try discriminate.
  cbn [is_distinct] in Hd. apply bool_decide_eq_true in Hd as ->. intros Ha Hn. cbn [print] in *.
  rewrite bool_decide_eq_true_2 in * by done. cbn [length] in Hn. apply Forall_cons. split; [known|apply He; [done|lia]].
Qed.

Lemma when_word_ok w : printable (Cond w) && printable (Then w) = true ->
  (length (print (Cond w)) + length (print (Then w)) < n)%nat ->
  Forall word_ok (kw "WHEN" :: print (Cond w) ++ kw "THEN" :: print (Then w)).
Proof.
  intros [H1 H2]%andb_true_iff Hn. pose proof (He _ H1 ltac:(lia)). pose proof (He _ H2 ltac:(lia)). words.
Qed.

Lemma case_words c whens x : printable (ExprCase c whens x) = true -> (length (print (ExprCase c whens x)) <= n)%nat ->
  Forall word_ok (print (ExprCase c whens x)).
Proof.
  intros Hx Hn. cbn [printable is_distinct negb andb] in Hx. apply andb_true_iff in Hx as [[Hc Hw]%andb_true_iff Hx].
  cbn [print length] in *. rewrite !length_app in Hn.
  assert (Hc' : Forall word_ok (match c with Some y => print y | None => [] end)) by (destruct c; [apply He; [done|lia]|words]).
  assert (Hx' : Forall word_ok (match x with Some y => kw "ELSE" :: print y | None => [] end)).
  { destruct x as [y|]; [|words]. cbn [length] in Hn. apply Forall_cons. split; [known|apply He; [done|lia]]. }
  assert (Hw' : Forall word_ok (concat (map (fun w => kw "WHEN" :: print (Cond w) ++ kw "THEN" :: print (Then w)) whens))).
  { apply concat_ok, map_ok. intros w Hin. apply when_word_ok; [by apply (forallb_elem _ _ _ Hw)|].
    pose proof (concat_length (fun w => kw "WHEN" :: print (Cond w) ++ kw "THEN" :: print (Then w)) w whens Hin) as Hl.
    cbn [length] in Hl. rewrite length_app in Hl. cbn [length] in Hl. lia. }
  words.
Qed.

Lemma expression_words x : printable x = true -> (length (print x) <= n)%nat -> Forall word_ok (print x).
Proof.
  intros Hx Hn. destruct x as [v|t c|name args|op r|l op r|c whens y|l vs|l q|l a b|q|q|t|col query mode level].
  - cbn in Hx. destruct v as [|k m|f|f|t|b|[]|t|ty t]; try discriminate; split_ok; cbn [print]; by words.
  - cbn in Hx. apply andb_true_iff in Hx as [Ht Hc]. by apply name_words_ok.
  - destruct (printable_args _ _ Hx) as (Hname & _ & Hargs & _). cbn [print length] in *. rewrite length_app in Hn.
    apply Forall_cons. split; [known|]. apply Forall_cons. split; [known|]. apply Forall_app. split; [|words].
    apply commas_ok, map_ok. intros a Hin. rewrite Forall_forall in Hargs. apply printable_argument; [by apply Hargs|].
    pose proof (commas_length print a args Hin). lia.
  - cbn [printable] in Hx. apply andb_true_iff in Hx as [_ [Hop Hr]%andb_true_iff]. apply bool_decide_eq_true, elem_of_cons in Hop as [->|Hop].
    + rewrite print_not in *. cbn [length] in Hn. apply Forall_cons. split; [known|apply operand_words; [done|lia]].
    + rewrite print_sign in * by done. cbn [length] in Hn. apply Forall_cons. split; [|apply operand_words; [done|lia]].
      clear -Hop. member Hop; cbn [word_ok]; unfold operators; inlist.
  - by apply infix_words.
  - by apply case_words.
  - cbn [printable is_distinct negb andb] in Hx. apply andb_true_iff in Hx as [[Hl _]%andb_true_iff Hvs]. cbn [print] in *.
    rewrite length_app in Hn. cbn [length] in Hn. rewrite length_app in Hn. pose proof (operand_words l Hl ltac:(lia)).
    assert (Hv : Forall word_ok (commas (map print vs))); [|words]. apply commas_ok, map_ok. intros v Hin.
    apply He; [by apply (forallb_elem _ _ _ Hvs)|]. pose proof (commas_length print v vs Hin). lia.
  - cbn in Hx. apply andb_true_iff in Hx as [Hl Hq]. cbn [print] in *. rewrite length_app in Hn. cbn [length] in Hn. rewrite length_app in Hn.
    pose proof (operand_words l Hl ltac:(lia)). pose proof (Hs q Hq ltac:(lia)). words.
  - cbn in Hx. apply andb_true_iff in Hx as [[Hl Ha]%andb_true_iff Hb]. cbn [print] in *.
    rewrite length_app in Hn. cbn [length] in Hn. rewrite length_app in Hn. cbn [length] in Hn.
    pose proof (operand_words l Hl ltac:(lia)). pose proof (operand_words a Ha ltac:(lia)). pose proof (operand_words b Hb ltac:(lia)). words.
  - cbn in Hx. cbn [print length] in *. rewrite length_app in Hn. pose proof (Hs q Hx ltac:(lia)). words.
  - cbn in Hx. cbn [print length] in *. rewrite length_app in Hn. pose proof (Hs q Hx ltac:(lia)). words.
  - cbn [print]. words.
  - cbn [printable is_distinct negb andb] in Hx.
    apply andb_true_iff in Hx as [[[[Hc Hq]%andb_true_iff Hm]%andb_true_iff H0]%andb_true_iff H3]. cbn [print].
    destruct (level =? 0); words.
Qed.

Lemma opt_words_ok {A} ks (f : A -> list word) l : Forall word_ok ks -> Forall (Forall word_ok) (map f l) ->
  Forall word_ok (optional_list ks f l).
Proof. intros Hks Hf. destruct l as [|x l]; [constructor|]. cbn [optional_list]. apply Forall_app. split; [done|by apply commas_ok]. Qed.

Lemma names_words cols : forallb name_ok cols = true -> Forall (Forall word_ok) (map (fun c => [quoted c]) cols).
Proof. intros Hc. apply map_ok. intros c Hin. pose proof (forallb_elem _ _ _ Hc Hin). words. Qed.

Lemma column_words_ok c : column_ok c = true -> (length (column_words c) < n)%nat -> Forall word_ok (column_words c).
Proof.
  destruct c as [x a t all]. unfold column_ok, column_words. cbn [Expr ColAlias TableName All]. intros Hok Hn. destruct x as [x|].
  - apply andb_true_iff in Hok as [[[[Hx _]%andb_true_iff Ha]%andb_true_iff _]%andb_true_iff _]. rewrite length_app in Hn.
    apply Forall_app. split; [apply He; [done|lia]|]. destruct a as [|b a]; cbn [print_alias]; [words|].
    assert (Hb : name_ok (b :: a) = true) by exact Ha. words.
  - apply andb_true_iff in Hok as [[Ht _]%andb_true_iff _]. destruct t as [|b t]; [words|].
    assert (Hb : name_ok (b :: t) = true) by exact Ht. words.
Qed.

Lemma from_words_ok c : from_ok c = true -> (length (from_words c) < n)%nat -> Forall word_ok (from_words c).
Proof.
  unfold from_ok, from_words. intros [Ha Hc]%andb_true_iff Hn. rewrite length_app in Hn. pose proof (alias_words_ok _ Ha).
  apply Forall_app. split; [|done]. destruct (FromSubquery c) as [q|].
  - apply andb_true_iff in Hc as [_ Hq]. cbn [length] in Hn. rewrite length_app in Hn. pose proof (Hs q Hq ltac:(lia)). words.
  - apply andb_true_iff in Hc as [Hdb Ht]. by apply name_words_ok.
Qed.

Lemma join_words_ok j : join_ok j = true -> (length (join_words j) <= n)%nat -> Forall word_ok (join_words j).
Proof.
  destruct j as [ty t a on cols]. unfold join_ok, join_words. cbn [JoinType JoinTable JoinAlias On Using]. intros Hok Hn.
  apply andb_true_iff in Hok as [[[[Hty Ht]%andb_true_iff Ha]%andb_true_iff Hon]%andb_true_iff Hcols].
  apply bool_decide_eq_true in Hty. pose proof (alias_words_ok _ Ha). cbn [length] in Hn. rewrite !length_app in Hn.
  assert (Hty' : word_ok (WName ty)) by (clear -Hty; unfold join_types in Hty; member Hty; apply (kw_ok _); reflexivity).
  pose proof (clause_words_ok "ON" on ltac:(words) Hon ltac:(lia)).
  assert (Hu : Forall word_ok (using_words cols)).
  { destruct cols as [|c cols]; [words|]. cbn [using_words]. pose proof (commas_ok _ (names_words (c :: cols) Hcols)). words. }
  words.
Qed.

Lemma item_words_ok o : item_ok o = true -> (length (item_words o) <= n)%nat -> Forall word_ok (item_words o).
Proof.
  unfold item_ok, item_words. intros [Hx Hd]%andb_true_iff Hn. rewrite length_app in Hn. cbn [length] in Hn.
  apply bool_decide_eq_true in Hd. pose proof (He _ Hx ltac:(lia)). apply Forall_app. split; [done|]. apply Forall_cons. split; [|words].
  clear -Hd. member Hd; match goal with E : Direction o = str ?k |- _ => rewrite E; by apply (kw_ok k) end.
Qed.

Lemma select_words f : printable_select (StmtSelect f) = true -> (length (print_select (StmtSelect f)) <= n)%nat ->
  Forall word_ok (print_select (StmtSelect f)).
Proof.
  intros Hq Hn. apply printable_clauses in Hq as (_ & Hcols & Hfrom & Hjoins & Hwh & Hgr & Hha & Hor & Hli & Hof & Hun).
  rewrite print_tail in *. cbn [length] in Hn. rewrite !length_app in Hn.
  assert (Hlen : forall i w, tail_parts f !! i = Some w -> (length w < n)%nat) by (intros i w Hw; pose proof (tail_length f i w Hw); lia).
  apply Forall_cons. split; [known|]. apply Forall_app. split; [by destruct (Distinct f); cbn [flag]; words|].
  apply Forall_app. split.
  { apply commas_ok, map_ok. intros c Hin. pose proof (commas_length column_words c _ Hin).
    apply column_words_ok; [by apply (forallb_elem _ _ _ Hcols)|lia]. }
  apply concat_ok. unfold tail_parts. repeat (apply Forall_cons; split); [..|by apply Forall_nil].
  - specialize (Hlen 0%nat _ eq_refl). destruct (From f) as [c|]; [|constructor]. cbn [from_clause_words length] in *.
    apply Forall_cons. split; [known|apply from_words_ok; [done|lia]].
  - specialize (Hlen 1%nat _ eq_refl). apply concat_ok, map_ok. intros j Hin. pose proof (concat_length join_words j _ Hin).
    apply join_words_ok; [by apply (forallb_elem _ _ _ Hjoins)|lia].
  - apply clause_words_ok; [words|done|]. specialize (Hlen 2%nat _ eq_refl). lia.
  - apply opt_words_ok; [words|by apply names_words].
  - apply clause_words_ok; [words|done|]. specialize (Hlen 4%nat _ eq_refl). lia.
  - specialize (Hlen 5%nat _ eq_refl). destruct (OrderBy f) as [|o l]; [constructor|]. cbn [order_words length] in *.
    do 2 (apply Forall_cons; split; [known|]). apply commas_ok, map_ok. intros x Hin. pose proof (commas_length item_words x _ Hin).
    apply item_words_ok; [by apply (forallb_elem _ _ _ Hor)|lia].
  - apply clause_words_ok; [words|done|]. specialize (Hlen 6%nat _ eq_refl). lia.
  - apply clause_words_ok; [words|done|]. specialize (Hlen 7%nat _ eq_refl). lia.
  - specialize (Hlen 8%nat _ eq_refl). destruct (Union f) as [|q [|]]; [constructor| |done]. cbn [map concat] in *.
    rewrite app_nil_r in *. unfold union_words in *. cbn [length] in Hlen. rewrite length_app in Hlen.
    pose proof (Hs q Hun ltac:(lia)). apply Forall_cons. split; [known|]. apply Forall_app. split; [|done].
    by destruct (UnionAll f); cbn [flag]; words.
Qed.
End Words.

Lemma words_ok d : (forall x, printable x = true -> (length (print x) < d)%nat -> Forall word_ok (print x)) /\
  (forall q, printable_select q = true -> (length (print_select q) < d)%nat -> Forall word_ok (print_select q)).
Proof.
  induction d as [|d [IHe IHs]]; [split; intros; lia|]. split.
  - intros x Hx Hn. apply (expression_words d IHe IHs); [done|lia].
  - intros [f] Hq Hn. apply (select_words d IHe IHs); [done|lia].
Qed.

(** ** From the text *)

Lemma lex_spaced ws : Forall word_ok ws -> lex (NewParser (spaced ws)) = mean ws ++ [(TokEOF, [])].
Proof.
  intros Hws. unfold NewParser, lex. cbn [tokens ppos]. unfold spaced. rewrite Tokenize_write.
  - change (default [] (Some ?l)) with l. rewrite drop_0. generalize 0%nat as from. clear Hws.
    induction ws as [|w ws IH]; intros from; [done|]. cbn [map tokens_of]. rewrite IH. cbn [TType TValue]. by rewrite <- surjective_pairing.
  - apply Forall_map. eapply Forall_impl; [exact Hws|]. intros w Hw. split_and!; [done|done|by repeat constructor].
Qed.

Lemma ParseString_select_ok q : printable_select q = true -> ParseString (spaced (print_select q)) = Ok (SelectStmt q).
Proof.
  intros Hq. pose proof (proj2 (words_ok (S (length (print_select q)))) q Hq ltac:(lia)) as Hw.
  pose proof (lex_spaced _ Hw) as Hl. set (p := NewParser _) in *. unfold ParseString, Parse. fold p.
  pose proof (cur_lex p) as Hc. rewrite Hl in Hc. destruct (select_first q [(TokEOF, [])]) as [v E]. rewrite E in Hc.
  cbn [head hd] in Hc. injection Hc as Ht Hv. unfold current. rewrite bind_gets, Ht. cbn [bool_decide negb].
  rewrite bool_decide_eq_true_2 by done. cbn [negb]. unfold statements. cbn [parse_case]. rewrite Hv.
  rewrite bool_decide_eq_true_2 by done.
  destruct (goes_parseSelect q p [(TokEOF, [])] Hq) as (p' & Hp & _); [by right; left|by rewrite Hl|].
  by rewrite (bind_ok _ _ _ _ _ Hp).
Qed.

(** C3: every SELECT that has a text, however nested, with joins,
    subqueries, CASE, IN, BETWEEN, LIKE, unions and every operator the lexer
    knows, is what [ParseString] answers on that text: no clause, operand or
    name is lost, reordered or regrouped. *)
Theorem ParseString_select q : printable_select q = true -> ParseString (spaced (print_select q)) = Ok (SelectStmt q).
Proof. exact (ParseString_select_ok q). Qed.
End Text.

(** [SELECT DISTINCT a.id, COUNT( * ) AS n FROM (SELECT * FROM t) AS a LEFT JOIN b ON a.id = b.id
    WHERE NOT (a.x LIKE 'it''s%' OR a.y IN (1, 2)) GROUP BY id ORDER BY n DESC LIMIT 5 UNION ALL SELECT 1] *)
Definition sample_query : Select :=
  let one := ExprLiteral (GInt KInt64 1) in
  let plain cols from := mkSelectFields false cols from [] None [] None [] None None [] false in
  StmtSelect (mkSelectFields true
    [mkSelectColumn (Some (ExprColumn (str "a") (str "id"))) [] [] false;
     mkSelectColumn (Some (ExprFunction (str "COUNT") [ExprStar []])) (str "n") [] false]
    (Some (mkFrom [] [] (str "a") (Some (StmtSelect (plain [mkSelectColumn None [] [] true] (Some (mkFrom (str "t") [] [] None)))))))
    [mkJoin (str "LEFT") (str "b") [] (Some (ExprBinaryOp (ExprColumn (str "a") (str "id")) (str "=") (ExprColumn (str "b") (str "id")))) []]
    (Some (ExprUnaryOp (str "NOT") (ExprBinaryOp
      (ExprBinaryOp (ExprColumn (str "a") (str "x")) (str "LIKE") (ExprLiteral (GString (str "it's%"))))
      (str "OR") (ExprIn (ExprColumn (str "a") (str "y")) [one; ExprLiteral (GInt KInt64 2)]))))
    [str "id"] None [mkOrder (ExprColumn [] (str "n")) (str "DESC")] (Some (ExprLiteral (GInt KInt64 5))) None
    [StmtSelect (plain [mkSelectColumn (Some one) [] [] false] None)] true).

Theorem ParseString_select_witness : @printable_select plain_runtime sample_query = true /\
  @ParseString plain_runtime (spaced (print_select sample_query)) = Ok (SelectStmt sample_query).
Proof.
  assert (Hq : @printable_select plain_runtime sample_query = true) by (vm_compute; reflexivity).
  split; [exact Hq|]. exact (ParseString_select sample_query Hq).
Defined.

(** ** What the parser does not read

    The text after a statement is ignored, so that an operator the grammar
    does not know ends the query silently: the lexer makes every asterisk a
    star, never the operator that [parseMultiplicativeExpr] looks for. *)
Section Ignored.
#[local] Existing Instance plain_runtime.

Definition select_literal (n : Z) : Statement :=
  SelectStmt (StmtSelect (mkSelectFields false [mkSelectColumn (Some (ExprLiteral (GInt KInt64 n))) [] [] false]
    None [] None [] None [] None None [] false)).

(** A product is read as its first factor. *)
Example product_is_factor : ParseString (str "SELECT 2 * 3") = Ok (select_literal 2).
Proof. vm_compute. reflexivity. Qed.

(** NOT IN is not read: the condition is dropped. *)
Example not_in_dropped : ParseString (str "SELECT 2 NOT IN (3)") = Ok (select_literal 2).
Proof. vm_compute. reflexivity. Qed.

(** ADD and COLUMN are no keywords, so ALTER TABLE has no action. *)
Example alter_adds_nothing : exists t, ParseString (str "ALTER TABLE t ADD COLUMN x INT") = Ok (AlterTableStmt t []).
Proof. eexists. vm_compute. reflexivity. Qed.
End Ignored.
