(* ===== verification/Functions.v ===== *)
(** * The function library (function/functions.go)

    The functions SQL expressions call, by name. The text functions work on
    characters, the others on the conversions of [Types]. Go panics where a
    slice bound or a repetition count is negative: those are [Panic] here.
    The mathematical functions, image headers, and the functions of the host
    (files, folders, the clock, random numbers) belong to the runtime. *)

From S2P Require Import Prelude GoLib Types.
Local Open Scope Z_scope.

(** ** Dates (package time)

    An instant is its number of nanoseconds since the epoch, in UTC. Dates are
    those of the proleptic Gregorian calendar. *)

Definition nanos_per_second : Z := 1000000000.
Definition nanos_per_hour : Z := 3600 * nanos_per_second.
Definition nanos_per_day : Z := 86400 * nanos_per_second.

(** Days since the epoch of a date; the day may be out of its month. The
    year starts in March, so that a leap day is its last. *)
Definition days_of_civil (year month day : Z) : Z :=
  let y := if month <=? 2 then year - 1 else year in
  let mp := if month <=? 2 then month + 9 else month - 3 in
  let yoe := y mod 400 in
  y / 400 * 146097 + (yoe * 365 + yoe / 4 - yoe / 100 + ((153 * mp + 2) / 5 + day - 1)) - 719468.

(** The date of a day of a 400-year cycle. *)
Definition civil_of_doe (doe : Z) : Z * Z * Z :=
  let yoe := (doe - doe / 1460 + doe / 36524 - doe / 146096) / 365 in
  let doy := doe - (365 * yoe + yoe / 4 - yoe / 100) in
  let mp := (5 * doy + 2) / 153 in
  let day := doy - (153 * mp + 2) / 5 + 1 in
  let month := if mp <? 10 then mp + 3 else mp - 9 in
  ((if month <=? 2 then yoe + 1 else yoe), month, day).

Definition civil_of_days (days : Z) : Z * Z * Z :=
  let z := days + 719468 in
  let '(y, m, d) := civil_of_doe (z mod 146097) in (y + z / 146097 * 400, m, d).

Definition day_of (t : Time) : Z := t / nanos_per_day.
Definition Year (t : Time) : Z := (civil_of_days (day_of t)).1.1.
Definition Month (t : Time) : Z := (civil_of_days (day_of t)).1.2.
Definition Day (t : Time) : Z := (civil_of_days (day_of t)).2.
Definition Hour (t : Time) : Z := t mod nanos_per_day / nanos_per_hour.
Definition Minute (t : Time) : Z := t mod nanos_per_hour / (60 * nanos_per_second).
Definition Second (t : Time) : Z := t mod (60 * nanos_per_second) / nanos_per_second.

(** Sunday is 0; the epoch was a Thursday. *)
Definition Weekday (t : Time) : Z := (day_of t + 4) mod 7.
Definition YearDay (t : Time) : Z := day_of t - days_of_civil (Year t) 1 1 + 1.

(** The week of the Thursday of the week of [t], a week starting on Monday. *)
Definition ISOWeek (t : Time) : Z :=
  let shift := 3 - (Weekday t + 6) mod 7 in
  (YearDay (t + shift * nanos_per_day) - 1) / 7 + 1.

(** time.Date: a month out of 1..12 changes the year. *)
Definition Date (year month day hour min sec nsec : Z) : Time :=
  (days_of_civil (year + (month - 1) / 12) ((month - 1) mod 12 + 1) 1 + (day - 1)) * nanos_per_day
  + hour * nanos_per_hour + min * (60 * nanos_per_second) + sec * nanos_per_second + nsec.

Definition AddDate (t : Time) (years months days : Z) : Time :=
  Date (Year t + years) (Month t + months) (Day t + days) 0 0 0 0 + t mod nanos_per_day.

(** [t.Sub(u)]: a duration is an int64 of nanoseconds, which saturates. *)
Definition Sub (t u : Time) : Z := Z.max (- 2 ^ 63) (Z.min (2 ^ 63 - 1) (t - u)).

(** ** The two maps are inverse *)

#[local] Ltac Zify.zify_post_hook ::= Z.to_euclidean_division_equations.

(** The year of the cycle, and the day of that year. *)
Lemma year_of_cycle doe yoe : 0 <= doe < 146097 ->
  yoe = (doe - doe / 1460 + doe / 36524 - doe / 146096) / 365 ->
  0 <= yoe < 400 /\ 0 <= doe - (365 * yoe + yoe / 4 - yoe / 100) <= 365.
Proof.
  intros Hd ->.
  assert (H2 : doe / 36524 = 0 \/ doe / 36524 = 1 \/ doe / 36524 = 2 \/ doe / 36524 = 3 \/ doe / 36524 = 4) by lia.
  assert (H3 : doe / 146096 = 0 \/ doe / 146096 = 1) by lia.
  destruct H2 as [H2|[H2|[H2|[H2|H2]]]], H3 as [H3|H3]; rewrite H2, H3; lia.
Qed.

Lemma month_of_year doy mp : 0 <= doy <= 365 -> mp = (5 * doy + 2) / 153 ->
  0 <= mp <= 11 /\ 1 <= doy - (153 * mp + 2) / 5 + 1 <= 31.
Proof. intros H ->. lia. Qed.

Lemma days_of_civil_of_doe doe : 0 <= doe < 146097 -> let '(y, m, d) := civil_of_doe doe in
  days_of_civil y m d = doe - 719468 /\ 1 <= m <= 12 /\ 1 <= d <= 31.
Proof.
  intros Hd. unfold civil_of_doe. set (yoe := (doe - _ + _ - _) / 365).
  destruct (year_of_cycle doe yoe Hd eq_refl) as [Hy Hdoy]. set (doy := doe - (365 * _ + _ - _)) in *.
  set (mp := (5 * doy + 2) / 153). destruct (month_of_year doy mp Hdoy eq_refl) as [Hmp Hday].
  clearbody mp yoe. unfold days_of_civil. destruct (Z.ltb_spec mp 10) as [Hm|Hm].
  - replace (mp + 3 <=? 2) with false by lia. rewrite Z.mod_small, Z.div_small by lia. split; [unfold doy in *; lia|lia].
  - replace (mp - 9 <=? 2) with true by lia. replace (yoe + 1 - 1) with yoe by lia.
    rewrite Z.mod_small, Z.div_small by lia. replace (mp - 9 + 9) with mp by lia. split; [unfold doy in *; lia|lia].
Qed.

Lemma days_shift y m d k : days_of_civil (y + k * 400) m d = days_of_civil y m d + k * 146097.
Proof.
  unfold days_of_civil. cbv zeta.
  destruct (m <=? 2).
  - replace (y + k * 400 - 1) with (y - 1 + k * 400) by lia. rewrite Z.div_add, Z.mod_add by lia. lia.
  - rewrite Z.div_add, Z.mod_add by lia. lia.
Qed.

Lemma days_of_civil_of_days z : let '(y, m, d) := civil_of_days z in
  days_of_civil y m d = z /\ 1 <= m <= 12 /\ 1 <= d <= 31.
Proof.
  unfold civil_of_days. pose proof (days_of_civil_of_doe ((z + 719468) mod 146097) (Z.mod_pos_bound _ 146097 eq_refl)) as Hd.
  destruct (civil_of_doe _) as [[y m] d]. cbv beta iota zeta in *.
  rewrite days_shift. pose proof (Z.div_mod (z + 719468) 146097 ltac:(lia)). lia.
Qed.

(** Adding days moves an instant by as many days. *)
Lemma days_linear y m d k : days_of_civil y m (d + k) = days_of_civil y m d + k.
Proof. unfold days_of_civil. cbv zeta. lia. Qed.

Lemma AddDate_days t k : AddDate t 0 0 k = t + k * nanos_per_day.
Proof.
  unfold AddDate, Date, Year, Month, Day. pose proof (days_of_civil_of_days (day_of t)) as Hd.
  destruct (civil_of_days (day_of t)) as [[y m] d]. cbn [fst snd]. destruct Hd as (Hd & Hm & _).
  rewrite !Z.add_0_r. replace ((m - 1) / 12) with 0 by (symmetry; apply Z.div_small; lia).
  rewrite Z.mod_small by lia. rewrite Z.add_0_r. replace (m - 1 + 1) with m by lia.
  replace d with (1 + (d - 1)) in Hd by lia. rewrite days_linear in Hd.
  unfold day_of in Hd. pose proof (Z.div_mod t nanos_per_day ltac:(done)). lia.
Qed.

Example leap_year : civil_of_days (days_of_civil 2024 2 29) = (2024, 2, 29) /\ days_of_civil 2024 2 30 = days_of_civil 2024 3 1.
Proof. done. Qed.
Example iso_week : ISOWeek (Date 2021 1 3 12 0 0 0) = 53 /\ ISOWeek (Date 2024 12 30 0 0 0 0) = 1 /\ Weekday (Date 2024 2 29 0 0 0 0) = 4.
Proof. vm_compute. done. Qed.

Inductive FunError :=
  | Requires (what : bytes)            (* wrong number of arguments *)
  | UnknownFunction (name : bytes)
  | Conversion (e : ConvError)
  | NegativeRoot | DivisionByZero
  | InvalidDate (s : bytes) | UnsupportedCast (type : bytes)
  | InvalidBase64 | OddHex | InvalidHexData
  | NotBlob (what : bytes).

Class FunctionRuntime := {
  float_on_error : bytes -> float64;   (* what strconv.ParseFloat answers along with an error *)
  math_pow10 : Z -> float64;
  math_pow : float64 -> float64 -> float64;
  math_log : float64 -> float64;
  math_log10 : float64 -> float64;
  math_log2 : float64 -> float64;
  math_exp : float64 -> float64;
  math_sin : float64 -> float64;
  math_cos : float64 -> float64;
  math_tan : float64 -> float64;
  math_pi : float64;
  image_config : bytes -> option (Z * Z * bytes);   (* image.DecodeConfig *)
  host : bytes -> list Value -> outcome FunError Value
}.

Abbreviation FM := (outcome FunError).
Abbreviation Function := (list Value -> FM Value).

(** ** package strings *)

Definition has_prefix (p s : bytes) : bool := bytes_eqb (take (length p) s) p.

(** strings.Index *)
Fixpoint index (sub s : bytes) : option nat :=
  if has_prefix sub s then Some 0%nat
  else match s with
       | [] => None
       | _ :: t => S <$> index sub t
       end.

(** strings.ReplaceAll: where [old] is empty, [new] goes before every
    character and at the end. *)
Fixpoint replace_fuel (fuel : nat) (old new s : bytes) : bytes :=
  match fuel with
  | O => s
  | S n => match index old s with
           | Some i => take i s ++ new ++ replace_fuel n old new (drop (i + length old) s)
           | None => s
           end
  end.
Definition replace_all (s old new : bytes) : bytes :=
  match old with
  | [] => new ++ concat (map (fun r => r ++ new) (map encode_rune (runes s)))
  | _ => replace_fuel (S (length s)) old new s
  end.

(** strings.TrimLeft, strings.TrimRight and strings.Trim with a set of
    characters. *)
Fixpoint trim_left_loop (fuel : nat) (cut : list Z) (s : bytes) : bytes :=
  match fuel, s with
  | S n, _ :: _ => let '(r, w) := decode_rune s in
                   if bool_decide (r ∈ cut) then trim_left_loop n cut (drop w s) else s
  | _, _ => s
  end.
Definition trim_left_set (s cut : bytes) : bytes := trim_left_loop (length s) (runes cut) s.
(** The length of [s] without its last characters that are in the set. *)
Fixpoint kept_length (fuel : nat) (cut : list Z) (pos last : nat) (s : bytes) : nat :=
  match fuel, s with
  | S n, _ :: _ => let '(r, w) := decode_rune s in
                   kept_length n cut (pos + w) (if bool_decide (r ∈ cut) then last else pos + w)%nat (drop w s)
  | _, _ => last
  end.
Definition trim_right_set (s cut : bytes) : bytes := take (kept_length (length s) (runes cut) 0 0 s) s.
Definition trim_set (s cut : bytes) : bytes := trim_right_set (trim_left_set s cut) cut.

(** strings.Repeat, which panics on a negative count or a length that
    overflows an int. *)
Definition repeat_text (s : bytes) (n : Z) : FM bytes :=
  if (n <? 0) || ((0 <? n) && (2 ^ 63 <=? zlen s * n)) then Panic else Ok (concat (repeat s (Z.to_nat n))).

(** [string(rs[lo:hi])]: a panic unless [0 <= lo <= hi <= len]. *)
Definition rune_slice (rs : list Z) (lo hi : Z) : FM bytes :=
  if (0 <=? lo) && (lo <=? hi) && (hi <=? zlen rs) then Ok (of_runes (slice (Z.to_nat lo) (Z.to_nat hi) rs)) else Panic.

Definition join_text (sep : bytes) (l : list bytes) : bytes :=
  match l with [] => [] | h :: t => h ++ concat (map (fun x => sep ++ x) t) end.

Example replaced : replace_all (str "aXbXX") (str "X") (str "--") = str "a--b----".
Proof. reflexivity. Qed.
Example trimmed : trim_set (str "xxayx") (str "xy") = str "a".
Proof. reflexivity. Qed.

Section Library.
Context `{GoRuntime} `{FunctionRuntime}.

(** ** Arguments *)

Definition converted {A} (m : outcome ConvError A) : FM A :=
  match m with Ok a => Ok a | Err e => Err (Conversion e) | Panic => Panic | Hang => Hang end.

(** [n, _ := v.ToInt64()] and [f, _ := v.ToFloat64()] *)
Definition int_of (v : Value) : Z :=
  match ToInt64 v with
  | Ok n => n
  | _ => if IsNull v then 0 else match Data v with GString s => parse_int_value s | _ => 0 end
  end.
Definition float_of (v : Value) : float64 :=
  match ToFloat64 v with
  | Ok f => f
  | _ => if IsNull v then float_of_Z 0 else match Data v with GString s => float_on_error s | _ => float_of_Z 0 end
  end.

(** One argument, NULL giving NULL. *)
Definition one (name : string) (f : Value -> FM Value) : Function := fun args =>
  match args with
  | [v] => if IsNull v then Ok NewNullValue else f v
  | _ => Err (Requires (str name))
  end.
(** Two arguments, of which the first, or either, gives NULL when NULL. *)
Definition first_of_two (name : string) (f : Value -> Value -> FM Value) : Function := fun args =>
  match args with
  | [v; w] => if IsNull v then Ok NewNullValue else f v w
  | _ => Err (Requires (str name))
  end.
Definition two (name : string) (f : Value -> Value -> FM Value) : Function := fun args =>
  match args with
  | [v; w] => if IsNull v || IsNull w then Ok NewNullValue else f v w
  | _ => Err (Requires (str name))
  end.
(** At least one argument, the first giving NULL when NULL. *)
Definition at_least_one (name : string) (f : Value -> list Value -> FM Value) : Function := fun args =>
  match args with
  | v :: rest => if IsNull v then Ok NewNullValue else f v rest
  | [] => Err (Requires (str name))
  end.

Definition text_of (f : Value -> bytes) : Value -> FM Value := fun v => Ok (NewStringValue (f v)).

(** A function of a number, with or without the error of its conversion. *)
Definition of_float (f : float64 -> FM Value) : Value -> FM Value := fun v => x ← converted (ToFloat64 v); f x.
Definition of_float_value (f : float64 -> float64) : Value -> FM Value := fun v => Ok (NewFloatValue (f (float_of v))).
Definition of_time (f : Time -> FM Value) : Value -> FM Value := fun v => t ← converted (ToTime v); f t.

(** ** String functions *)

Definition fnConcat : Function := fun args =>
  match args with
  | [] => Err (Requires (str "CONCAT"))
  | _ => Ok (NewStringValue (concat (map (fun v => if IsNull v then [] else ToString v) args)))
  end.

(** The length of binary data, else of the text by [len]. *)
Definition length_by (len : bytes -> Z) (v : Value) : FM Value :=
  if Type_ v =? TypeBlob then
    match Data v with
    | GBytes b => Ok (NewIntValue (zlen b))
    | GString s => Ok (NewIntValue (zlen s))
    | _ => Ok (NewIntValue (len (ToString v)))
    end
  else Ok (NewIntValue (len (ToString v))).
Definition fnLength : Function := one "LENGTH" (length_by rune_count).
Definition fnByteLength : Function := one "BYTE_LENGTH" (length_by zlen).
Definition fnUpper : Function := one "UPPER" (text_of (fun v => to_upper (ToString v))).
Definition fnLower : Function := one "LOWER" (text_of (fun v => to_lower (ToString v))).

Definition trim_with (space : bytes -> bytes) (set : bytes -> bytes -> bytes) (v : Value) (rest : list Value) : FM Value :=
  match rest with
  | chars :: _ => Ok (NewStringValue (set (ToString v) (ToString chars)))
  | [] => Ok (NewStringValue (space (ToString v)))
  end.
Definition fnTrim : Function := at_least_one "TRIM" (trim_with trim_space trim_set).
Definition fnLTrim : Function := at_least_one "LTRIM" (trim_with (fun s => trim_left_set s (str " ")) trim_left_set).
Definition fnRTrim : Function := at_least_one "RTRIM" (trim_with (fun s => trim_right_set s (str " ")) trim_right_set).

Definition substring (s : bytes) (start : Z) (len : option Z) : FM bytes :=
  let rs := runes s in
  let start := Z.max 0 (i64 (start - 1)) in
  let stop := Z.min (zlen rs) (i64 (start + default (zlen rs) len)) in
  if zlen rs <? start then Ok [] else rune_slice rs start stop.
Definition fnSubstring : Function := fun args =>
  match args with
  | v :: start :: rest =>
    if IsNull v then Ok NewNullValue
    else t ← substring (ToString v) (int_of start) (match rest with n :: _ => Some (int_of n) | [] => None end);
         Ok (NewStringValue t)
  | _ => Err (Requires (str "SUBSTRING"))
  end.

Definition left_text (s : bytes) (n : Z) : FM bytes :=
  let rs := runes s in rune_slice rs 0 (Z.min n (zlen rs)).
Definition right_text (s : bytes) (n : Z) : FM bytes :=
  let rs := runes s in rune_slice rs (zlen rs - Z.min n (zlen rs)) (zlen rs).
Definition fnLeft : Function := first_of_two "LEFT" (fun v n => t ← left_text (ToString v) (int_of n); Ok (NewStringValue t)).
Definition fnRight : Function := first_of_two "RIGHT" (fun v n => t ← right_text (ToString v) (int_of n); Ok (NewStringValue t)).

Definition fnReplace : Function := fun args =>
  match args with
  | [v; old; new] =>
    if IsNull v then Ok NewNullValue else Ok (NewStringValue (replace_all (ToString v) (ToString old) (ToString new)))
  | _ => Err (Requires (str "REPLACE"))
  end.

Definition fnInstr : Function := fun args =>
  match args with
  | v :: w :: _ =>
    if IsNull v || IsNull w then Ok NewNullValue
    else let s := ToString v in
         match index (ToString w) s with
         | None => Ok (NewIntValue 0)
         | Some i => Ok (NewIntValue (rune_count (take i s) + 1))
         end
  | _ => Err (Requires (str "INSTR"))
  end.

(** [for int64(len(runes)) < length { runes = grow(runes) }]: each turn adds
    the padding, so that the missing characters bound the turns unless the
    padding is empty, when the loop never ends. *)
Fixpoint pad_loop (fuel : nat) (grow : list Z -> list Z) (len : Z) (rs : list Z) : FM (list Z) :=
  if zlen rs <? len then
    match fuel with O => Hang | S n => pad_loop n grow len (grow rs) end
  else Ok rs.
Definition padded (grow : list Z -> list Z) (len : Z) (rs : list Z) : FM (list Z) :=
  pad_loop (Z.to_nat (len - zlen rs)) grow len rs.

Definition lpad (s : bytes) (len : Z) (pad : bytes) : FM bytes :=
  rs ← padded (fun rs => runes pad ++ rs) len (runes s);
  if len <? zlen rs then rune_slice rs (i64 (zlen rs - len)) (zlen rs) else Ok (of_runes rs).
Definition rpad (s : bytes) (len : Z) (pad : bytes) : FM bytes :=
  rs ← padded (fun rs => rs ++ runes pad) len (runes s);
  if len <? zlen rs then rune_slice rs 0 len else Ok (of_runes rs).

Definition pad_with (name : string) (f : bytes -> Z -> bytes -> FM bytes) : Function := fun args =>
  match args with
  | v :: len :: pad :: _ =>
    if IsNull v then Ok NewNullValue
    else t ← f (ToString v) (int_of len) (ToString pad); Ok (NewStringValue t)
  | _ => Err (Requires (str name))
  end.
Definition fnLpad : Function := pad_with "LPAD" lpad.
Definition fnRpad : Function := pad_with "RPAD" rpad.

Definition fnReverse : Function := one "REVERSE" (text_of (fun v => of_runes (rev (runes (ToString v))))).
Definition fnRepeat : Function := first_of_two "REPEAT" (fun v n => t ← repeat_text (ToString v) (int_of n); Ok (NewStringValue t)).

(** ** Numeric functions *)

Definition fnAbs : Function := one "ABS" (of_float (fun f => Ok (NewFloatValue (SFabs f)))).
Definition fnRound : Function := at_least_one "ROUND" (fun v rest =>
  f ← converted (ToFloat64 v);
  let mult := math_pow10 (match rest with p :: _ => int_of p | [] => 0 end) in
  Ok (NewFloatValue (fdiv (float_round (fmul f mult)) mult))).
Definition fnFloor : Function := one "FLOOR" (of_float (fun f => Ok (NewIntValue (float_to_int64 (float_floor f))))).
Definition fnCeil : Function := one "CEIL" (of_float (fun f => Ok (NewIntValue (float_to_int64 (float_ceil f))))).
Definition fnPower : Function := two "POWER" (fun v w => Ok (NewFloatValue (math_pow (float_of v) (float_of w)))).
Definition fnSqrt : Function := one "SQRT" (of_float (fun f =>
  if SFltb f (float_of_Z 0) then Err NegativeRoot else Ok (NewFloatValue (SFsqrt 53 1024 f)))).
(** [a % b]: the remainder of the truncated division. *)
Definition fnMod : Function := two "MOD" (fun v w =>
  if int_of w =? 0 then Err DivisionByZero else Ok (NewIntValue (Z.rem (int_of v) (int_of w)))).
Definition fnSign : Function := one "SIGN" (of_float (fun f =>
  Ok (NewIntValue (if SFltb (float_of_Z 0) f then 1 else if SFltb f (float_of_Z 0) then -1 else 0)))).

(** ** Aggregates *)

Definition fnCount : Function := fun args => Ok (NewIntValue (zlen (List.filter (fun v => negb (IsNull v)) args))).

(** The sum and the number of the values that are not NULL. *)
Fixpoint sum_loop (args : list Value) (sum : float64) (count : Z) : FM (float64 * Z) :=
  match args with
  | [] => Ok (sum, count)
  | v :: rest => if IsNull v then sum_loop rest sum count
                 else f ← converted (ToFloat64 v); sum_loop rest (fadd sum f) (count + 1)
  end.
Definition fnSum : Function := fun args => '(sum, _) ← sum_loop args (float_of_Z 0) 0; Ok (NewFloatValue sum).
Definition fnAvg : Function := fun args =>
  '(sum, count) ← sum_loop args (float_of_Z 0) 0;
  if count =? 0 then Ok NewNullValue else Ok (NewFloatValue (fdiv sum (float_of_Z count))).

(** The first value, replaced by each later one that is better. *)
Definition best (better : Z -> bool) : Function := fun args =>
  match args with
  | [] => Ok NewNullValue
  | v :: rest => Ok (fold_left (fun m w => if negb (IsNull w) && better (Compare w m) then w else m) rest v)
  end.
Definition fnMin : Function := best (fun c => c <? 0).
Definition fnMax : Function := best (fun c => 0 <? c).

(** ** Dates *)

Definition fnDate : Function := one "DATE" (fun v =>
  let s := ToString v in
  match time_parse (str "2006-01-02") s with Some t => Ok (NewDateValue t) | None => Err (InvalidDate s) end).
Definition date_field (name : string) (f : Time -> Z) : Function := one name (of_time (fun t => Ok (NewIntValue (f t)))).
Definition fnYear : Function := date_field "YEAR" Year.
Definition fnMonth : Function := date_field "MONTH" Month.
Definition fnDay : Function := date_field "DAY" Day.
Definition fnHour : Function := date_field "HOUR" Hour.
Definition fnMinute : Function := date_field "MINUTE" Minute.
Definition fnSecond : Function := date_field "SECOND" Second.
Definition fnQuarter : Function := date_field "QUARTER" (fun t => (Month t - 1) / 3 + 1).
Definition fnWeek : Function := date_field "WEEK" ISOWeek.
Definition fnDayOfWeek : Function := date_field "DAYOFWEEK" (fun t => Weekday t + 1).
Definition fnDayOfYear : Function := date_field "DAYOFYEAR" YearDay.

(** [d.Hours()] of a duration, then the whole days. *)
Definition duration_days (d : Z) : Z :=
  let hours := fadd (float_of_Z (Z.quot d nanos_per_hour)) (fdiv (float_of_Z (Z.rem d nanos_per_hour)) (float_of_Z nanos_per_hour)) in
  float_to_int64 (fdiv hours (float_of_Z 24)).
Definition fnDateDiff : Function := two "DATEDIFF" (fun v w =>
  t ← converted (ToTime v); u ← converted (ToTime w); Ok (NewIntValue (duration_days (Sub t u)))).
Definition fnDateAdd : Function := first_of_two "DATE_ADD" (fun v n =>
  t ← converted (ToTime v); Ok (NewDateValue (AddDate t 0 0 (int_of n)))).
Definition fnDateSub : Function := first_of_two "DATE_SUB" (fun v n =>
  t ← converted (ToTime v); Ok (NewDateValue (AddDate t 0 0 (i64 (- int_of n))))).

Definition date_verbs : list (string * string) :=
  [("%Y", "2006"); ("%m", "01"); ("%d", "02"); ("%H", "15"); ("%i", "04"); ("%s", "05")]%string.
Definition fnDateFormat : Function := first_of_two "DATE_FORMAT" (fun v w =>
  t ← converted (ToTime v);
  Ok (NewStringValue (time_format (fold_left (fun s '(verb, layout) => replace_all s (str verb) (str layout)) date_verbs (ToString w)) t))).

(** ** Conversions and conditions *)

Definition fnCast : Function := fun args =>
  match args with
  | v :: type :: _ =>
    if IsNull v then Ok NewNullValue
    else
      let target := to_upper (ToString type) in
      let among names := existsb (fun n => bytes_eqb target (str n)) names in
      if among ["INT"; "INTEGER"]%string then n ← converted (ToInt64 v); Ok (NewIntValue n)
      else if among ["FLOAT"; "DOUBLE"]%string then f ← converted (ToFloat64 v); Ok (NewFloatValue f)
      else if among ["VARCHAR"; "CHAR"; "STRING"; "TEXT"]%string then Ok (NewStringValue (ToString v))
      else Err (UnsupportedCast target)
  | _ => Err (Requires (str "CAST"))
  end.
Definition fnToString : Function := one "TO_STRING" (text_of ToString).
Definition fnToInt : Function := one "TO_INT" (fun v => n ← converted (ToInt64 v); Ok (NewIntValue n)).
Definition fnToFloat : Function := one "TO_FLOAT" (of_float (fun f => Ok (NewFloatValue f))).

Definition fnCoalesce : Function := fun args =>
  match args with
  | [] => Err (Requires (str "COALESCE"))
  | _ => Ok (default NewNullValue (List.find (fun v => negb (IsNull v)) args))
  end.
Definition fnNullif : Function := fun args =>
  match args with
  | [v; w] => if Compare v w =? 0 then Ok NewNullValue else Ok v
  | _ => Err (Requires (str "NULLIF"))
  end.
Definition fnIf : Function := fun args =>
  match args with
  | [c; v; w] => n ← converted (ToInt64 c); if negb (n =? 0) then Ok v else Ok w
  | _ => Err (Requires (str "IF"))
  end.
Definition fnIsNull : Function := fun args =>
  match args with [v] => Ok (NewIntValue (if IsNull v then 1 else 0)) | _ => Err (Requires (str "ISNULL")) end.
Definition fnIsNotNull : Function := fun args =>
  match args with [v] => Ok (NewIntValue (if IsNull v then 0 else 1)) | _ => Err (Requires (str "IS_NOT_NULL")) end.
Definition fnTypeof : Function := fun args =>
  match args with
  | [v] => Ok (NewStringValue (if IsNull v then str "NULL" else DataType_String (Type_ v)))
  | _ => Err (Requires (str "TYPEOF"))
  end.

(** ** Additional numeric functions *)

(** Euclid's algorithm on int64: the remainder is smaller in absolute value
    at each turn, so that the first one bounds the turns. *)
Fixpoint gcd_loop (fuel : nat) (a b : Z) : Z :=
  if b =? 0 then a else match fuel with O => a | S n => gcd_loop n b (Z.rem a b) end.
Definition gcd (a b : Z) : Z := gcd_loop (Z.to_nat (Z.abs b)) a b.
(** [a * b / gcd(a, b)] *)
Definition lcm (a b : Z) : FM Z :=
  if gcd a b =? 0 then Panic else Ok (i64 (Z.quot (i64 (a * b)) (gcd a b))).
Definition fnGcd : Function := two "GCD" (fun v w => Ok (NewIntValue (gcd (int_of v) (int_of w)))).
Definition fnLcm : Function := two "LCM" (fun v w => n ← lcm (int_of v) (int_of w); Ok (NewIntValue n)).

Definition fnLog : Function := at_least_one "LOG" (fun v rest =>
  match rest with
  | [] => Ok (NewFloatValue (math_log (float_of v)))
  | base :: _ => Ok (NewFloatValue (fdiv (math_log (float_of v)) (math_log (float_of base))))
  end).
Definition fnLog10 : Function := one "LOG10" (of_float_value math_log10).
Definition fnLog2 : Function := one "LOG2" (of_float_value math_log2).
Definition fnExp : Function := one "EXP" (of_float_value math_exp).
Definition fnRadians : Function := one "RADIANS" (of_float_value (fun x => fdiv (fmul x math_pi) (float_of_Z 180))).
Definition fnDegrees : Function := one "DEGREES" (of_float_value (fun x => fdiv (fmul x (float_of_Z 180)) math_pi)).
Definition fnSin : Function := one "SIN" (of_float_value math_sin).
Definition fnCos : Function := one "COS" (of_float_value math_cos).
Definition fnTan : Function := one "TAN" (of_float_value math_tan).

(** ** Additional string and date functions *)

Definition fnConcatWs : Function := fun args =>
  match args with
  | sep :: ((_ :: _) as rest) =>
    if IsNull sep then Ok NewNullValue
    else Ok (NewStringValue (join_text (ToString sep) (map ToString (List.filter (fun v => negb (IsNull v)) rest))))
  | _ => Err (Requires (str "CONCAT_WS"))
  end.
Definition fnSpace : Function := one "SPACE" (fun v =>
  t ← repeat_text (str " ") (Z.max 0 (int_of v)); Ok (NewStringValue t)).
Definition fnStrcmp : Function := two "STRCMP" (fun v w =>
  let s := ToString v in let t := ToString w in
  Ok (NewIntValue (if bytes_ltb s t then -1 else if bytes_ltb t s then 1 else 0))).

Definition fnMakeDate : Function := two "MAKEDATE" (fun v w =>
  Ok (NewDateValue (AddDate (Date (int_of v) 1 1 0 0 0 0) 0 0 (i64 (int_of w - 1))))).
Definition fnMakeTime : Function := fun args =>
  match args with
  | [h; m; s] =>
    if IsNull h || IsNull m || IsNull s then Ok NewNullValue
    else
      let second := float_of s in
      let sec := float_to_int64 second in
      let nsec := float_to_int64 (fmul (fsub second (float_of_Z sec)) (float_of_Z nanos_per_second)) in
      Ok (NewDatetimeValue (Date 0 1 1 (int_of h) (int_of m) sec nsec))
  | _ => Err (Requires (str "MAKETIME"))
  end.
(** The first day of the next month, less a day. *)
Definition fnLastDay : Function := one "LAST_DAY" (of_time (fun t =>
  Ok (NewDateValue (AddDate (AddDate t 0 1 (- Day t + 1)) 0 0 (-1))))).

(** ** Images and binary data *)

Record ImageInfo := mkImageInfo { Width : Z; Height : Z; Format : bytes; ISize : Z; Mime : bytes }.

Definition formatToMime : list (string * string) :=
  [("png", "image/png"); ("jpeg", "image/jpeg"); ("jpg", "image/jpeg"); ("gif", "image/gif");
   ("bmp", "image/bmp"); ("tiff", "image/tiff")]%string.

(** Do the bytes start with these? *)
Fixpoint starts (magic : list Z) (data : bytes) : bool :=
  match magic, data with
  | [], _ => true
  | m :: magic, b :: data => (byte.unsigned b =? m) && starts magic data
  | _, [] => false
  end.

Definition detectImageFormat (data : bytes) : bytes :=
  if zlen data <? 8 then []
  else if starts [0x89; 0x50; 0x4E; 0x47] data then str "png"
  else if starts [0xFF; 0xD8; 0xFF] data then str "jpeg"
  else if starts [0x47; 0x49; 0x46; 0x38] data then str "gif"
  else if starts [0x42; 0x4D] data then str "bmp"
  else if starts [0x49; 0x49] data || starts [0x4D; 0x4D] data then str "tiff"
  else if starts [0x52; 0x49; 0x46; 0x46] data && starts [0x57; 0x45; 0x42; 0x50] (drop 8 data) then str "webp"
  else [].

Definition mime_of (format : bytes) : bytes :=
  match List.find (fun p => bytes_eqb format (str p.1)) formatToMime with
  | Some (_, mime) => str mime
  | None => str "application/octet-stream"
  end.

(** No information on empty data. *)
Definition parseImageInfo (data : bytes) : option ImageInfo :=
  match data with
  | [] => None
  | _ =>
    let '(w, h, format) :=
      match image_config data with
      | Some c => c
      | None => (0, 0, match detectImageFormat data with [] => str "unknown" | f => f end)
      end in
    Some (mkImageInfo w h format (zlen data) (mime_of format))
  end.

Definition getImageData (v : Value) : option bytes :=
  if IsNull v then None
  else if one_of (Type_ v) [TypeImage; TypeBlob] then
    match Data v with GBytes b => Some b | _ => None end
  else None.

(** A function of the data of an image, NULL where there is none. *)
Definition of_image (name : string) (f : bytes -> option Value) : Function := fun args =>
  match args with
  | [v] => Ok (default NewNullValue (data ← getImageData v; f data))
  | _ => Err (Requires (str name))
  end.
Definition image_field (name : string) (f : ImageInfo -> Value) : Function :=
  of_image name (fun data => i ← parseImageInfo data; Some (f i)).
Definition fnImageWidth : Function := image_field "IMAGE_WIDTH" (fun i => NewIntValue (Width i)).
Definition fnImageHeight : Function := image_field "IMAGE_HEIGHT" (fun i => NewIntValue (Height i)).
Definition fnImageFormat : Function := image_field "IMAGE_FORMAT" (fun i => NewStringValue (Format i)).
Definition fnImageMime : Function := image_field "IMAGE_MIME" (fun i => NewStringValue (Mime i)).
Definition fnImageSize : Function := of_image "IMAGE_SIZE" (fun data => Some (NewIntValue (zlen data))).

(** The standard encoding, then the one for URLs. *)
Definition any_base64 (s : bytes) : FM bytes :=
  match base64_decode s with
  | Some d => Ok d
  | None => match base64url_decode s with Some d => Ok d | None => Err InvalidBase64 end
  end.

(** [data:image/...,] is dropped. *)
Definition strip_data_uri (s : bytes) : bytes :=
  if has_prefix (str "data:image/") s then
    match index (str ",") s with Some i => drop (S i) s | None => s end
  else s.

Definition fnImageFromBase64 : Function := at_least_one "IMAGE_FROM_BASE64" (fun v _ =>
  d ← any_base64 (strip_data_uri (ToString v)); Ok (NewImageValue d)).
Definition fnBlobFromBase64 : Function := at_least_one "BLOB_FROM_BASE64" (fun v _ =>
  d ← any_base64 (ToString v); Ok (NewBlobValue d)).

Definition fnImageToBase64 : Function := fun args =>
  match args with
  | [] => Err (Requires (str "IMAGE_TO_BASE64"))
  | v :: rest =>
    match getImageData v with
    | None => Ok NewNullValue
    | Some data =>
      let encoded := base64_encode data in
      let uri := match rest with w :: _ => bytes_eqb (to_lower (ToString w)) (str "datauri") | [] => false end in
      Ok (NewStringValue
        (match parseImageInfo data with
         | Some i => if uri then str "data:" ++ Mime i ++ str ";base64," ++ encoded else encoded
         | None => encoded
         end))
    end
  end.

(** The bytes of hexadecimal text, with a prefix and white space allowed. *)
Definition from_hex (s : bytes) : FM bytes :=
  let s := strip_hex s in
  if negb (zlen s mod 2 =? 0) then Err OddHex
  else match hex_decode s with Some d => Ok d | None => Err InvalidHexData end.
Definition fnImageFromHex : Function := at_least_one "IMAGE_FROM_HEX" (fun v _ => d ← from_hex (ToString v); Ok (NewImageValue d)).
Definition fnBlobFromHex : Function := at_least_one "BLOB_FROM_HEX" (fun v _ => d ← from_hex (ToString v); Ok (NewBlobValue d)).

Definition fnImageToHex : Function := fun args =>
  match args with
  | [] => Err (Requires (str "IMAGE_TO_HEX"))
  | v :: _ => Ok (match getImageData v with Some d => NewStringValue (hex_encode d) | None => NewNullValue end)
  end.

(** The text of binary data, which may be held as a string. *)
Definition of_blob (name : string) (f : bytes -> bytes) : Function := at_least_one name (fun v _ =>
  match Data v with
  | GBytes d | GString d => Ok (NewStringValue (f d))
  | _ => Err (NotBlob (str name))
  end).
Definition fnBlobToBase64 : Function := of_blob "BLOB_TO_BASE64" base64_encode.
Definition fnBlobToHex : Function := of_blob "BLOB_TO_HEX" hex_encode.

(** ** The registry *)

(** The functions of the host, by the names of their code. *)
Definition host_functions : list (list string * Function) :=
  map (fun names => (names, host (str (List.hd EmptyString names))))
    [["LOAD_FILE"]; ["FILE_EXISTS"]; ["FILE_SIZE"]; ["SAVE_FILE"]; ["LOAD_FOLDER"]; ["EXPORT_FOLDER"]; ["LIST_FOLDER"];
     ["FOLDER_FILES"]; ["LOAD_IMAGE"]; ["NOW"]; ["CURRENT_DATE"]; ["CURRENT_TIME"]; ["RAND"; "RANDOM"]; ["UUID"]]%string.

Definition Registry : list (list string * Function) :=
  [(["CONCAT"], fnConcat); (["LENGTH"; "LEN"; "CHAR_LENGTH"; "CHARACTER_LENGTH"], fnLength);
   (["BYTE_LENGTH"; "OCTET_LENGTH"], fnByteLength); (["UPPER"], fnUpper); (["LOWER"], fnLower);
   (["TRIM"], fnTrim); (["LTRIM"], fnLTrim); (["RTRIM"], fnRTrim); (["SUBSTRING"; "SUBSTR"], fnSubstring);
   (["LEFT"], fnLeft); (["RIGHT"], fnRight); (["REPLACE"], fnReplace); (["INSTR"], fnInstr); (["LPAD"], fnLpad);
   (["RPAD"], fnRpad); (["REVERSE"], fnReverse); (["REPEAT"], fnRepeat);
   (["ABS"], fnAbs); (["ROUND"], fnRound); (["FLOOR"], fnFloor); (["CEIL"; "CEILING"], fnCeil);
   (["POWER"; "POW"], fnPower); (["SQRT"], fnSqrt); (["MOD"], fnMod); (["SIGN"], fnSign);
   (["COUNT"], fnCount); (["SUM"], fnSum); (["AVG"], fnAvg); (["MIN"], fnMin); (["MAX"], fnMax);
   (["DATE"], fnDate); (["YEAR"], fnYear); (["MONTH"], fnMonth); (["DAY"], fnDay); (["HOUR"], fnHour);
   (["MINUTE"], fnMinute); (["SECOND"], fnSecond); (["DATEDIFF"], fnDateDiff); (["DATE_ADD"], fnDateAdd);
   (["DATE_SUB"], fnDateSub); (["DATE_FORMAT"], fnDateFormat);
   (["CAST"; "CONVERT"], fnCast); (["TO_STRING"], fnToString); (["TO_INT"], fnToInt); (["TO_FLOAT"], fnToFloat);
   (["COALESCE"; "IFNULL"], fnCoalesce); (["NULLIF"], fnNullif); (["IF"; "IIF"], fnIf);
   (["ISNULL"], fnIsNull); (["IS_NOT_NULL"], fnIsNotNull); (["TYPEOF"], fnTypeof);
   (["GCD"], fnGcd); (["LCM"], fnLcm); (["LOG"], fnLog); (["LOG10"], fnLog10); (["LOG2"], fnLog2); (["EXP"], fnExp);
   (["RADIANS"], fnRadians); (["DEGREES"], fnDegrees); (["SIN"], fnSin); (["COS"], fnCos); (["TAN"], fnTan);
   (["CONCAT_WS"], fnConcatWs); (["SPACE"], fnSpace); (["STRCMP"], fnStrcmp);
   (["MAKEDATE"], fnMakeDate); (["MAKETIME"], fnMakeTime); (["LAST_DAY"], fnLastDay); (["QUARTER"], fnQuarter);
   (["WEEK"], fnWeek); (["DAYOFWEEK"], fnDayOfWeek); (["DAYOFYEAR"], fnDayOfYear);
   (["IMAGE_FROM_BASE64"], fnImageFromBase64); (["IMAGE_TO_BASE64"], fnImageToBase64); (["IMAGE_WIDTH"], fnImageWidth);
   (["IMAGE_HEIGHT"], fnImageHeight); (["IMAGE_FORMAT"], fnImageFormat); (["IMAGE_SIZE"], fnImageSize);
   (["IMAGE_MIME"], fnImageMime); (["IMAGE_FROM_HEX"], fnImageFromHex); (["IMAGE_TO_HEX"], fnImageToHex);
   (["BLOB_FROM_BASE64"], fnBlobFromBase64); (["BLOB_TO_BASE64"], fnBlobToBase64); (["BLOB_FROM_HEX"], fnBlobFromHex);
   (["BLOB_TO_HEX"], fnBlobToHex)]%string ++ host_functions.

Definition Get (name : bytes) : option Function :=
  snd <$> List.find (fun p => existsb (fun n => bytes_eqb (to_upper name) (str n)) p.1) Registry.

Definition Call (name : bytes) : Function := fun args =>
  match Get name with Some f => f args | None => Err (UnknownFunction name) end.

Definition IsAggregate (name : bytes) : bool :=
  existsb (fun n => bytes_eqb (to_upper name) (str n)) ["COUNT"; "SUM"; "AVG"; "MIN"; "MAX"]%string.
End Library.

(** A runtime to evaluate examples with: no mathematics, images or host. *)
Definition plain_functions : FunctionRuntime := {|
  float_on_error _ := float_of_Z 0;
  math_pow10 _ := float_of_Z 1;
  math_pow x _ := x; math_log x := x; math_log10 x := x; math_log2 x := x; math_exp x := x;
  math_sin x := x; math_cos x := x; math_tan x := x; math_pi := float_of_Z 3;
  image_config _ := None;
  host name _ := Err (UnknownFunction name)
|}.

Section Examples.
#[local] Existing Instance plain_runtime.
#[local] Existing Instance plain_functions.

Definition int (n : Z) : Value := NewIntValue n.
Definition txt (s : string) : Value := NewStringValue (str s).

Example substring_example : Call (str "substr") [txt "hello"; int 2; int 3] = Ok (txt "ell").
Proof. vm_compute. reflexivity. Qed.
Example lpad_example : Call (str "LPAD") [txt "5"; int 4; txt "ab"] = Ok (txt "bab5").
Proof. vm_compute. reflexivity. Qed.
Example gcd_example : Call (str "GCD") [int 12; int 18] = Ok (int 6) /\ Call (str "LCM") [int 4; int 6] = Ok (int 12).
Proof. vm_compute. done. Qed.
Example avg_example : Call (str "AVG") [int 1; NewNullValue; int 2] = Ok (NewFloatValue (fdiv (float_of_Z 3) (float_of_Z 2))).
Proof. vm_compute. reflexivity. Qed.
Example datediff_example : Call (str "DATEDIFF") [NewDateValue (Date 2024 3 1 0 0 0 0); NewDateValue (Date 2024 2 1 0 0 0 0)] = Ok (int 29).
Proof. vm_compute. reflexivity. Qed.
Example last_day_example : Call (str "LAST_DAY") [NewDateValue (Date 2023 2 10 0 0 0 0)] = Ok (NewDateValue (Date 2023 2 28 0 0 0 0)).
Proof. vm_compute. reflexivity. Qed.

(** The arguments that make a function panic or loop. *)
Example substring_panics : Call (str "SUBSTRING") [txt "abc"; int 2; int (-1)] = Panic.
Proof. vm_compute. reflexivity. Qed.
Example left_panics : Call (str "LEFT") [txt "abc"; int (-1)] = Panic.
Proof. vm_compute. reflexivity. Qed.
Example lpad_hangs : Call (str "LPAD") [txt "abc"; int 5; txt ""] = Hang.
Proof. vm_compute. reflexivity. Qed.
Example lcm_panics : Call (str "LCM") [int 0; int 0] = Panic.
Proof. vm_compute. reflexivity. Qed.
(** MIN is NULL where the first value is. *)
Example min_null : Call (str "MIN") [NewNullValue; int 3; int 2] = Ok NewNullValue.
Proof. vm_compute. reflexivity. Qed.
(** The month and the day change together: a 31st is no exception. *)
Example last_day_31 : Call (str "LAST_DAY") [NewDateValue (Date 2023 1 31 0 0 0 0)] = Ok (NewDateValue (Date 2023 1 31 0 0 0 0)).
Proof. vm_compute. reflexivity. Qed.
End Examples.
