(* ===== verification/FunctionsSpec.v ===== *)
(** * What the functions of the library compute

    SUBSTRING, LPAD and RPAD on every argument, GCD against the greatest
    common divisor, and the encodings of binary data undone. *)

From S2P Require Import Prelude GoLib Types Functions.
Local Open Scope Z_scope.

(** ** Slices of characters *)

Lemma rune_slice_ok rs lo hi : 0 <= lo <= hi -> hi <= zlen rs ->
  rune_slice rs lo hi = Ok (of_runes (slice (Z.to_nat lo) (Z.to_nat hi) rs)).
Proof. intros. unfold rune_slice. by replace ((0 <=? lo) && (lo <=? hi) && (hi <=? zlen rs)) with true by lia. Qed.
Lemma rune_slice_panics rs lo hi : lo < 0 \/ hi < lo -> rune_slice rs lo hi = Panic.
Proof. intros. unfold rune_slice. by replace ((0 <=? lo) && (lo <=? hi) && (hi <=? zlen rs)) with false by lia. Qed.

Lemma slice_take_drop {A} (l : list A) lo hi : (lo <= hi)%nat -> slice lo (Nat.min (length l) hi) l = take (hi - lo) (drop lo l).
Proof.
  intros. unfold slice. destruct (decide (hi <= length l)%nat).
  - by rewrite Nat.min_r by lia.
  - rewrite Nat.min_l by lia. rewrite !take_ge; rewrite ?length_drop; done || lia.
Qed.

(** The characters from [start], [len] of them: a reference definition. *)
Definition chars_at (rs : list Z) (start len : Z) : list Z :=
  take (Z.to_nat len) (drop (Z.to_nat start) rs).

Lemma substring_ok s start len : in_i64 start -> in_i64 len -> - 2 ^ 63 < start -> Z.max 0 (start - 1) + len < 2 ^ 63 ->
  let rs := runes s in let from := Z.max 0 (start - 1) in
  substring s start (Some len) =
  if zlen rs <? from then Ok []
  else if len <? 0 then Panic
  else Ok (of_runes (chars_at rs from len)).
Proof.
  intros Hs Hl Hmin Hov. cbv zeta. unfold substring. cbn [default from_option]. unfold id.
  rewrite (i64_small (start - 1)) by (unfold in_i64 in *; lia).
  set (from := Z.max 0 (start - 1)) in *. rewrite i64_small by (unfold in_i64 in *; lia).
  destruct (zlen (runes s) <? from) eqn:E1; [done|]. zbool. pose proof (zlen_nonneg (runes s)). destruct (len <? 0) eqn:E2; zbool.
  - apply rune_slice_panics. lia.
  - rewrite rune_slice_ok by lia. do 2 f_equal. unfold chars_at, zlen.
    rewrite Z2Nat.inj_min, Nat2Z.id, slice_take_drop by lia. f_equal. lia.
Qed.

Lemma int_of_int `{GoRuntime} `{FunctionRuntime} n : in_i64 n -> int_of (NewIntValue n) = n.
Proof. apply i64_small. Qed.

(** SUBSTRING of a text, from any position and for any number of
    characters short of an overflow: the characters from that position (from
    the first where the position is zero or less), the empty text past the
    end, and a panic of the engine on a negative number. *)
Theorem fnSubstring_spec `{GoRuntime} `{FunctionRuntime} s start len :
  in_i64 start -> in_i64 len -> - 2 ^ 63 < start -> Z.max 0 (start - 1) + len < 2 ^ 63 ->
  Call (str "SUBSTRING") [NewStringValue s; NewIntValue start; NewIntValue len] =
  let rs := runes s in let from := Z.max 0 (start - 1) in
  if zlen rs <? from then Ok (NewStringValue [])
  else if len <? 0 then Panic
  else Ok (NewStringValue (of_runes (chars_at rs from len))).
Proof.
  intros Hs Hl Hmin Hov. cbv zeta.
  change (Call _ ?a) with (fnSubstring a). unfold fnSubstring. cbn [IsNull NewStringValue].
  change (ToString (NewStringValue s)) with s. rewrite !int_of_int by done.
  rewrite substring_ok by done. repeat case_match; done.
Qed.

Lemma fnSubstring_spec_witness :
  @Call plain_runtime plain_functions (str "SUBSTRING") [NewStringValue (str "hello"); NewIntValue 2; NewIntValue 3]
  = Ok (NewStringValue (str "ell")).
Proof. rewrite fnSubstring_spec; [vm_compute; reflexivity | unfold in_i64; lia ..]. Defined.

(** ** Padding *)

Definition copies (k : nat) (pad : list Z) : list Z := concat (repeat pad k).

Lemma zlen_copies k pad : zlen (copies k pad) = Z.of_nat k * zlen pad.
Proof. unfold copies. induction k as [|k IH]; [done|]. cbn [repeat concat]. rewrite zlen_app, IH. lia. Qed.
Lemma copies_snoc k pad rs : copies k pad ++ pad ++ rs = copies (S k) pad ++ rs.
Proof.
  unfold copies. induction k as [|k IH]; cbn [repeat concat]; [by rewrite app_nil_r|].
  rewrite <- app_assoc, IH. cbn [repeat concat]. by rewrite !app_assoc.
Qed.

Lemma pad_loop_done fuel grow len rs : len <= zlen rs -> pad_loop fuel grow len rs = Ok rs.
Proof. intros. destruct fuel; cbn [pad_loop]; by replace (zlen rs <? len) with false by lia. Qed.

(** Enough turns reach the length, in whole copies of the padding. *)
Lemma pad_loop_grows (place : nat -> list Z -> list Z) (pad : list Z) len :
  pad <> [] ->
  (forall k rs, zlen (place k rs) = Z.of_nat k * zlen pad + zlen rs) ->
  (forall k rs, place k (place 1%nat rs) = place (S k) rs) -> (forall rs, place 0%nat rs = rs) ->
  forall fuel rs, len - zlen rs <= Z.of_nat fuel ->
  exists k, pad_loop fuel (place 1%nat) len rs = Ok (place k rs) /\ len <= zlen (place k rs) /\
            (zlen rs < len -> zlen (place k rs) < len + zlen pad) /\ (len <= zlen rs -> k = 0%nat).
Proof.
  intros Hp Hlen Hstep H0. assert (0 < zlen pad) by (destruct pad; [done|rewrite zlen_cons; pose proof (zlen_nonneg pad); lia]).
  induction fuel as [|n IH]; intros rs Hf.
  - exists 0%nat. rewrite H0, pad_loop_done by lia. split; [done|lia].
  - destruct (decide (len <= zlen rs)) as [Hd|Hd].
    + exists 0%nat. rewrite H0, pad_loop_done by done. split; [done|lia].
    + cbn [pad_loop]. replace (zlen rs <? len) with true by lia.
      assert (H1 : zlen (place 1%nat rs) = zlen pad + zlen rs) by (rewrite Hlen; lia).
      destruct (IH (place 1%nat rs)) as (k & -> & Hk & Hlt & Hz); [lia|]. exists (S k). rewrite Hstep in *.
      split; [done|]. split; [done|]. split; [|lia]. intros _.
      destruct (decide (zlen (place 1%nat rs) < len)); [by apply Hlt|]. rewrite <- Hstep, (Hz ltac:(lia)), H0. lia.
Qed.

Lemma pad_front pad len rs : pad <> [] -> exists k, padded (fun rs => pad ++ rs) len rs = Ok (copies k pad ++ rs) /\
  len <= zlen (copies k pad ++ rs) <= Z.max (zlen rs) (len + zlen pad).
Proof.
  intros Hp. destruct (pad_loop_grows (fun k rs => copies k pad ++ rs) pad len Hp) with (fuel := Z.to_nat (len - zlen rs)) (rs := rs)
    as (k & Hk & Hl & Hu & Hz); try (intros; cbn beta).
  - rewrite zlen_app, zlen_copies. lia.
  - unfold copies at 2. cbn [repeat concat]. rewrite app_nil_r. apply copies_snoc.
  - done.
  - lia.
  - exists k. split; [|destruct (decide (zlen rs < len)); [pose proof (Hu ltac:(done)); lia|rewrite (Hz ltac:(lia)) in *; cbn in *; lia]].
    unfold padded. rewrite <- Hk. f_equal. unfold copies. cbn [repeat concat]. by rewrite app_nil_r.
Qed.

Lemma pad_back pad len rs : pad <> [] -> exists k, padded (fun rs => rs ++ pad) len rs = Ok (rs ++ copies k pad) /\
  len <= zlen (rs ++ copies k pad) <= Z.max (zlen rs) (len + zlen pad).
Proof.
  intros Hp. destruct (pad_loop_grows (fun k rs => rs ++ copies k pad) pad len Hp) with (fuel := Z.to_nat (len - zlen rs)) (rs := rs)
    as (k & Hk & Hl & Hu & Hz); try (intros; cbn beta).
  - rewrite zlen_app, zlen_copies. lia.
  - unfold copies. cbn [repeat concat]. by rewrite app_nil_r, <- app_assoc.
  - unfold copies. apply app_nil_r.
  - lia.
  - exists k. split; [|destruct (decide (zlen rs < len)); [pose proof (Hu ltac:(done)); lia|rewrite (Hz ltac:(lia)) in *; unfold copies in *; cbn in *; rewrite ?app_nil_r in *; lia]].
    unfold padded. rewrite <- Hk. f_equal. unfold copies. cbn [repeat concat]. by rewrite app_nil_r.
Qed.

Lemma pad_empty grow len rs : (forall rs, grow rs = rs) -> padded grow len rs = if zlen rs <? len then Hang else Ok rs.
Proof.
  intros Hg. unfold padded. destruct (zlen rs <? len) eqn:E; zbool; [|by apply pad_loop_done].
  generalize (Z.to_nat (len - zlen rs)). intros n. induction n as [|n IH]; cbn [pad_loop]; replace (zlen rs <? len) with true by lia; [done|].
  by rewrite Hg.
Qed.

(** The last [n] characters, and the first. *)
Definition last_chars (n : Z) (rs : list Z) : list Z := drop (length rs - Z.to_nat n) rs.
Definition first_chars (n : Z) (rs : list Z) : list Z := take (Z.to_nat n) rs.

Lemma keep_last rs len : 0 <= len <= zlen rs -> zlen rs - len < 2 ^ 63 ->
  (if len <? zlen rs then rune_slice rs (i64 (zlen rs - len)) (zlen rs) else Ok (of_runes rs)) = Ok (of_runes (last_chars len rs)).
Proof.
  intros Hl Hov. unfold last_chars. destruct (len <? zlen rs) eqn:E; zbool.
  - rewrite i64_small by (unfold in_i64; lia). rewrite rune_slice_ok by lia. do 2 f_equal. unfold slice, zlen in *.
    rewrite take_ge; [f_equal; lia|]. rewrite length_drop. lia.
  - do 2 f_equal. replace (length rs - Z.to_nat len)%nat with 0%nat by (unfold zlen in *; lia). by rewrite drop_0.
Qed.

Lemma keep_first rs len : 0 <= len <= zlen rs ->
  (if len <? zlen rs then rune_slice rs 0 len else Ok (of_runes rs)) = Ok (of_runes (first_chars len rs)).
Proof.
  intros Hl. unfold first_chars. destruct (len <? zlen rs) eqn:E; zbool.
  - rewrite rune_slice_ok by lia. do 2 f_equal. unfold slice. by rewrite drop_0, Nat.sub_0_r.
  - do 2 f_equal. rewrite take_ge by (unfold zlen in *; lia). done.
Qed.

Lemma lpad_ok s len pad : 0 <= len < 2 ^ 63 -> rune_count s < 2 ^ 63 -> rune_count pad < 2 ^ 63 ->
  runes pad <> [] \/ len <= rune_count s ->
  exists k, let all := copies k (runes pad) ++ runes s in len <= zlen all /\ lpad s len pad = Ok (of_runes (last_chars len all)).
Proof.
  unfold rune_count. intros Hl Hs Hp Hne. unfold lpad. destruct (decide (runes pad = [])) as [He|He].
  - exists 0%nat. unfold copies. cbn [repeat concat app]. destruct Hne as [?|Hn]; [done|]. split; [done|].
    rewrite He, (pad_empty (fun rs => [] ++ rs)) by done. replace (zlen (runes s) <? len) with false by lia.
    unfold mbind, outcome_bind. apply keep_last; lia.
  - destruct (pad_front (runes pad) len (runes s) He) as (k & Hk & Hlo & Hhi). exists k. split; [done|]. rewrite Hk.
    unfold mbind, outcome_bind. apply keep_last; lia.
Qed.

Lemma rpad_ok s len pad : 0 <= len -> runes pad <> [] \/ len <= rune_count s ->
  exists k, let all := runes s ++ copies k (runes pad) in len <= zlen all /\ rpad s len pad = Ok (of_runes (first_chars len all)).
Proof.
  unfold rune_count. intros Hl Hne. unfold rpad. destruct (decide (runes pad = [])) as [He|He].
  - exists 0%nat. unfold copies. cbn [repeat concat]. rewrite app_nil_r. destruct Hne as [?|Hn]; [done|]. split; [done|].
    rewrite He, (pad_empty (fun rs => rs ++ [])) by (intros; apply app_nil_r). replace (zlen (runes s) <? len) with false by lia.
    unfold mbind, outcome_bind. apply keep_first; lia.
  - destruct (pad_back (runes pad) len (runes s) He) as (k & Hk & Hlo & Hhi). exists k. split; [done|]. rewrite Hk.
    unfold mbind, outcome_bind. apply keep_first; lia.
Qed.

Lemma pads_hang s len pad : runes pad = [] -> rune_count s < len -> lpad s len pad = Hang /\ rpad s len pad = Hang.
Proof.
  unfold rune_count. intros He Hs. unfold lpad, rpad. rewrite He.
  rewrite (pad_empty (fun rs => [] ++ rs)), (pad_empty (fun rs => rs ++ [])) by (done || (intros; apply app_nil_r)).
  by replace (zlen (runes s) <? len) with true by lia.
Qed.

Lemma pad_call `{GoRuntime} `{FunctionRuntime} name f s len pad : in_i64 len ->
  pad_with name f [NewStringValue s; NewIntValue len; NewStringValue pad] = t ← f s len pad; Ok (NewStringValue t).
Proof.
  intros Hl. unfold pad_with. cbn [IsNull NewStringValue]. by rewrite int_of_int by done.
Qed.

(** LPAD and RPAD answer exactly as many characters as they are asked
    for, copies of the padding before the text or after it, LPAD keeping the
    last characters of a text that is too long; they never return where the
    padding is empty and the text too short. *)
Theorem pads_spec `{GoRuntime} `{FunctionRuntime} s len pad :
  0 <= len < 2 ^ 63 -> rune_count s < 2 ^ 63 -> rune_count pad < 2 ^ 63 ->
  let LPAD := Call (str "LPAD") [NewStringValue s; NewIntValue len; NewStringValue pad] in
  let RPAD := Call (str "RPAD") [NewStringValue s; NewIntValue len; NewStringValue pad] in
  if bool_decide (runes pad = []) && (rune_count s <? len) then LPAD = Hang /\ RPAD = Hang
  else exists k j,
    let left := copies k (runes pad) ++ runes s in
    let right := runes s ++ copies j (runes pad) in
    len <= zlen left /\ LPAD = Ok (NewStringValue (of_runes (last_chars len left))) /\
    len <= zlen right /\ RPAD = Ok (NewStringValue (of_runes (first_chars len right))).
Proof.
  intros Hl Hs Hp. cbv zeta. change (Call (str "LPAD") ?a) with (fnLpad a). change (Call (str "RPAD") ?a) with (fnRpad a).
  unfold fnLpad, fnRpad. rewrite !pad_call by (unfold in_i64; lia). case_bool_decide as He; cbn [andb].
  - destruct (rune_count s <? len) eqn:E; zbool.
    + destruct (pads_hang s len pad He E) as [-> ->]. done.
    + destruct (lpad_ok s len pad Hl Hs Hp) as (k & H1 & ->); [by right|]. destruct (rpad_ok s len pad) as (j & H2 & ->); [lia|by right|].
      exists k, j. split_and!; done.
  - destruct (lpad_ok s len pad Hl Hs Hp) as (k & H1 & ->); [by left|]. destruct (rpad_ok s len pad) as (j & H2 & ->); [lia|by left|].
    exists k, j. split_and!; done.
Qed.

Lemma pads_spec_witness :
  @Call plain_runtime plain_functions (str "LPAD") [NewStringValue (str "5"); NewIntValue 3; NewStringValue []] = Hang.
Proof.
  assert (0 <= 3 < 2 ^ 63) by lia.
  exact (proj1 (@pads_spec plain_runtime plain_functions (str "5") 3 [] ltac:(lia) ltac:(reflexivity) ltac:(reflexivity))).
Defined.

(** ** Greatest common divisors *)

Lemma gcd_loop_gcd fuel a b : Z.abs b <= Z.of_nat fuel -> Z.abs (gcd_loop fuel a b) = Z.gcd a b.
Proof.
  revert a b. induction fuel as [|n IH]; intros a b Hf; cbn [gcd_loop].
  - replace b with 0 by lia. by rewrite Z.gcd_0_r.
  - destruct (b =? 0) eqn:E; zbool; [subst b; by rewrite Z.gcd_0_r|].
    pose proof (Z.rem_bound_abs a b E). rewrite IH by lia.
    rewrite (Z.quot_rem' a b) at 2. rewrite Z.add_comm, (Z.mul_comm b), Z.gcd_comm.
    rewrite (Z.gcd_comm (_ + _)), Z.gcd_add_mult_diag_r. apply Z.gcd_comm.
Qed.

(** [gcd] is the greatest common divisor up to its sign, and the loop ends
    within as many turns as the divisor. *)
Lemma gcd_correct a b : Z.abs (gcd a b) = Z.gcd a b.
Proof. apply gcd_loop_gcd. lia. Qed.

Lemma lcm_panics_iff a b : lcm a b = Panic <-> a = 0 /\ b = 0.
Proof.
  unfold lcm. pose proof (gcd_correct a b). destruct (gcd a b =? 0) eqn:E; zbool.
  - split; [|done]. intros _. apply Z.gcd_eq_0. by rewrite <- gcd_correct, E.
  - split; [done|]. intros [-> ->]. by destruct E.
Qed.

(** ** Base64 *)

Lemma b64_char_byte z : 0 <= z < 64 -> 
  byte.unsigned (b64_char z) = if z <? 26 then 65 + z else if z <? 52 then 71 + z else if z <? 62 then z - 4 else if z =? 62 then 43 else 47.
Proof. intros. unfold b64_char. apply unsigned_of_small. unfold in_u8. repeat case_match; lia. Qed.

Lemma b64_value_char z : 0 <= z < 64 -> b64_value 43 47 (b64_char z) = Some z.
Proof.
  intros Hz. unfold b64_value, in_range. rewrite b64_char_byte by done.
  repeat (case_match; zbool; try lia; try (f_equal; lia)).
Qed.

Lemma b64_char_kept z : 0 <= z < 64 -> negb ((byte.unsigned (b64_char z) =? 10) || (byte.unsigned (b64_char z) =? 13)) = true.
Proof. intros Hz. rewrite b64_char_byte by done. repeat case_match; lia. Qed.

Lemma sextets n : 0 <= n < 2 ^ 24 ->
  0 <= n / 2 ^ 18 < 64 /\ 0 <= n / 2 ^ 12 mod 64 < 64 /\ 0 <= n / 2 ^ 6 mod 64 < 64 /\ 0 <= n mod 64 < 64 /\
  n / 2 ^ 18 * 2 ^ 18 + n / 2 ^ 12 mod 64 * 2 ^ 12 + n / 2 ^ 6 mod 64 * 2 ^ 6 + n mod 64 = n.
Proof. intros. Z.to_euclidean_division_equations. lia. Qed.

Lemma octets a b c : 0 <= a < 256 -> 0 <= b < 256 -> 0 <= c < 256 ->
  let n := Z.shiftl a 16 + Z.shiftl b 8 + c in
  0 <= n < 2 ^ 24 /\ n / 2 ^ 16 = a /\ n / 2 ^ 8 mod 256 = b /\ n mod 256 = c.
Proof. intros Ha Hb Hc n. subst n. rewrite !Z.shiftl_mul_pow2 by done. Z.to_euclidean_division_equations. lia. Qed.

Lemma b64_group a b c rest t : b64_groups 43 47 (no_breaks rest) = Some t ->
  let n := Z.shiftl (byte.unsigned a) 16 + Z.shiftl (byte.unsigned b) 8 + byte.unsigned c in
  b64_groups 43 47 (no_breaks (b64_char (n / 2 ^ 18) :: b64_char (n / 2 ^ 12 mod 64) :: b64_char (n / 2 ^ 6 mod 64) :: b64_char (n mod 64) :: rest))
  = Some (a :: b :: c :: t).
Proof.
  intros Ht. cbv zeta. destruct (octets (byte.unsigned a) (byte.unsigned b) (byte.unsigned c)) as (Hn & Ha & Hb & Hc); try apply byte.unsigned_range.
  set (n := Z.shiftl _ 16 + _ + _) in *. destruct (sextets n Hn) as (H1 & H2 & H3 & H4 & Hs).
  unfold no_breaks. cbn [List.filter]. rewrite !b64_char_kept by done. fold (no_breaks rest). cbn [b64_groups].
  rewrite !b64_value_char by done. rewrite Hs, Ht, Ha, Hb, Hc. cbn [mbind option_bind]. by rewrite !byte.of_Z_unsigned.
Qed.

Lemma base64_decode_encode : forall s, base64_decode (base64_encode s) = Some s.
Proof.
  unfold base64_decode. fix IH 1. intros [|a [|b [|c rest]]]; [done| | |].
  - clear IH. cbn [base64_encode]. destruct (octets (byte.unsigned a) 0 0) as (Hn & Ha & _); try apply byte.unsigned_range; [done..|].
    rewrite Z.shiftl_0_l, !Z.add_0_r in *. set (n := Z.shiftl _ 16) in *. destruct (sextets n Hn) as (H1 & H2 & H3 & H4 & Hs).
    unfold no_breaks. cbn [List.filter]. rewrite !b64_char_kept by done.
    change (negb _) with true at 1. cbn iota. change (negb _) with true. cbn iota. cbn [b64_groups]. rewrite !b64_value_char by done.
    change (b64_value 43 47 (byte.of_Z 61)) with (@None Z). cbn iota. change (byte.unsigned (byte.of_Z 61) =? 61) with true. cbn iota.
    do 2 f_equal. rewrite <- (byte.of_Z_unsigned a). f_equal. subst n. rewrite Z.shiftl_mul_pow2 in * by done.
    pose proof (byte.unsigned_range a). clear -H. Z.to_euclidean_division_equations. lia.
  - clear IH. cbn [base64_encode]. destruct (octets (byte.unsigned a) (byte.unsigned b) 0) as (Hn & Ha & Hb & _); try apply byte.unsigned_range; [done..|].
    rewrite !Z.add_0_r in *. set (n := Z.shiftl _ 16 + _) in *. destruct (sextets n Hn) as (H1 & H2 & H3 & H4 & Hs).
    unfold no_breaks. cbn [List.filter]. rewrite !b64_char_kept by done. change (negb _) with true. cbn iota.
    cbn [b64_groups]. rewrite !b64_value_char by done. change (b64_value 43 47 (byte.of_Z 61)) with (@None Z). cbn iota.
    change (byte.unsigned (byte.of_Z 61) =? 61) with true. cbn iota.
    do 2 f_equal; [|f_equal]; [rewrite <- (byte.of_Z_unsigned a)|rewrite <- (byte.of_Z_unsigned b)]; f_equal; subst n;
    rewrite !Z.shiftl_mul_pow2 in * by done;
    pose proof (byte.unsigned_range a) as Ra; pose proof (byte.unsigned_range b) as Rb; clear -Ra Rb; Z.to_euclidean_division_equations; lia.
  - cbn [base64_encode]. apply b64_group. apply IH.
Qed.

Lemma any_base64_encode s : any_base64 (base64_encode s) = Ok s.
Proof. unfold any_base64. by rewrite base64_decode_encode. Qed.

Lemma from_hex_encode s : from_hex (hex_encode s) = Ok s.
Proof.
  unfold from_hex. rewrite strip_hex_lower by apply hex_encode_lower.
  replace (zlen (hex_encode s) mod 2 =? 0) with true; [by rewrite hex_decode_encode|].
  symmetry. unfold zlen. rewrite length_hex_encode, Nat2Z.inj_mul, Z.mul_comm. by rewrite Z.mod_mul.
Qed.

Lemma base64_no_colon : forall s, Forall (fun b => byte.unsigned b <> 58) (base64_encode s).
Proof.
  assert (Hc : forall z, 0 <= z < 64 -> byte.unsigned (b64_char z) <> 58).
  { intros z Hz. rewrite b64_char_byte by done. repeat case_match; lia. }
  assert (Hp : byte.unsigned (byte.of_Z 61) <> 58) by done.
  assert (H0 : 0 <= 0 < 256) by lia.
  fix IH 1. intros [|a [|b [|c rest]]]; cbn [base64_encode]; [constructor| | |].
  - clear IH. destruct (octets (byte.unsigned a) 0 0 (byte.unsigned_range a) H0 H0) as (Hn & _).
    rewrite Z.shiftl_0_l, !Z.add_0_r in Hn. destruct (sextets _ Hn) as (? & ? & _). repeat (constructor; [by auto|]). constructor.
  - clear IH. destruct (octets (byte.unsigned a) (byte.unsigned b) 0 (byte.unsigned_range a) (byte.unsigned_range b) H0) as (Hn & _).
    rewrite Z.add_0_r in Hn. destruct (sextets _ Hn) as (? & ? & ? & _). repeat (constructor; [by auto|]). constructor.
  - destruct (octets (byte.unsigned a) (byte.unsigned b) (byte.unsigned c)) as (Hn & _); try apply byte.unsigned_range.
    destruct (sextets _ Hn) as (? & ? & ? & ? & _). repeat (constructor; [by auto|]). apply IH.
Qed.

Lemma strip_data_uri_base64 s : strip_data_uri (base64_encode s) = base64_encode s.
Proof.
  unfold strip_data_uri. replace (has_prefix _ _) with false; [done|]. symmetry. unfold has_prefix, bytes_eqb. apply bool_decide_eq_false.
  intros E. pose proof (Forall_take _ 11 _ (base64_no_colon s)) as Hf. change 11%nat with (length (str "data:image/")) in Hf. rewrite E in Hf.
  repeat (apply Forall_cons_1 in Hf as [? Hf]; try done).
Qed.

(** Binary data written by BLOB_TO_HEX, BLOB_TO_BASE64,
    IMAGE_TO_HEX or IMAGE_TO_BASE64 is read back by the function for the
    opposite way, whatever its bytes. *)
Theorem encodings_roundtrip `{GoRuntime} `{FunctionRuntime} (d : bytes) :
  let back (from to : string) (v : Value) := t ← Call (str to) [v]; Call (str from) [t] in
  back "BLOB_FROM_HEX" "BLOB_TO_HEX" (NewBlobValue d) = Ok (NewBlobValue d) /\
  back "BLOB_FROM_BASE64" "BLOB_TO_BASE64" (NewBlobValue d) = Ok (NewBlobValue d) /\
  back "IMAGE_FROM_HEX" "IMAGE_TO_HEX" (NewImageValue d) = Ok (NewImageValue d) /\
  back "IMAGE_FROM_BASE64" "IMAGE_TO_BASE64" (NewImageValue d) = Ok (NewImageValue d).
Proof.
  assert (Himg : Call (str "IMAGE_TO_BASE64") [NewImageValue d] = Ok (NewStringValue (base64_encode d))).
  { change (fnImageToBase64 [NewImageValue d] = Ok (NewStringValue (base64_encode d))).
    unfold fnImageToBase64. change (getImageData (NewImageValue d)) with (Some d). cbn iota beta. destruct (parseImageInfo d); reflexivity. }
  cbv zeta beta. rewrite Himg.
  change (Call (str "BLOB_TO_HEX") [NewBlobValue d]) with (@Ok FunError _ (NewStringValue (hex_encode d))).
  change (Call (str "BLOB_TO_BASE64") [NewBlobValue d]) with (@Ok FunError _ (NewStringValue (base64_encode d))).
  change (Call (str "IMAGE_TO_HEX") [NewImageValue d]) with (@Ok FunError _ (NewStringValue (hex_encode d))).
  unfold mbind, outcome_bind.
  change (Call (str "BLOB_FROM_HEX") [NewStringValue ?s]) with (d ← from_hex s; @Ok FunError _ (NewBlobValue d)).
  change (Call (str "BLOB_FROM_BASE64") [NewStringValue ?s]) with (d ← any_base64 s; @Ok FunError _ (NewBlobValue d)).
  change (Call (str "IMAGE_FROM_HEX") [NewStringValue ?s]) with (d ← from_hex s; @Ok FunError _ (NewImageValue d)).
  change (Call (str "IMAGE_FROM_BASE64") [NewStringValue ?s]) with (d ← any_base64 (strip_data_uri s); @Ok FunError _ (NewImageValue d)).
  by rewrite strip_data_uri_base64, from_hex_encode, any_base64_encode.
Qed.
