(* ===== verification/Script.v ===== *)
(** * Script functions (script/script.go)

    A script function is a text, in which arguments replace placeholders;
    the result is a literal, an arithmetic expression, or else the text
    itself. *)

From S2P Require Import Prelude GoLib Types Functions.
Local Open Scope Z_scope.

Inductive ScriptError :=
  | NotFound (name : bytes) | InvalidExpression | EndOfExpression
  | MissingParenthesis | InvalidNumber (s : bytes) | ScriptDivisionByZero.

Abbreviation RM := (outcome ScriptError).

(** The scripts by their names in lower case. *)
Definition Manager := gmap bytes bytes.
Definition NewManager : Manager := ∅.

Definition is_op (ops : list string) (token : bytes) : bool := existsb (fun o => bytes_eqb token (str o)) ops.

Definition has_suffix (p s : bytes) : bool := bytes_eqb (drop (length s - length p) s) p && (length p <=? length s)%nat.

(** The tokens of an arithmetic expression: words, and the signs by
    themselves. *)
Definition is_blank (b : byte) : bool := (byte.unsigned b =? 32) || (byte.unsigned b =? 9).
Definition is_sign (b : byte) : bool := existsb (Z.eqb (byte.unsigned b)) [43; 45; 42; 47; 40; 41].
Definition flush (current : bytes) : list bytes := match current with [] => [] | _ => [current] end.
Fixpoint tokens_from (current : bytes) (expr : bytes) : list bytes :=
  match expr with
  | [] => flush current
  | c :: rest =>
    if is_blank c then flush current ++ tokens_from [] rest
    else if is_sign c then flush current ++ [c] :: tokens_from [] rest
    else tokens_from (current ++ [c]) rest
  end.
Definition tokenize (expr : bytes) : list bytes := tokens_from [] expr.

Section Scripts.
Context `{GoRuntime}.

Definition Register (name script : bytes) (m : Manager) : Manager := <[to_lower name := script]> m.
Definition GetScript (name : bytes) (m : Manager) : option bytes := m !! to_lower name.
Definition Remove (name : bytes) (m : Manager) : Manager := delete (to_lower name) m.

(** ** Arithmetic: a descent over the tokens not yet read *)

Abbreviation reading := (RM (float64 * list bytes)).

(** Operands joined by the operators of one level, from the left. *)
Fixpoint chain (fuel : nat) (ops : list string) (next : list bytes -> reading)
    (apply : bytes -> float64 -> float64 -> RM float64) (l : float64) (tokens : list bytes) : reading :=
  match tokens with
  | op :: rest =>
    if is_op ops op then
      match fuel with
      | O => Hang
      | S n => '(r, rest) ← next rest; v ← apply op l r; chain n ops next apply v rest
      end
    else Ok (l, tokens)
  | [] => Ok (l, tokens)
  end.

Definition apply_sum (op : bytes) (l r : float64) : RM float64 := Ok (if bytes_eqb op (str "+") then fadd l r else fsub l r).
Definition apply_product (op : bytes) (l r : float64) : RM float64 :=
  if bytes_eqb op (str "*") then Ok (fmul l r)
  else if SFeqb r (float_of_Z 0) then Err ScriptDivisionByZero else Ok (fdiv l r).

Definition parseTerm (fuel : nat) (factor : list bytes -> reading) (tokens : list bytes) : reading :=
  '(l, rest) ← factor tokens; chain fuel ["*"; "/"]%string factor apply_product l rest.
Definition parseExpr (fuel : nat) (factor : list bytes -> reading) (tokens : list bytes) : reading :=
  '(l, rest) ← parseTerm fuel factor tokens; chain fuel ["+"; "-"]%string (parseTerm fuel factor) apply_sum l rest.

(** Every turn of a loop and every call reads a token first, so that their
    number bounds both. *)
Fixpoint parseFactor (fuel : nat) (tokens : list bytes) : reading :=
  match tokens with
  | [] => Err EndOfExpression
  | token :: rest =>
    match fuel with
    | O => Hang
    | S n =>
      if bytes_eqb token (str "(") then
        '(v, rest) ← parseExpr n (parseFactor n) rest;
        match rest with
        | close :: rest => if bytes_eqb close (str ")") then Ok (v, rest) else Err MissingParenthesis
        | [] => Err MissingParenthesis
        end
      else if bytes_eqb token (str "-") then '(v, rest) ← parseFactor n rest; Ok (SFopp v, rest)
      else match parse_float token with Some v => Ok (v, rest) | None => Err (InvalidNumber token) end
    end
  end.

(** The tokens after the expression are not looked at. *)
Definition parseExpression (tokens : list bytes) : RM float64 :=
  fst <$> parseExpr (length tokens) (parseFactor (length tokens)) tokens.

Definition evaluateArithmetic (expr : bytes) : RM Value :=
  match tokenize expr with
  | [] => Err InvalidExpression
  | tokens => f ← parseExpression tokens; Ok (NewFloatValue f)
  end.

(** ** Literals *)

(** The patterns [^-?\d+$] and [^-?\d+\.\d+$]. *)
Definition drop_minus (s : bytes) : bytes := match s with b :: t => if byte.unsigned b =? 45 then t else s | [] => [] end.
Definition digit (b : byte) : bool := in_range 48 57 (byte.unsigned b).
Definition some_digits (s : bytes) : bool := negb (bytes_eqb s []) && forallb digit s.
Fixpoint split_digits (s : bytes) : bytes * bytes :=
  match s with
  | b :: t => if digit b then let '(ds, rest) := split_digits t in (b :: ds, rest) else ([], s)
  | [] => ([], [])
  end.
Definition is_integer (s : bytes) : bool := some_digits (drop_minus s).
Definition is_decimal (s : bytes) : bool :=
  match split_digits (drop_minus s) with
  | (_ :: _, b :: rest) => (byte.unsigned b =? 46) && some_digits rest
  | _ => false
  end.

Definition quoted (q s : bytes) : bool := has_prefix q s && has_suffix q s.

(** [expr[1:len(expr)-1]] *)
Definition unquote (s : bytes) : RM bytes :=
  if (length s <? 2)%nat then Panic else Ok (slice 1 (length s - 1) s).

Definition evaluate `{FunctionRuntime} (expr : bytes) : RM Value :=
  let expr := trim_space expr in
  let among words := is_op words (to_lower expr) in
  if bytes_eqb expr [] then Ok NewNullValue
  else if quoted (str "'") expr || quoted [byte.of_Z 34] expr then s ← unquote expr; Ok (NewStringValue s)
  else if is_integer expr then Ok (NewIntValue (parse_int_value expr))
  else if is_decimal expr then
    Ok (NewFloatValue (match parse_float expr with Some f => f | None => float_on_error expr end))
  else if among ["true"; "yes"; "1"]%string then Ok (NewBoolValue true)
  else if among ["false"; "no"; "0"]%string then Ok (NewBoolValue false)
  else if among ["null"; "nil"]%string then Ok NewNullValue
  else if existsb (fun b => existsb (Z.eqb (byte.unsigned b)) [43; 45; 42; 47]) expr then
    match evaluateArithmetic expr with
    | Ok v => Ok v
    | Err _ => Ok (NewStringValue expr)
    | Panic => Panic
    | Hang => Hang
    end
  else Ok (NewStringValue expr).

(** ** Calls *)

(** [${i}], then [$i], for each argument in turn. *)
Fixpoint substitute (i : Z) (args : list Value) (script : bytes) : bytes :=
  match args with
  | [] => script
  | arg :: rest =>
    let script := replace_all script (str "${" ++ itoa i ++ str "}") (ToString arg) in
    let script := replace_all script (str "$" ++ itoa i) (ToString arg) in
    substitute (i + 1) rest script
  end.

Definition Execute `{FunctionRuntime} (name : bytes) (args : list Value) (m : Manager) : RM Value :=
  match GetScript name m with
  | None => Err (NotFound name)
  | Some script => evaluate (substitute 1 args script)
  end.

Definition IsScriptFunc (name : bytes) : bool := has_prefix (str "xx_") (to_lower name).
End Scripts.

Section Examples.
#[local] Existing Instance plain_runtime.
#[local] Existing Instance plain_functions.

Example execute_sum : Execute (str "XX_add") [NewIntValue 2; NewIntValue 3] (Register (str "xx_add") (str "$1 + ${2} * 2") NewManager)
  = Ok (NewFloatValue (float_of_Z 8)).
Proof. vm_compute. reflexivity. Qed.
(** A script that is a single quote stops the engine. *)
Example quote_panics : evaluate (str "'") = Panic.
Proof. vm_compute. reflexivity. Qed.
(** What follows an expression is dropped; a date is a subtraction. *)
Example rest_dropped : evaluate (str "1 + 2 apples") = Ok (NewFloatValue (float_of_Z 3)).
Proof. vm_compute. reflexivity. Qed.
Example date_subtracted : evaluate (str "2024-01-15") = Ok (NewFloatValue (float_of_Z 2008)).
Proof. vm_compute. reflexivity. Qed.
(** The tenth placeholder starts as the first. *)
Example tenth_is_first : substitute 1 [NewIntValue 7] (str "$10") = str "70".
Proof. vm_compute. reflexivity. Qed.
(** An argument that looks like a placeholder is one. *)
Example argument_is_placeholder : substitute 1 [NewStringValue (str "$2"); NewStringValue (str "x")] (str "$1") = str "x".
Proof. vm_compute. reflexivity. Qed.
End Examples.
