(* ===== verification/ScriptSpec.v ===== *)
(** * Arithmetic in scripts against its meaning

    An expression tree, its text with the parentheses its operators need,
    and its value; the interpreter of scripts finds that value from the
    text. *)

From Stdlib Require Import Strings.Byte.
From S2P Require Import Prelude GoLib Types Functions Script.

Inductive sign := Plus | Minus | Times | Over.
Inductive arith :=
  | Num (text : bytes)
  | Neg (a : arith)
  | Bin (o : sign) (a b : arith).

Definition sign_text (o : sign) : bytes := str (match o with Plus => "+" | Minus => "-" | Times => "*" | Over => "/" end).
Definition level (o : sign) : nat := match o with Plus | Minus => 0 | Times | Over => 1 end.

(** The tokens of an expression where operators of a level below [l] need
    parentheses. *)
Fixpoint tokens_of (l : nat) (a : arith) : list bytes :=
  match a with
  | Num t => [t]
  | Neg a => str "-" :: tokens_of 2 a
  | Bin o a b =>
    let body := tokens_of (level o) a ++ sign_text o :: tokens_of (S (level o)) b in
    if decide (l <= level o) then body else str "(" :: body ++ [str ")"]
  end.
Definition text_of_arith (a : arith) : bytes := join_text (str " ") (tokens_of 0 a).

(** A number is a word, its text without signs or blanks. *)
Definition plain (b : byte) : bool := negb (is_blank b) && negb (is_sign b).
Fixpoint numbers (a : arith) : Prop :=
  match a with
  | Num t => t <> [] /\ forallb plain t = true
  | Neg a => numbers a
  | Bin _ a b => numbers a /\ numbers b
  end.

Section Meaning.
Context `{GoRuntime}.

Definition combine (o : sign) (x y : float64) : option float64 :=
  match o with
  | Plus => Some (fadd x y)
  | Minus => Some (fsub x y)
  | Times => Some (fmul x y)
  | Over => if SFeqb y (float_of_Z 0) then None else Some (fdiv x y)
  end.
Fixpoint value_of (a : arith) : option float64 :=
  match a with
  | Num t => parse_float t
  | Neg a => SFopp <$> value_of a
  | Bin o a b => x ← value_of a; y ← value_of b; combine o x y
  end.

(** A call goes on with the value, or fails where there is none. *)
Definition goes_on {A} (m : RM A) (v : option float64) (k : float64 -> RM A) : Prop :=
  match v with Some x => m = k x | None => exists e, m = Err e end.

Abbreviation products n k := (chain k ["*"; "/"]%string (parseFactor n) apply_product).
Abbreviation sums n k := (chain k ["+"; "-"]%string (parseTerm n (parseFactor n)) apply_sum).

Definition factor_reads (a : arith) : Prop := forall n rest, length (tokens_of 2 a ++ rest) <= n ->
  goes_on (parseFactor n (tokens_of 2 a ++ rest)) (value_of a) (fun v => Ok (v, rest)).
Definition term_reads (a : arith) : Prop := forall n k rest,
  length (tokens_of 1 a ++ rest) <= n -> length (tokens_of 1 a ++ rest) <= k ->
  exists k', length rest <= k' /\
  goes_on ('(x, rest) ← parseFactor n (tokens_of 1 a ++ rest); products n k x rest) (value_of a) (fun v => products n k' v rest).
(** What follows a sum does not belong to its last term. *)
Definition no_product (rest : list bytes) : bool := match rest with op :: _ => negb (is_op ["*"; "/"]%string op) | [] => true end.
Definition no_sum (rest : list bytes) : bool := match rest with op :: _ => negb (is_op ["+"; "-"]%string op) | [] => true end.
Definition expr_reads (a : arith) : Prop := forall n k rest, no_product rest = true ->
  length (tokens_of 0 a ++ rest) <= n -> length (tokens_of 0 a ++ rest) <= k ->
  exists k', length rest <= k' /\
  goes_on ('(x, rest) ← parseTerm n (parseFactor n) (tokens_of 0 a ++ rest); sums n k x rest) (value_of a) (fun v => sums n k' v rest).

Lemma chain_stops k ops next apply x rest : match rest with op :: _ => is_op ops op = false | [] => True end ->
  chain k ops next apply x rest = Ok (x, rest).
Proof. intros Hr. destruct k, rest as [|op rest]; cbn [chain]; try done; by rewrite Hr. Qed.
Lemma products_stop n k x rest : no_product rest = true -> products n k x rest = Ok (x, rest).
Proof. intros Hr. apply chain_stops. destruct rest; [done|]. by apply negb_true_iff. Qed.
Lemma sums_stop n k x rest : no_sum rest = true -> sums n k x rest = Ok (x, rest).
Proof. intros Hr. apply chain_stops. destruct rest; [done|]. by apply negb_true_iff. Qed.

(** ** From one level to the next *)

Definition bin_level (a : arith) : nat := match a with Bin o _ _ => level o | _ => 2 end.

Lemma tokens_same a l m : l <= bin_level a -> m <= bin_level a -> tokens_of l a = tokens_of m a.
Proof.
  intros Hl Hm. destruct a as [t|a|o a b]; [done|done|]. cbn [tokens_of bin_level] in *.
  by rewrite !decide_True by done.
Qed.
Lemma tokens_parens a l : bin_level a < l -> l <= 2 -> tokens_of l a = str "(" :: tokens_of 0 a ++ [str ")"].
Proof.
  intros Hl Hm. destruct a as [t|a|o a b]; cbn [bin_level] in Hl; [lia..|]. cbn [tokens_of].
  rewrite decide_False by lia. by rewrite decide_True by lia.
Qed.

Lemma goes_on_bind {A B} (m : RM A) v k (f : A -> RM B) : goes_on m v k -> goes_on (m ≫= f) v (fun x => k x ≫= f).
Proof. unfold goes_on. destruct v; [by intros ->|]. intros [e ->]. by exists e. Qed.
Lemma goes_on_ext {A} (m : RM A) v k k' : (forall x, k x = k' x) -> goes_on m v k -> goes_on m v k'.
Proof. unfold goes_on. destruct v; [by intros <- ->|done]. Qed.

Lemma factor_of_expr a : bin_level a < 2 -> expr_reads a -> factor_reads a.
Proof.
  intros Hb He n rest Hn. rewrite tokens_parens in * by lia. cbn [app] in *.
  destruct n as [|n]; [cbn [length] in Hn; lia|]. cbn [parseFactor]. change (bytes_eqb (str "(") (str "(")) with true. cbn iota.
  rewrite <- app_assoc in *. cbn [app] in *. cbn [length] in Hn.
  destruct (He n n (str ")" :: rest) eq_refl) as (k' & Hk & Hg); [lia..|].
  unfold parseExpr. apply (goes_on_bind _ _ _ (fun '(v, rest) => match rest with close :: rest => if bytes_eqb close (str ")") then Ok (v, rest) else Err MissingParenthesis | [] => Err MissingParenthesis end)) in Hg.
  eapply goes_on_ext; [|exact Hg]. intros x. cbn beta. by rewrite sums_stop by done.
Qed.

Lemma term_of_factor a : tokens_of 1 a = tokens_of 2 a -> factor_reads a -> term_reads a.
Proof.
  intros E Hf n k rest Hn Hk. rewrite E in *. exists k. rewrite length_app in Hk. split; [lia|].
  pose proof (Hf n rest Hn) as Hg. apply (goes_on_bind _ _ _ (fun '(x, rest) => products n k x rest)) in Hg. exact Hg.
Qed.

Lemma expr_of_term a : tokens_of 0 a = tokens_of 1 a -> term_reads a -> expr_reads a.
Proof.
  intros E Ht n k rest Hr Hn Hk. rewrite E in *. exists k. rewrite length_app in Hk. split; [lia|].
  destruct (Ht n n rest Hn Hn) as (k' & Hk' & Hg). unfold parseTerm at 1.
  apply (goes_on_bind _ _ _ (fun '(x, rest) => sums n k x rest)) in Hg. eapply goes_on_ext; [|exact Hg].
  intros x. cbn beta. by rewrite products_stop.
Qed.

Lemma num_reads t : t <> [] -> forallb plain t = true -> factor_reads (Num t).
Proof.
  intros Ht Hp n rest Hn. cbn [tokens_of app length] in *. destruct n as [|n]; [lia|]. cbn [parseFactor value_of].
  assert (Hne : forall c, plain c = false -> bytes_eqb t [c] = false).
  { intros c Hc. apply bool_decide_eq_false. intros ->. cbn in Hp. by rewrite Hc in Hp. }
  change (str "(") with ["("%byte]. change (str "-") with ["-"%byte]. rewrite !Hne by done.
  destruct (parse_float t); [done|by eexists].
Qed.

Lemma neg_reads a : factor_reads a -> factor_reads (Neg a).
Proof.
  intros Ha n rest Hn. cbn [tokens_of app length] in *. destruct n as [|n]; [lia|]. cbn [parseFactor value_of].
  change (bytes_eqb (str "-") (str "(")) with false. change (bytes_eqb (str "-") (str "-")) with true. cbn iota.
  pose proof (Ha n rest ltac:(lia)) as Hg. apply (goes_on_bind _ _ _ (fun '(v, rest) => Ok (SFopp v, rest))) in Hg.
  by destruct (value_of a).
Qed.

Lemma tokens_bin o a b : tokens_of (level o) (Bin o a b) = tokens_of (level o) a ++ sign_text o :: tokens_of (S (level o)) b.
Proof. cbn [tokens_of]. by rewrite decide_True by lia. Qed.

Lemma product_combine o x y : level o = 1 ->
  apply_product (sign_text o) x y = match combine o x y with Some v => Ok v | None => Err ScriptDivisionByZero end.
Proof.
  intros Ho. destruct o; try discriminate Ho; [done|]. unfold apply_product, combine.
  change (bytes_eqb (sign_text Over) (str "*")) with false. by destruct (SFeqb y (float_of_Z 0)).
Qed.

Lemma product_reads o a b : level o = 1 -> term_reads a -> factor_reads b -> term_reads (Bin o a b).
Proof.
  intros Ho Ha Hb n k rest Hn Hk. pose proof (tokens_bin o a b) as E. rewrite Ho in E. rewrite E in *. clear E. cbn [value_of].
  rewrite <- app_assoc in *. cbn [app] in *. destruct (Ha n k _ Hn Hk) as (k' & Hk' & Hg). cbn [length] in Hk'.
  destruct k' as [|k']; [lia|]. rewrite length_app in Hk'. exists k'. split; [lia|].
  assert (Hlen : length (tokens_of 2 b ++ rest) <= n) by (repeat (rewrite ?length_app in *; cbn [length] in *); lia).
  unfold goes_on in Hg. destruct (value_of a) as [x|]; [|exact Hg]. rewrite Hg. cbn [chain mbind option_bind].
  replace (is_op ["*"; "/"]%string (sign_text o)) with true by (by destruct o).
  pose proof (Hb n rest Hlen) as Hf. unfold goes_on in Hf. destruct (value_of b) as [y|].
  2: { destruct Hf as [e ->]. by exists e. }
  rewrite Hf. unfold mbind at 1, outcome_bind at 1. rewrite product_combine by done.
  unfold mbind, option_bind. destruct (combine o x y); [done|]. by eexists.
Qed.

Lemma sum_reads o a b : level o = 0 -> expr_reads a -> term_reads b -> expr_reads (Bin o a b).
Proof.
  intros Ho Ha Hb n k rest Hr Hn Hk. pose proof (tokens_bin o a b) as E. rewrite Ho in E. rewrite E in *. clear E. cbn [value_of].
  rewrite <- app_assoc in *. cbn [app] in *. destruct (Ha n k (sign_text o :: tokens_of 1 b ++ rest)) as (k' & Hk' & Hg); [by destruct o|done..|].
  cbn [length] in Hk'. destruct k' as [|k']; [lia|]. rewrite length_app in Hk'. exists k'. split; [lia|].
  assert (Hlen : length (tokens_of 1 b ++ rest) <= n) by (repeat (rewrite ?length_app in *; cbn [length] in *); lia).
  unfold goes_on in Hg. destruct (value_of a) as [x|]; [|exact Hg]. rewrite Hg. cbn [chain mbind option_bind].
  replace (is_op ["+"; "-"]%string (sign_text o)) with true by (by destruct o).
  destruct (Hb n n rest Hlen Hlen) as (j & _ & Hf). unfold goes_on in Hf. fold (parseTerm n (parseFactor n) (tokens_of 1 b ++ rest)) in Hf.
  destruct (value_of b) as [y|].
  2: { destruct Hf as [e ->]. by exists e. }
  rewrite Hf, products_stop by done. by destruct o.
Qed.

Lemma reads a : numbers a -> factor_reads a /\ term_reads a /\ expr_reads a.
Proof.
  induction a as [t|a IH|o a IHa b IHb]; cbn [numbers]; intros Hw.
  - pose proof (num_reads t (proj1 Hw) (proj2 Hw)) as Hf. pose proof (fun E => term_of_factor _ E Hf) as Ht. specialize (Ht eq_refl).
    split_and!; [exact Hf|exact Ht|by refine (expr_of_term _ _ Ht)].
  - pose proof (neg_reads a (proj1 (IH Hw))) as Hf. pose proof (fun E => term_of_factor _ E Hf) as Ht. specialize (Ht eq_refl).
    split_and!; [exact Hf|exact Ht|by refine (expr_of_term _ _ Ht)].
  - destruct Hw as [Hwa Hwb]. destruct (IHa Hwa) as (_ & Ta & Ea), (IHb Hwb) as (Fb & Tb & _).
    destruct (level o) as [|l] eqn:Ho.
    + pose proof (sum_reads o a b Ho Ea Tb) as He. assert (Hf : factor_reads (Bin o a b)) by (apply factor_of_expr; [cbn; lia|done]).
      split_and!; [done| |done]. apply term_of_factor; [|done]. by rewrite (tokens_parens _ 1), (tokens_parens _ 2) by (cbn [bin_level]; lia).
    + assert (level o = 1) as Ho1 by (by destruct o). pose proof (product_reads o a b Ho1 Ta Fb) as Ht.
      assert (He : expr_reads (Bin o a b)) by (apply expr_of_term; [apply tokens_same; cbn; lia|done]).
      split_and!; [|done..]. apply factor_of_expr; [cbn; lia|done].
Qed.

(** ** The text of an expression is split into its tokens *)

Definition word (t : bytes) : Prop := (t <> [] /\ forallb plain t = true) \/ exists c, t = [c] /\ is_sign c = true.

Lemma sign_word s : (exists c, str s = [c] /\ is_sign c = true) -> word (str s).
Proof. by right. Qed.

Lemma tokens_words a : numbers a -> forall l, Forall word (tokens_of l a).
Proof.
  assert (Hs : forall c, is_sign c = true -> word [c]) by (intros c Hc; right; by exists c).
  induction a as [t|a IH|o a IHa b IHb]; cbn [numbers tokens_of]; intros Hw l.
  - constructor; [by left|constructor].
  - constructor; [by apply Hs|by apply IH].
  - destruct Hw as [Hwa Hwb].
    assert (Hbody : Forall word (tokens_of (level o) a ++ sign_text o :: tokens_of (S (level o)) b)).
    { apply Forall_app_2; [by apply IHa|]. constructor; [destruct o; by apply Hs|by apply IHb]. }
    case_decide; [done|]. constructor; [by apply Hs|]. apply Forall_app_2; [done|]. constructor; [by apply Hs|constructor].
Qed.

Lemma tokens_from_plain w current rest : forallb plain w = true -> tokens_from current (w ++ rest) = tokens_from (current ++ w) rest.
Proof.
  revert current. induction w as [|c w IH]; intros current Hw; [by rewrite app_nil_r|]. cbn [forallb app] in *.
  apply andb_true_iff in Hw as [Hc Hw]. unfold plain in Hc. apply andb_true_iff in Hc as [Hb Hs]. apply negb_true_iff in Hb, Hs.
  cbn [tokens_from]. rewrite Hb, Hs, IH by done. by rewrite <- app_assoc.
Qed.

Lemma tokens_from_word w rest : word w -> rest = [] \/ (exists r, rest = str " " ++ r) ->
  tokens_from [] (w ++ rest) = w :: match rest with [] => [] | _ :: r => tokens_from [] r end.
Proof.
  intros [[Hne Hp]|(c & -> & Hc)] Hr.
  - rewrite tokens_from_plain by done. cbn [app]. assert (Hf : flush w = [w]) by (by destruct w).
    destruct Hr as [->|[r ->]]; cbn [tokens_from]; [done|]. change (str " " ++ r) with (" "%byte :: r). cbn [tokens_from].
    change (is_blank " ") with true. cbn iota. by rewrite Hf.
  - cbn [app tokens_from]. assert (is_blank c = false) as -> by (destruct c; try discriminate Hc; reflexivity). rewrite Hc. cbn [flush app].
    f_equal. destruct Hr as [->|[r ->]]; done.
Qed.

Lemma tokenize_join ws : ws <> [] -> Forall word ws -> tokenize (join_text (str " ") ws) = ws.
Proof.
  unfold tokenize. intros Hne Hw. destruct Hw as [|w ws Hw Hws]; [done|]. clear Hne. cbn [join_text]. revert w Hw.
  induction Hws as [|v ws Hv Hws IH]; intros w Hw; cbn [map concat].
  - by rewrite tokens_from_word by (done || by left).
  - rewrite <- app_assoc, tokens_from_word; [|done|right; by eexists]. f_equal. by apply IH.
Qed.

(** C13: the value of an arithmetic expression in a script is that of the
    expression its text is written for, with the usual precedence of the
    operators and parentheses where they are needed; where a number is not one
    or a divisor is zero, the evaluation fails. *)
Theorem evaluateArithmetic_value a : numbers a ->
  match value_of a with
  | Some v => evaluateArithmetic (text_of_arith a) = Ok (NewFloatValue v)
  | None => exists e, evaluateArithmetic (text_of_arith a) = Err e
  end.
Proof.
  intros Hw. unfold evaluateArithmetic, text_of_arith.
  assert (Hne : tokens_of 0 a <> []) by (destruct a; cbn; [done..|]; case_decide; [|done]; destruct (tokens_of _ _); done).
  rewrite tokenize_join by auto using tokens_words. destruct (reads a Hw) as (_ & _ & He).
  destruct (tokens_of 0 a) as [|t ts] eqn:E; [done|]. rewrite <- E in *. clear E Hne.
  unfold parseExpression, parseExpr. destruct (He (length (tokens_of 0 a)) (length (tokens_of 0 a)) []) as (k & _ & Hg);
    [done|by rewrite app_nil_r..|]. rewrite app_nil_r in Hg. unfold goes_on in Hg. destruct (value_of a).
  - rewrite Hg. by rewrite sums_stop.
  - destruct Hg as [e Hg]. rewrite Hg. by exists e.
Qed.
End Meaning.

Lemma evaluateArithmetic_value_witness : @evaluateArithmetic plain_runtime (str "( 1 + 2 ) * 3") = Ok (NewFloatValue (float_of_Z 9)).
Proof.
  refine (@evaluateArithmetic_value plain_runtime (Bin Times (Bin Plus (Num (str "1")) (Num (str "2"))) (Num (str "3"))) _).
  cbn. done.
Defined.
