(* ===== verification/Auth.v ===== *)
(** * Authentication (auth/auth.go)

    One user, whose password is kept as two digests. The digests belong to
    the crypto libraries. *)

From S2P Require Import Prelude GoLib Types Json.

Record Auth := mkAuth {
  username : bytes;
  password : bytes;              (* the SHA-256 digest in hexadecimal *)
  mysqlSha1 : option bytes;
  enabled : bool
}.

Definition NewAuth : Auth := mkAuth [] [] None false.

Section Auth.
Context (sha256 sha1 : bytes -> bytes).

Definition hashPassword (p : bytes) : bytes := hex_encode (sha256 (str "xxldb_" ++ p ++ str "_2026")).
Definition hashPasswordMySQL (p : bytes) : bytes := sha1 p.

Definition SetCredentials (user pass : bytes) (a : Auth) : Auth :=
  match pass with
  | [] => mkAuth user [] None (negb (bytes_eqb user []))
  | _ => mkAuth user (hashPassword pass) (Some (hashPasswordMySQL pass)) (negb (bytes_eqb user []))
  end.
Definition Enable (a : Auth) : Auth := mkAuth (username a) (password a) (mysqlSha1 a) true.
Definition Disable (a : Auth) : Auth := mkAuth (username a) (password a) (mysqlSha1 a) false.
Definition IsEnabled (a : Auth) : bool := enabled a.
Definition GetUsername (a : Auth) : bytes := username a.
Definition GetMySQLSha1 (a : Auth) : option bytes := mysqlSha1 a.
Definition SetPassword (pass : bytes) (a : Auth) : Auth :=
  mkAuth (username a) (hashPassword pass) (Some (hashPasswordMySQL pass)) (enabled a).
Definition ClearCredentials (a : Auth) : Auth := mkAuth [] [] None false.

Definition Authenticate (user pass : bytes) (a : Auth) : bool :=
  if negb (enabled a) then true
  else if negb (bytes_eqb user (username a)) then false
  else if bytes_eqb (password a) [] then true
  else bytes_eqb (password a) (hashPassword pass).

(** The settings that are kept, a tree for each name. *)
Abbreviation config := (gmap bytes json).
Definition ToMap (a : Auth) : config :=
  let m := <[str "username" := JStr (username a)]> (<[str "password" := JStr (password a)]>
           (<[str "enabled" := JBool (enabled a)]> ∅)) in
  match mysqlSha1 a with Some d => <[str "mysql_sha1" := JStr (hex_encode d)]> m | None => m end.

Definition text_at (k : string) (m : config) : option bytes := match m !! str k with Some (JStr s) => Some s | _ => None end.
Definition bool_at (k : string) (m : config) : option bool := match m !! str k with Some (JBool b) => Some b | _ => None end.

(** A setting that is missing, or of another type, is left as it is. *)
Definition FromMap (m : config) (a : Auth) : Auth :=
  mkAuth (default (username a) (text_at "username" m)) (default (password a) (text_at "password" m))
    (match text_at "mysql_sha1" m ≫= hex_decode with Some d => Some d | None => mysqlSha1 a end)
    (default (enabled a) (bool_at "enabled" m)).

(** ** Properties *)

Lemma ToMap_fields a : text_at "username" (ToMap a) = Some (username a) /\ text_at "password" (ToMap a) = Some (password a) /\
  bool_at "enabled" (ToMap a) = Some (enabled a) /\ text_at "mysql_sha1" (ToMap a) ≫= hex_decode = mysqlSha1 a.
Proof.
  unfold text_at, bool_at, ToMap.
  assert (Hne : forall j k : string, bool_decide (str j = str k) = false -> str j <> str k) by (intros j k; apply bool_decide_eq_false).
  destruct (mysqlSha1 a) as [d|]; simplify_map_eq;
    rewrite ?(lookup_insert_ne _ _ (str "username")), ?(lookup_insert_ne _ _ (str "password")),
      ?(lookup_insert_ne _ _ (str "enabled")), ?(lookup_insert_ne _ _ (str "mysql_sha1")) by (by apply Hne);
    simplify_map_eq; rewrite ?lookup_empty; cbn; rewrite ?hex_decode_encode; done.
Qed.

(** Saving the settings and loading them into any state gives the settings
    back, the second digest apart where there is none to save. *)
Lemma FromMap_ToMap a b : FromMap (ToMap a) b =
  mkAuth (username a) (password a) (match mysqlSha1 a with Some d => Some d | None => mysqlSha1 b end) (enabled a).
Proof. unfold FromMap. destruct (ToMap_fields a) as (-> & -> & -> & ->). done. Qed.

Context (sha256_length : forall s, length (sha256 s) = 32).

Lemma hashPassword_filled p : bytes_eqb (hashPassword p) [] = false.
Proof.
  apply bool_decide_eq_false. intros E. pose proof (length_hex_encode (sha256 (str "xxldb_" ++ p ++ str "_2026"))) as Hl.
  unfold hashPassword in E. rewrite E, sha256_length in Hl. discriminate Hl.
Qed.

Lemma authenticate_set u p a user pass : Authenticate user pass (SetCredentials u p a) =
  bytes_eqb u [] || (bytes_eqb user u && (bytes_eqb p [] || bytes_eqb (hashPassword p) (hashPassword pass))).
Proof.
  unfold Authenticate, SetCredentials. destruct p as [|c p]; cbn [enabled username password].
  - destruct (bytes_eqb u []); cbn [negb orb]; [done|]. by destruct (bytes_eqb user u).
  - destruct (bytes_eqb u []); cbn [negb orb]; [done|]. destruct (bytes_eqb user u); cbn [negb andb]; [|done].
    by rewrite hashPassword_filled.
Qed.

(** Once a user and a password are set, and also after they were saved
    and loaded by another process, exactly that user is let in, with a password
    of the same digest, or with any password where the one set is empty. *)
Theorem credentials_restored u p a b user pass : u <> [] ->
  let after := SetCredentials u p a in
  Authenticate user pass after = Authenticate user pass (FromMap (ToMap after) b) /\
  Authenticate user pass after = bytes_eqb user u && (bytes_eqb p [] || bytes_eqb (hashPassword p) (hashPassword pass)).
Proof.
  intros Hu. cbv zeta. rewrite FromMap_ToMap. split; [done|]. rewrite authenticate_set.
  assert (bytes_eqb u [] = false) as -> by by apply bool_decide_eq_false. done.
Qed.

(** A user set without a password loses the digest for the MySQL protocol,
    but one that is loaded keeps the digest of the process that loads. *)
Lemma stale_digest u a d : mysqlSha1 a = Some d -> mysqlSha1 (FromMap (ToMap (SetCredentials u [] a)) a) = Some d.
Proof. intros Hd. rewrite FromMap_ToMap. exact Hd. Qed.
End Auth.

Definition zero_digest (s : bytes) : bytes := repeat (byte.of_Z 0) 32.
Lemma credentials_restored_witness :
  Authenticate zero_digest (str "eve") (str "x") (SetCredentials zero_digest zero_digest (str "admin") (str "pw") NewAuth) = false.
Proof.
  destruct (credentials_restored zero_digest zero_digest (fun _ => eq_refl) (str "admin") (str "pw") NewAuth NewAuth (str "eve") (str "x")) as [_ ->];
    [discriminate|reflexivity].
Defined.
