(* ===== verification/Eval.v ===== *)
(** * Evaluating expressions (executor/executor.go)

    The engine's state, and the evaluation of an expression on a row. The
    evaluation never fails, it answers NULL instead; but it may panic, load a
    script from the storage, or wait for the storage's lock when the storage
    itself called it. *)

From S2P Require Import Prelude GoLib Types RowCodec Page PageCache TableFile Crypto Json Wal Storage Functions Script Auth Ast.
Local Open Scope Z_scope.

(** What the engine asks of full-text search (fts/fts.go): the operations of
    its manager. [Search] answers the identifiers of the rows with a positive
    score, for a level where it is positive, and nothing on an error. *)
Class FullText := {
  FTS : Type;
  no_indexes : FTS;
  HasIndex : bytes -> bytes -> FTS -> bool;
  ListIndexes : FTS -> list bytes;
  Search : bytes -> bytes -> bytes -> Z -> FTS -> option (list Z);
  IndexDocument : bytes -> bytes -> Z -> bytes -> FTS -> FTS;
  DeleteDocument : bytes -> bytes -> Z -> FTS -> FTS;
  CreateIndex : bytes -> bytes -> option (gmap bytes bytes) -> FTS -> option FTS;
  DropIndex : bytes -> bytes -> FTS -> FTS
}.

(** The order of Go's iteration over a map: any order of its keys. *)
Class MapOrder := {
  key_order : list bytes -> list bytes;
  key_order_perm keys : key_order keys ≡ₚ keys
}.

Record Engine `{FullText} := mkEngine {
  storage : Storage;
  auth : Auth;
  authConfig : option (gmap bytes json);      (* the settings kept in the metadata file *)
  scripts : Script.Manager;
  fts : FTS;
  currentDB : bytes
}.

Inductive EngineError :=
  | StorageFailed (e : StorageError)
  | ParseFailed (text : bytes)
  | UnknownSet (var : bytes) | UnknownShow (type : bytes)
  | MissingTable | NoIndexColumn | IndexFailed.

(** [types.Value{}] *)
Definition zero_value : Value := mkValue TypeUnknown GNil false None.

Section Evaluation.
Context `{GoRuntime} `{FunctionRuntime} `{FullText}.

Abbreviation EM := (SO Engine EngineError).

Definition set_storage (s : Storage) (e : Engine) : Engine := mkEngine _ s (auth e) (authConfig e) (scripts e) (fts e) (currentDB e).
Definition set_scripts (m : Script.Manager) (e : Engine) : Engine := mkEngine _ (storage e) (auth e) (authConfig e) m (fts e) (currentDB e).
Definition set_fts (f : FTS) (e : Engine) : Engine := mkEngine _ (storage e) (auth e) (authConfig e) (scripts e) f (currentDB e).
Definition set_auth (a : Auth) (c : option (gmap bytes json)) (e : Engine) : Engine := mkEngine _ (storage e) a c (scripts e) (fts e) (currentDB e).
Definition set_currentDB (n : bytes) (e : Engine) : Engine := mkEngine _ (storage e) (auth e) (authConfig e) (scripts e) (fts e) n.

(** An operation of the storage. *)
Definition of_storage {A} (m : outcome StorageError A) : outcome EngineError A :=
  match m with Ok a => Ok a | Err e => Err (StorageFailed e) | Panic => Panic | Hang => Hang end.
Definition in_storage {A} (m : SM A) : EM A := fun e =>
  let '(r, s) := m (storage e) in (of_storage r, set_storage s e).

(** A function that fails gives NULL. *)
Definition or_null {E} (m : outcome E Value) : outcome EngineError Value :=
  match m with Ok v => Ok v | Err _ => Ok NewNullValue | Panic => Panic | Hang => Hang end.

(** [colIndex]: the last column of a name, in lower case; zero, the first
    column, for a name that is none. *)
Abbreviation ColIndex := (gmap bytes nat).
Definition column_index (cols : list Types.ColumnDef) : ColIndex :=
  fold_left (fun m '(i, c) => <[to_lower (Name c) := i]> m) (imap pair cols) ∅.
Definition index_of_column (name : bytes) (ix : ColIndex) : nat := default 0%nat (ix !! to_lower name).

Definition cell (row : list Value) (idx : nat) : Value := default NewNullValue (row !! idx).

(** ** Operators *)

(** [matchLikeRunes]: the pattern from [pi] against the text from [si]; a
    character that equals the pattern's is taken before a percent sign stands
    for any text. *)
Fixpoint suffixes {A} (l : list A) : list (list A) := l :: match l with [] => [] | _ :: t => suffixes t end.
Definition percent : Z := 37.
Definition underscore : Z := 95.
Fixpoint matchLikeRunes (pattern : list Z) (text : list Z) : bool :=
  match pattern, text with
  | [], [] => true
  | [], _ :: _ => false
  | p :: pattern, [] => (p =? percent) && matchLikeRunes pattern []
  | p :: rest, c :: text' =>
    if (p =? underscore) || (p =? c) then matchLikeRunes rest text'
    else if p =? percent then existsb (matchLikeRunes rest) (suffixes text)
    else false
  end.
Definition matchLike (text pattern : bytes) : bool := matchLikeRunes (runes pattern) (runes text).
Definition evalLike (l r : Value) : Value := NewBoolValue (matchLike (ToString l) (ToString r)).

Definition evalArithmetic (l r : Value) (op : string) : Value :=
  match ToFloat64 l, ToFloat64 r with
  | Ok lf, Ok rf =>
    let result :=
      if String.eqb op "+" then Some (fadd lf rf)
      else if String.eqb op "-" then Some (fsub lf rf)
      else if String.eqb op "*" then Some (fmul lf rf)
      else if float_is_zero rf then None else Some (fdiv lf rf) in
    match result with
    | None => NewNullValue
    | Some f => if (Type_ l =? TypeInt) && (Type_ r =? TypeInt) then NewIntValue (float_to_int64 f) else NewFloatValue f
    end
  | _, _ => NewNullValue
  end.

Definition is_op (ops : list string) (op : bytes) : bool := existsb (fun o => bytes_eqb op (str o)) ops.

(** The value of a binary operation; an operator that is none of these, as IS
    and the remainder, gives NULL. *)
Definition binary_value (op : bytes) (l r : Value) : Value :=
  if is_op ["="] op then NewBoolValue (Equals l r)
  else if is_op ["<>"; "!="] op then NewBoolValue (negb (Equals l r))
  else if is_op ["<"] op then NewBoolValue (Compare l r <? 0)
  else if is_op [">"] op then NewBoolValue (0 <? Compare l r)
  else if is_op ["<="] op then NewBoolValue (Compare l r <=? 0)
  else if is_op [">="] op then NewBoolValue (0 <=? Compare l r)
  else if is_op ["AND"] op then NewBoolValue (ToBool l && ToBool r)
  else if is_op ["OR"] op then NewBoolValue (ToBool l || ToBool r)
  else if is_op ["LIKE"] op then evalLike l r
  else if is_op ["+"] op then evalArithmetic l r "+"
  else if is_op ["-"] op then evalArithmetic l r "-"
  else if is_op ["*"] op then evalArithmetic l r "*"
  else if is_op ["/"] op then evalArithmetic l r "/"
  else if is_op ["||"] op then NewStringValue (ToString l ++ ToString r)
  else NewNullValue.

Definition unary_value (op : bytes) (r : Value) : Value :=
  if is_op ["NOT"] op then NewBoolValue (negb (ToBool r))
  else if is_op ["-"] op then
    match ToInt64 r, ToFloat64 r with
    | Ok n, _ => NewIntValue (i64 (- n))
    | _, Ok f => NewFloatValue (SFopp f)
    | _, _ => NewNullValue
    end
  else if is_op ["+"] op then r
  else NewNullValue.

Definition between_value (v low high : Value) : Value :=
  NewBoolValue ((0 <=? Compare v low) && (Compare v high <=? 0)).

Definition system_variables : list (list string * Value) :=
  [(["auto_increment_increment"], NewIntValue 1);
   (["character_set_client"; "character_set_connection"; "character_set_results"; "character_set_server"], NewStringValue (str "utf8mb4"));
   (["collation_server"], NewStringValue (str "utf8mb4_general_ci"));
   (["init_connect"], NewStringValue []);
   (["interactive_timeout"], NewIntValue 28800);
   (["license"], NewStringValue (str "GPL"));
   (["lower_case_table_names"], NewIntValue 0);
   (["max_allowed_packet"], NewIntValue 4194304);
   (["net_buffer_length"], NewIntValue 16384);
   (["net_write_timeout"], NewIntValue 60);
   (["query_cache_size"], NewIntValue 0);
   (["query_cache_type"], NewStringValue (str "OFF"));
   (["sql_mode"], NewStringValue []);
   (["system_time_zone"], NewStringValue (str "UTC"));
   (["time_zone"], NewStringValue (str "SYSTEM"));
   (["tx_isolation"; "transaction_isolation"], NewStringValue (str "REPEATABLE-READ"));
   (["wait_timeout"], NewIntValue 28800);
   (["version"], NewStringValue (str "5.7.42"));
   (["version_comment"], NewStringValue (str "XxLdb"))]%string.
Definition evalSystemVariable (name : bytes) : Value :=
  let name := trim_prefix (str "global.") (trim_prefix (str "session.") (trim_prefix (str "@@") (to_lower name))) in
  match List.find (fun p => is_op p.1 name) system_variables with Some (_, v) => v | None => NewStringValue [] end.

(** ** Full-text search *)

Fixpoint contains (sub s : bytes) : bool := has_prefix sub s || match s with [] => false | _ :: t => contains sub t end.
Definition split_dot (key : bytes) : option (bytes * bytes) :=
  i ← index_byte (byte.of_Z 46) key; Some (take i key, drop (S i) key).

(** strings.EqualFold, for text without the few characters whose upper and
    lower cases do not determine each other *)
Definition equal_fold (a b : bytes) : bool := bytes_eqb (to_lower a) (to_lower b).

(** The table of the first index on a column of this name. *)
Definition indexed_table (column : bytes) (f : FTS) : bytes :=
  match List.find (fun key => match split_dot key with Some (_, c) => equal_fold c column | None => false end) (ListIndexes f) with
  | Some key => match split_dot key with Some (t, _) => t | None => [] end
  | None => []
  end.

Definition evalMatchAgainst (column query : bytes) (level : Z) (row : list Value) (ix : ColIndex) (rowID : Z) (f : FTS) : Value :=
  let column := to_lower column in
  match (i ← ix !! column; row !! i) with
  | None => NewBoolValue false
  | Some v =>
    let table := indexed_table column f in
    let ids := if HasIndex table column f then Search table column query level f else None in
    match ids with
    | Some ids => NewBoolValue (bool_decide (rowID ∈ ids))
    | None => NewBoolValue (contains (to_lower query) (to_lower (ToString v)))
    end
  end.

(** ** Expressions *)

Definition map_m {S E A B} (f : A -> SO S E B) : list A -> SO S E (list B) :=
  fix go l := match l with [] => mret [] | x :: l => y ← f x; ys ← go l; mret (y :: ys) end.

(** The first clause whose condition holds. *)
Definition first_when (eval : Expression -> EM Value) (otherwise : EM Value) : list (WhenClause Expression) -> EM Value :=
  fix go l := match l with
              | [] => otherwise
              | mkWhen c v :: l => b ← eval c; if ToBool b then eval v else go l
              end.

(** Is the value among these? The list is evaluated up to the first. *)
Definition among (eval : Expression -> EM Value) (v : Value) : list Expression -> EM bool :=
  fix go l := match l with [] => mret false | x :: l => w ← eval x; if Compare v w =? 0 then mret true else go l end.

Section Row.
(** The bound on the pages and cells of a table file that are read, whether
    the caller holds the lock of the storage, and the row. *)
Context `{JSONRuntime} `{RecordJSON} `{Environment} `{ColumnJSON} (fuel : nat) (locked : bool).

(** The script of a function is looked for in the table of scripts once. *)
Definition script_row (name : bytes) (row : list Value) : option bytes :=
  match row with n :: s :: _ => if bytes_eqb (to_lower (ToString n)) (to_lower name) then Some (ToString s) else None | _ => None end.
Fixpoint find_script (name : bytes) (rows : list (list Value)) : option bytes :=
  match rows with
  | [] => None
  | row :: rows => match script_row name row with Some s => Some s | None => find_script name rows end
  end.
Definition load_script (name : bytes) : EM unit :=
  m ← gets scripts;
  match GetScript name m with
  | Some _ => mret tt
  | None =>
    if locked then lift Hang
    else rows ← try (in_storage (GetRows fuel (str "xxscript")));
         match rows with
         | inl rows => match find_script name rows with
                       | Some s => modify (set_scripts (Register name s m))
                       | None => mret tt
                       end
         | inr _ => mret tt
         end
  end.
Definition evalScriptFunc (name : bytes) (args : list Value) : EM Value :=
  load_script name;; m ← gets scripts; lift (or_null (Execute name args m)).
Definition evalFunction (name : bytes) (args : list Value) : EM Value :=
  if IsScriptFunc name then evalScriptFunc name args else lift (or_null (Call name args)).

Context (row : list Value) (ix : ColIndex) (rowID : Z).

Definition evalColumn (column : bytes) : Value :=
  if has_prefix (str "@@") column then evalSystemVariable column else cell row (index_of_column column ix).

Fixpoint evalExpr (e : Expression) : EM Value :=
  match e with
  | ExprLiteral v => mret (NewValue v)
  | ExprColumn _ column => mret (evalColumn column)
  | ExprFunction name args => values ← map_m evalExpr args; evalFunction name values
  | ExprBinaryOp l op r => v ← evalExpr l; w ← evalExpr r; mret (binary_value op v w)
  | ExprUnaryOp op r => v ← evalExpr r; mret (unary_value op v)
  | ExprCase _ whens otherwise =>
    first_when evalExpr (match otherwise with Some e => evalExpr e | None => mret NewNullValue end) whens
  | ExprIn l values => v ← evalExpr l; b ← among evalExpr v values; mret (NewBoolValue b)
  | ExprInSelect l _ => _ ← evalExpr l; mret (NewBoolValue false)
  | ExprBetween v low high => v ← evalExpr v; low ← evalExpr low; high ← evalExpr high; mret (between_value v low high)
  | ExprMatch column query _ level => f ← gets fts; mret (evalMatchAgainst column query level row ix rowID f)
  | ExprExists _ | ExprSubquery _ | ExprStar _ => mret NewNullValue
  end.
Definition evalBool (e : Expression) : EM bool := v ← evalExpr e; mret (ToBool v).
End Row.
End Evaluation.

(** Full-text search without an index. *)
Definition no_full_text : FullText := {|
  FTS := unit; no_indexes := tt;
  HasIndex _ _ _ := false; ListIndexes _ := []; Search _ _ _ _ _ := None;
  IndexDocument _ _ _ _ f := f; DeleteDocument _ _ _ f := f;
  CreateIndex _ _ _ _ := None; DropIndex _ _ f := f
|}.

(** An engine on an empty storage in memory. *)
Definition empty_engine : @Engine no_full_text := mkEngine no_full_text (NewStorage false 0) NewAuth None NewManager tt [].
