(* ===== verification/EvalSpec.v ===== *)
(** * Properties of the evaluation of expressions

    LIKE against a reference; expressions that neither load a script nor
    search an index have a value that depends on the row alone. *)

From S2P Require Import Prelude GoLib Types RowCodec Page PageCache TableFile Crypto Json Wal Storage Functions Script Auth Ast Eval.
Local Open Scope Z_scope.

(** ** LIKE *)

(** What a pattern matches: an underscore any character, a percent sign any
    text, another character itself. *)
Inductive like : list Z -> list Z -> Prop :=
  | like_end : like [] []
  | like_any c p s : like p s -> like (underscore :: p) (c :: s)
  | like_char c p s : like p s -> like (c :: p) (c :: s)
  | like_text t p s : like p s -> like (percent :: p) (t ++ s).

Lemma suffixes_elem {A} (t l : list A) : In t (suffixes l) <-> exists p, l = p ++ t.
Proof.
  induction l as [|x l IH]; cbn [suffixes In].
  - split; [intros [<-|[]]; by exists []|]. intros [p Hp]. left. symmetry in Hp. by apply app_nil in Hp as [_ ->].
  - rewrite IH. split.
    + intros [<-|[p ->]]; [by exists []|by exists (x :: p)].
    + intros [[|y p] Hp]; [by left|]. right. injection Hp as <- ->. by exists p.
Qed.

Lemma matchLike_sound p : forall s, matchLikeRunes p s = true -> like p s.
Proof.
  induction p as [|x p IH]; intros [|c s]; cbn [matchLikeRunes]; [intros _; constructor|done| |].
  - intros [Hx Hp]%andb_true_iff. apply Z.eqb_eq in Hx. subst x. apply (like_text []), IH, Hp.
  - destruct (Z.eqb_spec x underscore) as [->|Hu]; cbn [orb]; [intros Hp; by apply like_any, IH|].
    destruct (Z.eqb_spec x c) as [->|Hc]; [intros Hp; by apply like_char, IH|].
    destruct (Z.eqb_spec x percent) as [->|Hp]; [|done].
    intros (t & [u ->]%suffixes_elem & Ht)%existsb_exists. apply like_text, IH, Ht.
Qed.

Lemma like_cons_inv x p s : like (x :: p) s ->
  (x = percent /\ exists t u, s = t ++ u /\ like p u) \/ (exists c u, s = c :: u /\ like p u /\ (x = underscore \/ x = c)).
Proof.
  intros Hl. inversion Hl as [|c q u Hq|c q u Hq|t q u Hq]; subst.
  - right. exists c, u. auto.
  - right. exists x, u. auto.
  - left. split; [done|]. by exists t, u.
Qed.

Lemma matchLike_complete p : forall s, percent ∉ s -> like p s -> matchLikeRunes p s = true.
Proof.
  induction p as [|x p IH]; intros s Hs Hl; [by inversion Hl|].
  destruct (like_cons_inv _ _ _ Hl) as [(-> & t & u & -> & Hu)|(c & u & -> & Hu & Hx)].
  - assert (Hm : matchLikeRunes p u = true) by (apply IH; [intros Hin; apply Hs, elem_of_app; by right|done]).
    destruct (t ++ u) as [|c s] eqn:E.
    + apply app_nil in E as [_ Hnil]. subst u. exact Hm.
    + cbn [matchLikeRunes]. change (percent =? underscore) with false. cbn [orb].
      destruct (Z.eqb_spec percent c) as [<-|_]; [by apply not_elem_of_cons in Hs as [Hs _]|]. change (percent =? percent) with true. cbn iota.
      apply existsb_exists. exists u. split; [|done]. apply suffixes_elem. rewrite <- E. by exists t.
  - cbn [matchLikeRunes]. replace ((x =? underscore) || (x =? c)) with true.
    + apply IH; [by apply not_elem_of_cons in Hs as [_ Hs]|done].
    + symmetry. apply orb_true_iff. destruct Hx as [E|E]; subst x; [left|right]; apply Z.eqb_refl.
Qed.

(** C29: LIKE holds only where the pattern matches the text, and wherever it
    does if the text has no percent sign: the search through the suffixes is
    complete then. A percent sign of the text is taken as the pattern's own. *)
Theorem evalLike_like `{GoRuntime} (l r : Value) :
  (evalLike l r = NewBoolValue true -> like (runes (ToString r)) (runes (ToString l))) /\
  (percent ∉ runes (ToString l) -> like (runes (ToString r)) (runes (ToString l)) -> evalLike l r = NewBoolValue true).
Proof.
  unfold evalLike, matchLike. split.
  - destruct (matchLikeRunes _ _) eqn:E; [|done]. intros _. by apply matchLike_sound.
  - intros Hp Hl. by rewrite matchLike_complete.
Qed.

Lemma evalLike_like_witness : @evalLike plain_runtime (NewStringValue (str "hello")) (NewStringValue (str "h_l%o")) = NewBoolValue true.
Proof.
  apply evalLike_like; [apply (bool_decide_eq_true_1 _); vm_compute; reflexivity|].
  replace (runes _) with (runes (str "h_l%o")) by reflexivity. replace (runes (ToString _)) with (runes (str "hello")) by reflexivity.
  apply like_char, like_any, like_char. apply (like_text (runes (str "l"))). apply like_char, like_end.
Defined.

(** ** Induction on expressions, through the lists of operands *)

Definition when_ok (P : Expression -> Prop) (w : WhenClause Expression) : Prop := P (Cond w) /\ P (Then w).
Definition option_ok (P : Expression -> Prop) (o : option Expression) : Prop := match o with Some e => P e | None => True end.

Section Induction.
Context (P : Expression -> Prop).
Context (Hleaf : forall e, match e with
                           | ExprLiteral _ | ExprColumn _ _ | ExprExists _ | ExprSubquery _ | ExprStar _ | ExprMatch _ _ _ _ => P e
                           | _ => True
                           end).
Context (Hfunction : forall name args, Forall P args -> P (ExprFunction name args)).
Context (Hunary : forall op r, P r -> P (ExprUnaryOp op r)).
Context (Hbinary : forall l op r, P l -> P r -> P (ExprBinaryOp l op r)).
Context (Hcase : forall c whens otherwise, Forall (when_ok P) whens -> option_ok P otherwise -> P (ExprCase c whens otherwise)).
Context (Hin : forall l values, P l -> Forall P values -> P (ExprIn l values)).
Context (Hin_select : forall l q, P l -> P (ExprInSelect l q)).
Context (Hbetween : forall v low high, P v -> P low -> P high -> P (ExprBetween v low high)).

Lemma expr_induction : forall e, P e.
Proof.
  fix IH 1. intros e. pose proof (Hleaf e) as Hl. destruct e; try exact Hl; clear Hl.
  - apply Hfunction. induction args as [|a args IHargs]; constructor; [apply IH|apply IHargs].
  - apply Hunary, IH.
  - apply Hbinary; apply IH.
  - apply Hcase; [|destruct elseExpr; [apply IH|exact I]].
    induction whens as [|[c v] whens IHwhens]; constructor; [split; apply IH|apply IHwhens].
  - apply Hin; [apply IH|]. induction values as [|a values IHvalues]; constructor; [apply IH|apply IHvalues].
  - apply Hin_select, IH.
  - apply Hbetween; apply IH.
Qed.
End Induction.

(** ** Values that depend on the row alone *)

Section Pure.
Context `{GoRuntime} `{FunctionRuntime} `{FullText} `{JSONRuntime} `{RecordJSON} `{Environment} `{ColumnJSON} (fuel : nat).

(** No value is one that needs the engine: a script or an index. *)
Abbreviation PM := (outcome unit).

Definition map_pure (f : Expression -> PM Value) : list Expression -> PM (list Value) :=
  fix go l := match l with [] => Ok [] | x :: l => y ← f x; ys ← go l; Ok (y :: ys) end.
Definition first_when_pure (eval : Expression -> PM Value) (otherwise : PM Value) : list (WhenClause Expression) -> PM Value :=
  fix go l := match l with
              | [] => otherwise
              | mkWhen c v :: l => b ← eval c; if ToBool b then eval v else go l
              end.
Definition among_pure (eval : Expression -> PM Value) (v : Value) : list Expression -> PM bool :=
  fix go l := match l with [] => Ok false | x :: l => w ← eval x; if Compare v w =? 0 then Ok true else go l end.
Definition call_pure (name : bytes) (args : list Value) : PM Value :=
  if IsScriptFunc name then Err tt
  else match Call name args with Ok v => Ok v | Err _ => Ok NewNullValue | Panic => Panic | Hang => Hang end.

Section At.
Context (row : list Value) (ix : gmap bytes nat).

Fixpoint value_at (e : Expression) : PM Value :=
  match e with
  | ExprLiteral v => Ok (NewValue v)
  | ExprColumn _ column => Ok (evalColumn row ix column)
  | ExprFunction name args => values ← map_pure value_at args; call_pure name values
  | ExprBinaryOp l op r => v ← value_at l; w ← value_at r; Ok (binary_value op v w)
  | ExprUnaryOp op r => v ← value_at r; Ok (unary_value op v)
  | ExprCase _ whens otherwise =>
    first_when_pure value_at (match otherwise with Some e => value_at e | None => Ok NewNullValue end) whens
  | ExprIn l values => v ← value_at l; b ← among_pure value_at v values; Ok (NewBoolValue b)
  | ExprInSelect l _ => _ ← value_at l; Ok (NewBoolValue false)
  | ExprBetween v low high => v ← value_at v; low ← value_at low; high ← value_at high; Ok (between_value v low high)
  | ExprMatch _ _ _ _ => Err tt
  | ExprExists _ | ExprSubquery _ | ExprStar _ => Ok NewNullValue
  end.

Context (locked : bool) (rowID : Z) (e : Engine).

(** The evaluation gives that value and leaves the engine as it is. *)
Definition settles (x : Expression) : Prop :=
  forall v, value_at x = Ok v -> evalExpr fuel locked row ix rowID x e = (Ok v, e).

Lemma bind_pure {A B} (m : PM A) (k : A -> PM B) b : m ≫= k = Ok b -> exists a, m = Ok a /\ k a = Ok b.
Proof. destruct m as [a| | |]; [|done..]. intros Hk. by exists a. Qed.

Lemma map_settles l : Forall settles l -> forall vs, map_pure value_at l = Ok vs ->
  map_m (evalExpr fuel locked row ix rowID) l e = (Ok vs, e).
Proof.
  induction 1 as [|x l Hx Hl IH]; intros vs; cbn [map_pure map_m]; [by intros [= <-]|].
  intros (v & Hv & Hk)%bind_pure. apply bind_pure in Hk as (ws & Hw & [= <-]).
  rewrite (bind_ok _ _ _ _ _ (Hx v Hv)), (bind_ok _ _ _ _ _ (IH ws Hw)). done.
Qed.

Lemma first_when_settles (o : PM Value) o' whens : Forall (when_ok settles) whens -> (forall v, o = Ok v -> o' e = (Ok v, e)) ->
  forall v, first_when_pure value_at o whens = Ok v -> first_when (evalExpr fuel locked row ix rowID) o' whens e = (Ok v, e).
Proof.
  intros Hw Ho. induction Hw as [|[c x] whens [Hc Hx] Hw IH]; intros v; cbn [first_when_pure first_when]; [apply Ho|].
  intros (b & Hb & Hk)%bind_pure. rewrite (bind_ok _ _ _ _ _ (Hc b Hb)). destruct (ToBool b); [by apply Hx|by apply IH].
Qed.

Lemma among_settles v l : Forall settles l -> forall b, among_pure value_at v l = Ok b ->
  among (evalExpr fuel locked row ix rowID) v l e = (Ok b, e).
Proof.
  induction 1 as [|x l Hx Hl IH]; intros b; cbn [among_pure among]; [by intros [= <-]|].
  intros (w & Hw & Hk)%bind_pure. rewrite (bind_ok _ _ _ _ _ (Hx w Hw)).
  destruct (Compare v w =? 0); [by injection Hk as <-|by apply IH].
Qed.

Lemma evalExpr_value x : settles x.
Proof.
  revert x. apply expr_induction; [intros x|intros name args IH|intros op r IH|intros l op r IHl IHr|intros c whens o IHw IHo
    |intros l values IHl IHv|intros l q IHl|intros v low high IHv IHlow IHhigh].
  - destruct x; try exact I; intros w; cbn [value_at evalExpr]; try (by intros [= <-]); done.
  - intros v. cbn [value_at evalExpr]. intros (vs & Hvs & Hk)%bind_pure. rewrite (bind_ok _ _ _ _ _ (map_settles _ IH _ Hvs)).
    unfold call_pure, evalFunction in *. destruct (IsScriptFunc name); [done|]. unfold or_null, lift.
    destruct (Call name vs); try done; by injection Hk as <-.
  - intros v. cbn [value_at evalExpr]. intros (w & Hw & [= <-])%bind_pure. by rewrite (bind_ok _ _ _ _ _ (IH w Hw)).
  - intros v. cbn [value_at evalExpr]. intros (a & Ha & (b & Hb & [= <-])%bind_pure)%bind_pure.
    by rewrite (bind_ok _ _ _ _ _ (IHl a Ha)), (bind_ok _ _ _ _ _ (IHr b Hb)).
  - intros v. cbn [value_at evalExpr]. apply first_when_settles; [done|]. intros w Hw.
    destruct o as [o|]; [by apply IHo|by injection Hw as <-].
  - intros v. cbn [value_at evalExpr]. intros (a & Ha & (b & Hb & [= <-])%bind_pure)%bind_pure.
    by rewrite (bind_ok _ _ _ _ _ (IHl a Ha)), (bind_ok _ _ _ _ _ (among_settles a values IHv b Hb)).
  - intros v. cbn [value_at evalExpr]. intros (a & Ha & [= <-])%bind_pure. by rewrite (bind_ok _ _ _ _ _ (IHl a Ha)).
  - intros w. cbn [value_at evalExpr]. intros (a & Ha & (b & Hb & (c & Hc & [= <-])%bind_pure)%bind_pure)%bind_pure.
    by rewrite (bind_ok _ _ _ _ _ (IHv a Ha)), (bind_ok _ _ _ _ _ (IHlow b Hb)), (bind_ok _ _ _ _ _ (IHhigh c Hc)).
Qed.
End At.
End Pure.
