(* ===== verification/TypeSpec.v ===== *)
(** * The types of expressions

    A static type for expressions, from the types of the columns, and its
    soundness: what an expression evaluates to is NULL or of its type. *)

From S2P Require Import Prelude GoLib Types RowCodec Page PageCache TableFile Crypto Json Wal Storage Functions Script Auth Ast Eval EvalSpec.
Local Open Scope Z_scope.

(** A value is NULL or of a type, with data of that type where it is a number
    or a text. *)
Definition data_of (t : DataType) (d : GoData) : bool :=
  if t =? TypeInt then match d with GInt _ _ => true | _ => false end
  else if t =? TypeFloat then match d with GFloat64 _ => true | _ => false end
  else if t =? TypeVarchar then match d with GString _ => true | _ => false end
  else true.
Definition has_type (t : DataType) (v : Value) : Prop :=
  IsNull v = true \/ (t <> TypeNull /\ Type_ v = t /\ data_of t (Data v) = true).

Lemma has_type_null t : has_type t NewNullValue.
Proof. by left. Qed.
Lemma has_type_int n : has_type TypeInt (NewIntValue n).
Proof. by right. Qed.
Lemma has_type_bool b : has_type TypeInt (NewBoolValue b).
Proof. right. by destruct b. Qed.
Lemma has_type_float f : has_type TypeFloat (NewFloatValue f).
Proof. by right. Qed.
Lemma has_type_string s : has_type TypeVarchar (NewStringValue s).
Proof. by right. Qed.
Create HintDb typing discriminated.
#[export] Hint Resolve has_type_null has_type_int has_type_bool has_type_float has_type_string : typing.

(** ** Functions *)

Section Functions.
Context `{GoRuntime} `{FunctionRuntime}.

(** The types of the results, in the order of the registry. *)
Definition result_types : list (option DataType) :=
  let text := Some TypeVarchar in let int := Some TypeInt in let float := Some TypeFloat in
  let date := Some TypeDate in let image := Some TypeImage in let blob := Some TypeBlob in
  [text; int; int; text; text; text; text; text; text; text; text; text; int; text; text; text; text;
   float; float; int; int; float; float; int; int;
   int; float; float; None; None;
   date; int; int; int; int; int; int; int; date; date; text;
   None; text; int; float; None; None; None; int; int; text;
   int; int; float; float; float; float; float; float; float; float; float;
   text; text; int; date; Some TypeDatetime; date; int; int; int; int;
   image; text; int; int; text; int; text; image; text; blob; text; blob; text] ++ repeat None 14.

Definition function_type (name : bytes) : option DataType :=
  t ← List.find (fun p => existsb (fun n => bytes_eqb (to_upper name) (str n)) p.1) (zip (map fst Registry) result_types); t.2.

Definition typed (t : DataType) (f : list Value -> outcome FunError Value) : Prop := forall args v, f args = Ok v -> has_type t v.
Definition typed_value (t : DataType) (m : outcome FunError Value) : Prop := forall v, m = Ok v -> has_type t v.

Lemma typed_ok t v : has_type t v -> typed_value t (Ok v).
Proof. by intros Hv w [= <-]. Qed.
Lemma typed_fail t e : typed_value t (Err e).
Proof. done. Qed.
Lemma typed_bind {A} t (m : outcome FunError A) k : (forall a, typed_value t (k a)) -> typed_value t (m ≫= k).
Proof. intros Hk v. destruct m; [apply Hk|done..]. Qed.
Lemma typed_intro t f : (forall args, typed_value t (f args)) -> typed t f.
Proof. intros Hf args. apply Hf. Qed.
Lemma typed_one t name f : (forall v, typed_value t (f v)) -> typed t (one name f).
Proof. intros Hf [|v [|]] w; [done| |done]. unfold one. case_match; [intros [= <-]; by left|apply Hf]. Qed.
Lemma typed_first_of_two t name f : (forall v w, typed_value t (f v w)) -> typed t (first_of_two name f).
Proof. intros Hf [|v [|w [|]]] x; try done. unfold first_of_two. case_match; [intros [= <-]; by left|apply Hf]. Qed.
Lemma typed_two t name f : (forall v w, typed_value t (f v w)) -> typed t (two name f).
Proof. intros Hf [|v [|w [|]]] x; try done. unfold two. case_match; [intros [= <-]; by left|apply Hf]. Qed.
Lemma typed_at_least_one t name f : (forall v rest, typed_value t (f v rest)) -> typed t (at_least_one name f).
Proof. intros Hf [|v rest] x; [done|]. unfold at_least_one. case_match; [intros [= <-]; by left|apply Hf]. Qed.
Lemma typed_of_image t name f : (forall d v, f d = Some v -> has_type t v) -> typed t (of_image name f).
Proof.
  intros Hf [|v [|]] w; [done| |done]. unfold of_image. intros [= <-]. destruct (getImageData v) as [d|]; cbn; [|by left].
  destruct (f d) eqn:E; cbn; [by eapply Hf|by left].
Qed.
Lemma typed_image_field t name f : (forall i, has_type t (f i)) -> typed t (image_field name f).
Proof. intros Hf. apply typed_of_image. intros d v. destruct (parseImageInfo d) as [i|]; [|done]. intros [= <-]. apply Hf. Qed.
End Functions.

(** Look into a function for its results. *)
Ltac typing :=
  cbv beta zeta;
  lazymatch goal with
  | |- typed _ (one _ _) => apply typed_one; intros; typing
  | |- typed _ (first_of_two _ _) => apply typed_first_of_two; intros; typing
  | |- typed _ (two _ _) => apply typed_two; intros; typing
  | |- typed _ (at_least_one _ _) => apply typed_at_least_one; intros; typing
  | |- typed _ (image_field _ _) => apply typed_image_field; intros; typing
  | |- typed _ (of_image _ _) => apply typed_of_image; intros ? ? [= <-]; typing
  | |- typed _ (fun _ => _) => apply typed_intro; intros; typing
  | |- typed ?t ?f => let f' := eval red in f in change (typed t f'); typing
  | |- typed_value _ (mbind _ _) => apply typed_bind; intros; typing
  | |- typed_value _ (Ok _) => apply typed_ok; typing
  | |- typed_value _ (match ?x with _ => _ end) => destruct x; typing
  | |- typed_value _ (Err _) => apply typed_fail
  | |- typed_value _ Panic => done
  | |- typed_value ?t ?m => let m' := eval red in m in change (typed_value t m'); typing
  | |- has_type _ (match ?x with _ => _ end) => destruct x; typing
  | |- has_type _ _ => first [solve [auto with typing] | by right]
  end.

Section Registry.
Context `{GoRuntime} `{FunctionRuntime}.

Definition entry_typed (p : list string * Functions.Function) (o : option DataType) : Prop :=
  match o with Some t => typed t p.2 | None => True end.

Lemma registry_typed : Forall2 entry_typed Registry result_types.
Proof.
  unfold Registry, result_types, host_functions. cbn [map app repeat].
  repeat (apply Forall2_cons; split; [unfold entry_typed; cbn [snd]; first [exact I|typing]|]). apply Forall2_nil. exact I.
Qed.
End Registry.

(** ** Expressions *)

Section Typing.
Context `{GoRuntime} `{FunctionRuntime} `{FullText} `{JSONRuntime} `{RecordJSON} `{Environment} `{ColumnJSON}.


Lemma Call_typed name args t v : function_type name = Some t -> Call name args = Ok v -> has_type t v.
Proof.
  unfold function_type, Call, Get. generalize registry_typed. generalize result_types. generalize Registry.
  intros l types Hl. induction Hl as [|[names f] o l types Ho Hl IH]; cbn [map zip_with List.find fst snd]; [done|].
  destruct (existsb _ names); cbn; [|exact IH]. intros -> Hc. exact (Ho args v Hc).
Qed.

(** The type two alternatives have, NULL being of any. *)
Definition lub (a b : option DataType) : option DataType :=
  match a, b with
  | Some a, Some b => if a =? b then Some a else if a =? TypeNull then Some b else if b =? TypeNull then Some a else None
  | _, _ => None
  end.

Definition literal_type (d : GoData) : option DataType :=
  match d with
  | GNil => Some TypeNull
  | GFloat32 _ => None
  | GBool _ => None
  | _ => Some (detectType d)
  end.

Definition arithmetic_type (a b : option DataType) : option DataType :=
  match a, b with
  | Some a, Some b => if (a =? TypeInt) && (b =? TypeInt) then Some TypeInt
                      else if (a =? TypeNull) || (b =? TypeNull) then Some TypeNull
                      else Some TypeFloat
  | _, _ => None
  end.
Definition binary_type (op : bytes) (a b : option DataType) : option DataType :=
  if is_op ["="; "<>"; "!="; "<"; ">"; "<="; ">="; "AND"; "OR"; "LIKE"] op then Some TypeInt
  else if is_op ["+"; "-"; "*"; "/"] op then arithmetic_type a b
  else if is_op ["||"] op then Some TypeVarchar
  else Some TypeNull.
(** The negation of a FLOAT is an INT. *)
Definition unary_type (op : bytes) (a : option DataType) : option DataType :=
  if is_op ["NOT"] op then Some TypeInt
  else if is_op ["-"] op then
    match a with Some a => if (a =? TypeInt) || (a =? TypeFloat) then Some TypeInt else if a =? TypeNull then Some TypeNull else None | None => None end
  else if is_op ["+"] op then a
  else Some TypeNull.

Section Static.
Context (types : list DataType) (ix : gmap bytes nat).

Definition column_type (column : bytes) : option DataType :=
  if has_prefix (str "@@") column then None else types !! index_of_column column ix.

Fixpoint type_of (e : Expression) : option DataType :=
  match e with
  | ExprLiteral d => literal_type d
  | ExprColumn _ column => column_type column
  | ExprFunction name _ => if IsScriptFunc name then None else function_type name
  | ExprUnaryOp op r => unary_type op (type_of r)
  | ExprBinaryOp l op r => binary_type op (type_of l) (type_of r)
  | ExprCase _ whens otherwise =>
    fold_right (fun w t => lub (type_of (Then w)) t) (match otherwise with Some e => type_of e | None => Some TypeNull end) whens
  | ExprIn _ _ | ExprInSelect _ _ | ExprBetween _ _ _ | ExprMatch _ _ _ _ => Some TypeInt
  | ExprExists _ | ExprSubquery _ | ExprStar _ => Some TypeNull
  end.
End Static.
End Typing.

Section Soundness.
Context `{GoRuntime} `{FunctionRuntime} `{FullText} `{JSONRuntime} `{RecordJSON} `{Environment} `{ColumnJSON}.

Lemma has_type_lub_l a b t v : lub a b = Some t -> (forall s, a = Some s -> has_type s v) -> has_type t v.
Proof.
  unfold lub. destruct a as [a|], b as [b|]; try done. intros Ht Hv. specialize (Hv a eq_refl).
  destruct (a =? b) eqn:E; [by injection Ht as <-|]. destruct (a =? TypeNull) eqn:Ea; zbool.
  - subst a. left. destruct Hv as [Hv|[Hv _]]; [done|by destruct Hv].
  - destruct (b =? TypeNull); [by injection Ht as <-|done].
Qed.
Lemma has_type_lub_r a b t v : lub a b = Some t -> (forall s, b = Some s -> has_type s v) -> has_type t v.
Proof.
  unfold lub. destruct a as [a|], b as [b|]; try done. intros Ht Hv. specialize (Hv b eq_refl).
  destruct (a =? b) eqn:E; [zbool; by injection Ht as <-; subst a|]. destruct (a =? TypeNull) eqn:Ea; [by injection Ht as <-|].
  destruct (b =? TypeNull) eqn:Eb; zbool; [|done].
  subst b. left. destruct Hv as [Hv|[Hv _]]; [done|by destruct Hv].
Qed.

Lemma has_type_literal d t : literal_type d = Some t -> has_type t (NewValue d).
Proof. destruct d; cbn; try (by intros [= <-]; right); [intros [= <-]; by left|done..]. Qed.

Lemma has_type_not_int t v : has_type t v -> IsNull v = false -> t <> TypeInt -> (Type_ v =? TypeInt) = false.
Proof. intros [Hn|(_ & Ht & _)] Hv Hne; [congruence|]. rewrite Ht. by apply Z.eqb_neq. Qed.

Lemma has_type_arithmetic a b t v w op : arithmetic_type a b = Some t ->
  (forall s, a = Some s -> has_type s v) -> (forall s, b = Some s -> has_type s w) -> has_type t (evalArithmetic v w op).
Proof.
  unfold arithmetic_type. destruct a as [a|], b as [b|]; try done. intros Ht Hv Hw.
  specialize (Hv a eq_refl). specialize (Hw b eq_refl). unfold evalArithmetic.
  destruct (IsNull v) eqn:Nv; [unfold ToFloat64 at 1; rewrite Nv; by left|].
  destruct (IsNull w) eqn:Nw; [unfold ToFloat64; rewrite Nw; destruct (if IsNull v then _ else _); by left|].
  destruct (ToFloat64 v) as [x| | |]; [|by left..]. destruct (ToFloat64 w) as [y| | |]; [|by left..].
  match goal with |- has_type _ (match ?r with Some _ => _ | None => _ end) => destruct r as [f|] end; [|by left].
  destruct ((a =? TypeInt) && (b =? TypeInt)) eqn:Eab.
  - injection Ht as <-. zbool. subst a b. destruct Hv as [?|(_ & Tv & _)]; [congruence|]. destruct Hw as [?|(_ & Tw & _)]; [congruence|].
    rewrite Tv, Tw. by right.
  - destruct ((a =? TypeNull) || (b =? TypeNull)) eqn:En.
    + apply orb_true_iff in En as [E|E]; zbool; subst.
      * destruct Hv as [?|[Hv _]]; [congruence|by destruct Hv].
      * destruct Hw as [?|[Hw _]]; [congruence|by destruct Hw].
    + injection Ht as <-. apply andb_false_iff in Eab as [E|E]; zbool;
        [rewrite (has_type_not_int a v) by done|rewrite (has_type_not_int b w), andb_false_r by done]; by right.
Qed.

Lemma has_type_binary op a b t v w : binary_type op a b = Some t ->
  (forall s, a = Some s -> has_type s v) -> (forall s, b = Some s -> has_type s w) -> has_type t (binary_value op v w).
Proof.
  unfold binary_type, binary_value, is_op. cbn [existsb]. intros Ht Hv Hw.
  repeat match goal with
  | |- context [bytes_eqb op ?o] =>
    destruct (bytes_eqb op o); cbn [orb] in *;
    [first [ injection Ht as <-; solve [auto with typing | unfold evalLike; auto with typing]
           | by apply (has_type_arithmetic a b) ]|]
  end.
  injection Ht as <-. by left.
Qed.

Lemma ToInt64_number t v : has_type t v -> IsNull v = false -> t = TypeInt \/ t = TypeFloat -> exists n, ToInt64 v = Ok n.
Proof.
  intros [Hn|(_ & Ht & Hd)] Hv Hor; [congruence|]. unfold ToInt64. rewrite Hv.
  destruct Hor as [-> | ->]; cbn in Hd; destruct (Data v); try done; by eexists.
Qed.

Lemma has_type_unary op a t v : unary_type op a = Some t -> (forall s, a = Some s -> has_type s v) -> has_type t (unary_value op v).
Proof.
  unfold unary_type, unary_value. intros Ht Hv. destruct (is_op ["NOT"] op); [injection Ht as <-; auto with typing|].
  destruct (is_op ["-"] op).
  - destruct a as [a|]; [|done]. specialize (Hv a eq_refl). destruct (IsNull v) eqn:Nv.
    { unfold ToInt64, ToFloat64. rewrite Nv. by left. }
    destruct ((a =? TypeInt) || (a =? TypeFloat)) eqn:E.
    + injection Ht as <-. destruct (ToInt64_number a v Hv Nv) as [n ->]; [|auto with typing].
      apply orb_true_iff in E as [E|E]; zbool; auto.
    + destruct (a =? TypeNull) eqn:En; [|done]. zbool. subst. destruct Hv as [?|[Hv _]]; [congruence|by destruct Hv].
  - destruct (is_op ["+"] op); [by apply Hv|]. injection Ht as <-. by left.
Qed.

(** ** Soundness *)

Context (fuel : nat) (locked : bool) (types : list DataType) (ix : gmap bytes nat) (row : list Value) (rowID : Z).
Context (Hrow : forall i v t, row !! i = Some v -> types !! i = Some t -> has_type t v).

Definition sound (x : Expression) : Prop := forall e v e' t,
  evalExpr fuel locked row ix rowID x e = (Ok v, e') -> type_of types ix x = Some t -> has_type t v.

Lemma column_sound column t : column_type types ix column = Some t -> has_type t (evalColumn row ix column).
Proof.
  unfold column_type, evalColumn, cell. destruct (has_prefix _ column); [done|]. intros Ht.
  destruct (row !! index_of_column column ix) as [v|] eqn:E; cbn; [by eapply Hrow|by left].
Qed.

Lemma case_sound o o' whens : (forall e v e' t, o' e = (Ok v, e') -> o = Some t -> has_type t v) ->
  Forall (when_ok sound) whens -> forall e v e' t,
  first_when (evalExpr fuel locked row ix rowID) o' whens e = (Ok v, e') ->
  fold_right (fun w t => lub (type_of types ix (Then w)) t) o whens = Some t -> has_type t v.
Proof.
  intros Ho Hw. induction Hw as [|[c x] whens [Hc Hx] Hw IH]; intros e v e' t; cbn [first_when fold_right]; [apply Ho|].
  intros (b & e1 & _ & Hk)%bind_inv Ht. destruct (ToBool b).
  - eapply has_type_lub_l; [exact Ht|]. intros s Hs. by apply (Hx e1 v e').
  - eapply has_type_lub_r; [exact Ht|]. intros s Hs. by apply (IH e1 v e').
Qed.

Lemma evalExpr_sound x : sound x.
Proof.
  revert x. apply expr_induction; [intros x|intros name args IH|intros op r IH|intros l op r IHl IHr|intros c whens o IHw IHo
    |intros l values IHl IHv|intros l q IHl|intros v low high IHv IHlow IHhigh].
  - destruct x; try exact I; intros e w e' t; cbn [evalExpr type_of].
    + intros [= <- <-]. apply has_type_literal.
    + intros [= <- <-]. apply column_sound.
    + intros [= <- <-] [= <-]. by left.
    + intros [= <- <-] [= <-]. by left.
    + intros [= <- <-] [= <-]. by left.
    + intros (f & e1 & _ & [= <- <-])%bind_inv [= <-]. unfold evalMatchAgainst. repeat case_match; auto with typing.
  - intros e w e' t. cbn [evalExpr type_of]. intros (vs & e1 & _ & Hk)%bind_inv Ht. unfold evalFunction in Hk.
    destruct (IsScriptFunc name); [done|]. unfold lift, or_null in Hk. destruct (Call name vs) eqn:E; try done; injection Hk as <- <-.
    + by eapply Call_typed.
    + by left.
  - intros e w e' t. cbn [evalExpr type_of]. intros (v & e1 & Hv & [= <- <-])%bind_inv Ht.
    eapply has_type_unary; [exact Ht|]. intros s Hs. by apply (IH e v e1).
  - intros e w e' t. cbn [evalExpr type_of]. intros (v & e1 & Hv & (u & e2 & Hu & [= <- <-])%bind_inv)%bind_inv Ht.
    eapply has_type_binary; [exact Ht|intros s Hs; by apply (IHl e v e1)|intros s Hs; by apply (IHr e1 u e2)].
  - intros e w e' t. cbn [evalExpr type_of]. apply case_sound; [|done]. intros e1 v e2 s. destruct o as [o|]; [apply IHo|].
    intros [= <- <-] [= <-]. by left.
  - intros e w e' t. cbn [evalExpr type_of]. intros (v & e1 & _ & (u & e2 & _ & [= <- <-])%bind_inv)%bind_inv [= <-]. auto with typing.
  - intros e w e' t. cbn [evalExpr type_of]. intros (v & e1 & _ & [= <- <-])%bind_inv [= <-]. by right.
  - intros e w e' t. cbn [evalExpr type_of].
    intros (a & e1 & _ & (b & e2 & _ & (d & e3 & _ & [= <- <-])%bind_inv)%bind_inv)%bind_inv [= <-]. unfold between_value. auto with typing.
Qed.

(** C4: where an expression with a static type, computed from the types of the
    columns, evaluates to a value, on a row whose values have the types of
    their columns, the value is NULL or of that type: INT for comparisons, INT
    or FLOAT for sums, the type of their results for functions, that of its
    branches for CASE. The negation of a FLOAT is an INT. That an expression
    has a type does not keep its evaluation from failing: SUBSTRING panics on
    a negative length, and LPAD with an empty padding does not end. *)
Theorem evalExpr_type x e v e' t :
  evalExpr fuel locked row ix rowID x e = (Ok v, e') -> type_of types ix x = Some t -> has_type t v.
Proof. apply evalExpr_sound. Qed.
End Soundness.

Lemma evalExpr_type_witness :
  @has_type TypeInt (NewIntValue (-2)).
Proof.
  refine (@evalExpr_type plain_runtime plain_functions no_full_text no_columns 10 false
    [TypeFloat] {[ str "x" := 0%nat ]} [NewFloatValue (float_of_Z 2)] 1 _
    (ExprUnaryOp (str "-") (ExprColumn [] (str "x"))) empty_engine (NewIntValue (-2)) empty_engine TypeInt _ eq_refl).
  - intros [|i] v t; [|done]. intros [= <-] [= <-]. by right.
  - vm_compute. reflexivity.
Defined.
