(* ===== verification/Select.v ===== *)
(** * Queries (executor/executor.go)

    A SELECT in the order of the code: the rows of the table, the condition,
    groups and aggregates, the order, the limit, the offset, the columns, the
    distinct rows, and the unions. Joins, HAVING, aliases of tables and
    subqueries in FROM are parsed but not executed. *)

From S2P Require Import Prelude GoLib Types RowCodec Page PageCache TableFile Crypto Json Wal Storage Functions Script Auth Ast Eval.
Local Open Scope Z_scope.

Record Row := mkRow { RID : Z; RData : list Value }.
Record Result := mkResult {
  RColumns : list bytes;
  Rows : list Row;
  RowsAffected : Z;
  RLastInsertID : Z;
  IsExecutionResult : bool;
  Message : bytes
}.
Definition query_result (columns : list bytes) (rows : list Row) : Result := mkResult columns rows 0 0 false [].
Definition done_result (message : bytes) : Result := mkResult [] [] 0 0 true message.
Definition affected_result (n last : Z) : Result := mkResult [] [] n last true [].

(** ** Loops of effectful code *)

Definition filter_m {S E A} (f : A -> SO S E bool) : list A -> SO S E (list A) :=
  fix go l := match l with [] => mret [] | x :: l => b ← f x; xs ← go l; mret (if (b : bool) then x :: xs else xs) end.

(** Insertion sort: [swap x y] where [y] must go before [x]. The part that is
    sorted is held in reverse, its last element first. *)
Fixpoint insert_back {S E A} (swap : A -> A -> SO S E bool) (y : A) (sorted : list A) : SO S E (list A) :=
  match sorted with
  | [] => mret [y]
  | x :: rest => b ← swap x y; if (b : bool) then r ← insert_back swap y rest; mret (x :: r) else mret (y :: sorted)
  end.
Fixpoint insertion_loop {S E A} (swap : A -> A -> SO S E bool) (sorted rest : list A) : SO S E (list A) :=
  match rest with
  | [] => mret (rev sorted)
  | y :: rest => s ← insert_back swap y sorted; insertion_loop swap s rest
  end.
Definition insertion_sort {S E A} (swap : A -> A -> SO S E bool) (l : list A) : SO S E (list A) := insertion_loop swap [] l.

(** The elements by their keys, the keys in the order they first occur. *)
Fixpoint add_to_group {A} (key : bytes) (x : A) (groups : list (bytes * list A)) : list (bytes * list A) :=
  match groups with
  | [] => [(key, [x])]
  | (k, xs) :: groups => if bytes_eqb k key then (k, xs ++ [x]) :: groups else (k, xs) :: add_to_group key x groups
  end.
Definition group_by {A} (key : A -> bytes) (l : list A) : list (bytes * list A) :=
  fold_left (fun groups x => add_to_group (key x) x groups) l [].
Definition group_of {A} (key : bytes) (groups : list (bytes * list A)) : list A :=
  default [] (snd <$> List.find (fun g => bytes_eqb g.1 key) groups).

Section Queries.
Context `{GoRuntime} `{FunctionRuntime} `{FullText} `{MapOrder} `{JSONRuntime} `{RecordJSON} `{Environment} `{ColumnJSON} (fuel : nat).

Abbreviation EM := (SO Engine EngineError).
Abbreviation column := (SelectColumn Expression).

Definition eval_row (ix : gmap bytes nat) (r : Row) (e : Expression) : EM Value := evalExpr fuel false (RData r) ix (RID r) e.
(** An expression without a row. *)
Definition eval_const (e : Expression) : EM Value := evalExpr fuel false [] ∅ 0 e.
Definition evalInt (e : Expression) : EM Z := v ← eval_const e; mret (int_of v).

(** ** Conditions, groups, order *)

Definition filterRows (rows : list Row) (where_ : Expression) (ix : gmap bytes nat) : EM (list Row) :=
  filter_m (fun r => v ← eval_row ix r where_; mret (ToBool v)) rows.

Definition filter_where (rows : list Row) (where_ : option Expression) (ix : gmap bytes nat) : EM (list Row) :=
  match where_ with Some w => filterRows rows w ix | None => mret rows end.

Definition buildGroupKey (groupBy : list bytes) (ix : gmap bytes nat) (r : Row) : bytes :=
  concat (map (fun col => match RData r !! index_of_column col ix with Some v => ToString v ++ str "|" | None => [] end) groupBy).

(** The groups of rows, in the order of the map that holds them. *)
Definition groups_of (groupBy : list bytes) (ix : gmap bytes nat) (rows : list Row) : list (list Row) :=
  let groups := group_by (buildGroupKey groupBy ix) rows in
  map (fun k => group_of k groups) (key_order (map fst groups)).

Definition groupRows (rows : list Row) (groupBy : list bytes) (ix : gmap bytes nat) : list Row :=
  omap List.head (groups_of groupBy ix rows).

Definition aggregate (c : column) : option (bytes * list Expression) :=
  match Expr c with
  | Some (ExprFunction name args) => if IsAggregate name then Some (name, args) else None
  | _ => None
  end.
Definition hasAggregateFunctions (columns : list column) : bool := existsb (fun c => bool_decide (is_Some (aggregate c))) columns.

(** The value of an aggregate on these rows: each counts one where there is
    no argument or a star. *)
Definition aggregate_value (ix : gmap bytes nat) (rows : list Row) (name : bytes) (args : list Expression) : EM Value :=
  values ← map_m (fun r => match args with
                           | [] | ExprStar _ :: _ => mret (NewIntValue 1)
                           | arg :: _ => eval_row ix r arg
                           end) rows;
  lift (or_null (Call (to_upper name) values)).

Definition first_value (ix : gmap bytes nat) (rows : list Row) (e : Expression) : EM Value :=
  match rows with r :: _ => eval_row ix r e | [] => mret NewNullValue end.

Definition group_column (ix : gmap bytes nat) (rows : list Row) (c : column) : EM Value :=
  match Expr c, aggregate c with
  | None, _ => mret zero_value
  | _, Some (name, args) => aggregate_value ix rows name args
  | Some (ExprColumn _ name), _ =>
    mret (default zero_value (r ← List.head rows; RData r !! index_of_column name ix))
  | Some e, _ => first_value ix rows e
  end.
Definition groupWithAggregates (rows : list Row) (groupBy : list bytes) (columns : list column) (ix : gmap bytes nat) : EM (list Row) :=
  map_m (fun g => data ← map_m (group_column ix g) columns; mret (mkRow 0 data)) (groups_of groupBy ix rows).

Definition empty_aggregate (c : column) : Value :=
  match aggregate c with
  | Some (name, _) => if bytes_eqb (to_upper name) (str "COUNT") then NewIntValue 0 else NewNullValue
  | None => zero_value
  end.
Definition total_column (ix : gmap bytes nat) (rows : list Row) (c : column) : EM Value :=
  match Expr c, aggregate c with
  | None, _ => mret zero_value
  | _, Some (name, args) => aggregate_value ix rows name args
  | Some e, None => first_value ix rows e
  end.
Definition computeAggregates (rows : list Row) (columns : list column) (ix : gmap bytes nat) : EM (list Row) :=
  data ← match rows with
         | [] => mret (map empty_aggregate columns)
         | _ => map_m (total_column ix rows) columns
         end;
  mret [mkRow 0 data].

Definition order_value (ix : gmap bytes nat) (r : Row) (e : Expression) : EM Value :=
  match e with
  | ExprColumn _ name => mret (default zero_value (RData r !! index_of_column name ix))
  | _ => eval_row ix r e
  end.
Fixpoint shouldSwap (orderBy : list (OrderByClause Expression)) (ix : gmap bytes nat) (r1 r2 : Row) : EM bool :=
  match orderBy with
  | [] => mret false
  | ob :: rest =>
    v ← order_value ix r1 (OrderExpr ob);
    w ← order_value ix r2 (OrderExpr ob);
    let c := Compare v w in
    if c =? 0 then shouldSwap rest ix r1 r2
    else mret (if bytes_eqb (Direction ob) (str "DESC") then c <? 0 else 0 <? c)
  end.
Definition sortRows (rows : list Row) (orderBy : list (OrderByClause Expression)) (ix : gmap bytes nat) : EM (list Row) :=
  match orderBy with [] => mret rows | _ => insertion_sort (shouldSwap orderBy ix) rows end.

(** ** Limits, columns, distinct rows *)

(** [rows[:limit]] and [rows[offset:]], which panic below zero. *)
Definition limit_rows (limit : option Expression) (rows : list Row) : EM (list Row) :=
  match limit with
  | None => mret rows
  | Some e => n ← evalInt e;
              if zlen rows <=? n then mret rows else if n <? 0 then lift Panic else mret (take (Z.to_nat n) rows)
  end.
Definition offset_rows (offset : option Expression) (rows : list Row) : EM (list Row) :=
  match offset with
  | None => mret rows
  | Some e => n ← evalInt e;
              if zlen rows <=? n then mret [] else if n <? 0 then lift Panic else mret (drop (Z.to_nat n) rows)
  end.

(** The names of the result: a star replaces all of them by those of the
    table, and later names are stored by their positions. *)
Definition column_title (c : column) : bytes :=
  match ColAlias c, Expr c with (_ :: _) as a, _ => a | [], Some e => Expression_String e | [], None => [] end.
Fixpoint column_titles (names : list bytes) (i : nat) (columns : list column) (titles : list bytes) : outcome EngineError (list bytes) :=
  match columns with
  | [] => Ok titles
  | c :: rest =>
    if All c then column_titles names (S i) rest names
    else if bool_decide (ColAlias c = []) && negb (bool_decide (is_Some (Expr c))) then column_titles names (S i) rest titles
    else if (i <? length titles)%nat then column_titles names (S i) rest (<[i:=column_title c]> titles)
    else Panic
  end.
Definition result_columns (names : list bytes) (columns : list column) : outcome EngineError (list bytes) :=
  match columns with [] => Ok names | _ => column_titles names 0 columns (repeat [] (length columns)) end.

Definition project (ix : gmap bytes nat) (columns : list column) (r : Row) : EM Row :=
  data ← map_m (fun c => match Expr c with Some e => eval_row ix r e | None => mret zero_value end) columns;
  mret (mkRow (RID r) data).
Definition project_rows (ix : gmap bytes nat) (columns : list column) (rows : list Row) : EM (list Row) :=
  match columns with
  | c :: _ => if negb (hasAggregateFunctions columns) && negb (All c) then map_m (project ix columns) rows else mret rows
  | [] => mret rows
  end.

Definition distinct_key (r : Row) : bytes := concat (map (fun v => ToString v ++ str "|") (RData r)).
Fixpoint distinct_loop (seen : list bytes) (rows : list Row) : list Row :=
  match rows with
  | [] => []
  | r :: rest => if existsb (bytes_eqb (distinct_key r)) seen then distinct_loop seen rest
                 else r :: distinct_loop (distinct_key r :: seen) rest
  end.
Definition distinctRows (rows : list Row) : list Row := distinct_loop [] rows.

(** ** Without a table *)

Definition executeSelectWithoutTable (columns : list column) : EM Result :=
  data ← map_m (fun c => match Expr c with Some e => eval_const e | None => mret zero_value end) columns;
  mret (query_result (map column_title columns) [mkRow 0 data]).

(** ** The tables of information_schema *)

Definition ListTables (s : Storage) : list bytes := key_order (map fst (map_to_list (tables s))).

Definition texts (l : list bytes) : list Value := map NewStringValue l.
(** The tables with their columns. *)
Definition table_columns (s : Storage) : list (bytes * list Types.ColumnDef) :=
  omap (fun t => i ← tables s !! t; Some (t, Columns (info i))) (ListTables s).

Definition schema_result (names : list string) (rows : list (list bytes)) (where_ : option Expression) : EM Result :=
  let ix := fold_left (fun m '(i, n) => <[str n := i]> m) (imap pair names) ∅ in
  rows ← filter_where (map (fun r => mkRow 0 (texts r)) rows) where_ ix;
  mret (query_result (map (fun n => to_upper (str n)) names) rows).

Definition schema_tables_columns : list string :=
  ["table_catalog"; "table_schema"; "table_name"; "table_type"; "engine"; "version"; "row_format"; "table_rows";
   "avg_row_length"; "data_length"; "max_data_length"; "index_length"; "data_free"; "auto_increment"; "create_time";
   "update_time"; "check_time"; "table_collation"; "checksum"; "create_options"; "table_comment"].
Definition schema_table (t : bytes) : list bytes :=
  [str "def"; str "xxldb"; t; str "BASE TABLE"; str "InnoDB"; str "10"; str "Compact"; str "0"; str "0"; str "0"; str "0";
   str "0"; str "0"; str "0"; []; []; []; str "utf8mb4_general_ci"; []; []; []].

Definition schema_columns_columns : list string :=
  ["table_catalog"; "table_schema"; "table_name"; "column_name"; "ordinal_position"; "column_default"; "is_nullable";
   "data_type"; "character_maximum_length"; "numeric_precision"; "numeric_scale"; "datetime_precision";
   "character_set_name"; "collation_name"; "column_type"; "column_key"; "extra"; "privileges"; "column_comment"].
Definition schema_type (c : Types.ColumnDef) : bytes :=
  if one_of (CType c) [TypeUnknown; TypeNull] then
    if PrimaryKey c then str "INT"
    else if 0 <? Length c then if 255 <? Length c then str "TEXT" else str "VARCHAR" else str "TEXT"
  else DataType_String (CType c).
Definition schema_column (t : bytes) (position : Z) (c : Types.ColumnDef) : list bytes :=
  [str "def"; str "xxldb"; t; Name c; itoa position; []; str "YES"; schema_type c; itoa (Length c); str "0"; str "0"; [];
   str "utf8mb4"; str "utf8mb4_general_ci"; schema_type c ++ str "(" ++ itoa (Length c) ++ str ")";
   if PrimaryKey c then str "PRI" else []; []; str "select,insert,update,references"; []].
(** The position goes on from one table to the next. *)
Definition schema_columns (l : list (bytes * list Types.ColumnDef)) : list (list bytes) :=
  imap (fun i '(t, c) => schema_column t (Z.of_nat i + 1) c) (concat (map (fun '(t, cols) => map (pair t) cols) l)).

Definition schema_keys_columns : list string :=
  ["constraint_catalog"; "constraint_schema"; "constraint_name"; "table_catalog"; "table_schema"; "table_name"; "column_name";
   "ordinal_position"; "position_in_unique_constraint"; "referenced_table_schema"; "referenced_table_name"; "referenced_column_name"].
Definition schema_key (t : bytes) (c : Types.ColumnDef) : list bytes :=
  [str "def"; str "xxldb"; str "PRIMARY"; str "def"; str "xxldb"; t; Name c; str "1"; str "1"; []; []; []].
Definition schema_constraints_columns : list string :=
  ["constraint_catalog"; "constraint_schema"; "constraint_name"; "table_catalog"; "table_schema"; "table_name"; "constraint_type";
   "is_deferrable"; "initially_deferred"; "enforced"].
Definition schema_constraint (t : bytes) : list bytes :=
  [str "def"; str "xxldb"; str "PRIMARY"; str "def"; str "xxldb"; t; str "PRIMARY KEY"; str "YES"; str "NO"; str "YES"].
Definition schema_statistics_columns : list string :=
  ["table_catalog"; "table_schema"; "table_name"; "non_unique"; "index_schema"; "index_name"; "seq_in_index"; "column_name";
   "collation"; "cardinality"; "sub_part"; "packed"; "nullable"; "index_type"; "comment"; "index_comment"].
Definition schema_statistic (t : bytes) (seq : Z) (c : Types.ColumnDef) : list bytes :=
  [str "xxldb"; str "xxldb"; t; str "0"; str "xxldb"; str "PRIMARY"; itoa seq; Name c; str "A"; str "0"; []; []; []; str "BTREE"; []; []].
Definition primary_columns (cols : list Types.ColumnDef) : list Types.ColumnDef := List.filter PrimaryKey cols.

Definition fixed_result (names : list string) (rows : list (list string)) : Result :=
  query_result (map str names) (map (fun r => mkRow 0 (texts (map str r))) rows).

Definition information_schema_name (table : bytes) : bytes := trim_prefix (str "information_schema.") (to_lower table).

Definition executeInformationSchemaQuery (table : bytes) (where_ : option Expression) : EM Result :=
  s ← gets storage;
  let name := information_schema_name table in
  let named names := is_op names name in
  let l := table_columns s in
  if named ["tables"; "information_schema"]%string then
    schema_result schema_tables_columns (map schema_table (ListTables s)) where_
  else if named ["columns"]%string then schema_result schema_columns_columns (schema_columns l) where_
  else if named ["schemata"]%string then
    mret (fixed_result ["CATALOG_NAME"; "SCHEMA_NAME"; "DEFAULT_CHARACTER_SET_NAME"; "DEFAULT_COLLATION_NAME"]
            [["def"; "xxldb"; "utf8mb4"; "utf8mb4_general_ci"]])
  else if named ["processlist"]%string then
    mret (fixed_result ["ID"; "USER"; "HOST"; "DB"; "COMMAND"; "TIME"; "STATE"; "INFO"]
            [["1"; "admin"; "localhost"; "xxldb"; "Query"; "0"; ""; "SELECT"]])
  else if named ["key_column_usage"]%string then
    schema_result schema_keys_columns (concat (map (fun '(t, cols) => map (schema_key t) (primary_columns cols)) l)) where_
  else if named ["table_constraints"]%string then
    schema_result schema_constraints_columns (map (fun p => schema_constraint p.1) (List.filter (fun p => existsb PrimaryKey p.2) l)) where_
  else if named ["statistics"]%string then
    schema_result schema_statistics_columns
      (concat (map (fun '(t, cols) => imap (fun i => schema_statistic t (Z.of_nat i + 1)) (primary_columns cols)) l)) where_
  else mret (query_result [] []).

(** ** SELECT *)

Definition is_information_schema (from : FromClause Select) : bool :=
  equal_fold (Database from) (str "information_schema") || equal_fold (FromTable from) (str "information_schema")
  || has_prefix (str "information_schema.") (to_lower (FromTable from)).

(** The rows of one query on a table, before the unions. *)
Definition select_rows (f : SelectFields Expression Select) (ix : gmap bytes nat) (rows : list Row) : EM (list Row) :=
  rows ← filter_where rows (Where f) ix;
  rows ← (if bool_decide (GroupBy f = []) then
            if hasAggregateFunctions (SColumns f) then computeAggregates rows (SColumns f) ix else mret rows
          else if hasAggregateFunctions (SColumns f) then groupWithAggregates rows (GroupBy f) (SColumns f) ix
          else mret (groupRows rows (GroupBy f) ix));
  rows ← sortRows rows (OrderBy f) ix;
  rows ← limit_rows (Limit f) rows;
  offset_rows (Offset f) rows.

Definition select_table_rows (f : SelectFields Expression Select) (table : bytes) : EM Result :=
  t ← in_storage (GetTableInfo table);
  rows ← in_storage (GetRowsWithIDs fuel table);
  let ix := column_index (Columns t) in
  rows ← select_rows f ix (map (fun r => mkRow r.1 r.2) rows);
  titles ← lift (result_columns (ColumnNames t) (SColumns f));
  rows ← project_rows ix (SColumns f) rows;
  mret (query_result titles (if Distinct f then distinctRows rows else rows)).

Fixpoint executeSelect (q : Select) : EM Result :=
  match q with
  | StmtSelect f =>
    match From f with
    | Some from =>
      if bool_decide (FromTable from = []) then executeSelectWithoutTable (SColumns f)
      else if is_information_schema from then executeInformationSchemaQuery (FromTable from) (Where f)
      else
        r ← select_table_rows f (FromTable from);
        others ← map_m executeSelect (Union f);
        mret (query_result (RColumns r) (Rows r ++ concat (map Rows others)))
    | None => executeSelectWithoutTable (SColumns f)
    end
  end.
End Queries.
