(* ===== verification/SelectSpec.v ===== *)
(** * Properties of queries: ORDER BY

    The insertion sort of the engine, on its pure part: the rows and the keys
    they are ordered by. *)

From Stdlib Require Import Sorted.
From S2P Require Import Prelude GoLib Types RowCodec Page PageCache TableFile Crypto Json Wal Storage Functions Script Auth Ast Eval EvalSpec Select.
Local Open Scope Z_scope.

(** ** Insertion sort *)

(** Neighbours are related. Comparisons of values are not transitive in
    general, so that this need not hold of any two elements. *)
Fixpoint adjacent {A} (R : A -> A -> Prop) (l : list A) : Prop :=
  match l with
  | x :: ((y :: _) as t) => R x y /\ adjacent R t
  | _ => True
  end.

Lemma adjacent_snoc {A} (R : A -> A -> Prop) l x y : adjacent R (l ++ [x]) -> R x y -> adjacent R (l ++ [x; y]).
Proof.
  intros Hl Hxy. induction l as [|a l IH]; [done|]. destruct l as [|b l]; cbn [app] in *; [by destruct Hl|].
  destruct Hl as [Hab Hl]. split; [done|by apply IH].
Qed.

Lemma adjacent_rev {A} (R : A -> A -> Prop) l : adjacent (fun x y => R y x) l -> adjacent R (rev l).
Proof.
  induction l as [|x l IH]; [done|]. destruct l as [|y l]; [done|]. intros [Hyx Hl]. cbn [rev] in *.
  rewrite <- app_assoc. apply adjacent_snoc; [by apply IH|done].
Qed.

Section Sort.
Context {S E A : Type} (swap : A -> A -> SO S E bool) (after : A -> A -> bool) (s : S).
Context (after_asym : forall x y, after x y = true -> after y x = false).

(** The comparison of these elements has a value and no effect. *)
Definition compares (l : list A) : Prop := forall x y, In x l -> In y l -> swap x y s = (Ok (after x y), s).

(** The list in reverse: each element may stay where it is after the next. *)
Abbreviation settled := (adjacent (fun x y => after y x = false)).

Lemma insert_back_sorts l y : compares (y :: l) -> settled l -> exists l',
  insert_back swap y l s = (Ok l', s) /\ l' ≡ₚ y :: l /\ settled l' /\
  match l' with x :: _ => x = y \/ head l = Some x | [] => False end.
Proof.
  intros Hc. induction l as [|x l IH]; intros Hs; cbn [insert_back].
  - exists [y]. split_and!; auto.
  - rewrite (bind_ok _ _ _ _ _ (Hc x y ltac:(right; by left) ltac:(by left))). destruct (after x y) eqn:Ha.
    + destruct IH as (l' & Hl' & Hp & Hs' & Hh).
      { intros a b Ha' Hb. apply Hc; cbn in *; tauto. }
      { destruct l; [done|by destruct Hs]. }
      rewrite (bind_ok _ _ _ _ _ Hl'). exists (x :: l'). split_and!; [done| | |by right].
      * rewrite Hp. apply perm_swap.
      * destruct l' as [|z l']; [done|]. split; [|done]. destruct Hh as [-> |Hh]; [by apply after_asym|].
        destruct l as [|b l]; [done|]. injection Hh as ->. by destruct Hs.
    + exists (y :: x :: l). split_and!; [done..| |by left]. split; done.
Qed.

Lemma insertion_loop_sorts l : forall sorted, compares (sorted ++ l) -> settled sorted -> exists l',
  insertion_loop swap sorted l s = (Ok l', s) /\ l' ≡ₚ sorted ++ l /\ adjacent (fun x y => after x y = false) l'.
Proof.
  induction l as [|y l IH]; intros sorted Hc Hs; cbn [insertion_loop].
  - exists (rev sorted). split_and!; [done| |by apply adjacent_rev]. rewrite app_nil_r. symmetry. apply Permutation_rev.
  - destruct (insert_back_sorts sorted y) as (l' & Hl' & Hp & Hs' & _); [|done|].
    { intros a b Ha Hb. apply Hc; apply in_app_iff; cbn in *; tauto. }
    rewrite (bind_ok _ _ _ _ _ Hl'). destruct (IH l') as (r & Hr & Hpr & Hsr); [|done|].
    { intros a b Ha Hb. assert (Hin : forall z, In z (l' ++ l) -> In z (sorted ++ y :: l)).
      { intros z. rewrite !in_app_iff. intros [Hz|Hz]; [|right; by right].
        apply (Permutation_in _ Hp) in Hz. cbn in *. tauto. }
      apply Hc; by apply Hin. }
    exists r. split_and!; [done| |done]. rewrite Hpr, Hp. cbn. by rewrite Permutation_middle.
Qed.
End Sort.

(** ** ORDER BY *)

Section Order.
Context `{GoRuntime} `{FunctionRuntime} `{FullText} `{JSONRuntime} `{RecordJSON} `{Environment} `{ColumnJSON} (fuel : nat).

(** The key of a row for an expression of ORDER BY, if the row determines it. *)
Definition sort_key (ix : gmap bytes nat) (r : Row) (e : Expression) : outcome unit Value :=
  match e with
  | ExprColumn _ name => Ok (default zero_value (RData r !! index_of_column name ix))
  | _ => value_at (RData r) ix e
  end.
Definition key_of (ix : gmap bytes nat) (r : Row) (e : Expression) : Value :=
  match sort_key ix r e with Ok v => v | _ => NewNullValue end.

(** How two rows compare: by the first key that differs, in its direction. *)
Fixpoint row_order (orderBy : list (OrderByClause Expression)) (ix : gmap bytes nat) (r1 r2 : Row) : Z :=
  match orderBy with
  | [] => 0
  | ob :: rest =>
    let c := Compare (key_of ix r1 (OrderExpr ob)) (key_of ix r2 (OrderExpr ob)) in
    if c =? 0 then row_order rest ix r1 r2 else if bytes_eqb (Direction ob) (str "DESC") then - c else c
  end.

Lemma row_order_swap orderBy ix r1 r2 : row_order orderBy ix r2 r1 = - row_order orderBy ix r1 r2.
Proof.
  induction orderBy as [|ob rest IH]; [done|]. cbn [row_order].
  set (v := key_of ix r1 _). set (w := key_of ix r2 _). rewrite (compare_swap v w).
  destruct (Z.eqb_spec (Compare v w) 0) as [E|E]; [rewrite E; exact IH|].
  replace (- Compare v w =? 0) with false by lia. case_match; lia.
Qed.

Definition has_keys (orderBy : list (OrderByClause Expression)) (ix : gmap bytes nat) (r : Row) : Prop :=
  forall ob, In ob orderBy -> exists v, sort_key ix r (OrderExpr ob) = Ok v.

Lemma order_value_key ix r e eng : (exists v, sort_key ix r e = Ok v) -> order_value fuel ix r e eng = (Ok (key_of ix r e), eng).
Proof.
  intros [v Hv]. unfold key_of. rewrite Hv. unfold order_value, sort_key in *.
  destruct e; try exact (evalExpr_value fuel _ _ _ _ _ _ _ Hv). by injection Hv as <-.
Qed.

Lemma shouldSwap_order orderBy ix r1 r2 eng : has_keys orderBy ix r1 -> has_keys orderBy ix r2 ->
  shouldSwap fuel orderBy ix r1 r2 eng = (Ok (0 <? row_order orderBy ix r1 r2), eng).
Proof.
  intros K1 K2. induction orderBy as [|ob rest IH]; [done|]. cbn [shouldSwap row_order].
  rewrite (bind_ok _ _ _ _ _ (order_value_key ix r1 _ eng (K1 ob ltac:(by left)))),
    (bind_ok _ _ _ _ _ (order_value_key ix r2 _ eng (K2 ob ltac:(by left)))).
  destruct (_ =? 0) eqn:E; [apply IH; intros o Ho; [apply K1|apply K2]; by right|].
  case_match; [|done]. unfold mret, SO_ret. do 2 f_equal. zbool. lia.
Qed.

(** Sorting of rows that have their keys. *)
Lemma sortRows_adjacent rows orderBy ix eng : Forall (has_keys orderBy ix) rows ->
  exists sorted, sortRows fuel rows orderBy ix eng = (Ok sorted, eng) /\ sorted ≡ₚ rows /\
    adjacent (fun r1 r2 => row_order orderBy ix r1 r2 <= 0) sorted.
Proof.
  intros Hk. unfold sortRows. destruct orderBy as [|ob rest] eqn:E.
  { exists rows. split_and!; [done..|]. clear. induction rows as [|x [|y rows] IH]; done. }
  rewrite <- E in *. clear E ob rest. unfold insertion_sort.
  destruct (insertion_loop_sorts (shouldSwap fuel orderBy ix) (fun r1 r2 => 0 <? row_order orderBy ix r1 r2) eng) with (l := rows) (sorted := @nil Row)
    as (l' & Hl' & Hp & Hs); [| |done|].
  - intros x y Hxy. rewrite row_order_swap. lia.
  - intros x y Hx Hy. rewrite Forall_forall in Hk. apply shouldSwap_order; apply Hk; by apply list_elem_of_In.
  - exists l'. split_and!; [done..|]. clear -Hs. induction l' as [|x [|y l'] IH]; [done..|]. destruct Hs as [Hxy Hs].
    split; [lia|by apply IH].
Qed.

(** The order of the rows is transitive on some rows. It need not be: the
    comparison of values has cycles ([Types.Compare_cycle]). *)
Definition transitive_on (orderBy : list (OrderByClause Expression)) (ix : gmap bytes nat) (rows : list Row) : Prop :=
  forall r1 r2 r3, In r1 rows -> In r2 rows -> In r3 rows ->
    row_order orderBy ix r1 r2 <= 0 -> row_order orderBy ix r2 r3 <= 0 -> row_order orderBy ix r1 r3 <= 0.

Lemma adjacent_strongly (P : Row -> Row -> Prop) l : (forall x y z, In x l -> In y l -> In z l -> P x y -> P y z -> P x z) ->
  adjacent P l -> StronglySorted P l.
Proof.
  induction l as [|x l IH]; intros Ht Ha; [constructor|].
  assert (Hl : StronglySorted P l).
  { apply IH; [intros a b c Ia Ib Ic; apply Ht; by right|]. destruct l as [|y l]; [done|]. apply Ha. }
  constructor; [done|]. destruct l as [|y l]; [constructor|]. destruct Ha as [Hxy _]. constructor; [done|].
  inversion_clear Hl as [|?? _ Hy]. rewrite Forall_forall in Hy |- *. intros z Hz.
  apply (Ht x y z); [by left|right; by left|right; right; by apply list_elem_of_In|done|by apply Hy].
Qed.

(** C10: where the rows determine the values of their keys, ORDER BY answers
    the same rows, each followed by one that does not go before it: by the first
    key that differs, in the direction asked for. Where the comparison is
    transitive on these rows, no row goes before any that is ahead of it. *)
Theorem sortRows_ordered rows orderBy ix eng : Forall (has_keys orderBy ix) rows ->
  exists sorted, sortRows fuel rows orderBy ix eng = (Ok sorted, eng) /\ sorted ≡ₚ rows /\
    adjacent (fun r1 r2 => row_order orderBy ix r1 r2 <= 0) sorted /\
    (transitive_on orderBy ix rows -> StronglySorted (fun r1 r2 => row_order orderBy ix r1 r2 <= 0) sorted).
Proof.
  intros Hk. destruct (sortRows_adjacent rows orderBy ix eng Hk) as (sorted & Hs & Hp & Ha). exists sorted. split_and!; [done..|].
  intros Ht. apply adjacent_strongly; [|done]. intros x y z Hx Hy Hz. apply Ht; by apply (Permutation_in _ Hp).
Qed.
End Order.

Lemma sortRows_ordered_witness : exists sorted,
  @sortRows plain_runtime plain_functions no_full_text no_columns 0 [mkRow 1 [NewIntValue 2]; mkRow 2 [NewIntValue 1]]
    [mkOrder (ExprColumn [] (str "n")) (str "ASC")] {[ str "n" := 0%nat ]} empty_engine = (Ok sorted, empty_engine) /\
  sorted ≡ₚ [mkRow 1 [NewIntValue 2]; mkRow 2 [NewIntValue 1]] /\
  StronglySorted (fun r1 r2 => @row_order plain_runtime plain_functions [mkOrder (ExprColumn [] (str "n")) (str "ASC")] {[ str "n" := 0%nat ]} r1 r2 <= 0) sorted.
Proof.
  destruct (@sortRows_ordered plain_runtime plain_functions no_full_text no_columns 0 [mkRow 1 [NewIntValue 2]; mkRow 2 [NewIntValue 1]]
    [mkOrder (ExprColumn [] (str "n")) (str "ASC")] {[ str "n" := 0%nat ]} empty_engine) as (sorted & Hs & Hp & _ & Ht).
  - repeat constructor; intros ob [<-|[]]; by eexists.
  - exists sorted. split; [exact Hs|]. split; [exact Hp|]. apply Ht.
    intros r1 r2 r3 [<-|[<-|[]]] [<-|[<-|[]]] [<-|[<-|[]]]; vm_compute; auto.
Defined.
