(* ===== verification/Dml.v ===== *)
(** * Statements that change data, definitions and settings (executor/executor_dml.go)

    Every statement but SELECT, and the dispatch on the parsed statement. The
    statements on directories and backups belong to the file system. *)

From S2P Require Import Prelude GoLib Types RowCodec Page PageCache TableFile Crypto Json Wal Storage Functions Script Auth Ast Eval Select.
Local Open Scope Z_scope.

Class Digests := { sha256 : bytes -> bytes; sha1 : bytes -> bytes }.

(** filepath.Match, and the statements that work on directories and files. *)
Class HostFiles `{FullText} := {
  path_match : bytes -> bytes -> bool;
  host_statement : Statement -> Engine -> outcome EngineError Result
}.

Section Statements.
Context `{GoRuntime} `{FunctionRuntime} `{FullText} `{MapOrder} `{JSONRuntime} `{RecordJSON} `{Environment} `{ColumnJSON}
  `{Digests} `{!HostFiles} (fuel : nat).

Abbreviation EM := (SO Engine EngineError).
Abbreviation cols := (list Types.ColumnDef).
Abbreviation callback A := (list Value -> outcome StorageError A).

(** ** Index entries *)

(** What a row adds to the indexes of its table. *)
Definition index_row (table : bytes) (columns : cols) (rowID : Z) (row : list Value) (f : FTS) : FTS :=
  fold_left (fun f '(i, c) =>
      match row !! i with
      | Some v => if HasIndex table (Name c) f && negb (bytes_eqb (ToString v) []) then IndexDocument table (Name c) rowID (ToString v) f else f
      | None => f
      end) (imap pair columns) f.
Definition unindex_row (table : bytes) (columns : cols) (rowID : Z) (row : list Value) (f : FTS) : FTS :=
  fold_left (fun f '(i, c) => if HasIndex table (Name c) f && (i <? length row)%nat then DeleteDocument table (Name c) rowID f else f)
    (imap pair columns) f.
Definition index_rows (index : Z -> list Value -> FTS -> FTS) (rows : list (Z * list Value)) : EM unit :=
  modify (fun e => set_fts (fold_left (fun f '(id, row) => index id row f) rows (fts e)) e).

(** ** INSERT *)

(** The row as the storage changes it in place before it stores it. *)
Definition stored_row (table : bytes) (columns : cols) (row : list Value) (s : Storage) : list Value :=
  match (r ← process_row 0 columns row; fill_auto table 0 columns r 0) s with (Ok (r, _), _) => r | _ => row end.

Definition insert_row (table : bytes) (columns : cols) (row : list Value) : EM Z :=
  s ← gets storage;
  '(id, last) ← in_storage (InsertRow table row);
  index_rows (index_row table columns) [(id, stored_row table columns row s)];;
  mret last.

(** The rows one by one, up to the first error: the number inserted and the
    largest identifier generated. *)
Fixpoint insert_all {A} (table : bytes) (columns : cols) (build : A -> EM (list Value)) (l : list A) (n last : Z) : EM Result :=
  match l with
  | [] => mret (affected_result n last)
  | x :: l => row ← build x;
              id ← insert_row table columns row;
              insert_all table columns build l (n + 1) (Z.max last id)
  end.

Definition default_row (columns : cols) : list Value := map (fun c => default NewNullValue (Default c)) columns.

(** Values by the names of columns: a name that is none stores in the first. *)
Fixpoint fill_named (names : list bytes) (values : list Expression) (ix : gmap bytes nat) (row : list Value) : EM (list Value) :=
  match names, values with
  | name :: names, e :: values =>
    v ← eval_const fuel e;
    if (index_of_column name ix <? length row)%nat then fill_named names values ix (<[index_of_column name ix:=v]> row)
    else lift Panic
  | _, _ => mret row
  end.
Fixpoint fill_ordered (i : nat) (values : list Expression) (row : list Value) : EM (list Value) :=
  match values with
  | e :: values => if (i <? length row)%nat then v ← eval_const fuel e; fill_ordered (S i) values (<[i:=v]> row) else mret row
  | [] => mret row
  end.
Definition buildRow (columns : cols) (names : list bytes) (values : list Expression) : EM (list Value) :=
  match names with
  | [] => fill_ordered 0 values (default_row columns)
  | _ => fill_named names values (column_index columns) (default_row columns)
  end.

Definition executeInsert (table : bytes) (names : list bytes) (rows : list (list Expression)) (query : option Select) : EM Result :=
  t ← in_storage (GetTableInfo table);
  match query with
  | Some q => r ← executeSelect fuel q;
              insert_all table (Columns t) (fun row => mret (RData row)) (Rows r) 0 0
  | None => insert_all table (Columns t) (buildRow (Columns t) names) rows 0 0
  end.

(** ** UPDATE and DELETE *)

(** The evaluation of an expression while the storage is locked. The engine
    changes only where a script is loaded, which waits for the lock. *)
Definition in_lock {A} (m : EM A) (e : Engine) : outcome StorageError A :=
  match (m e).1 with Ok a => Ok a | Err (StorageFailed x) => Err x | Err _ => Panic | Panic => Panic | Hang => Hang end.

Definition row_condition (cond : option Expression) (ix : gmap bytes nat) (e : Engine) : callback bool := fun row =>
  match cond with None => Ok true | Some c => in_lock (evalBool fuel true row ix 0 c) e end.

(** The expressions by the positions of their columns, a later name replacing
    an earlier one of the same position. *)
Definition update_exprs (ix : gmap bytes nat) (updates : gmap bytes Expression) : list (nat * Expression) :=
  fold_left (fun l k => match updates !! k with
                        | Some e => (index_of_column k ix, e) :: List.filter (fun p => negb (p.1 =? index_of_column k ix)%nat) l
                        | None => l
                        end) (key_order (map fst (map_to_list updates))) [].
Definition row_updates (exprs : list (nat * Expression)) (ix : gmap bytes nat) (e : Engine) : callback (list (nat * Value)) := fun row =>
  in_lock (map_m (fun p => v ← evalExpr fuel true row ix 0 p.2; mret (p.1, v)) exprs) e.

Definition executeUpdate (table : bytes) (updates : gmap bytes Expression) (cond : option Expression) : EM Result :=
  t ← in_storage (GetTableInfo table);
  let ix := column_index (Columns t) in
  e ← gets (fun e => e);
  '(n, calls) ← in_storage (UpdateRowsWithCallback table (row_updates (update_exprs ix updates) ix e) (row_condition cond ix e));
  index_rows (index_row table (Columns t)) calls;;
  mret (affected_result n 0).

Definition executeDelete (table : bytes) (cond : option Expression) : EM Result :=
  t ← in_storage (GetTableInfo table);
  let ix := column_index (Columns t) in
  e ← gets (fun e => e);
  '(n, calls) ← in_storage (DeleteRowsWithCallback table (row_condition cond ix e));
  index_rows (unindex_row table (Columns t)) calls;;
  mret (affected_result n 0).

(** ** Tables *)

Definition table_exists (table : bytes) : EM bool :=
  r ← try (in_storage (GetTableInfo table)); mret (match r with inl _ => true | inr _ => false end).

Definition column_of (c : Ast.ColumnDef) : EM Types.ColumnDef :=
  d ← match DDefault c with Some e => v ← eval_const fuel e; mret (Some v) | None => mret None end;
  let seq := bytes_eqb (to_upper (DType c)) (str "SEQ") in
  mret (mkColumn (DName c) (ParseDataType (DType c)) (DLength c) 0 (DNullable c && negb seq) d (DPrimaryKey c || seq) (DAutoInc c || seq)).

Definition executeCreateTable (ifNotExists : bool) (table : bytes) (defs : list Ast.ColumnDef) : EM Result :=
  exists_ ← (if ifNotExists then table_exists table else mret false);
  if (exists_ : bool) then mret (done_result (str "Table " ++ table ++ str " already exists"))
  else
    columns ← map_m column_of defs;
    in_storage (CreateTable table columns);;
    mret (done_result (str "Table " ++ table ++ str " created")).

Definition executeDropTable (ifExists : bool) (table : bytes) : EM Result :=
  missing ← (if ifExists then e ← table_exists table; mret (negb e) else mret false);
  if (missing : bool) then mret (done_result (str "Table " ++ table ++ str " does not exist"))
  else in_storage (DropTable table);; mret (done_result (str "Table " ++ table ++ str " dropped")).

(** [types.Value] with nothing but its data. *)
Definition raw_text (s : bytes) : Value := mkValue TypeUnknown (GString s) false None.
Definition described (c : Types.ColumnDef) : list bytes :=
  [Name c;
   DataType_String (CType c) ++ (if 0 <? Length c then str "(" ++ itoa (Length c) ++ str ")" else []);
   if Nullable c then str "YES" else str "NO";
   if PrimaryKey c then str "PRI" else [];
   match Default c with Some v => sprint_v (Data v) | None => [] end].
Definition executeDescribe (table : bytes) : EM Result :=
  t ← in_storage (GetTableInfo table);
  mret (query_result (map str ["Field"; "Type"; "Null"; "Key"; "Default"]%string)
          (map (fun c => mkRow 0 (map raw_text (described c))) (Columns t))).

(** The columns change in place, in memory; the rows do not. *)
Definition altered (columns : cols) (a : AlterAction) : cols :=
  if is_op ["ADD"]%string (AlterType a) then
    match AlterDef a with
    | Some d => columns ++ [mkColumn (DName d) (ParseDataType (DType d)) (DLength d) 0 (DNullable d) None false false]
    | None => columns
    end
  else if is_op ["DROP"]%string (AlterType a) then
    match list_find (fun c => equal_fold (Name c) (AlterColumn a) = true) columns with
    | Some (i, _) => delete i columns
    | None => columns
    end
  else columns.
Definition set_columns (columns : cols) (t : TableInfo) : TableInfo := mkTable (TID t) (TName t) columns (Types.RowCount t).
Definition executeAlterTable (table : bytes) (actions : list AlterAction) : EM Result :=
  t ← in_storage (GetTableInfo table);
  in_storage (change_info table (set_columns (fold_left altered actions (Columns t))));;
  mret (done_result (str "Table " ++ table ++ str " altered")).

(** ** Indexes *)

(** Index the rows a table has, from a column. *)
Definition indexExistingRows (table column : bytes) : EM unit :=
  t ← in_storage (GetTableInfo table);
  match list_find (fun c => equal_fold (Name c) column = true) (Columns t) with
  | None => fail NoIndexColumn
  | Some (i, _) =>
    rows ← in_storage (GetRowsWithIDs fuel table);
    modify (fun e => set_fts (fold_left (fun f (r : Z * list Value) =>
        match r.2 !! i with
        | Some v => if negb (bytes_eqb (ToString v) []) then IndexDocument table column r.1 (ToString v) f else f
        | None => f
        end) rows (fts e)) e)
  end.

Definition create_index (table : bytes) (options : option (gmap bytes bytes)) (column : bytes) : EM unit :=
  f ← gets fts;
  if HasIndex table column f then mret tt
  else match CreateIndex table column options f with
       | None => fail IndexFailed
       | Some f => modify (set_fts f);; _ ← try (indexExistingRows table column); mret tt
       end.

(** The message leaves out the levels of the index. *)
Definition executeCreateIndex (fullText : bool) (name table : bytes) (columns : list bytes) (options : option (gmap bytes bytes)) : EM Result :=
  if fullText then
    match columns with
    | [] => fail NoIndexColumn
    | _ =>
      _ ← map_m (create_index table options) columns;
      mret (done_result (str "Fulltext index " ++ name ++ str " created on table " ++ table ++ str " (" ++ join (str ", ") columns ++ str ")"))
    end
  else mret (done_result (str "Index " ++ name ++ str " created on table " ++ table)).

Definition executeDropIndex (name : bytes) : EM Result := mret (done_result (str "Index " ++ name ++ str " dropped")).

(** ** Settings *)

Definition session_variables : list string :=
  ["NAMES"; "CHARACTER"; "CHARSET"; "COLLATION"; "COLLATE"; "AUTOCOMMIT"; "SQL_MODE"; "TIME_ZONE"; "TIMEZONE";
   "CHARACTER_SET_CLIENT"; "CHARACTER_SET_CONNECTION"; "CHARACTER_SET_RESULTS"; "CHARACTER_SET_SERVER";
   "COLLATION_CONNECTION"; "COLLATION_SERVER"; "INIT_CONNECT"; "INTERACTIVE_TIMEOUT"; "WAIT_TIMEOUT";
   "NET_WRITE_TIMEOUT"; "NET_READ_TIMEOUT"; "MAX_ALLOWED_PACKET"; "NET_BUFFER_LENGTH"; "TX_ISOLATION";
   "TRANSACTION_ISOLATION"; "SESSION"; "GLOBAL"]%string.

(** New credentials, which are also kept with the metadata. *)
Definition change_auth (f : Auth -> Auth) : EM unit :=
  modify (fun e => set_auth (f (auth e)) (Some (ToMap (f (auth e)))) e);;
  _ ← try (in_storage saveMetadata); mret tt.

Definition executeSet (var : bytes) (value : Expression) : EM Result :=
  v ← eval_const fuel value;
  let value := ToString v in
  let name := to_upper var in
  let acknowledged := mret (done_result (var ++ str " set to " ++ value)) in
  if is_op ["USER"]%string name then
    change_auth (SetCredentials sha256 sha1 value []);; mret (done_result (str "Username set"))
  else if is_op ["PASSWORD"]%string name then
    change_auth (fun a => SetCredentials sha256 sha1 (GetUsername a) value a);; mret (done_result (str "Password updated"))
  else if is_op ["LOG_LEVEL"]%string name then mret (done_result (str "Log level set to " ++ value))
  else if is_op session_variables name then acknowledged
  else if has_prefix (str "SESSION.") name then acknowledged
  else if has_prefix (str "@") var then mret (done_result (str "Variable set to " ++ value))
  else fail (UnknownSet var).

Definition executeUse (name : bytes) : EM Result :=
  when (negb (bytes_eqb name [])) (modify (set_currentDB name));; mret (done_result (str "Database changed")).
End Statements.
