(* ===== verification/Engine.v ===== *)
(** * The engine: SHOW, the dispatch on statements, and direct access (executor/executor.go, executor_dml.go) *)

From S2P Require Import Prelude GoLib Types RowCodec Page PageCache TableFile Crypto Json Wal Storage Functions Script Auth Lexer Ast Parser ParserDml Eval Select Dml.
Local Open Scope Z_scope.

Section Engine.
Context `{GoRuntime} `{FunctionRuntime} `{FullText} `{MapOrder} `{JSONRuntime} `{RecordJSON} `{Environment} `{ColumnJSON}
  `{Digests} `{!HostFiles} (fuel : nat).

Abbreviation EM := (SO Engine EngineError).

(** ** SHOW *)

Definition strings (names : list string) : list bytes := map str names.
Definition text_rows (rows : list (list bytes)) : list Row := map (fun r => mkRow 0 (texts r)) rows.

Definition full_column (c : Types.ColumnDef) : list bytes :=
  [Name c; DataType_String (CType c); DataType_String (CType c) ++ str "(" ++ itoa (Length c) ++ str ")";
   []; str "YES"; []; []; []; str "select,insert,update,references"; []].
Definition bool_text (b : bool) : bytes := if b then str "true" else str "false".
Definition short_column (c : Types.ColumnDef) : list bytes :=
  [Name c; DataType_String (CType c); itoa (Length c); bool_text (Nullable c); bool_text (PrimaryKey c)].

Definition create_text (table : bytes) (columns : list Types.ColumnDef) : bytes :=
  str "CREATE TABLE `" ++ table ++ str "` (" ++ [byte.of_Z 10] ++ str "  "
  ++ join (str "," ++ [byte.of_Z 10] ++ str "  ") (map Types.ColumnDef_String columns)
  ++ [byte.of_Z 10] ++ str ") ENGINE=XxLdb DEFAULT CHARSET=utf8mb4".

Definition status_row (s : Storage) (t : bytes) : list bytes :=
  [t; str "InnoDB"; str "10"; str "Compact"; itoa (match tables s !! t with Some i => Types.RowCount (info i) | None => 0 end);
   str "0"; str "0"; str "0"; str "0"; str "0"; str "0"; []; []; []; str "utf8mb4_general_ci"; []; []; []].

Definition index_entry (seq : Z) (c : Types.ColumnDef) : list bytes :=
  [str "xxldb"; str "0"; str "PRIMARY"; itoa seq; Name c; str "A"; str "0"; []; []; []; str "BTREE"; []; []; []; str "YES"].

(** The answers that do not depend on the database. *)
Definition routine_columns : list string :=
  ["Db"; "Name"; "Type"; "Definer"; "Modified"; "Created"; "Security_type"; "Comment"; "character_set_client";
   "collation_connection"; "Database Collation"]%string.
Definition fixed_answers : list (list string * Result) :=
  [(["DATABASES"; "SCHEMAS"], fixed_result ["Database"] [["xxldb"]]);
   (["VARIABLES"], fixed_result ["Variable_name"; "Value"]
      [["character_set_server"; "utf8mb4"]; ["collation_server"; "utf8mb4_general_ci"]; ["version"; "5.7.42"]; ["autocommit"; "1"]]);
   (["STATUS"], fixed_result ["Variable_name"; "Value"] []);
   (["WARNINGS"], fixed_result ["Level"; "Code"; "Message"] []);
   (["GRANTS"], fixed_result ["Grants for admin@%"] [["GRANT ALL PRIVILEGES ON *.* TO 'admin'@'%'"]]);
   (["ENGINES"], fixed_result ["Engine"; "Support"; "Comment"; "Transactions"; "XA"; "Savepoints"]
      [["XxLdb"; "DEFAULT"; "XxLdb storage engine"; "NO"; "NO"; "NO"]]);
   (["OPEN TABLES"], fixed_result ["Database"; "Table"; "In_use"; "Name_locked"] []);
   (["COLLATION"], fixed_result ["Collation"; "Charset"; "Id"; "Default"; "Compiled"; "Sortlen"]
      [["utf8mb4_general_ci"; "utf8mb4"; "45"; "Yes"; "Yes"; "1"]]);
   (["FUNCTION STATUS"], fixed_result routine_columns []);
   (["PROCEDURE STATUS"], fixed_result routine_columns []);
   (["TRIGGERS"], fixed_result ["Trigger"; "Event"; "Table"; "Statement"; "Timing"; "Created"; "sql_mode"; "Definer";
      "character_set_client"; "collation_connection"; "Database Collation"] []);
   (["EVENTS"], fixed_result ["Db"; "Name"; "Definer"; "Time zone"; "Type"; "Execute at"; "Interval value"; "Interval field";
      "Starts"; "Ends"; "Status"; "Originator"; "character_set_client"; "collation_connection"; "Database Collation"] [])]%string.

Definition executeShow (type target pattern : bytes) : EM Result :=
  s ← gets storage;
  let option := to_upper type in
  let asked names := is_op names option in
  if asked ["TABLES"]%string then
    mret (query_result (strings ["table_name"]) (text_rows (map (fun t => [t]) (ListTables s))))
  else if asked ["FULL TABLES"]%string then
    mret (query_result (strings ["Tables_in_xxldb"; "Table_type"]) (text_rows (map (fun t => [t; str "BASE TABLE"]) (ListTables s))))
  else if asked ["COLUMNS"]%string then
    t ← in_storage (GetTableInfo target);
    mret (query_result (strings ["column_name"; "type"; "length"; "nullable"; "primary_key"]) (text_rows (map short_column (Columns t))))
  else if asked ["FULL COLUMNS"]%string then
    t ← in_storage (GetTableInfo target);
    mret (query_result (strings ["Field"; "Type"; "Collation"; "Null"; "Key"; "Default"; "Extra"; "Privileges"; "Comment"])
            (text_rows (map full_column (Columns t))))
  else if asked ["CREATE"]%string then
    t ← in_storage (GetTableInfo target);
    mret (query_result (strings ["Table"; "Create Table"]) (text_rows [[target; create_text target (Columns t)]]))
  else if asked ["TABLE STATUS"]%string then
    let shown := List.filter (fun t => bytes_eqb pattern [] || path_match pattern t) (ListTables s) in
    mret (query_result (strings ["Name"; "Engine"; "Version"; "Row_format"; "Rows"; "Avg_row_length"; "Data_length";
      "Max_data_length"; "Index_length"; "Data_free"; "Auto_increment"; "Create_time"; "Update_time"; "Check_time";
      "Collation"; "Checksum"; "Create_options"; "Comment"]) (text_rows (map (status_row s) shown)))
  else if asked ["INDEX"; "INDEXES"; "KEYS"]%string then
    if bytes_eqb target [] then fail MissingTable
    else
      t ← in_storage (GetTableInfo target);
      mret (query_result (strings ["Table"; "Non_unique"; "Key_name"; "Seq_in_index"; "Column_name"; "Collation"; "Cardinality";
        "Sub_part"; "Packed"; "Null"; "Index_type"; "Comment"; "Index_comment"; "Visible"; "Expression"])
        (text_rows (imap (fun i => index_entry (Z.of_nat i + 1)) (primary_columns (Columns t)))))
  else match List.find (fun p => asked p.1) fixed_answers with
       | Some (_, r) => mret r
       | None => fail (UnknownShow type)
       end.

(** ** Statements *)

(** What is answered and not done: there are no transactions, and nothing is
    restored. *)
Definition executeRestore (path : bytes) : EM Result := mret (done_result (str "Database would be restored from " ++ path)).
Definition executeBegin : EM Result := mret (done_result (str "Transaction started")).
Definition executeCommit : EM Result := mret (done_result (str "Transaction committed")).
Definition executeRollback : EM Result := mret (done_result (str "Transaction rolled back")).


Definition ExecuteStatement (stmt : Statement) : EM Result :=
  match stmt with
  | SelectStmt q => executeSelect fuel q
  | InsertStmt table names rows query => executeInsert fuel table names rows query
  | UpdateStmt table updates cond _ => executeUpdate fuel table updates cond
  | DeleteStmt table cond _ => executeDelete fuel table cond
  | CreateTableStmt ifNotExists table defs _ => executeCreateTable fuel ifNotExists table defs
  | DropTableStmt ifExists table => executeDropTable ifExists table
  | UseStmt name => executeUse name
  | DescribeStmt table => executeDescribe table
  | CreateIndexStmt _ fullText name table columns options => executeCreateIndex fuel fullText name table columns options
  | DropIndexStmt name _ => executeDropIndex name
  | AlterTableStmt table actions => executeAlterTable table actions
  | SetStmt var value => executeSet fuel var value
  | ShowStmt type target pattern => executeShow type target pattern
  | RestoreStmt path => executeRestore path
  | BeginStmt => executeBegin
  | CommitStmt => executeCommit
  | RollbackStmt => executeRollback
  | CreateDatabaseStmt _ _ | DropDatabaseStmt _ _ | BackupStmt _ => fun e => (host_statement stmt e, e)
  end.

Definition Execute (sql : bytes) : EM Result :=
  match ParseString sql with
  | Ok stmt => ExecuteStatement stmt
  | Err _ => fail (Eval.ParseFailed sql)
  | Panic => lift Panic
  | Hang => lift Hang
  end.

(** ** Placeholders *)

(** The text that replaces a placeholder: only single quotes are escaped. *)
Definition placeholder_text (d : GoData) : bytes :=
  match d with
  | GNil => str "NULL"
  | GString s => str "'" ++ replace_all s (str "'") (str "''") ++ str "'"
  | GBytes b => str "X'" ++ hex_encode b ++ str "'"
  | GInt (KInt | KInt32 | KInt64) n => itoa n
  | GFloat32 f => fmt_float32 f
  | GFloat64 f => fmt_float64 f
  | GBool b => if b then str "1" else str "0"
  | d => str "'" ++ sprint_v d ++ str "'"
  end.

(** Each argument replaces the first question mark that is left, those in
    the texts of earlier arguments included. *)
Fixpoint replacePlaceholders (sql : bytes) (args : list GoData) : bytes :=
  match args with
  | [] => sql
  | d :: args => match index_byte (byte.of_Z 63) sql with
                 | None => sql
                 | Some i => replacePlaceholders (take i sql ++ placeholder_text d ++ drop (S i) sql) args
                 end
  end.
Definition ExecuteWithArgs (sql : bytes) (args : list GoData) : EM Result := Execute (replacePlaceholders sql args).

(** ** Direct access *)

Inductive DirectError :=
  | InEngine (e : EngineError) | NoColumn | BadHex | UnsupportedData | NoRows | NoData | BadConversion.
Abbreviation DM := (SO Engine DirectError).
Definition direct {A} (m : EM A) : DM A := fun e =>
  let '(r, e') := m e in
  (match r with Ok a => Ok a | Err x => Err (InEngine x) | Panic => Panic | Hang => Hang end, e').

(** Row values from Go values, and defaults for those that are missing. *)
Definition direct_row (columns : list Types.ColumnDef) (values : list GoData) : list Value :=
  imap (fun i c => match values !! i with Some d => NewValue d | None => default NewNullValue (Default c) end) columns.
Definition InsertRowDirect (table : bytes) (values : list GoData) : DM Z :=
  t ← direct (in_storage (GetTableInfo table));
  '(id, _) ← direct (in_storage (InsertRow table (direct_row (Columns t) values)));
  mret id.

(** Binary data, or its hexadecimal text. *)
Definition binary_data (d : GoData) : DM bytes :=
  match d with
  | GBytes b => mret b
  | GString s => match NewBlobValueFromHex s with
                 | Ok v => match Data v with GBytes b => mret b | _ => fail BadHex end
                 | _ => fail BadHex
                 end
  | _ => fail UnsupportedData
  end.

Definition binary_value (targetType : DataType) (data : bytes) : Value :=
  if targetType =? TypeImage then NewImageValue data else NewBlobValue data.

Definition insertBinaryDirect (table column : bytes) (d : GoData) (targetType : DataType) : DM Z :=
  t ← direct (in_storage (GetTableInfo table));
  match list_find (fun c => equal_fold (Name c) column = true) (Columns t) with
  | None => fail NoColumn
  | Some (i, _) =>
    data ← binary_data d;
    '(_, last) ← direct (in_storage (InsertRow table (<[i:=binary_value targetType data]> (default_row (Columns t)))));
    mret (u64 last)
  end.
Definition InsertBlobDirect (table column : bytes) (d : GoData) : DM Z := insertBinaryDirect table column d TypeBlob.
Definition InsertImageDirect (table column : bytes) (d : GoData) : DM Z := insertBinaryDirect table column d TypeImage.

Definition with_where (sql where_ : bytes) : bytes := match where_ with [] => sql | _ => sql ++ str " WHERE " ++ where_ end.

Definition updateBinaryDirect (table column : bytes) (d : GoData) (where_ : bytes) (targetType : DataType) : DM Z :=
  data ← binary_data d;
  let expr := str (if targetType =? TypeImage then "IMAGE_FROM_HEX('" else "BLOB_FROM_HEX('") ++ hex_encode data ++ str "')" in
  r ← direct (Execute (with_where (str "UPDATE " ++ table ++ str " SET " ++ column ++ str " = " ++ expr) where_));
  mret (RowsAffected r).
Definition UpdateBlobDirect (table column : bytes) (d : GoData) (where_ : bytes) : DM Z := updateBinaryDirect table column d where_ TypeBlob.
Definition UpdateImageDirect (table column : bytes) (d : GoData) (where_ : bytes) : DM Z := updateBinaryDirect table column d where_ TypeImage.

Definition getBinaryDirect (table column where_ : bytes) : DM bytes :=
  r ← direct (Execute (with_where (str "SELECT " ++ column ++ str " FROM " ++ table) where_ ++ str " LIMIT 1"));
  match Rows r with
  | [] => fail NoRows
  | row :: _ => match RData row with
                | [] => fail NoData
                | v :: _ => match Types.ToBytes v with Ok b => mret b | _ => fail BadConversion end
                end
  end.
Definition GetBlobDirect := getBinaryDirect.
Definition GetImageDirect := getBinaryDirect.

(** ** Opening *)

(** The engine on a storage: the table of scripts is created where it is
    missing, and the kept credentials are loaded. *)
Definition script_columns : list Types.ColumnDef :=
  [mkColumn (str "name") TypeVarchar 100 0 false None true false;
   mkColumn (str "script") TypeText 0 0 false None false false;
   mkColumn (str "description") TypeVarchar 500 0 true None false false].
Definition initSystemTables : EM unit :=
  s ← gets storage;
  if existsb (fun t => bytes_eqb (to_lower t) (str "xxscript")) (ListTables s) then mret tt
  else in_storage (CreateTable (str "xxscript") script_columns);; mret tt.

Definition NewEngine (s : Storage) (saved : option (gmap bytes json)) (username password : bytes) : Engine :=
  let e := mkEngine _ s NewAuth saved NewManager no_indexes [] in
  let e := (initSystemTables e).2 in
  let a := match saved with Some m => FromMap m (auth e) | None => auth e end in
  let a := if negb (bytes_eqb username []) && negb (bytes_eqb password []) then SetCredentials sha256 sha1 username password a else a in
  set_auth a saved e.
End Engine.
