(* ===== verification/EngineExamples.v ===== *)
(** * The engine at work on an empty storage in memory

    A runtime without full-text indexes, files or digests, and statements
    from their texts to their answers. *)

From S2P Require Import Prelude GoLib Types RowCodec Page PageCache TableFile Crypto Json Wal Storage Functions Script Auth Lexer Ast Parser ParserDml Eval Select Dml Engine.
Local Open Scope Z_scope.

Definition insertion_order : MapOrder := {| key_order keys := keys; key_order_perm keys := reflexivity keys |}.
Definition plain_digests : Digests := {| sha256 := zero_digest; sha1 := zero_digest |}.
Definition no_files : @HostFiles no_full_text := @Build_HostFiles no_full_text (fun _ _ => false) (fun _ _ => Err MissingTable).

#[export] Existing Instance plain_runtime.
#[export] Existing Instance plain_functions.
#[export] Existing Instance plain_json.
#[export] Existing Instance plain_records.
#[export] Existing Instance plain_environment.
#[export] Existing Instance no_full_text.
#[export] Existing Instance insertion_order.
#[export] Existing Instance plain_digests.
#[export] Existing Instance no_files.

Definition memory_engine : Engine := NewEngine (NewStorage false 0) None [] [].

(** The answers to statements, each on the engine the others left. *)
Fixpoint session (statements : list string) (e : Engine) : list (outcome EngineError Result) :=
  match statements with
  | [] => []
  | s :: rest => let '(r, e) := Execute 10 (str s) e in r :: session rest e
  end.
Definition shown (r : outcome EngineError Result) : outcome EngineError (list (list bytes)) :=
  match r with
  | Ok r => Ok (map (fun row => map ToString (RData row)) (Rows r))
  | Err e => Err e
  | Panic => Panic
  | Hang => Hang
  end.
Definition last_answer (statements : list string) : outcome EngineError (list (list bytes)) :=
  shown (List.last (session statements memory_engine) Hang).
Definition rows (l : list (list string)) : outcome EngineError (list (list bytes)) := Ok (map (map str) l).

Definition people : list string :=
  ["CREATE TABLE people (id SEQ, name VARCHAR(20), age INT)";
   "INSERT INTO people (name, age) VALUES ('ann', 30), ('bob', 25), ('cyd', 30), ('dan', 41)"]%string.

Example select_ordered :
  last_answer (people ++ ["SELECT name, age FROM people WHERE age >= 30 ORDER BY age DESC, name LIMIT 2"]%string)
  = rows [["dan"; "41"]; ["ann"; "30"]]%string.
Proof. vm_compute. reflexivity. Qed.
Example update_then_select :
  last_answer (people ++ ["UPDATE people SET age = age + 1 WHERE name LIKE '_o%'"; "DELETE FROM people WHERE age > 35";
                          "SELECT id, age FROM people WHERE id IN (1, 2, 3, 4) AND age BETWEEN 26 AND 29"]%string)
  = rows [["2"; "26"]]%string.
Proof. vm_compute. reflexivity. Qed.
Example group_counts :
  last_answer (people ++ ["SELECT age, COUNT( * ) FROM people GROUP BY age"]%string)
  = rows [["30"; "2"]; ["25"; "1"]; ["41"; "1"]]%string.
Proof. vm_compute. reflexivity. Qed.
Example union_and_case :
  last_answer (people ++ ["SELECT CASE WHEN age > 40 THEN 'old' ELSE 'new' END FROM people WHERE id > 2 UNION SELECT 1 + 2"]%string)
  = rows [["new"]; ["old"]; ["3"]]%string.
Proof. vm_compute. reflexivity. Qed.

(** ** Where the answers are not those of SQL *)

Definition on_people (s : string) : outcome EngineError (list (list bytes)) := last_answer (people ++ [s]).

(** The limit is applied before the offset. *)
Example offset_after_limit : on_people "SELECT name FROM people LIMIT 2 OFFSET 2" = rows [].
Proof. vm_compute. reflexivity. Qed.
Example negative_limit_panics : on_people "SELECT name FROM people LIMIT -1" = Panic.
Proof. vm_compute. reflexivity. Qed.
(** IS is parsed and not evaluated. *)
Example is_null_is_null : on_people "SELECT NULL IS NULL" = rows [["NULL"]]%string.
Proof. vm_compute. reflexivity. Qed.
(** A column that does not exist is the first one. *)
Example unknown_column_is_first : on_people "SELECT nope FROM people WHERE id < 3" = rows [["1"]; ["2"]]%string.
Proof. vm_compute. reflexivity. Qed.
Example unknown_column_stores_first :
  last_answer ["CREATE TABLE t (a INT)"; "INSERT INTO t (nope) VALUES (7)"; "SELECT a FROM t"]%string = rows [["7"]]%string.
Proof. vm_compute. reflexivity. Qed.
(** A star makes room for the columns of the table only. *)
Example star_then_columns_panics : on_people "SELECT *, id, name, age FROM people" = Panic.
Proof. vm_compute. reflexivity. Qed.
Example having_ignored : on_people "SELECT name FROM people HAVING age > 100" = on_people "SELECT name FROM people".
Proof. vm_compute. reflexivity. Qed.
Example join_ignored : on_people "SELECT name FROM people JOIN missing ON 1 = 2" = on_people "SELECT name FROM people".
Proof. vm_compute. reflexivity. Qed.
Example union_without_table_ignored : on_people "SELECT 1 UNION SELECT 2" = rows [["1"]]%string.
Proof. vm_compute. reflexivity. Qed.
Example union_keeps_duplicates : on_people "SELECT 1 FROM people WHERE id < 3 UNION SELECT 1" = rows [["1"]; ["1"]; ["1"]]%string.
Proof. vm_compute. reflexivity. Qed.
(** Rows of aggregates are ordered by the positions of the table's columns. *)
Example aggregates_not_ordered :
  on_people "SELECT age, COUNT( * ) FROM people GROUP BY age ORDER BY age" = rows [["30"; "2"]; ["25"; "1"]; ["41"; "1"]]%string.
Proof. vm_compute. reflexivity. Qed.
Example percent_in_text : on_people "SELECT '%a' LIKE '%'" = rows [["0"]]%string.
Proof. vm_compute. reflexivity. Qed.
Example primary_key_repeats :
  last_answer ["CREATE TABLE t (id INT PRIMARY KEY)"; "INSERT INTO t VALUES (1)"; "INSERT INTO t VALUES (1)"; "SELECT id FROM t"]%string
  = rows [["1"]; ["1"]]%string.
Proof. vm_compute. reflexivity. Qed.
(** A dropped column leaves its values to the next. *)
Example drop_column_shifts :
  last_answer ["CREATE TABLE t (a INT, b INT)"; "INSERT INTO t VALUES (1, 2)"; "ALTER TABLE t DROP a"; "SELECT b FROM t"]%string
  = rows [["1"]]%string.
Proof. vm_compute. reflexivity. Qed.
(** A script that is not loaded yet is read under the lock an UPDATE holds. *)
Example update_with_script_hangs :
  last_answer (people ++ ["INSERT INTO xxscript VALUES ('xx_inc', '$1 + 1', '')"; "UPDATE people SET age = xx_inc(age)"]%string) = Hang.
Proof. vm_compute. reflexivity. Qed.
Example sums_lose_digits : on_people "SELECT 9007199254740993 + 0" = rows [["9007199254740992"]]%string.
Proof. vm_compute. reflexivity. Qed.
Example show_processlist_unknown : on_people "SHOW PROCESSLIST" = Err (UnknownShow (str "PROCESSLIST")).
Proof. vm_compute. reflexivity. Qed.
Example hex_literal_is_null : on_people "SELECT X'41'" = rows [["NULL"]]%string.
Proof. vm_compute. reflexivity. Qed.
(** Setting the user clears the password. *)
Example set_user_clears_password :
  let a := auth (Execute 10 (str "SET USER = 'bob'") (Execute 10 (str "SET PASSWORD = 'pw'") memory_engine).2).2 in
  Authenticate sha256 (str "bob") (str "anything") a = true.
Proof. vm_compute. reflexivity. Qed.

(** Quotes are doubled, but a backslash before one undoes it; an argument is
    searched for placeholders. *)
Example backslash_ends_string :
  replacePlaceholders (str "SELECT ?") [GString (str "a\' OR 1=1")] = str "SELECT 'a\'' OR 1=1'".
Proof. vm_compute. reflexivity. Qed.
Example placeholder_in_argument :
  replacePlaceholders (str "SELECT ?, ?") [GString (str "a?b"); GInt KInt 1] = str "SELECT 'a1b', ?".
Proof. vm_compute. reflexivity. Qed.
