(* ===== verification/EngineSpec.v ===== *)
(** * Statements on a table, against a list of rows

    An abstract table is a list of identified rows; the statements SELECT,
    INSERT, UPDATE and DELETE on it are functions. The engine on a storage in
    memory does what they say, statement after statement. *)

From S2P Require Import Prelude GoLib Types RowCodec Page PageCache TableFile Crypto Json Wal Storage StorageSpec Functions Script Auth Ast Eval EvalSpec Select Dml Lexer Parser ParserDml Engine EngineExamples.
Local Open Scope Z_scope.

(** ** The abstract table *)

Record Table := mkTab {
  columns : list Types.ColumnDef;
  contents : list (Z * list Value);
  counter : Z;                       (* the next identifier *)
  sequences_of : gmap bytes Z        (* the sequences of the storage *)
}.

Inductive TableOp :=
  | Query (cond : option Expression)
  | Add (names : list bytes) (values : list Expression)
  | Change (updates : gmap bytes Expression) (cond : option Expression)
  | Remove (cond : option Expression).

Definition statement_of (table : bytes) (op : TableOp) : Statement :=
  match op with
  | Query cond => SelectStmt (StmtSelect (mkSelectFields false [mkSelectColumn None [] [] true] (Some (mkFrom table [] [] None))
                                            [] cond [] None [] None None [] false))
  | Add names values => InsertStmt table names [values] None
  | Change updates cond => UpdateStmt table updates cond None
  | Remove cond => DeleteStmt table cond None
  end.

Section Specification.
Context `{GoRuntime} `{FunctionRuntime} `{FullText} `{MapOrder} (name : bytes).

Definition settled {A} (m : outcome unit A) : option A := match m with Ok a => Some a | _ => None end.
Definition accepted_by {A} (m : outcome StorageError A) : option A := match m with Ok a => Some a | _ => None end.

(** Is the row chosen by the condition? *)
Definition chosen (ix : gmap bytes nat) (cond : option Expression) (row : list Value) : option bool :=
  match cond with None => Some true | Some c => ToBool <$> settled (value_at row ix c) end.
Definition choices (T : Table) (cond : option Expression) : option (list (bool * (Z * list Value))) :=
  mapM (fun p => b ← chosen (column_index (columns T)) cond p.2; Some (b, p)) (contents T).
Definition kept (b : bool) (l : list (bool * (Z * list Value))) : list (Z * list Value) :=
  map snd (List.filter (fun p => Bool.eqb p.1 b) l).

Definition no_blob (row : list Value) : bool := forallb (fun v => match BlobRefOf v with None => true | Some _ => false end) row.

(** A new row: the values, checked and padded, and the sequences. *)
Fixpoint ordered_values (i : nat) (values : list Expression) (row : list Value) : option (list Value) :=
  match values with
  | e :: values => if (i <? length row)%nat then v ← settled (value_at [] ∅ e); ordered_values (S i) values (<[i:=v]> row) else Some row
  | [] => Some row
  end.
Fixpoint named_values (ix : gmap bytes nat) (names : list bytes) (values : list Expression) (row : list Value) : option (list Value) :=
  match names, values with
  | n :: names, e :: values =>
    v ← settled (value_at [] ∅ e);
    if (index_of_column n ix <? length row)%nat then named_values ix names values (<[index_of_column n ix:=v]> row) else None
  | _, _ => Some row
  end.
Definition new_row (cols : list Types.ColumnDef) (names : list bytes) (values : list Expression) : option (list Value) :=
  match names with
  | [] => ordered_values 0 values (default_row cols)
  | _ => named_values (column_index cols) names values (default_row cols)
  end.

Definition check_value (col : Types.ColumnDef) (v : Value) : option Value :=
  '(v, _) ← accepted_by (fit_value col v);
  if negb (Nullable col) && IsNull v && negb (AutoInc col) && negb (CType col =? TypeSeq) then None else Some v.
Fixpoint check_row (i : nat) (cols : list Types.ColumnDef) (row : list Value) : option (list Value) :=
  match cols with
  | [] => Some row
  | col :: rest => match row !! i with
                   | None => check_row (S i) rest row
                   | Some v => v ← check_value col v; check_row (S i) rest (<[i:=v]> row)
                   end
  end.
Fixpoint number_row (i : nat) (cols : list Types.ColumnDef) (row : list Value) (last : Z) (seqs : gmap bytes Z)
  : option (list Value * Z * gmap bytes Z) :=
  match cols with
  | [] => Some (row, last, seqs)
  | col :: rest =>
    if is_auto col then
      let n := i64 (default 0 (seqs !! seq_key name (Name col)) + 1) in
      match row !! i with
      | None => None
      | Some _ => number_row (S i) rest (<[i:=NewIntValue n]> row) n (<[seq_key name (Name col):=n]> seqs)
      end
    else number_row (S i) rest row last seqs
  end.

(** The row after its updates, which are evaluated on the row as it was. *)
Definition assigned (ix : gmap bytes nat) (updates : gmap bytes Expression) (row : list Value) : option (list (nat * Value)) :=
  mapM (fun p => v ← settled (value_at row ix p.2); Some (p.1, v)) (update_exprs ix updates).
Definition new_values (T : Table) (updates : gmap bytes Expression) (row : list Value) : option (list Value) :=
  u ← assigned (column_index (columns T)) updates row;
  accepted_by (apply_pure (columns T) true (length row) u row).

Definition with_contents (T : Table) (l : list (Z * list Value)) : Table := mkTab (columns T) l (counter T) (sequences_of T).

(** The answer to a statement and the table after it; none where a value
    depends on more than the row, a row is refused, or the identifiers are
    used up. *)
Definition spec (op : TableOp) (T : Table) : option (Result * Table) :=
  match op with
  | Query cond =>
    l ← choices T cond;
    if forallb (fun p => no_blob p.2) (contents T) then
      Some (query_result (map Name (columns T)) (map (fun p => mkRow p.1 p.2) (kept true l)), T)
    else None
  | Add names values =>
    row ← new_row (columns T) names values;
    row ← check_row 0 (columns T) row;
    '(row, last, seqs) ← number_row 0 (columns T) row 0 (sequences_of T);
    if counter T <? 2 ^ 64 - 1 then
      Some (affected_result 1 (Z.max 0 last), mkTab (columns T) (contents T ++ [(counter T, row)]) (counter T + 1) seqs)
    else None
  | Change updates cond =>
    l ← choices T cond;
    l' ← mapM (fun p => if (p.1 : bool) then r ← new_values T updates p.2.2; Some (p.2.1, r) else Some p.2) l;
    Some (affected_result (zlen (kept true l)) 0, with_contents T l')
  | Remove cond =>
    l ← choices T cond;
    Some (affected_result (zlen (kept true l)) 0, with_contents T (kept false l))
  end.

Fixpoint spec_all (ops : list TableOp) (T : Table) : option (list Result * Table) :=
  match ops with
  | [] => Some ([], T)
  | op :: ops => '(r, T) ← spec op T; '(rs, T) ← spec_all ops T; Some (r :: rs, T)
  end.
End Specification.

(** ** The engine holds the table *)

Section Refinement.
Context `{GoRuntime} `{FunctionRuntime} `{FullText} `{MapOrder} `{JSONRuntime} `{RecordJSON} `{Environment} `{ColumnJSON}
  `{Digests} `{!HostFiles} (fuel : nat) (name : bytes).
Context (Hname : is_information_schema (mkFrom (S := Select) name [] [] None) = false) (Hfilled : name <> []).

Record holds (e : Engine) (T : Table) : Prop := {
  h_memory : Storage.enabled (storage e) = false /\ tableFiles (storage e) = ∅ /\ disk (storage e) = ∅;
  h_table : exists t, tables (storage e) !! name = Some t /\ Columns (info t) = columns T;
  h_rows : rowData (storage e) !! name = Some (contents T).*2;
  h_ids : rowIDs (storage e) !! name = Some (contents T).*1;
  h_counter : 0 <= counter T /\ snextID (storage e) = counter T;
  h_sequences : sequences (storage e) = sequences_of T
}.

Lemma in_storage_ok {A} (m : SM A) e a s : m (storage e) = (Ok a, s) -> in_storage m e = (Ok a, set_storage s e).
Proof. intros Hm. unfold in_storage. by rewrite Hm. Qed.
Lemma set_storage_id e : set_storage (storage e) e = e.
Proof. by destruct e. Qed.

Lemma table_info_run e T : holds e T -> exists t, tables (storage e) !! name = Some t /\ Columns (info t) = columns T /\
  in_storage (GetTableInfo name) e = (Ok (info t), e).
Proof.
  intros Hh. destruct (h_table _ _ Hh) as (t & Ht & Hc). exists t. split_and!; [done..|].
  rewrite (in_storage_ok _ e (info t) (storage e)); [by rewrite set_storage_id|].
  unfold GetTableInfo. by rewrite (bind_ok _ _ _ _ _ (get_table_ok _ _ _ Ht)).
Qed.

Lemma settled_ok {A} (m : outcome unit A) a : settled m = Some a -> m = Ok a.
Proof. by destruct m; intros [= <-]. Qed.
Lemma accepted_ok {A} (m : outcome StorageError A) a : accepted_by m = Some a -> m = Ok a.
Proof. by destruct m; intros [= <-]. Qed.

Lemma evalBool_chosen locked row ix id c b e : chosen ix (Some c) row = Some b -> evalBool fuel locked row ix id c e = (Ok b, e).
Proof.
  cbn. intros Hc. destruct (settled _) as [v|] eqn:E; [|done]. apply settled_ok in E. injection Hc as <-.
  unfold evalBool. by rewrite (bind_ok _ _ _ _ _ (evalExpr_value fuel row ix locked id e c v E)).
Qed.

Lemma row_condition_chosen ix cond row b e : chosen ix cond row = Some b -> row_condition fuel cond ix e row = Ok b.
Proof.
  destruct cond as [c|]; [|by intros [= <-]]. intros Hc. unfold row_condition, in_lock.
  by rewrite (evalBool_chosen true row ix 0 c b e Hc).
Qed.

(** ** SELECT *)

Lemma filter_where_chosen ix cond (rows : list (Z * list Value)) e : forall l,
  mapM (fun p => b ← chosen ix cond p.2; Some (b, p)) rows = Some l ->
  filter_where fuel (map (fun p => mkRow p.1 p.2) rows) cond ix e = (Ok (map (fun p => mkRow p.1 p.2) (kept true l)), e).
Proof.
  destruct cond as [c|]; cbn [filter_where].
  - unfold filterRows. induction rows as [|p rows IH]; intros l Hl; [by injection Hl as <-|].
    apply mapM_cons in Hl as (y & ys & Hy & Hys & ->). destruct (chosen ix (Some c) p.2) as [b|] eqn:Hb; [|done]. injection Hy as <-.
    cbn [map filter_m].
    pose proof (evalBool_chosen false p.2 ix p.1 c b e Hb) as Hv. unfold evalBool in Hv. unfold eval_row. cbn [RData RID].
    rewrite (bind_ok _ _ _ _ _ Hv), (bind_ok _ _ _ _ _ (IH ys Hys)). unfold kept. cbn [List.filter fst]. by destruct b.
  - intros l Hl. unfold mret, SO_ret. do 2 f_equal. revert l Hl. induction rows as [|p rows IH]; intros l Hl; [by injection Hl as <-|].
    apply mapM_cons in Hl as (y & ys & [= <-] & Hys & ->). unfold kept in *. cbn [map List.filter fst Bool.eqb snd]. by rewrite (IH ys Hys).
Qed.

Lemma resolve_no_blob s row : no_blob row = true -> map (resolveBlobRef s) row = row.
Proof.
  intros Hb. induction row as [|v row IH]; [done|]. cbn in *. apply andb_true_iff in Hb as [Hv Hb]. rewrite IH by done.
  unfold resolveBlobRef. by destruct (BlobRefOf v).
Qed.

Lemma rows_read e T : holds e T -> forallb (fun p => no_blob p.2) (contents T) = true ->
  in_storage (GetRowsWithIDs fuel name) e = (Ok (contents T), e).
Proof.
  intros Hh Hb. destruct (h_table _ _ Hh) as (t & Ht & _). destruct (h_memory _ _ Hh) as (_ & Htf & Hd).
  rewrite (in_storage_ok _ e (contents T) (storage e)); [by rewrite set_storage_id|].
  unfold GetRowsWithIDs. rewrite (bind_ok _ _ _ _ _ (get_table_ok _ _ _ Ht)).
  rewrite (bind_ok _ _ _ None (storage e)).
  2:{ unfold table_file. by rewrite bind_gets, Htf, Hd, !lookup_empty. }
  rewrite bind_gets, (h_rows _ _ Hh), (h_ids _ _ Hh). cbn [default from_option]. unfold id.
  rewrite !length_fmap, Nat.ltb_irrefl.
  unfold mret, SO_ret. do 2 f_equal. clear -Hb. induction (contents T) as [|[i row] l IH]; [done|]. cbn in *.
  apply andb_true_iff in Hb as [Hr Hb]. by rewrite resolve_no_blob, IH.
Qed.

Lemma query_run e T cond l : holds e T -> choices T cond = Some l -> forallb (fun p => no_blob p.2) (contents T) = true ->
  ExecuteStatement fuel (statement_of name (Query cond)) e =
  (Ok (query_result (map Name (columns T)) (map (fun p => mkRow p.1 p.2) (kept true l))), e).
Proof.
  intros Hh Hl Hb. cbn [statement_of ExecuteStatement executeSelect From FromTable].
  rewrite bool_decide_eq_false_2 by done. rewrite Hname.
  destruct (table_info_run e T Hh) as (t & _ & Hc & Hi).
  assert (Hrows : select_table_rows fuel (mkSelectFields false [mkSelectColumn None [] [] true] (Some (mkFrom name [] [] None))
            [] cond [] None [] None None [] false) name e =
          (Ok (query_result (map Name (columns T)) (map (fun p => mkRow p.1 p.2) (kept true l))), e)).
  { unfold select_table_rows. rewrite (bind_ok _ _ _ _ _ Hi), (bind_ok _ _ _ _ _ (rows_read e T Hh Hb)).
    unfold select_rows. cbn [Where GroupBy SColumns OrderBy Limit Offset Distinct]. unfold choices in Hl. rewrite <- Hc in Hl |- *.
    rewrite (bind_ok _ _ e (map (fun p => mkRow p.1 p.2) (kept true l)) e).
    - done.
    - by rewrite (bind_ok _ _ _ _ _ (filter_where_chosen _ cond (contents T) e l Hl)). }
  rewrite (bind_ok _ _ _ _ _ Hrows). cbn [Union map_m]. unfold mbind, SO_bind, mret, SO_ret. cbn. by rewrite app_nil_r.
Qed.

(** ** INSERT *)

Lemma process_row_checked cols : forall i row row' s, Storage.enabled s = false -> check_row i cols row = Some row' ->
  process_row i cols row s = (Ok row', s).
Proof.
  induction cols as [|col cols IH]; intros i row row' s He; cbn [check_row process_row]; [by intros [= <-]|].
  destruct (row !! i) as [v|]; [|by apply IH].
  unfold check_value, process_insert. destruct (accepted_by (fit_value col v)) as [[w b]|] eqn:Hf; [|done].
  apply accepted_ok in Hf. cbn. destruct (negb (Nullable col) && IsNull w && negb (AutoInc col) && negb (CType col =? TypeSeq)) eqn:Hn; [done|].
  cbn. intros Hc. rewrite (bind_ok _ _ s w s); [by apply IH|].
  rewrite Hf, bind_lift_ok. rewrite Hn, bind_gets, He. done.
Qed.

Lemma fill_auto_numbered cols : forall i row last s row' last' seqs,
  number_row name i cols row last (sequences s) = Some (row', last', seqs) ->
  fill_auto name i cols row last s = (Ok (row', last'), set_sequences seqs s).
Proof.
  induction cols as [|col cols IH]; intros i row last s row' last' seqs; cbn [number_row fill_auto].
  - intros [= <- <- <-]. by destruct s.
  - destruct (is_auto col); [|apply IH]. rewrite bind_gets, bind_modify. destruct (row !! i); [|done].
    intros Hn. by rewrite (IH _ _ _ (set_sequences _ s) _ _ _ Hn).
Qed.

Lemma no_table_file s : tableFiles s = ∅ -> disk s = ∅ -> table_file name s = (Ok None, s).
Proof. intros Htf Hd. unfold table_file. by rewrite bind_gets, Htf, Hd, !lookup_empty. Qed.

(** The storage after a row is appended. *)
Definition appended (row : list Value) (seqs : gmap bytes Z) (s : Storage) : Storage :=
  (bump_rows name 1 (append_row name row (snextID s) (set_snextID (u64 (snextID s + 1)) (set_sequences seqs s))).2).2.

Lemma InsertRow_run e T row row1 row2 last seqs : holds e T ->
  check_row 0 (columns T) row = Some row1 -> number_row name 0 (columns T) row1 0 (sequences_of T) = Some (row2, last, seqs) ->
  InsertRow name row (storage e) = (Ok (counter T, last), appended row2 seqs (storage e)).
Proof.
  intros Hh Hc Hn. destruct (h_table _ _ Hh) as (t & Ht & Hcols). destruct (h_memory _ _ Hh) as (He & Htf & Hd).
  destruct (h_counter _ _ Hh) as [_ Hid]. rewrite <- (h_sequences _ _ Hh) in Hn.
  unfold InsertRow. rewrite (bind_ok _ _ _ _ _ (get_table_ok _ _ _ Ht)), Hcols.
  rewrite (bind_ok _ _ _ _ _ (process_row_checked _ _ _ _ _ He Hc)).
  rewrite (bind_ok _ _ _ _ _ (fill_auto_numbered _ _ _ _ _ _ _ _ Hn)).
  rewrite (bind_ok _ _ _ (counter T) (set_snextID (u64 (counter T + 1)) (set_sequences seqs (storage e)))).
  2:{ unfold next_id. rewrite bind_gets, bind_modify. cbn [snextID set_sequences]. by rewrite Hid. }
  rewrite (bind_ok _ _ _ None _ (no_table_file (set_snextID _ (set_sequences _ _)) Htf Hd)).
  rewrite bind_gets. cbn [Storage.enabled set_snextID set_sequences]. rewrite He. unfold appended. rewrite <- Hid. done.
Qed.

Lemma fill_ordered_new e values : forall i row row', ordered_values i values row = Some row' ->
  fill_ordered fuel i values row e = (Ok row', e).
Proof.
  induction values as [|x values IH]; intros i row row'; cbn [ordered_values fill_ordered]; [by intros [= <-]|].
  destruct (i <? length row)%nat; [|by intros [= <-]].
  destruct (settled (value_at [] ∅ x)) as [v|] eqn:Hv; [|done]. apply settled_ok in Hv. cbn. intros Hr.
  unfold eval_const. rewrite (bind_ok _ _ _ _ _ (evalExpr_value fuel [] ∅ false 0 e x v Hv)). by apply IH.
Qed.
Lemma fill_named_new e ix names : forall values row row', named_values ix names values row = Some row' ->
  fill_named fuel names values ix row e = (Ok row', e).
Proof.
  induction names as [|n names IH]; intros [|x values] row row'; cbn [named_values fill_named]; try by intros [= <-].
  destruct (settled (value_at [] ∅ x)) as [v|] eqn:Hv; [|done]. apply settled_ok in Hv. cbn [mbind option_bind]. intros Hr.
  unfold eval_const. rewrite (bind_ok _ _ _ _ _ (evalExpr_value fuel [] ∅ false 0 e x v Hv)).
  revert Hr. destruct (index_of_column n ix <? length row)%nat; [|done]. by apply IH.
Qed.
Lemma buildRow_new e cols names values row : new_row cols names values = Some row ->
  buildRow fuel cols names values e = (Ok row, e).
Proof. destruct names; [apply fill_ordered_new|apply fill_named_new]. Qed.

(** The indexes do not matter to the table. *)
Lemma holds_storage e e' T : storage e' = storage e -> holds e T -> holds e' T.
Proof. intros Hs []. split; by rewrite Hs. Qed.

Lemma appended_holds e T row seqs : holds e T -> counter T < 2 ^ 64 - 1 ->
  holds (set_storage (appended row seqs (storage e)) e)
    (mkTab (columns T) (contents T ++ [(counter T, row)]) (counter T + 1) seqs).
Proof.
  intros Hh Hn. destruct (h_table _ _ Hh) as (t & Ht & Hc). destruct (h_counter _ _ Hh) as [Hpos Hid].
  split; cbn [columns contents counter sequences_of].
  - exact (h_memory _ _ Hh).
  - cbn. rewrite lookup_alter_eq, Ht. cbn. by eexists.
  - cbn. rewrite lookup_insert_eq, (h_rows _ _ Hh), fmap_app. done.
  - cbn. rewrite lookup_insert_eq, (h_ids _ _ Hh), fmap_app. cbn. by rewrite Hid.
  - split; [lia|]. cbn. rewrite Hid. apply u64_small. unfold in_u64. lia.
  - done.
Qed.

Lemma insert_run e T names values r T' : holds e T -> spec name (Add names values) T = Some (r, T') ->
  exists e', ExecuteStatement fuel (statement_of name (Add names values)) e = (Ok r, e') /\ holds e' T'.
Proof.
  intros Hh. cbn [spec]. destruct (new_row (columns T) names values) as [row|] eqn:Hrow; [|done]. cbn.
  destruct (check_row 0 (columns T) row) as [row1|] eqn:Hcheck; [|done]. cbn.
  destruct (number_row name 0 (columns T) row1 0 (sequences_of T)) as [[[row2 last] seqs]|] eqn:Hnum; [|done]. cbn.
  destruct (Z.ltb_spec (counter T) (2 ^ 64 - 1)) as [Hn|]; [|done]. intros [= <- <-].
  destruct (table_info_run e T Hh) as (t & _ & Hc & Hi). unfold executeInsert.
  rewrite (bind_ok _ _ _ _ _ Hi), Hc. cbn [insert_all].
  rewrite (bind_ok _ _ _ _ _ (buildRow_new e _ _ _ _ Hrow)). unfold insert_row.
  pose proof (in_storage_ok _ e _ _ (InsertRow_run e T _ _ _ _ _ Hh Hcheck Hnum)) as Hins.
  erewrite (bind_ok _ _ e last).
  2:{ rewrite bind_gets, (bind_ok _ _ _ _ _ Hins). unfold index_rows. rewrite bind_modify. reflexivity. }
  eexists. split; [reflexivity|]. eapply holds_storage; [|by apply (appended_holds e T row2 seqs)]. done.
Qed.

(** ** UPDATE and DELETE *)

Abbreviation callback A := (list Value -> outcome StorageError A).

(** The loops call the callbacks on the rows they are given. *)
Lemma update_loop_ext t calls (f f' : callback (list (nat * Value))) (c c' : callback bool) rows :
  Forall (fun row => c row = c' row /\ (c row = Ok true -> f row = f' row)) rows -> forall i s,
  update_loop name t true calls f c i rows s = update_loop name t true calls f' c' i rows s.
Proof.
  induction 1 as [|row rows [Hc Hf] Hrows IH]; intros i s; [done|]. cbn [update_loop]. rewrite <- Hc.
  destruct (c row) as [[|]| | |]; [|rewrite !bind_lift_ok; apply IH|done..].
  rewrite !bind_lift_ok, <- (Hf eq_refl). unfold mbind, SO_bind. destruct (lift (f row) s) as [[u| | |] s1]; [|done..].
  destruct (apply_updates name (Columns t) true i (length row) u s1) as [[[]| | |] s2]; [|done..]. cbn [gets].
  destruct (default [] (rowIDs s2 !! name) !! i), (calls || Storage.enabled s2); try done;
    match goal with |- context [when ?b ?m] => destruct (when b m s2) as [[[]| | |] s3] end; try done; by rewrite IH.
Qed.
Lemma delete_loop_ext t calls (c c' : callback bool) rows : Forall (fun row => c row = c' row) rows -> forall ids s,
  delete_loop t calls c rows ids s = delete_loop t calls c' rows ids s.
Proof.
  induction 1 as [|row rows Hc Hrows IH]; intros ids s; [done|]. cbn [delete_loop]. rewrite !bind_gets, <- Hc.
  destruct (c row) as [gone| | |]; [|done..]. rewrite !bind_lift_ok.
  unfold mbind, SO_bind. destruct ids, (negb gone || calls || Storage.enabled s); try done;
    match goal with |- context [when ?b ?m] => destruct (when b m s) as [[[]| | |] s3] end; try done; by rewrite IH.
Qed.

(** The choice of a row, as the storage makes it. *)
Definition choose ix cond (row : list Value) : bool := default false (chosen ix cond row).

Lemma choices_chosen ix cond : forall rows l, mapM (fun p : Z * list Value => b ← chosen ix cond p.2; Some (b, p)) rows = Some l ->
  l = map (fun p => (choose ix cond p.2, p)) rows /\ Forall (fun p => chosen ix cond p.2 = Some (choose ix cond p.2)) rows.
Proof.
  induction rows as [|p rows IH]; intros l Hl; [injection Hl as <-; by split|].
  apply mapM_cons in Hl as (y & ys & Hy & Hys & ->). destruct (chosen ix cond p.2) as [b|] eqn:Hb; [|done]. injection Hy as <-.
  destruct (IH ys Hys) as [-> Hall]. assert (choose ix cond p.2 = b) as Hc by (unfold choose; by rewrite Hb).
  split; [by cbn [map]; rewrite Hc|]. constructor; [by rewrite Hc|done].
Qed.

Lemma kept_choices ix cond b rows : kept b (map (fun p => (choose ix cond p.2, p)) rows) =
  List.filter (fun p : Z * list Value => Bool.eqb (choose ix cond p.2) b) rows.
Proof. unfold kept. induction rows as [|p rows IH]; [done|]. cbn. destruct (Bool.eqb _ b); cbn; by rewrite IH. Qed.

Lemma zip_pairs {A B} (l : list (A * B)) : zip l.*1 l.*2 = l.
Proof. induction l as [|[a b] l IH]; [done|]. cbn. by rewrite IH. Qed.

Lemma selected_contents c (l : list (Z * list Value)) : selected c l.*1 l.*2 = List.filter (fun p => c p.2) l.
Proof. unfold selected. by rewrite zip_pairs. Qed.

Lemma filter_ext_bool {A} (f g : A -> bool) l : (forall x, f x = g x) -> List.filter f l = List.filter g l.
Proof. intros Hfg. induction l as [|x l IH]; [done|]. cbn. by rewrite Hfg, IH. Qed.

Lemma kept_selected ix cond b (T : list (Z * list Value)) l :
  mapM (fun p => b ← chosen ix cond p.2; Some (b, p)) T = Some l ->
  kept b l = selected (fun row => Bool.eqb (choose ix cond row) b) T.*1 T.*2.
Proof.
  intros Hl. destruct (choices_chosen ix cond T l Hl) as [-> _]. by rewrite kept_choices, selected_contents.
Qed.

Lemma condition_rows ix cond e (T : list (Z * list Value)) l :
  mapM (fun p => b ← chosen ix cond p.2; Some (b, p)) T = Some l ->
  Forall (fun row => row_condition fuel cond ix e row = returning (choose ix cond) row) T.*2.
Proof.
  intros Hl. destruct (choices_chosen ix cond T l Hl) as [_ Hall]. apply Forall_map.
  eapply Forall_impl; [exact Hall|]. intros p Hp. exact (row_condition_chosen ix cond p.2 _ e Hp).
Qed.

(** *** DELETE *)

Definition remaining (keep : list (Z * list Value)) (s : Storage) : Storage :=
  set_rowIDs (<[name:=keep.*1]> (rowIDs s)) (set_rowData (<[name:=keep.*2]> (rowData s)) s).

Lemma eqb_neg b : Bool.eqb b false = negb b.
Proof. by destruct b. Qed.
Lemma eqb_pos b : Bool.eqb b true = b.
Proof. by destruct b. Qed.

Lemma DeleteRows_run e T cond l : holds e T -> choices T cond = Some l ->
  exists s', DeleteRowsWithCallback name (row_condition fuel cond (column_index (columns T)) e) (storage e) =
    (Ok (zlen (kept true l), kept true l), s') /\ holds (set_storage s' e) (with_contents T (kept false l)).
Proof.
  intros Hh Hl. destruct (h_table _ _ Hh) as (t & Ht & Hc). destruct (h_memory _ _ Hh) as (He & Htf & Hd).
  unfold choices in Hl. set (ix := column_index (columns T)) in *.
  assert (Hk : forall b, kept b l = selected (fun row => Bool.eqb (choose ix cond row) b) (contents T).*1 (contents T).*2)
    by (intros b; by apply kept_selected).
  assert (Htrue : kept true l = selected (choose ix cond) (contents T).*1 (contents T).*2).
  { rewrite Hk. apply filter_ext_bool. intros p. apply eqb_pos. }
  assert (Hfalse : kept false l = selected (fun row => negb (choose ix cond row)) (contents T).*1 (contents T).*2).
  { rewrite Hk. apply filter_ext_bool. intros p. apply eqb_neg. }
  unfold DeleteRowsWithCallback. rewrite (bind_ok _ _ _ _ _ (get_table_ok _ _ _ Ht)).
  unfold delete_memory. rewrite bind_gets, (h_rows _ _ Hh), (h_ids _ _ Hh). cbn [default from_option]. unfold id.
  erewrite bind_ok.
  2:{ rewrite (delete_loop_ext _ true _ (returning (choose ix cond)) _ (condition_rows ix cond e _ l Hl)).
      apply delete_loop_memory; [done|by rewrite !length_fmap]. }
  cbv beta iota zeta. rewrite <- Htrue, <- Hfalse. destruct (Z.ltb_spec 0 (zlen (kept true l))) as [Hpos|Hzero]; cbn [when].
  - unfold bump_rows, change_info. rewrite He. cbn [when]. eexists. split; [reflexivity|].
    split; cbn [columns contents counter sequences_of with_contents].
    + exact (h_memory _ _ Hh).
    + cbn. rewrite lookup_alter_eq, Ht. cbn. by eexists.
    + cbn. by rewrite lookup_insert_eq.
    + cbn. by rewrite lookup_insert_eq.
    + exact (h_counter _ _ Hh).
    + exact (h_sequences _ _ Hh).
  - exists (storage e). split; [reflexivity|]. rewrite set_storage_id.
    assert (Hsame : kept false l = contents T).
    { rewrite Hfalse, selected_contents. rewrite Htrue, selected_contents in Hzero. clear -Hzero.
      induction (contents T) as [|p rows IH]; [done|]. cbn in *. destruct (choose ix cond p.2); cbn in *.
      - unfold zlen in Hzero. cbn in Hzero. lia.
      - by rewrite IH. }
    rewrite Hsame. destruct Hh. by split.
Qed.

Lemma delete_run e T cond r T' : holds e T -> spec name (Remove cond) T = Some (r, T') ->
  exists e', ExecuteStatement fuel (statement_of name (Remove cond)) e = (Ok r, e') /\ holds e' T'.
Proof.
  intros Hh. cbn [spec]. destruct (choices T cond) as [l|] eqn:Hl; [|done]. cbn. intros [= <- <-].
  destruct (table_info_run e T Hh) as (t & _ & Hc & Hi). destruct (DeleteRows_run e T cond l Hh Hl) as (s' & Hd & Hh').
  unfold executeDelete. rewrite (bind_ok _ _ _ _ _ Hi), Hc, bind_gets, (bind_ok _ _ _ _ _ (in_storage_ok _ e _ _ Hd)).
  unfold index_rows. rewrite bind_modify. eexists. split; [reflexivity|]. eapply holds_storage; [|exact Hh']. done.
Qed.

(** *** UPDATE *)

Lemma row_updates_assigned ix updates row e u : assigned ix updates row = Some u ->
  row_updates fuel (update_exprs ix updates) ix e row = Ok u.
Proof.
  unfold assigned, row_updates, in_lock. intros Hu.
  enough (map_m (fun p => v ← evalExpr fuel true row ix 0 p.2; mret (p.1, v)) (update_exprs ix updates) e = (Ok u, e)) as E
    by (by rewrite E).
  revert u Hu. induction (update_exprs ix updates) as [|p l IH]; intros u Hu; [by injection Hu as <-|].
  apply mapM_cons in Hu as (y & ys & Hy & Hys & ->). destruct (settled _) as [v|] eqn:Hv; [|done]. apply settled_ok in Hv.
  injection Hy as <-. cbn [map_m]. erewrite (bind_ok _ _ e (p.1, v)).
  2:{ by rewrite (bind_ok _ _ _ _ _ (evalExpr_value fuel row ix true 0 e p.2 v Hv)). }
  by rewrite (bind_ok _ _ _ _ _ (IH ys Hys)).
Qed.

Definition assign_all ix updates (row : list Value) : list (nat * Value) := default [] (assigned ix updates row).

(** The rows of the specification are those the storage computes. *)
Lemma changes_updated T t updates cond : Columns (info t) = columns T -> forall rows l l',
  let ix := column_index (columns T) in
  let f := assign_all ix updates in
  let c := choose ix cond in
  mapM (fun p => b ← chosen ix cond p.2; Some (b, p)) rows = Some l ->
  mapM (fun p : bool * (Z * list Value) => if p.1 then r ← new_values T updates p.2.2; Some (p.2.1, r) else Some p.2) l = Some l' ->
  l' = map (fun p => (p.1, updated t true f c p.2)) rows /\
  Forall (fun row => c row = true -> assigned ix updates row = Some (f row)) rows.*2 /\
  Forall (update_succeeds t true f c) rows.*2.
Proof.
  intros Hc rows l l' ix f c Hl. destruct (choices_chosen ix cond rows l Hl) as [-> _]. clear Hl. revert l'.
  fold (choose ix cond). fold c. induction rows as [|[i row] rows IH]; intros l' Hl'; [injection Hl' as <-; by split_and!|].
  cbn [map] in Hl'. apply mapM_cons in Hl' as (y & ys & Hy & Hys & ->). destruct (IH ys Hys) as (-> & Hf & Hs). cbn [fst snd] in Hy.
  cbn [map]. rewrite !fmap_cons, !Forall_cons. cbn [snd fst].
  change (choose ix cond row) with (c row) in Hy.
  destruct (c row) eqn:Hrow.
  - unfold new_values in Hy. fold ix in Hy. destruct (assigned ix updates row) as [u|] eqn:Hu; [|done].
    cbn [mbind option_bind] in Hy. destruct (accepted_by _) as [r|] eqn:Hr; [|done]. apply accepted_ok in Hr. injection Hy as <-.
    assert (Hfu : f row = u) by (unfold f, assign_all; by rewrite Hu).
    split_and!; [|by rewrite Hfu|done|intros _; exists r; by rewrite Hfu, Hc|done].
    do 2 f_equal. unfold updated. by rewrite Hrow, Hfu, Hc, Hr.
  - injection Hy as <-. split_and!; try done; [|unfold update_succeeds; by rewrite Hrow]. do 2 f_equal. unfold updated. by rewrite Hrow.
Qed.

Lemma UpdateRows_run e T updates cond l l' : holds e T -> choices T cond = Some l ->
  mapM (fun p : bool * (Z * list Value) => if p.1 then r ← new_values T updates p.2.2; Some (p.2.1, r) else Some p.2) l = Some l' ->
  let ix := column_index (columns T) in
  exists calls s', UpdateRowsWithCallback name (row_updates fuel (update_exprs ix updates) ix e) (row_condition fuel cond ix e) (storage e) =
    (Ok (zlen (kept true l), calls), s') /\ holds (set_storage s' e) (with_contents T l').
Proof.
  intros Hh Hl Hl' ix. destruct (h_table _ _ Hh) as (t & Ht & Hc). destruct (h_memory _ _ Hh) as (He & Htf & Hd).
  unfold choices in Hl. fold ix in Hl. destruct (changes_updated T t updates cond Hc _ _ _ Hl Hl') as (Hrows & Hf & Hs).
  fold ix in Hrows, Hf, Hs. set (f := assign_all ix updates) in *. set (c := choose ix cond) in *.
  assert (Htrue : kept true l = selected c (contents T).*1 (contents T).*2).
  { rewrite (kept_selected ix cond true _ l Hl). apply filter_ext_bool. intros p. apply eqb_pos. }
  unfold UpdateRowsWithCallback. rewrite (bind_ok _ _ _ _ _ (get_table_ok _ _ _ Ht)).
  unfold update_memory. rewrite bind_gets, (h_rows _ _ Hh).
  erewrite bind_ok.
  2:{ rewrite (update_loop_ext _ true _ (returning f) _ (returning c)).
      - exact (update_loop_memory name t true true f c _ [] [] _ _ He (h_rows _ _ Hh) (h_ids _ _ Hh) eq_refl ltac:(by rewrite !length_fmap) Hs).
      - pose proof (condition_rows ix cond e _ l Hl) as Hcond. rewrite Forall_forall in *. intros row Hrow.
        split; [by apply Hcond|]. rewrite (Hcond row Hrow). intros [= Hchosen]. exact (row_updates_assigned _ _ _ e _ (Hf row Hrow Hchosen)). }
  rewrite He, andb_false_r. cbn [when]. rewrite (bind_ok (mret tt) _ _ tt _) by reflexivity.
  do 2 eexists. split.
  - unfold touched. rewrite <- Htrue. unfold mret, SO_ret, zlen. by rewrite length_map.
  - rewrite Hrows. split; cbn [columns contents counter sequences_of with_contents].
    + exact (h_memory _ _ Hh).
    + exists t. by split.
    + cbn. rewrite lookup_insert_eq. f_equal. rewrite <- !list_fmap_compose. done.
    + cbn. rewrite (h_ids _ _ Hh), <- list_fmap_compose. done.
    + exact (h_counter _ _ Hh).
    + exact (h_sequences _ _ Hh).
Qed.

Lemma update_run e T updates cond r T' : holds e T -> spec name (Change updates cond) T = Some (r, T') ->
  exists e', ExecuteStatement fuel (statement_of name (Change updates cond)) e = (Ok r, e') /\ holds e' T'.
Proof.
  intros Hh. cbn [spec]. destruct (choices T cond) as [l|] eqn:Hl; [|done]. cbn [mbind option_bind].
  destruct (mapM _ l) as [l'|] eqn:Hl'; [|done]. cbn [mbind option_bind]. intros [= <- <-].
  destruct (table_info_run e T Hh) as (t & _ & Hc & Hi). destruct (UpdateRows_run e T updates cond l l' Hh Hl Hl') as (calls & s' & Hu & Hh').
  cbn [statement_of ExecuteStatement]. unfold executeUpdate.
  rewrite (bind_ok _ _ _ _ _ Hi), Hc, bind_gets, (bind_ok _ _ _ _ _ (in_storage_ok _ e _ _ Hu)).
  unfold index_rows. rewrite bind_modify. eexists. split; [reflexivity|]. eapply holds_storage; [|exact Hh']. done.
Qed.

(** ** Any statement, any history *)

Lemma statement_run e T op r T' : holds e T -> spec name op T = Some (r, T') ->
  exists e', ExecuteStatement fuel (statement_of name op) e = (Ok r, e') /\ holds e' T'.
Proof.
  intros Hh Hs. destruct op as [cond|names values|updates cond|cond].
  - cbn [spec] in Hs. destruct (choices T cond) as [l|] eqn:Hl; [|done]. cbn [mbind option_bind] in Hs.
    destruct (forallb _ _) eqn:Hb; [|done]. injection Hs as <- <-. exists e. split; [|done]. by apply query_run.
  - exact (insert_run e T names values r T' Hh Hs).
  - exact (update_run e T updates cond r T' Hh Hs).
  - exact (delete_run e T cond r T' Hh Hs).
Qed.

(** The answers to statements, each on the engine the others left. *)
Fixpoint answers (ops : list Statement) (e : Engine) : list (outcome EngineError Result) * Engine :=
  match ops with
  | [] => ([], e)
  | op :: ops => let '(r, e) := ExecuteStatement fuel op e in let '(rs, e) := answers ops e in (r :: rs, e)
  end.

(** C1: the engine, on a storage in memory that holds a table, answers a
    sequence of statements on the table as the functions of an abstract table
    do, and holds the abstract table they leave: the rows chosen by the
    condition are those returned, changed or removed, every other row stays as
    it was and where it was, and a new row has the next identifier, its
    defaults, its checks and its sequences. The statements are SELECT * with
    or without WHERE, INSERT of one row of VALUES, UPDATE, and DELETE with or
    without a condition, in sequences on which the abstract functions are
    defined: the values depend on the row alone, a new or changed row is
    accepted, identifiers are left, and the rows that are queried refer to no
    large value. The name of the table is not empty and not one of
    information_schema. *)
Theorem engine_refines_table ops : forall e T rs T', holds e T -> spec_all name ops T = Some (rs, T') ->
  exists e', answers (map (statement_of name) ops) e = (map Ok rs, e') /\ holds e' T'.
Proof.
  induction ops as [|op ops IH]; intros e T rs T' Hh; cbn [spec_all].
  { intros [= <- <-]. by exists e. }
  destruct (spec name op T) as [[r T1]|] eqn:Hop; [|done]. cbn [mbind option_bind].
  destruct (spec_all name ops T1) as [[rs' T2]|] eqn:Hops; [|done]. cbn [mbind option_bind]. intros [= <- <-].
  destruct (statement_run e T op r T1 Hh Hop) as (e1 & Hr & Hh1). destruct (IH e1 T1 rs' T2 Hh1 Hops) as (e2 & Hrs & Hh2).
  exists e2. split; [|done]. cbn [map answers]. by rewrite Hr, Hrs.
Qed.
End Refinement.

(** ** People, added, changed, removed and queried *)

Definition people_engine : Engine :=
  (Execute 10 (str "CREATE TABLE people (id SEQ, name VARCHAR(20), age INT)") memory_engine).2.
Definition people_name : bytes := str "people".
Definition people_table : Table :=
  mkTab [mkColumn (str "id") TypeSeq 0 0 false None true true;
         mkColumn (str "name") TypeVarchar 20 0 true None false false;
         mkColumn (str "age") TypeInt 0 0 true None false false]
    [] (snextID (storage people_engine)) (sequences (storage people_engine)).

Definition column (c : string) : Expression := ExprColumn [] (str c).
Definition number (n : Z) : Expression := ExprLiteral (GInt KInt64 n).
Definition person (n : string) (age : Z) : TableOp :=
  Add [str "name"; str "age"] [ExprLiteral (GString (str n)); number age].
Definition people_ops : list TableOp :=
  [person "ann" 30; person "bob" 25; person "cyd" 41;
   Change {[str "age" := ExprBinaryOp (column "age") (str "+") (number 1)]} (Some (ExprBinaryOp (column "name") (str "=") (ExprLiteral (GString (str "bob")))));
   Remove (Some (ExprBinaryOp (column "age") (str ">") (number 35)));
   Query (Some (ExprBinaryOp (column "age") (str "<") (number 30)))].
Definition people_answers : list Result :=
  [affected_result 1 1; affected_result 1 2; affected_result 1 3; affected_result 1 0; affected_result 1 0;
   query_result [str "id"; str "name"; str "age"]
     [mkRow 4 [NewIntValue 2; NewValue (GString (str "bob")); NewIntValue 26]]].

Lemma people_held : holds people_name people_engine people_table.
Proof.
  split; [vm_compute; auto| |vm_compute; reflexivity|vm_compute; reflexivity| |reflexivity].
  - exists (default (mkSTable (mkTable 0 [] [] 0) []) (tables (storage people_engine) !! people_name)).
    split; vm_compute; reflexivity.
  - split; [vm_compute; discriminate|reflexivity].
Qed.
Lemma engine_refines_table_witness :
  exists T' e', answers 10 (map (statement_of people_name) people_ops) people_engine = (map Ok people_answers, e') /\
    holds people_name e' T' /\ (contents T').*1 = [3; 4].
Proof.
  assert (Hname : is_information_schema (mkFrom (S := Select) people_name [] [] None) = false) by (vm_compute; reflexivity).
  assert (Hfilled : people_name <> []) by discriminate.
  assert (Hs : exists T', spec_all people_name people_ops people_table = Some (people_answers, T') /\ (contents T').*1 = [3; 4]).
  { eexists. split; vm_compute; reflexivity. }
  destruct Hs as (T' & Hs & Hids).
  destruct (engine_refines_table 10 people_name Hname Hfilled people_ops people_engine people_table people_answers T' people_held Hs) as (e' & Ha & Hh).
  exists T', e'. split; [exact Ha|]. split; [exact Hh|exact Hids].
Defined.
