(* ===== verification/Placeholders.v ===== *)
(** * Placeholders and their arguments (executor/executor.go)

    A statement with placeholders and arguments is a text: each argument is
    written where its placeholder is. Arguments that are NULL, numbers,
    booleans, and texts without backslash and question mark, are each read
    back as one word, whatever the texts hold. *)

From S2P Require Import Prelude GoLib Types RowCodec Page PageCache TableFile Crypto Json Wal Storage Functions Script Auth Lexer Ast Parser ParserDml Eval Select Dml Engine Print ParserSpec ParserRoundTrip ParserQuery.
Local Open Scope Z_scope.

(** ** Replacing a character *)

Definition replaced_byte (c : byte) (new : bytes) (b : byte) : bytes := if decide (b = c) then new else [b].

Lemma replaced_here c new : replaced_byte c new c = new.
Proof. unfold replaced_byte. by rewrite decide_True. Qed.

Lemma index_one c s : index [c] s = index_byte c s.
Proof.
  induction s as [|b s IH]; [done|]. cbn [index index_byte]. rewrite IH. unfold Functions.has_prefix. cbn [length take].
  unfold bytes_eqb. rewrite take_0. destruct (decide (b = c)) as [-> | Hne]; [by rewrite bool_decide_eq_true_2|].
  by rewrite bool_decide_eq_false_2 by congruence.
Qed.

Lemma index_byte_app c pre s : c ∉ pre -> index_byte c (pre ++ c :: s) = Some (length pre).
Proof.
  induction pre as [|b pre IH]; intros Hc; cbn [app index_byte length]; [by rewrite decide_True|].
  apply not_elem_of_cons in Hc as [Hb Hc]. rewrite decide_False by done. by rewrite IH.
Qed.
Lemma index_byte_none c s : c ∉ s -> index_byte c s = None.
Proof.
  induction s as [|b s IH]; intros Hc; [done|]. apply not_elem_of_cons in Hc as [Hb Hc]. cbn [index_byte].
  rewrite decide_False by done. by rewrite IH.
Qed.

(** A text up to its first character [c], and after it. *)
Lemma split_at_first (c : byte) s : c ∉ s \/ exists pre t, s = pre ++ c :: t /\ c ∉ pre.
Proof.
  induction s as [|b s IH]; [left; apply not_elem_of_nil|]. destruct (decide (b = c)) as [-> | Hne].
  { right. exists [], s. split; [done|apply not_elem_of_nil]. }
  destruct IH as [Hs|(pre & t & -> & Hp)]; [left|right; exists (b :: pre), t; split; [done|]]; apply not_elem_of_cons; by split.
Qed.

Lemma replaced_none c new s : c ∉ s -> concat (map (replaced_byte c new) s) = s.
Proof.
  induction s as [|b s IH]; intros Hc; [done|]. apply not_elem_of_cons in Hc as [Hb Hc]. cbn [map concat].
  unfold replaced_byte at 1. rewrite decide_False by done. by rewrite IH.
Qed.

Lemma replace_bytes c new n : forall s, (length s < n)%nat -> replace_fuel n [c] new s = concat (map (replaced_byte c new) s).
Proof.
  induction n as [|n IH]; intros s Hn; [lia|]. cbn [replace_fuel]. rewrite index_one.
  destruct (split_at_first c s) as [Hs|(pre & t & -> & Hp)].
  - by rewrite index_byte_none, replaced_none.
  - rewrite index_byte_app by done. rewrite length_app in Hn. cbn [length] in Hn.
    rewrite map_app, concat_app, replaced_none by done. cbn [map concat length]. rewrite replaced_here.
    rewrite take_app_length, IH by (rewrite length_drop, length_app; cbn; lia).
    rewrite drop_app_ge by lia. by replace (length pre + 1 - length pre)%nat with 1%nat by lia.
Qed.

(** ** Texts in quotes *)

Lemma encode_rune_byte r b : valid_rune r = true -> b ∈ encode_rune r -> byte.unsigned b < 0x80 -> r = byte.unsigned b.
Proof.
  intros Hv Hb Hsmall. unfold encode_rune in Hb. rewrite Hv in Hb. unfold valid_rune, in_range in Hv. unfold encode_rune_raw in Hb.
  repeat case_match; repeat (apply elem_of_cons in Hb as [-> | Hb]; [rewrite unsigned_byte in * by divmod; divmod|]);
    by apply elem_of_nil in Hb.
Qed.

Definition quote_byte : byte := byte.of_Z 39.

Lemma replaced_quoted rs : Forall (fun r => valid_rune r = true) rs -> 92 ∉ rs ->
  concat (map (replaced_byte quote_byte (str "''")) (of_runes rs)) = quoted_text rs.
Proof.
  induction 1 as [|r rs Hr Hrs IH]; intros Hb; [done|]. apply not_elem_of_cons in Hb as [Hne Hb].
  change (of_runes (r :: rs)) with (encode_rune r ++ of_runes rs).
  change (quoted_text (r :: rs)) with (quoted_rune r ++ quoted_text rs).
  rewrite map_app, concat_app, IH by done. f_equal. unfold quoted_rune.
  destruct (Z.eqb_spec r 39) as [-> | Hq]; [done|]. replace (r =? 92) with false by lia.
  apply replaced_none. intros Hin. apply encode_rune_byte in Hin; [|done|done]. done.
Qed.

Definition backslash : byte := byte.of_Z 92.
Definition question : byte := byte.of_Z 63.

(** The texts that are safe in quotes. *)
Definition plain_text (s : bytes) : bool := text_ok s && bool_decide (backslash ∉ s) && bool_decide (question ∉ s).

Lemma rune_of_text r s : of_runes (runes s) = s -> 0 <= r < 0x80 -> byte.of_Z r ∉ s -> r ∉ runes s.
Proof.
  intros Hs Hr Hb Hin. apply Hb. rewrite <- Hs. apply list_elem_of_split in Hin as (l1 & l2 & ->).
  unfold of_runes. rewrite map_app, concat_app. cbn [map concat]. rewrite encode_ascii by done.
  rewrite !elem_of_app, list_elem_of_singleton. by right; left.
Qed.

Lemma quoted_argument s : plain_text s = true ->
  str "'" ++ replace_all s (str "'") (str "''") ++ str "'" = text (WString (runes s)) /\ word_ok (WString (runes s)).
Proof.
  unfold plain_text. intros [[Ht Hb%bool_decide_eq_true]%andb_true_iff _]%andb_true_iff.
  pose proof (text_runes s Ht) as Hv. pose proof (text_ok_runes s Ht) as Hs. split; [|exact Hv]. cbn [text]. do 2 f_equal.
  unfold replace_all. change (str "'") with [quote_byte]. cbn [length]. rewrite replace_bytes by lia. rewrite <- Hs at 1.
  apply replaced_quoted.
  - eapply Forall_impl; [exact Hv|]. by intros r [Hr _].
  - apply rune_of_text; [done|lia|done].
Qed.

(** ** Arguments as words *)

(** The word an argument is written as, for those that are safe. *)
Definition argument_word (d : GoData) : option word :=
  match d with
  | GNil => Some (WName (str "NULL"))
  | GString s => if plain_text s then Some (WString (runes s)) else None
  | GInt (KInt | KInt32 | KInt64) n => if (0 <=? n) && (n <? 2 ^ 63) then Some (number_of n) else None
  | GBool b => Some (number_of (if b then 1 else 0))
  | _ => None
  end.

Section Arguments.
Context `{GoRuntime}.

Lemma question_quoted rs : question ∉ of_runes rs -> Forall (fun r => valid_rune r = true) rs -> question ∉ quoted_text rs.
Proof.
  intros Hq Hv. induction Hv as [|r rs Hr Hv IH]; [apply not_elem_of_nil|].
  change (of_runes (r :: rs)) with (encode_rune r ++ of_runes rs) in Hq. apply not_elem_of_app in Hq as [Hq Hqs].
  change (quoted_text (r :: rs)) with (quoted_rune r ++ quoted_text rs). apply not_elem_of_app. split; [|by apply IH].
  unfold quoted_rune. repeat case_match; [..|done]; intros Hin; repeat (apply elem_of_cons in Hin as [[=]|Hin]); by apply elem_of_nil in Hin.
Qed.

Lemma question_digits n : 0 <= n < 2 ^ 63 -> question ∉ text (number_of n).
Proof.
  intros Hn Hin. cbn [text number_of fraction_text exponent_text] in Hin. rewrite !app_nil_r in Hin.
  destruct (digits_plain n) as (Hd & _); [lia|]. unfold digit_text in Hd. rewrite Forall_forall in Hd. by apply Hd in Hin.
Qed.

Lemma argument_text d w : argument_word d = Some w -> placeholder_text d = text w /\ word_ok w /\ question ∉ text w.
Proof.
  destruct d as [|k n|f|f|s|bs|b|t|ty tx]; cbn [argument_word]; try done.
  - intros [= <-]. split_and!; [done| |by apply (bool_decide_eq_true_1 (question ∉ text (WName (str "NULL"))))].
    split; [by repeat constructor|]. eexists _, _. split; [reflexivity|done].
  - destruct ((0 <=? n) && (n <? 2 ^ 63)) eqn:Hn; [|by destruct k]. intros E.
    assert (w = number_of n) as -> by (destruct k; congruence). apply andb_true_iff in Hn as [Hn1%Z.leb_le Hn2%Z.ltb_lt].
    split_and!; [|by apply number_ok|by apply question_digits].
    cbn [text number_of fraction_text exponent_text placeholder_text]. rewrite app_nil_r. by destruct k.
  - destruct (plain_text s) eqn:Hs; [|done]. intros [= <-]. destruct (quoted_argument s Hs) as [Ht Hw]. split_and!; [done|done|].
    unfold plain_text in Hs. apply andb_true_iff in Hs as [[Hs _]%andb_true_iff Hq%bool_decide_eq_true].
    cbn [text]. rewrite <- (text_ok_runes s Hs) in Hq. rewrite !not_elem_of_app.
    split_and!; [by apply (bool_decide_eq_true_1 (question ∉ str "'"))| |by apply (bool_decide_eq_true_1 (question ∉ str "'"))].
    apply question_quoted; [done|]. eapply Forall_impl; [exact (text_runes s Hs)|]. by intros r [Hr _].
  - intros [= <-]. destruct b; split_and!; try done; try (apply number_ok; lia); apply question_digits; lia.
Qed.

(** ** Statements with placeholders *)

(** Words and placeholders, with the white space after each. *)
Definition piece : Type := option word * bytes.
Definition hole : word := WMark TokParameter (str "?").
Definition template (ps : list piece) : list (word * bytes) := map (fun p => (default hole p.1, p.2)) ps.
Definition piece_ok (p : piece) : Prop :=
  gapped (default hole p.1, p.2) /\ match p.1 with Some w => question ∉ text w | None => True end.

(** Each placeholder with its argument; without one it stays. *)
Fixpoint fill (ps : list piece) (ws : list word) : list (word * bytes) :=
  match ps, ws with
  | [], _ => []
  | (Some w, g) :: ps, ws => (w, g) :: fill ps ws
  | (None, g) :: ps, w :: ws => (w, g) :: fill ps ws
  | (None, g) :: ps, [] => (hole, g) :: fill ps []
  end.

Lemma fill_none ps : fill ps [] = template ps.
Proof. induction ps as [|[[w|] g] ps IH]; [done|..]; cbn [fill template map]; by rewrite IH. Qed.

Lemma question_gap g : Forall (fun b => gap b = true) g -> question ∉ g.
Proof. rewrite Forall_forall. intros Hg Hin. by apply Hg in Hin. Qed.

Lemma write_cons w g ws : write ((w, g) :: ws) = text w ++ g ++ write ws.
Proof. unfold write. cbn [map concat]. by rewrite app_assoc. Qed.

Lemma replace_write ps : Forall piece_ok ps -> forall args ws pre, mapM argument_word args = Some ws -> question ∉ pre ->
  replacePlaceholders (pre ++ write (template ps)) args = pre ++ write (fill ps ws).
Proof.
  induction 1 as [|[o g] ps [(_ & _ & Hg) Hq] Hps IH]; intros args ws pre Hargs Hpre.
  { cbn [template map fill]. change (write []) with (@nil byte). rewrite app_nil_r.
    destruct args; [done|]. cbn [replacePlaceholders]. by rewrite index_byte_none. }
  cbn [fst snd] in *. pose proof (question_gap g Hg) as Hqg. destruct o as [w|]; cbn [template map default from_option fst snd].
  - change (map _ ps) with (template ps). cbn [fill]. unfold id. rewrite !write_cons, !app_assoc. apply IH; [done|].
    rewrite !not_elem_of_app. by split.
  - change (map _ ps) with (template ps). destruct args as [|d args].
    { injection Hargs as <-. cbn [replacePlaceholders fill]. by rewrite fill_none. }
    apply mapM_cons in Hargs as (w & ws' & Hw & Hws & ->). destruct (argument_text d w Hw) as (Ht & _ & Hqw).
    cbn [replacePlaceholders fill]. rewrite !write_cons.
    change (text hole) with [question]. cbn [app]. rewrite index_byte_app by done. rewrite take_app_length, Ht.
    replace (drop (S (length pre)) (pre ++ question :: g ++ write (template ps))) with (g ++ write (template ps)).
    2:{ rewrite drop_app_ge by lia. by replace (S (length pre) - length pre)%nat with 1%nat by lia. }
    rewrite !app_assoc. apply IH; [done|]. rewrite !not_elem_of_app. by repeat split.
Qed.

Lemma fill_gapped ps : Forall piece_ok ps -> forall ws, Forall word_ok ws -> Forall gapped (fill ps ws).
Proof.
  induction 1 as [|[o g] ps [Hg _] Hps IH]; intros ws Hws; [constructor|]. destruct o as [w|]; cbn [fill].
  - constructor; [done|by apply IH].
  - destruct Hws as [|w ws Hw Hws]; (constructor; [|by apply IH; try constructor]); [done|].
    destruct Hg as (_ & Hne & Hg). by split.
Qed.

Lemma arguments_ok args ws : mapM argument_word args = Some ws -> Forall word_ok ws.
Proof.
  revert ws. induction args as [|d args IH]; intros ws; [by intros [= <-]|].
  intros (w & ws' & Hw & Hws & ->)%mapM_cons. constructor; [by destruct (argument_text d w Hw) as (_ & Hok & _)|by apply IH].
Qed.

(** C12: arguments stay data. In a statement written as words that have no
    question mark, and placeholders, arguments that are NULL, booleans,
    integers of type int, int32 or int64 that are not negative, and texts of
    valid UTF-8 without NUL, backslash and question mark, quotes included,
    each become one word of the statement, in their order; the words the lexer
    reads are those of the statement with each placeholder replaced by the
    literal of its argument. *)
Theorem placeholders_are_words ps args ws : Forall piece_ok ps -> mapM argument_word args = Some ws ->
  Tokenize (replacePlaceholders (write (template ps)) args) = Some (tokens_of 0 (fill ps ws)).
Proof.
  intros Hps Hargs. pose proof (replace_write ps Hps args ws [] Hargs (not_elem_of_nil _)) as E. cbn [app] in E. rewrite E.
  apply Tokenize_write, fill_gapped; [done|]. by eapply arguments_ok.
Qed.
End Arguments.

(** [select name where a = ? and b = ?] with [it's] and [7] *)
Definition sample_pieces : list piece :=
  map (fun o => (o, str " "))
    [Some (WName (str "select")); Some (WName (str "name")); Some (WName (str "where")); Some (WName (str "a")); Some (WOp (str "="));
     None; Some (WName (str "and")); Some (WName (str "b")); Some (WOp (str "=")); None].
Lemma placeholders_are_words_witness :
  map TValue <$> Tokenize (@replacePlaceholders plain_runtime (write (template sample_pieces)) [GString (str "it's' or 1=1 --"); GInt KInt 7]) =
  Some (map str ["SELECT"; "name"; "WHERE"; "a"; "="; "it's' or 1=1 --"; "AND"; "b"; "="; "7"; ""]%string).
Proof.
  assert (Hok : Forall piece_ok sample_pieces).
  { repeat (apply Forall_cons; split; [split; [split; [|split; [discriminate|by repeat constructor]]|]|]); [..|apply Forall_nil; exact I].
    all: cbn [fst snd default from_option word_ok]; unfold Datatypes.id; first
      [ exact I
      | match goal with |- ?P => apply (bool_decide_eq_true_1 P) end; vm_compute; reflexivity
      | split; [by repeat constructor|eexists _, _; split; [reflexivity|done]] ]. }
  rewrite (placeholders_are_words sample_pieces _ [WString (runes (str "it's' or 1=1 --")); number_of 7] Hok).
  - vm_compute. reflexivity.
  - vm_compute. reflexivity.
Defined.
