(* ===== verification/Fts.v ===== *)
(** * Full-text search (fts/fts.go)

    Terms of a text at three levels, inverted indexes from terms to rows, and
    the manager that keeps an index per column. The segmentation of Chinese
    text is a library's; where it fails to load, a simple tokenizer splits at
    what is no letter or digit. *)

From Stdlib Require Import Sorted.
From S2P Require Import Prelude GoLib Types Functions Eval.
Local Open Scope Z_scope.

(** gse: the words of a text, or nothing where the dictionary fails to load. *)
Class Segmenter := { segment : option (bytes -> list bytes) }.

(** sort.Slice: the elements in an order in which none comes after one it is
    less than, where [less] orders them; elements of the same rank are in any
    order. *)
Class SliceSort := {
  sort_slice {A} (less : A -> A -> bool) (l : list A) : list A;
  sort_slice_perm {A} (less : A -> A -> bool) (l : list A) : sort_slice less l ≡ₚ l;
  sort_slice_sorted {A} (less : A -> A -> bool) (l : list A) :
    (forall x y, x ∈ l -> y ∈ l -> less x y = true -> less y x = false) ->
    (forall x y z, x ∈ l -> y ∈ l -> z ∈ l -> less x y = false -> less y z = false -> less x z = false) ->
    StronglySorted (fun x y => less y x = false) (sort_slice less l)
}.

Record FTSConfig := mkFTSConfig {
  Levels : list Z;
  MinTermLen : Z;
  MaxTermLen : Z;                        (* not used by the code *)
  WeightL1 : float64;
  WeightL2 : float64;
  WeightL3 : float64;
  StorePos : bool;
  CustomDict : gset bytes;
  Synonyms : gmap bytes (list bytes)
}.

(** The double nearest to [n] tenths. *)
Definition tenths (n : Z) : float64 := fdiv (float_of_Z n) (float_of_Z 10).

Definition DefaultFTSConfig : FTSConfig := mkFTSConfig [1] 1 50 (float_of_Z 1) (tenths 7) (tenths 3) false ∅ ∅.

Record TokenWithLevel := mkTokenWithLevel { Term : bytes; TLevel : Z; TPosition : Z; Weight : float64; SourceTerm : bytes }.

Record TermPosition := mkTermPosition { PRow : Z; PPosition : Z; PLevel : Z; PSource : bytes }.

Inductive Tokenizer := SimpleTokenizer | ChineseTokenizer.

Record InvertedIndex := mkInverted {
  tokenizer : Tokenizer;
  config : FTSConfig;
  index : gmap bytes (list Z);
  termWeights : gmap bytes float64;
  termPositions : gmap bytes (list TermPosition);
  documents : gmap Z (gset bytes);
  contents : gmap Z bytes;
  docCount : Z;
  termCount : Z
}.

Record SearchResult := mkSearchResult { SRow : Z; Score : float64 }.

Section FullTextSearch.
Context `{GoRuntime} `{MapOrder} `{Segmenter} `{SliceSort}.

(** ** Terms *)

Definition isLetterOrDigit (r : Z) : bool := in_range 97 122 r || in_range 65 90 r || in_range 48 57 r || (128 <=? r).

(** The runs of letters and digits; [current] is the run read so far. *)
Fixpoint runs (current : list Z) (rs : list Z) : list bytes :=
  match rs with
  | [] => match current with [] => [] | _ => [of_runes current] end
  | r :: rs => if isLetterOrDigit r then runs (current ++ [r]) rs
               else match current with [] => runs [] rs | _ => of_runes current :: runs [] rs end
  end.
Definition simple_tokens (text : bytes) : list bytes := runs [] (runes (to_lower text)).

Definition clean (tokens : list bytes) : list bytes :=
  List.filter (fun t => negb (bytes_eqb t [])) (map (fun t => trim_space (to_lower t)) tokens).

Definition Tokenize (t : Tokenizer) (text : bytes) : list bytes :=
  match t, segment with
  | ChineseTokenizer, Some cut => clean (cut text)
  | _, _ => simple_tokens text
  end.

Definition hasLevel (c : FTSConfig) (level : Z) : bool :=
  match Levels c with [] => level =? 1 | ls => existsb (fun l => l =? level) ls end.

(** Terms of two characters, the last of one or two. *)
Fixpoint split_runes (rs : list Z) : list (list Z) :=
  match rs with
  | [] | [_] => []
  | [a; b] => [[a; b]]
  | [a; b; c] => [[a; b]; [c]]
  | [a; b; c; d] => [[a; b]; [c; d]]
  | a :: b :: rest => [a; b] :: split_runes rest
  end.
Definition splitTerm (term : bytes) : list bytes := map of_runes (split_runes (runes term)).

Definition weight_or (w d : float64) : float64 := if float_is_zero w then d else w.

(** The terms of one token: itself and its synonyms, its parts, and its
    characters. *)
Definition word_terms (c : FTSConfig) (forIndex : bool) (pos : Z) (token : bytes) : list TokenWithLevel :=
  if hasLevel c 1 then
    let w := weight_or (WeightL1 c) (float_of_Z 1) in
    mkTokenWithLevel token 1 pos w token
      :: (if forIndex then map (fun syn => mkTokenWithLevel (to_lower syn) 1 pos (fmul w (tenths 9)) token) (default [] (Synonyms c !! token))
          else [])
  else [].
Definition part_terms (c : FTSConfig) (pos : Z) (token : bytes) : list TokenWithLevel :=
  if hasLevel c 2 && (2 <=? rune_count token) then
    map (fun sub => mkTokenWithLevel sub 2 pos (weight_or (WeightL2 c) (tenths 7)) token)
      (List.filter (fun sub => MinTermLen c <=? rune_count sub) (splitTerm token))
  else [].
Definition char_terms (c : FTSConfig) (pos : Z) (token : bytes) : list TokenWithLevel :=
  if hasLevel c 3 && (2 <=? rune_count token) then
    imap (fun i r => mkTokenWithLevel (encode_rune r) 3 (pos + Z.of_nat i) (weight_or (WeightL3 c) (tenths 3)) token) (runes token)
  else [].
Definition token_terms (c : FTSConfig) (forIndex : bool) (pos : nat) (token : bytes) : list TokenWithLevel :=
  let pos := Z.of_nat pos in word_terms c forIndex pos token ++ part_terms c pos token ++ char_terms c pos token.

(** The words of the dictionary that the text contains are tokens as well. *)
Definition add_custom (c : FTSConfig) (text : bytes) (tokens : list bytes) : list bytes :=
  fold_left (fun tokens term =>
      let term := to_lower term in
      if contains term (to_lower text) && negb (existsb (bytes_eqb term) tokens) then tokens ++ [term] else tokens)
    (key_order (elements (CustomDict c))) tokens.

Definition TokenizeWithLevelsForIndex (text : bytes) (c : FTSConfig) (forIndex : bool) : list TokenWithLevel :=
  match segment with
  | None => []
  | Some cut => concat (imap (token_terms c forIndex) (add_custom c text (clean (cut text))))
  end.

(** ** The index *)

Definition NewInvertedIndexWithConfig (t : Tokenizer) (c : FTSConfig) : InvertedIndex := mkInverted t c ∅ ∅ ∅ ∅ ∅ 0 0.
Definition NewInvertedIndex (t : Tokenizer) : InvertedIndex := NewInvertedIndexWithConfig t DefaultFTSConfig.

Definition SetConfig (c : FTSConfig) (x : InvertedIndex) : InvertedIndex :=
  mkInverted (tokenizer x) c (index x) (termWeights x) (termPositions x) (documents x) (contents x) (docCount x) (termCount x).

Definition containsRowID (rowID : Z) (postings : list Z) : bool := existsb (fun id => id =? rowID) postings.
Fixpoint removeRowID (rowID : Z) (postings : list Z) : list Z :=
  match postings with
  | [] => []
  | id :: rest => if id =? rowID then rest else id :: removeRowID rowID rest
  end.

Definition add_posting (rowID : Z) (term : bytes) (m : gmap bytes (list Z)) : gmap bytes (list Z) :=
  let postings := default [] (m !! term) in
  if containsRowID rowID postings then m else <[term := postings ++ [rowID]]> m.
Definition remove_posting (rowID : Z) (term : bytes) (m : gmap bytes (list Z)) : gmap bytes (list Z) :=
  match removeRowID rowID (default [] (m !! term)) with
  | [] => delete term m
  | postings => <[term := postings]> m
  end.
Definition remove_positions (rowID : Z) (term : bytes) (m : gmap bytes (list TermPosition)) : gmap bytes (list TermPosition) :=
  match m !! term with
  | None => m
  | Some ps => match List.filter (fun p => negb (PRow p =? rowID)) ps with
               | [] => delete term m
               | ps => <[term := ps]> m
               end
  end.

Definition set_terms (x : InvertedIndex) w p : InvertedIndex :=
  mkInverted (tokenizer x) (config x) (index x) w p (documents x) (contents x) (docCount x) (termCount x).

Definition removeDocument (rowID : Z) (x : InvertedIndex) : InvertedIndex :=
  match documents x !! rowID with
  | None => x
  | Some terms =>
    let i := foldr (remove_posting rowID) (index x) (elements terms) in
    mkInverted (tokenizer x) (config x) i (termWeights x) (foldr (remove_positions rowID) (termPositions x) (elements terms))
      (delete rowID (documents x)) (delete rowID (contents x)) (i64 (docCount x - 1)) (Z.of_nat (size i))
  end.

(** Is the index one of several levels? *)
Definition multi_level (x : InvertedIndex) : bool :=
  match tokenizer x with ChineseTokenizer => 1 <? zlen (Levels (config x)) | SimpleTokenizer => false end.

(** The terms of a document, with their levels and weights; with one level a
    term of the index always takes the weight of the first. *)
Definition index_tokens (content : bytes) (x : InvertedIndex) : list TokenWithLevel :=
  if multi_level x then TokenizeWithLevelsForIndex content (config x) true
  else imap (fun i t => mkTokenWithLevel t 1 (Z.of_nat i) (weight_or (WeightL1 (config x)) (float_of_Z 1)) t) (Tokenize (tokenizer x) content).

Definition raise_weight (t : TokenWithLevel) (w : gmap bytes float64) : gmap bytes float64 :=
  match w !! Term t with
  | Some old => if SFltb old (Weight t) then <[Term t := Weight t]> w else w
  | None => <[Term t := Weight t]> w
  end.
Definition note_weight (x : InvertedIndex) (t : TokenWithLevel) : gmap bytes float64 :=
  if multi_level x then raise_weight t (termWeights x) else <[Term t := Weight t]> (termWeights x).
Definition note_position (rowID : Z) (x : InvertedIndex) (t : TokenWithLevel) : gmap bytes (list TermPosition) :=
  if StorePos (config x) then
    <[Term t := default [] (termPositions x !! Term t) ++ [mkTermPosition rowID (TPosition t) (TLevel t) (SourceTerm t)]]> (termPositions x)
  else termPositions x.
Definition note_term (rowID : Z) (x : InvertedIndex) (t : TokenWithLevel) : InvertedIndex :=
  set_terms x (note_weight x t) (note_position rowID x t).

Definition term_set (tokens : list TokenWithLevel) : gset bytes := list_to_set (map Term tokens).

Definition IndexDocument (rowID : Z) (content : bytes) (x : InvertedIndex) : InvertedIndex :=
  let x := match documents x !! rowID with Some _ => removeDocument rowID x | None => x end in
  match index_tokens content x with
  | [] => x
  | tokens =>
    let x := fold_left (note_term rowID) tokens x in
    let i := foldr (add_posting rowID) (index x) (elements (term_set tokens)) in
    mkInverted (tokenizer x) (config x) i (termWeights x) (termPositions x) (<[rowID := term_set tokens]> (documents x))
      (<[rowID := content]> (contents x)) (i64 (docCount x + 1)) (Z.of_nat (size i))
  end.
Definition DeleteDocument : Z -> InvertedIndex -> InvertedIndex := removeDocument.
Definition UpdateDocument : Z -> bytes -> InvertedIndex -> InvertedIndex := IndexDocument.

(** ** Searching *)

Definition max_weights (tokens : list TokenWithLevel) : gmap bytes float64 := fold_left (fun w t => raise_weight t w) tokens ∅.

(** The terms of a query, and their weights where the index has levels. *)
Definition query_terms (query : bytes) (x : InvertedIndex) : list bytes * option (gmap bytes float64) :=
  if multi_level x then
    let tokens := TokenizeWithLevelsForIndex query (config x) false in (map Term tokens, Some (max_weights tokens))
  else (Tokenize (tokenizer x) query, None).

(** The rows that have all the terms; nothing once there are none. *)
Fixpoint candidates (rows_of : bytes -> option (gset Z)) (terms : list bytes) (acc : option (gset Z)) : option (gset Z) :=
  match terms with
  | [] => acc
  | t :: terms =>
    match rows_of t with
    | None => None
    | Some rows =>
      let c := match acc with None => rows | Some c => c ∩ rows end in
      if bool_decide (c = ∅) then None else candidates rows_of terms (Some c)
    end
  end.
Definition rows_with (x : InvertedIndex) (term : bytes) : option (gset Z) := list_to_set <$> index x !! term.
(** The rows that have the term at a level; where the index has no positions
    of the term, at any. *)
Definition rows_at_level (level : Z) (x : InvertedIndex) (term : bytes) : option (gset Z) :=
  match termPositions x !! term with
  | None => rows_with x term
  | Some ps => match List.filter (fun p => PLevel p =? level) ps with
               | [] => None
               | ps => Some (list_to_set (map PRow ps))
               end
  end.

Definition term_score (x : InvertedIndex) (weights : option (gmap bytes float64)) (terms : gset bytes) (term : bytes) : float64 :=
  let one := float_of_Z 1 in
  let termWeight := weight_or (default (float_of_Z 0) (termWeights x !! term)) one in
  let queryWeight := default one (w ← weights; w !! term) in
  let tf := if (0 <? Z.of_nat (size terms)) then fdiv one (float_of_Z (Z.of_nat (size terms))) else one in
  let df := float_of_Z (zlen (default [] (index x !! term))) in
  let totalDocs := if docCount x =? 0 then 1 else docCount x in
  let idf := if SFltb (float_of_Z 0) df then fdiv (float_of_Z totalDocs) df else one in
  fmul (fmul (fmul tf idf) termWeight) queryWeight.
Definition calculateScoreWithLevels (x : InvertedIndex) (rowID : Z) (terms : list bytes) (weights : option (gmap bytes float64)) : float64 :=
  match documents x !! rowID with
  | None => float_of_Z 0
  | Some set => fold_left (fun score t => if bool_decide (t ∈ set) then fadd score (term_score x weights set t) else score) terms (float_of_Z 0)
  end.

Definition higher (a b : SearchResult) : bool := SFltb (Score b) (Score a).
Definition ranked (x : InvertedIndex) (rows : gset Z) (terms : list bytes) (weights : option (gmap bytes float64)) : list SearchResult :=
  sort_slice higher (map (fun id => mkSearchResult id (calculateScoreWithLevels x id terms weights)) (elements rows)).

(** [results[offset:offset+limit]], as far as there are results. *)
Definition page (limit offset : Z) (results : list SearchResult) : outcome unit (list SearchResult) :=
  if zlen results <=? offset then Ok []
  else
    let stop := Z.min (i64 (offset + limit)) (zlen results) in
    if (offset <? 0) || (stop <? offset) then Panic else Ok (slice (Z.to_nat offset) (Z.to_nat stop) results).

Definition search_terms (rows_of : bytes -> option (gset Z)) (terms : list bytes) (weights : option (gmap bytes float64)) (limit offset : Z)
  (x : InvertedIndex) : outcome unit (list SearchResult) :=
  match candidates rows_of terms None with
  | None => Ok []
  | Some rows => page (if limit <=? 0 then 10 else limit) offset (ranked x rows terms weights)
  end.

Definition Search (query : bytes) (limit offset : Z) (x : InvertedIndex) : outcome unit (list SearchResult) :=
  let '(terms, weights) := query_terms query x in search_terms (rows_with x) terms weights limit offset x.

(** The terms of a query at a level. *)
Definition level_terms (query : bytes) (level : Z) (x : InvertedIndex) : list bytes :=
  match tokenizer x with
  | ChineseTokenizer => map Term (List.filter (fun t => TLevel t =? level) (TokenizeWithLevelsForIndex query (config x) false))
  | SimpleTokenizer => if level =? 1 then Tokenize SimpleTokenizer query else []
  end.
Definition stored_weights (terms : list bytes) (x : InvertedIndex) : gmap bytes float64 :=
  fold_left (fun w t => <[t := default (float_of_Z 0) (termWeights x !! t)]> w) terms ∅.
Definition SearchWithLevel (query : bytes) (level limit offset : Z) (x : InvertedIndex) : outcome unit (list SearchResult) :=
  if level =? 0 then Search query limit offset x
  else
    let terms := level_terms query level x in
    search_terms (rows_at_level level x) terms (Some (stored_weights terms x)) limit offset x.

Definition Stats (x : InvertedIndex) : Z * Z := (docCount x, termCount x).
Definition GetTermPositions (term : bytes) (rowID : Z) (x : InvertedIndex) : list TermPosition :=
  List.filter (fun p => PRow p =? rowID) (default [] (termPositions x !! term)).

(** ** Highlighting *)

(** The occurrences of a term, from a position on: searching for the empty
    term does not end, and after a term that is shorter in lower case the
    search may start beyond the text. *)
Fixpoint occurrences (fuel : nat) (lower term : bytes) (width start : nat) : outcome unit (list (nat * nat)) :=
  match fuel with
  | O => Hang
  | S n =>
    if (length lower <? start)%nat then Panic
    else match Functions.index term (drop start lower) with
         | None => Ok []
         | Some i => if (width =? 0)%nat then Hang
                     else rest ← occurrences n lower term width (start + i + width); Ok ((start + i, start + i + width)%nat :: rest)
         end
  end.
Definition term_ranges (content : bytes) (rowID : Z) (x : InvertedIndex) (term : bytes) : outcome unit (list (nat * nat)) :=
  let lower := to_lower content in
  foldr (fun _ acc => l ← occurrences (S (S (length lower))) lower (to_lower term) (length term) 0; r ← acc; Ok (l ++ r)) (Ok [])
    (GetTermPositions term rowID x).
Fixpoint all_ranges (content : bytes) (rowID : Z) (x : InvertedIndex) (terms : list bytes) : outcome unit (list (nat * nat)) :=
  match terms with
  | [] => Ok []
  | t :: terms => l ← term_ranges content rowID x t; r ← all_ranges content rowID x terms; Ok (l ++ r)
  end.

(** Ranges that touch are merged; the last one is at the head. *)
Definition merge_range (merged : list (nat * nat)) (r : nat * nat) : list (nat * nat) :=
  match merged with
  | [] => [r]
  | (s, e) :: rest => if (r.1 <=? e)%nat then (s, if (e <? r.2)%nat then r.2 else e) :: rest else r :: merged
  end.
Definition merged_ranges (l : list (nat * nat)) : list (nat * nat) :=
  rev (fold_left merge_range (sort_slice (fun a b => (a.1 <? b.1)%nat) l) []).

Definition text_slice (lo hi : nat) (s : bytes) : outcome unit bytes :=
  if ((lo <=? hi) && (hi <=? length s))%nat then Ok (slice lo hi s) else Panic.
Fixpoint marked (content prefix suffix : bytes) (last : nat) (ranges : list (nat * nat)) : outcome unit bytes :=
  match ranges with
  | [] => text_slice last (length content) content
  | (s, e) :: ranges =>
    before ← text_slice last s content; inside ← text_slice s e content;
    after ← marked content prefix suffix e ranges;
    Ok (before ++ prefix ++ inside ++ suffix ++ after)
  end.
Definition Highlight (rowID : Z) (query prefix suffix : bytes) (x : InvertedIndex) : outcome unit bytes :=
  match contents x !! rowID with
  | None => Ok []
  | Some content =>
    ranges ← all_ranges content rowID x (query_terms query x).1;
    match ranges with [] => Ok content | _ => marked content prefix suffix 0 (merged_ranges ranges) end
  end.

(** ** The file of an index *)

(** What the file holds, as JSON and compressed: the terms of each document
    as a list, in any order. *)
Record SavedIndex := mkSaved {
  s_index : gmap bytes (list Z);
  s_documents : gmap Z (list bytes);
  s_contents : gmap Z bytes;
  s_docCount : Z;
  s_termCount : Z;
  s_termWeights : gmap bytes float64;
  s_termPositions : gmap bytes (list TermPosition);
  s_config : FTSConfig
}.
Definition SaveToFile (x : InvertedIndex) : SavedIndex :=
  mkSaved (index x) (elements <$> documents x) (contents x) (docCount x) (termCount x) (termWeights x) (termPositions x) (config x).
Definition LoadFromFile (s : SavedIndex) (x : InvertedIndex) : InvertedIndex :=
  mkInverted (tokenizer x) (s_config s) (s_index s) (s_termWeights s) (s_termPositions s) (list_to_set <$> s_documents s)
    (s_contents s) (s_docCount s) (s_termCount s).

(** ** The manager *)

Record Manager := mkManager { indexes : gmap bytes InvertedIndex; configs : gmap bytes (option FTSConfig) }.
Definition NewManager : Manager := mkManager ∅ ∅.

Definition index_key (table column : bytes) : bytes := table ++ str "." ++ column.
Definition ListIndexes (m : Manager) : list bytes := key_order (map fst (map_to_list (indexes m))).
(** The key as it is, or another that is the same in lower case. *)
Definition find_key (table column : bytes) (m : Manager) : option bytes :=
  let key := index_key table column in
  match indexes m !! key with
  | Some _ => Some key
  | None => List.find (fun k => bytes_eqb (to_lower k) (to_lower key)) (ListIndexes m)
  end.
Definition GetIndex (table column : bytes) (m : Manager) : option InvertedIndex := k ← find_key table column m; indexes m !! k.
Definition HasIndex (table column : bytes) (m : Manager) : bool := bool_decide (is_Some (find_key table column m)).
Definition GetIndexConfig (table column : bytes) (m : Manager) : option FTSConfig := c ← configs m !! index_key table column; c.

Definition CreateIndexWithConfig (table column : bytes) (c : option FTSConfig) (m : Manager) : option Manager :=
  let key := index_key table column in
  match indexes m !! key with
  | Some _ => None
  | None => Some (mkManager (<[key := NewInvertedIndexWithConfig ChineseTokenizer (default DefaultFTSConfig c)]> (indexes m)) (<[key := c]> (configs m)))
  end.
Definition DropIndex (table column : bytes) (m : Manager) : option Manager :=
  let key := index_key table column in
  match indexes m !! key with
  | None => None
  | Some _ => Some (mkManager (delete key (indexes m)) (configs m))
  end.
Definition Close (m : Manager) : Manager := mkManager ∅ (configs m).
Definition set_index (key : bytes) (x : InvertedIndex) (m : Manager) : Manager := mkManager (<[key := x]> (indexes m)) (configs m).
Definition ManagerIndexDocument (table column : bytes) (rowID : Z) (content : bytes) (m : Manager) : Manager :=
  match (k ← find_key table column m; x ← indexes m !! k; Some (k, x)) with
  | Some (k, x) => set_index k (IndexDocument rowID content x) m
  | None => m
  end.
(** Only the key as it is. *)
Definition ManagerDeleteDocument (table column : bytes) (rowID : Z) (m : Manager) : Manager :=
  let key := index_key table column in
  match indexes m !! key with Some x => set_index key (DeleteDocument rowID x) m | None => m end.
Definition ManagerSearch (table column query : bytes) (limit offset : Z) (m : Manager) : option (outcome unit (list SearchResult)) :=
  Search query limit offset <$> GetIndex table column m.
Definition ManagerSearchWithLevel (table column query : bytes) (level limit offset : Z) (m : Manager) : option (outcome unit (list SearchResult)) :=
  SearchWithLevel query level limit offset <$> GetIndex table column m.
Definition ManagerHighlight (table column : bytes) (rowID : Z) (query prefix suffix : bytes) (m : Manager) : outcome unit bytes :=
  match GetIndex table column m with Some x => Highlight rowID query prefix suffix x | None => Ok [] end.
End FullTextSearch.
