(* ===== verification/FtsSpec.v ===== *)
(** * Properties of full-text indexes

    What an index holds after any documents were added, replaced and removed,
    and what a search on it finds. *)

From Stdlib Require Import Sorted.
From S2P Require Import Prelude GoLib Types Functions Eval Fts.
Local Open Scope Z_scope.

(** ** Folding over the keys of a map *)

(** A loop over distinct keys that changes the entry of each. *)
Lemma foldr_entries {A} (f : bytes -> gmap bytes A -> gmap bytes A) (F : option A -> option A) :
  (forall k m, f k m !! k = F (m !! k)) -> (forall k j m, j <> k -> f k m !! j = m !! j) ->
  forall (s : gset bytes) m t, foldr f m (elements s) !! t = if decide (t ∈ s) then F (m !! t) else m !! t.
Proof.
  intros Hk Hj s m t. assert (Hl : forall l, NoDup l -> foldr f m l !! t = if decide (t ∈ l) then F (m !! t) else m !! t).
  { induction l as [|k l IH]; intros Hd; [by rewrite decide_False by apply not_elem_of_nil|].
    apply NoDup_cons in Hd as [Hnin Hd]. cbn [foldr]. destruct (decide (t = k)) as [-> | Hne].
    - rewrite Hk, IH, decide_False, decide_True by (done || by left). done.
    - rewrite Hj, IH by done. destruct (decide (t ∈ l)) as [Ht|Ht].
      + by rewrite decide_True by by right.
      + by rewrite decide_False by (intros [?|?]%elem_of_cons; done). }
  rewrite Hl by apply NoDup_elements. destruct (decide (t ∈ s)) as [Ht|Ht].
  - by rewrite decide_True by by apply elem_of_elements.
  - by rewrite decide_False by by rewrite elem_of_elements.
Qed.

Lemma containsRowID_elem id l : containsRowID id l = true <-> id ∈ l.
Proof.
  unfold containsRowID. rewrite existsb_exists. split.
  - intros (x & Hx & ->%Z.eqb_eq). by apply list_elem_of_In.
  - intros Hx. exists id. split; [by apply list_elem_of_In|apply Z.eqb_refl].
Qed.

Lemma removeRowID_elem id l : NoDup l -> forall j, j ∈ removeRowID id l <-> j ∈ l /\ j <> id.
Proof.
  induction l as [|x l IH]; intros Hd j; [cbn; split; [by intros ?%elem_of_nil|by intros [?%elem_of_nil _]]|].
  apply NoDup_cons in Hd as [Hnin Hd]. cbn [removeRowID]. destruct (Z.eqb_spec x id) as [-> | Hne].
  - rewrite elem_of_cons. split; [intros Hj; split; [by right|by intros ->]|intros [[->|?] ?]; done].
  - rewrite !elem_of_cons, IH by done. split; [intros [->|[? ?]]; auto|intros [[->|?] ?]; auto].
Qed.
Lemma removeRowID_NoDup id l : NoDup l -> NoDup (removeRowID id l).
Proof.
  induction l as [|x l IH]; intros Hd; [done|]. apply NoDup_cons in Hd as [Hnin Hd]. cbn [removeRowID].
  destruct (x =? id); [done|]. apply NoDup_cons. split; [|by apply IH]. by rewrite removeRowID_elem by done; intros [? _].
Qed.

Definition posted (m : gmap bytes (list Z)) (term : bytes) : list Z := default [] (m !! term).
Definition posting_entry (id : Z) (o : option (list Z)) : option (list Z) :=
  if containsRowID id (default [] o) then o else Some (default [] o ++ [id]).
Definition unposting_entry (id : Z) (o : option (list Z)) : option (list Z) :=
  match removeRowID id (default [] o) with [] => None | l => Some l end.
Definition positions_entry (id : Z) (o : option (list TermPosition)) : option (list TermPosition) :=
  match o with
  | None => None
  | Some ps => match List.filter (fun p => negb (PRow p =? id)) ps with [] => None | ps => Some ps end
  end.

Lemma add_postings (id : Z) (s : gset bytes) (m : gmap bytes (list Z)) (t : bytes) :
  foldr (add_posting id) m (elements s) !! t = if decide (t ∈ s) then posting_entry id (m !! t) else m !! t.
Proof.
  apply (foldr_entries (add_posting id)); unfold add_posting, posting_entry.
  - intros k m'. destruct (containsRowID _ _); [done|]. by rewrite lookup_insert_eq.
  - intros k j m' Hne. destruct (containsRowID _ _); [done|]. by rewrite lookup_insert_ne by done.
Qed.
Lemma remove_postings (id : Z) (s : gset bytes) (m : gmap bytes (list Z)) (t : bytes) :
  foldr (remove_posting id) m (elements s) !! t = if decide (t ∈ s) then unposting_entry id (m !! t) else m !! t.
Proof.
  apply (foldr_entries (remove_posting id)); unfold remove_posting, unposting_entry.
  - intros k m'. destruct (removeRowID _ _); [by rewrite lookup_delete_eq|by rewrite lookup_insert_eq].
  - intros k j m' Hne. destruct (removeRowID _ _); [by rewrite lookup_delete_ne by done|by rewrite lookup_insert_ne by done].
Qed.
Lemma remove_all_positions (id : Z) (s : gset bytes) (m : gmap bytes (list TermPosition)) (t : bytes) :
  foldr (remove_positions id) m (elements s) !! t = if decide (t ∈ s) then positions_entry id (m !! t) else m !! t.
Proof.
  apply (foldr_entries (remove_positions id)); unfold remove_positions, positions_entry.
  - intros k m'. destruct (m' !! k) as [ps|] eqn:Hk; [|done]. destruct (List.filter _ _); [by rewrite lookup_delete_eq|by rewrite lookup_insert_eq].
  - intros k j m' Hne. destruct (m' !! k); [|done]. destruct (List.filter _ _); [by rewrite lookup_delete_ne by done|by rewrite lookup_insert_ne by done].
Qed.

Lemma posted_add (id : Z) (s : gset bytes) (m : gmap bytes (list Z)) (t : bytes) : posted (foldr (add_posting id) m (elements s)) t =
  if decide (t ∈ s /\ id ∉ posted m t) then posted m t ++ [id] else posted m t.
Proof.
  unfold posted. rewrite add_postings. destruct (decide (t ∈ s)) as [Ht|Ht]; [|by rewrite decide_False by tauto].
  unfold posting_entry. destruct (containsRowID id (default [] (m !! t))) eqn:Hc.
  - apply containsRowID_elem in Hc. by rewrite decide_False by tauto.
  - rewrite decide_True; [done|]. split; [done|]. rewrite <- containsRowID_elem, Hc. done.
Qed.
Lemma posted_remove (id : Z) (s : gset bytes) (m : gmap bytes (list Z)) (t : bytes) : posted (foldr (remove_posting id) m (elements s)) t =
  if decide (t ∈ s) then removeRowID id (posted m t) else posted m t.
Proof.
  unfold posted. rewrite remove_postings. destruct (decide (t ∈ s)); [|done]. unfold unposting_entry. by destruct (removeRowID _ _).
Qed.

(** ** The order of numbers *)

(** Numbers that are none are not ordered; the others are as these triples. *)
Definition rank (f : float64) : Z * Z * Z :=
  match f with
  | S754_zero _ | S754_nan => (0, 0, 0)
  | S754_infinity s => (if s then -2 else 2, 0, 0)
  | S754_finite false m e => (1, e, Z.pos m)
  | S754_finite true m e => (-1, - e, Z.neg m)
  end.
Definition before (a b : Z * Z * Z) : Prop :=
  a.1.1 < b.1.1 \/ a.1.1 = b.1.1 /\ (a.1.2 < b.1.2 \/ a.1.2 = b.1.2 /\ a.2 < b.2).
Definition is_number (f : float64) : bool := match f with S754_nan => false | _ => true end.

Lemma SFltb_rank x y : is_number x = true -> is_number y = true -> SFltb x y = true <-> before (rank x) (rank y).
Proof.
  destruct x as [s|s| |s m e], y as [t|t| |t n d]; intros Hx Hy; try done; unfold SFltb, before; cbn [SFcompare rank].
  all: try destruct s; try destruct t; cbn [fst snd]; try (split; [by auto with lia|lia || done]).
  - destruct (Z.compare_spec e d) as [->|?|?]; [rewrite Pos.compare_cont_spec|..]; cbn;
      try (split; [done|lia]); try (split; [lia|done]).
    destruct (Pos.compare_spec m n); cbn; split; (done || lia).
  - destruct (Z.compare_spec e d) as [->|?|?]; [rewrite Pos.compare_cont_spec|..]; cbn;
      try (split; [done|lia]); try (split; [lia|done]).
    destruct (Pos.compare_spec m n); cbn; split; (done || lia).
Qed.

(** ** A stable sort *)

Section Sort.
Context {A : Type} (less : A -> A -> bool).

Fixpoint insert_by (x : A) (l : list A) : list A :=
  match l with [] => [x] | y :: rest => if less x y then x :: l else y :: insert_by x rest end.
Definition stable_sort (l : list A) : list A := foldr insert_by [] l.

Lemma insert_by_perm x l : insert_by x l ≡ₚ x :: l.
Proof. induction l as [|y l IH]; [done|]. cbn. destruct (less x y); [done|]. rewrite IH. apply Permutation_swap. Qed.
Lemma stable_sort_perm l : stable_sort l ≡ₚ l.
Proof. induction l as [|x l IH]; [done|]. cbn. by rewrite insert_by_perm, IH. Qed.

Context (U : A -> Prop) (Hasym : forall x y, U x -> U y -> less x y = true -> less y x = false).
Context (Hneg : forall x y z, U x -> U y -> U z -> less x y = false -> less y z = false -> less x z = false).

Lemma insert_by_sorted x l : U x -> Forall U l ->
  StronglySorted (fun x y => less y x = false) l -> StronglySorted (fun x y => less y x = false) (insert_by x l).
Proof.
  intros Hx Hl Hs. induction Hs as [|y l Hs IH Hy]; [by repeat constructor|]. apply Forall_cons in Hl as [HUy Hl]. cbn.
  destruct (less x y) eqn:Hxy.
  - assert (Hyx : less y x = false) by by apply Hasym. constructor; [by constructor|]. constructor; [done|].
    rewrite Forall_forall in *. intros z Hz. apply (Hneg z y x); auto.
  - constructor; [by apply IH|]. rewrite insert_by_perm. by constructor.
Qed.
Lemma stable_sort_sorted l : Forall U l -> StronglySorted (fun x y => less y x = false) (stable_sort l).
Proof.
  induction 1 as [|x l Hx Hl IH]; [constructor|]. cbn. apply insert_by_sorted; [done| |done]. by rewrite stable_sort_perm.
Qed.
End Sort.

Lemma stable_sort_ordered {A} (less : A -> A -> bool) (l : list A) :
  (forall x y, x ∈ l -> y ∈ l -> less x y = true -> less y x = false) ->
  (forall x y z, x ∈ l -> y ∈ l -> z ∈ l -> less x y = false -> less y z = false -> less x z = false) ->
  StronglySorted (fun x y => less y x = false) (stable_sort less l).
Proof. intros Ha Hn. apply (stable_sort_sorted less (fun x => x ∈ l)); [done..|]. by apply Forall_forall. Qed.

Definition insertion_sorting : SliceSort :=
  Build_SliceSort (fun A less => stable_sort less) (fun A less => stable_sort_perm less) (fun A less => stable_sort_ordered less).
Definition words_segmenter : @Segmenter := {| segment := Some (@simple_tokens plain_runtime) |}.

(** ** The invariant of an index *)

Section Index.
Context `{GoRuntime} `{MapOrder} `{Segmenter} `{SliceSort}.

(** The row has a document with the term. *)
Definition has_term (x : InvertedIndex) (rowID : Z) (term : bytes) : Prop :=
  exists terms, documents x !! rowID = Some terms /\ term ∈ terms.

Record index_ok (x : InvertedIndex) : Prop := {
  ok_posted : forall term rowID, rowID ∈ posted (index x) term <-> has_term x rowID term;
  ok_nodup : forall term, NoDup (posted (index x) term);
  ok_filled : forall term, index x !! term <> Some [];
  ok_documents : forall rowID terms, documents x !! rowID = Some terms -> terms <> ∅;
  ok_contents : dom (contents x) = dom (documents x);
  ok_positions : forall term ps p, termPositions x !! term = Some ps -> p ∈ ps -> has_term x (PRow p) term;
  ok_docCount : docCount x = i64 (Z.of_nat (size (documents x)));
  ok_termCount : termCount x = Z.of_nat (size (index x))
}.

Lemma new_index_ok t c : index_ok (NewInvertedIndexWithConfig t c).
Proof.
  split; cbn; intros; try done.
  - split; [by intros ?%elem_of_nil|]. intros (ts & Hd & _). cbn in Hd. by rewrite lookup_empty in Hd.
  - unfold posted. rewrite lookup_empty. constructor.
Qed.

(** *** Removing a document *)

Lemma removeDocument_documents id x : documents (removeDocument id x) = delete id (documents x).
Proof.
  unfold removeDocument. destruct (documents x !! id) eqn:Hd; [done|]. by rewrite delete_id.
Qed.
Lemma removeDocument_same id x : tokenizer (removeDocument id x) = tokenizer x /\ config (removeDocument id x) = config x.
Proof. unfold removeDocument. by destruct (documents x !! id). Qed.

Lemma has_term_removed id x rowID term : has_term (removeDocument id x) rowID term <-> has_term x rowID term /\ rowID <> id.
Proof.
  unfold has_term. rewrite removeDocument_documents. split.
  - intros (ts & [Hne Hd]%lookup_delete_Some & Ht). split; [by exists ts|done].
  - intros [(ts & Hd & Ht) Hne]. exists ts. by rewrite lookup_delete_ne by done.
Qed.

Lemma i64_add n k : i64 (i64 n + k) = i64 (n + k).
Proof.
  unfold i64. replace ((n + 2 ^ 63) mod 2 ^ 64 - 2 ^ 63 + k + 2 ^ 63) with ((n + 2 ^ 63) mod 2 ^ 64 + k) by lia.
  rewrite Z.add_mod_idemp_l by done. do 2 f_equal. lia.
Qed.

Lemma removeDocument_ok id x : index_ok x -> index_ok (removeDocument id x).
Proof.
  intros Hx. destruct (documents x !! id) as [ts|] eqn:Hid; [|unfold removeDocument; by rewrite Hid].
  assert (Hposted : forall term rowID, rowID ∈ posted (index (removeDocument id x)) term <-> rowID ∈ posted (index x) term /\ rowID <> id).
  { intros term rowID. unfold removeDocument. rewrite Hid. cbn [index]. rewrite posted_remove.
    destruct (decide (term ∈ ts)) as [Ht|Ht]; [apply removeRowID_elem, (ok_nodup _ Hx)|].
    split; [|tauto]. intros Hr. split; [done|]. intros ->. apply (ok_posted _ Hx) in Hr as (ts' & Hd & Ht').
    rewrite Hid in Hd. by injection Hd as <-. }
  split.
  - intros term rowID. by rewrite Hposted, has_term_removed, (ok_posted _ Hx).
  - intros term. unfold removeDocument. rewrite Hid. cbn [index]. rewrite posted_remove.
    destruct (decide (term ∈ ts)); [apply removeRowID_NoDup|]; apply (ok_nodup _ Hx).
  - intros term. unfold removeDocument. rewrite Hid. cbn [index]. rewrite remove_postings.
    destruct (decide (term ∈ ts)); [|apply (ok_filled _ Hx)]. unfold unposting_entry. by destruct (removeRowID _ _).
  - intros rowID ts'. rewrite removeDocument_documents. intros [_ Hd]%lookup_delete_Some. by eapply (ok_documents _ Hx).
  - rewrite removeDocument_documents. unfold removeDocument. rewrite Hid. cbn [contents]. by rewrite !dom_delete_L, (ok_contents _ Hx).
  - intros term ps p Hps Hp. unfold removeDocument in Hps. rewrite Hid in Hps. cbn [termPositions] in Hps.
    rewrite remove_all_positions in Hps. apply has_term_removed. destruct (decide (term ∈ ts)) as [Ht|Ht].
    + unfold positions_entry in Hps. destruct (termPositions x !! term) as [qs|] eqn:Hqs; [|done].
      destruct (List.filter _ qs) as [|q qs'] eqn:Hf; [done|]. injection Hps as <-. rewrite <- Hf in Hp.
      apply list_elem_of_In, filter_In in Hp as [Hp Hne%negb_true_iff%Z.eqb_neq]. apply list_elem_of_In in Hp.
      split; [by eapply (ok_positions _ Hx)|done].
    + split; [by eapply (ok_positions _ Hx)|]. intros Hpid. destruct (ok_positions _ Hx _ _ _ Hps Hp) as (ts' & Hd & Ht').
      rewrite Hpid, Hid in Hd. by injection Hd as <-.
  - rewrite removeDocument_documents. unfold removeDocument. rewrite Hid. cbn [docCount]. rewrite (ok_docCount _ Hx).
    rewrite map_size_delete_Some by by eexists. change (i64 ?a - 1) with (i64 a + -1). rewrite i64_add. f_equal.
    assert (0 < size (documents x))%nat; [|lia]. apply Nat.neq_0_lt_0. intros Hz%map_size_empty_inv. by rewrite Hz, lookup_empty in Hid.
  - unfold removeDocument. by rewrite Hid.
Qed.

(** *** Adding a document *)

(** The terms noted change weights and positions alone. *)
Lemma note_terms_same id tokens : forall x, let x' := fold_left (note_term id) tokens x in
  tokenizer x' = tokenizer x /\ config x' = config x /\ index x' = index x /\ documents x' = documents x /\
  contents x' = contents x /\ docCount x' = docCount x.
Proof.
  induction tokens as [|t tokens IH]; intros x x'; [done|]. unfold x'. cbn [fold_left].
  destruct (IH (note_term id x t)) as (-> & -> & -> & -> & -> & ->). done.
Qed.

Lemma note_terms_positions id tokens : forall x term ps p,
  termPositions (fold_left (note_term id) tokens x) !! term = Some ps -> p ∈ ps ->
  (exists qs, termPositions x !! term = Some qs /\ p ∈ qs) \/ PRow p = id /\ term ∈ map Term tokens.
Proof.
  induction tokens as [|t tokens IH]; intros x term ps p Hps Hp; [left; by exists ps|]. cbn [fold_left] in Hps.
  destruct (IH _ _ _ _ Hps Hp) as [(qs & Hqs & Hq)|[Hid Ht]]; [|right; split; [done|by right]].
  unfold note_term in Hqs. cbn [termPositions set_terms] in Hqs. unfold note_position in Hqs.
  destruct (StorePos (config x)); [|left; by exists qs].
  destruct (decide (term = Term t)) as [-> | Hne]; [|rewrite lookup_insert_ne in Hqs by done; left; by exists qs].
  rewrite lookup_insert_eq in Hqs. injection Hqs as <-. apply elem_of_app in Hq as [Hq| ->%list_elem_of_singleton].
  - left. destruct (termPositions x !! Term t) as [qs|]; [by exists qs|by apply elem_of_nil in Hq].
  - right. split; [done|]. left.
Qed.

(** The index without the row, to which the document is added. *)
Definition cleared (id : Z) (x : InvertedIndex) : InvertedIndex :=
  match documents x !! id with Some _ => removeDocument id x | None => x end.

Lemma cleared_removed id x : cleared id x = removeDocument id x.
Proof. unfold cleared, removeDocument. by destruct (documents x !! id). Qed.

(** What is searched for in a document. *)
Definition content_terms (t : Tokenizer) (c : FTSConfig) (content : bytes) : gset bytes :=
  term_set (index_tokens content (NewInvertedIndexWithConfig t c)).

Lemma index_tokens_same content x y : tokenizer x = tokenizer y -> config x = config y -> index_tokens content x = index_tokens content y.
Proof. unfold index_tokens, multi_level. by intros -> ->. Qed.

Lemma IndexDocument_same id content x :
  tokenizer (IndexDocument id content x) = tokenizer x /\ config (IndexDocument id content x) = config x.
Proof.
  unfold IndexDocument. fold (cleared id x). rewrite cleared_removed. destruct (removeDocument_same id x) as [Ht Hc].
  destruct (index_tokens content _) as [|t tokens]; [done|]. cbn [tokenizer config].
  destruct (note_terms_same id (t :: tokens) (removeDocument id x)) as (-> & -> & _). done.
Qed.

Lemma IndexDocument_documents id content x : documents (IndexDocument id content x) =
  let terms := content_terms (tokenizer x) (config x) content in
  if bool_decide (terms = ∅) then delete id (documents x) else <[id := terms]> (documents x).
Proof.
  unfold IndexDocument. fold (cleared id x). rewrite cleared_removed. destruct (removeDocument_same id x) as [Ht Hc].
  unfold content_terms. rewrite (index_tokens_same content (NewInvertedIndexWithConfig _ _) (removeDocument id x)) by done. cbv zeta.
  destruct (index_tokens content _) as [|t tokens]; [by rewrite bool_decide_eq_true_2, removeDocument_documents|].
  rewrite bool_decide_eq_false_2.
  - cbn [documents]. destruct (note_terms_same id (t :: tokens) (removeDocument id x)) as (_ & _ & _ & -> & _).
    by rewrite removeDocument_documents, insert_delete_eq.
  - intros E. assert (Term t ∈ term_set (t :: tokens)) as Ht'; [|by rewrite E in Ht'; apply elem_of_empty in Ht'].
    unfold term_set. apply elem_of_list_to_set. left.
Qed.

Lemma IndexDocument_ok id content x : index_ok x -> index_ok (IndexDocument id content x).
Proof.
  intros Hx%(removeDocument_ok id). pose proof (removeDocument_documents id x) as Hdoc.
  unfold IndexDocument. fold (cleared id x). rewrite cleared_removed. set (y := removeDocument id x) in *.
  destruct (index_tokens content y) as [|t tokens]; [done|]. set (l := t :: tokens).
  destruct (note_terms_same id l y) as (_ & _ & Hi & Hd & Hc & Hn).
  assert (Hid : documents y !! id = None) by (by rewrite Hdoc, lookup_delete_eq).
  assert (Hnew : forall term, id ∉ posted (index y) term).
  { intros term Hin. apply (ok_posted _ Hx) in Hin as (ts & Hts & _). by rewrite Hid in Hts. }
  assert (Hhas : forall z rowID term, documents z = <[id := term_set l]> (documents y) ->
            has_term z rowID term <-> has_term y rowID term \/ rowID = id /\ term ∈ term_set l).
  { intros z rowID term Hz. unfold has_term. rewrite Hz. destruct (decide (rowID = id)) as [-> | Hne].
    - rewrite lookup_insert_eq, Hid. split; [intros (ts & [= <-] & ?); auto|intros [(? & ? & _)|[_ ?]]; [done|eauto]].
    - rewrite lookup_insert_ne by done. split; [by left|by intros [?|[? _]]]. }
  split; cbn [index documents contents termPositions docCount termCount]; rewrite ?Hi, ?Hd, ?Hc, ?Hn.
  - intros term rowID. rewrite Hhas by done. rewrite posted_add. destruct (decide _) as [[Ht _]|Hnt].
    + rewrite elem_of_app, list_elem_of_singleton, (ok_posted _ Hx). split; [intros [?| ->]; auto|intros [?|[-> _]]; auto].
    + rewrite (ok_posted _ Hx). split; [by left|]. intros [?|[-> Ht]]; [done|]. destruct Hnt. by split.
  - intros term. rewrite posted_add. destruct (decide _) as [[_ Hnin]|_]; [|apply (ok_nodup _ Hx)].
    apply NoDup_app. split; [apply (ok_nodup _ Hx)|]. split; [|apply NoDup_singleton].
    by intros j Hj ->%list_elem_of_singleton.
  - intros term. rewrite add_postings. destruct (decide (term ∈ _)); [|apply (ok_filled _ Hx)].
    unfold posting_entry. destruct (containsRowID _ _); [apply (ok_filled _ Hx)|]. by destruct (default [] _).
  - intros rowID terms. destruct (decide (rowID = id)) as [-> | Hne].
    + rewrite lookup_insert_eq. intros [= <-] E. assert (Term t ∈ term_set l) as Ht; [|by rewrite E in Ht; apply elem_of_empty in Ht].
      unfold term_set. apply elem_of_list_to_set. left.
    + rewrite lookup_insert_ne by done. apply (ok_documents _ Hx).
  - by rewrite !dom_insert_L, (ok_contents _ Hx).
  - intros term ps p Hps Hp. apply Hhas; [done|]. destruct (note_terms_positions _ _ _ _ _ _ Hps Hp) as [(qs & Hqs & Hq)|[-> Ht]].
    + left. by eapply (ok_positions _ Hx).
    + right. split; [done|]. by apply elem_of_list_to_set.
  - rewrite (ok_docCount _ Hx), i64_add, map_size_insert_None by done. f_equal. lia.
  - done.
Qed.

(** ** Histories *)

Inductive IndexOp := Added (rowID : Z) (content : bytes) | Removed (rowID : Z).
Definition run_index_op (x : InvertedIndex) (op : IndexOp) : InvertedIndex :=
  match op with Added id content => IndexDocument id content x | Removed id => DeleteDocument id x end.

(** The last text of each row. *)
Definition latest (texts : gmap Z bytes) (op : IndexOp) : gmap Z bytes :=
  match op with Added id content => <[id := content]> texts | Removed id => delete id texts end.

(** The documents of the index are the terms of the last texts that have any. *)
Definition holds_texts (t : Tokenizer) (c : FTSConfig) (x : InvertedIndex) (texts : gmap Z bytes) : Prop :=
  tokenizer x = t /\ config x = c /\ index_ok x /\
  forall id, documents x !! id = (content ← texts !! id; let terms := content_terms t c content in
                                  if bool_decide (terms = ∅) then None else Some terms).

Lemma holds_new t c : holds_texts t c (NewInvertedIndexWithConfig t c) ∅.
Proof. split_and!; try done. apply new_index_ok. Qed.

Lemma holds_step t c x texts op : holds_texts t c x texts -> holds_texts t c (run_index_op x op) (latest texts op).
Proof.
  intros (Ht & Hc & Hok & Hd). destruct op as [id content|id]; cbn [run_index_op latest].
  - destruct (IndexDocument_same id content x) as [Ht' Hc']. split_and!; [by rewrite Ht'|by rewrite Hc'|by apply IndexDocument_ok|].
    intros j. rewrite IndexDocument_documents, Ht, Hc. cbv zeta.
    destruct (decide (j = id)) as [-> | Hne].
    + rewrite lookup_insert_eq. cbn [mbind option_bind]. destruct (bool_decide _); [by rewrite lookup_delete_eq|by rewrite lookup_insert_eq].
    + rewrite (lookup_insert_ne texts) by done. rewrite <- Hd.
      destruct (bool_decide _); [by rewrite lookup_delete_ne|by rewrite lookup_insert_ne].
  - destruct (removeDocument_same id x) as [Ht' Hc']. split_and!; [by rewrite <- Ht|by rewrite <- Hc|by apply removeDocument_ok|].
    intros j. unfold DeleteDocument. rewrite removeDocument_documents. destruct (decide (j = id)) as [-> | Hne].
    + by rewrite !lookup_delete_eq.
    + by rewrite !lookup_delete_ne, <- Hd by done.
Qed.

Lemma holds_history t c ops : forall x texts, holds_texts t c x texts ->
  holds_texts t c (fold_left run_index_op ops x) (fold_left latest ops texts).
Proof. induction ops as [|op ops IH]; intros x texts Hh; [done|]. by apply IH, holds_step. Qed.

(** ** What a search finds *)

(** The rows of a candidate set. *)
Definition rows_in (c : option (gset Z)) : gset Z := default ∅ c.

Lemma candidates_acc rows_of terms : forall c id,
  id ∈ rows_in (candidates rows_of terms (Some c)) <->
  id ∈ c /\ forall t, t ∈ terms -> exists s, rows_of t = Some s /\ id ∈ s.
Proof.
  induction terms as [|t terms IH]; intros c id; cbn [candidates].
  - cbn. split; [intros Hc; split; [done|by intros t ?%elem_of_nil]|by intros [? _]].
  - destruct (rows_of t) as [s|] eqn:Ht.
    + destruct (bool_decide (c ∩ s = ∅)) eqn:Hb.
      * apply bool_decide_eq_true in Hb. cbn. split; [by intros ?%elem_of_empty|].
        intros [Hc Hall]. destruct (Hall t) as (s' & Hs & Hin); [left|]. rewrite Ht in Hs. injection Hs as <-.
        assert (id ∈ c ∩ s) as Hcs by (by apply elem_of_intersection). by rewrite Hb in Hcs.
      * rewrite IH, elem_of_intersection. split.
        -- intros [[Hc Hs] Hall]. split; [done|]. intros u [-> |Hu]%elem_of_cons; [by exists s|by apply Hall].
        -- intros [Hc Hall]. split; [split; [done|]|].
           ++ destruct (Hall t) as (s' & Hs & Hin); [left|]. rewrite Ht in Hs. by injection Hs as <-.
           ++ intros u Hu. apply Hall. by right.
    + cbn. split; [by intros ?%elem_of_empty|]. intros [_ Hall]. destruct (Hall t) as (s' & Hs & _); [left|]. by rewrite Ht in Hs.
Qed.

Lemma candidates_rows rows_of terms id :
  id ∈ rows_in (candidates rows_of terms None) <-> terms <> [] /\ forall t, t ∈ terms -> exists s, rows_of t = Some s /\ id ∈ s.
Proof.
  destruct terms as [|t terms]; cbn [candidates]; [cbn; split; [by intros ?%elem_of_empty|by intros [? _]]|].
  assert (Ht : rows_of t = None \/ exists s, rows_of t = Some s) by (destruct (rows_of t); eauto). destruct Ht as [Ht|[s Ht]]; rewrite Ht.
  - cbn. split; [by intros ?%elem_of_empty|]. intros [_ Hall]. destruct (Hall t) as (s' & Hs & _); [left|]. by rewrite Ht in Hs.
  - replace (if bool_decide (s = ∅) then None else candidates rows_of terms (Some s))
      with (candidates rows_of (t :: terms) (Some s)).
    2:{ cbn [candidates]. rewrite Ht. replace (s ∩ s) with s; [done|]. by apply leibniz_equiv, (symmetry (intersection_idemp s)). }
    rewrite candidates_acc. split; [by intros [_ Hall]|]. intros [_ Hall]. split; [|done].
    destruct (Hall t) as (s' & Hs & Hin); [left|]. rewrite Ht in Hs. by injection Hs as <-.
Qed.

Lemma ranked_rows x rows terms weights : NoDup (map SRow (ranked x rows terms weights)) /\
  forall id, id ∈ map SRow (ranked x rows terms weights) <-> id ∈ rows.
Proof.
  unfold ranked. set (l := map _ (elements rows)). assert (Hl : map SRow l = elements rows).
  { unfold l. rewrite map_map. apply map_id. }
  pose proof (Permutation_map SRow (sort_slice_perm higher l)) as Hp. rewrite Hl in Hp. split.
  - rewrite Hp. apply NoDup_elements.
  - intros id. rewrite Hp. apply elem_of_elements.
Qed.

Lemma ranked_sorted x rows terms weights :
  let l := ranked x rows terms weights in
  (forall r, r ∈ l -> is_number (Score r) = true) -> StronglySorted (fun a b => higher b a = false) l.
Proof.
  intros l Hn. unfold l, ranked in *. set (l0 := map _ (elements rows)) in *.
  assert (Hn0 : forall r, r ∈ l0 -> is_number (Score r) = true).
  { intros r Hr. apply Hn. by rewrite sort_slice_perm. }
  apply sort_slice_sorted; unfold higher.
  - intros a b _ _. apply SFltb_asym.
  - intros a b c Ha Hb Hc Hab Hbc.
    apply not_true_is_false. intros Hac%SFltb_rank; [|by apply Hn0..].
    assert (Hnab : ~ before (rank (Score b)) (rank (Score a))) by (rewrite <- SFltb_rank by (by apply Hn0); by rewrite Hab).
    assert (Hnbc : ~ before (rank (Score c)) (rank (Score b))) by (rewrite <- SFltb_rank by (by apply Hn0); by rewrite Hbc).
    unfold before in *. lia.
Qed.

Lemma page_first limit l : 0 < limit < 2 ^ 63 -> page limit 0 l = Ok (take (Z.to_nat limit) l).
Proof.
  intros Hl. unfold page. rewrite Z.add_0_l, i64_small by (unfold in_i64; lia).
  destruct (Z.leb_spec (zlen l) 0) as [Hz|Hz].
  - destruct l; [by rewrite take_nil|]. unfold zlen in Hz. cbn in Hz. lia.
  - replace ((0 <? 0) || (Z.min limit (zlen l) <? 0)) with false by lia. f_equal. unfold slice. rewrite drop_0, Nat.sub_0_r.
    unfold zlen in *. destruct (Z.min_spec limit (Z.of_nat (length l))) as [[? ->]|[? ->]]; [done|].
    rewrite Nat2Z.id, !take_ge by lia. done.
Qed.

Lemma ranked_empty x terms weights : ranked x ∅ terms weights = [].
Proof. unfold ranked. rewrite elements_empty. apply Permutation_nil. symmetry. apply sort_slice_perm. Qed.

Lemma search_terms_ranked rows_of terms weights limit x : 0 < limit < 2 ^ 63 ->
  search_terms rows_of terms weights limit 0 x = Ok (take (Z.to_nat limit) (ranked x (rows_in (candidates rows_of terms None)) terms weights)).
Proof.
  intros Hl. unfold search_terms. destruct (candidates rows_of terms None) as [rows|]; cbn [rows_in default].
  - replace (limit <=? 0) with false by lia. by apply page_first.
  - change (default ∅ None) with (∅ : gset Z). by rewrite ranked_empty, take_nil.
Qed.

(** The words of a query on an index of this tokenizer and settings. *)
Definition query_words (t : Tokenizer) (c : FTSConfig) (query : bytes) : list bytes := (query_terms query (NewInvertedIndexWithConfig t c)).1.

Lemma query_terms_same query x y : tokenizer x = tokenizer y -> config x = config y -> query_terms query x = query_terms query y.
Proof. unfold query_terms, multi_level. by intros -> ->. Qed.

Lemma rows_with_term x t id : index_ok x -> (exists s, rows_with x t = Some s /\ id ∈ s) <-> has_term x id t.
Proof.
  intros Hx. rewrite <- (ok_posted _ Hx). unfold rows_with, posted. destruct (index x !! t) as [l|]; cbn.
  - split; [intros (s & [= <-] & Hin); by apply elem_of_list_to_set in Hin|]. intros Hin. eexists. split; [done|]. by apply elem_of_list_to_set.
  - split; [by intros (s & ? & _)|by intros ?%elem_of_nil].
Qed.

(** The text has all the words of the query, which has one. *)
Definition answers_query (t : Tokenizer) (c : FTSConfig) (query content : bytes) : Prop :=
  query_words t c query <> [] /\ forall word, word ∈ query_words t c query -> word ∈ content_terms t c content.

Lemma holds_matching t c x texts query id : holds_texts t c x texts ->
  id ∈ rows_in (candidates (rows_with x) (query_terms query x).1 None) <->
  exists content, texts !! id = Some content /\ answers_query t c query content.
Proof.
  intros (Ht & Hc & Hok & Hd). rewrite candidates_rows.
  rewrite (query_terms_same query x (NewInvertedIndexWithConfig t c)) by done. fold (query_words t c query).
  split.
  - intros [Hne Hall]. assert (Hhas : forall w, w ∈ query_words t c query -> has_term x id w).
    { intros w Hw. apply rows_with_term; [done|]. by apply Hall. }
    destruct (query_words t c query) as [|w ws] eqn:Hq; [done|]. destruct (Hhas w) as (ts & Hts & Hw); [left|].
    rewrite Hd in Hts. destruct (texts !! id) as [content|] eqn:Htx; [|done]. exists content. split; [done|]. cbn in Hts.
    split; [by rewrite Hq|]. rewrite Hq. intros u Hu. destruct (Hhas u Hu) as (us & Hus & Hin). rewrite Hd, Htx in Hus.
    revert Hus. cbn. case_bool_decide; [done|]. by intros [= <-].
  - intros (content & Htx & Hne & Hall). split; [done|]. intros w Hw. apply rows_with_term; [done|].
    exists (content_terms t c content). split; [|by apply Hall]. rewrite Hd, Htx. cbn. rewrite bool_decide_eq_false_2; [done|].
    intros E. apply Hall in Hw. by rewrite E in Hw.
Qed.

(** C20: A full-text index, whatever documents were added to it, replaced
    and removed, answers a query with rows whose last text has all the words
    of the query, each once, best scores first, up to the limit; where there
    are no more than the limit, with all of them. *)
Theorem Search_finds t c ops query limit : 0 < limit < 2 ^ 63 ->
  let x := fold_left run_index_op ops (NewInvertedIndexWithConfig t c) in
  let texts := fold_left latest ops ∅ in
  exists all, Search query limit 0 x = Ok (take (Z.to_nat limit) all) /\ NoDup (map SRow all) /\
    (forall id, id ∈ map SRow all <-> exists content, texts !! id = Some content /\ answers_query t c query content) /\
    ((forall r, r ∈ all -> is_number (Score r) = true) -> StronglySorted (fun a b => higher b a = false) all).
Proof.
  intros Hl x texts. assert (Hx : holds_texts t c x texts) by apply holds_history, holds_new.
  unfold Search. destruct (query_terms query x) as [terms weights] eqn:Hq.
  exists (ranked x (rows_in (candidates (rows_with x) terms None)) terms weights).
  destruct (ranked_rows x (rows_in (candidates (rows_with x) terms None)) terms weights) as [Hnd Hin].
  split_and!; [by apply search_terms_ranked|done| |apply ranked_sorted].
  intros id. rewrite Hin, <- (holds_matching t c x texts query id Hx), Hq. done.
Qed.

(** The file of an index gives it back. *)
Lemma LoadFromFile_SaveToFile x y : tokenizer y = tokenizer x -> LoadFromFile (SaveToFile x) y = x.
Proof.
  intros Ht. unfold LoadFromFile, SaveToFile. cbn. rewrite Ht, <- map_fmap_compose.
  replace (list_to_set ∘ elements <$> documents x) with (documents x); [by destruct x|].
  symmetry. rewrite <- (map_fmap_id (documents x)) at 2. apply map_fmap_ext. intros id s _. cbn. apply list_to_set_elements_L.
Qed.
End Index.

(** Two texts, one of them replaced and one removed. *)
Definition sample_ops : list IndexOp :=
  [Added 1 (str "a quick fox"); Added 2 (str "a slow dog"); Added 3 (str "the quick dog"); Added 2 (str "a quick dog"); Removed 3].
Lemma Search_finds_witness :
  let _ := plain_runtime in let _ := words_segmenter in let _ := insertion_sorting in
  let keys := Build_MapOrder (fun l => l) (fun l => reflexivity l) in
  let x := fold_left run_index_op sample_ops (NewInvertedIndexWithConfig ChineseTokenizer DefaultFTSConfig) in
  exists l, Search (str "Dog quick") 10 0 x = Ok l /\ map SRow l = [2] /\ forall id, id ∈ map SRow l -> is_Some (fold_left latest sample_ops ∅ !! id).
Proof.
  intros gr sg so keys x.
  destruct (Search_finds ChineseTokenizer DefaultFTSConfig sample_ops (str "Dog quick") 10 ltac:(lia)) as (all & Hs & _ & Hin & _).
  exists (take 10 all). split; [exact Hs|]. assert (Hl : map SRow (take 10 all) = [2]).
  { assert (E : match Search (str "Dog quick") 10 0 x with Ok l => map SRow l | _ => [] end = [2]) by (vm_compute; reflexivity).
    unfold x in E. by rewrite Hs in E. }
  split; [exact Hl|]. rewrite Hl. intros id ->%list_elem_of_singleton. vm_compute. eauto.
Defined.
