(* ===== verification/FtsEngine.v ===== *)
(** * Full-text search in the engine (executor/executor.go, executor_dml.go)

    The manager of fts/fts.go as what the engine asks of full-text search, the
    options of an index, and the indexes of a database that is opened. *)

From Stdlib Require Import Sorted.
From S2P Require Import Prelude GoLib Types RowCodec Page PageCache TableFile Crypto Json Wal Storage Functions Script Auth Lexer Ast Parser ParserDml Eval Select Dml Engine Fts.
Local Open Scope Z_scope.

(** encoding/json on the options that are JSON texts. *)
Class OptionJSON := {
  words_json : bytes -> option (list bytes);
  synonyms_json : bytes -> option (gmap bytes (list bytes))
}.

Section Options.
Context `{GoRuntime} `{MapOrder} `{OptionJSON}.

Fixpoint split_byte (c : byte) (s : bytes) : list bytes :=
  match s with
  | [] => [[]]
  | b :: t => if decide (b = c) then [] :: split_byte c t
              else match split_byte c t with w :: ws => (b :: w) :: ws | [] => [[b]] end
  end.

Definition quotes : bytes := [byte.of_Z 39; byte.of_Z 34].
Definition unquoted (s : bytes) : bytes := trim_set s quotes.

Definition option_levels (s : bytes) : list Z :=
  omap (fun p => n ← parse_int (trim_space p); if (1 <=? n) && (n <=? 3) then Some n else None) (split_byte (byte.of_Z 44) (unquoted s)).
Definition option_weight (o : option bytes) (w : float64) : float64 :=
  match (s ← o; parse_float s) with Some f => if SFltb (float_of_Z 0) f then f else w | None => w end.
Definition option_dict (o : option bytes) : gset bytes :=
  match (s ← o; words_json (unquoted s)) with Some words => list_to_set (map to_lower words) | None => ∅ end.
Definition option_synonyms (o : option bytes) : gmap bytes (list bytes) :=
  match (s ← o; synonyms_json (unquoted s)) with
  | Some m => fold_left (fun r k => <[to_lower k := default [] (m !! k)]> r) (key_order (map fst (map_to_list m))) ∅
  | None => ∅
  end.

Definition parseFTSOptions (options : gmap bytes bytes) : FTSConfig :=
  let opt k := options !! str k in
  let d := DefaultFTSConfig in
  mkFTSConfig
    (match opt "LEVELS" with Some s => match option_levels s with [] => Levels d | ls => ls end | None => Levels d end)
    (match (s ← opt "MIN_TERM_LEN"; parse_int s) with Some n => if 1 <=? n then n else MinTermLen d | None => MinTermLen d end)
    (MaxTermLen d)
    (option_weight (opt "WEIGHT_L1") (WeightL1 d)) (option_weight (opt "WEIGHT_L2") (WeightL2 d)) (option_weight (opt "WEIGHT_L3") (WeightL3 d))
    (match opt "STORE_POSITION" with
     | Some s => let s := unquoted (to_lower s) in bytes_eqb s (str "true") || bytes_eqb s (str "1")
     | None => StorePos d
     end)
    (option_dict (opt "CUSTOM_DICT")) (option_synonyms (opt "SYNONYMS")).
End Options.

Section Instance.
Context `{GoRuntime} `{MapOrder} `{OptionJSON} `{Segmenter} `{SliceSort}.

(** At most a thousand rows match. *)
Definition match_limit : Z := 1000.
Definition matching_rows (table column query : bytes) (level : Z) (m : Fts.Manager) : option (list Z) :=
  match (if 0 <? level then ManagerSearchWithLevel table column query level match_limit 0 m
         else ManagerSearch table column query match_limit 0 m) with
  | Some (Ok l) => Some (map SRow (List.filter (fun r => SFltb (float_of_Z 0) (Score r)) l))
  | _ => None
  end.

Definition manager_full_text : FullText := {|
  FTS := Fts.Manager;
  no_indexes := Fts.NewManager;
  Eval.HasIndex := Fts.HasIndex;
  Eval.ListIndexes := Fts.ListIndexes;
  Eval.Search := matching_rows;
  Eval.IndexDocument := ManagerIndexDocument;
  Eval.DeleteDocument := ManagerDeleteDocument;
  Eval.CreateIndex := fun table column options => CreateIndexWithConfig table column (parseFTSOptions <$> options);
  Eval.DropIndex := fun table column m => default m (Fts.DropIndex table column m)
|}.
End Instance.

(** ** Opening a database with indexes *)

Section Restore.
Context `{GoRuntime} `{FunctionRuntime} `{MapOrder} `{JSONRuntime} `{RecordJSON} `{Environment} `{ColumnJSON}
  `{OptionJSON} `{Segmenter} `{SliceSort} (fuel : nat).

#[local] Existing Instance manager_full_text.
Abbreviation OM := (SO Engine EngineError).

(** The indexes the metadata names, in some order, and their files. *)
Context (files : bytes -> bytes -> option SavedIndex).

Definition set_manager (m : Fts.Manager) : Engine -> Engine := set_fts m.

Definition restore_index (table column : bytes) : OM unit :=
  m ← gets fts;
  if Fts.HasIndex table column m then mret tt
  else match CreateIndexWithConfig table column None m with
       | None => mret tt
       | Some m =>
         modify (set_manager m);;
         match files table column, GetIndex table column m with
         | Some saved, Some x => modify (set_manager (set_index (index_key table column) (LoadFromFile saved x) m))
         | _, _ => _ ← try (indexExistingRows fuel table column); mret tt
         end
       end.
Fixpoint restoreFTSIndexes (infos : list (bytes * bytes)) : OM unit :=
  match infos with
  | [] => mret tt
  | (table, column) :: infos => restore_index table column;; restoreFTSIndexes infos
  end.
End Restore.

(** * Full-text search at work

    Statements from their texts to their answers, where a text is segmented at
    what is no letter or digit. *)

From S2P Require Import EngineExamples FtsSpec.

Definition no_option_json : OptionJSON := {| words_json _ := None; synonyms_json _ := None |}.

#[local] Existing Instance insertion_sorting.
#[local] Existing Instance words_segmenter.
#[local] Existing Instance no_option_json.
Definition word_search : FullText := manager_full_text.
#[local] Existing Instance word_search.
Definition no_host : HostFiles := @Build_HostFiles word_search (fun _ _ => false) (fun _ _ => Err MissingTable).
#[local] Existing Instance no_host.

(** ** Answers *)

Definition search_engine : Engine := NewEngine (NewStorage false 0) None [] [].
Fixpoint search_session (statements : list string) (e : Engine) : list (outcome EngineError Result) * Engine :=
  match statements with
  | [] => ([], e)
  | s :: rest => let '(r, e) := Execute 10 (str s) e in let '(rs, e) := search_session rest e in (r :: rs, e)
  end.
Definition last_found (statements : list string) : outcome EngineError (list (list bytes)) :=
  shown (List.last (search_session statements search_engine).1 Hang).

Definition notes : list string :=
  ["CREATE TABLE notes (id SEQ, body VARCHAR(50))"; "INSERT INTO notes (body) VALUES ('a quick brown fox')";
   "CREATE FULLTEXT INDEX i ON notes(body)"; "INSERT INTO notes (body) VALUES ('The quick dog'), ('slow fox')"]%string.
Definition in_notes (s : string) : outcome EngineError (list (list bytes)) := last_found (notes ++ [s]).

Example found_words : in_notes "SELECT id FROM notes WHERE MATCH(body) AGAINST('QUICK')" = rows [["1"]; ["2"]]%string.
Proof. vm_compute. reflexivity. Qed.
Example found_all_words : in_notes "SELECT id FROM notes WHERE MATCH(body) AGAINST('quick fox')" = rows [["1"]]%string.
Proof. vm_compute. reflexivity. Qed.
Example found_after_update :
  last_found (notes ++ ["UPDATE notes SET body = 'slow cat' WHERE id = 1"; "DELETE FROM notes WHERE id = 3";
                        "SELECT id FROM notes WHERE MATCH(body) AGAINST('slow')"]%string) = rows [["1"]]%string.
Proof. vm_compute. reflexivity. Qed.

(** ** Where the answers are wrong *)

(** UPDATE and DELETE evaluate the condition without the row's identifier, so
    that a search matches no row. *)
Example match_in_delete :
  last_found (notes ++ ["DELETE FROM notes WHERE MATCH(body) AGAINST('quick')"; "SELECT id FROM notes"]%string)
  = rows [["1"]; ["2"]; ["3"]]%string.
Proof. vm_compute. reflexivity. Qed.
(** A text that becomes empty stays in the index. *)
Example emptied_text_is_found :
  last_found (notes ++ ["UPDATE notes SET body = '' WHERE id = 1"; "SELECT id FROM notes WHERE MATCH(body) AGAINST('fox')"]%string)
  = rows [["1"]; ["3"]]%string.
Proof. vm_compute. reflexivity. Qed.
(** An index named in another case is found by insertions, not by deletions. *)
Example deletion_misses_case :
  let m := ManagerDeleteDocument (str "notes") (str "text") 7
             (ManagerIndexDocument (str "notes") (str "text") 7 (str "fox") (default Fts.NewManager (CreateIndexWithConfig (str "notes") (str "TEXT") None Fts.NewManager))) in
  matching_rows (str "notes") (str "text") (str "fox") 0 m = Some [7].
Proof. vm_compute. reflexivity. Qed.
(** A search that no dictionary word stops: the empty word in the dictionary. *)
Example highlight_hangs :
  let c := mkFTSConfig [1; 2] 1 50 (float_of_Z 1) (tenths 7) (tenths 3) true {[ [] : bytes ]} ∅ in
  Highlight 1 (str "fox") (str "<") (str ">") (Fts.IndexDocument 1 (str "a fox") (NewInvertedIndexWithConfig ChineseTokenizer c)) = Hang.
Proof. vm_compute. reflexivity. Qed.

(** The file of an index is written when it is created: once the database is
    opened again, what was inserted since is not found. *)
Example reopened_index_is_stale :
  let inserted := (search_session notes search_engine).2 in
  let created := (search_session (take 3 notes) search_engine).2 in
  let files table column := SaveToFile <$> GetIndex table column (fts created) in
  let reopened := (restoreFTSIndexes 10 files [(str "notes", str "body")] (set_fts Fts.NewManager inserted)).2 in
  let find e := shown (Execute 10 (str "SELECT id FROM notes WHERE MATCH(body) AGAINST('fox')") e).1 in
  find inserted = rows [["1"]; ["3"]]%string /\ find reopened = rows [["1"]]%string.
Proof. vm_compute. done. Qed.
