(* ===== verification/Protocol.v ===== *)
(** * The MySQL protocol (mysql/protocol.go)

    Packets, length-encoded integers and strings, and the packets a server
    answers with. What is written goes to an output; writing does not fail. *)

From S2P Require Import Prelude GoLib Types RowCodec Page PageCache TableFile Crypto Json Wal Storage Functions Script Auth Ast Eval Select Dml.
Local Open Scope Z_scope.

(** ** Constants *)

Definition ProtocolVersion : Z := 10.
Definition CLIENT_CONNECT_WITH_DB : Z := 0x00000008.
Definition CLIENT_PLUGIN_AUTH : Z := 0x00080000.
(** The flags that are set, of long passwords to plugin data. *)
Definition DEFAULT_CAPABILITIES : Z :=
  fold_left Z.lor [0x1; 0x4; 0x80; 0x200; 0x2000; 0x8000; 0x10000; 0x20000; 0x40000; CLIENT_PLUGIN_AUTH; 0x100000; 0x200000] 0.

Definition AUTH_PLUGIN_NAME : bytes := str "mysql_native_password".
Definition AUTH_PLUGIN_CACHING_SHA2 : bytes := str "caching_sha2_password".
Definition AUTH_SWITCH_REQUEST : Z := 0xfe.

Definition COM_QUIT : Z := 0x01.
Definition COM_INIT_DB : Z := 0x02.
Definition COM_QUERY : Z := 0x03.
Definition COM_FIELD_LIST : Z := 0x04.
Definition COM_STATISTICS : Z := 0x09.
Definition COM_PING : Z := 0x0e.
Definition COM_STMT_PREPARE : Z := 0x16.
Definition COM_STMT_EXECUTE : Z := 0x17.
Definition COM_STMT_CLOSE : Z := 0x19.

Definition MYSQL_TYPE_TINY : Z := 0x01.
Definition MYSQL_TYPE_SHORT : Z := 0x02.
Definition MYSQL_TYPE_LONG : Z := 0x03.
Definition MYSQL_TYPE_FLOAT : Z := 0x04.
Definition MYSQL_TYPE_DOUBLE : Z := 0x05.
Definition MYSQL_TYPE_LONGLONG : Z := 0x08.
Definition MYSQL_TYPE_INT24 : Z := 0x09.
Definition MYSQL_TYPE_YEAR : Z := 0x0d.
Definition MYSQL_TYPE_VAR_STRING : Z := 0xfd.

Definition OK_HEADER : Z := 0x00.
Definition EOF_HEADER : Z := 0xfe.
Definition ERR_HEADER : Z := 0xff.

(** ** Packets *)

(** One packet of the input, and the rest; none where the input ends. *)
Definition ReadPacket (input : bytes) : option (bytes * bytes) :=
  if (length input <? 4)%nat then None
  else
    let length_ := Z.to_nat (get_le (take 3 input)) in
    let rest := drop 4 input in
    if (length rest <? length_)%nat then None else Some (take length_ rest, drop length_ rest).

Record PacketWriter := mkWriter { output : bytes; sequence : Z }.
Definition ResetSequence (w : PacketWriter) : PacketWriter := mkWriter (output w) 0.

Definition max_packet : Z := 0xffffff.
Definition one_byte (n : Z) : bytes := [byte.of_Z n].
Definition writePacketInternal (data : bytes) (w : PacketWriter) : PacketWriter :=
  mkWriter (output w ++ put_le 3 (zlen data) ++ one_byte (sequence w) ++ data) (u8 (sequence w + 1)).
(** Large packets are split; what is left when the length is a multiple of
    the largest is nothing, not an empty packet. *)
Fixpoint write_chunks (fuel : nat) (data : bytes) (w : PacketWriter) : PacketWriter :=
  match fuel, data with
  | S n, _ :: _ => write_chunks n (drop (Z.to_nat max_packet) data) (writePacketInternal (take (Z.to_nat max_packet) data) w)
  | _, _ => w
  end.
Definition WritePacket (data : bytes) (w : PacketWriter) : PacketWriter :=
  if max_packet <? zlen data then write_chunks (length data) data w else writePacketInternal data w.

(** ** Integers and strings *)

Definition writeLengthEncodedInt (n : Z) : bytes :=
  if n <=? 250 then one_byte n
  else if n <=? 0xffff then one_byte 0xfc ++ put_le 2 n
  else if n <=? 0xffffff then one_byte 0xfd ++ put_le 3 n
  else one_byte 0xfe ++ put_le 8 n.
Definition writeLengthEncodedString (s : bytes) : bytes := writeLengthEncodedInt (zlen s) ++ s.
Definition writeUint16 (n : Z) : bytes := put_le 2 n.
Definition writeUint32 (n : Z) : bytes := put_le 4 n.

(** The integer and the number of bytes it takes; none where there are too
    few. *)
Definition ReadLengthEncodedInt (data : bytes) : option (Z * Z) :=
  match data with
  | [] => None
  | b :: rest =>
    let field (n : nat) := if (length rest <? n)%nat then None else Some (get_le (take n rest), Z.of_nat n + 1) in
    let b := byte.unsigned b in
    if b =? 0xfb then Some (0, 1)
    else if b =? 0xfc then field 2%nat
    else if b =? 0xfd then field 3%nat
    else if b =? 0xfe then field 8%nat
    else Some (b, 1)
  end.

(** [data[lo:hi]] *)
Definition go_slice (lo hi : Z) (data : bytes) : outcome unit bytes :=
  if (0 <=? lo) && (lo <=? hi) && (hi <=? zlen data) then Ok (slice (Z.to_nat lo) (Z.to_nat hi) data) else Panic.

(** The length is an unsigned integer, which becomes a signed one. *)
Definition ReadLengthEncodedString (data : bytes) : outcome unit (bytes * Z) :=
  match ReadLengthEncodedInt data with
  | None => Err tt
  | Some (length_, n) =>
    let total := i64 (n + i64 length_) in
    if zlen data <? total then Err tt else s ← go_slice n total data; Ok (s, total)
  end.

Fixpoint count_digits (fuel : nat) (n : Z) : nat :=
  match fuel with O => 0%nat | S k => if 0 <? n then S (count_digits k (n / 10)) else 0%nat end.
(** Digits from the right, up to position [i]. *)
Fixpoint fill_digits (i : nat) (n : Z) (result : bytes) : bytes :=
  match i with
  | O => result
  | S j => if 0 <? n then fill_digits j (n / 10) (<[j := byte.of_Z (48 + n mod 10)]> result) else result
  end.
Definition digits_of (width : nat) (sign : bytes) (n : Z) : bytes :=
  let result := sign ++ repeat Byte.x00 width in fill_digits (length result) n result.
Definition int64ToString (n : Z) : bytes :=
  if n =? 0 then str "0"
  else if n =? - 2 ^ 63 then str "-9223372036854775808"
  else if n <? 0 then digits_of (count_digits 20 (- n)) (str "-") (- n)
  else digits_of (count_digits 20 n) [] n.
Definition uint64ToString (n : Z) : bytes := if n =? 0 then str "0" else digits_of (count_digits 20 n) [] n.

Section Answers.
Context `{GoRuntime}.
(** strconv.FormatFloat(f, 'f', -1, 64) *)
Context (format_float : float64 -> bytes).

Definition is_signed (k : IntKind) : bool :=
  match k with KInt | KInt8 | KInt16 | KInt32 | KInt64 => true | _ => false end.
(** The text of a datum; any other type, as a time, is the empty text. *)
Definition anyToString (d : GoData) : bytes :=
  match d with
  | GNil => []
  | GString s | GBytes s => s
  | GInt k n => if is_signed k then int64ToString n else uint64ToString n
  | GFloat32 f => format_float (float_of_float32 f)
  | GFloat64 f => format_float f
  | GBool b => if b then str "1" else str "0"
  | GTime _ | GOther _ _ => []
  end.

(** ** What a server answers with *)

Definition ok_packet (affectedRows insertID status warnings : Z) (message : bytes) : bytes :=
  one_byte OK_HEADER ++ writeLengthEncodedInt affectedRows ++ writeLengthEncodedInt insertID ++ writeUint16 status ++ writeUint16 warnings
  ++ match message with [] => [] | _ => writeLengthEncodedString message end.
Definition WriteOK (affectedRows insertID status warnings : Z) (message : bytes) : PacketWriter -> PacketWriter :=
  WritePacket (ok_packet affectedRows insertID status warnings message).
Definition WriteAuthMoreData (data : bytes) : PacketWriter -> PacketWriter := WritePacket (one_byte 0x01 ++ data).
Definition WriteEOF (status : Z) : PacketWriter -> PacketWriter :=
  WritePacket (one_byte EOF_HEADER ++ one_byte 0 ++ one_byte 0 ++ put_le 2 status).
Definition WriteError (code : Z) (sqlState message : bytes) : PacketWriter -> PacketWriter :=
  WritePacket (one_byte ERR_HEADER ++ writeUint16 code ++ str "#" ++ take 5 (if zlen sqlState <? 5 then str "HY000" else sqlState) ++ message).
Definition WriteResultHeader (columnCount : Z) : PacketWriter -> PacketWriter := WritePacket (writeLengthEncodedInt columnCount).
Definition WriteColumnDefinition (schema table orgTable name orgName : bytes) (columnLength charset columnType decimals flags : Z)
  : PacketWriter -> PacketWriter :=
  WritePacket (writeLengthEncodedString (str "def") ++ writeLengthEncodedString schema ++ writeLengthEncodedString table
    ++ writeLengthEncodedString orgTable ++ writeLengthEncodedString name ++ writeLengthEncodedString orgName
    ++ one_byte 0x0c ++ writeUint16 charset ++ writeUint32 columnLength ++ one_byte columnType ++ writeUint16 flags
    ++ one_byte decimals ++ one_byte 0 ++ one_byte 0).

Definition is_nil (d : GoData) : bool := match d with GNil => true | _ => false end.
Definition row_packet (values : list GoData) : bytes :=
  concat (map (fun d => if is_nil d then one_byte 0xfb else writeLengthEncodedString (anyToString d)) values).
Definition WriteRowData (values : list GoData) : PacketWriter -> PacketWriter := WritePacket (row_packet values).

(** The bit of each value that is NULL, after two that are reserved. *)
Definition set_bit (i : nat) (bitmap : bytes) : bytes :=
  alter (fun b => byte.of_Z (Z.lor (byte.unsigned b) (Z.shiftl 1 (Z.of_nat i mod 8)))) (i / 8)%nat bitmap.
Definition null_bitmap (values : list GoData) : bytes :=
  fold_left (fun m '(i, d) => if is_nil d then set_bit (i + 2) m else m) (imap pair values) (repeat Byte.x00 ((length values + 7 + 2) / 8)).
Definition binary_row_packet (values : list GoData) : bytes :=
  one_byte 0 ++ null_bitmap values ++ concat (map (fun d => if is_nil d then [] else writeLengthEncodedString (anyToString d)) values).
Definition WriteBinaryRowData (values : list GoData) : PacketWriter -> PacketWriter := WritePacket (binary_row_packet values).
End Answers.

(** ** Passwords *)

Definition byte_xor (a b : byte) : byte := byte.of_Z (Z.lxor (byte.unsigned a) (byte.unsigned b)).
Definition xor_bytes (a b : bytes) : bytes := zip_with byte_xor a b.

Section Passwords.
Context `{Digests}.

(** What a client answers to the salt; the digests have 20 bytes. *)
Definition NativePasswordAuth (password salt : bytes) : bytes :=
  match password with
  | [] => []
  | _ => let hash1 := sha1 password in xor_bytes hash1 (sha1 (salt ++ sha1 hash1))
  end.
End Passwords.
