(* ===== verification/ProtocolSpec.v ===== *)
(** * The MySQL protocol: what is written is read back

    The digits of integers, the length-encoded integers and strings, the
    packets, and a row of a result as a client reads it from the bytes alone. *)

From S2P Require Import Prelude GoLib Types Protocol.
Local Open Scope Z_scope.

(** ** Decimal digits *)

Lemma insert_digit (sign acc : bytes) (c : nat) (d : byte) :
  <[(length sign + c)%nat := d]> (sign ++ repeat Byte.x00 (S c) ++ acc) = sign ++ repeat Byte.x00 c ++ d :: acc.
Proof.
  rewrite insert_app_r. f_equal. replace (repeat Byte.x00 (S c)) with (repeat Byte.x00 c ++ [Byte.x00]).
  - rewrite <- app_assoc. rewrite <- (repeat_length Byte.x00 c) at 1. by rewrite <- (Nat.add_0_r (length _)), insert_app_r.
  - by rewrite <- repeat_cons.
Qed.

Lemma fill_digits_zero i r : fill_digits i 0 r = r.
Proof. by destruct i. Qed.

Lemma fill_digits_fuel fuel n sign acc : 0 < n < 10 ^ Z.of_nat fuel ->
  fill_digits (length sign + count_digits fuel n) n (sign ++ repeat Byte.x00 (count_digits fuel n) ++ acc) = sign ++ digits_fuel fuel n acc.
Proof.
  revert n acc. induction fuel as [|f IH]; intros n acc Hn; [change (10 ^ Z.of_nat 0) with 1 in Hn; lia|].
  rewrite Nat2Z.inj_succ, Z.pow_succ_r in Hn by lia.
  cbn [count_digits digits_fuel]. replace (0 <? n) with true by lia.
  rewrite Nat.add_succ_r. cbn [fill_digits]. replace (0 <? n) with true by lia.
  rewrite insert_digit. change (byte.of_Z (48 + n mod 10)) with (digit_byte (n mod 10)).
  destruct (Z.ltb_spec n 10) as [Hs|Hb].
  - rewrite (Z.div_small n 10), fill_digits_zero by lia. replace (count_digits f 0) with 0%nat by (by destruct f). done.
  - apply IH. pose proof (Z.div_le_lower_bound n 10 1). split; [lia|]. apply Z.div_lt_upper_bound; lia.
Qed.

Lemma digits_of_spec n sign : 0 < n < 10 ^ 20 -> digits_of (count_digits 20 n) sign n = sign ++ digits_fuel 20 n [].
Proof.
  intros Hn. unfold digits_of. rewrite length_app, repeat_length.
  pose proof (fill_digits_fuel 20 n sign [] ltac:(lia)) as E. by rewrite app_nil_r in E.
Qed.

(** The texts of integers that rows carry are those that [%d] prints,
    for every signed and every unsigned 64-bit integer. *)
Theorem int64ToString_itoa n : (in_i64 n -> int64ToString n = itoa n) /\ (in_u64 n -> uint64ToString n = itoa n).
Proof.
  unfold in_i64, in_u64, int64ToString, uint64ToString, itoa. split; intros Hn.
  - destruct (Z.eqb_spec n 0) as [->|]; [done|]. destruct (Z.eqb_spec n (- 2 ^ 63)) as [->|]; [done|].
    destruct (Z.ltb_spec n 0); rewrite digits_of_spec; [done|lia|done|lia].
  - destruct (Z.eqb_spec n 0) as [->|]; [done|]. replace (n <? 0) with false by lia. rewrite digits_of_spec; [done|lia].
Qed.

Lemma int64ToString_itoa_witness : int64ToString (- 2 ^ 63) = itoa (- 2 ^ 63) /\ uint64ToString (2 ^ 64 - 1) = str "18446744073709551615".
Proof.
  split; [apply (int64ToString_itoa (- 2 ^ 63)); unfold in_i64; lia|].
  rewrite (proj2 (int64ToString_itoa (2 ^ 64 - 1))); [reflexivity|unfold in_u64; lia].
Defined.

(** ** Length-encoded integers and strings *)

(** The four sizes of an integer. *)
Ltac lenenc_cases n :=
  destruct (Z.leb_spec n 250); [|destruct (Z.leb_spec n 0xffff); [|destruct (Z.leb_spec n 0xffffff)]].

Definition lenenc_size (n : Z) : Z := if n <=? 250 then 1 else if n <=? 0xffff then 3 else if n <=? 0xffffff then 4 else 9.

Lemma unsigned_of_Z n : 0 <= n < 256 -> byte.unsigned (byte.of_Z n) = n.
Proof. intros Hn. rewrite byte.unsigned_of_Z. apply Z.mod_small. lia. Qed.

(** A field of [n] bytes after its marker. *)
Lemma lenenc_field n z rest : 0 <= z < 2 ^ (Z.of_nat n * 8) ->
  (if (length (put_le n z ++ rest) <? n)%nat then None else Some (get_le (take n (put_le n z ++ rest)), Z.of_nat n + 1)) = Some (z, Z.of_nat n + 1).
Proof.
  intros Hz. replace (length (put_le n z ++ rest) <? n)%nat with false
    by (symmetry; apply Nat.ltb_ge; rewrite length_app, length_put_le; lia).
  rewrite take_app_length' by (by rewrite length_put_le). rewrite get_put_le, Z.mod_small by lia. done.
Qed.

Lemma ReadLengthEncodedInt_write n rest : in_u64 n -> ReadLengthEncodedInt (writeLengthEncodedInt n ++ rest) = Some (n, lenenc_size n).
Proof.
  unfold in_u64, writeLengthEncodedInt, lenenc_size, one_byte. intros Hn.
  lenenc_cases n; cbn [app]; unfold ReadLengthEncodedInt.
  { rewrite unsigned_of_Z by lia. repeat (rewrite (proj2 (Z.eqb_neq _ _)) by lia). done. }
  all: rewrite unsigned_of_Z by lia; cbn [Z.eqb Pos.eqb]; rewrite lenenc_field by lia; done.
Qed.

Lemma length_writeLengthEncodedInt n : zlen (writeLengthEncodedInt n) = lenenc_size n.
Proof.
  unfold writeLengthEncodedInt, lenenc_size, one_byte, zlen.
  lenenc_cases n; rewrite ?length_app, ?length_put_le; done.
Qed.

Lemma first_lenenc n : 0 <= n -> exists b t, writeLengthEncodedInt n = b :: t /\ byte.unsigned b <> 0xfb.
Proof.
  intros Hn. unfold writeLengthEncodedInt, one_byte.
  lenenc_cases n; cbn [app]; eexists _, _; split; try done; rewrite unsigned_of_Z; lia.
Qed.

Lemma go_slice_middle (a b rest : bytes) n : n = zlen a -> go_slice n (n + zlen b) (a ++ b ++ rest) = Ok b.
Proof.
  unfold go_slice, zlen, slice. rewrite !length_app. intros ->.
  rewrite (proj2 (Z.leb_le 0 _)), (proj2 (Z.leb_le (Z.of_nat (length a)) _)), (proj2 (Z.leb_le (_ + _) _)) by lia. cbn [andb].
  rewrite Nat2Z.id, Z2Nat.inj_add, !Nat2Z.id by lia. rewrite drop_app_length.
  by rewrite Nat.add_sub_swap, Nat.sub_diag, Nat.add_0_l, take_app_length by lia.
Qed.

Lemma ReadLengthEncodedString_write s rest : zlen s < 2 ^ 62 ->
  ReadLengthEncodedString (writeLengthEncodedString s ++ rest) = Ok (s, zlen (writeLengthEncodedString s)).
Proof.
  intros Hs. assert (Hn : in_u64 (zlen s)) by (unfold in_u64, zlen in *; lia).
  assert (Hb : 1 <= lenenc_size (zlen s) <= 9) by (unfold lenenc_size; lenenc_cases (zlen s); lia).
  unfold ReadLengthEncodedString, writeLengthEncodedString. rewrite <- app_assoc, ReadLengthEncodedInt_write by done.
  assert (Hi : i64 (zlen s) = zlen s) by (unfold i64, in_u64 in *; rewrite Z.mod_small; lia).
  rewrite Hi. assert (Ht : i64 (lenenc_size (zlen s) + zlen s) = lenenc_size (zlen s) + zlen s).
  { unfold i64, in_u64 in *. rewrite Z.mod_small; lia. }
  rewrite Ht. assert (Hz : zlen (writeLengthEncodedInt (zlen s) ++ s) = lenenc_size (zlen s) + zlen s).
  { by rewrite zlen_app, length_writeLengthEncodedInt. }
  rewrite (proj2 (Z.ltb_ge _ _)).
  - rewrite go_slice_middle by (by rewrite length_writeLengthEncodedInt). cbn. by rewrite Hz.
  - rewrite app_assoc, zlen_app, Hz. unfold zlen. lia.
Qed.

(** ** Packets

    A client reads a message from the bytes alone: it goes on reading packets
    while they have the largest length, and checks their numbers. *)

Definition packet_sequence (input : bytes) : Z := byte.unsigned (default Byte.x00 (input !! 3%nat)).
(** The message, the next number and the rest of the input. *)
Fixpoint read_message (fuel : nat) (seq : Z) (input : bytes) : option (bytes * Z * bytes) :=
  match fuel with
  | O => None
  | S k =>
    '(p, rest) ← ReadPacket input;
    if negb (packet_sequence input =? seq) then None
    else if zlen p =? max_packet then '(more, next, rest) ← read_message k (u8 (seq + 1)) rest; Some (p ++ more, next, rest)
    else Some (p, u8 (seq + 1), rest)
  end.
(** A message has fewer packets than bytes. *)
Definition client_message (seq : Z) (input : bytes) : option (bytes * Z * bytes) := read_message (length input) seq input.
Fixpoint client_messages (k : nat) (seq : Z) (input : bytes) : option (list bytes * Z * bytes) :=
  match k with
  | O => Some ([], seq, input)
  | S k => '(m, next, rest) ← client_message seq input; '(ms, last, rest) ← client_messages k next rest; Some (m :: ms, last, rest)
  end.

(** The length is no multiple of the largest one: of those the last packet is
    missing. *)
Definition whole (data : bytes) : Prop := data = [] \/ zlen data mod max_packet <> 0.

Lemma ReadPacket_frame seq data rest : zlen data <= max_packet ->
  ReadPacket (put_le 3 (zlen data) ++ one_byte seq ++ data ++ rest) = Some (data, rest).
Proof.
  unfold max_packet. intros Hd. pose proof (zlen_nonneg data). unfold ReadPacket.
  replace (length (put_le 3 (zlen data) ++ one_byte seq ++ data ++ rest) <? 4)%nat with false
    by (symmetry; apply Nat.ltb_ge; rewrite !length_app, length_put_le; cbn; lia).
  rewrite take_app_length' by (by rewrite length_put_le). rewrite get_put_le, Z.mod_small by lia.
  assert (Z.to_nat (zlen data) = length data) as -> by (unfold zlen; lia).
  assert (drop 4 (put_le 3 (zlen data) ++ one_byte seq ++ data ++ rest) = data ++ rest) as ->
    by (rewrite app_assoc; apply drop_app_length'; rewrite length_app, length_put_le; done).
  replace (length (data ++ rest) <? length data)%nat with false by (symmetry; apply Nat.ltb_ge; rewrite length_app; lia).
  by rewrite take_app_length, drop_app_length.
Qed.
Lemma packet_sequence_frame seq data rest : packet_sequence (put_le 3 (zlen data) ++ one_byte seq ++ data ++ rest) = u8 seq.
Proof.
  unfold packet_sequence. rewrite lookup_app_r, length_put_le by (by rewrite length_put_le). cbn. apply byte.unsigned_of_Z.
Qed.

(** One step of the client on a packet. *)
Lemma read_message_frame k seq data rest : zlen data <= max_packet ->
  read_message (S k) (u8 seq) (put_le 3 (zlen data) ++ one_byte seq ++ data ++ rest) =
  if zlen data =? max_packet then '(more, next, rest) ← read_message k (u8 (seq + 1)) rest; Some (data ++ more, next, rest)
  else Some (data, u8 (seq + 1), rest).
Proof.
  intros Hd. cbn [read_message]. rewrite ReadPacket_frame, packet_sequence_frame by done. cbn [mbind option_bind].
  rewrite Z.eqb_refl. cbn [negb].
  assert (Hs : u8 (u8 seq + 1) = u8 (seq + 1)) by (unfold u8; by rewrite Zplus_mod_idemp_l). by rewrite Hs.
Qed.

Definition next_sequence (w : PacketWriter) : Z := u8 (sequence w).

(** What a writer adds is one message, whose packets follow on. *)
Definition writes_message (f : PacketWriter -> PacketWriter) (data : bytes) : Prop :=
  forall w, exists fr, output (f w) = output w ++ fr /\ fr <> [] /\
    forall k rest, (length fr <= k)%nat -> read_message k (next_sequence w) (fr ++ rest) = Some (data, next_sequence (f w), rest).

Lemma next_internal data w : next_sequence (writePacketInternal data w) = u8 (sequence w + 1).
Proof. change (u8 (u8 (sequence w + 1)) = u8 (sequence w + 1)). unfold u8. by rewrite Zmod_mod. Qed.

Lemma write_internal_message data : zlen data < max_packet -> writes_message (writePacketInternal data) data.
Proof.
  intros Hd w. exists (put_le 3 (zlen data) ++ one_byte (sequence w) ++ data). split_and!; [done|done|].
  intros k rest Hk. destruct k as [|k]; [rewrite length_app, length_put_le in Hk; lia|]. rewrite next_internal.
  rewrite <- !app_assoc. unfold next_sequence. rewrite read_message_frame by lia. by rewrite (proj2 (Z.eqb_neq _ _)) by lia.
Qed.

(** The largest packet, and what follows it. *)
Lemma largest_then f data data' : zlen data = max_packet -> writes_message f data' ->
  writes_message (fun w => f (writePacketInternal data w)) (data ++ data').
Proof.
  intros Hd Hf w. destruct (Hf (writePacketInternal data w)) as (fr & Ho & Hne & Hr).
  exists (put_le 3 (zlen data) ++ one_byte (sequence w) ++ data ++ fr). split_and!.
  - rewrite Ho. cbn [output writePacketInternal]. by rewrite <- !app_assoc.
  - done.
  - intros k rest Hk. rewrite !length_app, length_put_le in Hk. destruct k as [|k]; [lia|]. rewrite <- !app_assoc.
    unfold next_sequence at 1. rewrite read_message_frame by lia. rewrite Hd, Z.eqb_refl. rewrite next_internal in Hr.
    rewrite Hr by lia. done.
Qed.

Lemma write_chunks_message fuel data : (length data <= fuel)%nat -> data <> [] -> zlen data mod max_packet <> 0 -> writes_message (write_chunks fuel data) data.
Proof.
  revert data. induction fuel as [|f IH]; intros data Hf Hne Hw; (destruct data as [|b t] eqn:Ed; [done|]); [cbn in Hf; lia|].
  rewrite <- Ed in *. intros w. cbn [write_chunks]. rewrite Ed. rewrite <- Ed.
  set (n := Z.to_nat max_packet). assert (Hn : Z.of_nat n = max_packet) by (subst n; unfold max_packet; lia).
  destruct (Z.lt_ge_cases (zlen data) max_packet) as [Hlt|Hge].
  - unfold zlen in Hlt. rewrite take_ge, drop_ge by lia. replace (write_chunks f [] _) with (writePacketInternal data w) by (by destruct f).
    exact (write_internal_message data Hlt w).
  - assert (Hlen : zlen (take n data) = max_packet) by (unfold zlen in *; rewrite length_take; lia).
    assert (Hd : zlen (drop n data) = zlen data - max_packet) by (unfold zlen in *; rewrite length_drop; lia).
    assert (Hm : zlen (drop n data) mod max_packet <> 0).
    { rewrite Hd. replace (zlen data - max_packet) with (zlen data + (-1) * max_packet) by lia. by rewrite Z_mod_plus_full. }
    assert (Hf' : (length (drop n data) <= f)%nat) by (rewrite length_drop; unfold max_packet in *; lia).
    assert (Hne' : drop n data <> []) by (intros He; rewrite He in Hm; by apply Hm).
    pose proof (largest_then (write_chunks f (drop n data)) (take n data) (drop n data) Hlen (IH _ Hf' Hne' Hm) w) as Hx.
    rewrite take_drop in Hx. exact Hx.
Qed.

Lemma WritePacket_message data : whole data -> writes_message (WritePacket data) data.
Proof.
  intros Hw w. unfold WritePacket. destruct (Z.ltb_spec max_packet (zlen data)) as [Hl|Hl].
  - destruct Hw as [->|Hw]; [done|]. apply write_chunks_message; [done|by intros ->|done].
  - apply write_internal_message. destruct Hw as [->|Hw]; [done|]. destruct (Z.eq_dec (zlen data) max_packet) as [E|E]; [|lia].
    by rewrite E, Z_mod_same_full in Hw.
Qed.
Lemma small_whole data : zlen data < max_packet -> whole data.
Proof.
  intros Hd. destruct data as [|b t]; [by left|]. right. rewrite Z.mod_small; [unfold zlen; cbn; lia|]. pose proof (zlen_nonneg (b :: t)). lia.
Qed.

(** What is written reads back as these messages. *)
Definition emits (f : PacketWriter -> PacketWriter) (ps : list bytes) : Prop :=
  forall w, exists fr, output (f w) = output w ++ fr /\
    forall rest, client_messages (length ps) (next_sequence w) (fr ++ rest) = Some (ps, next_sequence (f w), rest).

Lemma client_messages_app k l seq input ps next rest qs last rest' :
  client_messages k seq input = Some (ps, next, rest) -> client_messages l next rest = Some (qs, last, rest') ->
  client_messages (k + l) seq input = Some (ps ++ qs, last, rest').
Proof.
  revert seq input ps. induction k as [|k IH]; intros seq input ps; cbn [client_messages Nat.add]; [by intros [= <- <- <-]|].
  destruct (client_message seq input) as [[[m n] i]|]; [|done]. cbn [mbind option_bind].
  destruct (client_messages k n i) as [[[ms n'] i']|] eqn:E; [|done]. cbn [mbind option_bind]. intros [= <- <- <-] Hq. by rewrite (IH _ _ _ E Hq).
Qed.

Lemma emits_id : emits (fun w => w) [].
Proof. intros w. exists []. by rewrite app_nil_r. Qed.

Lemma emits_then f g ps qs : emits f ps -> emits g qs -> emits (fun w => g (f w)) (ps ++ qs).
Proof.
  intros Hf Hg w. destruct (Hf w) as (fr & Ho & Hr), (Hg (f w)) as (fr' & Ho' & Hr').
  exists (fr ++ fr'). rewrite Ho', Ho, app_assoc. split; [done|]. intros rest.
  rewrite length_app, <- app_assoc. by eapply client_messages_app.
Qed.

Lemma emits_fold {A} (f : A -> PacketWriter -> PacketWriter) (p : A -> bytes) l :
  Forall (fun x => emits (f x) [p x]) l -> emits (fun w => fold_left (fun w x => f x w) l w) (map p l).
Proof. induction 1 as [|x l Hx _ IH]; [apply emits_id|]. exact (emits_then _ _ _ _ Hx IH). Qed.

Lemma emits_packet data : whole data -> emits (WritePacket data) [data].
Proof.
  intros Hd w. destruct (WritePacket_message data Hd w) as (fr & Ho & Hne & Hr). exists fr. split; [done|]. intros rest.
  cbn [length client_messages]. unfold client_message. by rewrite Hr by (rewrite length_app; lia).
Qed.

(** After contents of exactly the largest length the packet that ends them is
    missing: a client takes the next message for their end. *)
Lemma largest_packet_runs_on data data' : zlen data = max_packet -> whole data' ->
  emits (fun w => WritePacket data' (WritePacket data w)) [data ++ data'].
Proof.
  intros Hd Hw w. destruct (largest_then (WritePacket data') data data' Hd (WritePacket_message _ Hw) w) as (fr & Ho & Hne & Hr).
  assert (Hp : WritePacket data w = writePacketInternal data w) by (unfold WritePacket; by rewrite Hd).
  rewrite Hp. exists fr. split; [done|]. intros rest. cbn [length client_messages]. unfold client_message. by rewrite Hr by (rewrite length_app; lia).
Qed.

(** ** A row of a result *)

Section Rows.
Context (format_float : float64 -> bytes).

(** The row as a client reads it: NULL, or a text, for each column. *)
Fixpoint read_row (k : nat) (data : bytes) : option (list (option bytes)) :=
  match k, data with
  | O, [] => Some []
  | S k, b :: rest =>
    if byte.unsigned b =? 0xfb then cons None <$> read_row k rest
    else match ReadLengthEncodedString data with
         | Ok (s, n) => cons (Some s) <$> read_row k (drop (Z.to_nat n) data)
         | _ => None
         end
  | _, _ => None
  end.
(** The text a client is to read for a datum: an integer in decimal, a truth
    value as 1 or 0. *)
Definition cell_text (d : GoData) : option bytes :=
  match d with
  | GNil | GTime _ | GOther _ _ => None
  | GString s | GBytes s => Some s
  | GInt _ n => Some (itoa n)
  | GFloat32 f => Some (format_float (float_of_float32 f))
  | GFloat64 f => Some (format_float f)
  | GBool b => Some (str (if b then "1" else "0"))
  end.
(** An integer of its width; no date or time, which the server sends as the
    empty text. *)
Definition cell_ok (d : GoData) : Prop :=
  match d with
  | GTime _ | GOther _ _ => False
  | GInt k n => if is_signed k then in_i64 n else in_u64 n
  | _ => True
  end.
Lemma cell_text_sent d : cell_ok d -> cell_text d = if is_nil d then None else Some (anyToString format_float d).
Proof.
  destruct d as [|k n| | | | |b| |]; try done; [|by destruct b].
  cbn [cell_ok cell_text is_nil anyToString]. destruct (is_signed k); intros Hn.
  - by rewrite (proj1 (int64ToString_itoa n) Hn).
  - by rewrite (proj2 (int64ToString_itoa n) Hn).
Qed.

Lemma read_row_packet values : Forall cell_ok values -> zlen (row_packet format_float values) < 2 ^ 62 ->
  read_row (length values) (row_packet format_float values) = Some (map cell_text values).
Proof.
  unfold row_packet. induction 1 as [|d values Hc _ IH]; [done|]. cbn [map concat length]. intros Hl.
  set (cells := concat _) in *. pose proof (zlen_nonneg cells). rewrite zlen_app in Hl.
  rewrite (cell_text_sent d Hc). destruct (is_nil d) eqn:Ed; rewrite ?Ed in Hl.
  - change (one_byte 251 ++ cells) with (byte.of_Z 251 :: cells). cbn [read_row]. rewrite unsigned_of_Z by lia.
    rewrite IH by (change (zlen (one_byte 251)) with 1 in Hl; lia). done.
  - set (s := anyToString format_float d) in *.
    assert (Hs : 0 <= zlen s <= zlen (writeLengthEncodedString s)).
    { unfold writeLengthEncodedString. rewrite zlen_app. pose proof (zlen_nonneg (writeLengthEncodedInt (zlen s))). pose proof (zlen_nonneg s). lia. }
    pose proof (ReadLengthEncodedString_write s cells ltac:(lia)) as Hr.
    destruct (first_lenenc (zlen s) ltac:(lia)) as (b & t & Hb & Hne).
    assert (writeLengthEncodedString s = b :: (t ++ s)) as E by (unfold writeLengthEncodedString; by rewrite Hb).
    rewrite E. cbn [app read_row]. rewrite (proj2 (Z.eqb_neq _ _)) by done.
    change (b :: (t ++ s) ++ cells) with ((b :: (t ++ s)) ++ cells). rewrite <- E, Hr.
    unfold zlen at 1. rewrite Nat2Z.id, drop_app_length, IH by lia. done.
Qed.

(** C33: a client that reads packets by their headers, goes on while they
    have the largest length and puts their contents together reads back, from
    the bytes that are written for a row, NULL or the text of each value, an
    integer in decimal; and it consumes nothing of what is written later. This
    holds for rows without dates and times, which are sent as the empty text,
    whose length is no positive multiple of 16777215, where the last packet is
    missing. *)
Theorem row_read_back values w rest : Forall cell_ok values -> zlen (row_packet format_float values) < 2 ^ 62 -> whole (row_packet format_float values) ->
  exists fr message, output (WriteRowData format_float values w) = output w ++ fr /\
    client_message (next_sequence w) (fr ++ rest) = Some (message, next_sequence (WriteRowData format_float values w), rest) /\
    read_row (length values) message = Some (map cell_text values).
Proof.
  intros Hc Hl Hw. destruct (WritePacket_message _ Hw w) as (fr & Ho & _ & Hr). exists fr, (row_packet format_float values).
  split_and!; [done| |by apply read_row_packet]. apply Hr. rewrite length_app. lia.
Qed.

(** ** A result: columns, an end, rows, an end *)

Fixpoint read_texts (k : nat) (data : bytes) : option (list bytes) :=
  match k with
  | O => Some []
  | S k => match ReadLengthEncodedString data with
           | Ok (s, n) => cons s <$> read_texts k (drop (Z.to_nat n) data)
           | _ => None
           end
  end.
(** The fifth text of a definition. *)
Definition column_name (p : bytes) : option bytes := texts ← read_texts 6 p; texts !! 4%nat.

Definition is_eof (p : bytes) : bool :=
  match p with b :: _ => (byte.unsigned b =? EOF_HEADER) && (length p <? 9)%nat | [] => false end.
Fixpoint decode_rows (n : nat) (ps : list bytes) : option (list (list (option bytes))) :=
  match ps with
  | [] => None
  | p :: ps =>
    if is_eof p then match ps with [] => Some [] | _ => None end
    else r ← read_row n p; rs ← decode_rows n ps; Some (r :: rs)
  end.
(** The names of the columns and the rows of a result. *)
Definition decode_result (ps : list bytes) : option (list bytes * list (list (option bytes))) :=
  match ps with
  | [] => None
  | header :: ps =>
    '(n, _) ← ReadLengthEncodedInt header;
    names ← mapM column_name (take (Z.to_nat n) ps);
    match drop (Z.to_nat n) ps with
    | eof :: ps => if is_eof eof then rows ← decode_rows (Z.to_nat n) ps; Some (names, rows) else None
    | [] => None
    end
  end.

Lemma read_texts_write k s data : zlen s < 2 ^ 62 ->
  read_texts (S k) (writeLengthEncodedString s ++ data) = cons s <$> read_texts k data.
Proof.
  intros Hs. cbn [read_texts]. rewrite ReadLengthEncodedString_write by done. unfold zlen. by rewrite Nat2Z.id, drop_app_length.
Qed.

Definition definition_packet (schema table orgTable name orgName : bytes) (columnLength charset columnType decimals flags : Z) : bytes :=
  writeLengthEncodedString (str "def") ++ writeLengthEncodedString schema ++ writeLengthEncodedString table
    ++ writeLengthEncodedString orgTable ++ writeLengthEncodedString name ++ writeLengthEncodedString orgName
    ++ one_byte 0x0c ++ writeUint16 charset ++ writeUint32 columnLength ++ one_byte columnType ++ writeUint16 flags
    ++ one_byte decimals ++ one_byte 0 ++ one_byte 0.

Lemma column_name_definition schema table orgTable name orgName l c t d f :
  Forall (fun s => zlen s < 2 ^ 62) [schema; table; orgTable; name; orgName] ->
  column_name (definition_packet schema table orgTable name orgName l c t d f) = Some name.
Proof.
  intros Hl. repeat apply Forall_cons in Hl as [? Hl]. unfold column_name, definition_packet.
  rewrite !read_texts_write by done. done.
Qed.

(** A row is not taken for an end: a text long enough to start like one makes
    the row long. *)
Lemma row_not_eof values : values <> [] -> is_eof (row_packet format_float values) = false.
Proof.
  unfold row_packet. destruct values as [|d values]; [done|]. intros _. cbn [map concat].
  set (cells := concat _). destruct (is_nil d); [done|].
  set (s := anyToString format_float d). unfold writeLengthEncodedString. pose proof (zlen_nonneg s) as Hs.
  destruct (Z.leb_spec (zlen s) 0xffffff) as [Hl|Hl].
  - assert (exists b t, writeLengthEncodedInt (zlen s) = b :: t /\ byte.unsigned b <> EOF_HEADER) as (b & t & -> & Hb).
    { unfold writeLengthEncodedInt, one_byte, EOF_HEADER. lenenc_cases (zlen s); cbn [app]; [..|lia]; eexists _, _; (split; [done|]); rewrite unsigned_of_Z; lia. }
    cbn [app is_eof]. by rewrite (proj2 (Z.eqb_neq _ _)).
  - destruct (first_lenenc (zlen s) Hs) as (b & t & Hb & _). rewrite Hb. cbn [app is_eof]. unfold zlen in Hl.
    rewrite (proj2 (Nat.ltb_ge _ _)); [apply andb_false_r|]. cbn [length]. rewrite !length_app. lia.
Qed.

(** Rows of the width of the result that reach a client. *)
Definition row_fits (n : nat) (values : list GoData) : Prop :=
  length values = n /\ Forall cell_ok values /\ zlen (row_packet format_float values) < 2 ^ 62 /\ whole (row_packet format_float values).

Lemma decode_rows_packets n rows eof : n <> 0%nat -> is_eof eof = true -> Forall (row_fits n) rows ->
  decode_rows n (map (row_packet format_float) rows ++ [eof]) = Some (map (map cell_text) rows).
Proof.
  intros Hn He. induction 1 as [|values rows (Hv & Hc & Hl & _) _ IH]; cbn [map app decode_rows]; [by rewrite He|].
  rewrite row_not_eof by (intros ->; by destruct Hn).
  rewrite <- Hv at 1. rewrite read_row_packet by done. cbn [mbind option_bind]. by rewrite IH.
Qed.
End Rows.

(** A NULL, a text of 300 bytes and an integer. *)
Definition small_row : list GoData := [GNil; GString (repeat Byte.x61 300); GInt KInt64 (- 7)].
Lemma row_read_back_witness :
  exists fr message next, output (WriteRowData (fun _ => []) small_row (mkWriter [] 1)) = fr /\
    client_message 1 fr = Some (message, next, []) /\
    read_row 3 message = Some [None; Some (repeat Byte.x61 300); Some (str "-7")].
Proof.
  destruct (row_read_back (fun _ => []) small_row (mkWriter [] 1) []) as (fr & message & Ho & Hr & Hv);
    [repeat constructor; vm_compute; congruence|vm_compute; reflexivity|apply small_whole; vm_compute; reflexivity|].
  rewrite app_nil_r in Hr. eexists fr, message, _. split; [exact Ho|]. split; [exact Hr|exact Hv].
Defined.
