(* ===== verification/Server.v ===== *)
(** * The MySQL server (mysql/server.go)

    One connection: the handshake, the authentication with its switch to the
    native password, and the loop over commands. The input is what the client
    sends, the output what the server writes; listening, logging, the
    certificates and the connections that run at the same time are left out,
    and so is the exchange of encrypted passwords, which nothing calls. *)

From S2P Require Import Prelude GoLib Types RowCodec Page PageCache TableFile Crypto Json Wal Storage Functions Script Auth Ast Eval Select Dml Lexer Parser ParserDml Engine Protocol.
Local Open Scope Z_scope.

(** What the server takes from elsewhere: the texts of errors and of numbers,
    and the clock in seconds. *)
Class ServerRuntime := {
  error_text : EngineError -> bytes;
  format_float : float64 -> bytes;
  unix_now : Z
}.

Record paramDesc := mkParam { ptyp : Z; signed : bool }.
Record preparedStatement := mkPrepared { stmt_id : Z; stmt_query : bytes; numParams : nat; params : list paramDesc }.

Record Client := mkClient {
  salt : bytes;
  capability : Z;
  ccharset : Z;
  cusername : bytes;
  cdatabase : bytes;
  authSeq : Z;
  statements : gmap Z preparedStatement
}.

Section Server.
Context `{GoRuntime} `{FunctionRuntime} `{FullText} `{MapOrder} `{JSONRuntime} `{RecordJSON} `{Environment} `{ColumnJSON}
  `{Digests} `{!HostFiles} `{ServerRuntime} (fuel : nat).

Record Server := mkServer {
  engine : Engine;
  serverID : Z;
  version : bytes;
  scharset : Z;
  requireAuth : bool;
  stmtIDCounter : Z
}.

Definition set_engine (e : Engine) (s : Server) : Server := mkServer e (serverID s) (version s) (scharset s) (requireAuth s) (stmtIDCounter s).
Definition set_counter (n : Z) (s : Server) : Server := mkServer (engine s) (serverID s) (version s) (scharset s) (requireAuth s) n.

(** ** Authentication *)

Definition NewClient (salt : bytes) : Client := mkClient salt 0 0 [] [] 2 ∅.
Definition set_statements (m : gmap Z preparedStatement) (c : Client) : Client :=
  mkClient (salt c) (capability c) (ccharset c) (cusername c) (cdatabase c) (authSeq c) m.
Definition set_database (d : bytes) (c : Client) : Client :=
  mkClient (salt c) (capability c) (ccharset c) (cusername c) d (authSeq c) (statements c).
Definition set_authSeq (n : Z) (c : Client) : Client :=
  mkClient (salt c) (capability c) (ccharset c) (cusername c) (cdatabase c) n (statements c).

Definition handshake_packet (s : Server) (c : Client) : bytes :=
  one_byte ProtocolVersion ++ version s ++ one_byte 0 ++ put_le 4 (serverID s) ++ take 8 (salt c) ++ one_byte 0
  ++ put_le 2 DEFAULT_CAPABILITIES ++ one_byte (scharset s) ++ put_le 2 0 ++ put_le 2 (Z.shiftr DEFAULT_CAPABILITIES 16)
  ++ one_byte 21 ++ repeat Byte.x00 10 ++ drop 8 (salt c) ++ one_byte 0 ++ AUTH_PLUGIN_NAME ++ one_byte 0.

(** A text up to the next zero byte, and what is after it. *)
Fixpoint cstring (data : bytes) : bytes * bytes :=
  match data with
  | [] => ([], [])
  | b :: rest => if byte.unsigned b =? 0 then ([], rest) else let '(s, r) := cstring rest in (b :: s, r)
  end.

(** The length of the response, and what is after it. *)
Definition response_length (data : bytes) : Z * bytes :=
  match data with
  | [] => (0, [])
  | b :: rest =>
    let b := byte.unsigned b in
    if (b =? 0xfc) && (2 <=? length rest)%nat then (get_le (take 2 rest), drop 2 rest)
    else if (b =? 0xfd) && (3 <=? length rest)%nat then (get_le (take 3 rest), drop 3 rest)
    else if (b =? 0xfe) && (8 <=? length rest)%nat then (get_le (take 4 rest), drop 8 rest)
    else (b, rest)
  end.
Definition auth_response (data : bytes) : bytes * bytes :=
  let '(n, rest) := response_length data in
  if (0 <? n) && (n <=? zlen rest) then (take (Z.to_nat n) rest, drop (Z.to_nat n) rest) else ([], rest).

Definition has_flag (flags flag : Z) : bool := negb (Z.land flags flag =? 0).

(** The client as its packet describes it, the response and the plugin. *)
Definition parse_auth (c : Client) (data : bytes) : outcome bytes (Client * bytes * bytes) :=
  if (length data <? 4)%nat then Err (str "auth packet too short: " ++ itoa (zlen data) ++ str " bytes")
  else if (length data <? 8)%nat then Err (str "invalid auth packet: too short for max_packet_size")
  else if (length data <? 9)%nat then Err (str "invalid auth packet: too short for charset")
  else if (length data <? 32)%nat then Err (str "invalid auth packet: too short for reserved")
  else
    let flags := get_le (take 4 data) in
    let '(user, rest) := cstring (drop 32 data) in
    let '(response, rest) := auth_response rest in
    let '(database, rest) := if has_flag flags CLIENT_CONNECT_WITH_DB && negb (bool_decide (rest = [])) then cstring rest else (cdatabase c, rest) in
    let plugin := if has_flag flags CLIENT_PLUGIN_AUTH then (cstring rest).1 else [] in
    let charset := byte.unsigned (List.nth 8 data Byte.x00) in
    Ok (mkClient (salt c) flags charset user database (authSeq c) (statements c), response, plugin).

Definition denied (c : Client) : bytes := str "access denied for user '" ++ cusername c ++ str "'".
Definition wrong_user (a : Auth) (c : Client) : bool := negb (bytes_eqb (GetUsername a) []) && negb (bytes_eqb (cusername c) (GetUsername a)).

Definition verifyMysqlNativePasswordWithSha1 (authResponse salt sha1Password : bytes) : bool :=
  if (length authResponse =? 20)%nat && (length salt =? 20)%nat && (length sha1Password =? 20)%nat then
    bytes_eqb (xor_bytes authResponse (sha1 (salt ++ sha1 sha1Password))) sha1Password
  else false.

(** The same from the password itself, and of the plugin with SHA-256; the
    connection asks for neither. *)
Definition verifyMysqlNativePassword (authResponse salt password : bytes) : bool :=
  if (length authResponse =? 20)%nat && (length salt =? 20)%nat then
    match password with
    | [] => bool_decide (authResponse = [])
    | _ => bytes_eqb (xor_bytes authResponse (sha1 (salt ++ sha1 (sha1 password)))) (sha1 password)
    end
  else false.
Definition verifyCachingSha2Password (authResponse salt password : bytes) : bool :=
  if (length authResponse =? 32)%nat then
    match password with
    | [] => bool_decide (authResponse = [])
    | _ => let h2 := sha256 (sha256 password) in bytes_eqb (sha256 (xor_bytes authResponse (sha256 (h2 ++ salt)))) h2
    end
  else false.
Definition computeCachingSha2Token (password salt : bytes) : bytes :=
  let h1 := sha256 password in xor_bytes h1 (sha256 (sha256 h1 ++ salt)).

(** The error of a packet that cannot be read. *)
Definition read_error (input : bytes) : bytes :=
  if bool_decide (input = []) || (length input =? 4)%nat then str "EOF" else str "unexpected EOF".

(** Ask the client for its native password. *)
Definition switch_packet (c : Client) : bytes :=
  one_byte AUTH_SWITCH_REQUEST ++ AUTH_PLUGIN_NAME ++ one_byte 0 ++ salt c ++ one_byte 0.
Definition switched (s : Server) (c : Client) (response : bytes) : outcome bytes unit :=
  let a := auth (engine s) in
  if IsEnabled a then
    if wrong_user a c then Err (denied c)
    else match GetMySQLSha1 a with
         | Some h => if verifyMysqlNativePasswordWithSha1 response (salt c) h then Ok tt else Err (denied c ++ str " (invalid password)")
         | None => Ok tt
         end
  else Ok tt.
Definition sendAuthSwitchRequest (s : Server) (c : Client) (input out : bytes) : outcome bytes unit * Client * bytes * bytes :=
  let out := output (WritePacket (switch_packet c) (mkWriter out 2)) in
  match ReadPacket input with
  | None => (Err (str "failed to read auth switch response: " ++ read_error input), c, input, out)
  | Some (response, input) => (switched s c response, set_authSeq 4 c, input, out)
  end.

(** The result, the client, and the input and the output after it. *)
Definition handleAuth (s : Server) (c : Client) (data input out : bytes) : outcome bytes unit * Client * bytes * bytes :=
  match parse_auth c data with
  | Ok (c, response, plugin) =>
    let a := auth (engine s) in
    if requireAuth s && negb (IsEnabled a) then
      (Err (str "access denied: authentication required but no credentials configured"), c, input, out)
    else if negb (IsEnabled a) then (Ok tt, c, input, out)
    else if wrong_user a c then (Err (denied c), c, input, out)
    else if bytes_eqb plugin AUTH_PLUGIN_NAME then
      match GetMySQLSha1 a with
      | None => (Ok tt, c, input, out)
      | Some h => if verifyMysqlNativePasswordWithSha1 response (salt c) h then (Ok tt, c, input, out)
                  else sendAuthSwitchRequest s c input out
      end
    else sendAuthSwitchRequest s c input out
  | Err e => (Err e, c, input, out)
  | Panic => (Panic, c, input, out)
  | Hang => (Hang, c, input, out)
  end.

(** ** Queries of information_schema *)

Abbreviation schema_answer := (list bytes * list (list bytes))%type.

Definition is_re_space (b : byte) : bool := one_of (byte.unsigned b) [9; 10; 12; 13; 32].
Fixpoint skip_spaces (s : bytes) : bytes := match s with b :: t => if is_re_space b then skip_spaces t else s | [] => [] end.
(** What is between quotes: a text that is not empty. *)
Fixpoint until_quote (s : bytes) : option bytes :=
  match s with
  | [] => None
  | b :: t => if byte.unsigned b =? 39 then Some [] else cons b <$> until_quote t
  end.
Definition after_byte (n : Z) (s : bytes) : option bytes := match s with b :: t => if byte.unsigned b =? n then Some t else None | [] => None end.
Definition where_value_here (field s : bytes) : option bytes :=
  if Functions.has_prefix field s then
    t ← after_byte 61 (skip_spaces (drop (length field) s));
    t ← after_byte 39 (skip_spaces t);
    v ← until_quote t;
    match v with [] => None | _ => Some v end
  else None.
(** The first match of [FIELD\s*=\s*'([^']+)']. *)
Fixpoint where_value (field s : bytes) : option bytes :=
  match where_value_here field s with
  | Some v => Some v
  | None => match s with [] => None | _ :: t => where_value field t end
  end.
Definition extractWHEREValue (upper field : bytes) : bytes :=
  match where_value field upper with Some v => to_lower v | None => [] end.

Definition columns_columns : list bytes := map str
  ["TABLE_CATALOG"; "TABLE_SCHEMA"; "TABLE_NAME"; "COLUMN_NAME"; "ORDINAL_POSITION"; "COLUMN_DEFAULT"; "IS_NULLABLE"; "DATA_TYPE";
   "CHARACTER_MAXIMUM_LENGTH"; "CHARACTER_OCTET_LENGTH"; "NUMERIC_PRECISION"; "NUMERIC_SCALE"; "DATETIME_PRECISION"; "CHARACTER_SET_NAME";
   "COLLATION_NAME"; "COLUMN_TYPE"; "COLUMN_KEY"; "EXTRA"; "PRIVILEGES"; "COLUMN_COMMENT"; "GENERATION_EXPRESSION"; "SRS_ID"]%string.
Definition shown_field (r : Row) (i : nat) : option bytes := (fun v => sprint_v (Data v)) <$> RData r !! i.
Definition column_entry (table : bytes) (i : nat) (r : Row) : list bytes :=
  let colType := match shown_field r 1 with Some t => to_lower t | None => str "varchar" end in
  let nullable := match shown_field r 2 with Some t => if bytes_eqb t (str "NO") then str "NO" else str "YES" | None => str "YES" end in
  let charLen := if Eval.contains (str "char") colType || Eval.contains (str "text") colType then str "65535" else [] in
  [str "def"; str "xxldb"; table; default [] (shown_field r 0); itoa (Z.of_nat i + 1); []; nullable; colType; charLen; charLen;
   []; []; []; str "utf8mb4"; str "utf8mb4_general_ci"; colType; default [] (shown_field r 3); default [] (shown_field r 5);
   str "select,insert,update,references"; []; []; []].

(** The answer to a query by the words it contains; none leaves it to the
    engine. *)
Definition handleInfoSchemaQuery (query : bytes) : SO Engine unit (option schema_answer) := fun e =>
  let upper := to_upper (trim_space query) in
  let has w := Eval.contains (str w) upper in
  let schema := has "INFORMATION_SCHEMA" in
  let answer cols rows := (Ok (Some (map str cols, rows)), e) in
  if Functions.has_prefix (str "SHOW TABLES FROM") upper && schema then
    answer ["Tables_in_information_schema"]%string
      (map (fun t => [str t]) ["SCHEMATA"; "TABLES"; "COLUMNS"; "STATISTICS"; "KEY_COLUMN_USAGE"; "TABLE_CONSTRAINTS"; "EVENTS"; "ROUTINES"; "TRIGGERS"; "VIEWS"]%string)
  else if schema && has "SCHEMATA" then
    answer ["SCHEMA_NAME"; "DEFAULT_CHARACTER_SET_NAME"; "DEFAULT_COLLATION_NAME"; "SQL_PATH"]%string
      [[str "xxldb"; str "utf8mb4"; str "utf8mb4_general_ci"; []]]
  else if schema && has "EVENTS" then answer ["EVENT_SCHEMA"; "EVENT_NAME"; "Db"; "Name"]%string []
  else if schema && has "COLUMNS" then
    match extractWHEREValue upper (str "TABLE_NAME") with
    | [] => (Ok (Some (columns_columns, [])), e)
    | table =>
      match Engine.Execute fuel (str "DESCRIBE " ++ table) e with
      | (Ok r, e) => (Ok (Some (columns_columns, imap (column_entry table) (Rows r))), e)
      | (Err _, e) => (Ok (Some (columns_columns, [])), e)
      | (Panic, e) => (Panic, e)
      | (Hang, e) => (Hang, e)
      end
    end
  else if has "REFERENTIAL_CONSTRAINTS" then
    answer ["CONSTRAINT_CATALOG"; "CONSTRAINT_SCHEMA"; "CONSTRAINT_NAME"; "UNIQUE_CONSTRAINT_CATALOG"; "UNIQUE_CONSTRAINT_SCHEMA";
            "UNIQUE_CONSTRAINT_NAME"; "MATCH_OPTION"; "UPDATE_RULE"; "DELETE_RULE"; "TABLE_NAME"; "REFERENCED_TABLE_NAME"]%string []
  else if has "KEY_COLUMN_USAGE" then
    answer ["CONSTRAINT_CATALOG"; "CONSTRAINT_SCHEMA"; "CONSTRAINT_NAME"; "TABLE_CATALOG"; "TABLE_SCHEMA"; "TABLE_NAME"; "COLUMN_NAME";
            "ORDINAL_POSITION"; "POSITION_IN_UNIQUE_CONSTRAINT"; "REFERENCED_TABLE_SCHEMA"; "REFERENCED_TABLE_NAME"; "REFERENCED_COLUMN_NAME"]%string []
  else if schema then answer ["result"]%string []
  else (Ok None, e).

(** ** Commands *)

(** A session: the server, its client, and what is written. *)
Record Session := mkSession { srv : Server; client : Client; writer : PacketWriter }.
Abbreviation CM := (SO Session unit).

Definition write (f : PacketWriter -> PacketWriter) : CM unit := modify (fun s => mkSession (srv s) (client s) (f (writer s))).
Definition in_engine {A E} (m : SO Engine E A) : SO Session E A := fun s =>
  let '(r, e) := m (engine (srv s)) in (r, mkSession (set_engine e (srv s)) (client s) (writer s)).
Definition change_client (f : Client -> Client) : CM unit := modify (fun s => mkSession (srv s) (f (client s)) (writer s)).

Definition column_definition (schema col : bytes) : PacketWriter -> PacketWriter :=
  WriteColumnDefinition schema [] [] col col 255 33 MYSQL_TYPE_VAR_STRING 0 0.
(** Columns, an end, rows, an end. *)
Definition result_set (schema : bytes) (columns : list bytes) (row : list GoData -> PacketWriter -> PacketWriter) (rows : list (list GoData)) (w : PacketWriter)
  : PacketWriter :=
  let w := WriteResultHeader (zlen columns) w in
  let w := WriteEOF 0 (fold_left (fun w col => column_definition schema col w) columns w) in
  WriteEOF 0 (fold_left (fun w r => row r w) rows w).
Definition row_data (r : Result) : list (list GoData) := map (fun row => map Data (RData row)) (Rows r).
Definition write_rows (binary : bool) : list GoData -> PacketWriter -> PacketWriter :=
  if binary then WriteBinaryRowData format_float else WriteRowData format_float.

(** The answer to a statement. *)
Definition run_statement (binary : bool) (sql : bytes) : CM unit := fun s =>
  match in_engine (Engine.Execute fuel sql) s with
  | (Err e, s) => write (WriteError 1064 (str "42000") (error_text e)) s
  | (Ok r, s) =>
    if IsExecutionResult r then write (WriteOK (u64 (RowsAffected r)) (u64 (RLastInsertID r)) 0 0 []) s
    else match RColumns r with
         | [] => if binary then write (fun w => WriteEOF 0 (WriteResultHeader 0 w)) s else (Ok tt, s)
         | cols => write (result_set (cdatabase (client s)) cols (write_rows binary) (row_data r)) s
         end
  | (Panic, s) => (Panic, s)
  | (Hang, s) => (Hang, s)
  end.
Definition handleQuery (query : bytes) : CM unit :=
  a ← in_engine (handleInfoSchemaQuery query);
  match a with
  | Some (cols, rows) => write (result_set (str "information_schema") cols (write_rows false) (map (map GString) rows))
  | None => run_statement false query
  end.

Definition handleStatistics : CM unit := write (WritePacket (str "Uptime: " ++ itoa unix_now ++ [byte.of_Z 10])).

(** *** Prepared statements *)

Definition count_byte (b : byte) (s : bytes) : nat := length (List.filter (fun c => byte.unsigned c =? byte.unsigned b) s).
Definition question_mark : byte := byte.of_Z 63.
Definition handleStmtPrepare (query : bytes) : CM unit :=
  s ← gets srv;
  let id := u32 (stmtIDCounter s + 1) in
  let n := count_byte question_mark query in
  modify (fun s => mkSession (set_counter id (srv s)) (client s) (writer s));;
  change_client (fun c => set_statements (<[id := mkPrepared id query n (repeat (mkParam 0 false) n)]> (statements c)) c);;
  write (WritePacket (one_byte 0 ++ put_le 4 id ++ put_le 2 0 ++ put_le 2 (Z.of_nat n) ++ one_byte 0 ++ put_le 2 0));;
  when (0 <? Z.of_nat n)
    (write (fun w => WriteEOF 0 (fold_left (fun w i => WriteColumnDefinition [] [] [] (str "param" ++ itoa (Z.of_nat i)) [] 255 33 MYSQL_TYPE_VAR_STRING 0 0 w)
                                   (seq 0 n) w))).

(** The types that come with the values, or texts. *)
Fixpoint read_types (ps : list paramDesc) (data : bytes) : list paramDesc * bytes :=
  match ps, data with
  | _ :: rest, t :: f :: data => let '(ps, data) := read_types rest data in (mkParam (byte.unsigned t) (negb (Z.land (byte.unsigned f) 0x80 =? 0)) :: ps, data)
  | _, _ => (ps, data)
  end.
Definition param_types (ps : list paramDesc) (data : bytes) : list paramDesc * bytes :=
  match data with
  | b :: rest => if byte.unsigned b =? 1 then read_types ps rest else (map (fun _ => mkParam MYSQL_TYPE_VAR_STRING false) ps, data)
  | [] => (map (fun _ => mkParam MYSQL_TYPE_VAR_STRING false) ps, data)
  end.

Definition float32_of_Z (n : Z) : float64 := float_of_float32 (binary_normalize 24 128 n 0 false).
(** A value and the bytes it takes: integers are read without sign, and the
    bits of a floating-point number as an integer. *)
Definition readParamValue (data : bytes) (typ : Z) : outcome unit (GoData * Z) :=
  let field (n : nat) (f : Z -> GoData) : outcome unit (GoData * Z) :=
    if (length data <? n)%nat then Ok (GNil, 0) else Ok (f (get_le (take n data)), Z.of_nat n) in
  match data with
  | [] => Ok (GNil, 0)
  | _ =>
    if typ =? MYSQL_TYPE_TINY then field 1%nat (GInt KInt)
    else if one_of typ [MYSQL_TYPE_SHORT; MYSQL_TYPE_YEAR] then field 2%nat (GInt KInt)
    else if one_of typ [MYSQL_TYPE_LONG; MYSQL_TYPE_INT24] then field 4%nat (GInt KInt)
    else if typ =? MYSQL_TYPE_LONGLONG then field 8%nat (GInt KUint64)
    else if typ =? MYSQL_TYPE_FLOAT then field 4%nat (fun n => GFloat64 (float32_of_Z n))
    else if typ =? MYSQL_TYPE_DOUBLE then field 8%nat (fun n => GFloat64 (float_of_Z n))
    else
      let '(length_, n) := default (0, 0) (ReadLengthEncodedInt data) in
      let total := i64 (n + i64 length_) in
      if total <=? zlen data then s ← go_slice n total data; Ok (GString s, total) else Ok (GNil, 0)
  end.
Fixpoint read_values (i : nat) (ps : list paramDesc) (bitmap data : bytes) : outcome unit (list GoData) :=
  match ps with
  | [] => Ok []
  | p :: ps =>
    if Z.testbit (byte.unsigned (List.nth (i / 8) bitmap Byte.x00)) (Z.of_nat (i mod 8)) then
      vs ← read_values (S i) ps bitmap data; Ok (GNil :: vs)
    else
      '(v, n) ← readParamValue data (ptyp p);
      vs ← read_values (S i) ps bitmap (drop (Z.to_nat n) data); Ok (v :: vs)
  end.

Definition param_text (d : GoData) : bytes :=
  match d with
  | GNil => str "NULL"
  | GString s => str "'" ++ replace_all s (str "'") (str "''") ++ str "'"
  | GInt _ n => itoa n
  | GFloat32 f => fmt_float32 f
  | GFloat64 f => fmt_float64 f
  | d => str "'" ++ sprint_v d ++ str "'"
  end.
Definition replaceParameters (query : bytes) (values : list GoData) : bytes :=
  fold_left (fun q v => match index_byte question_mark q with
                        | Some i => take i q ++ param_text v ++ drop (S i) q
                        | None => q
                        end) values query.

Definition handleStmtExecute (data : bytes) : CM unit :=
  if (length data <? 9)%nat then write (WriteError 1210 (str "HY000") (str "Invalid statement execute packet"))
  else
    let id := get_le (take 4 data) in
    c ← gets client;
    match statements c !! id with
    | None => write (WriteError 1243 (str "42000") (str "Unknown prepared statement: " ++ itoa id))
    | Some stmt =>
      let size := ((numParams stmt + 7) / 8)%nat in
      let rest := drop 9 data in
      if (length rest <? size)%nat then write (WriteError 1210 (str "HY000") (str "Invalid parameter data"))
      else
        let '(ps, values) := param_types (params stmt) (drop size rest) in
        change_client (fun c => set_statements (<[id := mkPrepared (stmt_id stmt) (stmt_query stmt) (numParams stmt) ps]> (statements c)) c);;
        vs ← lift (read_values 0 ps (take size rest) values);
        run_statement true (replaceParameters (stmt_query stmt) vs)
    end.

Definition handleStmtClose (data : bytes) : CM unit :=
  if (length data <? 4)%nat then mret tt
  else change_client (fun c => set_statements (delete (get_le (take 4 data)) (statements c)) c).

(** *** The loop *)

Definition command (cmd : Z) (args : bytes) : CM unit :=
  if cmd =? COM_PING then write (WriteOK 0 0 0 0 [])
  else if cmd =? COM_QUERY then handleQuery args
  else if cmd =? COM_INIT_DB then change_client (set_database args);; write (WriteOK 0 0 0 0 [])
  else if cmd =? COM_FIELD_LIST then write (WriteEOF 0)
  else if cmd =? COM_STATISTICS then handleStatistics
  else if cmd =? COM_STMT_PREPARE then handleStmtPrepare args
  else if cmd =? COM_STMT_EXECUTE then handleStmtExecute args
  else if cmd =? COM_STMT_CLOSE then handleStmtClose args
  else write (WriteError 1047 (str "42000") (str "Unknown command: " ++ itoa cmd)).

(** Up to the end of the input or the command to quit; each packet takes at
    least four bytes of the input. *)
Fixpoint commandLoop (n : nat) (input : bytes) : CM unit :=
  match n with
  | O => mret tt
  | S n =>
    write (fun w => mkWriter (output w) 1);;
    match ReadPacket input with
    | None => mret tt
    | Some ([], input) => commandLoop n input
    | Some (cmd :: args, input) =>
      let cmd := byte.unsigned cmd in
      if cmd =? COM_QUIT then mret tt else command cmd args;; commandLoop n input
    end
  end.

Definition error_answer (c : Client) (message out : bytes) : bytes := output (WriteError 1045 (str "28000") message (mkWriter out (authSeq c))).

(** A connection with this salt: the session at its end. *)
Definition handleConnection (s : Server) (salt input : bytes) : outcome unit unit * Session :=
  let c := NewClient salt in
  let out := output (WritePacket (handshake_packet s c) (mkWriter [] 0)) in
  match ReadPacket input with
  | None => (Ok tt, mkSession s c (mkWriter out 0))
  | Some (data, input) =>
    let '(r, c, input, out) := handleAuth s c data input out in
    match r with
    | Ok _ => let out := output (WriteOK 0 0 0 0 [] (mkWriter out (authSeq c))) in
              commandLoop (S (length input)) input (mkSession s c (mkWriter out 1))
    | Err e => (Ok tt, mkSession s c (mkWriter (error_answer c e out) 0))
    | Panic => (Panic, mkSession s c (mkWriter out 0))
    | Hang => (Hang, mkSession s c (mkWriter out 0))
    end
  end.
End Server.
