(* ===== verification/ServerSpec.v ===== *)
(** * The MySQL server: who is let in, and what a client reads

    The exchange of passwords, and the result of a query as a client reads it
    from the packets. *)

From S2P Require Import Prelude GoLib Types RowCodec Page PageCache TableFile Crypto Json Wal Storage Functions Script Auth Ast Eval Select Dml Lexer Parser ParserDml Engine EngineExamples Protocol ProtocolSpec Server.
Local Open Scope Z_scope.

(** ** Passwords *)

Lemma lxor_byte a b : 0 <= a < 2 ^ 8 -> 0 <= b < 2 ^ 8 -> 0 <= Z.lxor a b < 2 ^ 8.
Proof.
  intros Ha Hb. replace (Z.lxor a b) with (Z.lxor a b mod 2 ^ 8); [apply Z.mod_pos_bound; lia|].
  apply Z.bits_inj'. intros n Hn. destruct (Z.ltb_spec n 8); [by rewrite Z.mod_pow2_bits_low|].
  rewrite <- (Z.mod_small a (2 ^ 8)), <- (Z.mod_small b (2 ^ 8)) by lia.
  by rewrite Z.lxor_spec, !Z.mod_pow2_bits_high by lia.
Qed.

Lemma byte_xor_involutive a b : byte_xor (byte_xor a b) b = a.
Proof.
  unfold byte_xor. pose proof (byte.unsigned_range a). pose proof (byte.unsigned_range b).
  rewrite unsigned_of_Z by (apply lxor_byte; lia). rewrite Z.lxor_assoc, Z.lxor_nilpotent, Z.lxor_0_r. apply byte.of_Z_unsigned.
Qed.

Lemma xor_bytes_involutive a b : (length a <= length b)%nat -> xor_bytes (xor_bytes a b) b = a.
Proof.
  unfold xor_bytes. revert b. induction a as [|x a IH]; intros [|y b] Hl; cbn [length] in Hl; try done; [lia|].
  cbn [zip_with]. rewrite byte_xor_involutive, IH by lia. done.
Qed.

Section Passwords.
Context `{Digests} (sha1_length : forall s, length (sha1 s) = 20%nat).

(** What a client that knows the digest of the password answers. *)
Definition native_answer (h salt : bytes) : bytes := xor_bytes h (sha1 (salt ++ sha1 h)).

Lemma NativePasswordAuth_answer p salt : p <> [] -> NativePasswordAuth p salt = native_answer (sha1 p) salt.
Proof. by destruct p. Qed.

Lemma length_native_answer h salt : length h = 20%nat -> length (native_answer h salt) = 20%nat.
Proof. intros Hh. unfold native_answer, xor_bytes. rewrite length_zip_with, sha1_length, Hh. done. Qed.

(** One answer, and no other, passes. *)
Lemma verify_native response salt h : length salt = 20%nat -> length h = 20%nat ->
  verifyMysqlNativePasswordWithSha1 response salt h = bool_decide (response = native_answer h salt).
Proof.
  intros Hs Hh. unfold verifyMysqlNativePasswordWithSha1. rewrite Hs, Hh, Nat.eqb_refl, !andb_true_r.
  destruct (Nat.eqb_spec (length response) 20) as [Hr|Hr].
  - unfold bytes_eqb. apply bool_decide_ext. unfold native_answer. set (K := sha1 (salt ++ sha1 h)).
    assert (length K = 20%nat) by apply sha1_length.
    split; intros E; [rewrite <- E|rewrite E]; rewrite xor_bytes_involutive by lia; done.
  - symmetry. apply bool_decide_eq_false. intros ->. by rewrite length_native_answer in Hr.
Qed.
End Passwords.

Section Login.
Context `{GoRuntime} `{FunctionRuntime} `{FullText} `{MapOrder} `{JSONRuntime} `{RecordJSON} `{Environment} `{ColumnJSON}
  `{Digests} `{!HostFiles} `{ServerRuntime} (fuel : nat) (sha1_length : forall s, length (sha1 s) = 20%nat).

Lemma parse_auth_salt c data c' response plugin : parse_auth c data = Ok (c', response, plugin) -> salt c' = salt c.
Proof.
  unfold parse_auth. repeat (destruct (_ <? _)%nat; [discriminate|]).
  destruct (cstring (drop 32 data)) as [user rest]. destruct (auth_response rest) as [r rest'].
  match goal with |- context [if ?b then cstring ?r else ?x] => destruct (if b then cstring r else x) as [d rest''] end. by intros [= <- _ _].
Qed.

(** Whom the exchange of packets lets in. *)
Lemma handleAuth_ok s c data input out c' response plugin h :
  IsEnabled (auth (engine s)) = true -> GetMySQLSha1 (auth (engine s)) = Some h -> length h = 20%nat -> length (salt c) = 20%nat ->
  parse_auth c data = Ok (c', response, plugin) ->
  (handleAuth s c data input out).1.1.1 = Ok tt <->
  wrong_user (auth (engine s)) c' = false /\
  ((plugin = AUTH_PLUGIN_NAME /\ response = native_answer h (salt c)) \/ exists rest, ReadPacket input = Some (native_answer h (salt c), rest)).
Proof.
  intros He Hh Hl Hs Hp. unfold handleAuth. rewrite Hp, He, andb_false_r, <- (parse_auth_salt _ _ _ _ _ Hp) in *. cbn [negb].
  destruct (wrong_user _ c') eqn:Hw; [by split; [|intros [? _]]|]. rewrite Hh.
  rewrite verify_native by done. unfold bytes_eqb.
  assert (Hsw : (sendAuthSwitchRequest s c' input out).1.1.1 = Ok tt <-> exists rest, ReadPacket input = Some (native_answer h (salt c'), rest)).
  { unfold sendAuthSwitchRequest. destruct (ReadPacket input) as [[r rest]|]; [|by split; [|intros [? ?]]].
    cbn [fst]. unfold switched. rewrite He, Hw, Hh, verify_native by done.
    case_bool_decide as E; split; try done; [intros _; exists rest; by rewrite E|]. by intros [? [= -> _]]. }
  case_bool_decide as Ep; [case_bool_decide as Er|]; [by split; [split; [|left]|]|..]; rewrite Hsw; (split; [by intros Hx; split; [|right]|]);
    intros [_ [[? ?]|Hx]]; done.
Qed.

(** C19: with a user and a password set, a client is let in exactly when
    it names the user and gives the answer that the password and the salt of
    the connection determine, at once with the native plugin or when it is
    asked for it. *)
Theorem login_iff s c data input out c' response plugin u p a :
  u <> [] -> p <> [] -> auth (engine s) = SetCredentials sha256 sha1 u p a -> length (salt c) = 20%nat ->
  parse_auth c data = Ok (c', response, plugin) ->
  (handleAuth s c data input out).1.1.1 = Ok tt <->
  cusername c' = u /\
  ((plugin = AUTH_PLUGIN_NAME /\ response = NativePasswordAuth p (salt c)) \/ exists rest, ReadPacket input = Some (NativePasswordAuth p (salt c), rest)).
Proof.
  intros Hu Hp Ha Hs Hd. rewrite NativePasswordAuth_answer by done.
  destruct p as [|b p]; [done|]. rewrite (handleAuth_ok s c data input out c' response plugin (sha1 (b :: p))); try done.
  - rewrite Ha. unfold wrong_user, GetUsername. cbn [username SetCredentials]. unfold bytes_eqb.
    rewrite (bool_decide_eq_false_2 (u = [])) by done. cbn [negb andb].
    rewrite negb_false_iff, bool_decide_eq_true. done.
  - rewrite Ha. unfold IsEnabled. cbn [enabled SetCredentials]. unfold bytes_eqb. by rewrite (bool_decide_eq_false_2 (u = [])).
  - by rewrite Ha.
Qed.

(** C17: with a password set, nothing a connection does changes the
    server, its tables or its counter of statements, unless the client named
    the user and gave the one answer that the stored digest and the salt
    determine. *)
Theorem login_needs_password s salt input h :
  IsEnabled (auth (engine s)) = true -> GetMySQLSha1 (auth (engine s)) = Some h -> length h = 20%nat -> length salt = 20%nat ->
  srv (handleConnection fuel s salt input).2 <> s ->
  exists data rest c response plugin,
    ReadPacket input = Some (data, rest) /\ parse_auth (NewClient salt) data = Ok (c, response, plugin) /\
    (GetUsername (auth (engine s)) = [] \/ cusername c = GetUsername (auth (engine s))) /\
    (response = native_answer h salt \/ exists rest', ReadPacket rest = Some (native_answer h salt, rest')).
Proof.
  intros He Hh Hl Hs. unfold handleConnection. destruct (ReadPacket input) as [[data rest]|] eqn:Hr; [|done].
  set (out := output _). destruct (handleAuth s (NewClient salt) data rest out) as [[[r c] i] o] eqn:Ea.
  destruct r as [[]|e| |]; try done. intros _.
  destruct (parse_auth (NewClient salt) data) as [[[c' response] plugin]|e| |] eqn:Hp; try (by unfold handleAuth in Ea; rewrite Hp in Ea).
  exists data, rest, c', response, plugin.
  destruct (proj1 (handleAuth_ok s (NewClient salt) data rest out c' response plugin h He Hh Hl Hs Hp)) as [Hw Hx]; [by rewrite Ea|].
  split_and!; [done|done| |].
  - unfold wrong_user, bytes_eqb in Hw. apply andb_false_iff in Hw as [Hw|Hw]; apply negb_false_iff, bool_decide_eq_true in Hw; auto.
  - destruct Hx as [[_ ->]|Hx]; auto.
Qed.
End Login.

(** ** The result of a query *)

Section Results.
Context `{ServerRuntime}.

Definition eof_packet : bytes := one_byte EOF_HEADER ++ one_byte 0 ++ one_byte 0 ++ put_le 2 0.
Definition name_packet (schema col : bytes) : bytes := definition_packet schema [] [] col col 255 33 MYSQL_TYPE_VAR_STRING 0 0.
Definition result_packets (schema : bytes) (cols : list bytes) (rows : list (list GoData)) : list bytes :=
  writeLengthEncodedInt (zlen cols) :: map (name_packet schema) cols ++ [eof_packet] ++ map (row_packet format_float) rows ++ [eof_packet].

Lemma name_packet_size schema col : zlen schema + 2 * zlen col < 2 ^ 23 -> zlen (name_packet schema col) < max_packet.
Proof.
  intros Hl. pose proof (zlen_nonneg schema). pose proof (zlen_nonneg col).
  assert (Hs : forall s, 0 <= zlen s -> zlen (writeLengthEncodedString s) <= 9 + zlen s).
  { intros s Hs. unfold writeLengthEncodedString. rewrite zlen_app, length_writeLengthEncodedInt. unfold lenenc_size. lenenc_cases (zlen s); lia. }
  assert (Hone : forall n, zlen (one_byte n) = 1) by done.
  unfold name_packet, definition_packet, writeUint16, writeUint32, max_packet. rewrite !zlen_app, !zlen_put_le, !Hone.
  pose proof (Hs schema). pose proof (Hs col). pose proof (Hs [] ltac:(done)). pose proof (Hs (str "def") ltac:(done)).
  change (zlen (str "def")) with 3 in *. change (zlen (@nil Init.Byte.byte)) with 0 in *. lia.
Qed.

(** What the client reads, where names and rows fit in their packets. *)
Lemma result_set_emits schema cols rows : Forall (fun col => zlen schema + 2 * zlen col < 2 ^ 23) cols ->
  Forall (row_fits format_float (length cols)) rows ->
  emits (result_set schema cols (WriteRowData format_float) rows) (result_packets schema cols rows).
Proof.
  intros Hc Hr. unfold result_set, result_packets.
  assert (Heof : emits (WriteEOF 0) [eof_packet]) by (by apply emits_packet, small_whole).
  change (writeLengthEncodedInt (zlen cols) :: ?l) with ([writeLengthEncodedInt (zlen cols)] ++ l). rewrite !app_assoc.
  apply (emits_then _ (WriteEOF 0)); [|done].
  apply (emits_then _ (fun w => fold_left (fun w r => WriteRowData format_float r w) rows w)).
  - apply (emits_then _ (WriteEOF 0)); [|done].
    apply (emits_then _ (fun w => fold_left (fun w col => column_definition schema col w) cols w)).
    + apply emits_packet, small_whole. rewrite length_writeLengthEncodedInt. unfold lenenc_size, max_packet. lenenc_cases (zlen cols); lia.
    + apply emits_fold, (Forall_impl _ _ _ Hc). intros col Hl. by apply emits_packet, small_whole, name_packet_size.
  - apply emits_fold, (Forall_impl _ _ _ Hr). intros r (_ & _ & _ & Hl). by apply emits_packet.
Qed.

Lemma decode_result_packets schema cols rows : cols <> [] -> zlen cols < 2 ^ 62 ->
  Forall (fun col => zlen schema + 2 * zlen col < 2 ^ 23) cols -> Forall (row_fits format_float (length cols)) rows ->
  decode_result (result_packets schema cols rows) = Some (cols, map (map (cell_text format_float)) rows).
Proof.
  intros Hne Hz Hc Hr. pose proof (zlen_nonneg cols). unfold decode_result, result_packets.
  rewrite <- (app_nil_r (writeLengthEncodedInt _)), ReadLengthEncodedInt_write by (unfold in_u64; lia). cbn [mbind option_bind].
  assert (Z.to_nat (zlen cols) = length (map (name_packet schema) cols)) as -> by (rewrite length_map; unfold zlen; lia).
  rewrite take_app_length, drop_app_length.
  assert (mapM column_name (map (name_packet schema) cols) = Some cols) as ->.
  { apply mapM_Some, Forall2_fmap_l, Forall_Forall2_diag, (Forall_impl _ _ _ Hc). intros col Hl.
    pose proof (zlen_nonneg schema). pose proof (zlen_nonneg col).
    apply column_name_definition. repeat constructor; change (zlen (@nil Init.Byte.byte)) with 0; lia. }
  cbn [mbind option_bind app]. change (is_eof eof_packet) with true. cbn [orb].
  rewrite length_map, decode_rows_packets; try done. by destruct cols.
Qed.
End Results.

Section Queries.
Context `{GoRuntime} `{FunctionRuntime} `{FullText} `{MapOrder} `{JSONRuntime} `{RecordJSON} `{Environment} `{ColumnJSON}
  `{Digests} `{!HostFiles} `{ServerRuntime} (fuel : nat).

(** A result with columns whose names and rows fit in packets. *)
Definition fits_packets (schema : bytes) (r : Result) : Prop :=
  IsExecutionResult r = false /\ RColumns r <> [] /\ zlen (RColumns r) < 2 ^ 62 /\
  Forall (fun col => zlen schema + 2 * zlen col < 2 ^ 23) (RColumns r) /\
  Forall (row_fits format_float (length (RColumns r))) (row_data r).

(** C18: where a query is not one that the server answers itself as a question
    about the schema, the engine's answer reaches the client if it is a result
    with columns: the messages that a client reads from the bytes that are
    written are the columns of the result and the rows, each value NULL or its
    text, an integer in decimal; the server goes on with the engine that ran
    the query, and the client of the connection is as it was. The names of the
    database and the columns are short (together below four megabytes), and
    the rows have no dates and times, which are sent as the empty text, and
    lengths that are no positive multiple of 16777215 ([row_fits]). *)
Theorem query_read_back query ss r e :
  handleInfoSchemaQuery fuel query (engine (srv ss)) = (Ok None, engine (srv ss)) ->
  Engine.Execute fuel query (engine (srv ss)) = (Ok r, e) ->
  fits_packets (cdatabase (client ss)) r ->
  exists ss' fr ps, handleQuery fuel query ss = (Ok tt, ss') /\ engine (srv ss') = e /\ client ss' = client ss /\
    output (writer ss') = output (writer ss) ++ fr /\
    (forall rest, client_messages (length ps) (next_sequence (writer ss)) (fr ++ rest) = Some (ps, next_sequence (writer ss'), rest)) /\
    decode_result ps = Some (RColumns r, map (map (cell_text format_float)) (row_data r)).
Proof.
  intros Hi Hx (He & Hc & Hz & Hn & Hr). destruct ss as [s c w]. cbn [srv client writer] in *.
  destruct (result_set_emits (cdatabase c) (RColumns r) (row_data r) Hn Hr w) as (fr & Ho & Hp).
  eexists _, fr, _. split.
  { unfold handleQuery. erewrite bind_ok by (unfold in_engine; cbn [srv]; rewrite Hi; reflexivity).
    unfold run_statement, in_engine. cbn [srv client writer engine set_engine]. rewrite Hx, He.
    destruct (RColumns r) eqn:Ec; [by destruct (Hc eq_refl)|]. rewrite <- Ec. reflexivity. }
  split_and!; [done|done|exact Ho|exact Hp|by apply decode_result_packets].
Qed.
End Queries.

(** ** A connection at work

    Digests of twenty zero bytes, and a server with the user admin. *)

Definition short_digests : Digests := {| sha256 := zero_digest; sha1 := fun _ => repeat Byte.x00 20 |}.
Definition plain_server_runtime : ServerRuntime := {| error_text := fun _ => str "error"; format_float := fun _ => []; unix_now := 0 |}.
#[local] Existing Instance short_digests.
#[local] Existing Instance plain_server_runtime.

Lemma short_length (s : bytes) : length (@sha1 short_digests s) = 20%nat.
Proof. done. Qed.

Definition zero_salt : bytes := repeat Byte.x00 20.
Definition admin_auth : Auth := SetCredentials sha256 sha1 (str "admin") (str "secret") NewAuth.
Definition admin_server : Server :=
  mkServer (set_auth admin_auth None memory_engine) 7 (str "5.7.42") 33 false 0.
(** What a client with the native plugin sends as its user and its answer. *)
Definition login_data (user answer : bytes) : bytes :=
  put_le 4 CLIENT_PLUGIN_AUTH ++ repeat Byte.x00 28 ++ user ++ one_byte 0 ++ one_byte (zlen answer) ++ answer ++ AUTH_PLUGIN_NAME ++ one_byte 0.
Definition sent (data : bytes) : bytes := output (WritePacket data (mkWriter [] 0)).
Definition people_server : Server :=
  mkServer (fold_left (fun e s => (Engine.Execute 10 (str s) e).2) people memory_engine) 7 (str "5.7.42") 33 false 0.

Lemma login_iff_witness :
  (handleAuth admin_server (NewClient zero_salt) (login_data (str "admin") zero_salt) [] []).1.1.1 = Ok tt /\
  (handleAuth admin_server (NewClient zero_salt) (login_data (str "eve") zero_salt) [] []).1.1.1 <> Ok tt.
Proof.
  destruct (parse_auth (NewClient zero_salt) (login_data (str "admin") zero_salt)) as [[[c r] p]|e| |] eqn:E; [|discriminate E..].
  destruct (parse_auth (NewClient zero_salt) (login_data (str "eve") zero_salt)) as [[[c' r'] p']|e| |] eqn:E'; [|discriminate E'..].
  pose proof (login_iff short_length admin_server (NewClient zero_salt) (login_data (str "admin") zero_salt) [] [] c r p
    (str "admin") (str "secret") NewAuth ltac:(discriminate) ltac:(discriminate) eq_refl eq_refl E) as H1.
  pose proof (login_iff short_length admin_server (NewClient zero_salt) (login_data (str "eve") zero_salt) [] [] c' r' p'
    (str "admin") (str "secret") NewAuth ltac:(discriminate) ltac:(discriminate) eq_refl eq_refl E') as H2.
  vm_compute in E, E'. injection E as <- <- <-. injection E' as <- <- <-. split.
  - apply H1. split; [reflexivity|]. left. split; vm_compute; reflexivity.
  - intros Hx. apply H2 in Hx as [Hx _]. discriminate Hx.
Defined.

(** The client prepares a statement, which counts. *)
Lemma login_needs_password_witness :
  exists response, native_answer zero_salt zero_salt = response /\
    srv (handleConnection 10 admin_server zero_salt (sent (login_data (str "admin") response) ++ sent (one_byte COM_STMT_PREPARE ++ str "SELECT ?"))).2 <> admin_server.
Proof.
  set (input := sent (login_data (str "admin") zero_salt) ++ sent (one_byte COM_STMT_PREPARE ++ str "SELECT ?")).
  assert (Hc : srv (handleConnection 10 admin_server zero_salt input).2 <> admin_server).
  { intros E. apply (f_equal stmtIDCounter) in E. vm_compute in E. discriminate E. }
  destruct (login_needs_password 10 short_length admin_server zero_salt input zero_salt ltac:(vm_compute; reflexivity) ltac:(vm_compute; reflexivity)
    eq_refl eq_refl Hc) as (data & rest & c & response & plugin & Hr & Hp & _ & Ha).
  exists zero_salt. split; [vm_compute; reflexivity|exact Hc].
Defined.

Definition adults_query : bytes := str "SELECT name, age FROM people WHERE age > 40".
Definition people_session : Session := mkSession people_server (NewClient zero_salt) (mkWriter [] 1).
Definition adults_run : outcome EngineError Result * Engine := Engine.Execute 10 adults_query (engine (srv people_session)).
Definition adults_result : Result := match adults_run.1 with Ok r => r | _ => done_result [] end.

Lemma adults_run_ok : Engine.Execute 10 adults_query (engine (srv people_session)) = (Ok adults_result, (Engine.Execute 10 adults_query (engine (srv people_session))).2).
Proof. apply run_answer. vm_compute. reflexivity. Qed.
Lemma adults_result_shown : IsExecutionResult adults_result = false /\ RColumns adults_result = map str ["name"; "age"]%string /\
  row_data adults_result = [[GString (str "dan"); GInt KInt64 41]].
Proof. vm_compute. auto. Qed.
Lemma adults_not_schema : handleInfoSchemaQuery 10 adults_query (engine (srv people_session)) = (Ok None, engine (srv people_session)).
Proof. generalize (engine (srv people_session)). intros e. reflexivity. Qed.
Lemma adults_result_fits : fits_packets (cdatabase (client people_session)) adults_result.
Proof.
  destruct adults_result_shown as (He & Hc & Hd). unfold fits_packets. rewrite Hc, Hd.
  split_and!; [exact He|discriminate|reflexivity| |]; repeat constructor; vm_compute; congruence.
Qed.

Lemma query_read_back_witness :
  exists ss' fr ps, handleQuery 10 adults_query people_session = (Ok tt, ss') /\
    output (writer ss') = output (writer people_session) ++ fr /\ 
    (forall rest, exists next, client_messages (length ps) (next_sequence (writer people_session)) (fr ++ rest) = Some (ps, next, rest)) /\
    decode_result ps = Some (map str ["name"; "age"]%string, [[Some (str "dan"); Some (str "41")]]).
Proof.
  destruct (query_read_back 10 adults_query people_session adults_result _ adults_not_schema adults_run_ok adults_result_fits)
    as (ss' & fr & ps & Hq & _ & _ & Ho & Hp & Hres).
  destruct adults_result_shown as (_ & Hc & Hd). rewrite Hc, Hd in Hres.
  exists ss', fr, ps. split_and!; [exact Hq|exact Ho|intros rest; eexists; exact (Hp rest)|exact Hres].
Defined.

(** ** What else the code does *)

(** With a password but without its second digest, as in settings that an
    older program saved, any answer is let in. *)
Definition old_settings_server : Server :=
  mkServer (set_auth (mkAuth (str "admin") (hashPassword sha256 (str "secret")) None true) None memory_engine) 7 (str "5.7.42") 33 true 0.
Example no_digest_no_password :
  (handleAuth old_settings_server (NewClient zero_salt) (login_data (str "admin") (str "wrong")) [] []).1.1.1 = Ok tt.
Proof. vm_compute. reflexivity. Qed.

(** A length beyond the signed integers ends the process. *)
Example huge_length_panics : readParamValue (one_byte 0xfe ++ repeat Byte.xff 8) MYSQL_TYPE_VAR_STRING = Panic.
Proof. vm_compute. reflexivity. Qed.
(** The four bytes of -1, and those of the floating-point number 1. *)
Example negative_parameter : readParamValue (repeat Byte.xff 4) MYSQL_TYPE_LONG = Ok (GInt KInt 4294967295, 4).
Proof. vm_compute. reflexivity. Qed.
Example float_parameter : readParamValue (put_le 4 0x3f800000) MYSQL_TYPE_FLOAT = Ok (GFloat64 (float_of_Z 1065353216), 4).
Proof. vm_compute. reflexivity. Qed.
(** A question mark in a value takes the next value. *)
Example mark_in_value : replaceParameters (str "SELECT ?, ?") [GString (str "?"); GString (str "x")] = str "SELECT ''x'', ?".
Proof. vm_compute. reflexivity. Qed.
(** A backslash before the quote that ends a value: what follows is not in
    the value any more. *)
Definition one_backslash : bytes := [byte.of_Z 92].
Example backslash_in_value :
  replaceParameters (str "SELECT ?, ?") [GString one_backslash; GString (str ", 7 -- ")] = str "SELECT '" ++ one_backslash ++ str "', ', 7 -- '".
Proof. vm_compute. reflexivity. Qed.
(** The word in a text keeps a statement from being executed. *)
Example insert_taken_for_schema :
  (handleInfoSchemaQuery 10 (str "INSERT INTO people (name) VALUES ('key_column_usage')") memory_engine).1 <> Ok None.
Proof. vm_compute. discriminate. Qed.
Example time_is_shown_empty t : anyToString format_float (GTime t) = [].
Proof. reflexivity. Qed.
(** After contents of exactly the largest length a client takes the next
    message for their end. *)
Example largest_packet_alone data data' : zlen data = max_packet -> whole data' ->
  emits (fun w => WritePacket data' (WritePacket data w)) [data ++ data'].
Proof. apply largest_packet_runs_on. Qed.
