(* ===== verification/Dsn.v ===== *)
(** * Data source names (driver/dsn.go)

    Where a database is: in memory, in a directory, or on a server reached by
    SSH, SMB or WebDAV, as a text and as a record. *)

From S2P Require Import Prelude GoLib Types Functions Url.
Local Open Scope Z_scope.

(** The home directory, where the system knows one, and filepath.Join. *)
Class HomeDirectory := { user_home : option bytes; path_join : bytes -> bytes -> bytes }.

Record SSHConfig := mkSSH {
  ssh_host : bytes; ssh_port : Z; ssh_user : bytes; ssh_password : bytes;
  PrivateKey : bytes; Passphrase : bytes; ssh_timeout : Z
}.
Record SMBConfig := mkSMB {
  smb_host : bytes; smb_port : Z; Share : bytes; smb_user : bytes; smb_password : bytes; Domain : bytes; smb_timeout : Z
}.
Record WebDAVConfig := mkWebDAV { dav_url : bytes; dav_user : bytes; dav_password : bytes; dav_timeout : Z }.

Record DSN := mkDSN {
  dsn_path : bytes;
  dsn_memory : bool;
  EncryptPassword : bytes;
  SSH : option SSHConfig;
  SMB : option SMBConfig;
  WebDAV : option WebDAVConfig
}.
Definition local_dsn (path encrypt : bytes) : DSN := mkDSN path false encrypt None None None.

Inductive DSNError :=
  | InvalidDSN (kind : bytes) (e : URLError)      (* invalid SSH DSN: ... *)
  | WrongScheme (got : bytes)
  | PortTooLarge
  | UserRequired | SharesRequired | PathRequired (kind : bytes)
  | InvalidTimeout
  | HostRequired | PasswordOrKeyRequired | DAVURLRequired.

Section DSN.
Context `{GoRuntime} `{HomeDirectory}.

Abbreviation DM := (outcome DSNError).

Definition url_of (kind : string) (dsn : bytes) : DM URL :=
  match Parse_URL dsn with
  | Ok u => Ok u
  | Err e => Err (InvalidDSN (str kind) e)
  | Panic => Panic
  | Hang => Hang
  end.
Definition port_of (default_port : Z) (u : URL) : DM Z :=
  match Port_ u with [] => Ok default_port | p => match parse_int p with Some n => Ok n | None => Err PortTooLarge end end.
(** The name and the password of the user, empty where there are none. *)
Definition user_of (u : URL) : bytes * bytes :=
  match User u with Some (mkUser n p) => (n, default [] p) | None => ([], []) end.
Definition timeout_of (q : bytes) : DM Z :=
  match query_get (str "timeout") q with
  | [] => Ok (30 * 10 ^ 9)
  | t => match ParseDuration t with Some d => Ok d | None => Err InvalidTimeout end
  end.
(** The path without the slash it starts with. *)
Definition url_path (u : URL) : bytes := trim_prefix (str "/") (Path_ u).

Definition expandPath (path : bytes) : bytes :=
  if has_prefix (str "~/") path then match user_home with Some home => path_join home (drop 2 path) | None => path end else path.

Definition or_else (x y : bytes) : bytes := match x with [] => y | _ => x end.

Definition parseSSHDSN (dsn : bytes) : DM DSN :=
  u ← url_of "SSH" dsn;
  if negb (bytes_eqb (Scheme u) (str "ssh")) then Err (WrongScheme (Scheme u))
  else
    port ← port_of 22 u;
    let '(user, pass) := user_of u in
    if bytes_eqb user [] then Err UserRequired
    else
      let q := RawQuery u in
      let key := match query_get (str "private_key") q with [] => [] | k => expandPath k end in
      let key := or_else (query_get (str "private_key_data") q) key in
      timeout ← timeout_of q;
      match url_path u with
      | [] => Err (PathRequired (str "SSH"))
      | path => Ok (mkDSN path false [] (Some (mkSSH (Hostname u) port user pass key (query_get (str "passphrase") q) timeout)) None None)
      end.

Definition parseSMBDSN (dsn : bytes) : DM DSN :=
  u ← url_of "SMB" dsn;
  if negb (bytes_eqb (Scheme u) (str "smb")) then Err (WrongScheme (Scheme u))
  else
    port ← port_of 445 u;
    let '(user, pass) := user_of u in
    if bytes_eqb user [] then Err UserRequired
    else
      match cut 47 (url_path u) with
      | ([], _) => Err SharesRequired
      | (_, None) | (_, Some []) => Err (PathRequired (str "SMB"))
      | (share, Some path) =>
        let q := RawQuery u in
        timeout ← timeout_of q;
        Ok (mkDSN path false [] None (Some (mkSMB (Hostname u) port share user pass (query_get (str "domain") q) timeout)) None)
      end.

Definition parseWebDAVDSN (dsn : bytes) : DM DSN :=
  u ← url_of "WebDAV" dsn;
  if negb (bytes_eqb (Scheme u) (str "webdav") || bytes_eqb (Scheme u) (str "webdavs")) then Err (WrongScheme (Scheme u))
  else
    let url := (if bytes_eqb (Scheme u) (str "webdavs") then str "https" else str "http") ++ str "://" ++ Host u in
    let '(user, pass) := user_of u in
    if bytes_eqb user [] then Err UserRequired
    else
      match url_path u with
      | [] => Err (PathRequired (str "WebDAV"))
      | path => timeout ← timeout_of (RawQuery u); Ok (mkDSN path false [] None None (Some (mkWebDAV url user pass timeout)))
      end.

Definition ParseDSN (dsn : bytes) : DM DSN :=
  if bytes_eqb dsn (str ":memory:") then Ok (mkDSN [] true [] None None None)
  else if has_prefix (str "ssh://") dsn then parseSSHDSN dsn
  else if has_prefix (str "smb://") dsn then parseSMBDSN dsn
  else if has_prefix (str "webdav://") dsn || has_prefix (str "webdavs://") dsn then parseWebDAVDSN dsn
  else
    match cut 63 (trim_prefix (str "file:") dsn) with
    | (path, Some q) => Ok (local_dsn path (if query_good q then query_get (str "encrypt") q else []))
    | (path, None) => Ok (local_dsn path [])
    end.
End DSN.

(** ** Back to a text *)

Definition host_port (host : bytes) (port : Z) : bytes := host ++ str ":" ++ itoa port.
(** A password that is empty is none. *)
Definition user_info (user pass : bytes) : Userinfo := mkUser user (match pass with [] => None | _ => Some pass end).

Definition BuildSSHDSN (host : bytes) (port : Z) (username password privateKey dbPath : bytes) : bytes :=
  url_text (str "ssh") (user_info username password) (host_port host port) (str "/" ++ dbPath)
    (match privateKey with [] => [] | _ => query_encode (str "private_key") privateKey end).

Definition DSN_String (d : DSN) : bytes :=
  if dsn_memory d then str ":memory:"
  else match SSH d, SMB d, WebDAV d with
       | Some c, _, _ => BuildSSHDSN (ssh_host c) (ssh_port c) (ssh_user c) (ssh_password c) (PrivateKey c) (dsn_path d)
       | None, Some c, _ => url_text (str "smb") (user_info (smb_user c) (smb_password c)) (host_port (smb_host c) (smb_port c))
                              (str "/" ++ Share c ++ str "/" ++ dsn_path d) []
       | None, None, Some c =>
         url_text (if has_prefix (str "https://") (dav_url c) then str "webdavs" else str "webdav") (user_info (dav_user c) (dav_password c))
           (trim_prefix (str "https://") (trim_prefix (str "http://") (dav_url c))) (str "/" ++ dsn_path d) []
       | None, None, None => dsn_path d
       end.

Definition IsRemote (d : DSN) : bool :=
  match SSH d, SMB d, WebDAV d with None, None, None => false | _, _, _ => true end.

(** The first thing that is missing. *)
Definition Validate (d : DSN) : outcome DSNError unit :=
  if dsn_memory d then Ok tt
  else if bytes_eqb (dsn_path d) [] then Err (PathRequired [])
  else
    _ ← match SSH d with
        | Some c => if bytes_eqb (ssh_host c) [] then Err HostRequired
                    else if bytes_eqb (ssh_user c) [] then Err UserRequired
                    else if bytes_eqb (ssh_password c) [] && bytes_eqb (PrivateKey c) [] then Err PasswordOrKeyRequired
                    else Ok tt
        | None => Ok tt
        end;
    _ ← match SMB d with
        | Some c => if bytes_eqb (smb_host c) [] then Err HostRequired
                    else if bytes_eqb (smb_user c) [] then Err UserRequired
                    else if bytes_eqb (Share c) [] then Err SharesRequired
                    else Ok tt
        | None => Ok tt
        end;
    match WebDAV d with
    | Some c => if bytes_eqb (dav_url c) [] then Err DAVURLRequired
                else if bytes_eqb (dav_user c) [] then Err UserRequired
                else Ok tt
    | None => Ok tt
    end.
