(* ===== verification/DsnSpec.v ===== *)
(** * Data source names: a name is read back from its text

    Escaping and unescaping, the parts of a URL, and the names of the four
    kinds. *)

From S2P Require Import Prelude GoLib Types Functions Url Dsn.
Local Open Scope Z_scope.

(** ** Bytes that are written *)

(** What the escape of a text is made of. *)
Definition written (mode : Encoding) (b : byte) : bool := negb (shouldEscape b mode) || is_char 37 b || is_char 43 b.
Definition no_char (n : Z) (s : bytes) : Prop := Forall (fun b => is_char n b = false) s.
(** Bytes a main part of a URL may have. *)
Definition clean_byte (b : byte) : bool := negb (is_ctl b) && negb (is_char 35 b).

Ltac all_bytes b := destruct b; vm_compute; try reflexivity; try discriminate; auto.

Lemma written_path b : written EncPath b = true -> clean_byte b = true /\ is_char 63 b = false.
Proof. all_bytes b. Qed.
Lemma written_user b : written EncUserPassword b = true ->
  clean_byte b = true /\ is_char 63 b = false /\ is_char 47 b = false /\ is_char 58 b = false /\ validUserinfo [b] = true.
Proof. all_bytes b. Qed.
Lemma written_query b : written EncQueryComponent b = true -> clean_byte b = true /\ is_char 38 b = false /\ is_char 59 b = false /\ is_char 61 b = false.
Proof. all_bytes b. Qed.

Lemma escape_byte_written mode b : Forall (fun c => written mode c = true) (escape_byte mode b).
Proof.
  unfold escape_byte. destruct (shouldEscape b mode) eqn:E; [|repeat constructor; unfold written; by rewrite E].
  assert (Hx : forall d, 0 <= d < 16 -> written mode (upper_hex d) = true).
  { intros d Hd. unfold written, shouldEscape, upper_hex, is_letter, is_digit, in_range. destruct (Z.ltb_spec d 10);
      rewrite byte.unsigned_of_Z; unfold byte.wrap; rewrite Z.mod_small by lia.
    - replace (48 <=? 48 + d) with true by lia. replace (48 + d <=? 57) with true by lia. by rewrite !orb_true_r.
    - replace (65 <=? 55 + d) with true by lia. replace (55 + d <=? 90) with true by lia. done. }
  pose proof (byte.unsigned_range b).
  assert (Hb : Forall (fun c => written mode c = true) [byte.of_Z 37; upper_hex (byte.unsigned b / 16); upper_hex (byte.unsigned b mod 16)]).
  { repeat constructor; [by destruct mode|apply Hx|apply Hx]; [|apply Z.mod_pos_bound; lia].
    split; [apply Z.div_pos; lia|apply Z.div_lt_upper_bound; lia]. }
  destruct mode; try exact Hb. destruct (is_char 32 b); [by repeat constructor|exact Hb].
Qed.
Lemma escape_written mode s : Forall (fun c => written mode c = true) (escape mode s).
Proof.
  unfold escape. induction s as [|b s IH]; [constructor|]. cbn [map concat]. apply Forall_app. split; [apply escape_byte_written|exact IH].
Qed.

Lemma unescape_escape_byte mode b t : is_host mode = false ->
  match mode with EncFragment => False | _ => True end ->
  unescape mode (escape_byte mode b ++ t) = (r ← unescape mode t; Ok (b :: r)).
Proof. destruct mode; try done; intros _ _; destruct b; reflexivity. Qed.
Lemma unescape_escape mode s : is_host mode = false -> match mode with EncFragment => False | _ => True end ->
  unescape mode (escape mode s) = Ok s.
Proof.
  intros Hh Hf. unfold escape. induction s as [|b s IH]; [done|]. cbn [map concat].
  rewrite unescape_escape_byte by done. by rewrite IH.
Qed.

(** ** Cutting *)

Lemma is_char_of_Z n : 0 <= n < 256 -> is_char n (byte.of_Z n) = true.
Proof. intros Hn. unfold is_char. rewrite byte.unsigned_of_Z. unfold byte.wrap. rewrite Z.mod_small by lia. apply Z.eqb_refl. Qed.

Lemma cut_here n a c s : no_char n a -> is_char n c = true -> cut n (a ++ c :: s) = (a, Some s).
Proof. intros Ha Hc. induction Ha as [|b a Hb _ IH]; cbn [app cut]; [by rewrite Hc|]. by rewrite Hb, IH. Qed.
Lemma cut_none n a : no_char n a -> cut n a = (a, None).
Proof. induction 1 as [|b a Hb _ IH]; cbn [cut]; [done|]. by rewrite Hb, IH. Qed.
Lemma cut_last_none n a : no_char n a -> cut_last n a = None.
Proof. induction 1 as [|b a Hb _ IH]; cbn [cut_last]; [done|]. by rewrite IH, Hb. Qed.
Lemma cut_last_here n a c s : is_char n c = true -> no_char n s -> cut_last n (a ++ c :: s) = Some (a, s).
Proof.
  intros Hc Hs. induction a as [|b a IH]; cbn [app cut_last]; [by rewrite cut_last_none, Hc|]. by rewrite IH.
Qed.

(** ** Hosts *)

(** Bytes of a host that are written as they are and have no meaning. *)
Definition host_byte (b : byte) : bool := negb (shouldEscape b EncHost) && negb (is_char 91 b) && negb (is_char 93 b).
Lemma host_byte_facts b : host_byte b = true ->
  escape_byte EncHost b = [b] /\ clean_byte b = true /\ is_char 63 b = false /\ is_char 47 b = false /\ is_char 64 b = false /\
  is_char 91 b = false /\ is_char 37 b = false /\ shouldEscape b EncHost = false.
Proof. all_bytes b; repeat split. Qed.
Definition host_bytes (h : bytes) : Prop := Forall (fun b => host_byte b = true) h.

Lemma escape_host h : host_bytes h -> escape EncHost h = h.
Proof.
  unfold escape. induction 1 as [|b h Hb _ IH]; [done|]. cbn [map concat].
  destruct (host_byte_facts b Hb) as (-> & _). by rewrite IH.
Qed.
Lemma unescape_host h : host_bytes h -> unescape EncHost h = Ok h.
Proof.
  induction 1 as [|b h Hb _ IH]; [done|]. cbn [unescape]. destruct (host_byte_facts b Hb) as (_ & _ & _ & _ & _ & _ & -> & ->).
  rewrite andb_false_r, IH. done.
Qed.

(** A port, where there is one, is digits. *)
Definition host_ok (h : bytes) : Prop :=
  host_bytes h /\ match cut_last 58 h with Some (_, p) => forallb is_digit p = true | None => True end.

Lemma parseHost_ok h : host_ok h -> parseHost h = Ok h.
Proof.
  intros [Hh Hp]. unfold parseHost. destruct h as [|b h]; [done|].
  destruct (host_byte_facts b) as (_ & _ & _ & _ & _ & -> & _); [by inversion Hh|].
  destruct (cut_last 58 (b :: h)) as [[u p]|]; [|by apply unescape_host].
  cbn [validOptionalPort]. rewrite is_char_of_Z, Hp by lia. by apply unescape_host.
Qed.

Lemma is_digit_byte d : 0 <= d < 10 -> is_digit (digit_byte d) = true /\ host_byte (digit_byte d) = true /\ is_char 58 (digit_byte d) = false.
Proof.
  intros Hd. assert (d = 0 \/ d = 1 \/ d = 2 \/ d = 3 \/ d = 4 \/ d = 5 \/ d = 6 \/ d = 7 \/ d = 8 \/ d = 9) as Hc by lia.
  by repeat destruct Hc as [-> | Hc]; [..|subst d].
Qed.
Lemma digits_fuel_forall (P : byte -> Prop) fuel z acc : (forall d, 0 <= d < 10 -> P (digit_byte d)) -> Forall P acc -> 0 <= z -> Forall P (digits_fuel fuel z acc).
Proof.
  intros Hd. revert z acc. induction fuel as [|f IH]; intros z acc Ha Hz; cbn [digits_fuel]; [done|].
  assert (P (digit_byte (z mod 10))) by (apply Hd, Z.mod_pos_bound; lia).
  destruct (z <? 10); [by constructor|]. apply IH; [by constructor|]. apply Z.div_pos; lia.
Qed.
Lemma itoa_forall (P : byte -> Prop) z : (forall d, 0 <= d < 10 -> P (digit_byte d)) -> 0 <= z -> Forall P (itoa z).
Proof. intros Hd Hz. unfold itoa. rewrite (proj2 (Z.ltb_ge z 0)) by done. by apply digits_fuel_forall. Qed.

Lemma host_port_cut h port : 0 <= port -> cut_last 58 (host_port h port) = Some (h, itoa port).
Proof.
  intros Hp. unfold host_port. apply (cut_last_here 58 h (byte.of_Z 58)); [by apply is_char_of_Z|].
  apply itoa_forall; [|done]. intros d Hd. apply (is_digit_byte d Hd).
Qed.
Lemma itoa_digits port : 0 <= port -> forallb is_digit (itoa port) = true.
Proof.
  intros Hp. apply forallb_forall. apply List.Forall_forall, itoa_forall; [|done]. intros d Hd. apply (is_digit_byte d Hd).
Qed.
Lemma host_port_ok h port : host_bytes h -> 0 <= port -> host_ok (host_port h port).
Proof.
  intros Hh Hp. split; [|rewrite host_port_cut by done; by apply itoa_digits].
  unfold host_port, host_bytes. rewrite !Forall_app. split_and!; [done|by repeat constructor|].
  apply itoa_forall; [|done]. intros d Hd. apply (is_digit_byte d Hd).
Qed.

(** ** A URL that is written *)

Lemma Forall_no_char n (P : byte -> Prop) s : Forall P s -> (forall b, P b -> is_char n b = false) -> no_char n s.
Proof. intros Hs Hn. eapply Forall_impl; [exact Hs|exact Hn]. Qed.

Lemma user_text_bytes u : Forall (fun b => written EncUserPassword b = true \/ b = byte.of_Z 58) (user_text u).
Proof.
  assert (He : forall s, Forall (fun b => written EncUserPassword b = true \/ b = byte.of_Z 58) (escape EncUserPassword s)).
  { intros s. eapply Forall_impl; [apply escape_written|]. by left. }
  destruct u as [n [p|]]; cbn [user_text]; [|by destruct n].
  repeat apply Forall_app_2; [apply He|by repeat constructor; right|apply He].
Qed.

(** A user whose name is not empty. *)
Lemma parse_user_text u : user_name u <> [] -> parse_user (user_text u) = Ok u.
Proof.
  intros Hn. unfold parse_user.
  assert (validUserinfo (user_text u) = true) as ->.
  { apply forallb_forall, List.Forall_forall. eapply Forall_impl; [apply user_text_bytes|].
    intros b [Hb| ->]; [|done]. destruct (written_user b Hb) as (_ & _ & _ & _ & Hv). unfold validUserinfo in Hv. cbn [forallb] in Hv. by rewrite andb_true_r in Hv. }
  cbn [negb].
  assert (Hc : forall s, no_char 58 (escape EncUserPassword s)).
  { intros s. eapply Forall_no_char; [apply escape_written|]. intros b Hb. apply (written_user b Hb). }
  destruct u as [n [p|]]; cbn [user_text user_name] in *.
  - change (str ":" ++ ?x) with (byte.of_Z 58 :: x). rewrite cut_here by (apply Hc || done). by rewrite !unescape_escape.
  - destruct n as [|c n]; [done|]. by rewrite cut_none, unescape_escape.
Qed.

Lemma user_text_no n u : (forall b, written EncUserPassword b = true -> is_char n b = false) -> is_char n (byte.of_Z 58) = false -> no_char n (user_text u).
Proof. intros Hb Hc. eapply Forall_no_char; [apply user_text_bytes|]. intros b [Hw| ->]; auto. Qed.
Lemma user_text_clean u : Forall (fun b => clean_byte b = true) (user_text u).
Proof. eapply Forall_impl; [apply user_text_bytes|]. intros b [Hb| ->]; [apply (written_user b Hb)|done]. Qed.

(** A scheme before a colon. *)
Definition scheme_ok (scheme : bytes) : Prop :=
  (forall rest, getScheme (scheme ++ str ":" ++ rest) = Ok (scheme, rest)) /\ map lower_byte scheme = scheme /\ scheme <> [] /\
  Forall (fun b => clean_byte b = true) scheme.

Lemma clean_url s : Forall (fun b => clean_byte b = true) s -> existsb is_ctl s = false /\ cut 35 s = (s, None).
Proof.
  intros Hs. split.
  - apply not_true_iff_false. intros Hx. apply existsb_exists in Hx as (b & Hb & Hc). rewrite List.Forall_forall in Hs.
    specialize (Hs b Hb). unfold clean_byte in Hs. by rewrite Hc in Hs.
  - apply cut_none. eapply Forall_no_char; [exact Hs|]. intros b Hb. unfold clean_byte in Hb. apply andb_true_iff in Hb as [_ Hb]. by apply negb_true_iff.
Qed.

Lemma authority_parsed u h : user_name u <> [] -> host_ok h -> parseAuthority (user_text u ++ str "@" ++ h) = Ok (Some u, h).
Proof.
  intros Hu Hh. unfold parseAuthority. change (str "@" ++ h) with (byte.of_Z 64 :: h). rewrite cut_last_here; [|done|].
  - rewrite parseHost_ok by done. cbn. by rewrite parse_user_text.
  - destruct Hh as [Hh _]. eapply Forall_no_char; [exact Hh|]. intros b Hb. apply (host_byte_facts b Hb).
Qed.

Lemma Parse_URL_text scheme u h p q : scheme_ok scheme -> user_name u <> [] -> host_ok h ->
  Forall (fun b => clean_byte b = true) q ->
  Parse_URL (url_text scheme u h (str "/" ++ p) q) = Ok (mkURL scheme [] (Some u) h (str "/" ++ p) q).
Proof.
  intros (Hs & Hl & Hne & Hsc) Hu Hh Hq. unfold Parse_URL, url_text. destruct Hh as [Hb Hp].
  assert (has_prefix (str "/") (str "/" ++ p) = true) as -> by done. cbn [orb]. rewrite escape_host by done.
  change (escape EncPath (str "/" ++ p)) with (str "/" ++ escape EncPath p).
  set (ep := escape EncPath p). set (tail := match q with [] => [] | _ => str "?" ++ q end).
  assert (Hep : Forall (fun b => clean_byte b = true) ep).
  { eapply Forall_impl; [apply escape_written|]. intros b Hw. apply (written_path b Hw). }
  assert (Hclean : Forall (fun b => clean_byte b = true) (scheme ++ str "://" ++ user_text u ++ str "@" ++ h ++ [] ++ (str "/" ++ ep) ++ tail)).
  { repeat apply Forall_app_2; try done; try (by repeat constructor).
    - apply user_text_clean.
    - eapply Forall_impl; [exact Hb|]. intros b Hx. apply (host_byte_facts b Hx).
    - subst tail. destruct q; [constructor|]. apply Forall_app_2; [by repeat constructor|done]. }
  destruct (clean_url _ Hclean) as [Hctl Hcut]. rewrite Hcut. cbn [app] in *.
  unfold parse_url. rewrite Hctl. unfold bytes_eqb at 1. rewrite bool_decide_eq_false_2
    by (intros E; apply (f_equal length) in E; rewrite length_app in E; cbn in E; lia).
  change (str "://" ++ ?x) with (str ":" ++ (str "//" ++ x)). rewrite Hs. cbn [mbind outcome_bind]. rewrite Hl.
  set (auth := user_text u ++ str "@" ++ h).
  assert (Hnq : no_char 63 (str "//" ++ auth ++ str "/" ++ ep)).
  { subst auth ep. repeat apply Forall_app_2; try (by repeat constructor).
    - apply user_text_no; [|done]. intros b Hw. apply (written_user b Hw).
    - eapply Forall_impl; [exact Hb|]. intros b Hx. apply (host_byte_facts b Hx).
    - eapply Forall_impl; [apply escape_written|]. intros b Hw. apply (written_path b Hw). }
  replace (str "//" ++ user_text u ++ str "@" ++ h ++ (str "/" ++ ep) ++ tail) with ((str "//" ++ auth ++ str "/" ++ ep) ++ tail)
    by (unfold auth; by rewrite <- !app_assoc).
  assert (exists o, cut 63 ((str "//" ++ auth ++ str "/" ++ ep) ++ tail) = (str "//" ++ auth ++ str "/" ++ ep, o) /\ default [] o = q) as (o & -> & Ho).
  { subst tail. destruct q as [|c q]; [exists None; by rewrite app_nil_r, cut_none|].
    exists (Some (c :: q)). split; [by apply cut_here|done]. }
  rewrite Ho. replace (has_prefix (str "/") (str "//" ++ auth ++ str "/" ++ ep)) with true by done.
  replace (has_prefix (str "//") (str "//" ++ auth ++ str "/" ++ ep)) with true by done.
  unfold bytes_eqb at 1 2. rewrite bool_decide_eq_false_2 by done. cbn [negb andb orb].
  change (drop 2 (str "//" ++ auth ++ str "/" ++ ep)) with (auth ++ byte.of_Z 47 :: ep).
  rewrite cut_here; [|subst auth; repeat apply Forall_app_2|done].
  - unfold auth. rewrite authority_parsed by done. cbn [mbind outcome_bind].
    change (byte.of_Z 47 :: ep) with (escape EncPath (str "/" ++ p)). by rewrite unescape_escape.
  - apply user_text_no; [|done]. intros b Hw. apply (written_user b Hw).
  - by repeat constructor.
  - eapply Forall_impl; [exact Hb|]. intros b Hx. apply (host_byte_facts b Hx).
Qed.

Lemma Hostname_text h port : host_bytes h -> 0 <= port -> splitHostPort (host_port h port) = (h, itoa port).
Proof.
  intros Hh Hp. unfold splitHostPort. rewrite host_port_cut by done. cbn [validOptionalPort].
  rewrite is_char_of_Z, itoa_digits by lia. cbn [andb]. destruct h as [|b h]; [done|].
  destruct (host_byte_facts b) as (_ & _ & _ & _ & _ & -> & _); [by inversion Hh|]. by destruct (reverse h).
Qed.

Lemma query_get_encode key k other : key <> [] -> escape EncQueryComponent key = key ->
  query_get other (query_encode key k) = if bytes_eqb key other then k else [].
Proof.
  intros Hne Hk. assert (Hw : forall s, Forall (fun b => written EncQueryComponent b = true) (escape EncQueryComponent s)) by apply escape_written.
  assert (Hno : forall n s, (forall b, written EncQueryComponent b = true -> is_char n b = false) -> no_char n (escape EncQueryComponent s)).
  { intros n s Hb. by eapply Forall_no_char. }
  unfold query_get. set (q := query_encode key k).
  assert (Hq : forall n, (forall b, written EncQueryComponent b = true -> is_char n b = false) -> is_char n (byte.of_Z 61) = false -> no_char n q).
  { intros n Hb Hc. subst q. unfold query_encode. repeat apply Forall_app_2; [by apply Hno|by repeat constructor|by apply Hno]. }
  cbn [split_on]. rewrite cut_none by (apply Hq; [intros b Hb; apply (written_query b Hb)|done]).
  assert (query_setting q = Some (key, k)) as Hs.
  { unfold query_setting. replace (has_byte 59 q) with false.
    - unfold bytes_eqb at 1. rewrite bool_decide_eq_false_2 by (subst q; unfold query_encode; rewrite Hk; by destruct key). cbn [orb].
      subst q. unfold query_encode. change (str "=" ++ ?x) with (byte.of_Z 61 :: x).
      rewrite cut_here; [|apply Hno; intros b Hb; apply (written_query b Hb)|done]. cbn [default]. unfold id. by rewrite !unescape_escape.
    - symmetry. apply not_true_iff_false. intros Hx. apply existsb_exists in Hx as (b & Hb & Hc).
      assert (no_char 59 q) as Hn by (apply Hq; [intros c Hc'; apply (written_query c Hc')|done]). unfold no_char in Hn. rewrite List.Forall_forall in Hn.
      by rewrite Hn in Hc. }
  cbn [omap list_omap]. rewrite Hs. cbn [List.find fst]. by destruct (bytes_eqb key other).
Qed.

Lemma escape_query_clean s : Forall (fun b => clean_byte b = true) (escape EncQueryComponent s).
Proof. eapply Forall_impl; [apply escape_written|]. intros b Hb. apply (written_query b Hb). Qed.
Lemma query_encode_clean key k : Forall (fun b => clean_byte b = true) (query_encode key k).
Proof. unfold query_encode. apply Forall_app_2; [apply escape_query_clean|]. apply Forall_app_2; [by repeat constructor|apply escape_query_clean]. Qed.

Lemma query_get_nil key : query_get key [] = [].
Proof. reflexivity. Qed.

(** ** Names *)

Section Names.
Context `{GoRuntime} `{HomeDirectory}.

(** A local path that is not taken for another name. *)
Definition local_path (path : bytes) : Prop :=
  path <> str ":memory:" /\ no_char 63 path /\ trim_prefix (str "file:") path = path /\
  Forall (fun p => has_prefix p path = false) [str "ssh://"; str "smb://"; str "webdav://"; str "webdavs://"].

(** How a name is read back: without the password for the encryption, the
    passphrase, the domain and the time limit, which its text leaves out. *)
Inductive read_as : DSN -> DSN -> Prop :=
  | ReadMemory path e ssh smb dav : read_as (mkDSN path true e ssh smb dav) (mkDSN [] true [] None None None)
  | ReadLocal path e : local_path path -> read_as (local_dsn path e) (local_dsn path [])
  | ReadSSH host port user pass key phrase timeout path e :
      host_bytes host -> 0 <= port < 2 ^ 63 -> user <> [] -> path <> [] -> expandPath key = key ->
      read_as (mkDSN path false e (Some (mkSSH host port user pass key phrase timeout)) None None)
              (mkDSN path false [] (Some (mkSSH host port user pass key [] (30 * 10 ^ 9))) None None)
  | ReadSMB host port share user pass domain timeout path e :
      host_bytes host -> 0 <= port < 2 ^ 63 -> user <> [] -> share <> [] -> no_char 47 share -> path <> [] ->
      read_as (mkDSN path false e None (Some (mkSMB host port share user pass domain timeout)) None)
              (mkDSN path false [] None (Some (mkSMB host port share user pass [] (30 * 10 ^ 9))) None)
  | ReadWebDAV (secure : bool) host user pass timeout path e :
      host_ok host -> user <> [] -> path <> [] ->
      let url := (if secure then str "https://" else str "http://") ++ host in
      read_as (mkDSN path false e None None (Some (mkWebDAV url user pass timeout)))
              (mkDSN path false [] None None (Some (mkWebDAV url user pass (30 * 10 ^ 9)))).

Lemma scheme_names : Forall scheme_ok [str "ssh"; str "smb"; str "webdav"; str "webdavs"].
Proof. repeat constructor. all: discriminate. Qed.

Lemma user_of_text scheme u h p q : user_of (mkURL scheme [] (Some u) h p q) = (user_name u, default [] (user_password u)).
Proof. by destruct u. Qed.
Lemma user_info_parts user pass : user_name (user_info user pass) = user /\ default [] (user_password (user_info user pass)) = pass.
Proof. by destruct pass. Qed.

Lemma port_of_text d scheme u h p q port : host_bytes h -> 0 <= port < 2 ^ 63 ->
  port_of d (mkURL scheme [] u (host_port h port) p q) = Ok port.
Proof.
  intros Hh Hp. unfold port_of, Port_. cbn [Host]. rewrite Hostname_text by (done || lia). cbn [snd].
  assert (itoa port <> []) as Hne.
  { unfold itoa. rewrite (proj2 (Z.ltb_ge port 0)) by lia. destruct (parse_digits_fuel 20 port []) as (k & _ & -> & Hk); [lia|]. rewrite app_nil_r. apply Hk. lia. }
  destruct (itoa port) as [|c t] eqn:E; [done|]. rewrite <- E, parse_int_itoa by (unfold in_i64; lia). done.
Qed.

Lemma path_of_text scheme u h p q : url_path (mkURL scheme [] u h (str "/" ++ p) q) = p.
Proof. reflexivity. Qed.

Lemma ParseDSN_ssh host port user pass key phrase timeout path e :
  host_bytes host -> 0 <= port < 2 ^ 63 -> user <> [] -> path <> [] -> expandPath key = key ->
  ParseDSN (DSN_String (mkDSN path false e (Some (mkSSH host port user pass key phrase timeout)) None None)) =
  Ok (mkDSN path false [] (Some (mkSSH host port user pass key [] (30 * 10 ^ 9))) None None).
Proof.
  intros Hh Hp Hu Hpath Hkey. cbn [DSN_String dsn_memory SSH ssh_host ssh_port ssh_user ssh_password PrivateKey dsn_path].
  unfold BuildSSHDSN. set (q := match key with [] => [] | _ => _ end). set (text := url_text _ _ _ _ q).
  assert (Hq : forall k, query_get k q = if bytes_eqb (str "private_key") k then key else []).
  { intros k. subst q. destruct key; [rewrite query_get_nil; by destruct (bytes_eqb _ k)|]. by apply query_get_encode. }
  change (ParseDSN text) with (parseSSHDSN text). unfold parseSSHDSN, url_of.
  pose proof scheme_names as Hs. apply Forall_cons in Hs as [Hs _]. destruct (user_info_parts user pass) as [Hn Hpw].
  unfold text. rewrite Parse_URL_text; [|done|by rewrite Hn|apply host_port_ok; [done|lia]|].
  - cbn [mbind outcome_bind Scheme]. rewrite port_of_text by done. cbn [mbind outcome_bind]. rewrite user_of_text, Hn, Hpw.
    unfold bytes_eqb at 1 2. rewrite bool_decide_eq_true_2, bool_decide_eq_false_2 by done. cbn [negb RawQuery].
    unfold timeout_of. rewrite !Hq. change (bytes_eqb (str "private_key") (str "private_key")) with true.
    change (bytes_eqb (str "private_key") (str "private_key_data")) with false. change (bytes_eqb (str "private_key") (str "timeout")) with false.
    change (bytes_eqb (str "private_key") (str "passphrase")) with false. cbn [or_else mbind outcome_bind].
    rewrite path_of_text. unfold Hostname. cbn [Host]. rewrite Hostname_text by (done || lia). cbn [fst].
    destruct path; [done|]. destruct key; [done|]. by rewrite Hkey.
  - subst q. destruct key as [|c key]; [constructor|]. apply query_encode_clean.
Qed.

Lemma ParseDSN_smb host port share user pass domain timeout path e :
  host_bytes host -> 0 <= port < 2 ^ 63 -> user <> [] -> share <> [] -> no_char 47 share -> path <> [] ->
  ParseDSN (DSN_String (mkDSN path false e None (Some (mkSMB host port share user pass domain timeout)) None)) =
  Ok (mkDSN path false [] None (Some (mkSMB host port share user pass [] (30 * 10 ^ 9))) None).
Proof.
  intros Hh Hp Hu Hshare Hslash Hpath. cbn [DSN_String dsn_memory SSH SMB smb_host smb_port smb_user smb_password Share dsn_path].
  set (text := url_text _ _ _ _ _). change (ParseDSN text) with (parseSMBDSN text). unfold parseSMBDSN, url_of.
  pose proof scheme_names as Hs. apply Forall_cons in Hs as [_ Hs]. apply Forall_cons in Hs as [Hs _]. destruct (user_info_parts user pass) as [Hn Hpw].
  unfold text. rewrite Parse_URL_text; [|done|by rewrite Hn|apply host_port_ok; [done|lia]|constructor].
  cbn [mbind outcome_bind Scheme]. rewrite port_of_text by done. cbn [mbind outcome_bind]. rewrite user_of_text, Hn, Hpw.
  unfold bytes_eqb at 1 2. rewrite bool_decide_eq_true_2, bool_decide_eq_false_2 by done. cbn [negb RawQuery].
  rewrite path_of_text. change (str "/" ++ path) with (byte.of_Z 47 :: path). rewrite cut_here by done.
  unfold Hostname. cbn [Host]. rewrite Hostname_text by (done || lia). cbn [fst]. destruct share; [done|]. by destruct path.
Qed.

Lemma trim_scheme (secure : bool) host : host_bytes host ->
  trim_prefix (str "https://") (trim_prefix (str "http://") ((if secure then str "https://" else str "http://") ++ host)) = host.
Proof.
  intros Hh. destruct secure; [reflexivity|].
  change (trim_prefix (str "http://") (str "http://" ++ host)) with host. unfold trim_prefix, bytes_eqb.
  case_bool_decide as E; [|done]. exfalso. unfold host_bytes in Hh. rewrite <- (take_drop (length (str "https://")) host), E in Hh.
  apply Forall_app in Hh as [Hh _]. by repeat (apply Forall_cons in Hh as [? Hh]).
Qed.

Lemma ParseDSN_webdav (secure : bool) host user pass timeout path e : host_ok host -> user <> [] -> path <> [] ->
  let url := (if secure then str "https://" else str "http://") ++ host in
  ParseDSN (DSN_String (mkDSN path false e None None (Some (mkWebDAV url user pass timeout)))) =
  Ok (mkDSN path false [] None None (Some (mkWebDAV url user pass (30 * 10 ^ 9)))).
Proof.
  intros Hh Hu Hpath url. cbn [DSN_String dsn_memory SSH SMB WebDAV dav_url dav_user dav_password dsn_path].
  unfold url. rewrite trim_scheme by apply Hh. set (text := url_text _ _ _ _ _).
  assert (ParseDSN text = parseWebDAVDSN text) as -> by (unfold text; by destruct secure). unfold parseWebDAVDSN, url_of.
  destruct (user_info_parts user pass) as [Hn Hpw].
  assert (has_prefix (str "https://") ((if secure then str "https://" else str "http://") ++ host) = secure) as Hsec by (by destruct secure).
  unfold text. rewrite Hsec. rewrite Parse_URL_text; [| |by rewrite Hn|done|constructor].
  - cbn [mbind outcome_bind Scheme]. rewrite user_of_text, Hn, Hpw.
    assert (bytes_eqb user [] = false) as -> by (by apply bool_decide_eq_false_2). rewrite path_of_text.
    destruct path; [done|]. by destruct secure.
  - pose proof scheme_names as Hs. repeat (apply Forall_cons in Hs as [? Hs]). by destruct secure.
Qed.

(** C14: a data source name is read back from the text that String writes for
    it, whatever bytes its user, password and remote path have, and with only
    the settings that the text leaves out at their defaults. A local path has
    no question mark and starts with no prefix that is taken for another kind
    of name ([local_path]); the name of a key file is one that is not expanded
    ([expandPath]: it does not start with the mark of the home directory); a
    share has no slash; users, shares and remote paths are not empty, hosts
    have only bytes that a URL writes as they are, and ports are not negative.
    *)
Theorem DSN_read_back d d' : read_as d d' -> ParseDSN (DSN_String d) = Ok d'.
Proof.
  destruct 1 as [|path e (Hm & Hq & Hf & Hp)| | |]; [done| |by apply ParseDSN_ssh|by apply ParseDSN_smb|by apply ParseDSN_webdav].
  cbn [DSN_String local_dsn dsn_memory SSH SMB WebDAV dsn_path]. unfold ParseDSN.
  repeat (apply Forall_cons in Hp as [-> Hp]). assert (bytes_eqb path (str ":memory:") = false) as -> by (by apply bool_decide_eq_false_2).
  cbn [orb]. by rewrite Hf, cut_none.
Qed.
End Names.

Definition no_home : HomeDirectory := {| user_home := None; path_join a b := a ++ str "/" ++ b |}.
(** A password and a path with bytes that a URL gives a meaning. *)
Lemma DSN_read_back_witness :
  @ParseDSN plain_runtime no_home (DSN_String (mkDSN (str "data/my db?#1") false [] (Some (mkSSH (str "host.example") 2222 (str "a@b") (str "p:/?#%")
    (str "/keys/id&1") [] 7)) None None)) =
  Ok (mkDSN (str "data/my db?#1") false [] (Some (mkSSH (str "host.example") 2222 (str "a@b") (str "p:/?#%") (str "/keys/id&1") [] (30 * 10 ^ 9))) None None).
Proof.
  apply (@DSN_read_back plain_runtime no_home). apply ReadSSH; try discriminate; [|lia|reflexivity]. unfold host_bytes. repeat constructor.
Defined.

Section DsnExamples.
#[local] Existing Instance plain_runtime.
#[local] Existing Instance no_home.
(** A query that cannot be read is left out without an error, and with it the
    password: the database is opened without encryption. *)
Example bad_query_opens_unencrypted : ParseDSN (str "data/db?encrypt=a;b") = Ok (local_dsn (str "data/db") []).
Proof. vm_compute. reflexivity. Qed.
(** So is the password in the name of a database on a server. *)
Example remote_encryption_ignored : (d ← ParseDSN (str "ssh://ann:pw@host/db?encrypt=secret"); Ok (EncryptPassword d)) = Ok [].
Proof. vm_compute. reflexivity. Qed.
End DsnExamples.
