(* ===== verification/Driver.v ===== *)
(** * The driver for database/sql (driver/driver.go)

    Connections, statements with arguments, and the rows of a query, on the
    engine. Opening a connection chooses what to open by its name; opening
    files and file systems on servers is a parameter. *)

From S2P Require Import Prelude GoLib Types RowCodec Page PageCache TableFile Crypto Json Wal Storage Functions Script Auth Ast Eval Select Dml Lexer Parser ParserDml Engine EngineExamples Url Dsn.
Local Open Scope Z_scope.

(** ** Values *)

(** A value of database/sql, or binary data that is marked. *)
Inductive DriverValue :=
  | Plain (d : GoData)
  | BlobValue (b : bytes)
  | ImageValue (b : bytes).
Definition NewBlob : bytes -> DriverValue := BlobValue.
Definition NewImage : bytes -> DriverValue := ImageValue.
(** What io.ReadAll gives of a reader; none where it fails. *)
Definition BlobFromReader (r : option bytes) : option DriverValue := BlobValue <$> r.
Definition ImageFromReader (r : option bytes) : option DriverValue := ImageValue <$> r.

Inductive DriverError :=
  | InName (e : DSNError) | CannotOpen (text : bytes) | BadConn | NoTransactions | InStatement (e : EngineError).

(** What opens databases that are not in memory: a local directory with its
    password, or the file system that a name gives. *)
Class Openers `{FullText} := {
  open_path : bytes -> bytes -> outcome DriverError Engine;
  open_sftp : bytes -> SSHConfig -> outcome DriverError Engine;
  open_smb : bytes -> SMBConfig -> outcome DriverError Engine;
  open_webdav : bytes -> WebDAVConfig -> outcome DriverError Engine
}.

Section Values.
Context `{GoRuntime}.

Definition hex_call (name : string) (b : bytes) : bytes := str name ++ str "('" ++ hex_encode b ++ str "')".
Definition argument_text (v : DriverValue) : bytes :=
  match v with
  | Plain GNil => str "NULL"
  | Plain (GString s) => str "'" ++ replace_all s (str "'") (str "''") ++ str "'"
  | Plain (GInt _ n) => itoa n
  | Plain (GFloat32 f) => fmt_float32 f
  | Plain (GFloat64 f) => fmt_float64 f
  | Plain (GBool b) => if b then str "1" else str "0"
  | Plain (GBytes b) | BlobValue b => hex_call "BLOB_FROM_HEX" b
  | ImageValue b => hex_call "IMAGE_FROM_HEX" b
  | Plain d => str "'" ++ sprint_v d ++ str "'"
  end.
Definition replacePlaceholders (query : bytes) (args : list DriverValue) : bytes :=
  fold_left (fun q v => match index_byte (byte.of_Z 63) q with
                        | Some i => take i q ++ argument_text v ++ drop (S i) q
                        | None => q
                        end) args query.

Definition ConvertValue (v : Value) : GoData := if IsNull v then GNil else Data v.
Definition ConvertToValue (d : GoData) : Value := match d with GNil => NewNullValue | d => NewValue d end.
End Values.

(** ** Connections and statements *)

Record Conn `{FullText} := mkConn { conn_engine : Engine; closed : bool }.
Record Stmt := mkStmt { stmt_text : bytes }.

Section Driver.
Context `{GoRuntime} `{FunctionRuntime} `{FullText} `{MapOrder} `{JSONRuntime} `{RecordJSON} `{Environment} `{ColumnJSON}
  `{Digests} `{!HostFiles} `{HomeDirectory} `{!Openers} (fuel : nat).

Definition DOpen (name : bytes) : outcome DriverError Conn :=
  match ParseDSN name with
  | Ok d =>
    match Validate d with
    | Ok _ =>
      e ← (if dsn_memory d then Ok (NewEngine (NewStorage false 0) None [] [])
           else match SSH d, SMB d, WebDAV d with
                | Some c, _, _ => open_sftp (dsn_path d) c
                | None, Some c, _ => open_smb (dsn_path d) c
                | None, None, Some c => open_webdav (dsn_path d) c
                | None, None, None => open_path (dsn_path d) (EncryptPassword d)
                end);
      Ok (mkConn _ e false)
    | Err e => Err (InName e)
    | Panic => Panic
    | Hang => Hang
    end
  | Err e => Err (InName e)
  | Panic => Panic
  | Hang => Hang
  end.

Abbreviation DM := (SO Conn DriverError).

Definition open_only {A} (a : A) : DM A := c ← gets closed; if c : bool then fail BadConn else mret a.
Definition Prepare (query : bytes) : DM Stmt := open_only (mkStmt query).
(** Closing again does nothing; [order] is the order of the table files. *)
Definition DClose (order : list Z) : DM unit := fun c =>
  if closed c then (Ok tt, c)
  else let '(r, e) := in_storage (CloseStorage order) (conn_engine c) in
       (match r with Ok _ => Ok tt | Err x => Err (InStatement x) | Panic => Panic | Hang => Hang end, mkConn _ e true).
Definition Begin : DM unit := fail NoTransactions.
Definition Ping : DM unit := open_only tt.
Definition ResetSession : DM unit := open_only tt.
Definition IsValid (c : Conn) : bool := negb (closed c).

(** A statement is executed whether its connection is open or not. *)
Definition run_query (s : Stmt) (args : list DriverValue) : DM Result := fun c =>
  let '(r, e) := Engine.Execute fuel (replacePlaceholders (stmt_text s) args) (conn_engine c) in
  (match r with Ok a => Ok a | Err x => Err (InStatement x) | Panic => Panic | Hang => Hang end, mkConn _ e (closed c)).

(** The last identifier and the number of rows. *)
Definition Exec (s : Stmt) (args : list DriverValue) : DM (Z * Z) :=
  r ← run_query s args; mret (RLastInsertID r, RowsAffected r).

(** ** Rows *)

Record DRows := mkRows { rows_result : Result; rowIndex : nat; rows_closed : bool }.
Definition Query (s : Stmt) (args : list DriverValue) : DM DRows := r ← run_query s args; mret (mkRows r 0 false).
Definition QueryContext := Query.
Definition ExecContext := Exec.
Definition CloseRows (r : DRows) : DRows := mkRows (rows_result r) (rowIndex r) true.
(** The values of a row over those of the row before. *)
Definition scan_row (row : list Value) (dest : list GoData) : list GoData :=
  imap (fun i d => match row !! i with Some v => ConvertValue v | None => d end) dest.
(** None is the end of the rows. *)
Definition Next (dest : list GoData) (r : DRows) : option (list GoData * DRows) :=
  if rows_closed r then None
  else match Rows (rows_result r) !! rowIndex r with
       | None => None
       | Some row => Some (scan_row (RData row) dest, mkRows (rows_result r) (S (rowIndex r)) false)
       end.

(** What a program does with the rows: it reads until their end. *)
Fixpoint read_all (n : nat) (dest : list GoData) (r : DRows) : list (list GoData) :=
  match n with
  | O => []
  | S n => match Next dest r with
           | None => []
           | Some (values, r) => values :: read_all n values r
           end
  end.

(** ** What a program gets *)

(** The arguments that the engine's own placeholders take the same way. *)
Definition same_text (d : GoData) : Prop :=
  match d with GNil | GString _ | GInt (KInt | KInt32 | KInt64) _ | GFloat32 _ | GFloat64 _ | GBool _ => True | _ => False end.

Lemma argument_text_same d : same_text d -> argument_text (Plain d) = placeholder_text d.
Proof. by destruct d as [|[]| | | | | | |]. Qed.

Lemma replace_none query (args : list DriverValue) : index_byte (byte.of_Z 63) query = None -> replacePlaceholders query args = query.
Proof. intros Hq. unfold replacePlaceholders. induction args as [|v args IH]; [done|]. cbn [fold_left]. by rewrite Hq. Qed.

Lemma replacePlaceholders_same query args : Forall same_text args ->
  replacePlaceholders query (map Plain args) = Engine.replacePlaceholders query args.
Proof.
  intros Ha. revert query. induction Ha as [|d args Hd _ IH]; intros query; [done|].
  cbn [Engine.replacePlaceholders]. destruct (index_byte (byte.of_Z 63) query) as [i|] eqn:E; [|by apply replace_none].
  rewrite <- argument_text_same, <- IH by done. unfold replacePlaceholders at 1. cbn [map fold_left]. by rewrite E.
Qed.

Lemma scan_row_all row dest : length row = length dest -> scan_row row dest = map ConvertValue row.
Proof.
  intros Hl. apply list_eq. intros i. unfold scan_row. rewrite list_lookup_imap, list_lookup_fmap.
  destruct (dest !! i) as [d|] eqn:Ed; cbn; [|apply lookup_ge_None in Ed; rewrite lookup_ge_None_2; [done|lia]].
  apply lookup_lt_Some in Ed. destruct (lookup_lt_is_Some_2 row i) as [v Hv]; [lia|]. by rewrite Hv.
Qed.

Lemma read_all_from n dest res i : Forall (fun row => length (RData row) = length dest) (Rows res) ->
  read_all n dest (mkRows res i false) = take n (map (fun row => map ConvertValue (RData row)) (drop i (Rows res))).
Proof.
  intros Hf. revert dest i Hf. induction n as [|n IH]; intros dest i Hf; [done|]. cbn [read_all].
  unfold Next. cbn [rows_closed rows_result rowIndex].
  destruct (Rows res !! i) as [row|] eqn:E; [|by rewrite drop_ge by (by apply lookup_ge_None)].
  rewrite (drop_S _ _ _ E). cbn [map take]. rewrite Forall_lookup in Hf. pose proof (Hf _ _ E) as Hl.
  rewrite scan_row_all by done. rewrite IH; [done|]. rewrite length_map, Hl. by apply Forall_lookup.
Qed.

(** C23: a query through the driver that succeeds is the engine's execution of
    it with its arguments, and a program that reads its rows, with a place for
    each column, gets the values of every row in order, nothing for NULL, and
    then the end. The arguments are ones that driver and engine write the same
    way ([same_text]): NULL, texts, integers of type int, int32 or int64,
    floating-point numbers and booleans; bytes and times they write
    differently. *)
Theorem Query_rows s args c rs c' dest :
  Forall same_text args -> Query s (map Plain args) c = (Ok rs, c') ->
  Forall (fun row => length (RData row) = length dest) (Rows (rows_result rs)) ->
  ExecuteWithArgs fuel (stmt_text s) args (conn_engine c) = (Ok (rows_result rs), conn_engine c') /\
  (forall n, read_all n dest rs = take n (map (fun row => map ConvertValue (RData row)) (Rows (rows_result rs)))).
Proof.
  intros Ha Hq Hf. unfold Query in Hq. apply bind_inv in Hq as (r & c1 & Hr & [= <- <-]). unfold run_query in Hr.
  rewrite replacePlaceholders_same in Hr by done. unfold ExecuteWithArgs. cbn [rows_result] in *.
  destruct (Engine.Execute _ _ _) as [[r'|x| |] e]; try done. injection Hr as -> <-. split; [done|].
  intros n. by rewrite read_all_from, drop_0.
Qed.

(** A statement that was prepared is executed after its connection is
    closed. *)
Lemma closed_statement_runs s args c : run_query s args (mkConn _ (conn_engine c) true) =
  let '(r, c') := run_query s args (mkConn _ (conn_engine c) false) in (r, mkConn _ (conn_engine c') true).
Proof. unfold run_query. cbn [conn_engine closed]. by destruct (Engine.Execute _ _ _). Qed.
End Driver.

(** ** The driver on the people *)

Definition people_conn : Conn := mkConn _ (fold_left (fun e s => (Engine.Execute 10 (str s) e).2) people memory_engine) false.
Definition by_age : Stmt := mkStmt (str "SELECT name FROM people WHERE age = ?").
Definition age_rows : DRows := match (Query 10 by_age [Plain (GInt KInt64 30)] people_conn).1 with Ok r => r | _ => mkRows (done_result []) 0 true end.

Lemma Query_rows_witness : read_all 5 [GNil] age_rows = [[GString (str "ann")]; [GString (str "cyd")]].
Proof.
  assert (Hf : Forall (fun row => length (RData row) = length [GNil]) (Rows (rows_result age_rows))) by (vm_compute; repeat constructor).
  assert (Hq : Query 10 by_age (map Plain [GInt KInt64 30]) people_conn = (Ok age_rows, (Query 10 by_age (map Plain [GInt KInt64 30]) people_conn).2))
    by (apply run_answer; vm_compute; reflexivity).
  destruct (Query_rows 10 by_age [GInt KInt64 30] people_conn age_rows _ [GNil] ltac:(repeat constructor) Hq Hf) as [_ Hr].
  rewrite Hr. vm_compute. reflexivity.
Defined.

(** A question mark in an argument takes the next argument. *)
Example mark_in_argument : replacePlaceholders (str "SELECT ?, ?") [Plain (GString (str "?")); Plain (GInt KInt64 7)] = str "SELECT '7', ?".
Proof. vm_compute. reflexivity. Qed.
