(* ===== verification/Converter.v ===== *)
(** * Types of other database systems (import/converter.go)

    The column type and the length that stand for a type of MySQL,
    PostgreSQL, SQLite, Oracle and SQL Server. *)

From S2P Require Import Prelude GoLib Types Functions Eval.
Local Open Scope Z_scope.

Section Converter.
Context `{GoRuntime}.

(** The digits a text starts with; an [int], which wraps. *)
Fixpoint leading_digits (acc : Z) (s : bytes) : Z :=
  match s with
  | b :: t => match digit_of b with Some d => leading_digits (i64 (acc * 10 + d)) t | None => acc end
  | [] => acc
  end.
Definition paren : byte := byte.of_Z 40.
(** What is before the parenthesis, where one is not the first byte. *)
Definition base_type (t : bytes) : bytes :=
  match index_byte paren t with Some (S i) => take (S i) t | _ => t end.
(** The number in the parentheses, up to a comma where there is a precision;
    zero where there is none. *)
Definition type_length (comma : bool) (t : bytes) : Z :=
  match index_byte paren t, index_byte (byte.of_Z 41) t with
  | Some (S i), Some e =>
    if (S i <? e)%nat then
      let l := slice (S (S i)) e t in
      let l := match comma, index_byte (byte.of_Z 44) l with true, Some (S j) => take (S j) l | _, _ => l end in
      leading_digits 0 l
    else 0
  | _, _ => 0
  end.
Definition among (t : bytes) (names : list string) : bool := existsb (fun n => bytes_eqb t (str n)) names.
Definition or_length (n default_length : Z) : Z := if n =? 0 then default_length else n.

Definition ConvertMySQLType (t : bytes) : DataType * Z :=
  let t := to_upper (trim_space t) in
  let base := base_type t in let length := type_length false t in
  if among base ["TINYINT"; "SMALLINT"; "MEDIUMINT"; "INT"; "INTEGER"; "BIGINT"] then (TypeInt, 0)
  else if among base ["FLOAT"; "DOUBLE"; "DECIMAL"; "NUMERIC"; "REAL"] then (TypeFloat, 0)
  else if among base ["CHAR"; "CHARACTER"; "NCHAR"] then (TypeChar, or_length length 1)
  else if among base ["VARCHAR"; "CHARACTER VARYING"; "NVARCHAR"; "VARCHAR2"] then (TypeVarchar, or_length length 255)
  else if among base ["TEXT"; "TINYTEXT"; "MEDIUMTEXT"; "LONGTEXT"; "CLOB"] then (TypeText, 0)
  else if among base ["DATE"] then (TypeDate, 0)
  else if among base ["TIME"] then (TypeTime, 0)
  else if among base ["DATETIME"; "TIMESTAMP"; "TIMESTAMP WITHOUT TIME ZONE"] then (TypeDatetime, 0)
  else if among base ["BLOB"; "TINYBLOB"; "MEDIUMBLOB"; "LONGBLOB"; "BINARY"; "VARBINARY"] then (TypeBlob, 0)
  else if among base ["BIT"; "BOOLEAN"; "BOOL"] then (TypeInt, 0)
  else if among base ["YEAR"] then (TypeInt, 0)
  else (TypeVarchar, 255).

Definition trim_suffix (p s : bytes) : bytes :=
  if bytes_eqb (drop (length s - length p) s) p then take (length s - length p) s else s.
Definition ConvertPostgreSQLType (t : bytes) : DataType * Z :=
  let t := trim_suffix (str "[]") (to_upper (trim_space t)) in
  let base := base_type t in let length := type_length false t in
  if among base ["SMALLINT"; "INTEGER"; "INT"; "INT4"; "INT2"; "BIGINT"; "INT8"; "SERIAL"; "BIGSERIAL"; "SMALLSERIAL"] then (TypeInt, 0)
  else if among base ["REAL"; "FLOAT4"; "DOUBLE PRECISION"; "FLOAT8"; "NUMERIC"; "DECIMAL"] then (TypeFloat, 0)
  else if among base ["CHAR"; "CHARACTER"] then (TypeChar, or_length length 1)
  else if among base ["VARCHAR"; "CHARACTER VARYING"; "TEXT"] then (TypeVarchar, or_length length 255)
  else if among base ["DATE"] then (TypeDate, 0)
  else if among base ["TIME"; "TIME WITHOUT TIME ZONE"; "TIME WITH TIME ZONE"; "TIMETZ"] then (TypeTime, 0)
  else if among base ["TIMESTAMP"; "TIMESTAMP WITHOUT TIME ZONE"; "TIMESTAMP WITH TIME ZONE"; "TIMESTAMPTZ"] then (TypeDatetime, 0)
  else if among base ["BYTEA"] then (TypeBlob, 0)
  else if among base ["BOOLEAN"; "BOOL"] then (TypeInt, 0)
  else if among base ["UUID"] then (TypeVarchar, 36)
  else if among base ["JSON"; "JSONB"] then (TypeText, 0)
  else (TypeVarchar, 255).

(** The first word that the type contains. *)
Definition ConvertSQLiteType (t : bytes) : DataType * Z :=
  let t := to_upper t in
  let length := type_length false t in
  let has w := Eval.contains (str w) t in
  if has "INT" then (TypeInt, 0)
  else if has "CHAR" then (TypeChar, or_length length 255)
  else if has "CLOB" || has "TEXT" then (TypeText, 0)
  else if has "BLOB" then (TypeBlob, 0)
  else if has "REAL" || has "FLOA" || has "DOUB" then (TypeFloat, 0)
  else if has "DATE" then (TypeDate, 0)
  else if has "TIME" then (TypeDatetime, 0)
  else if has "VARCHAR" then (TypeVarchar, or_length length 255)
  else (TypeVarchar, 255).

Definition ConvertOracleType (t : bytes) : DataType * Z :=
  let t := to_upper (trim_space t) in
  let base := base_type t in let length := type_length true t in
  if among base ["NUMBER"; "INTEGER"; "INT"; "SMALLINT"; "PLS_INTEGER"; "BINARY_INTEGER"] then (TypeInt, 0)
  else if among base ["FLOAT"; "BINARY_FLOAT"; "BINARY_DOUBLE"] then (TypeFloat, 0)
  else if among base ["CHAR"; "NCHAR"] then (TypeChar, or_length length 1)
  else if among base ["VARCHAR"; "VARCHAR2"; "NVARCHAR"; "NVARCHAR2"] then (TypeVarchar, or_length length 4000)
  else if among base ["CLOB"; "NCLOB"; "LONG"] then (TypeText, 0)
  else if among base ["DATE"] then (TypeDatetime, 0)
  else if among base ["TIMESTAMP"] then (TypeDatetime, 0)
  else if among base ["BLOB"; "RAW"; "LONG RAW"] then (TypeBlob, 0)
  else if among base ["ROWID"; "UROWID"] then (TypeVarchar, 18)
  else (TypeVarchar, 255).

Definition ConvertMSSQLType (t : bytes) : DataType * Z :=
  let t := to_upper (trim_space t) in
  let base := base_type t in let length := type_length true t in
  if among base ["TINYINT"; "SMALLINT"; "INT"; "INTEGER"; "BIGINT"] then (TypeInt, 0)
  else if among base ["REAL"; "FLOAT"; "DECIMAL"; "NUMERIC"; "MONEY"; "SMALLMONEY"] then (TypeFloat, 0)
  else if among base ["CHAR"; "NCHAR"] then (TypeChar, or_length length 1)
  else if among base ["VARCHAR"; "NVARCHAR"; "TEXT"; "NTEXT"] then (TypeVarchar, if (length =? 0) || (length =? -1) then 255 else length)
  else if among base ["DATE"] then (TypeDate, 0)
  else if among base ["TIME"] then (TypeTime, 0)
  else if among base ["DATETIME"; "DATETIME2"; "SMALLDATETIME"; "DATETIMEOFFSET"] then (TypeDatetime, 0)
  else if among base ["BINARY"; "VARBINARY"; "IMAGE"] then (TypeBlob, 0)
  else if among base ["BIT"] then (TypeInt, 0)
  else if among base ["UNIQUEIDENTIFIER"] then (TypeVarchar, 36)
  else (TypeVarchar, 255).
End Converter.

(** ** Types that are converted to others *)

Section Examples.
#[local] Existing Instance plain_runtime.
Example mysql_varchar : ConvertMySQLType (str " varchar(40) ") = (TypeVarchar, 40).
Proof. vm_compute. reflexivity. Qed.
(** An attribute after the name hides it. *)
Example mysql_unsigned : ConvertMySQLType (str "bigint unsigned") = (TypeVarchar, 255).
Proof. vm_compute. reflexivity. Qed.
(** The fraction of a decimal number is lost. *)
Example oracle_decimal : ConvertOracleType (str "NUMBER(10,2)") = (TypeInt, 0).
Proof. vm_compute. reflexivity. Qed.
(** So is the time of day; and a point is an integer. *)
Example sqlite_datetime : ConvertSQLiteType (str "DATETIME") = (TypeDate, 0).
Proof. vm_compute. reflexivity. Qed.
Example sqlite_point : ConvertSQLiteType (str "POINT") = (TypeInt, 0).
Proof. vm_compute. reflexivity. Qed.
(** A text column without a limit gets one of 255 characters. *)
Example postgres_text : ConvertPostgreSQLType (str "text") = (TypeVarchar, 255).
Proof. vm_compute. reflexivity. Qed.
End Examples.
