(* ===== verification/Import.v ===== *)
(** * Importing tables (import/import.go)

    The manager of importers: it creates a table from the schema of another
    database and inserts its rows in batches, as statements for the engine.
    What connects to the other databases is an interface. *)

From S2P Require Import Prelude GoLib Types RowCodec Page PageCache TableFile Crypto Json Wal Storage Functions Script Auth Ast Eval Select Dml Lexer Parser ParserDml Engine Url Converter.
Local Open Scope Z_scope.

Definition DatabaseTypes : list bytes := map str ["mysql"; "postgresql"; "sqlite"; "oracle"; "mssql"]%string.

Record ImportConfig := mkImport {
  SourceType : bytes; SourceDSN : bytes; SourceDB : bytes; SourceTable : bytes; TargetTable : bytes;
  BatchSize : Z; Overwrite : bool; CreateTable_ : bool
}.

Record ColumnInfo := mkColumnInfo {
  CName : bytes; CSourceType : bytes; TargetType : DataType; CLength : Z;
  IsNullable : bool; IsPrimaryKey : bool; IsUnique : bool; DefaultValue : GoData
}.
Record ForeignKeyInfo := mkForeignKey {
  FName : bytes; FColumns : list bytes; RefTable : bytes; RefColumns : list bytes; OnDelete : bytes; OnUpdate : bytes
}.
Record UniqueKeyInfo := mkUniqueKey { UName : bytes; UColumns : list bytes }.
Record CheckInfo := mkCheck { KName : bytes; Definition_ : bytes }.
Record IndexInfo := mkIndex { XName : bytes; XColumns : list bytes; XUnique : bool }.
Record TableSchema := mkSchema {
  TableName : bytes;
  SColumns : list ColumnInfo;
  PrimaryKeys : list bytes;
  ForeignKeys : list ForeignKeyInfo;
  UniqueKeys : list UniqueKeyInfo;
  CheckConstraints : list CheckInfo;
  Indexes : list IndexInfo
}.

(** A failed call, without its message, is none. *)
Record Importer := mkImporter {
  Connect : bytes -> bool;
  ListTables_ : bytes -> option (list bytes);
  GetTableSchema : bytes -> bytes -> option TableSchema;
  ReadTable : bytes -> bytes -> Z -> Z -> option (list (list GoData));
  ReadTableCount : bytes -> bytes -> option Z
}.

Inductive ImportError :=
  | UnsupportedSource | ConnectFailed | TableRequired | SchemaFailed | CreateFailed (e : EngineError) | CountFailed | ListFailed
  | BatchFailed (n : Z) | InsertFailed (n : Z) (e : EngineError) | TableFailed (name : bytes) (e : ImportError).
Record ImportResult := mkImportResult { TablesImported : Z; RowsImported : Z; Errors : list ImportError; Warnings : list bytes }.

Section Importing.
Context `{GoRuntime} `{FunctionRuntime} `{FullText} `{MapOrder} `{JSONRuntime} `{RecordJSON} `{Environment} `{ColumnJSON}
  `{Digests} `{!HostFiles} (error_text : EngineError -> bytes) (fuel : nat).

Abbreviation IM := (SO Engine ImportError).

(** ** Statements *)

Definition handleDefaultValue (d : GoData) : bytes :=
  match d with
  | GNil => str "DEFAULT NULL"
  | d => if bytes_eqb (to_upper (sprint_v d)) (str "CURRENT_TIMESTAMP") then str "DEFAULT NOW()" else str "DEFAULT " ++ sprint_v d
  end.
Definition isPartOfMultiColumnUnique (name : bytes) (schema : TableSchema) : bool :=
  existsb (fun uk => (1 <? length (UColumns uk))%nat && existsb (bytes_eqb name) (UColumns uk)) (UniqueKeys schema).
Definition buildColumnDef (schema : TableSchema) (col : ColumnInfo) : bytes :=
  join (str " ")
    ([CName col; if 0 <? CLength col then DataType_String (TargetType col) ++ str "(" ++ itoa (CLength col) ++ str ")" else DataType_String (TargetType col)]
     ++ (if IsPrimaryKey col && (length (PrimaryKeys schema) <=? 1)%nat then [str "PRIMARY KEY"] else [])
     ++ (if IsUnique col && negb (isPartOfMultiColumnUnique (CName col) schema) then [str "UNIQUE"] else [])
     ++ (if IsNullable col then [] else [str "NOT NULL"])
     ++ (match DefaultValue col with GNil => [] | d => [handleDefaultValue d] end)).
Definition names (l : list bytes) : bytes := join (str ", ") l.
Definition foreign_key_def (k : ForeignKeyInfo) : bytes :=
  str "CONSTRAINT " ++ FName k ++ str " FOREIGN KEY (" ++ names (FColumns k) ++ str ") REFERENCES " ++ RefTable k ++ str " (" ++ names (RefColumns k) ++ str ")"
  ++ match OnDelete k with [] => [] | d => str " ON DELETE " ++ d end ++ match OnUpdate k with [] => [] | d => str " ON UPDATE " ++ d end.
Definition create_statement (table : bytes) (schema : TableSchema) : bytes :=
  let defs := map (buildColumnDef schema) (SColumns schema)
    ++ (if (1 <? length (PrimaryKeys schema))%nat then [str "PRIMARY KEY (" ++ names (PrimaryKeys schema) ++ str ")"] else [])
    ++ map foreign_key_def (ForeignKeys schema)
    ++ map (fun u => str "CONSTRAINT " ++ UName u ++ str " UNIQUE (" ++ names (UColumns u) ++ str ")") (UniqueKeys schema)
    ++ map (fun c => str "CONSTRAINT " ++ KName c ++ str " CHECK (" ++ Definition_ c ++ str ")") (CheckConstraints schema) in
  str "CREATE TABLE " ++ table ++ str " (" ++ join (str ", ") defs ++ str ")".
Definition index_statement (table : bytes) (i : IndexInfo) : bytes :=
  str "CREATE " ++ (if XUnique i then str "UNIQUE " else []) ++ str "INDEX " ++ XName i ++ str " ON " ++ table ++ str " (" ++ names (XColumns i) ++ str ")".

Definition run (sql : bytes) : SO Engine EngineError Result := Engine.Execute fuel sql.
(** A statement whose failure does not matter. *)
Definition run_anyway (sql : bytes) : SO Engine EngineError unit := r ← try (run sql); mret tt.
Fixpoint create_indexes (table : bytes) (l : list IndexInfo) : SO Engine EngineError unit :=
  match l with
  | [] => mret tt
  | i :: l =>
    r ← try (run (index_statement table i));
    (match r with
     | inl _ => mret tt
     | inr e => run_anyway (str "-- Warning: Failed to create index " ++ XName i ++ str ": " ++ error_text e)
     end);;
    create_indexes table l
  end.
Definition createTableFromSchema (table : bytes) (schema : TableSchema) (overwrite : bool) : SO Engine EngineError unit :=
  when overwrite (run_anyway (str "DROP TABLE IF EXISTS " ++ table));;
  run (create_statement table schema);;
  create_indexes table (Indexes schema).

(** ** Rows *)

Definition convertValue (v : GoData) (target : DataType) : GoData :=
  match v with
  | GNil => GNil
  | _ =>
    if one_of target [TypeInt; TypeSeq] then
      match v with
      | GInt (KInt | KInt32 | KInt64) n => GInt KInt64 n
      | GFloat64 f => GInt KInt64 (float_to_int64 f)
      | GFloat32 f => GInt KInt64 (float_to_int64 (float_of_float32 f))
      | v => v
      end
    else if target =? TypeFloat then
      match v with
      | GFloat32 f => GFloat64 (float_of_float32 f)
      | GInt (KInt | KInt64) n => GFloat64 (float_of_Z n)
      | v => v
      end
    else if one_of target [TypeVarchar; TypeText; TypeChar] then GString (sprint_v v)
    else v
  end.
Definition quoted_text (s : bytes) : bytes := str "'" ++ replace_all s (str "'") (str "''") ++ str "'".
Definition literal (v : GoData) : bytes :=
  match v with
  | GNil => str "NULL"
  | GInt (KInt | KInt32 | KInt64) _ | GFloat32 _ | GFloat64 _ => sprint_v v
  | v => quoted_text (sprint_v v)
  end.
(** A row with more values than columns is an index out of range. *)
Definition row_literals (columns : list ColumnInfo) (row : list GoData) : outcome EngineError bytes :=
  if (length row <=? length columns)%nat then
    Ok (str "(" ++ join (str ", ") (zip_with (fun v c => literal (convertValue v (TargetType c))) row columns) ++ str ")")
  else Panic.
Fixpoint all_literals (columns : list ColumnInfo) (rows : list (list GoData)) : outcome EngineError (list bytes) :=
  match rows with
  | [] => Ok []
  | row :: rows => r ← row_literals columns row; rs ← all_literals columns rows; Ok (r :: rs)
  end.
Definition insertRows (table : bytes) (schema : TableSchema) (rows : list (list GoData)) : SO Engine EngineError unit :=
  match rows with
  | [] => mret tt
  | _ =>
    values ← lift (all_literals (SColumns schema) rows);
    run (str "INSERT INTO " ++ table ++ str " (" ++ names (map CName (SColumns schema)) ++ str ") VALUES " ++ join (str ", ") values);;
    mret tt
  end.

(** ** Importing *)

(** The rows that were inserted, and the errors. *)
Record Progress := mkProgress { imported : Z; failures : list ImportError }.
Definition failed (e : ImportError) (p : Progress) : Progress := mkProgress (imported p) (failures p ++ [e]).

(** A batch that was read. *)
Definition insert_batch (table : bytes) (schema : TableSchema) (n : Z) (rows : list (list GoData)) (p : Progress) : IM Progress := fun e =>
  match insertRows table schema rows e with
  | (Ok _, e) => (Ok (mkProgress (i64 (imported p + zlen rows)) (failures p)), e)
  | (Err x, e) => (Ok (failed (InsertFailed n x) p), e)
  | (Panic, e) => (Panic, e)
  | (Hang, e) => (Hang, e)
  end.
(** The batches from an offset on. A batch that cannot be read or inserted is
    left out. *)
Fixpoint import_loop (n : nat) (imp : Importer) (config : ImportConfig) (table : bytes) (schema : TableSchema) (total batch offset : Z) (p : Progress)
  : IM Progress :=
  if total <=? offset then mret p
  else match n with
       | O => fun e => (Hang, e)
       | S n =>
         let limit := if total <? i64 (offset + batch) then i64 (total - offset) else batch in
         p ← match ReadTable imp (SourceDB config) (SourceTable config) offset limit with
             | None => mret (failed (BatchFailed (offset / batch)) p)
             | Some rows => insert_batch table schema (offset / batch) rows p
             end;
         import_loop n imp config table schema total batch (i64 (offset + batch)) p
       end.

Definition or_import {A} (wrap : EngineError -> ImportError) (m : SO Engine EngineError A) : IM A := fun e =>
  let '(r, e) := m e in
  (match r with Ok a => Ok a | Err x => Err (wrap x) | Panic => Panic | Hang => Hang end, e).
(** What is deferred: the metadata is saved, however the import ended. *)
Definition saved_after {A} (m : IM A) : IM A := fun e =>
  let '(r, e) := m e in
  (r, (in_storage (SetSkipSave false;; try ForceSave) e).2).

Definition target_of (config : ImportConfig) : bytes := match TargetTable config with [] => SourceTable config | t => t end.

Definition ImportTable (importers : bytes -> option Importer) (config : ImportConfig) : IM ImportResult :=
  match importers (SourceType config) with
  | None => fail UnsupportedSource
  | Some imp =>
    if negb (Connect imp (SourceDSN config)) then fail ConnectFailed
    else if bytes_eqb (SourceTable config) [] then fail TableRequired
    else
      let table := target_of config in
      match GetTableSchema imp (SourceDB config) (SourceTable config) with
      | None => fail SchemaFailed
      | Some schema =>
        when (CreateTable_ config) (or_import CreateFailed (createTableFromSchema table schema (Overwrite config)));;
        match ReadTableCount imp (SourceDB config) (SourceTable config) with
        | None => fail CountFailed
        | Some total =>
          or_import CreateFailed (in_storage (SetSkipSave true));;
          saved_after (
            let batch := if BatchSize config <=? 0 then 1000 else BatchSize config in
            p ← import_loop (Z.to_nat total) imp config table schema total batch 0 (mkProgress 0 []);
            mret (mkImportResult 1 (imported p) (failures p) []))
        end
      end
  end.

Definition table_config (config : ImportConfig) (name : bytes) : ImportConfig :=
  mkImport (SourceType config) (SourceDSN config) (SourceDB config) name name (BatchSize config) (Overwrite config) true.
(** The errors of the batches of a table are left out. *)
Fixpoint import_tables (importers : bytes -> option Importer) (config : ImportConfig) (tables : list bytes) (result : ImportResult) : IM ImportResult :=
  match tables with
  | [] => mret result
  | name :: tables =>
    r ← try (ImportTable importers (table_config config name));
    import_tables importers config tables
      (match r with
       | inr e => mkImportResult (TablesImported result) (RowsImported result) (Errors result ++ [TableFailed name e]) (Warnings result)
       | inl t => mkImportResult (TablesImported result + TablesImported t) (i64 (RowsImported result + RowsImported t)) (Errors result) (Warnings result ++ Warnings t)
       end)
  end.
Definition ImportAll (importers : bytes -> option Importer) (config : ImportConfig) : IM ImportResult :=
  match importers (SourceType config) with
  | None => fail UnsupportedSource
  | Some imp =>
    if negb (Connect imp (SourceDSN config)) then fail ConnectFailed
    else match ListTables_ imp (SourceDB config) with
         | None => fail ListFailed
         | Some tables => import_tables importers config tables (mkImportResult 0 0 [] [])
         end
  end.

(** ** Names of sources *)

Fixpoint cut_text (sep s : bytes) : option (bytes * bytes) :=
  if has_prefix sep s then Some ([], drop (length sep) s)
  else match s with [] => None | b :: t => '(u, v) ← cut_text sep t; Some (b :: u, v) end.
(** The type, what its importer connects to, and the database. *)
Definition ParseSourceDSN (dsn : bytes) : option (bytes * bytes * bytes) :=
  '(kind, conn) ← cut_text (str "://") dsn;
  let kind := to_lower kind in
  let last := match cut_last 47 conn with Some (_, t) => t | None => [] end in
  if existsb (bytes_eqb kind) (map str ["mysql"; "postgresql"; "mssql"]%string) then Some (kind, conn, (cut 63 last).1)
  else if bytes_eqb kind (str "sqlite") then Some (kind, conn, match cut_last 46 last with Some (u, _) => u | None => last end)
  else if bytes_eqb kind (str "oracle") then Some (kind, conn, last)
  else None.
End Importing.
