(* ===== verification/ImportSpec.v ===== *)
(** * Importing tables: every row once, in batches

    Against a source that answers a part of its rows for an offset and a
    limit, the rows of a table are inserted in order, in batches of the size
    that is configured. *)

From S2P Require Import Prelude GoLib Types RowCodec Page PageCache TableFile Crypto Json Wal Storage Functions Script Auth Ast Eval Select Dml Lexer Parser ParserDml Engine EngineExamples Converter Import.
Local Open Scope Z_scope.

(** ** Batches *)

Fixpoint chunks {A} (fuel : nat) (b : nat) (l : list A) : list (list A) :=
  match fuel, l with
  | S n, _ :: _ => take b l :: chunks n b (drop b l)
  | _, _ => []
  end.

Lemma concat_chunks {A} fuel b (l : list A) : (0 < b)%nat -> (length l <= fuel)%nat -> concat (chunks fuel b l) = l.
Proof.
  intros Hb. revert l. induction fuel as [|n IH]; intros l Hl; destruct l as [|x l]; try done; [cbn in Hl; lia|].
  cbn [chunks concat]. rewrite IH by (rewrite length_drop; cbn [length] in *; lia). apply take_drop.
Qed.
Lemma chunks_size {A} fuel b (l : list A) : Forall (fun c => (length c <= b)%nat) (chunks fuel b l).
Proof.
  revert l. induction fuel as [|n IH]; intros l; destruct l as [|x l]; constructor; [|apply IH]. rewrite length_take. lia.
Qed.

Section Batches.
Context `{GoRuntime} `{FunctionRuntime} `{FullText} `{MapOrder} `{JSONRuntime} `{RecordJSON} `{Environment} `{ColumnJSON}
  `{Digests} `{!HostFiles} (error_text : EngineError -> bytes) (fuel : nat).

Abbreviation IM := (SO Engine ImportError).

(** Batches inserted one after the other, numbered. *)
Fixpoint insert_all (table : bytes) (schema : TableSchema) (n : Z) (batches : list (list (list GoData))) (p : Progress) : IM Progress :=
  match batches with
  | [] => mret p
  | rows :: batches => p ← insert_batch fuel table schema n rows p; insert_all table schema (n + 1) batches p
  end.

Lemma insert_batch_counts table schema n rows p e p' e' : insert_batch fuel table schema n rows p e = (Ok p', e') ->
  p' = mkProgress (i64 (imported p + zlen rows)) (failures p) \/ exists x, p' = failed (InsertFailed n x) p.
Proof. unfold insert_batch. destruct (insertRows _ _ _ _ e) as [[[]|x| |] e1]; intros [= <- _]; [by left|right; by eexists]. Qed.

Lemma insert_all_failures table schema n bs p e p' e' : insert_all table schema n bs p e = (Ok p', e') -> exists l, failures p' = failures p ++ l.
Proof.
  revert n p e. induction bs as [|rows bs IH]; intros n p e; cbn [insert_all]; [intros [= -> _]; exists []; by rewrite app_nil_r|].
  intros Hr. apply bind_inv in Hr as (p1 & e1 & Hb & Hr). apply IH in Hr as [l ->].
  apply insert_batch_counts in Hb as [-> | [x ->]]; cbn [failures failed]; [by exists l|]. rewrite <- app_assoc. by eexists.
Qed.

Lemma insert_all_counts table schema n bs p e p' e' : insert_all table schema n bs p e = (Ok p', e') -> failures p' = failures p ->
  0 <= imported p -> imported p + zlen (concat bs) < 2 ^ 63 -> imported p' = imported p + zlen (concat bs).
Proof.
  revert n p e. induction bs as [|rows bs IH]; intros n p e; cbn [insert_all concat]; [intros [= -> _] _ _ _; by rewrite Z.add_0_r|].
  rewrite zlen_app. intros Hr Hf Hp Hl. pose proof (zlen_nonneg rows). pose proof (zlen_nonneg (concat bs)).
  apply bind_inv in Hr as (p1 & e1 & Hb & Hr). pose proof (insert_all_failures _ _ _ _ _ _ _ _ Hr) as [l Hfl].
  apply insert_batch_counts in Hb as [-> | [x ->]]; cbn [imported failures failed] in *.
  - assert (Hi : i64 (imported p + zlen rows) = imported p + zlen rows) by (unfold i64; rewrite Z.mod_small; lia).
    rewrite Hi in *. erewrite IH; [|exact Hr|done|cbn; lia|cbn; lia]. cbn [imported]. lia.
  - exfalso. rewrite Hf, <- app_assoc in Hfl. apply (f_equal length) in Hfl. rewrite !length_app in Hfl. cbn in Hfl. lia.
Qed.

Context (imp : Importer) (config : ImportConfig) (rows : list (list GoData)).
(** The source answers the rows from an offset on, as many as are asked for
    and there. *)
Context (Hread : forall off lim, 0 <= off -> 0 < lim -> off + lim <= zlen rows ->
  ReadTable imp (SourceDB config) (SourceTable config) off lim = Some (take (Z.to_nat lim) (drop (Z.to_nat off) rows))).

Lemma import_loop_batches n table schema batch offset p e :
  0 < batch -> batch + zlen rows < 2 ^ 63 -> 0 <= offset -> offset mod batch = 0 -> zlen rows - offset <= Z.of_nat n ->
  import_loop fuel n imp config table schema (zlen rows) batch offset p e =
  insert_all table schema (offset / batch) (chunks n (Z.to_nat batch) (drop (Z.to_nat offset) rows)) p e.
Proof.
  intros Hb Hl. pose proof (zlen_nonneg rows). revert offset p e. induction n as [|n IH]; intros offset p e Ho Hm Hn; cbn [import_loop].
  { rewrite (proj2 (Z.leb_le _ _)) by lia. rewrite drop_ge by (unfold zlen in *; lia). done. }
  destruct (Z.leb_spec (zlen rows) offset) as [Hd|Hd].
  { rewrite drop_ge by (unfold zlen in *; lia). done. }
  assert (Hi : i64 (offset + batch) = offset + batch) by (unfold i64; rewrite Z.mod_small; lia).
  assert (Hj : i64 (zlen rows - offset) = zlen rows - offset) by (unfold i64; rewrite Z.mod_small; lia).
  rewrite Hi, Hj, Hread by (try lia; destruct (Z.ltb_spec (zlen rows) (offset + batch)); lia).
  destruct (drop (Z.to_nat offset) rows) as [|r rest] eqn:Er.
  { apply (f_equal length) in Er. rewrite length_drop in Er. unfold zlen in *. cbn in Er. lia. }
  cbn [chunks insert_all]. rewrite <- Er.
  assert (take (Z.to_nat (if zlen rows <? offset + batch then zlen rows - offset else batch)) (drop (Z.to_nat offset) rows)
    = take (Z.to_nat batch) (drop (Z.to_nat offset) rows)) as ->.
  { destruct (Z.ltb_spec (zlen rows) (offset + batch)); [|done]. rewrite !take_ge; [done|..]; rewrite length_drop; unfold zlen in *; lia. }
  rewrite drop_drop. replace (Z.to_nat offset + Z.to_nat batch)%nat with (Z.to_nat (offset + batch)) by lia.
  replace (offset / batch + 1) with ((offset + batch) / batch) by (rewrite <- (Z.mul_1_l batch) at 1; rewrite Z.div_add by lia; done).
  unfold mbind, SO_bind. destruct (insert_batch _ _ _ _ _ _ e) as [[p1|x| |] e1]; try done. apply IH; [lia| |lia].
  rewrite <- (Z.mul_1_l batch) at 1. rewrite Z.mod_add by lia. done.
Qed.

Definition batch_size : Z := if BatchSize config <=? 0 then 1000 else BatchSize config.
Definition batches : list (list (list GoData)) := chunks (length rows) (Z.to_nat batch_size) rows.

(** The table is created, then the batches are inserted, then the metadata is
    saved. *)
Definition import_in_batches (schema : TableSchema) : IM ImportResult :=
  when (CreateTable_ config) (or_import CreateFailed (createTableFromSchema error_text fuel (target_of config) schema (Overwrite config)));;
  or_import CreateFailed (in_storage (SetSkipSave true));;
  saved_after (p ← insert_all (target_of config) schema 0 batches (mkProgress 0 []); mret (mkImportResult 1 (imported p) (failures p) [])).

Lemma saved_after_ext {A} (m m' : IM A) e : m e = m' e -> saved_after m e = saved_after m' e.
Proof. unfold saved_after. by intros ->. Qed.
Lemma bind_ext {A B} (m : IM A) (k k' : A -> IM B) e : (forall a e', k a e' = k' a e') -> (m ≫= k) e = (m ≫= k') e.
Proof. intros Hk. unfold mbind, SO_bind. destruct (m e) as [[]]; auto. Qed.
Lemma bind_ext_l {A B} (m m' : IM A) (k : A -> IM B) e : m e = m' e -> (m ≫= k) e = (m' ≫= k) e.
Proof. unfold mbind, SO_bind. by intros ->. Qed.

Lemma import_in_batches_rows schema e result e' : import_in_batches schema e = (Ok result, e') -> zlen rows < 2 ^ 63 -> 0 < batch_size ->
  Errors result = [] -> RowsImported result = zlen rows.
Proof.
  intros Hr Hl Hb He. unfold import_in_batches in Hr. apply bind_inv in Hr as (? & e1 & _ & Hr). apply bind_inv in Hr as (? & e2 & _ & Hr).
  unfold saved_after in Hr.
  destruct ((p ← insert_all _ _ _ _ _; _) e2) as [[r|err| |] e3] eqn:E; try done. injection Hr as <- _.
  apply bind_inv in E as (p & e4 & Hi & [= <- _]). cbn [Errors RowsImported] in *.
  pose proof (insert_all_counts _ _ _ _ _ _ _ _ Hi) as Hc. cbn [failures imported] in Hc. rewrite He in Hc.
  assert (Hcat : concat batches = rows) by (apply concat_chunks; lia). rewrite Hcat in Hc. apply Hc; [done|lia..].
Qed.

Lemma batch_size_positive : 0 < batch_size.
Proof. unfold batch_size. destruct (Z.leb_spec (BatchSize config) 0); lia. Qed.
Lemma import_table_in_batches importers schema e :
  importers (SourceType config) = Some imp -> Connect imp (SourceDSN config) = true -> SourceTable config <> [] ->
  GetTableSchema imp (SourceDB config) (SourceTable config) = Some schema ->
  ReadTableCount imp (SourceDB config) (SourceTable config) = Some (zlen rows) ->
  batch_size + zlen rows < 2 ^ 63 ->
  ImportTable error_text fuel importers config e = import_in_batches schema e.
Proof.
  intros Hi Hc Ht Hs Hn Hl. pose proof (zlen_nonneg rows). pose proof batch_size_positive.
  unfold ImportTable, import_in_batches. rewrite Hi, Hc, Hs, Hn. unfold bytes_eqb. rewrite bool_decide_eq_false_2 by done. cbn [negb].
  apply bind_ext. intros ? e1. apply bind_ext. intros ? e2. apply saved_after_ext, bind_ext_l.
  change (if BatchSize config <=? 0 then 1000 else BatchSize config) with batch_size.
  rewrite import_loop_batches; try (done || lia). rewrite Z.div_0_l by lia.
  unfold batches, zlen. by rewrite Nat2Z.id.
Qed.

(** C21: a table is imported as batches of its rows, of the size that is
    configured, inserted one after the other: together they are the rows of the
    source, each once and in order; and an import without errors reports their
    number. *)
Theorem ImportTable_batches importers schema e :
  importers (SourceType config) = Some imp -> Connect imp (SourceDSN config) = true -> SourceTable config <> [] ->
  GetTableSchema imp (SourceDB config) (SourceTable config) = Some schema ->
  ReadTableCount imp (SourceDB config) (SourceTable config) = Some (zlen rows) ->
  batch_size + zlen rows < 2 ^ 63 ->
  concat batches = rows /\ Forall (fun b => (length b <= Z.to_nat batch_size)%nat) batches /\
  ImportTable error_text fuel importers config e = import_in_batches schema e /\
  (forall result e', ImportTable error_text fuel importers config e = (Ok result, e') -> Errors result = [] -> RowsImported result = zlen rows).
Proof.
  intros Hi Hc Ht Hs Hn Hl. pose proof (zlen_nonneg rows). pose proof batch_size_positive.
  pose proof (import_table_in_batches importers schema e Hi Hc Ht Hs Hn Hl) as Heq.
  split_and!; [apply concat_chunks; lia|apply chunks_size|done|]. intros result e' Hr. rewrite Heq in Hr.
  eapply import_in_batches_rows; [exact Hr|lia|done].
Qed.
End Batches.

(** ** An import at work *)

Definition source_rows : list (list GoData) :=
  [[GInt KInt64 1; GString (str "o'neil")]; [GInt KInt64 2; GNil]; [GInt KInt64 3; GString (str "cyd")]].
Definition source_schema : TableSchema :=
  mkSchema (str "staff") [mkColumnInfo (str "id") (str "INTEGER") TypeInt 0 false true false GNil;
                          mkColumnInfo (str "name") (str "VARCHAR(20)") TypeVarchar 20 true false false GNil] [str "id"] [] [] [] [].
Definition list_importer : Importer :=
  mkImporter (fun _ => true) (fun _ => Some [str "staff"]) (fun _ _ => Some source_schema)
    (fun _ _ off lim => Some (take (Z.to_nat lim) (drop (Z.to_nat off) source_rows))) (fun _ _ => Some (zlen source_rows)).
Definition list_importers (t : bytes) : option Importer := if bytes_eqb t (str "sqlite") then Some list_importer else None.
Definition staff_config : ImportConfig := mkImport (str "sqlite") [] [] (str "staff") [] 2 false true.
Definition no_text (e : EngineError) : bytes := [].
Definition imported_staff : outcome ImportError ImportResult * Engine := ImportTable no_text 10 list_importers staff_config memory_engine.

Lemma ImportTable_batches_witness :
  exists result, (ImportTable no_text 10 list_importers staff_config memory_engine).1 = Ok result /\ RowsImported result = 3.
Proof.
  destruct (ImportTable_batches no_text 10 list_importer staff_config source_rows (fun _ _ _ _ _ => eq_refl) list_importers source_schema memory_engine
    ltac:(vm_compute; reflexivity) eq_refl ltac:(discriminate) eq_refl eq_refl ltac:(vm_compute; reflexivity)) as (_ & _ & _ & Hr).
  assert (Hx : exists result, (ImportTable no_text 10 list_importers staff_config memory_engine).1 = Ok result /\ Errors result = [])
    by (eexists; split; vm_compute; reflexivity).
  destruct Hx as (result & Hx & He). exists result. split; [exact Hx|]. exact (Hr result _ (run_answer _ _ Hx) He).
Defined.

Example imported_rows : shown (Engine.Execute 10 (str "SELECT id, name FROM staff") imported_staff.2).1 =
  rows [["1"; "o'neil"]; ["2"; "NULL"]; ["3"; "cyd"]]%string.
Proof. vm_compute. reflexivity. Qed.

(** A default that is a text is not quoted. *)
Example text_default_unquoted : buildColumnDef source_schema (mkColumnInfo (str "state") (str "VARCHAR(5)") TypeVarchar 5 true false false (GString (str "new")))
  = str "state VARCHAR(5) DEFAULT new".
Proof. vm_compute. reflexivity. Qed.
(** Of a table whose batches could not be read, ImportAll reports nothing. *)
Definition broken_importer : Importer :=
  mkImporter (Connect list_importer) (ListTables_ list_importer) (GetTableSchema list_importer) (fun _ _ _ _ => None) (ReadTableCount list_importer).
Example all_drops_errors : (ImportAll no_text 10 (fun _ => Some broken_importer) staff_config memory_engine).1 = Ok (mkImportResult 1 0 [] []).
Proof. vm_compute. reflexivity. Qed.
Example source_names : map (fun d => snd <$> ParseSourceDSN (str d)) ["mysql://u:p@h:3306/shop?x=1"; "SQLite:///tmp/shop.db"; "other://h/shop"]%string
  = [Some (str "shop"); Some (str "shop"); None].
Proof. vm_compute. reflexivity. Qed.
