(* ===== verification/FileSys.v ===== *)
(** * File systems (storage/fs.go): paths, what a write may do, the interface

    The four file systems of the storage reach their files through the
    operating system or a client library. Those are parameters, classes of
    operations on a world in which files have contents. An operation ends with
    a result or with an error, whose text the code looks at. This file has the
    paths, the notions of a write that is all or nothing, and the interface
    through which the storage writes its metadata. *)

From S2P Require Import Prelude GoLib Types Functions Eval Url.
Local Open Scope Z_scope.

Record FileInfo := mkFileInfo { FName : bytes; FSize : Z; FMode : Z; FModTime : Z; FIsDir : bool }.

Definition ModeDir : Z := 2 ^ 31.
Definition PermDir : Z := 0x1ED.
Definition PermFile : Z := 0x1A4.

(** The flags of the package, next to those of the operating system. *)
Definition FlagO_APPEND : Z := 0x100.
Definition FlagO_CREATE : Z := 0x40.
Definition FlagO_SYNC : Z := 0x200.
Definition FlagO_TRUNC : Z := 0x200.
Definition O_CREATE : Z := 0x40.
Definition O_APPEND : Z := 0x400.
Definition O_RDWR : Z := 2.
Definition has_flag (flag bit : Z) : bool := negb (Z.land flag bit =? 0).

(** ** Paths (path and path/filepath) *)

Definition slash : bytes := str "/".
Definition dot_dot : bytes := str "..".

(** The elements of a path without those that change nothing; the last first. *)
Fixpoint clean_parts (rooted : bool) (done parts : list bytes) : list bytes :=
  match parts with
  | [] => done
  | p :: rest =>
    if bool_decide (p = []) || bool_decide (p = str ".") then clean_parts rooted done rest
    else if bool_decide (p = dot_dot) then
      match done with
      | q :: done' => if bool_decide (q = dot_dot) then clean_parts rooted (p :: done) rest else clean_parts rooted done' rest
      | [] => if rooted then clean_parts rooted [] rest else clean_parts rooted [p] rest
      end
    else clean_parts rooted (p :: done) rest
  end.
Definition path_clean (p : bytes) : bytes :=
  let rooted := has_prefix slash p in
  let text := join_text slash (rev (clean_parts rooted [] (split_on 47 (S (length p)) p))) in
  if rooted then slash ++ text else match text with [] => str "." | _ => text end.
Definition path_join (elems : list bytes) : bytes :=
  match List.filter (fun e => negb (bool_decide (e = []))) elems with
  | [] => []
  | l => path_clean (join_text slash l)
  end.
(** filepath.Dir and filepath.Base. *)
Definition path_dir (p : bytes) : bytes :=
  path_clean (match cut_last 47 p with Some (d, _) => d ++ slash | None => [] end).
Fixpoint trim_slashes (p : bytes) : bytes :=   (* at the end *)
  match p with
  | [] => []
  | b :: t => match trim_slashes t with [] => if is_char 47 b then [] else [b] | t' => b :: t' end
  end.
Definition path_base (p : bytes) : bytes :=
  match p with
  | [] => str "."
  | _ => let p := trim_slashes p in
         let b := match cut_last 47 p with Some (_, b) => b | None => p end in
         match b with [] => slash | _ => b end
  end.
Definition is_abs (p : bytes) : bool := has_prefix slash p.

Example cleaned : map path_clean (map str ["a//b/./c/.."; "/../a"; "../../x"; ""; "/"; "a/.."]%string) =
  map str ["a/b"; "/a"; "../../x"; "."; "/"; "."]%string.
Proof. reflexivity. Qed.
Example dirs : (map path_dir (map str ["/a/b"; "/a"; "a"; "a/b/"]%string), map path_base (map str ["/a/b"; "/"; "a"; "a/b/"; ""]%string)) =
  (map str ["/a"; "/"; "."; "a/b"]%string, map str ["b"; "/"; "a"; "b"; "."]%string).
Proof. reflexivity. Qed.

(** Text without a slash at the end of a path makes the clean path longer,
    where it does not complete a special element. *)

Definition no_slash (s : bytes) : bool := forallb (fun b => negb (is_char 47 b)) s.

Lemma cut_app p s : no_slash s = true ->
  cut 47 (p ++ s) = match cut 47 p with (a, Some rest) => (a, Some (rest ++ s)) | (a, None) => (a ++ s, None) end.
Proof.
  intros Hs. induction p as [|b p IH]; cbn.
  - induction s as [|b s IHs]; [done|]. cbn in Hs |- *. apply andb_true_iff in Hs as [Hb Hs]. apply negb_true_iff in Hb. rewrite Hb, IHs by done. done.
  - destruct (is_char 47 b); [done|]. rewrite IH. by destruct (cut 47 p) as [a [rest|]].
Qed.

Lemma cut_shorter p a rest : cut 47 p = (a, Some rest) -> (length rest < length p)%nat.
Proof.
  revert a. induction p as [|b p IH]; intros a; [done|]. cbn. destruct (is_char 47 b); [intros [= <- <-]; lia|].
  destruct (cut 47 p) as [u [v|]]; [|done]. intros [= <- <-]. specialize (IH u eq_refl). lia.
Qed.

Lemma split_app s : no_slash s = true -> forall fuel fuel' p, (length p < fuel)%nat -> (length p < fuel')%nat ->
  exists init last, split_on 47 fuel p = init ++ [last] /\ split_on 47 fuel' (p ++ s) = init ++ [last ++ s].
Proof.
  intros Hs fuel. induction fuel as [|fuel IH]; intros [|fuel'] p H1 H2; [lia..|]. cbn [split_on]. rewrite cut_app by done.
  destruct (cut 47 p) as [a [rest|]] eqn:E; [|by exists [], a].
  apply cut_shorter in E. destruct (IH fuel' rest) as (init & last & -> & ->); [lia..|]. by exists (a :: init), last.
Qed.

Lemma clean_parts_app r acc init parts : clean_parts r acc (init ++ parts) = clean_parts r (clean_parts r acc init) parts.
Proof.
  revert acc. induction init as [|p init IH]; intros acc; [done|]. cbn. case_bool_decide; [apply IH|].
  case_bool_decide; [apply IH|]. cbn. case_bool_decide; [|apply IH].
  destruct acc as [|q acc]; [destruct r; apply IH|]. case_bool_decide; apply IH.
Qed.

Definition text_length (parts : list bytes) : nat := length (join_text slash (rev parts)).

Lemma join_text_app sep l x : l <> [] -> join_text sep (l ++ [x]) = join_text sep l ++ sep ++ x.
Proof. destruct l as [|h t]; [done|]. intros _. cbn. rewrite map_app, concat_app. cbn. by rewrite app_nil_r, <- app_assoc. Qed.
Lemma text_length_cons x parts : text_length (x :: parts) = match parts with [] => length x | _ => (text_length parts + 1 + length x)%nat end.
Proof.
  unfold text_length. cbn [rev]. destruct parts as [|q parts]; [cbn; by rewrite app_nil_r|].
  rewrite join_text_app by (cbn; by destruct (rev parts)). rewrite !length_app. cbn. lia.
Qed.

(** A part that is not special is added. *)
Definition special (p : bytes) : bool := bool_decide (p = []) || bool_decide (p = str ".") || bool_decide (p = dot_dot).
Lemma clean_plain r parts x : special x = false -> clean_parts r parts [x] = x :: parts.
Proof. unfold special. intros Hx. apply orb_false_iff in Hx as [H1 H2]. unfold clean_parts. by rewrite H1, H2. Qed.
Lemma clean_shorter r parts c x : (length c < length x)%nat -> (2 < length x)%nat ->
  (text_length (clean_parts r parts [c]) < text_length (x :: parts))%nat.
Proof.
  intros Hc Hx. assert (Hcons : forall y, (length y < length x)%nat -> (text_length (y :: parts) < text_length (x :: parts))%nat).
  { intros y Hy. rewrite !text_length_cons. destruct parts; lia. }
  assert (Hself : (text_length parts < text_length (x :: parts))%nat) by (rewrite text_length_cons; destruct parts; cbn; lia).
  cbn. case_bool_decide; [done|]. case_bool_decide; [done|]. cbn. case_bool_decide as Hd; [subst c|by apply Hcons].
  destruct parts as [|q parts]; [destruct r; [done|by apply Hcons]|].
  case_bool_decide; [by apply Hcons|]. revert Hself. rewrite !(text_length_cons _ (q :: parts)), (text_length_cons q). destruct parts; cbn; lia.
Qed.

Lemma path_clean_longer p s : no_slash s = true -> (2 < length s)%nat -> (forall c, special (c ++ s) = false) -> (has_prefix slash p = has_prefix slash (p ++ s)) ->
  (length (path_clean p) < length (path_clean (p ++ s)))%nat.
Proof.
  intros Hs Hlen Hsp Hroot. unfold path_clean. rewrite <- Hroot.
  destruct (split_app s Hs (S (length p)) (S (length (p ++ s))) p) as (init & last & -> & ->); [lia|rewrite length_app; lia|].
  rewrite !clean_parts_app, (clean_plain _ _ (last ++ s) (Hsp last)). set (r := has_prefix slash p). set (parts := clean_parts r [] init).
  pose proof (clean_shorter r parts last (last ++ s)) as Hl. rewrite length_app in Hl. specialize (Hl ltac:(lia) ltac:(lia)).
  unfold text_length in Hl. destruct r; [rewrite !length_app; lia|].
  assert (Hbig : (2 < length (join_text slash (rev ((last ++ s) :: parts))))%nat).
  { change (2 < text_length ((last ++ s) :: parts))%nat. rewrite text_length_cons, length_app. destruct parts; lia. }
  destruct (join_text slash (rev ((last ++ s) :: parts))) as [|b t]; [cbn in Hbig; lia|].
  destruct (join_text slash (rev (clean_parts false parts [last]))); cbn in *; lia.
Qed.

(** The names of temporary files. *)
Definition temp_suffix (id : bytes) : bytes := str ".tmp." ++ hex_encode id.
Lemma no_slash_temp id : no_slash (temp_suffix id) = true.
Proof.
  unfold temp_suffix, no_slash. rewrite forallb_app. apply andb_true_iff. split; [done|]. apply forallb_forall. intros b Hb.
  pose proof (hex_encode_lower id) as Hl. rewrite Forall_forall in Hl. apply list_elem_of_In, Hl in Hb. unfold lower_hex in Hb. unfold is_char.
  apply negb_true_iff, Z.eqb_neq. lia.
Qed.
Lemma special_temp c id : special (c ++ temp_suffix id) = false.
Proof.
  assert (Hl : (2 < length (c ++ temp_suffix id))%nat) by (unfold temp_suffix; rewrite !length_app; cbn; lia).
  unfold special. rewrite !bool_decide_eq_false_2; [done|intros Hx; rewrite Hx in Hl; cbn in Hl; lia..].
Qed.
Lemma temp_path_longer p id : p <> [] -> (length (path_clean p) < length (path_clean (p ++ temp_suffix id)))%nat.
Proof.
  intros Hp. apply path_clean_longer; [apply no_slash_temp|unfold temp_suffix; rewrite length_app; cbn; lia|intros; apply special_temp|].
  destruct p; [done|]. done.
Qed.

(** ** What a run does

    [ends m w Q]: the result of [m] from [w], and the world then, are in [Q]. *)

Section Runs.
Context {W : Type}.

Definition ends {A} (m : SO W bytes A) (w : W) (Q : outcome bytes A -> W -> Prop) : Prop := Q (m w).1 (m w).2.

(** A result that is no value, at another type. *)
Definition failed_as {A B} (r : outcome bytes A) : outcome bytes B :=
  match r with Ok _ => Panic | Err e => Err e | Panic => Panic | Hang => Hang end.

Lemma ends_weaken {A} (m : SO W bytes A) w Q R : ends m w Q -> (forall r w', Q r w' -> R r w') -> ends m w R.
Proof. unfold ends. auto. Qed.
Lemma ends_bind {A B} (m : SO W bytes A) (k : A -> SO W bytes B) w Q :
  ends m w (fun r w' => match r with Ok a => ends (k a) w' Q | _ => Q (failed_as r) w' end) -> ends (m ≫= k) w Q.
Proof. unfold ends, mbind, SO_bind. by destruct (m w) as [[a|e| |] w']. Qed.

Lemma ends_gets {A B} (f : W -> A) (k : A -> SO W bytes B) w Q : ends (k (f w)) w Q -> ends (gets f ≫= k) w Q.
Proof. done. Qed.

(** The deferred clean-up of a function that did not succeed. *)
Definition on_failure {A B} (cleanup : SO W bytes B) (m : SO W bytes A) : SO W bytes A := fun w =>
  match m w with
  | (Ok a, w') => (Ok a, w')
  | (r, w') => (r, (cleanup w').2)
  end.
Lemma ends_on_failure {A B} (cleanup : SO W bytes B) (m : SO W bytes A) w Q :
  ends m w (fun r w' => match r with Ok a => Q (Ok a) w' | _ => ends cleanup w' (fun _ => Q r) end) -> ends (on_failure cleanup m) w Q.
Proof. unfold ends, on_failure. by destruct (m w) as [[a|e| |] w']. Qed.

(** ** All or nothing *)

Variable contents : W -> bytes -> option bytes.

(** Only [p] may have changed. *)
Definition only (p : bytes) (w w' : W) : Prop := forall q, q <> p -> contents w' q = contents w q.
Definition unchanged (w w' : W) : Prop := forall q, contents w' q = contents w q.

(** The file [a] is now [b]. *)
Definition moved (a b : bytes) (w w' : W) : Prop :=
  (exists d, contents w a = Some d /\ contents w' b = Some d) /\ contents w' a = None /\
  forall q, q <> a -> q <> b -> contents w' q = contents w q.

(** Writing [data] to [target] by way of [temp]: whatever happens the target is
    as it was or holds the data; it holds the data where the write succeeds; no
    other file changes. *)
Record all_or_nothing (target temp data : bytes) (w : W) (r : outcome bytes unit) (w' : W) : Prop := {
  aon_target : contents w' target = contents w target \/ contents w' target = Some data;
  aon_done : r = Ok tt -> contents w' target = Some data;
  aon_others : forall q, q <> target -> q <> temp -> contents w' q = contents w q
}.

Lemma only_trans p w w' w'' : only p w w' -> only p w' w'' -> only p w w''.
Proof. intros H1 H2 q Hq. rewrite H2, H1; auto. Qed.
Lemma unchanged_only p w w' : unchanged w w' -> only p w w'.
Proof. intros Hu q _. apply Hu. Qed.
Lemma unchanged_trans w w' w'' : unchanged w w' -> unchanged w' w'' -> unchanged w w''.
Proof. intros H1 H2 q. by rewrite H2, H1. Qed.
Lemma not_moved a b w w' : contents w a = None -> ~ moved a b w w'.
Proof. intros Ha [(d & Hd & _) _]. congruence. Qed.

(** The target before the rename: only the temporary file was touched. *)
Lemma aon_temp target temp data w r w' : target <> temp -> only temp w w' -> r <> Ok tt -> all_or_nothing target temp data w r w'.
Proof. intros Hne Ho Hr. split; [left; by apply Ho|done|]. intros q _ Hq. by apply Ho. Qed.
(** After it, and whatever happened to the temporary file then. *)
Lemma aon_moved target temp data w w1 w2 r w' : target <> temp -> only temp w w1 -> contents w1 temp = Some data ->
  moved temp target w1 w2 -> only temp w2 w' -> all_or_nothing target temp data w r w'.
Proof.
  intros Hne Ho Hd [(d & Hd1 & Hd2) [_ Hrest]] Ho2. assert (d = data) as -> by congruence.
  assert (Ht : contents w' target = Some data) by (rewrite Ho2; done).
  split; [by right|done|]. intros q Hq1 Hq2. rewrite Ho2, Hrest, Ho; done.
Qed.
End Runs.

(** ** The interface

    What the storage uses of a file system: names denote files, and the laws
    say which files an operation can change. *)

Class FileSystem (W : Type) := {
  ReadFile : bytes -> SO W bytes bytes;
  WriteFile : bytes -> bytes -> SO W bytes unit;
  Rename : bytes -> bytes -> SO W bytes unit;
  Remove : bytes -> SO W bytes unit;
  Join : list bytes -> bytes;
  random8 : W -> bytes                  (* eight bytes of crypto/rand *)
}.

(** [key n] is the file that the name [n] denotes. *)
Class FileSystemLaws (W : Type) {FS : FileSystem W} (contents : W -> bytes -> option bytes) (key : bytes -> bytes) : Prop := {
  ReadFile_reads name w : ends (ReadFile name) w (fun r w' => unchanged contents w w' /\ forall d, r = Ok d -> contents w (key name) = Some d);
  WriteFile_atomic name data w : ends (WriteFile name data) w (fun r w' =>
    exists temp, key name <> temp /\ (length (key name) < length temp)%nat /\ all_or_nothing contents (key name) temp data w r w');
  Rename_moves old new w : key old <> key new -> ends (Rename old new) w (fun r w' =>
    (unchanged contents w w' /\ r <> Ok tt) \/ moved contents (key old) (key new) w w');
  Remove_only name w : ends (Remove name) w (fun _ w' => only contents (key name) w w');
  key_longer name id : name <> [] -> (length (key name) < length (key (name ++ temp_suffix id)))%nat
}.

(** ** Writing the metadata file (saveMetadata of storage/storage.go) *)

Section Metadata.
Context {W : Type} `{FileSystem W}.

Definition write_metadata (metaPath data : bytes) : SO W bytes unit :=
  id ← gets random8;
  let temp := metaPath ++ temp_suffix id in
  r ← try (WriteFile temp data);
  match r with
  | inr e => fail (str "failed to write metadata: " ++ e)
  | inl _ =>
    r ← try (Rename temp metaPath);
    match r with
    | inr e => try (Remove temp);; fail (str "failed to rename metadata file: " ++ e)
    | inl _ => mret tt
    end
  end.

End Metadata.

(** ** Local files (storage/localfs.go)

    The operations are those of the operating system, parameters of the model.
    SafeWriteFile writes a new file in the same directory and renames it. *)

(** Package os. An open file is known by its name. *)
Class OsFiles (W : Type) := {
  os_read_file : bytes -> SO W bytes bytes;
  os_write_file : bytes -> bytes -> Z -> SO W bytes unit;
  os_create_temp : bytes -> bytes -> SO W bytes bytes;
  os_write : bytes -> bytes -> SO W bytes unit;
  os_sync : bytes -> SO W bytes unit;
  os_close : bytes -> SO W bytes unit;
  os_chmod : bytes -> Z -> SO W bytes unit;
  os_rename : bytes -> bytes -> SO W bytes unit;
  os_remove : bytes -> SO W bytes unit;
  os_stat : bytes -> SO W bytes FileInfo
}.

Section Os.
Context {W : Type} `{OsFiles W}.

Definition Local_Exists (name : bytes) : SO W bytes bool :=
  r ← try (os_stat name); mret (match r with inl _ => true | inr _ => false end).

Definition Local_SafeWriteFile (path data : bytes) (perm : Z) : SO W bytes unit :=
  temp ← os_create_temp (path_dir path) (str ".tmp." ++ path_base path ++ str ".");
  on_failure (os_remove temp) (
    r ← try (os_write temp data);
    match r with
    | inr e => try (os_close temp);; fail e
    | inl _ =>
      r ← try (os_sync temp);
      match r with
      | inr e => try (os_close temp);; fail e
      | inl _ => try (os_close temp);; os_chmod temp perm;; os_rename temp path
      end
    end).

Definition IsTempFile (name : bytes) : bool := has_prefix (str ".tmp.") (path_base name).
End Os.
