(* ===== verification/Transfer.v ===== *)
(** * Transfers and their recovery (storage/transfer.go)

    The transfers that are under way, and the state file that a process that
    starts again reads them from. The file is written and read through the
    interface of the file systems ([FileSys.FileSystem]); what encoding/json
    makes of the records is a class. The code drops the errors of both: a file
    that cannot be encoded, written, read or decoded leaves things as they are.
    Times are arguments, in nanoseconds. *)

From S2P Require Import Prelude GoLib Types Functions Eval Url FileSys.
Local Open Scope Z_scope.

(** A string; these are the values the package uses. *)
Definition TransferStatus : Type := bytes.
Definition Pending : TransferStatus := str "pending".
Definition Uploading : TransferStatus := str "uploading".
Definition Complete : TransferStatus := str "complete".
Definition Failed : TransferStatus := str "failed".

Record TransferInfo := mkTransfer {
  TID : bytes;
  SourcePath : bytes; TargetPath : bytes; TempPath : bytes;
  TotalSize : Z; Transferred : Z;
  Checksum : bytes;
  Status : TransferStatus;
  StartedAt : Z; UpdatedAt : Z;
  TError : bytes;
  Retries : Z
}.

Record TransferState := mkTransfers {
  transfers : gmap bytes TransferInfo;
  stateFile : bytes;
  has_fs : bool                              (* is there a file system? *)
}.

(** json.MarshalIndent and json.Unmarshal for a list of these records; an
    element that is null becomes a nil pointer. *)
Class TransferJSON := {
  marshal_transfers : list TransferInfo -> option bytes;
  unmarshal_transfers : bytes -> option (list (option TransferInfo))
}.

(** time.Time.Sub: the nearest duration. *)
Definition time_sub (t u : Z) : Z := Z.max (- 2 ^ 63) (Z.min (2 ^ 63 - 1) (t - u)).

Section Transfers.
Context {W : Type} `{FS : FileSystem W} `{MO : MapOrder} `{TJ : TransferJSON}.

(** The tracker and the world its file system works on. *)
Abbreviation TM := (SO (TransferState * W) bytes).

Definition on_files {A} (m : SO W bytes A) : TM A := fun st => let '(r, w) := m st.2 in (r, (st.1, w)).
Definition on_transfers (f : gmap bytes TransferInfo -> gmap bytes TransferInfo) : TM unit :=
  modify (fun st => (mkTransfers (f (transfers st.1)) (stateFile st.1) (has_fs st.1), st.2)).
Definition tracker : TM TransferState := gets fst.

(** The transfers in the order of a range loop. *)
Definition in_order (m : gmap bytes TransferInfo) : list TransferInfo := omap (fun id => m !! id) (key_order (map_to_list m).*1).

Definition no_file (s : TransferState) : bool := negb (has_fs s) || bool_decide (stateFile s = []).

Fixpoint add_all (l : list (option TransferInfo)) : TM unit :=
  match l with
  | [] => mret tt
  | Some t :: rest => on_transfers (<[TID t := t]>);; add_all rest
  | None :: _ => lift Panic
  end.
Definition load : TM unit :=
  s ← tracker;
  if no_file s then mret tt
  else
    r ← try (on_files (ReadFile (stateFile s)));
    match r with
    | inr _ => mret tt
    | inl data => match unmarshal_transfers data with Some l => add_all l | None => mret tt end
    end.
Definition save : TM unit :=
  s ← tracker;
  if no_file s then mret tt
  else match marshal_transfers (in_order (transfers s)) with
       | None => mret tt
       | Some data => try (on_files (WriteFile (stateFile s) data));; mret tt
       end.

(** A tracker in a world. *)
Definition NewTransferState (file : bytes) (with_fs : bool) : SO W bytes TransferState := fun w =>
  let '(r, (s, w')) := load (mkTransfers ∅ file with_fs, w) in (match r with Ok _ => Ok s | Err e => Err e | Panic => Panic | Hang => Hang end, w').

(** Change a transfer that is known, and save. *)
Definition change_saved (id : bytes) (f : TransferInfo -> TransferInfo) : TM unit :=
  s ← tracker; match transfers s !! id with Some t => on_transfers (<[id := f t]>);; save | None => mret tt end.

Definition BeginTransfer (started updated : Z) (id source target temp : bytes) (totalSize : Z) : TM unit :=
  on_transfers (<[id := mkTransfer id source target temp totalSize 0 [] Pending started updated [] 0]>);; save.
(** Progress is not saved. *)
Definition UpdateProgress (now : Z) (id : bytes) (transferred : Z) : TM unit :=
  on_transfers (alter (fun t => mkTransfer (TID t) (SourcePath t) (TargetPath t) (TempPath t) (TotalSize t) transferred (Checksum t) Uploading
                                  (StartedAt t) now (TError t) (Retries t)) id).
Definition CompleteTransfer (id : bytes) : TM unit :=
  s ← tracker; match transfers s !! id with Some _ => on_transfers (delete id);; save | None => mret tt end.
Definition FailTransfer (now : Z) (id error : bytes) : TM unit :=
  change_saved id (fun t => mkTransfer (TID t) (SourcePath t) (TargetPath t) (TempPath t) (TotalSize t) (Transferred t) (Checksum t) Failed
                              (StartedAt t) now error (Retries t)).
Definition IncrementRetry (now : Z) (id : bytes) : TM Z :=
  s ← tracker;
  change_saved id (fun t => mkTransfer (TID t) (SourcePath t) (TargetPath t) (TempPath t) (TotalSize t) (Transferred t) (Checksum t) (Status t)
                               (StartedAt t) now (TError t) (i64 (Retries t + 1)));;
  mret (match transfers s !! id with Some t => i64 (Retries t + 1) | None => 0 end).

Definition GetTransfer (id : bytes) (s : TransferState) : option TransferInfo := transfers s !! id.
Definition is_status (st : TransferStatus) (t : TransferInfo) : bool := bool_decide (Status t = st).
Definition GetPendingTransfers (s : TransferState) : list TransferInfo :=
  List.filter (fun t => negb (is_status Complete t)) (in_order (transfers s)).
Definition CanRetry (id : bytes) (maxRetries : Z) (s : TransferState) : bool :=
  match transfers s !! id with Some t => Retries t <? maxRetries | None => false end.
(** Where to go on, and the temporary file. *)
Definition GetResumeInfo (id : bytes) (s : TransferState) : option (Z * bytes) :=
  t ← transfers s !! id; if is_status Uploading t && (0 <? Transferred t) then Some (Transferred t, TempPath t) else None.
Definition TCount (s : TransferState) : Z := Z.of_nat (size (transfers s)).
Definition CountByStatus (st : TransferStatus) (s : TransferState) : Z := zlen (List.filter (is_status st) (in_order (transfers s))).

(** Was the transfer given up or never started? *)
Definition abandoned (t : TransferInfo) : bool := is_status Failed t || is_status Pending t.
(** The temporary files of a list of transfers are removed, on a file system of
    its own; the errors. *)
Fixpoint cleanup_each (remove : bytes -> SO W bytes unit) (l : list (bytes * TransferInfo)) : TM (list bytes) :=
  match l with
  | [] => mret []
  | (id, t) :: rest =>
    if abandoned t then
      errors ← (if bool_decide (TempPath t = []) then mret []
                else r ← try (on_files (remove (TempPath t)));
                     mret (match r with inl _ => [] | inr e => [str "failed to remove temp file " ++ TempPath t ++ str ": " ++ e] end));
      on_transfers (delete id);; more ← cleanup_each remove rest; mret (errors ++ more)
    else cleanup_each remove rest
  end.
Definition CleanupIncomplete (remove : bytes -> SO W bytes unit) : TM (list bytes) :=
  s ← tracker;
  errors ← cleanup_each remove (omap (fun id => (pair id) <$> transfers s !! id) (key_order (map_to_list (transfers s)).*1));
  save;; mret errors.
(** The number of transfers that started too long ago. *)
Definition CleanupOldTransfers (now maxAge : Z) : TM Z :=
  s ← tracker;
  let kept := filter (fun kt => time_sub now (StartedAt kt.2) <= maxAge) (transfers s) in
  let cleaned := Z.of_nat (size (transfers s)) - Z.of_nat (size kept) in
  when (0 <? cleaned) (on_transfers (fun _ => kept);; save);; mret cleaned.

(** ** What a process does, and starting again *)

(** What encoding/json writes and reads back: valid UTF-8, a year of four
    digits. *)
Definition utf8_valid (s : bytes) : Prop := of_runes (runes s) = s.
Definition year_ok (t : Z) : Prop := -62167219200 * 10 ^ 9 <= t < 253402300800 * 10 ^ 9.
Record jsonable (t : TransferInfo) : Prop := {
  json_texts : Forall utf8_valid [TID t; SourcePath t; TargetPath t; TempPath t; Checksum t; Status t; TError t];
  json_times : year_ok (StartedAt t) /\ year_ok (UpdatedAt t);
  json_ints : Forall in_i64 [TotalSize t; Transferred t; Retries t]
}.

Inductive step (file : bytes) : TransferState * W -> TransferState * W -> Prop :=
  | StepBegin started updated id source target temp size st st' :
      Forall utf8_valid [id; source; target; temp] -> year_ok started -> year_ok updated -> in_i64 size ->
      BeginTransfer started updated id source target temp size st = (Ok tt, st') -> step file st st'
  | StepProgress now id n st st' : year_ok now -> in_i64 n -> UpdateProgress now id n st = (Ok tt, st') -> step file st st'
  | StepComplete id st st' : CompleteTransfer id st = (Ok tt, st') -> step file st st'
  | StepFail now id error st st' : year_ok now -> utf8_valid error -> FailTransfer now id error st = (Ok tt, st') -> step file st st'
  | StepRetry now id n st st' : year_ok now -> IncrementRetry now id st = (Ok n, st') -> step file st st'
  | StepCleanup remove errors st st' : CleanupIncomplete remove st = (Ok errors, st') -> step file st st'
  | StepCleanupOld now age n st st' : CleanupOldTransfers now age st = (Ok n, st') -> step file st st'
  | StepRestart st s' w' : NewTransferState file true st.2 = (Ok s', w') -> step file st (s', w').

(** From a process that started in a world [w0]. *)
Inductive reachable (file : bytes) (w0 : W) : TransferState * W -> Prop :=
  | ReachNew s w : NewTransferState file true w0 = (Ok s, w) -> reachable file w0 (s, w)
  | ReachStep st st' : reachable file w0 st -> step file st st' -> reachable file w0 st'.

(** A transfer as the file may have it: its progress may be older. *)
Definition behind (saved t : TransferInfo) : Prop :=
  TID saved = TID t /\ SourcePath saved = SourcePath t /\ TargetPath saved = TargetPath t /\ TempPath saved = TempPath t /\
  TotalSize saved = TotalSize t /\ Checksum saved = Checksum t /\ StartedAt saved = StartedAt t /\ Retries saved = Retries t /\ TError saved = TError t /\
  Status saved <> Complete /\ (Status saved = Status t /\ Transferred saved = Transferred t \/ Status t = Uploading).

(** ** The file and the memory

    The theorems speak of a state file that can be written and read, and of
    records that encoding/json reads back. *)

Class ReliableFile (contents : W -> bytes -> option bytes) (file : bytes) : Prop := {
  write_succeeds data w : exists w', WriteFile file data w = (Ok tt, w') /\ contents w' file = Some data;
  read_succeeds data w : contents w file = Some data -> ReadFile file w = (Ok data, w);
  read_missing w : contents w file = None -> exists e, ReadFile file w = (Err e, w)
}.
Definition json_reads_back : Prop := forall l, Forall jsonable l -> exists data, marshal_transfers l = Some data /\ unmarshal_transfers data = Some (map Some l).

Context (contents : W -> bytes -> option bytes) (file : bytes) `{!ReliableFile contents file}.
Hypothesis named : file <> [].
Hypothesis reads_back : json_reads_back.

Definition insert_all (l : list TransferInfo) (m : gmap bytes TransferInfo) : gmap bytes TransferInfo := fold_left (fun m t => <[TID t := t]> m) l m.

(** What the file would give to a process that starts again. *)
Definition file_map (w : W) : option (gmap bytes TransferInfo) :=
  match contents w file with
  | None => Some ∅
  | Some data => l ← unmarshal_transfers data; m ← mapM id l; Some (insert_all m ∅)
  end.

Definition well_kept (m : gmap bytes TransferInfo) : Prop := map_Forall (fun id t => TID t = id /\ Status t <> Complete /\ jsonable t) m.

Record recoverable (st : TransferState * W) : Prop := {
  rec_file : stateFile st.1 = file /\ has_fs st.1 = true;
  rec_ids : well_kept (transfers st.1);
  rec_saved : exists m, file_map st.2 = Some m /\ well_kept m /\ map_Forall2 (fun _ saved t => behind saved t) m (transfers st.1)
}.

Lemma insert_all_map l : insert_all l ∅ = list_to_map (map (fun t => (TID t, t)) (reverse l)).
Proof.
  unfold insert_all. rewrite <- (reverse_involutive l) at 1. induction (reverse l) as [|t r IH]; [done|].
  rewrite reverse_cons, fold_left_app. cbn [fold_left map list_to_map]. by rewrite IH.
Qed.

Lemma omap_keys {A} (m : gmap bytes A) l : (forall kx, kx ∈ l -> m !! kx.1 = Some kx.2) -> omap (fun id => m !! id) l.*1 = l.*2.
Proof.
  induction l as [|[k x] l IH]; intros Hl; [done|].
  pose proof (Hl (k, x) ltac:(left)) as Hk. cbn in *. rewrite Hk. cbn. f_equal. apply IH. intros kx Hin. apply Hl. by right.
Qed.
Lemma in_order_perm m : in_order m ≡ₚ (map_to_list m).*2.
Proof.
  unfold in_order. rewrite key_order_perm, omap_keys; [done|]. intros [k x] Hin. by apply elem_of_map_to_list in Hin.
Qed.

Lemma insert_in_order m : map_Forall (fun id t => TID t = id) m -> insert_all (in_order m) ∅ = m.
Proof.
  intros Hm. rewrite insert_all_map.
  assert (Hl : map (fun t => (TID t, t)) (map_to_list m).*2 = map_to_list m).
  { rewrite map_map. rewrite <- map_id. apply map_ext_in. intros [id t] Hin. cbn.
    apply list_elem_of_In, elem_of_map_to_list in Hin. by rewrite (Hm _ _ Hin). }
  rewrite <- (list_to_map_to_list m) at 2. symmetry. apply list_to_map_proper; [apply NoDup_fst_map_to_list|].
  rewrite <- Hl at 1. by rewrite reverse_Permutation, in_order_perm.
Qed.

Lemma in_order_jsonable m : well_kept m -> Forall jsonable (in_order m).
Proof.
  intros Hm. rewrite in_order_perm. apply Forall_forall. intros t Hin.
  apply list_elem_of_fmap in Hin as [[id t'] [-> Hin]]. apply elem_of_map_to_list in Hin. by apply Hm in Hin as (_ & _ & ?).
Qed.

Lemma mapM_some {A} (l : list A) : mapM id (map Some l) = Some l.
Proof. by induction l as [|x l IH]; [|cbn; rewrite IH]. Qed.

Lemma behind_refl t : Status t <> Complete -> behind t t.
Proof. unfold behind. tauto. Qed.
Lemma behind_same m : well_kept m -> map_Forall2 (fun _ saved t => behind saved t) m m.
Proof. intros Hm id. destruct (m !! id) as [t|] eqn:E; constructor. by apply behind_refl, (Hm id t E). Qed.

(** After saving, the file has what the memory has. *)
Lemma save_recoverable st : stateFile st.1 = file -> has_fs st.1 = true -> well_kept (transfers st.1) ->
  exists st', save st = (Ok tt, st') /\ recoverable st' /\ transfers st'.1 = transfers st.1.
Proof.
  destruct st as [s w]. cbn. intros Hfile Hfs Hm.
  destruct (reads_back (in_order (transfers s)) (in_order_jsonable _ Hm)) as (data & Hdata & Hback).
  destruct (write_succeeds data w) as (w' & Hw & Hc). exists (s, w'). split_and!; [|split; [done|done|]|done].
  - unfold save, tracker, gets, no_file, mbind, SO_bind, try, on_files, mret, SO_ret. cbn. rewrite Hfs, Hfile, bool_decide_false by done. cbn.
    rewrite Hdata. cbn. by rewrite Hw.
  - exists (transfers s). split_and!; [|done|by apply behind_same]. unfold file_map. cbn. rewrite Hc. cbn. rewrite Hback. cbn. rewrite mapM_some. cbn.
    rewrite insert_in_order; [done|]. intros id t Ht. apply (Hm id t Ht).
Qed.

Lemma status_utf8 : Forall utf8_valid [Pending; Uploading; Failed].
Proof. repeat constructor. Qed.

(** A record with another status, progress, error and number of retries. *)
Lemma jsonable_change t done_ st now error retries : jsonable t -> utf8_valid st -> utf8_valid error -> year_ok now -> in_i64 done_ -> in_i64 retries ->
  jsonable (mkTransfer (TID t) (SourcePath t) (TargetPath t) (TempPath t) (TotalSize t) done_ (Checksum t) st (StartedAt t) now error retries).
Proof.
  intros [Ht [Hs _] Hi] Hst He Hn Hd Hr. rewrite !Forall_cons in Ht. rewrite !Forall_cons in Hi. split; cbn; rewrite ?Forall_cons; tauto.
Qed.
Lemma jsonable_new id source target temp n started updated :
  utf8_valid id -> utf8_valid source -> utf8_valid target -> utf8_valid temp -> in_i64 n -> year_ok started -> year_ok updated ->
  jsonable (mkTransfer id source target temp n 0 [] Pending started updated [] 0).
Proof.
  intros. pose proof status_utf8 as Hst. rewrite !Forall_cons in Hst. destruct Hst as (Hp & _).
  assert (Hz : in_i64 0) by done. assert (He : utf8_valid []) by done.
  split; cbn; rewrite ?Forall_cons, ?Forall_nil; tauto.
Qed.

(** Saving what the code made of a tracker that was kept well. *)
Lemma saved_after f st st' : recoverable st -> well_kept (f (transfers st.1)) -> (on_transfers f;; save) st = (Ok tt, st') -> recoverable st'.
Proof.
  intros [[Hf Hs] _ _] Hm Hrun. destruct st as [s w].
  destruct (save_recoverable (mkTransfers (f (transfers s)) (stateFile s) (has_fs s), w) Hf Hs Hm) as (st2 & Hsave & Hr & _).
  unfold on_transfers, modify, mbind, SO_bind in Hrun. cbn in *. rewrite Hsave in Hrun. by injection Hrun as <-.
Qed.

Lemma change_saved_recoverable id f st st' : recoverable st ->
  (forall t, TID (f t) = TID t) -> (forall t, Status t <> Complete -> jsonable t -> Status (f t) <> Complete /\ jsonable (f t)) ->
  change_saved id f st = (Ok tt, st') -> recoverable st'.
Proof.
  intros Hr Hid Hf Hrun. unfold change_saved, tracker in Hrun. rewrite bind_gets in Hrun.
  pose proof (rec_ids _ Hr) as Hm. destruct (transfers st.1 !! id) as [t|] eqn:E; [|by injection Hrun as <-].
  refine (saved_after _ _ _ Hr _ Hrun). apply map_Forall_insert_2; [|done]. destruct (Hm id t E) as (H1 & H2 & H3).
  rewrite Hid. split; [done|]. by apply Hf.
Qed.

Lemma well_kept_subset m m' : well_kept m -> m' ⊆ m -> well_kept m'.
Proof. intros Hm Hsub id t Ht. apply Hm. by eapply lookup_weaken. Qed.

Lemma cleanup_each_subset remove l st errors st' : cleanup_each remove l st = (Ok errors, st') ->
  stateFile st'.1 = stateFile st.1 /\ has_fs st'.1 = has_fs st.1 /\ transfers st'.1 ⊆ transfers st.1.
Proof.
  revert st errors st'. induction l as [|[id t] l IH]; intros st errors st' Hrun; cbn [cleanup_each] in Hrun; [by injection Hrun as _ <-|].
  destruct (abandoned t); [|by eapply IH]. apply bind_inv in Hrun as (e1 & st1 & H1 & Hrun).
  assert (Hst : st1.1 = st.1).
  { destruct (bool_decide _); [by injection H1 as _ <-|]. apply bind_inv in H1 as (r & st2 & H1 & [= _ <-]).
    unfold try, on_files in H1. destruct (remove (TempPath t) st.2) as [[]]; by injection H1 as _ <-. }
  unfold on_transfers in Hrun. rewrite bind_modify in Hrun. apply bind_inv in Hrun as (more & st3 & Hl & [= _ <-]).
  apply IH in Hl as (-> & -> & Hsub). cbn in *. rewrite Hst in *. split_and!; [done|done|]. etransitivity; [exact Hsub|]. apply delete_subseteq.
Qed.

Lemma cleanup_recoverable remove st errors st' : recoverable st -> CleanupIncomplete remove st = (Ok errors, st') -> recoverable st'.
Proof.
  intros [[Hf Hs] Hm _] Hrun. unfold CleanupIncomplete, tracker in Hrun. rewrite bind_gets in Hrun.
  apply bind_inv in Hrun as (e1 & st1 & Hc & Hrun). apply cleanup_each_subset in Hc as (Hf1 & Hs1 & Hsub).
  destruct (save_recoverable st1) as (st2 & Hsave & Hr & _); [congruence|congruence|by eapply well_kept_subset|].
  rewrite (bind_ok _ _ _ _ _ Hsave) in Hrun. by injection Hrun as _ <-.
Qed.

Lemma progress_recoverable now id n st st' : year_ok now -> in_i64 n -> recoverable st -> UpdateProgress now id n st = (Ok tt, st') -> recoverable st'.
Proof.
  intros Hy Hn [Hf Hm (m & Hfile & Hm' & Hb)] [= <-]. split; [done| |]; cbn [transfers fst snd].
  - intros k t Hk. destruct (decide (k = id)) as [-> | Hne]; [|rewrite lookup_alter_ne in Hk by done; by apply Hm].
    rewrite lookup_alter_eq in Hk. destruct (transfers st.1 !! id) as [t0|] eqn:E; [|done]. injection Hk as <-.
    destruct (Hm _ _ E) as (H1 & _ & Hj). split_and!; [done|done|].
    destruct (Hj) as [Ht _ Hi]. pose proof status_utf8 as Hst. rewrite !Forall_cons in Ht. rewrite !Forall_cons in Hi. rewrite !Forall_cons in Hst. apply jsonable_change; tauto.
  - exists m. split_and!; [done|done|]. intros k. specialize (Hb k).
    destruct (decide (k = id)) as [-> | Hne]; [|by rewrite lookup_alter_ne].
    rewrite lookup_alter_eq. destruct (transfers st.1 !! id) as [t0|]; inversion Hb as [? ? Hx|]; subst; constructor.
    unfold behind in *. cbn. destruct Hx as (? & ? & ? & ? & ? & ? & ? & ? & ? & ? & _). repeat split; auto.
Qed.

(** A process that starts again. *)
Lemma add_all_some l st : add_all (map Some l) st = (Ok tt, (mkTransfers (insert_all l (transfers st.1)) (stateFile st.1) (has_fs st.1), st.2)).
Proof.
  revert st. induction l as [|t l IH]; intros [s w]; [by destruct s|]. cbn [add_all map]. unfold on_transfers. rewrite bind_modify, IH. done.
Qed.

Lemma mapM_id_inv {A} (l : list (option A)) l' : mapM id l = Some l' -> l = map Some l'.
Proof.
  revert l'. induction l as [|x l IH]; intros l'; cbn; [by intros [= <-]|]. destruct x as [x|]; [|done]. cbn.
  destruct (mapM id l) as [l1|]; [|done]. cbn. intros [= <-]. cbn. f_equal. by apply IH.
Qed.

Lemma restart m w : file_map w = Some m -> NewTransferState file true w = (Ok (mkTransfers m file true), w).
Proof.
  intros Hm. unfold NewTransferState, load, tracker. rewrite bind_gets. unfold no_file. cbn [fst has_fs stateFile negb orb]. rewrite bool_decide_false by done.
  unfold file_map in Hm. destruct (contents w file) as [data|] eqn:Ec.
  - cbn in Hm. destruct (unmarshal_transfers data) as [l|] eqn:Eu; [|done]. cbn in Hm.
    destruct (mapM id l) as [l'|] eqn:El; [|done]. cbn in Hm. injection Hm as <-. apply mapM_id_inv in El as ->.
    unfold mbind, SO_bind, try, on_files. cbn. rewrite (read_succeeds _ _ Ec), Eu, add_all_some. done.
  - injection Hm as <-. destruct (read_missing w Ec) as [e He]. unfold mbind, SO_bind, try, on_files. cbn. by rewrite He.
Qed.

Lemma restart_recoverable m w : file_map w = Some m -> well_kept m -> recoverable (mkTransfers m file true, w).
Proof. intros Hm Hk. split; [done|done|]. exists m. split_and!; [done|done|by apply behind_same]. Qed.

Lemma step_recoverable st st' : recoverable st -> step file st st' -> recoverable st'.
Proof.
  intros Hr Hstep. pose proof (rec_ids _ Hr) as Hm. pose proof status_utf8 as Hu. rewrite !Forall_cons in Hu. destruct Hu as (Hu1 & Hu2 & Hu3 & _).
  inversion Hstep as [started updated id source target temp n ? ? Hx Hy1 Hy2 Hn Hrun|now id n ? ? Hy Hn Hrun|id ? ? Hrun|now id error ? ? Hy He Hrun|
    now id n ? ? Hy Hrun|remove errors ? ? Hrun|now age n ? ? Hrun|? s' w' Hrun]; subst.
  - refine (saved_after _ _ _ Hr _ Hrun). apply map_Forall_insert_2; [|done]. rewrite !Forall_cons in Hx. destruct_and!. cbn.
    split_and!; [done|done|]. by apply jsonable_new.
  - by eapply progress_recoverable.
  - unfold CompleteTransfer, tracker in Hrun. rewrite bind_gets in Hrun. destruct (transfers st.1 !! id); [|by injection Hrun as <-].
    refine (saved_after _ _ _ Hr _ Hrun). eapply well_kept_subset; [exact Hm|apply delete_subseteq].
  - refine (change_saved_recoverable id _ _ _ Hr _ _ Hrun); [done|]. intros t Ht Hj. split; [done|].
    pose proof (json_ints _ Hj) as H3. rewrite !Forall_cons in H3. apply jsonable_change; tauto.
  - unfold IncrementRetry, tracker in Hrun. rewrite bind_gets in Hrun. apply bind_inv in Hrun as ([] & st1 & Hrun & [= _ <-]).
    refine (change_saved_recoverable id _ _ _ Hr _ _ Hrun); [done|]. intros t Ht Hj. split; [done|].
    pose proof (json_texts _ Hj) as H1. pose proof (json_ints _ Hj) as H3. rewrite !Forall_cons in H1. rewrite !Forall_cons in H3. apply jsonable_change; try tauto. apply i64_range.
  - by eapply cleanup_recoverable.
  - unfold CleanupOldTransfers, tracker in Hrun. rewrite bind_gets in Hrun. apply bind_inv in Hrun as ([] & st1 & Hrun & [= _ <-]).
    unfold when in Hrun. destruct (0 <? _); [|by injection Hrun as <-]. refine (saved_after _ _ _ Hr _ Hrun).
    eapply well_kept_subset; [exact Hm|apply map_filter_subseteq].
  - destruct Hr as [_ _ (m & Hfile & Hk & _)]. rewrite (restart m _ Hfile) in Hrun. injection Hrun as <- <-. by apply restart_recoverable.
Qed.

Lemma reachable_recoverable w0 st : contents w0 file = None -> reachable file w0 st -> recoverable st.
Proof.
  intros H0 Hr. induction Hr as [s w Hnew|st st' _ IH Hstep]; [|by eapply step_recoverable].
  assert (Hm : file_map w0 = Some ∅) by (unfold file_map; by rewrite H0).
  rewrite (restart _ _ Hm) in Hnew. injection Hnew as <- <-. apply restart_recoverable; [done|apply map_Forall_empty].
Qed.

(** C27: where the state file can be written and read, there was none at
    first, and the texts, times and numbers are ones that encoding/json reads
    back, then after any sequence of transfers begun, continued, completed,
    failed, retried and cleaned up, and of processes that start again, a process
    that starts again finds exactly the transfers that are known, none of them
    complete, with their paths, sizes, retries and errors; only the progress of
    an upload may be older. *)
Theorem transfers_recoverable w0 s w : contents w0 file = None -> reachable file w0 (s, w) ->
  exists s', NewTransferState file true w = (Ok s', w) /\ dom (transfers s') = dom (transfers s) /\
  forall id t, GetTransfer id s = Some t -> TID t = id /\ Status t <> Complete /\ exists saved, GetTransfer id s' = Some saved /\ behind saved t.
Proof.
  intros H0 Hr. destruct (reachable_recoverable _ _ H0 Hr) as [_ Hm (m & Hfile & _ & Hb)]. exists (mkTransfers m file true).
  split; [by apply restart|]. unfold GetTransfer. cbn [transfers fst snd] in *. split.
  - apply set_eq. intros id. rewrite !elem_of_dom. specialize (Hb id). inversion Hb as [? ? _ E1 E2|E1 E2]; rewrite <- ?E1, <- ?E2; by split; eauto.
  - intros id t Ht. destruct (Hm id t Ht) as (? & ? & _). split_and!; [done|done|]. specialize (Hb id). rewrite Ht in Hb. inversion Hb; subst. eauto.
Qed.
End Transfers.

(** ** An upload that is interrupted *)

(** Files in memory. *)
Definition Memory : Type := gmap bytes bytes.
#[local] Instance memory_fs : FileSystem Memory := {|
  ReadFile name := fun w => (match w !! name with Some d => Ok d | None => Err (str "no such file") end, w);
  WriteFile name data := fun w => (Ok tt, <[name := data]> w);
  Rename old new := fun w => match w !! old with Some d => (Ok tt, <[new := d]> (delete old w)) | None => (Err (str "no such file"), w) end;
  Remove name := fun w => (Ok tt, delete name w);
  Join := path_join;
  random8 _ := []
|}.
(** The same, but no file can be written. *)
Definition full_fs : FileSystem Memory := {|
  ReadFile := ReadFile; WriteFile _ _ := fun w => (Err (str "disk full"), w); Rename := Rename; Remove := Remove; Join := Join; random8 := random8
|}.

#[local] Instance sorted_keys : MapOrder := {| key_order l := l; key_order_perm l := Permutation_refl l |}.

(** A stand-in for the text of encoding/json, which keeps every record. *)
#[local] Instance TransferInfo_eq_dec : EqDecision TransferInfo.
Proof. unfold EqDecision. intros. unfold Decision. decide equality; solve_decision. Defined.
Definition fields (t : TransferInfo) :=
  ((TID t, SourcePath t, TargetPath t), (TempPath t, TotalSize t, Transferred t), (Checksum t, Status t : bytes, StartedAt t), (UpdatedAt t, TError t, Retries t)).
Definition of_fields x : TransferInfo :=
  let '((a, b, c), (d, e, f), (g, h, i), (j, k, l)) := x in mkTransfer a b c d e f g h i j k l.
#[local] Instance TransferInfo_countable : Countable TransferInfo := inj_countable' fields of_fields (fun t => match t with mkTransfer _ _ _ _ _ _ _ _ _ _ _ _ => eq_refl end).
Fixpoint bits_text (p : positive) : bytes := match p with xH => [] | xO q => byte.of_Z 48 :: bits_text q | xI q => byte.of_Z 49 :: bits_text q end.
Fixpoint text_bits (s : bytes) : positive := match s with [] => xH | b :: t => if byte.unsigned b =? 49 then xI (text_bits t) else xO (text_bits t) end.
Lemma text_bits_text p : text_bits (bits_text p) = p.
Proof. induction p as [p IH|p IH|]; cbn; by rewrite ?IH. Qed.
#[local] Instance plain_transfer_json : TransferJSON := {|
  marshal_transfers l := Some (bits_text (encode l));
  unmarshal_transfers data := map Some <$> (decode (text_bits data) : option (list TransferInfo))
|}.
Lemma plain_reads_back : json_reads_back.
Proof. intros l _. eexists. split; [done|]. cbn. by rewrite text_bits_text, decode_encode. Qed.
Definition in_memory (w : Memory) (name : bytes) : option bytes := w !! name.
Lemma memory_reliable file : ReliableFile in_memory file.
Proof.
  unfold in_memory. split; cbn.
  - intros data w. eexists. split; [done|]. apply lookup_insert_eq.
  - by intros data w ->.
  - intros w ->. by eexists.
Qed.
#[local] Existing Instance memory_reliable.

Definition state_json : bytes := str "transfers.json".
Definition empty_tracker : TransferState := mkTransfers ∅ state_json true.
Definition begun := BeginTransfer 1 1 (str "t1") (str "a") (str "b") (str "b.tmp") 100 (empty_tracker, (∅ : Memory)).
Definition half_uploaded := UpdateProgress 2 (str "t1") 50 begun.2.

Lemma half_uploaded_reachable : reachable state_json ∅ (half_uploaded.2.1, half_uploaded.2.2).
Proof.
  rewrite <- surjective_pairing. apply (ReachStep _ _ begun.2); [apply (ReachStep _ _ (empty_tracker, ∅)); [constructor; reflexivity|]|].
  - apply (StepBegin _ 1 1 (str "t1") (str "a") (str "b") (str "b.tmp") 100); [repeat constructor|by vm_compute|by vm_compute|by vm_compute|].
    apply run_answer. by vm_compute.
  - apply (StepProgress _ 2 (str "t1") 50); [by vm_compute..|]. reflexivity.
Qed.

Lemma transfers_recoverable_witness :
  exists s' saved, NewTransferState state_json true half_uploaded.2.2 = (Ok s', half_uploaded.2.2) /\ GetTransfer (str "t1") s' = Some saved /\ TotalSize saved = 100.
Proof.
  destruct (transfers_recoverable in_memory state_json ltac:(discriminate) plain_reads_back ∅ half_uploaded.2.1 half_uploaded.2.2 (lookup_empty _) half_uploaded_reachable) as (s' & Hnew & _ & Hr).
  destruct (Hr (str "t1") (mkTransfer (str "t1") (str "a") (str "b") (str "b.tmp") 100 50 [] Uploading 1 2 [] 0) ltac:(vm_compute; reflexivity))
    as (_ & _ & saved & Hs & Hb).
  exists s', saved. split; [exact Hnew|]. split; [exact Hs|]. unfold behind in Hb. destruct Hb as (_ & _ & _ & _ & Hsize & _). exact Hsize.
Defined.

(** What a process that starts again in the world of a run finds. *)
Definition restarted {A} (run : A * (TransferState * Memory)) : TransferState :=
  match (NewTransferState state_json true run.2.2).1 with Ok s => s | _ => mkTransfers ∅ [] false end.

(** The process that starts again does not know how far it got, and takes the
    upload for one that never started: its temporary file is removed. *)
Example progress_is_lost :
  let s := restarted half_uploaded in
  GetResumeInfo (str "t1") half_uploaded.2.1 = Some (50, str "b.tmp") /\ GetResumeInfo (str "t1") s = None /\
  CountByStatus Pending s = 1 /\ TCount (CleanupIncomplete (Remove (W := Memory)) (s, half_uploaded.2.2)).2.1 = 0.
Proof. vm_compute. auto. Qed.

(** A state file that cannot be written: no operation says so, and the process
    that starts again still has the transfer that was completed. *)
Example refused_write_unnoticed :
  let done := @CompleteTransfer Memory full_fs _ _ (str "t1") begun.2 in
  done.1 = Ok tt /\ TCount done.2.1 = 0 /\ is_Some (GetTransfer (str "t1") (restarted done)).
Proof. vm_compute. split; [done|]. split; [done|]. by eexists. Qed.

(** A state file with null in its list: the process does not start. *)
Example null_in_the_list :
  let json := {| marshal_transfers := marshal_transfers; unmarshal_transfers _ := Some [None] |} in
  (@NewTransferState Memory _ json state_json true {[ state_json := str "[null]" ]}).1 = Panic.
Proof. by vm_compute. Qed.
