(* ===== verification/WebDav.v ===== *)
(** * Files on a WebDAV server (storage/webdavfs.go)

    Every operation is one request of the client library, repeated where its
    error looks like one of the network. A file that is open for writing is a
    buffer; closing it writes the buffer to a temporary file and renames that. *)

From S2P Require Import Prelude GoLib Functions Eval Url FileSys.
Local Open Scope Z_scope.

(** The client library, gowebdav. *)
Class DavClient (W : Type) := {
  dav_read : bytes -> SO W bytes bytes;
  dav_write : bytes -> bytes -> SO W bytes unit;
  dav_rename : bytes -> bytes -> SO W bytes unit;   (* overwriting the target *)
  dav_remove : bytes -> SO W bytes unit;
  dav_remove_all : bytes -> SO W bytes unit;
  dav_mkdir_all : bytes -> SO W bytes unit;
  dav_stat : bytes -> SO W bytes FileInfo;
  dav_read_dir : bytes -> SO W bytes (list FileInfo);
  dav_random8 : W -> bytes
}.

Record WebDAVConfig := mkDavConfig {
  URL : bytes; Username : bytes; Password : bytes; DBPath : bytes;   (* for the client library *)
  MaxRetries : Z; RetryDelay : Z; Timeout : Z
}.
Record WebDAVFS := mkDavFS { basePath : bytes; config : WebDAVConfig; fs_closed : bool }.

Definition with_defaults (c : WebDAVConfig) : WebDAVConfig :=
  mkDavConfig (URL c) (Username c) (Password c) (DBPath c) (if MaxRetries c =? 0 then 3 else MaxRetries c) (if RetryDelay c =? 0 then 10 ^ 9 else RetryDelay c)
    (if Timeout c =? 0 then 30 * 10 ^ 9 else Timeout c).

Definition webdavPath (fs : WebDAVFS) (name : bytes) : bytes :=
  match basePath fs with [] => slash ++ name | b => path_join [b; name] end.

Definition isRetryable (e : bytes) : bool :=
  contains (str "timeout") e || contains (str "connection") e || contains (str "503") e || contains (str "502") e || contains (str "network") e.

Record DavFile := mkDavFile {
  df_path : bytes; tempPath : bytes;
  writeMode : bool;
  buffer : bytes;                 (* in write mode *)
  reader : bytes * Z;             (* otherwise: the data and the position *)
  df_closed : bool
}.

Section Client.
Context {W : Type} `{DavClient W}.

(** The attempts that are left; the answer when there was none is no error. *)
Fixpoint retry {A} (attempts : nat) (op : SO W bytes A) (last : SO W bytes A) : SO W bytes A :=
  match attempts with
  | O => last
  | S n =>
    r ← try op;
    match r with
    | inl a => mret a
    | inr e => if isRetryable e then retry n op (fail e) else fail e
    end
  end.
Definition withRetry {A} (fs : WebDAVFS) (zero : A) (op : SO W bytes A) : SO W bytes A :=
  retry (Z.to_nat (MaxRetries (config fs) + 1)) op (mret zero).

Definition testConnection (fs : WebDAVFS) : SO W bytes unit :=
  r ← try (dav_read_dir (webdavPath fs []));
  match r with
  | inl _ => mret tt
  | inr e => if contains (str "404") e || contains (str "Not Found") e then dav_mkdir_all (webdavPath fs []) else fail e
  end.
Definition NewWebDAVFS (base : bytes) (c : WebDAVConfig) : SO W bytes WebDAVFS :=
  let fs := mkDavFS base (with_defaults c) false in
  r ← try (testConnection fs);
  match r with inl _ => mret fs | inr e => fail (str "WebDAV connection test failed: " ++ e) end.

(** The text that generateID makes for the name of a temporary file. *)
Definition temp_id (w : W) : bytes := temp_suffix (dav_random8 w).

(** ** Operations on names *)

Definition Dav_MkdirAll (fs : WebDAVFS) (name : bytes) : SO W bytes unit := withRetry fs tt (dav_mkdir_all (webdavPath fs name)).
Definition Dav_ReadDir (fs : WebDAVFS) (name : bytes) : SO W bytes (list FileInfo) := withRetry fs [] (dav_read_dir (webdavPath fs name)).
Definition Dav_Stat (fs : WebDAVFS) (name : bytes) : SO W bytes FileInfo :=
  withRetry fs (mkFileInfo [] 0 0 0 false) (dav_stat (webdavPath fs name)).
Definition Dav_Exists (fs : WebDAVFS) (name : bytes) : SO W bytes bool :=
  r ← try (Dav_Stat fs name); mret (match r with inl _ => true | inr _ => false end).
Definition Dav_Remove (fs : WebDAVFS) (name : bytes) : SO W bytes unit := withRetry fs tt (dav_remove (webdavPath fs name)).
Definition Dav_Rename (fs : WebDAVFS) (old new : bytes) : SO W bytes unit :=
  withRetry fs tt (dav_rename (webdavPath fs old) (webdavPath fs new)).
Definition Dav_ReadFile (fs : WebDAVFS) (name : bytes) : SO W bytes bytes := withRetry fs [] (dav_read (webdavPath fs name)).
Definition Dav_RemoveAll (fs : WebDAVFS) (name : bytes) : SO W bytes unit := withRetry fs tt (dav_remove_all (webdavPath fs name)).

(** The error of a run with a text in front. *)
Definition because {A} (text : bytes) (m : SO W bytes A) : SO W bytes A :=
  r ← try m; match r with inl a => mret a | inr e => fail (text ++ e) end.

Definition Dav_SafeWriteFile (fs : WebDAVFS) (name data : bytes) : SO W bytes unit :=
  suffix ← gets temp_id;
  let target := webdavPath fs name in
  let temp := target ++ suffix in
  because (str "write failed: ") (withRetry fs tt (dav_write temp data));;
  on_failure (dav_remove temp) (because (str "rename failed: ") (withRetry fs tt (dav_rename temp target))).
Definition Dav_WriteFile := Dav_SafeWriteFile.

(** Go's own Dir and Base of these names, which do not clean the path. *)
Definition Dav_Dir (p : bytes) : bytes := match cut_last 47 p with Some (d, _) => d | None => str "." end.
Definition Dav_Base (p : bytes) : bytes := match cut_last 47 p with Some (_, b) => b | None => p end.
Definition Dav_Abs (fs : WebDAVFS) (p : bytes) : bytes := if is_abs p then p else path_join [basePath fs; p].

(** ** Files *)

Definition Dav_Create (fs : WebDAVFS) (name : bytes) : DavFile :=
  mkDavFile (webdavPath fs name) (webdavPath fs name ++ str ".tmp") true [] ([], 0) false.
Definition Dav_TempFile (fs : WebDAVFS) (dir pattern : bytes) : SO W bytes DavFile :=
  id ← gets dav_random8; mret (Dav_Create fs (path_join [dir; pattern ++ hex_encode id])).
Definition Dav_Open (fs : WebDAVFS) (name : bytes) : SO W bytes DavFile :=
  data ← withRetry fs [] (dav_read (webdavPath fs name));
  mret (mkDavFile (webdavPath fs name) [] false [] (data, 0) false).
Definition Dav_OpenFile (fs : WebDAVFS) (name : bytes) (flag : Z) : SO W bytes DavFile :=
  exists_ ← Dav_Exists fs name;
  if has_flag flag O_CREATE && negb exists_ then mret (Dav_Create fs name)
  else if has_flag flag O_APPEND then
    data ← withRetry fs [] (dav_read (webdavPath fs name));
    mret (mkDavFile (webdavPath fs name) (webdavPath fs name ++ str ".tmp") true data ([], 0) false)
  else Dav_Open fs name.

Definition file_op (A : Type) := SO (DavFile * W) bytes A.
Definition EOF : bytes := str "EOF".

(** At most [n] bytes. *)
Definition FRead (n : nat) : file_op bytes := fun '(f, w) =>
  let '(data, i) := reader f in
  if writeMode f || (zlen data <=? i) then (Err EOF, (f, w))
  else let p := take n (drop (Z.to_nat i) data) in
       (Ok p, (mkDavFile (df_path f) (tempPath f) (writeMode f) (buffer f) (data, i + zlen p) (df_closed f), w)).
Definition set_buffer (b : bytes) (f : DavFile) : DavFile := mkDavFile (df_path f) (tempPath f) (writeMode f) b (reader f) (df_closed f).
Definition FWrite (p : bytes) : file_op Z := fun '(f, w) =>
  if writeMode f then (Ok (zlen p), (set_buffer (buffer f ++ p) f, w)) else (Err (str "file not open for writing"), (f, w)).
Definition FTruncate (size : Z) : file_op unit := fun '(f, w) =>
  if negb (writeMode f) then (Err (str "file not open for writing"), (f, w))
  else if zlen (buffer f) <? size then (Ok tt, (set_buffer (buffer f ++ replicate (Z.to_nat (size - zlen (buffer f))) (byte.of_Z 0)) f, w))
  else if size <? 0 then (Panic, (f, w))
  else (Ok tt, (set_buffer (take (Z.to_nat size) (buffer f)) f, w)).
Definition FSeek (offset whence : Z) : file_op Z := fun '(f, w) =>
  if writeMode f then (Err (str "seek not supported in write mode"), (f, w))
  else
    let '(data, i) := reader f in
    let abs := if whence =? 0 then Some offset else if whence =? 1 then Some (i64 (i + offset))
               else if whence =? 2 then Some (i64 (zlen data + offset)) else None in
    match abs with
    | None => (Err (str "bytes.Reader.Seek: invalid whence"), (f, w))
    | Some a => if a <? 0 then (Err (str "bytes.Reader.Seek: negative position"), (f, w))
                else (Ok a, (mkDavFile (df_path f) (tempPath f) (writeMode f) (buffer f) (data, a) (df_closed f), w))
    end.
Definition FSync : file_op unit := mret tt.
Definition FStat (fs : WebDAVFS) : file_op FileInfo := fun '(f, w) => let '(r, w) := Dav_Stat fs (df_path f) w in (r, (f, w)).

(** Write the temporary file and rename it; a second try after an error does nothing. *)
Definition close_write (fs : WebDAVFS) (temp target data : bytes) : SO W bytes unit :=
  withRetry fs tt (dav_write temp data);;
  r ← try (withRetry fs tt (dav_rename temp target));
  match r with
  | inl _ => mret tt
  | inr e => try (dav_remove temp);; fail e
  end.
Definition FClose (fs : WebDAVFS) : file_op unit := fun '(f, w) =>
  if df_closed f then (Ok tt, (f, w))
  else
    let f' := mkDavFile (df_path f) (tempPath f) (writeMode f) (buffer f) (reader f) true in
    if writeMode f then let '(r, w) := close_write fs (tempPath f) (df_path f) (buffer f) w in (r, (f', w))
    else (Ok tt, (f', w)).

(** ** Walking *)

Section Walk.
Variable walkFn : bytes -> option FileInfo -> option bytes -> SO W bytes unit.

(** [depth] is how deep the directories may be. *)
Fixpoint walkDir (depth : nat) (dir : bytes) : SO W bytes unit :=
  match depth with
  | O => lift Hang
  | S n =>
    r ← try (dav_read_dir dir);
    match r with
    | inr e => walkFn dir None (Some e)
    | inl files =>
      (fix go files := match files with
       | [] => mret tt
       | f :: rest =>
         let full := path_join [dir; FName f] in
         walkFn full (Some f) None;;
         (if FIsDir f then walkDir n full else mret tt);;
         go rest
       end) files
    end
  end.
Definition Dav_Walk (fs : WebDAVFS) (depth : nat) (root : bytes) : SO W bytes unit := walkDir depth (webdavPath fs root).
End Walk.
(** The operations that the storage uses. *)
Definition Dav_FileSystem (fs : WebDAVFS) : FileSystem W := {|
  ReadFile := Dav_ReadFile fs; WriteFile := Dav_WriteFile fs; Rename := Dav_Rename fs; Remove := Dav_Remove fs;
  Join := path_join; random8 := dav_random8
|}.
End Client.
