(* ===== verification/WebDavSpec.v ===== *)
(** * Writing to a WebDAV server (storage/webdavfs.go)

    The server may lose a request or its answer, so that a request that ended
    with an error may have been carried out; the laws of the client library say
    no more than which files a request can change, and what they hold where it
    succeeds. A server deletes the target before it moves a file onto it (RFC
    4918, 9.9.3), so that a move that fails may have lost the target: a write
    is all or nothing only on a server whose moves are atomic. *)

From S2P Require Import Prelude GoLib Functions Eval Url FileSys WebDav.
Local Open Scope Z_scope.

Class DavLaws (W : Type) {C : DavClient W} (contents : W -> bytes -> option bytes) : Prop := {
  dav_read_reads p w : ends (dav_read p) w (fun r w' => unchanged contents w w' /\ forall d, r = Ok d -> contents w p = Some d);
  dav_write_only p d w : ends (dav_write p d) w (fun r w' => only contents p w w' /\ (r = Ok tt -> contents w' p = Some d));
  dav_rename_moves a b w : a <> b -> ends (dav_rename a b) w (fun r w' =>
    (unchanged contents w w' /\ r <> Ok tt) \/ moved contents a b w w' \/
    (is_Some (contents w a) /\ only contents b w w' /\ contents w' b = None /\ r <> Ok tt));
  dav_remove_only p w : ends (dav_remove p) w (fun _ w' => only contents p w w')
}.

(** A server that does not delete the target of a move that fails. *)
Definition atomic_moves {W} {C : DavClient W} (contents : W -> bytes -> option bytes) : Prop := forall a b w, a <> b ->
  ends (dav_rename a b) w (fun r w' => (unchanged contents w w' /\ r <> Ok tt) \/ moved contents a b w w').

(** Replacing [target] by way of [temp]: where that fails, the target may be
    lost. *)
Record replaced_or_lost {W} (contents : W -> bytes -> option bytes) (target temp data : bytes) (w : W) (r : outcome bytes unit) (w' : W) : Prop := {
  rol_target : contents w' target = contents w target \/ contents w' target = Some data \/ (contents w' target = None /\ r <> Ok tt);
  rol_done : r = Ok tt -> contents w' target = Some data;
  rol_others : forall q, q <> target -> q <> temp -> contents w' q = contents w q
}.

Section Retry.
Context {W : Type} `{DavClient W}.

(** An invariant that failed attempts keep, and what every attempt ends with. *)
Lemma retry_ends {A} (op : SO W bytes A) (I : W -> Prop) (Q : outcome bytes A -> W -> Prop) :
  (forall w, I w -> ends op w (fun r w' => Q r w' /\ (forall e, r = Err e -> I w'))) ->
  forall n last w, I w -> (n = O -> ends last w Q) -> ends (retry n op last) w Q.
Proof.
  intros Hop n. induction n as [|n IH]; intros last w Hw Hlast; [by apply Hlast|]. cbn [retry].
  apply ends_bind. unfold ends at 1, try. pose proof (Hop w Hw) as Ho. unfold ends in Ho.
  destruct (op w) as [[a|e| |] w']; cbn in *; destruct Ho as [HQ HI]; try exact HQ.
  case_match; [|exact HQ]. apply IH; [by eapply HI|]. intros _. exact HQ.
Qed.

Lemma withRetry_ends {A} fs (zero : A) (op : SO W bytes A) (I : W -> Prop) (Q : outcome bytes A -> W -> Prop) w :
  0 <= MaxRetries (config fs) -> I w ->
  (forall w, I w -> ends op w (fun r w' => Q r w' /\ (forall e, r = Err e -> I w'))) -> ends (withRetry fs zero op) w Q.
Proof. intros Hn Hw Hop. apply (retry_ends op I Q Hop); [done|]. intros H0. lia. Qed.

Lemma because_ends {A} text (m : SO W bytes A) w (Q : outcome bytes A -> W -> Prop) :
  ends m w (fun r w' => match r with Err e => Q (Err (text ++ e)) w' | _ => Q r w' end) -> ends (because text m) w Q.
Proof. unfold ends, because, mbind, SO_bind, try. by destruct (m w) as [[a|e| |] w']. Qed.
End Retry.

Section Spec.
Context {W : Type} `{DavClient W} (contents : W -> bytes -> option bytes) `{!DavLaws W contents}.
Variable fs : WebDAVFS.
Hypothesis some_attempt : 0 <= MaxRetries (config fs).

Lemma moved_from_unchanged a b w1 w w' : unchanged contents w1 w -> moved contents a b w w' -> moved contents a b w1 w'.
Proof. intros Hu [(d & Ha & Hb) [Hn Hr]]. split; [exists d; by rewrite <- Hu|]. split; [done|]. intros q H1 H2. by rewrite Hr. Qed.
Lemma moved_then_unchanged a b w w' w'' : moved contents a b w w' -> unchanged contents w' w'' -> moved contents a b w w''.
Proof. intros [(d & Ha & Hb) [Hn Hr]] Hu. split; [exists d; by rewrite Hu|]. split; [by rewrite Hu|]. intros q H1 H2. rewrite Hu. by apply Hr. Qed.

Lemma write_ends p d w : ends (withRetry fs tt (dav_write p d)) w (fun r w' => only contents p w w' /\ (r = Ok tt -> contents w' p = Some d)).
Proof.
  apply (withRetry_ends fs tt _ (only contents p w)); [done|done|]. intros w1 Hw1.
  eapply ends_weaken; [apply dav_write_only|]. intros r w2 [Ho Hd]. assert (only contents p w w2) by by eapply only_trans. auto.
Qed.

Lemma longer_ne (p s : bytes) : s <> [] -> p <> p ++ s.
Proof. intros Hs Hp. apply (f_equal length) in Hp. rewrite length_app in Hp. destruct s; [done|cbn in Hp; lia]. Qed.

(** ** Moves that may lose their target *)

Lemma moved_from_only a b w1 w w' : a <> b -> only contents b w1 w -> moved contents a b w w' -> moved contents a b w1 w'.
Proof. intros Hne Ho [(d & Ha & Hb) [Hn Hr]]. split; [exists d; by rewrite <- Ho|]. split; [done|]. intros q H1 H2. by rewrite Hr, Ho. Qed.

Definition may_lose (b : bytes) (w w' : W) : Prop := only contents b w w' /\ (contents w' b = contents w b \/ contents w' b = None).
Lemma may_lose_trans b w w1 w2 : may_lose b w w1 -> may_lose b w1 w2 -> may_lose b w w2.
Proof. intros [H1 E1] [H2 E2]. split; [by eapply only_trans|]. destruct E2 as [-> | ->]; auto. Qed.
Lemma unchanged_may_lose b w w' : unchanged contents w w' -> may_lose b w w'.
Proof. intros Hu. split; [by apply unchanged_only|left; by rewrite Hu]. Qed.

(** Once the file was moved no attempt can move it or lose the target. *)
Lemma rename_lossy a b w : a <> b -> ends (withRetry fs tt (dav_rename a b)) w (fun r w' => (may_lose b w w' /\ r <> Ok tt) \/ moved contents a b w w').
Proof.
  intros Hne. apply (withRetry_ends fs tt _ (fun w' => may_lose b w w' \/ moved contents a b w w')); [done|left; by apply unchanged_may_lose|]. intros w1 Hw1.
  eapply ends_weaken; [by apply dav_rename_moves|]. intros r w2 Hw2.
  assert (Hcases : (may_lose b w w2 /\ r <> Ok tt) \/ moved contents a b w w2); [|destruct Hcases as [[? ?]|?]; auto].
  destruct Hw1 as [Hl|Hm], Hw2 as [[Hu Hr]|[Hm2|(Ha & Ho & Hb & Hr)]].
  - left. split; [|done]. eapply may_lose_trans; [exact Hl|by apply unchanged_may_lose].
  - right. eapply moved_from_only; [done|apply Hl|done].
  - left. split; [|done]. eapply may_lose_trans; [exact Hl|]. split; auto.
  - right. by eapply moved_then_unchanged.
  - exfalso. eapply not_moved; [|exact Hm2]. by destruct Hm as (_ & ? & _).
  - destruct Hm as (_ & Hn & _). rewrite Hn in Ha. by destruct Ha.
Qed.

Lemma rol_temp target temp data w r w' : target <> temp -> only contents temp w w' -> r <> Ok tt -> replaced_or_lost contents target temp data w r w'.
Proof. intros Hne Ho Hr. split; [left; by apply Ho|done|]. intros q _ Hq. by apply Ho. Qed.

Lemma safe_write_lossy name d w : ends (Dav_SafeWriteFile fs name d) w (fun r w' =>
  exists temp, webdavPath fs name <> temp /\ replaced_or_lost contents (webdavPath fs name) temp d w r w').
Proof.
  unfold Dav_SafeWriteFile. set (target := webdavPath fs name). apply ends_gets. set (temp := target ++ temp_id w).
  assert (Hne : target <> temp) by (apply longer_ne; done).
  apply (ends_weaken _ _ (replaced_or_lost contents target temp d w)); [|by eauto].
  apply ends_bind, because_ends. eapply ends_weaken; [apply write_ends|]. intros r w1 [Ho Hd].
  destruct r as [[]|e| |]; [|by apply rol_temp..]. specialize (Hd eq_refl).
  apply ends_on_failure, because_ends. eapply ends_weaken; [apply rename_lossy; congruence|]. intros r w2 Hr.
  assert (Hbad : forall r' w3, r <> Ok tt -> r' <> Ok tt -> only contents temp w2 w3 -> replaced_or_lost contents target temp d w r' w3).
  { intros r' w3 Hr1 Hr2 H3. destruct Hr as [[[Hl1 Hl2] _]|Hm].
    - split; [rewrite (H3 target) by done; rewrite <- (Ho target) by done; tauto|done|]. intros q H1 H2. by rewrite H3, Hl1, Ho.
    - destruct (aon_moved contents target temp d w w1 w2 r' w3 Hne Ho Hd Hm H3) as [[?|?] _ ?]; split; auto; done. }
  destruct r as [[]|e| |].
  - destruct Hr as [[_ Hr]|Hm]; [done|]. destruct (aon_moved contents target temp d w w1 w2 (Ok tt) w2 Hne Ho Hd Hm (fun q _ => eq_refl)) as [[?|?] ? ?]; split; auto.
  - eapply ends_weaken; [apply dav_remove_only|]. intros; by apply Hbad.
  - eapply ends_weaken; [apply dav_remove_only|]. intros; by apply Hbad.
  - eapply ends_weaken; [apply dav_remove_only|]. intros; by apply Hbad.
Qed.

(** ** Atomic moves *)

Hypothesis atomic : atomic_moves contents.

(** Once the file was moved no attempt can succeed. *)
Lemma rename_ends a b w : a <> b -> ends (withRetry fs tt (dav_rename a b)) w (fun r w' =>
  (unchanged contents w w' /\ r <> Ok tt) \/ moved contents a b w w').
Proof.
  intros Hne. apply (withRetry_ends fs tt _ (fun w' => unchanged contents w w' \/ moved contents a b w w')); [done|by left|]. intros w1 Hw1.
  eapply ends_weaken; [by apply atomic|]. intros r w2 Hw2.
  destruct Hw1 as [Hu|Hm], Hw2 as [[Hu2 Hr]|Hm2].
  - assert (unchanged contents w w2) by by eapply unchanged_trans. auto.
  - assert (moved contents a b w w2) by by eapply moved_from_unchanged. auto.
  - assert (moved contents a b w w2) by by eapply moved_then_unchanged. auto.
  - exfalso. eapply not_moved; [|exact Hm2]. by destruct Hm as (_ & ? & _).
Qed.

(** Write a temporary file, rename it, and remove it where that fails. *)
Lemma temp_rename_ends temp target d w (cleanup : SO W bytes unit -> SO W bytes unit) :
  target <> temp ->
  (forall w1 Q, ends (withRetry fs tt (dav_rename temp target)) w1 (fun r w2 =>
     match r with Ok _ => Q (Ok tt) w2 | _ => forall r' w3, only contents temp w2 w3 -> r' <> Ok tt -> Q r' w3 end) ->
     ends (cleanup (withRetry fs tt (dav_rename temp target))) w1 Q) ->
  forall w1, only contents temp w w1 -> contents w1 temp = Some d ->
  ends (cleanup (withRetry fs tt (dav_rename temp target))) w1 (all_or_nothing contents target temp d w).
Proof.
  intros Hne Hc w1 Ho Hd. apply Hc. eapply ends_weaken; [apply rename_ends; congruence|]. intros r w2 Hr.
  assert (Hbad : forall r', r <> Ok tt -> r' <> Ok tt -> forall w3, only contents temp w2 w3 -> all_or_nothing contents target temp d w r' w3).
  { intros r' Hr1 Hr2 w3 H3. destruct Hr as [[Hu _]|Hm]; [|by eapply aon_moved].
    apply aon_temp; [done| |done]. eapply only_trans; [exact Ho|]. eapply only_trans; [|exact H3]. by apply unchanged_only. }
  destruct r as [[]|e| |]; [|eauto..].
  destruct Hr as [[_ Hr]|Hm]; [done|]. eapply aon_moved; eauto. intros q _. done.
Qed.

Lemma safe_write_ends name d w : ends (Dav_SafeWriteFile fs name d) w (fun r w' =>
  exists temp, webdavPath fs name <> temp /\ (length (webdavPath fs name) < length temp)%nat /\
  all_or_nothing contents (webdavPath fs name) temp d w r w').
Proof.
  unfold Dav_SafeWriteFile. set (target := webdavPath fs name).
  apply ends_gets. set (temp := target ++ temp_id w).
  assert (Hne : target <> temp) by (apply longer_ne; done).
  assert (Hlen : (length target < length temp)%nat) by (unfold temp, temp_id, temp_suffix; rewrite !length_app; cbn; lia).
  apply (ends_weaken _ _ (all_or_nothing contents target temp d w)); [|by eauto].
  apply ends_bind, because_ends. eapply ends_weaken; [apply write_ends|]. intros r w1 [Ho Hd].
  destruct r as [[]|e| |]; [|by apply aon_temp..].
  apply (temp_rename_ends temp target d w (fun m => on_failure (dav_remove temp) (because (str "rename failed: ") m))); [done| |done|by apply Hd].
  intros w2 Q HQ. apply ends_on_failure, because_ends. eapply ends_weaken; [exact HQ|].
  intros r w3 Hr. pose proof (dav_remove_only temp w3) as Hrem. destruct r as [[]|e| |]; [done|..];
    (eapply ends_weaken; [exact Hrem|]; intros; by apply Hr).
Qed.

(** A file that is open for writing and is closed. *)
Lemma close_ends f w : df_closed f = false -> writeMode f = true -> df_path f <> tempPath f ->
  all_or_nothing contents (df_path f) (tempPath f) (buffer f) w (FClose fs (f, w)).1 (FClose fs (f, w)).2.2.
Proof.
  intros Hc Hm Hne. unfold FClose. rewrite Hc, Hm.
  assert (He : ends (close_write fs (tempPath f) (df_path f) (buffer f)) w (all_or_nothing contents (df_path f) (tempPath f) (buffer f) w)).
  { unfold close_write. apply ends_bind. eapply ends_weaken; [apply write_ends|]. intros r w1 [Ho Hd].
    destruct r as [[]|e| |]; [|by apply aon_temp..].
    apply (temp_rename_ends (tempPath f) (df_path f) (buffer f) w (fun m => r ← try m; match r with inl _ => mret tt | inr e => try (dav_remove (tempPath f));; fail e end)); [done| |done|by apply Hd].
    intros w2 Q HQ. apply ends_bind. unfold ends at 1, try. unfold ends in HQ.
    destruct (withRetry fs tt (dav_rename (tempPath f) (df_path f)) w2) as [[[]|e| |] w3]; cbn in *; [done| |by apply HQ..].
    pose proof (dav_remove_only (tempPath f) w3) as Hrem. unfold ends in Hrem. unfold ends, mbind, SO_bind, try.
    destruct (dav_remove (tempPath f) w3) as [[[]|e'| |] w4]; cbn in *; by apply HQ. }
  unfold ends in He. by destruct (close_write fs (tempPath f) (df_path f) (buffer f) w) as [r w'].
Qed.

Lemma webdavPath_longer name id : name <> [] -> (length (webdavPath fs name) < length (webdavPath fs (name ++ temp_suffix id)))%nat.
Proof.
  intros Hn. unfold webdavPath. destruct (basePath fs) as [|b base]; [unfold temp_suffix; rewrite !length_app; cbn; lia|].
  assert (Hj : forall n, n <> [] -> path_join [b :: base; n] = path_clean ((b :: base) ++ slash ++ n)).
  { intros n Hn'. unfold path_join. cbn [List.filter]. rewrite !bool_decide_eq_false_2 by done. cbn. by rewrite app_nil_r. }
  rewrite !Hj by (try done; by destruct name). replace ((b :: base) ++ slash ++ name ++ temp_suffix id) with (((b :: base) ++ slash ++ name) ++ temp_suffix id) by by rewrite <- !app_assoc.
  by apply temp_path_longer.
Qed.

Lemma Dav_laws : FileSystemLaws W (FS := Dav_FileSystem fs) contents (webdavPath fs).
Proof.
  split; cbn.
  - intros name w. apply (withRetry_ends fs [] _ (unchanged contents w)); [done|done|]. intros w1 Hu.
    eapply ends_weaken; [apply dav_read_reads|]. intros r w2 [Hu2 Hd]. assert (unchanged contents w w2) by by eapply unchanged_trans.
    split_and!; [done| |done]. intros d Hr. rewrite <- (Hu (webdavPath fs name)). by apply Hd.
  - intros. apply safe_write_ends.
  - intros. by apply rename_ends.
  - intros name w. apply (withRetry_ends fs tt _ (only contents (webdavPath fs name) w)); [done|done|]. intros w1 Ho.
    eapply ends_weaken; [apply dav_remove_only|]. intros r w2 Ho2. assert (only contents (webdavPath fs name) w w2) by by eapply only_trans. done.
  - apply webdavPath_longer.
Qed.
End Spec.
