(* ===== verification/Sftp.v ===== *)
(** * Files on a server over SSH (storage/sftpfs.go)

    Every operation makes a connection, which takes several attempts, runs and
    closes it; a batch runs on one connection. The SSH and SFTP client
    libraries are parameters. *)

From S2P Require Import Prelude GoLib Functions Eval Url FileSys.
Local Open Scope Z_scope.

Inductive AuthMethod (Signer : Type) := AuthPassword (p : bytes) | AuthKeys (s : Signer).
Arguments AuthPassword {Signer} p.
Arguments AuthKeys {Signer} s.

(** golang.org/x/crypto/ssh and github.com/pkg/sftp, and the host's files. *)
Class SftpClient (W : Type) := {
  Signer : Type;
  SshConn : Type;
  SftpConn : Type;
  Handle : Type;
  host_home : bytes;
  host_read_file : bytes -> SO W bytes bytes;
  parse_key : bytes -> option bytes -> outcome bytes Signer;
  ssh_dial : bytes -> bytes -> list (AuthMethod Signer) -> SO W bytes SshConn;   (* address and user *)
  sftp_new : SshConn -> SO W bytes SftpConn;
  ssh_close : SshConn -> SO W bytes unit;
  sftp_close : SftpConn -> SO W bytes unit;
  sftp_create : SftpConn -> bytes -> SO W bytes Handle;
  sftp_open : SftpConn -> bytes -> SO W bytes Handle;
  sftp_open_file : SftpConn -> bytes -> Z -> SO W bytes Handle;
  handle_write : Handle -> bytes -> SO W bytes Z;
  handle_read_all : Handle -> SO W bytes bytes;
  handle_close : Handle -> SO W bytes unit;
  sftp_mkdir : SftpConn -> bytes -> SO W bytes unit;
  sftp_stat : SftpConn -> bytes -> SO W bytes FileInfo;
  sftp_read_dir : SftpConn -> bytes -> SO W bytes (list FileInfo);
  sftp_remove : SftpConn -> bytes -> SO W bytes unit;
  sftp_rename : SftpConn -> bytes -> bytes -> SO W bytes unit;
  sftp_walk : SftpConn -> bytes -> SO W bytes (list (bytes * option bytes));    (* the paths, with their errors *)
  sftp_random8 : W -> bytes
}.

Record SFTPConfig := mkSftpConfig {
  Host : bytes; Port : Z; Username : bytes; Password : bytes;
  PrivateKey : bytes; PrivateKeyPEM : bytes; Passphrase : bytes;
  Timeout : Z; MaxRetries : Z; RetryDelay : Z; ConnectTimeout : Z
}.
Record SFTPFS := mkSftpFS { basePath : bytes; config : SFTPConfig; fs_closed : bool }.

Definition or_default (z d : Z) : Z := if z =? 0 then d else z.
Definition with_defaults (c : SFTPConfig) : SFTPConfig :=
  mkSftpConfig (Host c) (or_default (Port c) 22) (Username c) (Password c) (PrivateKey c) (PrivateKeyPEM c) (Passphrase c)
    (or_default (Timeout c) (30 * 10 ^ 9)) (or_default (MaxRetries c) 3) (or_default (RetryDelay c) (10 ^ 9)) (or_default (ConnectTimeout c) (10 * 10 ^ 9)).

(** net.JoinHostPort *)
Definition host_port (host : bytes) (port : Z) : bytes :=
  (if has_byte 58 host then str "[" ++ host ++ str "]" else host) ++ str ":" ++ itoa port.

Definition isAlreadyExistsError (e : bytes) : bool := contains (str "exists") e || contains (str "file exists") e.

(** Run [m] and then, whatever its result, [cleanup]. *)
Definition finally {W A} (cleanup : SO W bytes unit) (m : SO W bytes A) : SO W bytes A := fun w =>
  let '(r, w) := m w in (r, (cleanup w).2).

Section Client.
Context {W : Type} `{SftpClient W}.

Record sftpConn := mkConn { ssh : SshConn; sftp : SftpConn }.

Definition loadPrivateKey (c : SFTPConfig) : SO W bytes Signer :=
  data ← (if negb (bool_decide (PrivateKeyPEM c = [])) then mret (PrivateKeyPEM c)
          else if negb (bool_decide (PrivateKey c = [])) then
            let path := if has_prefix (str "~/") (PrivateKey c) then path_join [host_home; drop 2 (PrivateKey c)] else PrivateKey c in
            r ← try (host_read_file path);
            match r with inl d => mret d | inr e => fail (str "failed to read private key file: " ++ e) end
          else fail (str "no private key provided"));
  lift (parse_key data (if bool_decide (Passphrase c = []) then None else Some (Passphrase c))).

Definition auth_methods (c : SFTPConfig) : SO W bytes (list (AuthMethod Signer)) :=
  let password := if bool_decide (Password c = []) then [] else [AuthPassword (Password c)] in
  keys ← (if bool_decide (PrivateKeyPEM c = []) && bool_decide (PrivateKey c = []) then mret []
          else r ← try (loadPrivateKey c);
               match r with inl s => mret [AuthKeys s] | inr e => fail (str "failed to load private key: " ++ e) end);
  match password ++ keys with
  | [] => fail (str "no authentication method provided")
  | methods => mret methods
  end.

(** The attempts that are left. *)
Fixpoint dial (c : SFTPConfig) (methods : list (AuthMethod Signer)) (attempts : nat) (last : bytes) : SO W bytes sftpConn :=
  match attempts with
  | O => fail (str "SFTP connection failed after " ++ itoa (MaxRetries c) ++ str " retries: " ++ last)
  | S n =>
    r ← try (ssh_dial (host_port (Host c) (Port c)) (Username c) methods);
    match r with
    | inr e => dial c methods n e
    | inl conn =>
      r ← try (sftp_new conn);
      match r with
      | inl client => mret (mkConn conn client)
      | inr e => try (ssh_close conn);; dial c methods n e
      end
    end
  end.
Definition connect (fs : SFTPFS) : SO W bytes sftpConn :=
  if fs_closed fs then fail (str "filesystem is closed")
  else methods ← auth_methods (config fs);
       dial (config fs) methods (Z.to_nat (MaxRetries (config fs) + 1)) (str "%!w(<nil>)").
Definition disconnect (c : sftpConn) : SO W bytes unit := try (sftp_close (sftp c));; try (ssh_close (ssh c));; mret tt.

Definition NewSFTPFS (base : bytes) (c : SFTPConfig) : SO W bytes SFTPFS :=
  let fs := mkSftpFS base (with_defaults c) false in
  conn ← connect fs; disconnect conn;; mret fs.

(** withConn, and Batch, whose function takes the connection. *)
Definition withConn {A} (fs : SFTPFS) (fn : SftpConn -> SO W bytes A) : SO W bytes A :=
  conn ← connect fs; finally (disconnect conn) (fn (sftp conn)).

(** ** On a connection *)

(** strings.Split *)
Definition split_path (p : bytes) : list bytes := split_on 47 (S (length p)) p.
Fixpoint mkdirs (c : SftpConn) (current : bytes) (parts : list bytes) : SO W bytes unit :=
  match parts with
  | [] => mret tt
  | part :: rest =>
    if bool_decide (part = []) then mkdirs c current rest
    else
      let current := current ++ slash ++ part in
      r ← try (sftp_mkdir c current);
      match r with
      | inl _ => mkdirs c current rest
      | inr e =>
        if isAlreadyExistsError e then mkdirs c current rest
        else i ← try (sftp_stat c current);
             match i with
             | inl info => if FIsDir info then mkdirs c current rest else fail e
             | inr _ => fail e
             end
      end
  end.
Definition batch_MkdirAll (c : SftpConn) (path : bytes) : SO W bytes unit := mkdirs c [] (split_path path).

Fixpoint remove_paths (c : SftpConn) (paths : list bytes) : SO W bytes unit :=
  match paths with [] => mret tt | p :: rest => sftp_remove c p;; remove_paths c rest end.
(** The paths, up to the first error. *)
Fixpoint walked (steps : list (bytes * option bytes)) : outcome bytes (list bytes) :=
  match steps with
  | [] => Ok []
  | (_, Some e) :: _ => Err e
  | (p, None) :: rest => ps ← walked rest; Ok (p :: ps)
  end.
Definition batch_RemoveAll (c : SftpConn) (path : bytes) : SO W bytes unit :=
  steps ← sftp_walk c path; paths ← lift (walked steps); remove_paths c (rev paths).
Definition batch_ReadFile (c : SftpConn) (name : bytes) : SO W bytes bytes :=
  f ← sftp_open c name; finally (try (handle_close f);; mret tt) (handle_read_all f).
Definition batch_WriteFile (c : SftpConn) (name data : bytes) : SO W bytes unit :=
  f ← sftp_create c name; r ← try (handle_write f data); try (handle_close f);;
  match r with inl _ => mret tt | inr e => fail e end.

Definition temp_id (w : W) : bytes := temp_suffix (sftp_random8 w).
(** The write to the temporary file failed: close it and remove it. *)
Definition abandon (c : SftpConn) (f : Handle) (temp e : bytes) : SO W bytes unit :=
  try (handle_close f);; try (sftp_remove c temp);; fail e.
Definition safe_write (path data : bytes) (c : SftpConn) : SO W bytes unit :=
  suffix ← gets temp_id;
  let temp := path ++ suffix in
  r ← try (sftp_create c temp);
  match r with
  | inr e => fail (str "create temp file failed: " ++ e)
  | inl f =>
    r ← try (handle_write f data);
    match r with
    | inr e => abandon c f temp (str "write failed: " ++ e)
    | inl written =>
      if negb (written =? zlen data) then
        abandon c f temp (str "incomplete write: " ++ itoa written ++ str " of " ++ itoa (zlen data) ++ str " bytes")
      else
        try (handle_close f);;
        r ← try (sftp_rename c temp path);
        match r with
        | inr e => try (sftp_remove c temp);; fail (str "rename failed: " ++ e)
        | inl _ => mret tt
        end
    end
  end.

(** ** The file system *)

Definition Sftp_MkdirAll (fs : SFTPFS) (path : bytes) : SO W bytes unit := withConn fs (fun c => batch_MkdirAll c path).
Definition Sftp_ReadDir (fs : SFTPFS) (name : bytes) : SO W bytes (list FileInfo) := withConn fs (fun c => sftp_read_dir c name).
Definition Sftp_Stat (fs : SFTPFS) (name : bytes) : SO W bytes FileInfo := withConn fs (fun c => sftp_stat c name).
Definition Sftp_Exists (fs : SFTPFS) (name : bytes) : SO W bytes bool :=
  r ← try (Sftp_Stat fs name); mret (match r with inl _ => true | inr _ => false end).
Definition Sftp_Remove (fs : SFTPFS) (name : bytes) : SO W bytes unit := withConn fs (fun c => sftp_remove c name).
Definition Sftp_Rename (fs : SFTPFS) (old new : bytes) : SO W bytes unit := withConn fs (fun c => sftp_rename c old new).
Definition Sftp_ReadFile (fs : SFTPFS) (name : bytes) : SO W bytes bytes := withConn fs (fun c => batch_ReadFile c name).
Definition Sftp_SafeWriteFile (fs : SFTPFS) (path data : bytes) : SO W bytes unit := withConn fs (safe_write path data).
Definition Sftp_WriteFile := Sftp_SafeWriteFile.
Definition Sftp_RemoveAll (fs : SFTPFS) (path : bytes) : SO W bytes unit := withConn fs (fun c => batch_RemoveAll c path).
Definition Sftp_Abs (fs : SFTPFS) (path : bytes) : bytes := if is_abs path then path else path_join [basePath fs; path].

(** Files keep their connection until they are closed. *)
Record sftpFile := mkSftpFile { file : Handle; file_conn : sftpConn }.
Definition open_with (fs : SFTPFS) (open : SftpConn -> SO W bytes Handle) : SO W bytes sftpFile :=
  conn ← connect fs;
  r ← try (open (sftp conn));
  match r with
  | inl f => mret (mkSftpFile f conn)
  | inr e => disconnect conn;; fail e
  end.
Definition Sftp_Create (fs : SFTPFS) (name : bytes) := open_with fs (fun c => sftp_create c name).
Definition Sftp_Open (fs : SFTPFS) (name : bytes) := open_with fs (fun c => sftp_open c name).
Definition Sftp_OpenFile (fs : SFTPFS) (name : bytes) (flag : Z) := open_with fs (fun c => sftp_open_file c name flag).
Definition Sftp_TempFile (fs : SFTPFS) (dir pattern : bytes) : SO W bytes sftpFile :=
  id ← gets sftp_random8; Sftp_Create fs (path_join [dir; pattern ++ hex_encode id]).
Definition File_Close (f : sftpFile) : SO W bytes unit := finally (disconnect (file_conn f)) (handle_close (file f)).

Definition Sftp_FileSystem (fs : SFTPFS) : FileSystem W := {|
  ReadFile := Sftp_ReadFile fs; WriteFile := Sftp_WriteFile fs; Rename := Sftp_Rename fs; Remove := Sftp_Remove fs;
  Join := path_join; random8 := sftp_random8
|}.
End Client.
