(* ===== verification/Smb.v ===== *)
(** * Files on a Windows share (storage/smbfs.go)

    As for SFTP, every operation makes a connection: over TCP, then a session,
    then the share. The client library is a parameter; names go to it with
    backslashes. *)

From S2P Require Import Prelude GoLib Functions Eval Url FileSys Sftp.
Local Open Scope Z_scope.

(** github.com/hirochachacha/go-smb2 and the network. *)
Class SmbClient (W : Type) := {
  TcpConn : Type;
  Session : Type;
  Share : Type;
  SmbHandle : Type;
  tcp_dial : bytes -> SO W bytes TcpConn;
  tcp_close : TcpConn -> SO W bytes unit;
  session_dial : bytes * bytes * bytes -> TcpConn -> SO W bytes Session;   (* user, password and domain *)
  session_logoff : Session -> SO W bytes unit;
  session_mount : Session -> bytes -> SO W bytes Share;
  share_umount : Share -> SO W bytes unit;
  share_create : Share -> bytes -> SO W bytes SmbHandle;
  share_open : Share -> bytes -> SO W bytes SmbHandle;
  share_open_file : Share -> bytes -> Z -> SO W bytes SmbHandle;
  smb_close : SmbHandle -> SO W bytes unit;
  share_mkdir : Share -> bytes -> SO W bytes unit;
  share_stat : Share -> bytes -> SO W bytes FileInfo;
  share_read_dir : Share -> bytes -> SO W bytes (list FileInfo);
  share_read_file : Share -> bytes -> SO W bytes bytes;
  share_write_file : Share -> bytes -> bytes -> SO W bytes unit;
  share_remove : Share -> bytes -> SO W bytes unit;
  share_remove_all : Share -> bytes -> SO W bytes unit;
  share_rename : Share -> bytes -> bytes -> SO W bytes unit;
  smb_random8 : W -> bytes
}.

Record SMBConfig := mkSmbConfig {
  SHost : bytes; SPort : Z; ShareName : bytes; SUsername : bytes; SPassword : bytes; Domain : bytes; SDBPath : bytes;
  STimeout : Z; SMaxRetries : Z; SRetryDelay : Z
}.
Record SMBFS := mkSmbFS { sbasePath : bytes; sconfig : SMBConfig; s_closed : bool }.
Definition smb_defaults (c : SMBConfig) : SMBConfig :=
  mkSmbConfig (SHost c) (or_default (SPort c) 445) (ShareName c) (SUsername c) (SPassword c) (Domain c) (SDBPath c)
    (or_default (STimeout c) (30 * 10 ^ 9)) (or_default (SMaxRetries c) 3) (or_default (SRetryDelay c) (10 ^ 9)).

(** Slashes become backslashes, and one at the front goes. *)
Definition smbPath (p : bytes) : bytes :=
  if bool_decide (p = []) || bool_decide (p = str ".") then []
  else match map (fun b => if is_char 47 b then byte.of_Z 92 else b) p with
       | b :: rest => if is_char 92 b then rest else b :: rest
       | [] => []
       end.

Definition isSMBExistError (e : bytes) : bool :=
  contains (str "exists") e || contains (str "STATUS_OBJECT_NAME_COLLISION") e || contains (str "STATUS_OBJECT_NAME_EXISTS") e.

Definition backslash : bytes := [byte.of_Z 92].

Section Client.
Context {W : Type} `{SmbClient W}.

Record smbConn := mkSmbConn { session : Session; share : Share; tcpConn : TcpConn }.

(** An attempt that failed, with the clean-up it needs. *)
Definition attempt_failed {A} (cleanup : SO W bytes unit) (last : bool) (text e : bytes) (again : SO W bytes A) : SO W bytes A :=
  cleanup;; if last then fail (text ++ e) else again.
Fixpoint smb_dial (c : SMBConfig) (attempts : nat) : SO W bytes smbConn :=
  match attempts with
  | O => fail (str "SMB connection failed after " ++ itoa (SMaxRetries c) ++ str " retries")
  | S n =>
    let last := bool_decide (n = O) in
    r ← try (tcp_dial (host_port (SHost c) (SPort c)));
    match r with
    | inr e => attempt_failed (mret tt) last (str "SMB TCP connection failed: ") e (smb_dial c n)
    | inl tcp =>
      r ← try (session_dial (SUsername c, SPassword c, Domain c) tcp);
      match r with
      | inr e => attempt_failed (try (tcp_close tcp);; mret tt) last (str "SMB session failed: ") e (smb_dial c n)
      | inl s =>
        r ← try (session_mount s (backslash ++ backslash ++ SHost c ++ backslash ++ ShareName c));
        match r with
        | inr e => attempt_failed (try (session_logoff s);; try (tcp_close tcp);; mret tt) last (str "SMB mount failed: ") e (smb_dial c n)
        | inl sh => mret (mkSmbConn s sh tcp)
        end
      end
    end
  end.
Definition smb_connect (fs : SMBFS) : SO W bytes smbConn :=
  if s_closed fs then fail (str "filesystem is closed") else smb_dial (sconfig fs) (Z.to_nat (SMaxRetries (sconfig fs) + 1)).
Definition smb_disconnect (c : smbConn) : SO W bytes unit :=
  try (share_umount (share c));; try (session_logoff (session c));; try (tcp_close (tcpConn c));; mret tt.
Definition NewSMBFS (base : bytes) (c : SMBConfig) : SO W bytes SMBFS :=
  let fs := mkSmbFS base (smb_defaults c) false in
  conn ← smb_connect fs; smb_disconnect conn;; mret fs.
Definition with_share {A} (fs : SMBFS) (fn : Share -> SO W bytes A) : SO W bytes A :=
  conn ← smb_connect fs; finally (smb_disconnect conn) (fn (share conn)).

(** ** On a share *)

Fixpoint smb_mkdirs (c : Share) (current : bytes) (parts : list bytes) : SO W bytes unit :=
  match parts with
  | [] => mret tt
  | part :: rest =>
    if bool_decide (part = []) then smb_mkdirs c current rest
    else
      let current := current ++ backslash ++ part in
      r ← try (share_mkdir c current);
      match r with
      | inl _ => smb_mkdirs c current rest
      | inr e =>
        if isSMBExistError e then smb_mkdirs c current rest
        else i ← try (share_stat c current);
             match i with
             | inl info => if FIsDir info then smb_mkdirs c current rest else fail e
             | inr _ => fail e
             end
      end
  end.

(** The temporary file is written on a connection of its own. *)
Definition smb_temp_id (w : W) : bytes := temp_suffix (smb_random8 w).
Definition smb_safe_write (fs : SMBFS) (path data : bytes) (c : Share) : SO W bytes unit :=
  suffix ← gets smb_temp_id;
  let temp := path ++ suffix in
  r ← try (with_share fs (fun c' => share_write_file c' (smbPath temp) data));
  match r with
  | inr e => fail (str "write failed: " ++ e)
  | inl _ =>
    r ← try (share_rename c (smbPath temp) (smbPath path));
    match r with
    | inr e => try (share_remove c (smbPath temp));; fail (str "rename failed: " ++ e)
    | inl _ => mret tt
    end
  end.

(** ** The file system *)

Definition Smb_MkdirAll (fs : SMBFS) (path : bytes) : SO W bytes unit :=
  with_share fs (fun c => smb_mkdirs c [] (split_path (trim_set path slash))).
Definition Smb_ReadDir (fs : SMBFS) (name : bytes) : SO W bytes (list FileInfo) := with_share fs (fun c => share_read_dir c (smbPath name)).
Definition Smb_Stat (fs : SMBFS) (name : bytes) : SO W bytes FileInfo := with_share fs (fun c => share_stat c (smbPath name)).
Definition Smb_Exists (fs : SMBFS) (name : bytes) : SO W bytes bool :=
  r ← try (Smb_Stat fs name); mret (match r with inl _ => true | inr _ => false end).
Definition Smb_Remove (fs : SMBFS) (name : bytes) : SO W bytes unit := with_share fs (fun c => share_remove c (smbPath name)).
Definition Smb_Rename (fs : SMBFS) (old new : bytes) : SO W bytes unit := with_share fs (fun c => share_rename c (smbPath old) (smbPath new)).
Definition Smb_ReadFile (fs : SMBFS) (name : bytes) : SO W bytes bytes := with_share fs (fun c => share_read_file c (smbPath name)).
Definition Smb_SafeWriteFile (fs : SMBFS) (path data : bytes) : SO W bytes unit := with_share fs (smb_safe_write fs path data).
Definition Smb_WriteFile := Smb_SafeWriteFile.
Definition Smb_RemoveAll (fs : SMBFS) (path : bytes) : SO W bytes unit := with_share fs (fun c => share_remove_all c (smbPath path)).
Definition Smb_Join (elems : list bytes) : bytes := join_text slash elems.
Definition Smb_Dir (p : bytes) : bytes := match cut_last 47 p with Some (d, _) => d | None => str "." end.
Definition Smb_Base (p : bytes) : bytes := match cut_last 47 p with Some (_, b) => b | None => p end.
Definition Smb_Abs (fs : SMBFS) (p : bytes) : bytes := if is_abs p then p else Smb_Join [sbasePath fs; p].

Record smbFile := mkSmbFile { sfile : SmbHandle; sfile_conn : smbConn }.
Definition smb_open_with (fs : SMBFS) (open : Share -> SO W bytes SmbHandle) : SO W bytes smbFile :=
  conn ← smb_connect fs;
  r ← try (open (share conn));
  match r with
  | inl f => mret (mkSmbFile f conn)
  | inr e => smb_disconnect conn;; fail e
  end.
Definition Smb_Create (fs : SMBFS) (name : bytes) := smb_open_with fs (fun c => share_create c (smbPath name)).
Definition Smb_Open (fs : SMBFS) (name : bytes) := smb_open_with fs (fun c => share_open c (smbPath name)).
Definition Smb_OpenFile (fs : SMBFS) (name : bytes) (flag : Z) := smb_open_with fs (fun c => share_open_file c (smbPath name) flag).
Definition Smb_TempFile (fs : SMBFS) (dir pattern : bytes) : SO W bytes smbFile :=
  id ← gets smb_random8; Smb_Create fs (Smb_Join [dir; pattern ++ hex_encode id]).
Definition Smb_Close (f : smbFile) : SO W bytes unit := finally (smb_disconnect (sfile_conn f)) (smb_close (sfile f)).

Section Walk.
Variable walkFn : bytes -> option FileInfo -> option bytes -> SO W bytes unit.
Definition SkipDir : bytes := str "skip this directory".

(** [depth] is how deep the directories may be. *)
Fixpoint walkRecursive (depth : nat) (c : Share) (smb display : bytes) : SO W bytes unit :=
  match depth with
  | O => lift Hang
  | S n =>
    i ← try (share_stat c smb);
    match i with
    | inr e => walkFn display None (Some e)
    | inl info =>
      if negb (FIsDir info) then walkFn display (Some info) None
      else
        walkFn display (Some info) None;;
        r ← try (share_read_dir c smb);
        match r with
        | inr e => walkFn display (Some info) (Some e)
        | inl entries =>
          (fix go entries := match entries with
           | [] => mret tt
           | entry :: rest =>
             r ← try (walkRecursive n c (smb ++ backslash ++ FName entry) (display ++ slash ++ FName entry));
             match r with
             | inr e => if bool_decide (e = SkipDir) then go rest else fail e
             | inl _ => go rest
             end
           end) entries
        end
    end
  end.
Definition Smb_Walk (fs : SMBFS) (depth : nat) (root : bytes) : SO W bytes unit :=
  with_share fs (fun c => walkRecursive depth c (smbPath root) root).
End Walk.

Definition Smb_FileSystem (fs : SMBFS) : FileSystem W := {|
  ReadFile := Smb_ReadFile fs; WriteFile := Smb_WriteFile fs; Rename := Smb_Rename fs; Remove := Smb_Remove fs;
  Join := Smb_Join; random8 := smb_random8
|}.
End Client.
