(* ===== verification/FileSysSpec.v ===== *)
(** * What a write to a file system leaves

    The four SafeWriteFile of the storage, which are all or nothing (over WebDAV
    where the server moves atomically), and, against the interface, the way the
    storage writes its metadata. Requests may fail, be carried out in part or
    be carried out although they end with an error. *)

From S2P Require Import Prelude GoLib Functions Eval Url FileSys WebDav WebDavSpec Sftp Smb.
Local Open Scope Z_scope.

Section Quiet.
Context {W : Type} (contents : W -> bytes -> option bytes).

(** No file changes. *)
Definition quiet {A} (m : SO W bytes A) : Prop := forall w, ends m w (fun _ w' => unchanged contents w w').

Lemma quiet_ret {A} (a : A) : quiet (mret a).
Proof. intros w q. done. Qed.
Lemma quiet_fail {A} e : quiet (fail (A := A) e).
Proof. intros w q. done. Qed.
Lemma quiet_lift {A} (r : outcome bytes A) : quiet (lift r).
Proof. intros w q. done. Qed.
Lemma quiet_bind {A B} (m : SO W bytes A) (k : A -> SO W bytes B) : quiet m -> (forall a, quiet (k a)) -> quiet (m ≫= k).
Proof.
  intros Hm Hk w. apply ends_bind. eapply ends_weaken; [apply Hm|]. intros r w1 Hu. destruct r as [a|e| |]; [|done..].
  eapply ends_weaken; [apply Hk|]. intros r w2 Hu2. by eapply unchanged_trans.
Qed.
Lemma quiet_try {A} (m : SO W bytes A) : quiet m -> quiet (try m).
Proof. intros Hm w. pose proof (Hm w) as Hu. unfold ends, try in *. by destruct (m w) as [[a|e| |] w']. Qed.
Lemma quiet_finally {A} c (m : SO W bytes A) : quiet c -> quiet m -> quiet (finally c m).
Proof.
  intros Hc Hm w. pose proof (Hm w) as Hu. unfold ends, finally in *. destruct (m w) as [r w1]. cbn in *.
  eapply unchanged_trans; [exact Hu|]. apply Hc.
Qed.

(** A run after a quiet one. *)
Lemma after_quiet {A B} (m : SO W bytes A) (k : A -> SO W bytes B) w Q : quiet m ->
  (forall r w1, unchanged contents w w1 -> (forall b, r <> Ok b) -> Q r w1) ->
  (forall a w1, unchanged contents w w1 -> ends (k a) w1 Q) -> ends (m ≫= k) w Q.
Proof.
  intros Hm Hbad Hk. apply ends_bind. eapply ends_weaken; [apply Hm|]. intros r w1 Hu. destruct r as [a|e| |]; [by apply Hk|by apply Hbad..].
Qed.
(** What [fn] does on a connection. *)
Lemma connected_ends {C A} (connect : SO W bytes C) (disconnect : C -> SO W bytes unit) (fn : C -> SO W bytes A) w Q :
  quiet connect -> (forall c, quiet (disconnect c)) ->
  (forall r w1, unchanged contents w w1 -> (forall a, r <> Ok a) -> Q r w1) ->
  (forall r w1 w2, Q r w1 -> unchanged contents w1 w2 -> Q r w2) ->
  (forall c w1, unchanged contents w w1 -> ends (fn c) w1 Q) -> ends (c ← connect; finally (disconnect c) (fn c)) w Q.
Proof.
  intros Hc Hd Hbad Hstable Hfn. apply after_quiet; [done|done|]. intros c w1 Hu. specialize (Hfn c w1 Hu).
  unfold ends, finally in *. destruct (fn c w1) as [r w2]. cbn in *. eapply Hstable; [exact Hfn|]. apply Hd.
Qed.

(** [try m] and then a continuation for each answer. *)
Lemma ends_try {A B} (m : SO W bytes A) (k : A + bytes -> SO W bytes B) w Q :
  ends m w (fun r w' => match r with Ok a => ends (k (inl a)) w' Q | Err e => ends (k (inr e)) w' Q | _ => Q (failed_as r) w' end) -> ends (try m ≫= k) w Q.
Proof. unfold ends, try, mbind, SO_bind. by destruct (m w) as [[a|e| |] w']. Qed.
(** A clean-up whose result does not matter. *)
Lemma then_fail {A B} (m : SO W bytes B) e w (Q : outcome bytes A -> W -> Prop) :
  ends m w (fun _ w' => forall r, (forall a, r <> Ok a) -> Q r w') -> ends (try m;; fail e) w Q.
Proof. intros Hm. apply ends_try. eapply ends_weaken; [exact Hm|]. intros r w' HQ. destruct r; by apply HQ. Qed.

Definition writes (target data : bytes) (w : W) (r : outcome bytes unit) (w' : W) : Prop :=
  exists temp, target <> temp /\ (length target < length temp)%nat /\ all_or_nothing contents target temp data w r w'.

Lemma aon_unchanged target temp data w r w1 w2 : all_or_nothing contents target temp data w r w1 -> unchanged contents w1 w2 -> all_or_nothing contents target temp data w r w2.
Proof.
  intros [Ht Hd Ho] Hu. split; [rewrite Hu; done|intros; rewrite Hu; by apply Hd|].
  intros q H1 H2. rewrite Hu. by apply Ho.
Qed.
Lemma writes_stable target data w r w1 w2 : writes target data w r w1 -> unchanged contents w1 w2 -> writes target data w r w2.
Proof. intros (t & Hne & Hl & Ha) Hu. exists t. split_and!; [done|done|]. by eapply aon_unchanged. Qed.
Lemma writes_nothing target data w r w1 : unchanged contents w w1 -> (forall a, r <> Ok a) -> writes target data w r w1.
Proof.
  intros Hu Hr. exists (target ++ temp_suffix []). assert (Hl : (length target < length (target ++ temp_suffix []))%nat) by (rewrite length_app; cbn; lia).
  assert (Hne : target <> target ++ temp_suffix []) by (intros He; rewrite <- He in Hl; lia).
  split_and!; [done|done|]. by apply aon_temp; [|apply unchanged_only|].
Qed.

(** What every rename may do. *)
Definition renames (a b : bytes) (w : W) (r : outcome bytes unit) (w' : W) : Prop :=
  (unchanged contents w w' /\ r <> Ok tt) \/ moved contents a b w w'.

(** Rename the temporary file; remove it where that fails. *)
Lemma finish_write {B} target temp data w (rename : SO W bytes unit) (remove : SO W bytes B) (text : bytes -> bytes) :
  target <> temp ->
  (forall w1, ends rename w1 (renames temp target w1)) -> (forall w1, ends remove w1 (fun _ w2 => only contents temp w1 w2)) ->
  forall w1, only contents temp w w1 -> contents w1 temp = Some data ->
  ends (r ← try rename; match r with inl _ => mret tt | inr e => try remove;; fail (text e) end) w1 (all_or_nothing contents target temp data w).
Proof.
  intros Hne Hren Hrem w1 Ho Hd. apply ends_try. eapply ends_weaken; [apply Hren|]. intros r w2 Hr.
  assert (Hbad : forall r', r <> Ok tt -> r' <> Ok tt -> forall w3, only contents temp w2 w3 -> all_or_nothing contents target temp data w r' w3).
  { intros r' Hr1 Hr2 w3 H3. destruct Hr as [[Hu _]|Hm]; [|by eapply aon_moved].
    apply aon_temp; [done| |done]. eapply only_trans; [exact Ho|]. eapply only_trans; [|exact H3]. by apply unchanged_only. }
  destruct r as [[]|e| |]; [|apply then_fail; eapply ends_weaken; [apply Hrem|]; intros; by apply Hbad|by apply Hbad..].
  destruct Hr as [[_ Hr]|Hm]; [done|]. eapply aon_moved; eauto. intros q _. done.
Qed.
End Quiet.

Create HintDb quiet discriminated.
#[export] Hint Resolve quiet_ret quiet_fail quiet_lift quiet_try : quiet.
(** Take a run apart; what is left are the operations of a library. *)
Ltac quietly := repeat (intros; cbn beta; first [ solve [eauto 2 with quiet] | apply quiet_bind | apply quiet_try | apply quiet_finally |
  match goal with |- quiet _ (match ?x with _ => _ end) => destruct x end ]).

(** ** SFTP *)

Class SftpLaws (W : Type) {C : SftpClient W} (contents : W -> bytes -> option bytes) (handle_path : Handle -> bytes) : Prop := {
  host_read_file_quiet p : quiet contents (host_read_file p);
  ssh_dial_quiet a u m : quiet contents (ssh_dial a u m);
  sftp_new_quiet c : quiet contents (sftp_new c);
  ssh_close_quiet c : quiet contents (ssh_close c);
  sftp_close_quiet c : quiet contents (sftp_close c);
  handle_close_quiet h : quiet contents (handle_close h);
  sftp_open_quiet c p w : ends (sftp_open c p) w (fun r w' => unchanged contents w w' /\ forall h, r = Ok h -> handle_path h = p);
  handle_read_all_reads h w : ends (handle_read_all h) w (fun r w' => unchanged contents w w' /\ forall d, r = Ok d -> contents w (handle_path h) = Some d);
  sftp_create_empties c p w : ends (sftp_create c p) w (fun r w' => only contents p w w' /\
    forall h, r = Ok h -> handle_path h = p /\ contents w' p = Some []);
  handle_write_appends h d w : ends (handle_write h d) w (fun r w' => only contents (handle_path h) w w' /\
    (contents w (handle_path h) = Some [] -> r = Ok (zlen d) -> contents w' (handle_path h) = Some d));
  sftp_rename_moves c a b w : a <> b -> ends (sftp_rename c a b) w (renames contents a b w);
  sftp_remove_only c p w : ends (sftp_remove c p) w (fun _ w' => only contents p w w')
}.

Section Sftp.
Context {W : Type} `{SftpClient W} (contents : W -> bytes -> option bytes) (handle_path : Handle -> bytes) `{!SftpLaws W contents handle_path}.
Variable fs : SFTPFS.

#[local] Hint Resolve host_read_file_quiet ssh_dial_quiet sftp_new_quiet ssh_close_quiet sftp_close_quiet handle_close_quiet : quiet.

Lemma dial_quiet c methods n last : quiet contents (dial c methods n last).
Proof. revert last. induction n as [|n IH]; intros last; cbn [dial]; quietly. Qed.
Lemma connect_quiet : quiet contents (connect fs).
Proof. pose proof dial_quiet. unfold connect, auth_methods, loadPrivateKey. quietly. Qed.
Lemma disconnect_quiet c : quiet contents (disconnect c).
Proof. unfold disconnect. quietly. Qed.

Lemma safe_write_writes path data c w w1 : unchanged contents w w1 -> ends (safe_write path data c) w1 (writes contents path data w).
Proof.
  intros Hu. unfold safe_write. apply ends_gets. set (temp := path ++ temp_id w1).
  assert (Hl : (length path < length temp)%nat) by (unfold temp, temp_id, temp_suffix; rewrite !length_app; cbn; lia).
  assert (Hne : path <> temp) by (intros He; rewrite <- He in Hl; lia).
  apply (ends_weaken _ _ (all_or_nothing contents path temp data w)); [|unfold writes; eauto].
  assert (Hpart : forall f e w2, only contents temp w w2 -> ends (abandon c f temp e) w2 (all_or_nothing contents path temp data w)).
  { intros f e w2 Ho. unfold abandon. apply (after_quiet contents); [apply quiet_try, handle_close_quiet| |].
    - intros r w3 Hu3 Hr. apply aon_temp; [done| |done]. eapply only_trans; [exact Ho|]. by apply unchanged_only.
    - intros _ w3 Hu3. apply then_fail. eapply ends_weaken; [apply sftp_remove_only|].
      intros ? w4 Ho4 r Hr. apply aon_temp; [done| |done]. eapply only_trans; [exact Ho|]. eapply only_trans; [|exact Ho4]. by apply unchanged_only. }
  apply ends_try. eapply ends_weaken; [apply sftp_create_empties|].
  intros r w2 [Ho2 Hf]. assert (Ho : only contents temp w w2) by (eapply only_trans; [by apply unchanged_only|exact Ho2]).
  destruct r as [f|e| |]; [|by apply aon_temp..]. destruct (Hf f eq_refl) as [Hp Hempty].
  apply ends_try. eapply ends_weaken; [apply handle_write_appends|].
  rewrite Hp. intros r w3 [Ho3 Hd]. assert (Hot : only contents temp w w3) by by eapply only_trans.
  destruct r as [written|e| |]; [|by apply Hpart|by apply aon_temp..].
  destruct (Z.eqb_spec written (zlen data)) as [->|Hw]; cbn [negb]; [|by apply Hpart].
  apply (after_quiet contents); [apply quiet_try, handle_close_quiet| |].
  - intros r w4 Hu4 Hr. apply aon_temp; [done| |done]. eapply only_trans; [exact Hot|]. by apply unchanged_only.
  - intros _ w4 Hu4. apply (finish_write contents path temp data w); [done| | | |].
    + intros w5. apply sftp_rename_moves. congruence.
    + intros w5. apply sftp_remove_only.
    + eapply only_trans; [exact Hot|]. by apply unchanged_only.
    + rewrite Hu4. by apply Hd.
Qed.

Lemma sftp_connected {A} (fn : SftpConn -> SO W bytes A) w Q :
  (forall r w1, unchanged contents w w1 -> (forall a, r <> Ok a) -> Q r w1) ->
  (forall r w1 w2, Q r w1 -> unchanged contents w1 w2 -> Q r w2) ->
  (forall c w1, unchanged contents w w1 -> ends (fn c) w1 Q) -> ends (withConn fs fn) w Q.
Proof.
  intros Hbad Hst Hfn. apply (connected_ends contents _ disconnect (fun c => fn (sftp c))); auto using connect_quiet, disconnect_quiet.
Qed.

Lemma renames_from a b w w1 r w2 : unchanged contents w w1 -> renames contents a b w1 r w2 -> renames contents a b w r w2.
Proof. intros Hu [[Hu2 Hr]|Hm]; [left; split; [by eapply unchanged_trans|done]|right; by eapply moved_from_unchanged]. Qed.
Lemma renames_stable a b w r w1 w2 : renames contents a b w r w1 -> unchanged contents w1 w2 -> renames contents a b w r w2.
Proof. intros [[Hu Hr]|Hm] Hu2; [left; split; [by eapply unchanged_trans|done]|right; by eapply moved_then_unchanged]. Qed.
Lemma renames_nothing a b w (r : outcome bytes unit) w1 : unchanged contents w w1 -> (forall a, r <> Ok a) -> renames contents a b w r w1.
Proof. intros Hu Hr. left. auto. Qed.

Lemma read_file_reads c name w : ends (batch_ReadFile c name) w (fun r w' => unchanged contents w w' /\ forall d, r = Ok d -> contents w name = Some d).
Proof.
  unfold batch_ReadFile. apply ends_bind. eapply ends_weaken; [apply sftp_open_quiet|]. intros r w1 [Hu Hh].
  destruct r as [h|e| |]; [|done..]. pose proof (handle_read_all_reads h w1) as Hr. rewrite (Hh h eq_refl) in Hr. unfold ends, finally in *.
  destruct (handle_read_all h w1) as [r w2]. cbn in *. destruct Hr as [Hu2 Hd]. split; [|intros d Hr; rewrite <- Hu; by apply Hd].
  eapply unchanged_trans; [exact Hu|]. eapply unchanged_trans; [exact Hu2|].
  apply (quiet_bind contents (try (handle_close h)) (fun _ => mret tt)); [apply quiet_try, handle_close_quiet|intros; apply quiet_ret].
Qed.

Lemma Sftp_laws : FileSystemLaws W (FS := Sftp_FileSystem fs) contents id.
Proof.
  split; cbn; unfold id.
  - intros name w. apply sftp_connected; [naive_solver| |].
    + intros r w1 w2 [Hu Hd] Hu2. split; [by eapply unchanged_trans|done].
    + intros c w1 Hu. eapply ends_weaken; [apply read_file_reads|]. intros r w2 [Hu2 Hd]. split; [by eapply unchanged_trans|].
      intros d Hr. rewrite <- Hu. by apply Hd.
  - intros name d w. apply sftp_connected; [by apply writes_nothing|by apply writes_stable|]. intros c w1 Hu. by apply safe_write_writes.
  - intros a b w Hne. apply sftp_connected; [by apply renames_nothing|by apply renames_stable|]. intros c w1 Hu.
    eapply ends_weaken; [by apply sftp_rename_moves|]. intros r w2. by apply renames_from.
  - intros name w. apply sftp_connected; [intros; by apply unchanged_only| |].
    + intros r w1 w2 Ho Hu. eapply only_trans; [exact Ho|]. by apply unchanged_only.
    + intros c w1 Hu. eapply ends_weaken; [apply sftp_remove_only|]. intros ? w2 Ho. eapply only_trans; [by apply unchanged_only|exact Ho].
  - intros name i _. unfold temp_suffix. rewrite !length_app. cbn. lia.
Qed.

(** A server that does not rename onto a file that is there, as version 3 of
    the protocol has it. *)
Lemma sftp_never_replaces path data c w old :
  (forall a b w, a <> b -> contents w b <> None -> ends (sftp_rename c a b) w (fun r w' => unchanged contents w w' /\ r <> Ok tt)) ->
  contents w path = Some old ->
  ends (safe_write path data c) w (fun r w' => r <> Ok tt /\ contents w' path = Some old).
Proof.
  intros Hrefuse Hold. unfold safe_write. apply ends_gets. set (temp := path ++ temp_id w).
  assert (Hne : temp <> path) by (unfold temp, temp_id, temp_suffix; intros He; apply (f_equal length) in He; rewrite !length_app in He; cbn in He; lia).
  apply (ends_weaken _ _ (fun r w' => r <> Ok tt /\ only contents temp w w')); [|intros r w' [Hr Ho]; by rewrite Ho by done].
  assert (Hup : forall f e w2, only contents temp w w2 -> ends (abandon c f temp e) w2 (fun r w' => r <> Ok tt /\ only contents temp w w')).
  { intros f e w2 Ho. unfold abandon. apply (after_quiet contents); [apply quiet_try, handle_close_quiet| |].
    - intros r w3 Hu Hr. split; [intros He; by eapply Hr|]. eapply only_trans; [exact Ho|by apply unchanged_only].
    - intros _ w3 Hu. apply then_fail. eapply ends_weaken; [apply sftp_remove_only|]. intros ? w4 Ho4 r Hr.
      split; [intros He; by eapply Hr|]. eapply only_trans; [exact Ho|]. eapply only_trans; [by apply unchanged_only|exact Ho4]. }
  apply ends_try. eapply ends_weaken; [apply sftp_create_empties|]. intros r w2 [Ho2 Hf]. destruct r as [f|e| |]; [|done..].
  destruct (Hf f eq_refl) as [Hp _]. apply ends_try. eapply ends_weaken; [apply handle_write_appends|]. rewrite Hp. intros r w3 [Ho3 _].
  assert (Ho : only contents temp w w3) by by eapply only_trans.
  destruct r as [n|e| |]; [|by apply Hup|done..]. destruct (negb _); [by apply Hup|].
  apply (after_quiet contents); [apply quiet_try, handle_close_quiet| |].
  - intros r w4 Hu4 Hr. split; [intros He; by eapply Hr|]. eapply only_trans; [exact Ho|by apply unchanged_only].
  - intros _ w4 Hu4. apply ends_try. eapply ends_weaken; [apply Hrefuse; [done|by rewrite Hu4, Ho, Hold by done]|].
    intros r w5 [Hu5 Hr]. assert (Ho5 : only contents temp w w5).
    { eapply only_trans; [exact Ho|]. eapply only_trans; by apply unchanged_only. }
    destruct r as [[]|e| |]; [done| |done..]. apply then_fail. eapply ends_weaken; [apply sftp_remove_only|]. intros ? w6 Ho6 r' Hr2.
    split; [intros He; by eapply Hr2|by eapply only_trans].
Qed.
End Sftp.

(** ** Windows shares *)

Class SmbLaws (W : Type) {C : SmbClient W} (contents : W -> bytes -> option bytes) : Prop := {
  tcp_dial_quiet a : quiet contents (tcp_dial a);
  tcp_close_quiet c : quiet contents (tcp_close c);
  session_dial_quiet u c : quiet contents (session_dial u c);
  session_logoff_quiet s : quiet contents (session_logoff s);
  session_mount_quiet s n : quiet contents (session_mount s n);
  share_umount_quiet s : quiet contents (share_umount s);
  share_read_file_reads s p w : ends (share_read_file s p) w (fun r w' => unchanged contents w w' /\ forall d, r = Ok d -> contents w p = Some d);
  share_write_file_only s p d w : ends (share_write_file s p d) w (fun r w' => only contents p w w' /\ (r = Ok tt -> contents w' p = Some d));
  share_rename_moves s a b w : a <> b -> ends (share_rename s a b) w (renames contents a b w);
  share_remove_only s p w : ends (share_remove s p) w (fun _ w' => only contents p w w')
}.

Section Smb.
Context {W : Type} `{SmbClient W} (contents : W -> bytes -> option bytes) `{!SmbLaws W contents}.
Variable fs : SMBFS.

#[local] Hint Resolve tcp_dial_quiet tcp_close_quiet session_dial_quiet session_logoff_quiet session_mount_quiet share_umount_quiet : quiet.

Lemma smb_dial_quiet c n : quiet contents (smb_dial c n).
Proof. induction n as [|n IH]; cbn [smb_dial]; unfold attempt_failed; quietly. Qed.
Lemma smb_connect_quiet : quiet contents (smb_connect fs).
Proof. pose proof smb_dial_quiet. unfold smb_connect. quietly. Qed.
Lemma smb_disconnect_quiet c : quiet contents (smb_disconnect c).
Proof. unfold smb_disconnect. quietly. Qed.

Lemma share_connected {A} (fn : Share -> SO W bytes A) w Q :
  (forall r w1, unchanged contents w w1 -> (forall a, r <> Ok a) -> Q r w1) ->
  (forall r w1 w2, Q r w1 -> unchanged contents w1 w2 -> Q r w2) ->
  (forall c w1, unchanged contents w w1 -> ends (fn c) w1 Q) -> ends (with_share fs fn) w Q.
Proof.
  intros Hbad Hst Hfn. apply (connected_ends contents _ smb_disconnect (fun c => fn (share c))); auto using smb_connect_quiet, smb_disconnect_quiet.
Qed.

Lemma smbPath_longer name id : (length (smbPath name) < length (smbPath (name ++ temp_suffix id)))%nat.
Proof.
  assert (Hl : (4 < length (temp_suffix id))%nat) by (unfold temp_suffix; rewrite length_app; cbn; lia).
  unfold smbPath at 2. rewrite !bool_decide_eq_false_2; cycle 1.
  { intros He. apply (f_equal length) in He. rewrite length_app in He. cbn in He. lia. }
  { intros He. apply (f_equal length) in He. rewrite length_app in He. cbn in He. lia. }
  cbn [orb]. unfold smbPath. destruct name as [|b name].
  - cbn [app]. rewrite bool_decide_eq_true_2 by done. cbn [orb]. set (m := map _ _). assert (Hm : length m = length (temp_suffix id)) by apply length_map.
    destruct m as [|b m]; cbn in *; [lia|]. destruct (is_char 92 b); cbn; lia.
  - cbn [app map]. rewrite map_app. case_match; cbn [length]; rewrite ?length_app, ?length_map; [|destruct (is_char 92 _); cbn [length]; rewrite ?length_app, ?length_map]; try lia.
    all: destruct (is_char 92 _); cbn [length]; rewrite ?length_app, ?length_map; lia.
Qed.

Lemma share_write_ends path data w c w1 : unchanged contents w w1 -> ends (smb_safe_write fs path data c) w1 (writes contents (smbPath path) data w).
Proof.
  intros Hu. unfold smb_safe_write. apply ends_gets. set (temp := smbPath (path ++ smb_temp_id w1)).
  assert (Hl : (length (smbPath path) < length temp)%nat) by apply smbPath_longer.
  assert (Hne : smbPath path <> temp) by (intros He; rewrite <- He in Hl; lia).
  apply (ends_weaken _ _ (all_or_nothing contents (smbPath path) temp data w)); [|unfold writes; eauto].
  apply ends_try. eapply (ends_weaken _ _ (fun r w2 => only contents temp w w2 /\ (r = Ok tt -> contents w2 temp = Some data))).
  - apply share_connected.
    + intros r w2 Hu2 Hr. split; [apply unchanged_only; by eapply unchanged_trans|]. intros He. by apply Hr in He.
    + intros r w2 w3 [Ho Hd] Hu3. split; [eapply only_trans; [exact Ho|by apply unchanged_only]|]. intros He. rewrite Hu3. by apply Hd.
    + intros c' w2 Hu2. eapply ends_weaken; [apply share_write_file_only|]. intros r w3 [Ho Hd]. split; [|exact Hd].
      eapply only_trans; [|exact Ho]. apply unchanged_only. by eapply unchanged_trans.
  - intros r w2 [Ho Hd]. destruct r as [[]|e| |]; [|by apply aon_temp..].
    apply (finish_write contents (smbPath path) temp data w); [done| | |done|by apply Hd].
    + intros w3. apply share_rename_moves. congruence.
    + intros w3. apply share_remove_only.
Qed.

Lemma Smb_laws : FileSystemLaws W (FS := Smb_FileSystem fs) contents smbPath.
Proof.
  split; cbn.
  - intros name w. apply share_connected; [naive_solver| |].
    + intros r w1 w2 [Hu Hd] Hu2. split; [by eapply unchanged_trans|done].
    + intros c w1 Hu. eapply ends_weaken; [apply share_read_file_reads|]. intros r w2 [Hu2 Hd]. split; [by eapply unchanged_trans|].
      intros d Hr. rewrite <- Hu. by apply Hd.
  - intros name d w. apply share_connected; [by apply writes_nothing|by apply writes_stable|]. intros c w1 Hu. by apply share_write_ends.
  - intros a b w Hne. apply share_connected; [by apply renames_nothing|by apply renames_stable|]. intros c w1 Hu.
    eapply ends_weaken; [by apply share_rename_moves|]. intros r w2. by apply renames_from.
  - intros name w. apply share_connected; [intros; by apply unchanged_only| |].
    + intros r w1 w2 Ho Hu. eapply only_trans; [exact Ho|]. by apply unchanged_only.
    + intros c w1 Hu. eapply ends_weaken; [apply share_remove_only|]. intros ? w2 Ho. eapply only_trans; [by apply unchanged_only|exact Ho].
  - intros name i _. apply smbPath_longer.
Qed.
End Smb.

(** ** Local files

    Names that differ are taken to denote different files: the two that a
    write uses are in one directory. *)

Class OsLaws (W : Type) {C : OsFiles W} (contents : W -> bytes -> option bytes) : Prop := {
  os_sync_quiet n : quiet contents (os_sync n);
  os_close_quiet n : quiet contents (os_close n);
  os_chmod_quiet n p : quiet contents (os_chmod n p);
  os_create_temp_new dir pattern w : ends (os_create_temp dir pattern) w (fun r w' =>
    match r with
    | Ok n => (exists s, path_base n = pattern ++ s) /\ only contents n w w' /\ contents w' n = Some []
    | _ => unchanged contents w w'
    end);
  os_write_only n d w : ends (os_write n d) w (fun r w' => only contents n w w' /\
    (contents w n = Some [] -> r = Ok tt -> contents w' n = Some d));
  os_rename_moves a b w : a <> b -> ends (os_rename a b) w (renames contents a b w);
  os_remove_only n w : ends (os_remove n) w (fun _ w' => only contents n w w')
}.

(** All or nothing, by way of some other file. *)
Definition atomically {W} (contents : W -> bytes -> option bytes) (target data : bytes) (w : W) (r : outcome bytes unit) (w' : W) : Prop :=
  exists temp, target <> temp /\ all_or_nothing contents target temp data w r w'.
Lemma writes_atomically {W} (contents : W -> bytes -> option bytes) target data w r w' :
  writes contents target data w r w' -> atomically contents target data w r w'.
Proof. intros (t & ? & _ & ?). by exists t. Qed.

Section Local.
Context {W : Type} `{OsFiles W} (contents : W -> bytes -> option bytes) `{!OsLaws W contents}.

(** The end of a run before its deferred clean-up. *)
Definition cleans (path temp d : bytes) (w : W) (r : outcome bytes unit) (w' : W) : Prop :=
  match r with
  | Ok _ => all_or_nothing contents path temp d w (Ok tt) w'
  | _ => ends (os_remove temp) w' (fun _ => all_or_nothing contents path temp d w r)
  end.
Lemma cleans_failed path temp d w r w' : path <> temp -> only contents temp w w' -> (forall a, r <> Ok a) -> cleans path temp d w r w'.
Proof.
  intros Hne Ho Hr. assert (Hrem : ends (os_remove temp) w' (fun _ => all_or_nothing contents path temp d w r)).
  { eapply ends_weaken; [apply os_remove_only|]. intros ? w3 Ho3. apply aon_temp; [done| |done]. by eapply only_trans. }
  destruct r; [by destruct (Hr a)|done..].
Qed.
Lemma cleans_closed path temp d w e w' : path <> temp -> only contents temp w w' -> ends (try (os_close temp);; fail e) w' (cleans path temp d w).
Proof.
  intros Hne Ho. apply then_fail. eapply ends_weaken; [apply os_close_quiet|]. intros ? w3 Hu3 r Hr. apply cleans_failed; [done| |done].
  eapply only_trans; [exact Ho|by apply unchanged_only].
Qed.
Lemma cleans_renamed path temp d w w' : path <> temp -> only contents temp w w' -> contents w' temp = Some d ->
  ends (os_rename temp path) w' (cleans path temp d w).
Proof.
  intros Hne Ho Hd. eapply ends_weaken; [apply os_rename_moves; congruence|]. intros r w2 Hr.
  assert (Hm : forall r', moved contents temp path w' w2 -> cleans path temp d w r' w2).
  { intros r' Hm. unfold cleans. destruct r'; [eapply aon_moved; eauto; intros q _; done|..];
      (eapply ends_weaken; [apply os_remove_only|]; intros ? w3 Ho3; by eapply aon_moved). }
  destruct Hr as [[Hu Hr]|Hr]; [|by apply Hm]. apply cleans_failed; [done| |intros []; done].
  eapply only_trans; [exact Ho|by apply unchanged_only].
Qed.

Lemma local_safe_write path d perm w : ends (Local_SafeWriteFile path d perm) w (atomically contents path d w).
Proof.
  unfold Local_SafeWriteFile. apply ends_bind. eapply ends_weaken; [apply os_create_temp_new|]. intros r w1 Hr.
  destruct r as [temp|e| |]; [|apply writes_atomically; by apply writes_nothing..]. destruct Hr as ([s Hbase] & Ho & Hempty).
  assert (Hne : path <> temp).
  { intros He. rewrite <- He in Hbase. apply (f_equal length) in Hbase. rewrite !length_app in Hbase. cbn in Hbase. lia. }
  apply (ends_weaken _ _ (all_or_nothing contents path temp d w)); [|intros; by exists temp].
  apply ends_on_failure. apply (ends_weaken _ _ (cleans path temp d w)); [|intros [[]|e| |] w2 Hc; exact Hc].
  apply ends_try. eapply ends_weaken; [apply os_write_only|]. intros r w2 [Ho2 Hd]. assert (Ho12 : only contents temp w w2) by by eapply only_trans.
  destruct r as [[]|e| |]; [|by apply cleans_closed|by apply cleans_failed..]. specialize (Hd Hempty eq_refl).
  apply ends_try. eapply ends_weaken; [apply os_sync_quiet|]. intros r w3 Hu3.
  assert (Ho3 : only contents temp w w3) by (eapply only_trans; [exact Ho12|by apply unchanged_only]).
  destruct r as [[]|e| |]; [|by apply cleans_closed|by apply cleans_failed..].
  apply (after_quiet contents); [apply quiet_try, os_close_quiet| |].
  { intros r w4 Hu4 Hr. apply cleans_failed; [done| |done]. eapply only_trans; [exact Ho3|by apply unchanged_only]. }
  intros _ w4 Hu4. apply (after_quiet contents); [apply os_chmod_quiet| |].
  { intros r w5 Hu5 Hr. apply cleans_failed; [done| |done]. eapply only_trans; [exact Ho3|]. apply unchanged_only. by eapply unchanged_trans. }
  intros _ w5 Hu5. apply cleans_renamed; [done| |by rewrite Hu5, Hu4, Hu3].
  eapply only_trans; [exact Ho3|]. apply unchanged_only. by eapply unchanged_trans.
Qed.
End Local.

(** ** The theorems *)

(** C26: SafeWriteFile over SFTP, over SMB and on local files is all or
    nothing: whatever fails, the target holds what it held or all of the new
    data; it holds the data where the write succeeds; and but for a temporary
    file no other file changes. Over WebDAV, with a number of retries that is
    not negative, however often a request is repeated, the same holds on a
    server whose moves are atomic; on any other the target of a write that
    fails may be lost, and nothing else. *)
Theorem safe_writes_atomic {W} `{DavClient W} `{SftpClient W} `{SmbClient W} `{OsFiles W} (contents : W -> bytes -> option bytes)
    (handle_path : Handle -> bytes) (Hdav : DavLaws W contents) (Hsftp : SftpLaws W contents handle_path) (Hsmb : SmbLaws W contents) (Hos : OsLaws W contents)
    (dav : WebDAVFS) (sftp : SFTPFS) (smb : SMBFS) (path data : bytes) (perm : Z) (w : W) :
  ends (Sftp_SafeWriteFile sftp path data) w (atomically contents path data w) /\
  ends (Smb_SafeWriteFile smb path data) w (atomically contents (smbPath path) data w) /\
  ends (Local_SafeWriteFile path data perm) w (atomically contents path data w) /\
  (0 <= WebDav.MaxRetries (WebDav.config dav) ->
   ends (Dav_SafeWriteFile dav path data) w (fun r w' => exists temp, webdavPath dav path <> temp /\ replaced_or_lost contents (webdavPath dav path) temp data w r w') /\
   (atomic_moves contents -> ends (Dav_SafeWriteFile dav path data) w (atomically contents (webdavPath dav path) data w))).
Proof.
  split_and!.
  - eapply ends_weaken; [apply (WriteFile_atomic (FileSystemLaws := Sftp_laws contents handle_path sftp))|]. intros r w'. apply writes_atomically.
  - eapply ends_weaken; [apply (WriteFile_atomic (FileSystemLaws := Smb_laws contents smb))|]. intros r w'. apply writes_atomically.
  - by apply local_safe_write.
  - intros Hn. split; [by apply safe_write_lossy|]. intros Ha.
    eapply ends_weaken; [by apply (WriteFile_atomic (FileSystemLaws := Dav_laws contents dav Hn Ha))|]. intros r w'. apply writes_atomically.
Qed.




(** ** A disk that fails *)

(** What happens to a request: it is carried out, refused, carried out with its
    answer lost, or, if it is a write, carried out in part. *)
Inductive Fault := Fine | Refused (e : bytes) | Lost (e : bytes) | Torn (e : bytes).
Record Disk := mkDisk { files : gmap bytes bytes; faults : list Fault; serial : Z }.
Definition disk_contents (w : Disk) (p : bytes) : option bytes := files w !! p.

(** Carry out a change, or the part of it that a torn request makes. *)
Definition request (change part : gmap bytes bytes -> gmap bytes bytes) : SO Disk bytes unit := fun w =>
  let done f r := (r, mkDisk (f (files w)) (tl (faults w)) (serial w)) in
  match faults w with
  | [] | Fine :: _ => done change (Ok tt)
  | Refused e :: _ => done id (Err e)
  | Lost e :: _ => done change (Err e)
  | Torn e :: _ => done part (Err e)
  end.
Definition disk_write (p d : bytes) : SO Disk bytes unit := request (<[p:=d]>) (<[p:=take (length d / 2) d]>).
Definition disk_remove (p : bytes) : SO Disk bytes unit := request (delete p) id.
Definition disk_rename (a b : bytes) : SO Disk bytes unit := fun w =>
  match files w !! a with
  | Some d => request (fun m => <[b:=d]> (delete a m)) id w
  | None => (Err (str "no such file"), w)
  end.
Definition disk_read (p : bytes) : SO Disk bytes bytes := fun w =>
  (match files w !! p with Some d => Ok d | None => Err (str "no such file") end, w).
Definition disk_stat (p : bytes) : SO Disk bytes FileInfo := d ← disk_read p; mret (mkFileInfo p (zlen d) 0 0 false).
Definition disk_random (w : Disk) : bytes := [byte.of_Z (serial w)].

Lemma request_only p change part w : (forall q m, q <> p -> change m !! q = m !! q) -> (forall q m, q <> p -> part m !! q = m !! q) ->
  ends (request change part) w (fun _ w' => only disk_contents p w w').
Proof. intros Hc Hp q Hq. unfold disk_contents, ends, request. destruct (faults w) as [|[] l]; cbn; auto. Qed.
Lemma disk_write_only p d w : ends (disk_write p d) w (fun r w' => only disk_contents p w w' /\ (r = Ok tt -> disk_contents w' p = Some d)).
Proof.
  split.
  - apply request_only; intros q m Hq; by rewrite lookup_insert_ne.
  - unfold disk_write, request, disk_contents. destruct (faults w) as [|[] l]; cbn; try done; intros _; apply lookup_insert_eq.
Qed.
Lemma disk_remove_only p w : ends (disk_remove p) w (fun _ w' => only disk_contents p w w').
Proof. apply request_only; [|done]. intros q m Hq. by rewrite lookup_delete_ne. Qed.
Lemma disk_rename_moves a b w : a <> b -> ends (disk_rename a b) w (renames disk_contents a b w).
Proof.
  intros Hne. unfold renames, ends, disk_rename. destruct (files w !! a) as [d|] eqn:E; [|left; by split].
  assert (Hm : forall f n, moved disk_contents a b w (mkDisk (<[b:=d]> (delete a (files w))) f n)).
  { intros f n. split; [exists d; split; [done|apply lookup_insert_eq]|]. unfold disk_contents. cbn. split.
    - by rewrite lookup_insert_ne, lookup_delete_eq.
    - intros q H1 H2. by rewrite lookup_insert_ne, lookup_delete_ne. }
  unfold request. destruct (faults w) as [|[] l]; cbn; auto; left; by split.
Qed.

Definition no_files {A} : SO Disk bytes A := fail (str "not supported").
#[local] Instance disk_dav : DavClient Disk := {|
  dav_read := disk_read; dav_write := disk_write; dav_rename := disk_rename; dav_remove := disk_remove; dav_remove_all := disk_remove;
  dav_mkdir_all _ := mret tt; dav_stat := disk_stat; dav_read_dir _ := mret []; dav_random8 := disk_random
|}.
#[local] Instance disk_sftp : SftpClient Disk := {|
  Signer := bytes; SshConn := unit; SftpConn := unit; Handle := bytes;
  host_home := str "/root"; host_read_file _ := no_files; parse_key k _ := Ok k;
  ssh_dial _ _ _ := mret tt; sftp_new _ := mret tt; ssh_close _ := mret tt; sftp_close _ := mret tt;
  sftp_create _ p := disk_write p [];; mret p; sftp_open _ p := disk_read p;; mret p; sftp_open_file _ p _ := disk_read p;; mret p;
  handle_write h d := disk_write h d;; mret (zlen d); handle_read_all := disk_read; handle_close _ := mret tt;
  sftp_mkdir _ _ := mret tt; sftp_stat _ := disk_stat; sftp_read_dir _ _ := mret []; sftp_remove _ := disk_remove; sftp_rename _ := disk_rename;
  sftp_walk _ p := mret [(p, None)]; sftp_random8 := disk_random
|}.
#[local] Instance disk_smb : SmbClient Disk := {|
  TcpConn := unit; Session := unit; Share := unit; SmbHandle := bytes;
  tcp_dial _ := mret tt; tcp_close _ := mret tt; session_dial _ _ := mret tt; session_logoff _ := mret tt; session_mount _ _ := mret tt; share_umount _ := mret tt;
  share_create _ p := disk_write p [];; mret p; share_open _ p := disk_read p;; mret p; share_open_file _ p _ := disk_read p;; mret p;
  smb_close _ := mret tt; share_mkdir _ _ := mret tt; share_stat _ := disk_stat; share_read_dir _ _ := mret [];
  share_read_file _ := disk_read; share_write_file _ := disk_write; share_remove _ := disk_remove; share_remove_all _ := disk_remove;
  share_rename _ := disk_rename; smb_random8 := disk_random
|}.
#[local] Instance disk_os : OsFiles Disk := {|
  os_read_file := disk_read; os_write_file p d _ := disk_write p d;
  os_create_temp dir pattern := fun w =>
    let n := dir ++ slash ++ pattern ++ str "1" in
    if bool_decide (path_base n = pattern ++ str "1") then (Ok n, mkDisk (<[n:=[]]> (files w)) (faults w) (serial w)) else (Err (str "bad pattern"), w);
  os_write := disk_write; os_sync _ := mret tt; os_close _ := mret tt; os_chmod _ _ := mret tt;
  os_rename := disk_rename; os_remove := disk_remove; os_stat := disk_stat
|}.

Lemma disk_read_reads p w : ends (disk_read p) w (fun r w' => unchanged disk_contents w w' /\ forall d, r = Ok d -> disk_contents w p = Some d).
Proof. unfold ends, disk_read, disk_contents. split; [done|]. cbn. intros d. by case_match; intros [= ->]. Qed.

Lemma disk_dav_laws : DavLaws Disk disk_contents.
Proof.
  split; [apply disk_read_reads|apply disk_write_only| |apply disk_remove_only].
  intros a b w Hne. eapply ends_weaken; [by apply disk_rename_moves|]. intros r w' [?|?]; auto.
Qed.
Lemma disk_atomic : atomic_moves disk_contents.
Proof. intros a b w. apply disk_rename_moves. Qed.
Lemma disk_sftp_laws : SftpLaws Disk disk_contents id.
Proof.
  split; cbn; intros; try apply quiet_ret; try apply quiet_fail; try by apply disk_rename_moves.
  - apply ends_bind. eapply ends_weaken; [apply disk_read_reads|]. intros [d|e| |] w1 [Hu _]; [|by split..]. split; [done|]. cbn. by intros h [= <-].
  - apply disk_read_reads.
  - apply ends_bind. eapply ends_weaken; [apply disk_write_only|]. intros [[]|e| |] w1 [Ho Hd]; [|by split..]. split; [done|]. cbn. intros h [= <-]. auto.
  - apply ends_bind. eapply ends_weaken; [apply disk_write_only|]. intros [[]|e| |] w1 [Ho Hd]; [|by split..]. split; [done|]. intros _ _. by apply Hd.
  - apply disk_remove_only.
Qed.
Lemma disk_smb_laws : SmbLaws Disk disk_contents.
Proof.
  split; cbn; intros; try apply quiet_ret; [apply disk_read_reads|apply disk_write_only|by apply disk_rename_moves|apply disk_remove_only].
Qed.
Lemma disk_os_laws : OsLaws Disk disk_contents.
Proof.
  split; cbn; intros; try apply quiet_ret; [|eapply ends_weaken; [apply disk_write_only|]; naive_solver|by apply disk_rename_moves|apply disk_remove_only].
  unfold ends. case_bool_decide as Hb; [|done]. cbn. split_and!; [by eexists| |apply lookup_insert_eq].
  intros q Hq. unfold disk_contents. cbn. by rewrite lookup_insert_ne.
Qed.

(** The answer to the first rename is lost, so that it is tried again. *)
Definition old_disk (l : list Fault) : Disk := mkDisk {[ str "/db/m.xxdb" := str "old"; str "db\m.xxdb" := str "old" ]} l 7.
Definition dav_fs : WebDAVFS := mkDavFS (str "/db") (WebDav.with_defaults (mkDavConfig (str "http://h/") (str "u") (str "p") (str "/db") 0 0 0)) false.
Definition sftp_fs : SFTPFS := mkSftpFS (str "/db") (Sftp.with_defaults (mkSftpConfig (str "h") 0 (str "u") (str "p") [] [] [] 0 0 0 0)) false.
Definition smb_fs : SMBFS := mkSmbFS (str "/db") (smb_defaults (mkSmbConfig (str "h") 0 (str "s") (str "u") (str "p") [] (str "/db") 0 0 0)) false.

Definition shown {A} (r : outcome bytes A * Disk) : outcome bytes A * list (bytes * bytes) := (r.1, map_to_list (files r.2)).

(** Torn and refused writes are repeated; the old file is there until the rename. *)
Example dav_torn_write : shown (Dav_SafeWriteFile dav_fs (str "m.xxdb") (str "data") (old_disk [Torn (str "timeout"); Refused (str "503"); Fine; Fine])) =
  (Ok tt, [(str "/db/m.xxdb", str "data"); (str "db\m.xxdb", str "old")]).
Proof. vm_compute. reflexivity. Qed.

(** The write is reported as failed although the new data are there. *)
Example dav_lost_answer :
  let r := Dav_SafeWriteFile dav_fs (str "m.xxdb") (str "data") (old_disk [Fine; Lost (str "timeout")]) in
  r.1 = Err (str "rename failed: no such file") /\ disk_contents r.2 (str "/db/m.xxdb") = Some (str "data").
Proof. vm_compute. auto. Qed.

(** A server that deletes the target and does not move the file: the temporary
    file is removed too, and both the old and the new data are gone. *)
Definition half_move : DavClient Disk := {|
  dav_read := dav_read; dav_write := dav_write; dav_remove := dav_remove; dav_remove_all := dav_remove_all;
  dav_rename a b := fun w => (Err (str "507"), mkDisk (delete b (files w)) (faults w) (serial w));
  dav_mkdir_all := dav_mkdir_all; dav_stat := dav_stat; dav_read_dir := dav_read_dir; dav_random8 := dav_random8
|}.
Example dav_target_lost :
  let r := @Dav_SafeWriteFile _ half_move dav_fs (str "m.xxdb") (str "data") (old_disk []) in
  r.1 = Err (str "rename failed: 507") /\ map fst (map_to_list (files r.2)) = [str "db\m.xxdb"].
Proof. vm_compute. auto. Qed.

(** A negative number of repetitions: nothing is written, and no error. *)
Example dav_negative_retries :
  let r := Dav_SafeWriteFile (mkDavFS (str "/db") (WebDav.with_defaults (mkDavConfig (str "http://h/") (str "u") (str "p") (str "/db") (-1) 0 0)) false) (str "m.xxdb") (str "data") (old_disk []) in
  r.1 = Ok tt /\ disk_contents r.2 (str "/db/m.xxdb") = Some (str "old").
Proof. vm_compute. auto. Qed.

(** Closing a file again after an error reports success; the data are lost. *)
Example dav_close_twice :
  let f := Dav_Create dav_fs (str "new") in
  let '(_, s) := FWrite (str "data") (f, old_disk [Refused (str "full")]) in
  let '(r1, s) := FClose dav_fs s in
  let '(r2, s) := FClose dav_fs s in
  r1 = Err (str "full") /\ r2 = Ok tt /\ disk_contents s.2 (str "/db/new") = None.
Proof. vm_compute. auto. Qed.

(** A file that is there is opened for reading only, whatever the flags, unless
    they say to append. *)
Example dav_truncate_flag :
  match Dav_OpenFile dav_fs (str "m.xxdb") (O_CREATE + O_RDWR + FlagO_TRUNC) (old_disk []) with
  | (Ok f, w) => (FWrite (str "x") (f, w)).1
  | _ => Panic
  end = Err (str "file not open for writing").
Proof. vm_compute. reflexivity. Qed.

(** The package's flag for synchronous writes is the one that truncates. *)
Example flag_sync_truncates : FlagO_SYNC = FlagO_TRUNC /\ has_flag O_APPEND FlagO_APPEND = false.
Proof. auto. Qed.

Lemma safe_writes_atomic_witness :
  disk_contents (Dav_SafeWriteFile dav_fs (str "m.xxdb") (str "data") (old_disk [Lost (str "timeout"); Lost (str "timeout")])).2 (str "/db/m.xxdb") = Some (str "old") \/
  disk_contents (Dav_SafeWriteFile dav_fs (str "m.xxdb") (str "data") (old_disk [Lost (str "timeout"); Lost (str "timeout")])).2 (str "/db/m.xxdb") = Some (str "data").
Proof.
  destruct (safe_writes_atomic disk_contents (id : @Handle Disk disk_sftp -> bytes) disk_dav_laws disk_sftp_laws disk_smb_laws disk_os_laws dav_fs sftp_fs smb_fs (str "m.xxdb") (str "data") PermFile
    (old_disk [Lost (str "timeout"); Lost (str "timeout")])) as (_ & _ & _ & Hd).
  destruct (proj2 (Hd ltac:(vm_compute; discriminate)) disk_atomic) as (temp & _ & [Ht _ _]).
  exact Ht.
Defined.

