(* ===== verification/Keys.v ===== *)
(** * The metadata file and its encryption (storage/storage.go)

    A storage together with the bytes of its metadata file: enabling
    encryption, changing the password, opening a database with a password, the
    settings of authentication and the full-text indexes that the file keeps.
    The JSON text of the file is a parameter. *)

From S2P Require Import Prelude GoLib Types PageCache TableFile Crypto Json Wal Storage Functions Eval FileSys.
Local Open Scope Z_scope.

Record FTSIndexInfo := mkFTSInfo { FTable : bytes; FColumn : bytes; FIndex : bytes }.

(** The settings of authentication. *)
Abbreviation config := (gmap bytes json).

(** What the file holds; empty maps are left out. *)
Record MetaFile := mkMetaFile {
  mf_meta : Metadata;
  mf_auth : option config;
  mf_fts : option (gmap bytes FTSIndexInfo)
}.

Class MetadataJSON := {
  meta_json : MetaFile -> bytes;
  parse_meta : bytes -> option MetaFile
}.

Record Vault := mkVault {
  db : Storage;                      (* its encryptor is the one in use *)
  encrypted : bool;
  key : option Encryptor;
  pending : bool;                    (* metadataPendingPassword *)
  authConfig : option config;
  ftsIndexes : gmap bytes FTSIndexInfo;
  metaFile : option bytes
}.

Inductive KeyError :=
  | NoMetadataFile | ErrEncryptionKeyRequired | CannotDecrypt (e : CryptoError) | CannotParse
  | PasswordRequired | InvalidOldPassword | DatabaseIsEncrypted | WrongPassword (e : KeyError) | EnableFailed (e : KeyError)
  | InStorage (e : StorageError)
  | FTSNoTable | FTSNoColumn | FTSNotText | FTSExists | FTSNoIndex.

Abbreviation VM := (SO Vault KeyError).

Definition set_encryptor x s := mkStorage (enabled s) (tables s) (sequences s) (snextID s) (tableFiles s) (disk s) (pageCache s) (rowData s) (rowIDs s) (walFile s) (walSeq s) x (blobs s) (blobThreshold s) (skipSave s) (metadata s).
Definition set_db x v := mkVault x (encrypted v) (key v) (pending v) (authConfig v) (ftsIndexes v) (metaFile v).
(** The encryptor in use follows the two fields. *)
Definition set_keys enc k v := mkVault (set_encryptor (if enc : bool then k else None) (db v)) enc k (pending v) (authConfig v) (ftsIndexes v) (metaFile v).
Definition set_pending x v := mkVault (db v) (encrypted v) (key v) x (authConfig v) (ftsIndexes v) (metaFile v).
Definition set_auth x v := mkVault (db v) (encrypted v) (key v) (pending v) x (ftsIndexes v) (metaFile v).
Definition set_fts x v := mkVault (db v) (encrypted v) (key v) (pending v) (authConfig v) x (metaFile v).
Definition set_file x v := mkVault (db v) (encrypted v) (key v) (pending v) (authConfig v) (ftsIndexes v) x.

(** Run an operation of the storage. *)
Definition in_db {A} (m : SM A) : VM A := fun v =>
  let '(r, s) := m (db v) in
  (match r with Ok a => Ok a | Err e => Err (InStorage e) | Panic => Panic | Hang => Hang end, set_db s v).

Definition non_empty {A} (m : gmap bytes A) : option (gmap bytes A) := if bool_decide (m = ∅) then None else Some m.

Section Vault.
Context `{GoRuntime} `{JSONRuntime} `{RecordJSON} `{Environment} `{ColumnJSON} `{MetadataJSON}.
Context (sscan_int : bytes -> option Z).

Definition saving (s : Storage) : bool := Storage.enabled s && negb (skipSave s).

(** The bytes that are written for a tree. *)
Definition file_bytes (v : Vault) (m : Metadata) : bytes :=
  let text := meta_json (mkMetaFile m (authConfig v ≫= non_empty) (non_empty (ftsIndexes v))) in
  match encryptor (db v) with
  | Some e => default [] (EncryptFile (rand_at (walSeq (db v))) e (Some text))
  | None => text
  end.
Definition save_metadata : VM unit :=
  v ← gets id;
  in_db (Storage.write_tree (encrypted v));;
  modify (fun v => if saving (db v) then set_file (file_bytes v <$> metadata (db v)) v else v).

Definition load_file (f : MetaFile) (v : Vault) : Vault :=
  let v := set_pending false v in
  let v := set_db (Storage.loadMetadata sscan_int (mf_meta f) (db v)) v in
  let v := match mf_auth f with Some a => set_auth (Some a) v | None => v end in
  let v := if m_encrypted (mf_meta f) then set_keys true (key v) v else v in
  match mf_fts f with Some x => set_fts x v | None => v end.
Definition parse_file (data : bytes) : VM unit :=
  match parse_meta data with
  | Some f => modify (load_file f)
  | None => fail CannotParse
  end.
Definition load_metadata : VM unit :=
  v ← gets id;
  match metaFile v with
  | None => fail NoMetadataFile
  | Some data =>
    if IsEncrypted data then
      modify (set_keys true (key v));;
      match key v with
      | None => fail ErrEncryptionKeyRequired
      | Some e => match DecryptFile e (Some data) with
                  | Ok d => parse_file (default [] d)
                  | Err e => fail (CannotDecrypt e)
                  | Panic => lift Panic
                  | Hang => lift Hang
                  end
      end
    else parse_file data
  end.

Definition recover : VM unit := modify (fun v => set_db (recoverFromWAL (db v)) v).
Definition LoadAndVerifyMetadata : VM unit := load_metadata;; recover.

(** The files of a database, opened: initFileStorage. *)
Definition fresh (files : Vault) (threshold : Z) : Vault :=
  mkVault (mkStorage true ∅ ∅ 1 ∅ (disk (db files)) (NewPageCache DefaultPageCacheConfig) ∅ ∅
             (Some (default [] (walFile (db files)))) 0 None (blobs (db files)) threshold false (metadata (db files)))
    false None false (Some ∅) ∅ (metaFile files).
Definition initFileStorage : VM unit :=
  v ← gets id;
  match metaFile v with
  | None => mret tt
  | Some data => if IsEncrypted data then modify (fun v => set_pending true (set_keys true (key v) v))
                 else try load_metadata;; recover
  end.

(** ** Encryption *)

Definition SetEncryption (password : bytes) : VM unit :=
  if bool_decide (password = []) then modify (set_keys false None)
  else
    modify (set_keys true (Some (NewEncryptor password None)));;
    v ← gets id;
    if Storage.enabled (db v) && bool_decide (is_Some (metaFile v)) && IsEncrypted (default [] (metaFile v)) then load_metadata;; recover
    else if Storage.enabled (db v) then save_metadata else mret tt.
Definition SetEncryptionWithSalt (password : bytes) : VM unit :=
  if bool_decide (password = []) then fail PasswordRequired else modify (set_keys true (Some (NewEncryptor password None))).
Definition IsEncrypted_ (v : Vault) : bool := encrypted v.
Definition encryptData (data : bytes) (v : Vault) : option bytes :=
  match encryptor (db v) with Some e => EncryptFile (rand_at (walSeq (db v))) e (Some data) | None => Some data end.
Definition decryptData (data : bytes) (v : Vault) : outcome CryptoError (option bytes) :=
  match encryptor (db v) with
  | Some e => if IsEncrypted data then DecryptFile e (Some data) else Ok (Some data)
  | None => Ok (Some data)
  end.

(** Does the old password decrypt the file? *)
Definition verify_old (oldPassword : bytes) (v : Vault) : VM unit :=
  match encryptor (db v), metaFile v with
  | Some _, Some data =>
    if IsEncrypted data then
      match DecryptFile (NewEncryptor oldPassword None) (Some data) with
      | Ok _ => mret tt
      | Err _ => fail InvalidOldPassword
      | Panic => lift Panic
      | Hang => lift Hang
      end
    else mret tt
  | _, _ => mret tt
  end.
Definition ChangePassword (oldPassword newPassword : bytes) : VM unit :=
  v ← gets id;
  verify_old oldPassword v;;
  modify (if bool_decide (newPassword = []) then set_keys false None else set_keys true (Some (NewEncryptor newPassword None)));;
  save_metadata;;
  in_db truncateWAL.

Definition IsDatabaseEncrypted (files : Vault) : bool := match metaFile files with Some data => IsEncrypted data | None => false end.

(** Close: [order] as in the storage. *)
Definition close_vault (order : list Z) : VM unit :=
  s ← gets db;
  try (in_db (close_files (map_to_list (tableFiles s)).*1 order));;
  v ← gets id;
  if Storage.enabled (db v) && negb (pending v) then
    save_metadata;;
    modify (fun v => set_db (set_wal ((fun _ => []) <$> walFile (db v)) (walSeq (db v)) (db v)) v)
  else mret tt.

(** Give up opening: close and report. *)
Definition close_and_fail {A} (order : list Z) (e : KeyError) : VM A := try (close_vault order);; fail e.
(** NewEngineWithConfig (executor/executor.go), up to the open storage. *)
Definition open_database (order : list Z) (password : bytes) : VM unit :=
  initFileStorage;;
  v ← gets id;
  if IsDatabaseEncrypted v then
    if bool_decide (password = []) then close_and_fail order DatabaseIsEncrypted
    else
      r ← try (SetEncryptionWithSalt password);
      match r with
      | inr e => close_and_fail order e
      | inl _ =>
        r ← try LoadAndVerifyMetadata;
        match r with
        | inr e => close_and_fail order (WrongPassword e)
        | inl _ => mret tt
        end
      end
  else if bool_decide (password = []) then mret tt
  else
    r ← try (SetEncryption password);
    match r with
    | inr e => close_and_fail order (EnableFailed e)
    | inl _ => mret tt
    end.

(** ** Settings that the file keeps *)

Definition GetAuthConfig (v : Vault) : option config := authConfig v.
Definition SetAuthConfig (a : option config) : VM unit := modify (set_auth a);; save_metadata.

Definition fts_key (table column : bytes) : bytes := table ++ str "." ++ column.
Definition CreateFTSIndex (table column index : bytes) : VM unit :=
  v ← gets id;
  match tables (db v) !! table with
  | None => fail FTSNoTable
  | Some t =>
    match List.find (fun c => equal_fold (Name c) column) (Columns (info t)) with
    | None => fail FTSNoColumn
    | Some c =>
      if negb (IsString (CType c) || (CType c =? TypeText)) then fail FTSNotText
      else match ftsIndexes v !! fts_key table column with
           | Some _ => fail FTSExists
           | None =>
             modify (fun v => set_fts (<[fts_key table column := mkFTSInfo table column index]> (ftsIndexes v)) v);;
             r ← try save_metadata;
             match r with
             | inl _ => mret tt
             | inr e => modify (fun v => set_fts (delete (fts_key table column) (ftsIndexes v)) v);; fail e
             end
           end
    end
  end.
Definition DropFTSIndex (table column : bytes) : VM unit :=
  v ← gets id;
  match ftsIndexes v !! fts_key table column with
  | None => fail FTSNoIndex
  | Some _ => modify (fun v => set_fts (delete (fts_key table column) (ftsIndexes v)) v);; save_metadata
  end.
Definition GetFTSIndexes (v : Vault) : gmap bytes FTSIndexInfo := ftsIndexes v.
Definition HasFTSIndex (table column : bytes) (v : Vault) : bool := bool_decide (is_Some (ftsIndexes v !! fts_key table column)).
Definition GetFTSIndexPath (path table column : bytes) (v : Vault) : bytes :=
  match ftsIndexes v !! fts_key table column with
  | None => []
  | Some i => path_join [path; str "data"; str "fts_" ++ (if bool_decide (FIndex i = []) then fts_key table column else FIndex i) ++ str ".idx"]
  end.
End Vault.
