(* ===== verification/KeysSpec.v ===== *)
(** * Passwords of a database

    A database whose password was changed opens with the new password and
    holds what it held. The old password is not checked: the cipher has no
    check of its own, so that every password decrypts. *)

From S2P Require Import Prelude GoLib Types PageCache TableFile Crypto Json Wal Storage Functions Eval FileSys Keys.
Local Open Scope Z_scope.

(** A brace, as the text of a JSON object starts. *)
Definition brace : byte := byte.of_Z 123.

Section Spec.
Context `{GoRuntime} `{JSONRuntime} `{RecordJSON} `{Environment} `{ColumnJSON} `{MetadataJSON}.
Context (sscan_int : bytes -> option Z).

(** The text of [f] is an object, and is read back. *)
Definition readable (f : MetaFile) : Prop := parse_meta (meta_json f) = Some f /\ exists t, meta_json f = brace :: t.

Definition key_for (password : bytes) : option Encryptor := if bool_decide (password = []) then None else Some (NewEncryptor password None).
(** The tree and the file that a save under a key writes. *)
Definition saved_tree (s : Storage) (k : option Encryptor) (rows : gmap bytes (list (Z * list json))) : Metadata :=
  mkMeta (tables s) (sequences s) (snextID s) rows (bool_decide (is_Some k)).
Definition saved_file (v : Vault) (k : option Encryptor) (rows : gmap bytes (list (Z * list json))) : MetaFile :=
  mkMetaFile (saved_tree (db v) k rows) (authConfig v ≫= non_empty) (non_empty (ftsIndexes v)).

Lemma raw_tables_encryptor k s : raw_tables (set_encryptor k s) = raw_tables s.
Proof. done. Qed.

Lemma save_run v rows : saving (db v) = true -> raw_tables (db v) = Ok rows -> encrypted v = bool_decide (is_Some (encryptor (db v))) ->
  save_metadata v = (Ok tt, set_file (Some (file_bytes v (saved_tree (db v) (encryptor (db v)) rows)))
                              (set_db (set_metadata (Some (saved_tree (db v) (encryptor (db v)) rows)) (db v)) v)).
Proof.
  unfold saving. intros Hs Hr Hk0. apply andb_true_iff in Hs as [He Hk]. apply negb_true_iff in Hk.
  unfold save_metadata, saved_tree. rewrite <- Hk0. unfold in_db, write_tree, mbind, SO_bind, gets, modify, id. rewrite He, Hk. cbn [negb orb]. rewrite Hr. cbn.
  unfold saving. cbn. by rewrite He, Hk.
Qed.

Lemma encrypted_text (rand : nat -> byte) k t d : EncryptFile rand k (Some (t :: d)) = Some (MagicTXDEF ++ random_bytes rand (addLen (code_or_default (code k))) ++
  enc_bytes (code_or_default (code k)) (default Byte.x00 (random_bytes rand (addLen (code_or_default (code k))) !! encIndex (code_or_default (code k)))) 0 (t :: d)).
Proof. done. Qed.
Lemma object_not_encrypted t : IsEncrypted (brace :: t) = false.
Proof. unfold IsEncrypted, has_prefix. apply bool_decide_eq_false_2. by destruct t. Qed.

Lemma recover_empty s : walFile s = Some [] -> recoverFromWAL s = s.
Proof. intros Hw. unfold recoverFromWAL. rewrite Hw. destruct (Storage.enabled s); [|done]. by destruct s, encryptor. Qed.

(** What the file holds under a key. *)
Definition written_under (k : option Encryptor) (f : MetaFile) (data : bytes) : Prop :=
  match k with
  | Some e => exists rand, data = default [] (EncryptFile rand e (Some (meta_json f)))
  | None => data = meta_json f
  end.

Definition opened (f : MetaFile) (k : option Encryptor) (v : Vault) : Vault :=
  load_file sscan_int f (set_keys (bool_decide (is_Some k)) k v).

Lemma set_db_id v : set_db (db v) v = v.
Proof. by destruct v. Qed.
Lemma recover_opened f k v : walFile (db v) = Some [] -> recover (opened f k v) = (Ok tt, opened f k v).
Proof.
  intros Hw. unfold recover, modify. rewrite recover_empty; [by rewrite set_db_id|].
  unfold opened, load_file. destruct (mf_fts f), (mf_auth f), (m_encrypted (mf_meta f)); exact Hw.
Qed.
Lemma file_kept f k v : metaFile (opened f k v) = metaFile v.
Proof. unfold opened, load_file. by destruct (mf_fts f), (mf_auth f), (m_encrypted (mf_meta f)). Qed.

Lemma open_plain f data order th files : readable f -> metaFile files = Some data -> written_under None f data -> default [] (walFile (db files)) = [] ->
  open_database sscan_int order [] (fresh files th) = (Ok tt, opened f None (fresh files th)).
Proof.
  intros [Hp [t Ht]] Hf Hd Hw. cbn in Hd. subst data.
  assert (Hi : initFileStorage sscan_int (fresh files th) = (Ok tt, opened f None (fresh files th))).
  { unfold initFileStorage. rewrite bind_gets. cbn [metaFile fresh id]. rewrite Hf, Ht, object_not_encrypted.
    assert (Hl : try (load_metadata sscan_int) (fresh files th) = (Ok (inl tt), opened f None (fresh files th))).
    { unfold try, load_metadata. rewrite bind_gets. cbn [metaFile fresh id]. rewrite Hf, Ht, object_not_encrypted. unfold parse_file. by rewrite <- Ht, Hp. }
    rewrite (bind_ok _ _ _ _ _ Hl). apply recover_opened. cbn. by rewrite Hw. }
  unfold open_database. rewrite (bind_ok _ _ _ _ _ Hi), bind_gets. unfold id, IsDatabaseEncrypted.
  rewrite file_kept. cbn [metaFile fresh]. by rewrite Hf, Ht, object_not_encrypted.
Qed.

Lemma decrypts f rand e : readable f -> DecryptFile e (Some (default [] (EncryptFile rand e (Some (meta_json f))))) = Ok (Some (meta_json f)).
Proof.
  intros [_ [t Ht]]. rewrite Ht. pose proof (decrypt_encrypt_ok rand (brace :: t) (code e) ltac:(done)) as Hd.
  unfold DecryptFile, EncryptFile, Decrypt, Encrypt in *. exact Hd.
Qed.
Lemma encrypted_is_encrypted f rand e : readable f -> IsEncrypted (default [] (EncryptFile rand e (Some (meta_json f)))) = true.
Proof. intros [_ [t Ht]]. rewrite Ht, encrypted_text. apply has_prefix_app. Qed.

Lemma open_encrypted f data order th files password : readable f -> metaFile files = Some data -> password <> [] ->
  written_under (Some (NewEncryptor password None)) f data -> default [] (walFile (db files)) = [] ->
  open_database sscan_int order password (fresh files th) = (Ok tt, opened f (Some (NewEncryptor password None)) (fresh files th)).
Proof.
  intros Hr Hf Hne [rand Hd] Hw. pose proof (encrypted_is_encrypted f rand (NewEncryptor password None) Hr) as He. rewrite <- Hd in He.
  pose proof (decrypts f rand (NewEncryptor password None) Hr) as Hdec. rewrite <- Hd in Hdec.
  set (v1 := set_pending true (set_keys true None (fresh files th))).
  assert (Hi : initFileStorage sscan_int (fresh files th) = (Ok tt, v1)).
  { unfold initFileStorage. rewrite bind_gets. cbn [metaFile fresh id]. by rewrite Hf, He. }
  unfold open_database. rewrite (bind_ok _ _ _ _ _ Hi), bind_gets. unfold id at 1, IsDatabaseEncrypted. cbn [metaFile v1 set_pending set_keys fresh].
  rewrite Hf, He, bool_decide_eq_false_2 by done. unfold SetEncryptionWithSalt. rewrite bool_decide_eq_false_2 by done.
  set (v2 := set_keys true (Some (NewEncryptor password None)) v1).
  assert (Hl : load_metadata sscan_int v2 = (Ok tt, opened f (Some (NewEncryptor password None)) (fresh files th))).
  { unfold load_metadata. rewrite bind_gets. cbn [metaFile v2 v1 set_keys set_pending fresh id key]. rewrite Hf, He, bind_modify.
    unfold key; cbn [v2 v1 set_keys set_pending]. rewrite Hdec. unfold parse_file. destruct Hr as [Hp _]. cbn [default from_option id]. rewrite Hp. done. }
  change ((r ← try (LoadAndVerifyMetadata sscan_int); match r with inl _ => mret tt | inr e => close_and_fail order (WrongPassword e) end) v2 = (Ok tt, opened f (Some (NewEncryptor password None)) (fresh files th))).
  assert (Hlv : try (LoadAndVerifyMetadata sscan_int) v2 = (Ok (inl tt), opened f (Some (NewEncryptor password None)) (fresh files th))).
  { unfold try, LoadAndVerifyMetadata. rewrite (bind_ok _ _ _ _ _ Hl), recover_opened; [done|]. cbn. by rewrite Hw. }
  by rewrite (bind_ok _ _ _ _ _ Hlv).
Qed.

Lemma verify_old_state old v v0 : (verify_old old v v0).2 = v0.
Proof. unfold verify_old. by repeat case_match. Qed.

(** What changing the password does, where it succeeds. *)
Lemma change_run old new v v' rows : saving (db v) = true -> raw_tables (db v) = Ok rows -> ChangePassword old new v = (Ok tt, v') ->
  exists data, metaFile v' = Some data /\ written_under (key_for new) (saved_file v (key_for new) rows) data /\ default [] (walFile (db v')) = [] /\
  metadata (db v') = Some (saved_tree (db v) (key_for new) rows) /\ blobs (db v') = blobs (db v) /\ disk (db v') = disk (db v).
Proof.
  intros Hs Hr Hc. unfold ChangePassword in Hc. rewrite bind_gets in Hc. apply bind_inv in Hc as (u & v0 & Hv & Hc).
  assert (v0 = v) as -> by (pose proof (verify_old_state old v v) as Ho; unfold id in Hv; by rewrite Hv in Ho). clear Hv.
  rewrite bind_modify in Hc.
  set (v1 := (if bool_decide (new = []) then set_keys false None else set_keys true (Some (NewEncryptor new None))) v) in Hc.
  assert (Hk : encryptor (db v1) = key_for new) by (unfold v1, key_for; by case_bool_decide).
  assert (Hsame : saving (db v1) = saving (db v) /\ raw_tables (db v1) = raw_tables (db v) /\ saved_tree (db v1) (key_for new) rows = saved_tree (db v) (key_for new) rows /\
    authConfig v1 = authConfig v /\ ftsIndexes v1 = ftsIndexes v /\ blobs (db v1) = blobs (db v) /\ disk (db v1) = disk (db v)) by (unfold v1; by case_bool_decide).
  assert (E0 : encrypted v1 = bool_decide (is_Some (encryptor (db v1)))) by (unfold v1; by case_bool_decide).
  destruct Hsame as (E1 & E2 & E3 & E4 & E5 & E6 & E7). rewrite <- E2 in Hr. rewrite <- E1 in Hs.
  rewrite (bind_ok _ _ _ _ _ (save_run v1 rows Hs Hr E0)), Hk in Hc. cbv [in_db truncateWAL modify] in Hc. injection Hc as <-.
  exists (file_bytes v1 (saved_tree (db v1) (key_for new) rows)). rewrite E3.
  assert (Hfile : written_under (key_for new) (saved_file v (key_for new) rows) (file_bytes v1 (saved_tree (db v) (key_for new) rows))).
  { unfold file_bytes, saved_file, written_under. rewrite Hk, E4, E5. destruct (key_for new); [by eexists|done]. }
  destruct (walFile (db v1)) eqn:Ew; cbn; rewrite ?Ew; auto 8.
Qed.

(** C24: once the password of a database was changed, opening its files with
    the new password succeeds and gives the tables, sequences and identifiers
    it had, the rows as the file of the metadata keeps them, the settings of
    authentication (no settings are read back as empty ones) and the full-text
    indexes; the database is encrypted unless the new password is empty. The
    database has files and is saved, and its rows can be encoded. The
    hypothesis on JSON is that the text of this file is an object that is read
    back. *)
Theorem changed_password_opens old new v v' rows threshold order :
  saving (db v) = true -> raw_tables (db v) = Ok rows -> readable (saved_file v (key_for new) rows) ->
  ChangePassword old new v = (Ok tt, v') ->
  let r := open_database sscan_int order new (fresh v' threshold) in
  r.1 = Ok tt /\
  db r.2 = Storage.loadMetadata sscan_int (saved_tree (db v) (key_for new) rows) (set_encryptor (key_for new) (db (fresh v' threshold))) /\
  authConfig r.2 = Some (default ∅ (authConfig v)) /\ ftsIndexes r.2 = ftsIndexes v /\ encrypted r.2 = bool_decide (new <> []) /\ metaFile r.2 = metaFile v'.
Proof.
  intros Hs Hr Hf Hc. destruct (change_run old new v v' rows Hs Hr Hc) as (data & Hd & Hw & Hwal & _ & _ & _). cbv zeta.
  assert (Ho : open_database sscan_int order new (fresh v' threshold) = (Ok tt, opened (saved_file v (key_for new) rows) (key_for new) (fresh v' threshold))).
  { unfold key_for in *. case_bool_decide as Hn; [subst new; by apply (open_plain _ data)|]. by apply (open_encrypted _ data). }
  rewrite Ho. cbn [fst snd]. split; [done|]. unfold opened, load_file, saved_file, saved_tree. cbn [mf_auth mf_fts mf_meta m_encrypted].
  assert (Ha : match authConfig v ≫= non_empty with Some a => Some a | None => Some ∅ end = Some (default ∅ (authConfig v))).
  { destruct (authConfig v) as [a|]; [|done]. cbn. unfold non_empty. by case_bool_decide as E; [subst a|]. }
  rewrite <- Ha. clear Ha. destruct (authConfig v ≫= non_empty); unfold non_empty; destruct (bool_decide (ftsIndexes v = ∅)) eqn:Ef; try (apply bool_decide_eq_true in Ef; rewrite Ef).
  all: unfold key_for; destruct (decide (new = [])) as [->|Hn]; rewrite ?(bool_decide_eq_true_2 ([] = [])), ?(bool_decide_eq_false_2 (new = [])) by done; cbn.
  all: split_and!; try done; symmetry; first [by apply bool_decide_eq_true|by apply bool_decide_eq_false; auto].
Qed.

(** C40: the old password is not checked: whatever is given for it, changing
    the password of a database whose file of the metadata has at least
    fourteen bytes does the same, in its answer and in what it leaves. *)
Theorem old_password_unchecked old1 old2 new v data : metaFile v = Some data -> (14 <= length data)%nat ->
  ChangePassword old1 new v = ChangePassword old2 new v.
Proof.
  intros Hf Hl. unfold ChangePassword. rewrite !bind_gets. unfold id.
  assert (Hv : forall old, IsEncrypted data = true -> exists d, DecryptFile (NewEncryptor old None) (Some data) = Ok d).
  { intros old He. unfold DecryptFile, Decrypt, DecryptData. set (c := code_or_default _). unfold IsEncrypted in He. rewrite He. cbn [negb].
    pose proof (add_len_le c) as Ha. pose proof (enc_index_lt c) as Hi.
    rewrite (proj2 (Nat.ltb_ge _ _)) by (rewrite length_drop; unfold HeaderLen; lia).
    destruct (lookup_lt_is_Some_2 (drop HeaderLen data) (encIndex c)) as [b Hb]; [rewrite length_drop; unfold HeaderLen; lia|]. rewrite Hb. eauto. }
  assert (He : forall old v0, verify_old old v v0 = (match encryptor (db v) with Some _ => Ok tt | None => Ok tt end, v0)).
  { intros old v0. unfold verify_old. rewrite Hf. destruct (encryptor (db v)); [|done]. destruct (IsEncrypted data) eqn:E; [|done].
    by destruct (Hv old eq_refl) as [d ->]. }
  unfold mbind, SO_bind. by rewrite !He.
Qed.

(** C36: a password under which the file decrypts to no metadata opens
    nothing and changes no file: neither the metadata, nor the tables, the log
    and the blobs. *)
Theorem wrong_password_changes_nothing password e data plain threshold order files :
  metaFile files = Some data -> IsEncrypted data = true -> password <> [] ->
  DecryptFile (NewEncryptor password None) (Some data) = e ->
  (e = Ok plain /\ parse_meta (default [] plain) = None \/ exists ce, e = Err ce) ->
  let r := open_database sscan_int order password (fresh files threshold) in
  (exists why, r.1 = Err (WrongPassword why)) /\ metaFile r.2 = metaFile files /\
  disk (db r.2) = disk (db files) /\ blobs (db r.2) = blobs (db files) /\ walFile (db r.2) = Some (default [] (walFile (db files))).
Proof.
  intros Hf He Hne Hdec Hbad.
  set (v1 := set_pending true (set_keys true None (fresh files threshold))). set (v2 := set_keys true (Some (NewEncryptor password None)) v1).
  assert (Hi : initFileStorage sscan_int (fresh files threshold) = (Ok tt, v1)).
  { unfold initFileStorage. rewrite bind_gets. cbn [metaFile fresh id]. by rewrite Hf, He. }
  assert (Hl : exists why, load_metadata sscan_int v2 = (Err why, v2)).
  { unfold load_metadata. rewrite bind_gets. cbn [metaFile v2 v1 set_keys set_pending fresh id key]. rewrite Hf, He, bind_modify.
    unfold key; cbn [v2 v1 set_keys set_pending]. rewrite Hdec. destruct Hbad as [[-> Hp]|[ce ->]]; [|by eexists].
    unfold parse_file. rewrite Hp. by eexists. }
  destruct Hl as [why Hl].
  assert (Hclose : try (close_vault order) v2 = (Ok (inl tt), v2)) by done.
  assert (Hload : try (LoadAndVerifyMetadata sscan_int) v2 = (Ok (inr why), v2)).
  { unfold try, LoadAndVerifyMetadata. by rewrite (bind_err _ _ _ _ _ Hl). }
  assert (Hrun : open_database sscan_int order password (fresh files threshold) = (Err (WrongPassword why), v2)).
  { unfold open_database. rewrite (bind_ok _ _ _ _ _ Hi), bind_gets. unfold id at 1, IsDatabaseEncrypted. cbn [metaFile v1 set_pending set_keys fresh].
    rewrite Hf, He, bool_decide_eq_false_2 by done. unfold SetEncryptionWithSalt. rewrite bool_decide_eq_false_2 by done.
    change ((r ← try (LoadAndVerifyMetadata sscan_int); match r with inl _ => mret tt | inr e => close_and_fail order (WrongPassword e) end) v2 = (Err (WrongPassword why), v2)).
    rewrite (bind_ok _ _ _ _ _ Hload). unfold close_and_fail. by rewrite (bind_ok _ _ _ _ _ Hclose). }
  cbv zeta. rewrite Hrun. split_and!; [by eexists|done..].
Qed.
End Spec.

(** ** A small database *)

#[local] Existing Instance plain_runtime.
#[local] Existing Instance plain_json.
#[local] Existing Instance plain_records.
#[local] Existing Instance plain_environment.
#[local] Existing Instance no_columns.

Definition numbers : bytes := str "numbers".
Definition one_number : Storage :=
  mkStorage true {[ numbers := mkSTable (mkTable 1 numbers [NewColumnDef (str "n") TypeInt 0] 1) (str "table_1.db") ]} {[ str "numbers_n" := 4 ]} 5 ∅ ∅
    (NewPageCache DefaultPageCacheConfig) {[ numbers := [[NewIntValue 7]] ]} {[ numbers := [1] ]} (Some []) 0 None ∅ 0 false None.
Definition plain_vault : Vault := mkVault one_number false None false (Some ∅) ∅ None.
Definition number_rows : gmap bytes (list (Z * list json)) := {[ numbers := [(1, [JInt 7])] ]}.

(** The file of this database is a fixed text, which names the key. *)
Definition only_file : MetadataJSON := {|
  meta_json f := if m_encrypted (mf_meta f) then str "{secret database}" else str "{public database}";
  parse_meta t := if bytes_eqb t (str "{secret database}") then Some (saved_file plain_vault (Some (mkEncryptor (str "k"))) number_rows)
                  else if bytes_eqb t (str "{public database}") then Some (saved_file plain_vault None number_rows) else None
|}.
#[local] Existing Instance only_file.
Definition no_scan (s : bytes) : option Z := None.

Definition answer {A} (m : VM A) (v : Vault) : outcome KeyError A := (m v).1.
Definition after {A} (m : VM A) (v : Vault) : Vault := (m v).2.
Definition secret_vault : Vault := after (SetEncryption no_scan (str "k1")) plain_vault.
Definition rows_of (v : Vault) : option (list (list Value)) := rowData (db v) !! numbers.

Lemma secret_saving : saving (db secret_vault) = true.
Proof. vm_compute. reflexivity. Qed.
Lemma secret_rows : raw_tables (db secret_vault) = Ok number_rows.
Proof.
  assert (Hr : rowData (db secret_vault) = {[ numbers := [[NewIntValue 7]] ]}) by reflexivity.
  unfold raw_tables. rewrite Hr, map_fold_singleton. reflexivity.
Qed.
Lemma secret_readable : readable (saved_file secret_vault (key_for (str "k2")) number_rows).
Proof. split; [vm_compute; reflexivity|eexists; vm_compute; reflexivity]. Qed.
Lemma secret_changed : (ChangePassword (str "k1") (str "k2") secret_vault).1 = Ok tt.
Proof. vm_compute. reflexivity. Qed.

Lemma changed_password_opens_witness :
  (open_database no_scan [] (str "k2") (fresh (ChangePassword (str "k1") (str "k2") secret_vault).2 0)).1 = Ok tt /\
  encrypted (open_database no_scan [] (str "k2") (fresh (ChangePassword (str "k1") (str "k2") secret_vault).2 0)).2 = true.
Proof.
  destruct (changed_password_opens no_scan (str "k1") (str "k2") secret_vault (ChangePassword (str "k1") (str "k2") secret_vault).2 number_rows 0 []
    secret_saving secret_rows secret_readable (run_answer _ _ secret_changed)) as (Hok & _ & _ & _ & He & _).
  exact (conj Hok He).
Defined.
Example changed_password_rows :
  rows_of (after (open_database no_scan [] (str "k2")) (fresh (after (ChangePassword (str "k1") (str "k2")) secret_vault) 0)) = Some [[NewIntValue 7]].
Proof. vm_compute. reflexivity. Qed.

Lemma old_password_unchecked_witness :
  ChangePassword (str "wrong") (str "k2") secret_vault = ChangePassword (str "k1") (str "k2") secret_vault.
Proof. exact (old_password_unchecked (str "wrong") (str "k1") (str "k2") secret_vault (default [] (metaFile secret_vault)) ltac:(vm_compute; reflexivity) ltac:(vm_compute; lia)). Defined.

Lemma wrong_password_changes_nothing_witness :
  metaFile (open_database no_scan [] (str "wrong") (fresh secret_vault 0)).2 = metaFile secret_vault.
Proof.
  destruct (wrong_password_changes_nothing no_scan (str "wrong") (DecryptFile (NewEncryptor (str "wrong") None) (Some (default [] (metaFile secret_vault))))
    (default [] (metaFile secret_vault)) (match DecryptFile (NewEncryptor (str "wrong") None) (Some (default [] (metaFile secret_vault))) with Ok d => d | _ => None end)
    0 [] secret_vault ltac:(vm_compute; reflexivity) ltac:(vm_compute; reflexivity) ltac:(discriminate) ltac:(reflexivity)
    ltac:(left; split; vm_compute; reflexivity)) as (_ & Hm & _).
  exact Hm.
Defined.

(** The database is encrypted, opens with its password, and not without. *)
Example secret_opens :
  (IsDatabaseEncrypted secret_vault, answer (open_database no_scan [] (str "k1")) (fresh secret_vault 0), answer (open_database no_scan [] []) (fresh secret_vault 0)) =
  (true, Ok tt, Err DatabaseIsEncrypted).
Proof. vm_compute. reflexivity. Qed.

(** The blobs are not encrypted anew: with the new password they are read as
    something else, without an error. *)
Example blobs_keep_old_key :
  let v := after (in_db (WriteBlob (str "picture"))) secret_vault in
  let v' := after (ChangePassword (str "k1") (str "k2")) v in
  answer (in_db (ReadBlob 5)) v = Ok (str "picture") /\ is_ok (answer (in_db (ReadBlob 5)) v') = true /\
  answer (in_db (ReadBlob 5)) v' <> Ok (str "picture").
Proof. vm_compute. split_and!; [done|done|discriminate]. Qed.

(** Enabling encryption on an encrypted database that is open loads the rows a
    second time. *)
Example set_encryption_duplicates :
  rows_of (after (SetEncryption no_scan (str "k1")) secret_vault) = Some [[NewIntValue 7]; [NewIntValue 7]].
Proof. vm_compute. reflexivity. Qed.

(** With another password it fails, and keeps that password all the same: the
    next save encrypts with it. *)
Example failed_set_encryption_keeps_key :
  let v := after (SetEncryption no_scan (str "typo")) secret_vault in
  answer (SetEncryption no_scan (str "typo")) secret_vault = Err CannotParse /\
  let saved := after save_metadata v in
  answer (open_database no_scan [] (str "k1")) (fresh saved 0) = Err (WrongPassword CannotParse) /\
  answer (open_database no_scan [] (str "typo")) (fresh saved 0) = Ok tt.
Proof. vm_compute. auto. Qed.

(** Disabling encryption leaves the file as it is. *)
Example disabled_still_encrypted :
  let v := after (SetEncryption no_scan []) secret_vault in
  IsEncrypted_ v = false /\ IsDatabaseEncrypted v = true.
Proof. vm_compute. auto. Qed.

(** Full-text indexes are kept in the file. *)
Example fts_metadata :
  answer (CreateFTSIndex numbers (str "n") (str "i")) plain_vault = Err FTSNotText /\
  answer (CreateFTSIndex (str "x") (str "n") (str "i")) plain_vault = Err FTSNoTable /\
  answer (DropFTSIndex numbers (str "n")) plain_vault = Err FTSNoIndex.
Proof. vm_compute. auto. Qed.
