(* ===== verification/Regex.v ===== *)
(** * Regular expressions (package regexp)

    The expressions that the repository uses, as values, and a matcher that
    finds what the library finds: the leftmost match and, of those, the one
    that trying alternatives in order finds first. Text is taken byte by byte,
    which gives the same for these expressions: their classes are of ASCII
    characters or exclude such. Under (?i) only the letters of ASCII have two
    cases. *)

From S2P Require Import Prelude GoLib Url.
Local Open Scope Z_scope.

Inductive re :=
  | Byte_ (p : byte -> bool)
  | Empty
  | Then (a b : re)
  | Or (a b : re)
  | Star (a : re)                (* greedy *)
  | LazyStar (a : re)
  | Group (n : nat) (a : re)
  | Border.                      (* \b *)

Definition captures := list (nat * bytes).
Definition is_word (b : byte) : bool := is_letter b || is_digit b || is_char 95 b.
Definition is_blank (b : byte) : bool := byte_in " " b || (in_range 9 13 (byte.unsigned b) && negb (is_char 11 b)).   (* \s *)

(** Match at the text [s] after the byte [prev], and go on with [k]. *)
Fixpoint run {A} (r : re) (prev : option byte) (s : bytes) (caps : captures) (k : option byte -> bytes -> captures -> option A) : option A :=
  match r with
  | Byte_ p => match s with b :: t => if p b then k (Some b) t caps else None | [] => None end
  | Empty => k prev s caps
  | Then a b => run a prev s caps (fun p s c => run b p s c k)
  | Or a b => match run a prev s caps k with Some x => Some x | None => run b prev s caps k end
  | Star a =>
    (fix loop (n : nat) prev s caps :=
       match n with
       | O => k prev s caps
       | S n => match run a prev s caps (fun p s' c => if (length s' <? length s)%nat then loop n p s' c else None) with
                | Some x => Some x
                | None => k prev s caps
                end
       end) (length s) prev s caps
  | LazyStar a =>
    (fix loop (n : nat) prev s caps :=
       match n with
       | O => k prev s caps
       | S n => match k prev s caps with
                | Some x => Some x
                | None => run a prev s caps (fun p s' c => if (length s' <? length s)%nat then loop n p s' c else None)
                end
       end) (length s) prev s caps
  | Group n a => run a prev s caps (fun p s' c => k p s' ((n, take (length s - length s') s) :: c))
  | Border => let here := match s with b :: _ => is_word b | [] => false end in
              let before := match prev with Some b => is_word b | None => false end in
              if Bool.eqb here before then None else k prev s caps
  end.

(** A match here: what is left, and the groups. *)
Definition match_here (r : re) (prev : option byte) (s : bytes) : option (bytes * captures) := run r prev s [] (fun _ rest c => Some (rest, c)).
(** The leftmost match: what is before it, itself, what is after it, and the groups. *)
Fixpoint find (r : re) (prev : option byte) (before s : bytes) : option (bytes * bytes * bytes * captures) :=
  match match_here r prev s with
  | Some (rest, c) => Some (rev before, take (length s - length rest) s, rest, c)
  | None => match s with [] => None | b :: t => find r (Some b) (b :: before) t end
  end.
Definition group (n : nat) (c : captures) : bytes := default [] (snd <$> List.find (fun x => Nat.eqb x.1 n) c).

Definition MatchString (r : re) (s : bytes) : bool := match find r None [] s with Some _ => true | None => false end.
Definition FindStringSubmatch (r : re) (s : bytes) : option captures := (fun x => x.2) <$> find r None [] s.

(** The matches one after the other, none of them empty. *)
Fixpoint find_all (fuel : nat) (r : re) (prev : option byte) (s : bytes) : list (bytes * captures) :=
  match fuel with
  | O => []
  | S n => match find r prev [] s with
           | Some (_, m, rest, c) => (m, c) :: find_all n r (last m) rest
           | None => []
           end
  end.
Definition FindAllStringSubmatch (r : re) (s : bytes) : list (bytes * captures) := find_all (length s) r None s.
Fixpoint replace_matches (fuel : nat) (r : re) (new : bytes) (prev : option byte) (s : bytes) : bytes :=
  match fuel with
  | O => s
  | S n => match find r prev [] s with
           | Some (before, m, rest, _) => before ++ new ++ replace_matches n r new (last m) rest
           | None => s
           end
  end.
Definition ReplaceAllString (r : re) (s new : bytes) : bytes := replace_matches (S (length s)) r new None s.

(** ** Writing expressions *)

Definition same_case (a b : byte) : bool := byte.unsigned (lower_byte a) =? byte.unsigned (lower_byte b).
(** Literal text, in any case of its letters, or as it is. *)
Definition text_i (s : string) : re := foldr (fun b r => Then (Byte_ (same_case b)) r) Empty (str s).
Definition text (s : string) : re := foldr (fun b r => Then (Byte_ (fun c => byte.unsigned c =? byte.unsigned b)) r) Empty (str s).
Definition plus (a : re) : re := Then a (Star a).
Definition opt (a : re) : re := Or a Empty.
Definition word : re := plus (Byte_ is_word).           (* \w+ *)
Definition digits : re := plus (Byte_ is_digit).        (* \d+ *)
Definition none_of (s : string) : re := Byte_ (fun b => negb (byte_in s b)).
Definition seq (l : list re) : re := foldr Then Empty l.
Definition any_of (l : list re) : re := match l with [] => Empty | a :: l => fold_left Or l a end.

Example replaced_words : ReplaceAllString (seq [text_i "ENGINE="; word]) (str "x engine=InnoDB, Engine=MyISAM;") [] = str "x , ;".
Proof. vm_compute. reflexivity. Qed.
Example groups_found : (fun c => (group 1 c, group 2 c)) <$> FindStringSubmatch (seq [text "("; Group 1 word; text ","; Group 2 digits; text ")"]) (str "f(a,12) (b,3)") = Some (str "a", str "12").
Proof. vm_compute. reflexivity. Qed.
Example lazy_border : MatchString (seq [Border; text_i "a"; Border; LazyStar (none_of ",)"); Border; text_i "unique"; Border]) (str "(ab int, a int unique)") = true.
Proof. vm_compute. reflexivity. Qed.
