(* ===== verification/ConsoleSpec.v ===== *)
(** * What the console does with statements and tables

    Statements that are joined are taken apart again; printed tables are
    aligned; nobody is asked for a password; what dumps and copies of tables
    lose. *)

From S2P Require Import Prelude GoLib Types RowCodec Page PageCache TableFile Crypto Json Wal Storage Functions Script Auth Lexer Ast Parser ParserDml Eval Select Dml Engine EngineExamples Url Dsn Driver DsnSpec Converter Import Regex Console.
Local Open Scope Z_scope.

(** ** Statements *)

(** The quote that is open after a text; none at a semicolon outside of
    quotes. Every quote opens or closes: a doubled one closes and opens. *)
Fixpoint scan (open : option byte) (s : bytes) : option (option byte) :=
  match s with
  | [] => Some open
  | c :: t =>
    match open with
    | Some q => scan (if byte.unsigned c =? byte.unsigned q then None else open) t
    | None => if is_quote c then scan (Some c) t else if is_char 59 c then None else scan None t
    end
  end.
(** Text whose quotes are closed, without a semicolon outside of them. *)
Definition is_statement (s : bytes) : Prop := scan None s = Some None.
#[export] Instance is_statement_dec s : Decision (is_statement s) := decide (scan None s = Some None).
Definition texts (l : list bytes) : list bytes := filter (fun s => s <> []) (map trim_space l).
Definition no_quote_first (s : bytes) : Prop := match s with c :: _ => is_quote c = false | [] => True end.

Lemma same_byte a b : (byte.unsigned a =? byte.unsigned b) = true -> a = b.
Proof. intros E%Z.eqb_eq. by apply byte.unsigned_inj. Qed.

Lemma split_statement n : forall s open current l rest, (length s <= n)%nat ->
  match open with Some q => is_quote q = true | None => True end -> scan open s = Some None -> no_quote_first rest ->
  split_loop open current l (s ++ rest) = split_loop None (current ++ s) l rest.
Proof.
  induction n as [|n IH]; intros [|c t] open current l rest Hn Hq Hs Hr; cbn in Hn; try lia.
  1,2: cbn in Hs; injection Hs as ->; by rewrite app_nil_r.
  destruct open as [q|]; cbn in Hs |- *.
  - destruct (byte.unsigned c =? byte.unsigned q) eqn:E.
    + apply same_byte in E as ->. rewrite Hq. destruct t as [|c' t'].
      * cbn. destruct rest as [|r rest]; [done|]. cbn in Hr. destruct (byte.unsigned r =? byte.unsigned q) eqn:E; [|done].
        apply same_byte in E as ->. congruence.
      * cbn [app]. destruct (byte.unsigned c' =? byte.unsigned q) eqn:E.
        -- apply same_byte in E as ->. cbn in Hs. rewrite Hq in Hs. cbn in Hn. rewrite (IH t' (Some q)) by (done || lia). by rewrite <- app_assoc.
        -- change (c' :: t' ++ rest) with ((c' :: t') ++ rest). rewrite (IH (c' :: t') None) by (done || cbn in *; lia). by rewrite <- app_assoc.
    + rewrite (IH t (Some q)) by (done || lia). rewrite <- app_assoc. by destruct (is_quote c).
  - destruct (is_quote c) eqn:E.
    + rewrite (IH t (Some c)) by (done || lia). by rewrite <- app_assoc.
    + destruct (is_char 59 c); [done|]. rewrite (IH t None) by (done || lia). by rewrite <- app_assoc.
Qed.

Lemma add_statement_texts current l : add_statement current l = l ++ texts [current].
Proof. unfold add_statement, texts. cbn. destruct (trim_space current) eqn:E; cbn; [by rewrite app_nil_r|done]. Qed.

Lemma split_joined l : forall done, Forall is_statement l -> split_loop None [] done (join (str ";") l) = done ++ texts l.
Proof.
  induction l as [|s l IH]; intros acc Hl; [by rewrite app_nil_r|]. apply Forall_cons in Hl as [Hs Hl].
  destruct l as [|s' l].
  - cbn [join]. rewrite <- (app_nil_r s) at 1. rewrite (split_statement (length s)) by done. apply add_statement_texts.
  - change (join (str ";") (s :: s' :: l)) with (s ++ byte.of_Z 59 :: join (str ";") (s' :: l)).
    rewrite (split_statement (length s)) by done. cbn [split_loop app]. change (is_quote (byte.of_Z 59)) with false. change (is_char 59 (byte.of_Z 59)) with true.
    cbn iota. rewrite IH by done. rewrite add_statement_texts, <- app_assoc. f_equal. unfold texts. cbn. by destruct (decide _).
Qed.

(** C30: statements that are joined with semicolons are taken apart into the
    same statements, trimmed, the empty ones left out: a semicolon in quotes
    ends none, and a doubled quote does not end its text. The statements are
    texts whose quotes are closed as the console counts them, without a
    semicolon outside of them ([is_statement]): not those with a single quote
    in a comment, or with a quote after a backslash. *)
Theorem statements_split_back (l : list bytes) : Forall is_statement l -> splitStatements (join (str ";") l) = texts l.
Proof. apply (split_joined l []). Qed.

Lemma statements_split_back_witness :
  splitStatements (join (str ";") [str "INSERT INTO t VALUES ('a;''b', "; str " SELECT 1 "; str "  "]) = [str "INSERT INTO t VALUES ('a;''b',"; str "SELECT 1"].
Proof. rewrite statements_split_back; [vm_compute; reflexivity|repeat constructor]. Defined.

(** ** Printed tables *)

Section Printing.
Context `{GoRuntime}.

(** What a line with cells of these widths is long. *)
Definition line_width (widths : list Z) : Z := 1 + foldr (fun w n => w + 3 + n) 0 widths.
Definition fits (w : Z) (s : bytes) : Prop := zlen s <= w.

Lemma widen_length row ws : length (widen ws row) = length ws.
Proof. apply length_imap. Qed.
Lemma widen_grows row ws : Forall2 Z.le ws (widen ws row).
Proof.
  apply Forall2_lookup. intros i. unfold widen. rewrite list_lookup_imap. destruct (ws !! i); cbn; constructor. destruct (row !! i); lia.
Qed.
Lemma widen_fits row ws : length row = length ws -> Forall2 fits (widen ws row) (map cell_text row).
Proof.
  intros Hl. apply Forall2_same_length_lookup. split; [by rewrite widen_length, length_map|]. unfold widen. intros i w s Hw Hs.
  rewrite list_lookup_imap in Hw. apply list_lookup_fmap_Some in Hs as (d & -> & Hd). rewrite Hd in Hw. destruct (ws !! i); [|done].
  injection Hw as <-. unfold fits. lia.
Qed.
Lemma fits_grow ws ws' cells : Forall2 Z.le ws ws' -> Forall2 fits ws cells -> Forall2 fits ws' cells.
Proof. intros Hw Hf. revert cells Hf. induction Hw; intros; inversion Hf; subst; constructor; [unfold fits in *; lia|auto]. Qed.
Lemma widths_grow rows : forall ws, Forall2 Z.le ws (fold_left widen rows ws).
Proof.
  induction rows as [|row rows IH]; intros ws; cbn; [by apply Forall2_same_length_lookup; split; [|intros; simplify_eq; lia]|].
  etrans; [apply (widen_grows row)|apply IH].
Qed.
Lemma widths_fit rows : forall ws, Forall (fun row => length row = length ws) rows ->
  Forall (fun row => Forall2 fits (fold_left widen rows ws) (map cell_text row)) rows.
Proof.
  induction rows as [|row rows IH]; intros ws Hr; [constructor|]. apply Forall_cons in Hr as [Hl Hr]. cbn. constructor.
  - eapply fits_grow; [apply widths_grow|by apply widen_fits].
  - apply IH. by rewrite widen_length.
Qed.

Lemma rule_width ws : Forall (fun w => 0 <= w) ws -> exists l, rule ws = Ok l /\ zlen l = line_width ws.
Proof.
  intros Hw. unfold rule, line_width. assert (exists l, rule_cells ws = Ok l /\ zlen l = foldr (fun w n => w + 3 + n) 0 ws) as (l & -> & Hl).
  { induction Hw as [|w ws Hp _ (l & E & Hl)]; [by eexists|]. cbn [rule_cells foldr]. unfold repeated. rewrite (proj2 (Z.ltb_ge _ _)) by lia.
    rewrite E. eexists. split; [reflexivity|]. unfold zlen in *. rewrite !length_app, length_replicate. cbn [length]. change (length (str "+")) with 1%nat. lia. }
  eexists. split; [reflexivity|]. unfold zlen in *. rewrite length_app. change (length (str "+")) with 1%nat. lia.
Qed.
Lemma table_line_width ws cells : Forall2 fits ws cells -> exists l, table_line ws cells = Ok l /\ zlen l = line_width ws.
Proof.
  intros Hf. unfold table_line, line_width. assert (exists l, line_cells ws cells = Ok l /\ zlen l = foldr (fun w n => w + 3 + n) 0 ws) as (l & -> & Hl).
  { induction Hf as [|w c ws cells Hp _ (l & E & Hl)]; [by eexists|]. cbn [line_cells foldr]. unfold repeated, fits in *. rewrite (proj2 (Z.ltb_ge _ _)) by lia.
    rewrite E. eexists. split; [reflexivity|]. unfold zlen in *. rewrite !length_app, length_replicate.
    change (length (str " ")) with 1%nat. change (length (str " |")) with 2%nat. lia. }
  eexists. split; [reflexivity|]. unfold zlen in *. rewrite length_app. change (length (str "|")) with 1%nat. lia.
Qed.
Lemma body_widths ws rows : Forall (fun row => Forall2 fits ws (map cell_text row)) rows ->
  exists l, mapM (fun row => table_line ws (map cell_text row)) rows = Ok l /\ length l = length rows /\ Forall (fun s => zlen s = line_width ws) l.
Proof.
  induction 1 as [|row rows Hf _ (l & E & Hn & Hl)]; [by eexists|]. destruct (table_line_width _ _ Hf) as (s & Es & Hs).
  cbn [mapM]. rewrite Es. cbn. rewrite E. eexists. split; [reflexivity|]. cbn. split; [lia|by constructor].
Qed.

(** C37: a table whose rows have as many cells as it has columns is
    printed, whatever its texts: three rules, the names, a line for each row
    and the count, and all lines but the count are of one width. *)
Theorem printed_aligned (columns : list bytes) (rows : list (list GoData)) :
  Forall (fun row => length row = length columns) rows ->
  exists lines, printRows columns rows = Ok (lines ++ [itoa (zlen rows) ++ str " rows"]) /\ length lines = (4 + length rows)%nat /\
    Forall (fun l => zlen l = line_width (column_widths columns rows)) lines.
Proof.
  intros Hr. unfold printRows, column_widths. set (ws := fold_left widen rows (map zlen columns)).
  assert (Hc : Forall2 fits ws columns).
  { eapply fits_grow; [apply widths_grow|]. apply Forall2_fmap_l, Forall2_same_length_lookup. split; [done|]. intros; simplify_eq. unfold compose, fits. cbn. lia. }
  assert (Hw : Forall (fun w => 0 <= w) ws) by (clear -Hc; induction Hc; constructor; [unfold fits, zlen in *; lia|done]).
  destruct (rule_width ws Hw) as (r & -> & Hl), (table_line_width ws columns Hc) as (h & Eh & Hh).
  destruct (body_widths ws rows) as (b & Eb & Hn & Hb); [apply widths_fit; eapply Forall_impl; [exact Hr|]; cbn; intros; by rewrite length_map|].
  cbn. rewrite Eh. cbn. rewrite Eb. cbn. exists ([r; h; r] ++ b ++ [r]). split; [|split].
  - cbn. by rewrite <- app_assoc.
  - rewrite !length_app. cbn. lia.
  - apply Forall_app. split; [repeat constructor; done|]. apply Forall_app. split; [done|by repeat constructor].
Qed.
End Printing.

Lemma printed_aligned_witness : exists lines,
  printRows [str "id"; str "name"] [[GInt KInt64 1; GString (str "ann")]; [GInt KInt64 22; GNil]] = Ok (lines ++ [str "2 rows"]) /\
  length lines = 6%nat /\ Forall (fun l => zlen l = 13) lines.
Proof.
  destruct (printed_aligned [str "id"; str "name"] [[GInt KInt64 1; GString (str "ann")]; [GInt KInt64 22; GNil]]) as (l & Hp & Hn & Hl); [by repeat constructor|].
  exists l. split; [exact Hp|split; [exact Hn|]]. eapply Forall_impl; [exact Hl|]. intros s Hs. rewrite Hs. vm_compute. reflexivity.
Defined.

(** ** Logging in *)

Section Login.
Context `{GoRuntime} `{FunctionRuntime} `{FullText} `{MapOrder} `{JSONRuntime} `{RecordJSON} `{Environment} `{ColumnJSON}
  `{Digests} `{!HostFiles} `{HomeDirectory} `{!Openers} (fuel : nat).
Context (error_text : DriverError -> bytes) (engine_error_text : EngineError -> bytes) (import_error_text : ImportError -> bytes).
Context (files : bytes -> option (list bytes * option bytes)) (importers : bytes -> option Importer) (help : list bytes) (version buildDate : bytes).

Lemma print_then {A} l (m : SO Term DriverError A) t : (print l;; m) t = m (mkTerm _ (term_conn t) (screen t ++ l)).
Proof. done. Qed.
(** SHOW AUTH is no statement. *)
Lemma show_auth_unknown t : on_conn (Query fuel (mkStmt (str "SHOW AUTH")) []) t = (Err (InStatement (Eval.ParseFailed (str "SHOW AUTH"))), t).
Proof. by destruct t as [[e c] s]. Qed.

(** the console asks nobody for a name and a password, not even when
    the database has credentials: it asks when SHOW AUTH can be executed, and
    that is no statement. What is typed is executed at once. *)
Theorem console_asks_no_login (inMemory : bool) (dbPath : bytes) (login : option bytes * option bytes) (inputs : list bytes) (t : Term) :
  startREPL fuel error_text engine_error_text import_error_text files importers help version buildDate inMemory dbPath login inputs t =
  read_inputs fuel error_text engine_error_text import_error_text files importers help version buildDate inputs
    (mkTerm _ (term_conn t) (screen t ++ [str "xxldb - A lightweight SQL database"; str "Type .help for help, .quit to exit"; []])).
Proof.
  unfold startREPL. set (auth := if _ : bool then _ else _).
  assert (Ha : auth t = (Ok false, t)).
  { assert (Hq : try (on_conn (Query fuel (mkStmt (str "SHOW AUTH")) [])) t = (Ok (inr (InStatement (Eval.ParseFailed (str "SHOW AUTH")))), t)).
    { unfold try. by rewrite show_auth_unknown. }
    unfold auth. destruct (negb inMemory && negb (bytes_eqb dbPath [])); [|done]. by erewrite (bind_ok _ _ _ _ _ Hq). }
  erewrite (bind_ok _ _ _ _ _ Ha). rewrite !print_then. cbn [term_conn screen]. by rewrite <- app_assoc.
Qed.
End Login.

(** ** The console on an engine in memory *)

Section ConsoleExamples.
#[local] Existing Instance no_home.
#[local] Existing Instance no_columns.

Definition no_servers : Openers := @Build_Openers no_full_text (fun _ _ => Err BadConn) (fun _ _ => Err BadConn) (fun _ _ => Err BadConn) (fun _ _ => Err BadConn).
#[local] Existing Instance no_servers.
Definition memory_term : Term := mkTerm _ (mkConn _ memory_engine false) [].
Definition failed_text (e : DriverError) : bytes := str "failed".
Definition lines_of (l : list string) : list bytes := map str l.
(** What statements print. *)
Definition printed (sql : string) (t : Term) : list bytes := screen (executeStatement 10 failed_text (str sql) (mkTerm _ (term_conn t) [])).2.

Definition mysql_dump : list bytes := lines_of
  ["-- MySQL dump"; "DROP TABLE IF EXISTS `u`;"; "CREATE TABLE `u` ("; "  `id` int(11) unsigned NOT NULL AUTO_INCREMENT,";
   "  `name` varchar(20) COLLATE utf8_bin DEFAULT NULL,"; "  PRIMARY KEY (`id`),"; "  KEY `by_name` (`name`)";
   ") ENGINE=InnoDB AUTO_INCREMENT=3 DEFAULT CHARSET=utf8;"; "INSERT INTO `u` VALUES (1,'ann'),(2,'bo\'b');"]%string.
(** A dump of MySQL makes the table and its rows. *)
Example dump_imported :
  let t := (handleImportSQL 10 failed_text (str "u.sql") mysql_dump None memory_term).2 in
  screen t = lines_of ["Importing SQL file: u.sql"; "Created table: u"; ""; "Import complete!"; "  Tables created: 1"; "  Rows inserted: 2"; "  Lines processed: 9"]%string /\
  printed "SELECT * FROM u" t = lines_of ["+----+------+"; "| id | name |"; "+----+------+"; "| 1  | ann  |"; "| 2  | bo'b |"; "+----+------+"; "2 rows"]%string.
Proof. vm_compute. split; reflexivity. Qed.

(** A backslash before an n is read as the end of a line, and a double quote
    inside of a text becomes two. *)
Example backslash_n_lost : convertInsertStatement (str "('C:\\new')") = str "('C:" ++ [byte.of_Z 10] ++ str "ew')".
Proof. vm_compute. reflexivity. Qed.
Example double_quote_doubled : convertInsertStatement (str "('a\" ++ [quote2] ++ str "')") = str "('a" ++ [quote2; quote2] ++ str "')".
Proof. vm_compute. reflexivity. Qed.

(** A quote in a comment hides the semicolons after it. *)
Example quote_in_comment : splitStatements (str "SELECT 1 -- it's one" ++ [byte.of_Z 10] ++ str "; SELECT 2") = [str "SELECT 1 -- it's one" ++ [byte.of_Z 10] ++ str "; SELECT 2"].
Proof. vm_compute. reflexivity. Qed.

Definition source_engine : Engine := fold_left (fun e s => (Engine.Execute 10 (str s) e).2)
  ["CREATE TABLE p (id INT AUTO_INCREMENT, name VARCHAR(3), age INT DEFAULT 7)"; "INSERT INTO p (name, age) VALUES ('a''n', 30), ('bob', 31)"]%string memory_engine.
Definition copied : Term := target (syncData 10 failed_text (fun _ => []) (mkCopying source_engine memory_term)).2.
(** The rows are copied, the lengths, the defaults and AUTO_INCREMENT are not:
    the same row is another one in the copy. *)
Example copy_loses_defaults :
  printed "SELECT * FROM p" copied =
    lines_of ["+----+------+-----+"; "| id | name | age |"; "+----+------+-----+"; "| 1  | a'n  | 30  |"; "| 2  | bob  | 31  |"; "+----+------+-----+"; "2 rows"]%string /\
  printed "INSERT INTO p (name) VALUES ('cyd'); SELECT * FROM p WHERE name = 'cyd'" copied =
    lines_of ["Rows affected: 1"; "+------+------+------+"; "| id   | name | age  |"; "+------+------+------+"; "| NULL | cyd  | NULL |"; "+------+------+------+"; "1 rows"]%string /\
  printed "INSERT INTO p (name) VALUES ('cyd'); SELECT * FROM p WHERE name = 'cyd'" (mkTerm _ (mkConn _ source_engine false) []) =
    lines_of ["Rows affected: 1"; "Last insert ID: 3"; "+----+------+-----+"; "| id | name | age |"; "+----+------+-----+"; "| 3  | cyd  | 7   |"; "+----+------+-----+"; "1 rows"]%string.
Proof. vm_compute. split; [reflexivity|split; reflexivity]. Qed.

(** A password of the flags is put into the name as it is. *)
Example slash_in_password : ParseDSN (buildSSHDSN (str "host") 22 (str "ann") (str "p/w") [] (str "db")) = Err (InvalidDSN (str "SSH") (InvalidPort (str ":p"))).
Proof. vm_compute. reflexivity. Qed.
Example percent_in_password :
  (d ← ParseDSN (buildSSHDSN (str "host") 22 (str "ann") (str "p%20w") [] (str "db")); Ok (ssh_password <$> SSH d)) = Ok (Some (str "p w")).
Proof. vm_compute. reflexivity. Qed.
End ConsoleExamples.
