(* ===== verification/Queries.v ===== *)
(** * The queries of the importers (import/mysql.go, postgres.go, sqlite.go, oracle.go, mssql.go)

    The texts that the importers send to the catalogues of other databases,
    as they are in the source. *)

From S2P Require Import Prelude.

Definition mysql_list : bytes := str "SELECT TABLE_NAME FROM INFORMATION_SCHEMA.TABLES WHERE TABLE_TYPE = 'BASE TABLE'".
Definition mysql_columns : bytes := str "
		SELECT
			COLUMN_NAME,
			COLUMN_TYPE,
			IS_NULLABLE,
			COLUMN_KEY,
			COLUMN_DEFAULT,
			EXTRA
		FROM INFORMATION_SCHEMA.COLUMNS
		WHERE TABLE_NAME = ?".
Definition mysql_primary : bytes := str "
		SELECT COLUMN_NAME, CONSTRAINT_NAME
		FROM INFORMATION_SCHEMA.KEY_COLUMN_USAGE
		WHERE TABLE_NAME = ? AND CONSTRAINT_NAME = 'PRIMARY'".
Definition mysql_foreign : bytes := str "
		SELECT
			KCU.CONSTRAINT_NAME,
			KCU.COLUMN_NAME,
			KCU.REFERENCED_TABLE_NAME,
			KCU.REFERENCED_COLUMN_NAME,
			RC.DELETE_RULE,
			RC.UPDATE_RULE
		FROM INFORMATION_SCHEMA.KEY_COLUMN_USAGE KCU
		JOIN INFORMATION_SCHEMA.REFERENTIAL_CONSTRAINTS RC
			ON KCU.CONSTRAINT_NAME = RC.CONSTRAINT_NAME
			AND KCU.TABLE_SCHEMA = RC.CONSTRAINT_SCHEMA
		WHERE KCU.TABLE_NAME = ? AND KCU.REFERENCED_TABLE_NAME IS NOT NULL".
Definition mysql_unique : bytes := str "
		SELECT
			TC.CONSTRAINT_NAME,
			KCU.COLUMN_NAME
		FROM INFORMATION_SCHEMA.TABLE_CONSTRAINTS TC
		JOIN INFORMATION_SCHEMA.KEY_COLUMN_USAGE KCU
			ON TC.CONSTRAINT_NAME = KCU.CONSTRAINT_NAME
			AND TC.TABLE_SCHEMA = KCU.TABLE_SCHEMA
		WHERE TC.TABLE_NAME = ?
			AND TC.CONSTRAINT_TYPE = 'UNIQUE'".
Definition mysql_checks : bytes := str "
		SELECT CONSTRAINT_NAME, CHECK_CLAUSE
		FROM INFORMATION_SCHEMA.CHECK_CONSTRAINTS
		WHERE TABLE_NAME = ?".
Definition mysql_indexes : bytes := str "
		SELECT
			INDEX_NAME,
			COLUMN_NAME,
			NON_UNIQUE
		FROM INFORMATION_SCHEMA.STATISTICS
		WHERE TABLE_NAME = ? AND INDEX_NAME != 'PRIMARY'".
Definition postgres_list : bytes := str "
		SELECT table_name
		FROM information_schema.tables
		WHERE table_schema = 'public'
		AND table_type = 'BASE TABLE'".
Definition postgres_columns : bytes := str "
		SELECT
			column_name,
			data_type,
			CAST(character_maximum_length AS TEXT),
			is_nullable,
			column_default,
			udt_name
		FROM information_schema.columns c
		WHERE table_name = $1
		AND table_schema = 'public'
		ORDER BY ordinal_position".
Definition postgres_primary : bytes := str "
		SELECT kcu.column_name, tc.constraint_name
		FROM information_schema.table_constraints tc
		JOIN information_schema.key_column_usage kcu
			ON tc.constraint_name = kcu.constraint_name
		WHERE tc.table_name = $1
		AND tc.constraint_type = 'PRIMARY KEY'
		AND tc.table_schema = 'public'
		ORDER BY kcu.ordinal_position".
Definition postgres_foreign : bytes := str "
		SELECT
			tc.constraint_name,
			kcu.column_name,
			ccu.table_name AS foreign_table_name,
			ccu.column_name AS foreign_column_name,
			rc.delete_rule,
			rc.update_rule
		FROM information_schema.table_constraints tc
		JOIN information_schema.key_column_usage kcu
			ON tc.constraint_name = kcu.constraint_name
		JOIN information_schema.constraint_column_usage ccu
			ON ccu.constraint_name = tc.constraint_name
		JOIN information_schema.referential_constraints rc
			ON tc.constraint_name = rc.constraint_name
		WHERE tc.table_name = $1
		AND tc.constraint_type = 'FOREIGN KEY'
		AND tc.table_schema = 'public'
		ORDER BY tc.constraint_name, kcu.ordinal_position".
Definition postgres_unique : bytes := str "
		SELECT tc.constraint_name, kcu.column_name
		FROM information_schema.table_constraints tc
		JOIN information_schema.key_column_usage kcu
			ON tc.constraint_name = kcu.constraint_name
		WHERE tc.table_name = $1
		AND tc.constraint_type = 'UNIQUE'
		AND tc.table_schema = 'public'
		ORDER BY tc.constraint_name, kcu.ordinal_position".
Definition postgres_checks : bytes := str "
		SELECT pgc.conname AS constraint_name,
			   pg_get_constraintdef(pgc.oid) AS definition
		FROM pg_constraint pgc
		JOIN pg_class cls ON pgc.conrelid = cls.oid
		JOIN pg_namespace nsp ON cls.relnamespace = nsp.oid
		WHERE cls.relname = $1
		AND pgc.contype = 'c'
		AND nsp.nspname = 'public'".
Definition postgres_indexes : bytes := str "
		SELECT
			i.relname AS index_name,
			a.attname AS column_name,
			ix.indisunique AS is_unique,
			ix.indisprimary AS is_primary
		FROM pg_class t
		JOIN pg_index ix ON t.oid = ix.indrelid
		JOIN pg_class i ON i.oid = ix.indexrelid
		JOIN pg_attribute a ON a.attrelid = t.oid AND a.attnum = ANY(ix.indkey)
		WHERE t.relname = $1
		AND t.relnamespace = (SELECT oid FROM pg_namespace WHERE nspname = 'public')
		ORDER BY i.relname, a.attnum".
Definition sqlite_list : bytes := str "SELECT name FROM sqlite_master WHERE type='table' AND name NOT LIKE 'sqlite_%' AND name NOT LIKE '\_%' ESCAPE '\'".
Definition sqlite_sql : bytes := str "SELECT sql FROM sqlite_master WHERE type='table' AND name=?".
Definition sqlite_indexes : bytes := str "SELECT name, sql FROM sqlite_master WHERE type='index' AND tbl_name=? AND sql IS NOT NULL".
Definition oracle_list : bytes := str "
		SELECT TABLE_NAME
		FROM USER_TABLES
		ORDER BY TABLE_NAME".
Definition oracle_columns : bytes := str "
		SELECT
			COLUMN_NAME,
			DATA_TYPE,
			DATA_LENGTH,
			NULLABLE,
			DATA_DEFAULT
		FROM USER_TAB_COLUMNS
		WHERE TABLE_NAME = UPPER(:1)
		ORDER BY COLUMN_ID".
Definition oracle_primary : bytes := str "
		SELECT UCC.COLUMN_NAME, UC.CONSTRAINT_NAME
		FROM USER_CONSTRAINTS UC
		JOIN USER_CONS_COLUMNS UCC ON UC.CONSTRAINT_NAME = UCC.CONSTRAINT_NAME
		WHERE UC.CONSTRAINT_TYPE = 'P'
		AND UC.TABLE_NAME = UPPER(:1)
		ORDER BY UCC.POSITION".
Definition oracle_foreign : bytes := str "
		SELECT
			UC.CONSTRAINT_NAME,
			UCC.COLUMN_NAME,
			UC.R_CONSTRAINT_NAME,
			AC.TABLE_NAME AS REF_TABLE,
			ACC.COLUMN_NAME AS REF_COLUMN,
			RC.DELETE_RULE,
			RC.UPDATE_RULE
		FROM USER_CONSTRAINTS UC
		JOIN USER_CONS_COLUMNS UCC ON UC.CONSTRAINT_NAME = UCC.CONSTRAINT_NAME
		JOIN USER_CONSTRAINTS RC ON UC.R_CONSTRAINT_NAME = RC.CONSTRAINT_NAME
		JOIN USER_CONS_COLUMNS ACC ON RC.CONSTRAINT_NAME = ACC.CONSTRAINT_NAME
		JOIN USER_TABLES AC ON RC.TABLE_NAME = AC.TABLE_NAME
		WHERE UC.CONSTRAINT_TYPE = 'R'
		AND UC.TABLE_NAME = UPPER(:1)
		ORDER BY UC.CONSTRAINT_NAME, UCC.POSITION".
Definition oracle_unique : bytes := str "
		SELECT UC.CONSTRAINT_NAME, UCC.COLUMN_NAME
		FROM USER_CONSTRAINTS UC
		JOIN USER_CONS_COLUMNS UCC ON UC.CONSTRAINT_NAME = UCC.CONSTRAINT_NAME
		WHERE UC.CONSTRAINT_TYPE = 'U'
		AND UC.TABLE_NAME = UPPER(:1)
		ORDER BY UC.CONSTRAINT_NAME, UCC.POSITION".
Definition oracle_checks : bytes := str "
		SELECT CONSTRAINT_NAME, SEARCH_CONDITION
		FROM USER_CONSTRAINTS
		WHERE CONSTRAINT_TYPE = 'C'
		AND TABLE_NAME = UPPER(:1)
		AND GENERATED = 'USER NAME'".
Definition oracle_indexes : bytes := str "
		SELECT I.INDEX_NAME, IC.COLUMN_NAME, I.UNIQUENESS
		FROM USER_INDEXES I
		JOIN USER_IND_COLUMNS IC ON I.INDEX_NAME = IC.INDEX_NAME
		WHERE I.TABLE_NAME = UPPER(:1)
		AND I.INDEX_NAME NOT IN (
			SELECT CONSTRAINT_NAME FROM USER_CONSTRAINTS
			WHERE CONSTRAINT_TYPE IN ('P', 'U')
		)
		ORDER BY I.INDEX_NAME, IC.COLUMN_POSITION".
Definition mssql_list : bytes := str "
		SELECT TABLE_NAME
		FROM INFORMATION_SCHEMA.TABLES
		WHERE TABLE_TYPE = 'BASE TABLE'".
Definition mssql_columns : bytes := str "
		SELECT
			COLUMN_NAME,
			DATA_TYPE,
			CHARACTER_MAXIMUM_LENGTH,
			IS_NULLABLE,
			COLUMN_DEFAULT
		FROM INFORMATION_SCHEMA.COLUMNS
		WHERE TABLE_NAME = ?".
Definition mssql_primary : bytes := str "
		SELECT KCU.COLUMN_NAME, TC.CONSTRAINT_NAME
		FROM INFORMATION_SCHEMA.TABLE_CONSTRAINTS TC
		JOIN INFORMATION_SCHEMA.KEY_COLUMN_USAGE KCU
			ON TC.CONSTRAINT_NAME = KCU.CONSTRAINT_NAME
		WHERE TC.TABLE_NAME = ?
		AND TC.CONSTRAINT_TYPE = 'PRIMARY KEY'".
Definition mssql_foreign : bytes := str "
		SELECT
			TC.CONSTRAINT_NAME,
			KCU.COLUMN_NAME,
			CCU.TABLE_NAME AS REF_TABLE,
			CCU.COLUMN_NAME AS REF_COLUMN,
			RC.DELETE_RULE,
			RC.UPDATE_RULE
		FROM INFORMATION_SCHEMA.TABLE_CONSTRAINTS TC
		JOIN INFORMATION_SCHEMA.KEY_COLUMN_USAGE KCU
			ON TC.CONSTRAINT_NAME = KCU.CONSTRAINT_NAME
		JOIN INFORMATION_SCHEMA.CONSTRAINT_COLUMN_USAGE CCU
			ON TC.CONSTRAINT_NAME = CCU.CONSTRAINT_NAME
		JOIN INFORMATION_SCHEMA.REFERENTIAL_CONSTRAINTS RC
			ON TC.CONSTRAINT_NAME = RC.CONSTRAINT_NAME
		WHERE TC.TABLE_NAME = ?
		AND TC.CONSTRAINT_TYPE = 'FOREIGN KEY'".
Definition mssql_unique : bytes := str "
		SELECT TC.CONSTRAINT_NAME, KCU.COLUMN_NAME
		FROM INFORMATION_SCHEMA.TABLE_CONSTRAINTS TC
		JOIN INFORMATION_SCHEMA.KEY_COLUMN_USAGE KCU
			ON TC.CONSTRAINT_NAME = KCU.CONSTRAINT_NAME
		WHERE TC.TABLE_NAME = ?
		AND TC.CONSTRAINT_TYPE = 'UNIQUE'".
Definition mssql_checks : bytes := str "
		SELECT CC.CONSTRAINT_NAME, CC.CHECK_CLAUSE
		FROM INFORMATION_SCHEMA.CHECK_CONSTRAINTS CC
		JOIN INFORMATION_SCHEMA.CONSTRAINT_TABLE_USAGE CTU
			ON CC.CONSTRAINT_NAME = CTU.CONSTRAINT_NAME
		WHERE CTU.TABLE_NAME = ?".
Definition mssql_indexes : bytes := str "
		SELECT
			i.name AS index_name,
			c.name AS column_name,
			i.is_unique,
			i.is_primary_key
		FROM sys.indexes i
		JOIN sys.index_columns ic ON i.object_id = ic.object_id AND i.index_id = ic.index_id
		JOIN sys.columns c ON ic.object_id = c.object_id AND ic.column_id = c.column_id
		JOIN sys.tables t ON i.object_id = t.object_id
		WHERE t.name = ?
		ORDER BY i.name, ic.key_ordinal".
