(* ===== verification/Sources.v ===== *)
(** * Databases that are imported from (package database/sql and what the importers share)

    A connection answers queries with rows of driver values. Scanning a row
    stores the values as texts, numbers and truths; a NULL is stored only where
    the code expects one. The importers put the rows of a catalogue together
    to keys and indexes, in maps that are gone through in an order of Go's. *)

From S2P Require Import Prelude GoLib Types Functions Ast Eval Converter Import Url.
Local Open Scope Z_scope.

(** The rows that Next gives; [broken] is that an error ended them, which
    only Rows.Err tells. *)
Record Answer := mkAnswer { columns_ : list bytes; answer_rows : list (list GoData); broken : bool }.
(** None is a query that fails. *)
Record Database := mkDatabase { query : bytes -> list bytes -> option Answer }.
(** sql.Open of a driver and Ping. *)
Class Drivers := {
  open_db : bytes -> bytes -> option Database;
  (** The texts of values that no catalogue has, for Scan. *)
  other_text : GoData -> bytes
}.

(** ** Scan *)

Section Scanning.
Context `{Drivers}.

Definition scan_text (d : GoData) : option bytes :=
  match d with
  | GNil => None
  | GString s | GBytes s => Some s
  | GInt _ n => Some (itoa n)
  | GBool b => Some (if b then str "true" else str "false")
  | d => Some (other_text d)
  end.
Definition scan_null_text (d : GoData) : option (option bytes) := match d with GNil => Some None | d => Some <$> scan_text d end.
Definition scan_int (d : GoData) : option Z := s ← scan_text d; parse_int s.
Definition scan_null_int (d : GoData) : option (option Z) := match d with GNil => Some None | d => Some <$> scan_int d end.
(** strconv.ParseBool *)
Definition parse_bool (s : bytes) : option bool :=
  if existsb (bytes_eqb s) (map str ["1"; "t"; "T"; "true"; "TRUE"; "True"]%string) then Some true
  else if existsb (bytes_eqb s) (map str ["0"; "f"; "F"; "false"; "FALSE"; "False"]%string) then Some false
  else None.
Definition scan_bool (d : GoData) : option bool :=
  match d with
  | GBool b => Some b
  | GString s | GBytes s => parse_bool s
  | GInt _ n => if n =? 1 then Some true else if n =? 0 then Some false else None
  | _ => None
  end.

(** Go over rows until one cannot be scanned, which is an error. *)
Fixpoint over {A} (f : A -> list GoData -> option A) (rows : list (list GoData)) (a : A) : option A :=
  match rows with [] => Some a | row :: rows => a ← f a row; over f rows a end.
(** What was done before the row that cannot be scanned. *)
Fixpoint until {A} (f : A -> list GoData -> option A) (rows : list (list GoData)) (a : A) : A :=
  match rows with [] => a | row :: rows => match f a row with Some a => until f rows a | None => a end end.
Definition run_over {A} (db : Database) (sql : bytes) (args : list bytes) (f : A -> list GoData -> option A) (a : A) : option A :=
  r ← query db sql args; over f (answer_rows r) a.

Definition scan_names (row : list GoData) : option bytes := match row with [name] => scan_text name | _ => None end.
Definition list_names (db : Database) (sql : bytes) (args : list bytes) : option (list bytes) :=
  run_over db sql args (fun l row => name ← scan_names row; Some (l ++ [name])) [].

(** ** Rows of a table *)

Definition text_value (d : GoData) : GoData := match d with GBytes b => GString b | d => d end.
(** Every row has as many values as there are columns; an error that ends the
    rows is not asked for. *)
Definition read_rows (db : Database) (sql : bytes) : option (list (list GoData)) :=
  r ← query db sql [];
  over (fun l row => if Nat.eqb (length row) (length (columns_ r)) then Some (l ++ [map text_value row]) else None) (answer_rows r) [].
(** The first row of a count. *)
Definition read_count (db : Database) (sql : bytes) : option Z :=
  r ← query db sql [];
  match answer_rows r with [n] :: _ => scan_int n | _ => None end.
Definition quoted_name (before after : string) (name : bytes) : bytes := str before ++ name ++ str after.
Definition limit_offset (limit offset : Z) : bytes := str " LIMIT " ++ itoa limit ++ str " OFFSET " ++ itoa offset.

(** A quote at both ends is taken off. *)
Definition unquote (quotes : string) (val : bytes) : bytes :=
  match val with
  | q :: ((_ :: _) as t) => if byte_in quotes q && bool_decide (last val = Some q) then removelast t else val
  | _ => val
  end.
End Scanning.

(** ** Keys and indexes *)

(** A row of a key that is new, or one more row of it. *)
Definition add_row {A} (name : bytes) (new : A) (more : A -> A) (m : gmap bytes A) : gmap bytes A :=
  <[name := match m !! name with Some k => more k | None => new end]> m.
Definition fk_row (name column refTable refColumn onDelete onUpdate : bytes) : gmap bytes ForeignKeyInfo -> gmap bytes ForeignKeyInfo :=
  add_row name (mkForeignKey name [column] refTable [refColumn] onDelete onUpdate)
    (fun k => mkForeignKey (FName k) (FColumns k ++ [column]) (RefTable k) (RefColumns k ++ [refColumn]) (OnDelete k) (OnUpdate k)).
Definition uk_row (name column : bytes) : gmap bytes UniqueKeyInfo -> gmap bytes UniqueKeyInfo :=
  add_row name (mkUniqueKey name [column]) (fun k => mkUniqueKey (UName k) (UColumns k ++ [column])).
Definition idx_row (name column : bytes) (unique : bool) : gmap bytes IndexInfo -> gmap bytes IndexInfo :=
  add_row name (mkIndex name [column] unique) (fun k => mkIndex (XName k) (XColumns k ++ [column]) (XUnique k)).
Definition in_map_order `{MapOrder} {A} (m : gmap bytes A) : list A := omap (m !!.) (key_order (map fst (map_to_list m))).

Definition mark (same : bytes -> bytes -> bool) (name : bytes) (f : ColumnInfo -> ColumnInfo) (l : list ColumnInfo) : list ColumnInfo :=
  map (fun c => if same (CName c) name then f c else c) l.
Definition as_primary (c : ColumnInfo) : ColumnInfo :=
  mkColumnInfo (CName c) (CSourceType c) (TargetType c) (CLength c) (IsNullable c) true (IsUnique c) (DefaultValue c).
Definition as_unique (c : ColumnInfo) : ColumnInfo :=
  mkColumnInfo (CName c) (CSourceType c) (TargetType c) (CLength c) (IsNullable c) (IsPrimaryKey c) true (DefaultValue c).
(** Unique keys of one column mark it. *)
Definition mark_unique (same : bytes -> bytes -> bool) (keys : list UniqueKeyInfo) (l : list ColumnInfo) : list ColumnInfo :=
  fold_left (fun l k => match UColumns k with [c] => mark same c as_unique l | _ => l end) keys l.

Definition empty_schema (table : bytes) : TableSchema := mkSchema table [] [] [] [] [] [].
Definition set_columns (l : list ColumnInfo) (s : TableSchema) : TableSchema :=
  mkSchema (TableName s) l (PrimaryKeys s) (ForeignKeys s) (UniqueKeys s) (CheckConstraints s) (Indexes s).
Definition set_primary (l : list bytes) (s : TableSchema) : TableSchema :=
  mkSchema (TableName s) (SColumns s) l (ForeignKeys s) (UniqueKeys s) (CheckConstraints s) (Indexes s).
Definition set_foreign (l : list ForeignKeyInfo) (s : TableSchema) : TableSchema :=
  mkSchema (TableName s) (SColumns s) (PrimaryKeys s) l (UniqueKeys s) (CheckConstraints s) (Indexes s).
Definition set_unique (l : list UniqueKeyInfo) (s : TableSchema) : TableSchema :=
  mkSchema (TableName s) (SColumns s) (PrimaryKeys s) (ForeignKeys s) l (CheckConstraints s) (Indexes s).
Definition set_checks (l : list CheckInfo) (s : TableSchema) : TableSchema :=
  mkSchema (TableName s) (SColumns s) (PrimaryKeys s) (ForeignKeys s) (UniqueKeys s) l (Indexes s).
Definition set_indexes (l : list IndexInfo) (s : TableSchema) : TableSchema :=
  mkSchema (TableName s) (SColumns s) (PrimaryKeys s) (ForeignKeys s) (UniqueKeys s) (CheckConstraints s) l.

Example unquoted : map (unquote "'") [str "'ab'"; str "'"; str "''"; str "'a"; str "ab"] = [str "ab"; str "'"; []; str "'a"; str "ab"].
Proof. vm_compute. reflexivity. Qed.
