(* ===== verification/FromMysql.v ===== *)
(** * Importing from MySQL (import/mysql.go)

    What the importer makes of the catalogue of a MySQL server, and how it
    reads a table. *)

From S2P Require Import Prelude GoLib Types Functions Ast Eval Converter Import Url Sources Queries.
Local Open Scope Z_scope.

Section Mysql.
Context `{GoRuntime} `{Drivers} `{MapOrder}.

Definition convertDSN (dsn : bytes) : bytes :=
  match index (str "@tcp(") dsn with
  | Some _ => dsn
  | None =>
    match index (str "@") dsn with
    | None => dsn
    | Some i =>
      let rest := drop (S i) dsn in
      match index (str "/") rest with
      | None => dsn
      | Some j => take (S i) dsn ++ str "tcp(" ++ take j rest ++ str ")" ++ drop j rest
      end
    end
  end.
Definition open_source (dsn : bytes) : option Database := open_db (str "mysql") (convertDSN dsn).

(** A query, and what it asks for when the database is known. *)
Definition scoped (sql : bytes) (args : list bytes) (schema_column : string) (after : string) (dbName : bytes) : bytes * list bytes :=
  match dbName with
  | [] => (sql ++ str after, args)
  | _ => (sql ++ str " AND " ++ str schema_column ++ str " = ?" ++ str after, args ++ [dbName])
  end.
Definition run_scoped {A} (db : Database) (q : bytes * list bytes) (f : A -> list GoData -> option A) (a : A) : option A := run_over db q.1 q.2 f a.

Definition ListTables (db : Database) (dbName : bytes) : option (list bytes) :=
  let q := scoped mysql_list [] "TABLE_SCHEMA" "" dbName in list_names db q.1 q.2.

Definition parseDefaultValue (val : bytes) : GoData :=
  if bytes_eqb val (str "NULL") || bytes_eqb val [] then GNil else GString (unquote ("'" ++ String (Ascii.ascii_of_nat 34) "") val).
(** The columns, without those that were there before. *)
Definition column_row (s : list ColumnInfo * gset bytes) (row : list GoData) : option (list ColumnInfo * gset bytes) :=
  match row with
  | [name; colType; isNullable; columnKey; defaultValue; extra] =>
    name ← scan_text name; colType ← scan_text colType; isNullable ← scan_text isNullable; columnKey ← scan_text columnKey;
    defaultValue ← scan_null_text defaultValue; extra ← scan_text extra;
    if bool_decide (name ∈ s.2) then Some s
    else
      let '(targetType, length) := ConvertMySQLType colType in
      Some (s.1 ++ [mkColumnInfo name colType targetType length (bytes_eqb isNullable (str "YES")) (bytes_eqb columnKey (str "PRI"))
                      (bytes_eqb columnKey (str "UNI")) (match defaultValue with Some v => parseDefaultValue v | None => GNil end)],
            {[name]} ∪ s.2)
  | _ => None
  end.
Definition getColumns (db : Database) (dbName table : bytes) : option (list ColumnInfo) :=
  fst <$> run_scoped db (scoped mysql_columns [table] "TABLE_SCHEMA" " ORDER BY ORDINAL_POSITION" dbName) column_row ([], ∅).
Definition primary_row (l : list bytes) (row : list GoData) : option (list bytes) :=
  match row with
  | [column; constraint] =>
    column ← scan_text column; scan_text constraint ≫= fun _ => Some (if bool_decide (column ∈ l) then l else l ++ [column])
  | _ => None
  end.
Definition getPrimaryKeys (db : Database) (dbName table : bytes) : option (list bytes) :=
  run_scoped db (scoped mysql_primary [table] "TABLE_SCHEMA" " ORDER BY ORDINAL_POSITION" dbName) primary_row [].
Definition foreign_row (m : gmap bytes ForeignKeyInfo) (row : list GoData) : option (gmap bytes ForeignKeyInfo) :=
  l ← mapM scan_text row;
  match l with
  | [constraint; column; refTable; refColumn; deleteRule; updateRule] => Some (fk_row constraint column refTable refColumn deleteRule updateRule m)
  | _ => None
  end.
Definition getForeignKeys (db : Database) (dbName table : bytes) : option (list ForeignKeyInfo) :=
  in_map_order <$> run_scoped db (scoped mysql_foreign [table] "KCU.TABLE_SCHEMA" " ORDER BY KCU.CONSTRAINT_NAME, KCU.ORDINAL_POSITION" dbName) foreign_row ∅.
(** A column is in a key once. *)
Definition unique_row (m : gmap bytes UniqueKeyInfo) (row : list GoData) : option (gmap bytes UniqueKeyInfo) :=
  l ← mapM scan_text row;
  match l with
  | [constraint; column] =>
    Some (if existsb (bytes_eqb column) (match m !! constraint with Some k => UColumns k | None => [] end) then m else uk_row constraint column m)
  | _ => None
  end.
Definition getUniqueKeys (db : Database) (dbName table : bytes) : option (list UniqueKeyInfo) :=
  in_map_order <$> run_scoped db (scoped mysql_unique [table] "TC.TABLE_SCHEMA" " ORDER BY TC.CONSTRAINT_NAME, KCU.ORDINAL_POSITION" dbName) unique_row ∅.
Definition check_row (l : list CheckInfo) (row : list GoData) : option (list CheckInfo) :=
  t ← mapM scan_text row; match t with [name; clause] => Some (l ++ [mkCheck name clause]) | _ => None end.
(** An error does not matter: what was read before it stays. *)
Definition getCheckConstraints (db : Database) (dbName table : bytes) : list CheckInfo :=
  let q := scoped mysql_checks [table] "CONSTRAINT_SCHEMA" "" dbName in
  match query db q.1 q.2 with None => [] | Some r => until check_row (answer_rows r) [] end.
Definition index_row (m : gmap bytes IndexInfo) (row : list GoData) : option (gmap bytes IndexInfo) :=
  match row with
  | [indexName; columnName; nonUnique] =>
    indexName ← scan_text indexName; columnName ← scan_text columnName; nonUnique ← scan_int nonUnique;
    Some (idx_row indexName columnName (nonUnique =? 0) m)
  | _ => None
  end.
(** Without the indexes of unique keys. *)
Definition getIndexes (db : Database) (dbName table : bytes) (uniqueKeys : list UniqueKeyInfo) : option (list IndexInfo) :=
  m ← run_scoped db (scoped mysql_indexes [table] "TABLE_SCHEMA" " ORDER BY INDEX_NAME, SEQ_IN_INDEX" dbName) index_row ∅;
  Some (base.filter (fun i => existsb (fun k => bytes_eqb (UName k) (XName i)) uniqueKeys = false) (in_map_order m)).

Definition GetTableSchema (db : Database) (dbName table : bytes) : option TableSchema :=
  columns ← getColumns db dbName table;
  primary ← getPrimaryKeys db dbName table;
  foreign ← getForeignKeys db dbName table;
  unique ← getUniqueKeys db dbName table;
  let checks := getCheckConstraints db dbName table in
  indexes ← getIndexes db dbName table unique;
  Some (mkSchema table columns primary foreign unique checks indexes).

Definition quoteIdentifier : bytes -> bytes := quoted_name "`" "`".
Definition table_name (dbName table : bytes) : bytes :=
  match dbName with [] => quoteIdentifier table | _ => quoteIdentifier dbName ++ str "." ++ quoteIdentifier table end.
Definition ReadTable (db : Database) (dbName table : bytes) (offset limit : Z) : option (list (list GoData)) :=
  read_rows db (str "SELECT * FROM " ++ table_name dbName table ++ limit_offset limit offset).
Definition ReadTableCount (db : Database) (dbName table : bytes) : option Z := read_count db (str "SELECT COUNT(" ++ str "*) FROM " ++ table_name dbName table).

(** The importer, once it was connected with a name. *)
Definition MySQLImporter (dsn : bytes) : Importer :=
  let db {A} (f : Database -> option A) : option A := d ← open_source dsn; f d in
  mkImporter (fun dsn => match open_source dsn with Some _ => true | None => false end)
    (fun dbName => db (fun d => ListTables d dbName)) (fun dbName table => db (fun d => GetTableSchema d dbName table))
    (fun dbName table offset limit => db (fun d => ReadTable d dbName table offset limit)) (fun dbName table => db (fun d => ReadTableCount d dbName table)).
End Mysql.
