(* ===== verification/FromPostgres.v ===== *)
(** * Importing from PostgreSQL (import/postgres.go)

    What the importer makes of the catalogue of a PostgreSQL server, and how
    it reads a table. *)

From S2P Require Import Prelude GoLib Types Functions Script Ast Eval Converter Import Url Sources Queries.
Local Open Scope Z_scope.

Section Postgres.
Context `{GoRuntime} `{Drivers} `{MapOrder}.

Definition open_source (dsn : bytes) : option Database := open_db (str "postgres") dsn.

Definition ListTables (db : Database) (dbName : bytes) : option (list bytes) := list_names db postgres_list [].

Definition parseDefaultValue (val : bytes) : GoData :=
  match val with
  | [] => GNil
  | _ =>
    (* a cast is left out *)
    let val := match index (str "::") val with Some (S i) => take (S i) val | _ => val end in
    GString (unquote ("'" ++ String (Ascii.ascii_of_nat 34) "") val)
  end.
Definition column_row (l : list ColumnInfo) (row : list GoData) : option (list ColumnInfo) :=
  match row with
  | [name; colType; maxLen; isNullable; defaultValue; udtName] =>
    name ← scan_text name; colType ← scan_text colType; maxLen ← scan_null_text maxLen; isNullable ← scan_text isNullable;
    defaultValue ← scan_null_text defaultValue; udtName ← scan_text udtName;
    let colType := if bytes_eqb colType (str "USER-DEFINED") then udtName else colType in
    let fullType := match maxLen with Some (_ :: _ as n) => colType ++ str "(" ++ n ++ str ")" | _ => colType end in
    let '(targetType, length) := ConvertPostgreSQLType fullType in
    Some (l ++ [mkColumnInfo name fullType targetType length (bytes_eqb isNullable (str "YES")) false false
                  (match defaultValue with Some v => parseDefaultValue v | None => GNil end)])
  | _ => None
  end.
Definition getColumns (db : Database) (table : bytes) (s : TableSchema) : option TableSchema :=
  l ← run_over db postgres_columns [table] column_row (SColumns s); Some (set_columns l s).
(** A column of the primary key is marked. *)
Definition primary_row (s : TableSchema) (row : list GoData) : option TableSchema :=
  l ← mapM scan_text row;
  match l with
  | [column; constraint] => Some (set_columns (mark bytes_eqb column as_primary (SColumns s)) (set_primary (PrimaryKeys s ++ [column]) s))
  | _ => None
  end.
Definition getPrimaryKeys (db : Database) (table : bytes) (s : TableSchema) : option TableSchema := run_over db postgres_primary [table] primary_row s.
Definition foreign_row (m : gmap bytes ForeignKeyInfo) (row : list GoData) : option (gmap bytes ForeignKeyInfo) :=
  l ← mapM scan_text row;
  match l with
  | [constraint; column; refTable; refColumn; deleteRule; updateRule] => Some (fk_row constraint column refTable refColumn deleteRule updateRule m)
  | _ => None
  end.
Definition getForeignKeys (db : Database) (table : bytes) (s : TableSchema) : option TableSchema :=
  m ← run_over db postgres_foreign [table] foreign_row ∅; Some (set_foreign (in_map_order m) s).
Definition unique_row (m : gmap bytes UniqueKeyInfo) (row : list GoData) : option (gmap bytes UniqueKeyInfo) :=
  l ← mapM scan_text row; match l with [constraint; column] => Some (uk_row constraint column m) | _ => None end.
Definition getUniqueKeys (db : Database) (table : bytes) (s : TableSchema) : option TableSchema :=
  m ← run_over db postgres_unique [table] unique_row ∅;
  let keys := in_map_order m in Some (set_columns (mark_unique bytes_eqb keys (SColumns s)) (set_unique keys s)).
Definition check_row (l : list CheckInfo) (row : list GoData) : option (list CheckInfo) :=
  t ← mapM scan_text row;
  match t with
  | [name; definition] => Some (l ++ [mkCheck name (if has_prefix (str "CHECK ") definition then drop 6 definition else definition)])
  | _ => None
  end.
Definition getCheckConstraints (db : Database) (table : bytes) (s : TableSchema) : option TableSchema :=
  l ← run_over db postgres_checks [table] check_row []; Some (set_checks l s).
(** Without primary keys. *)
Definition index_row (m : gmap bytes IndexInfo) (row : list GoData) : option (gmap bytes IndexInfo) :=
  match row with
  | [indexName; columnName; isUnique; isPrimary] =>
    indexName ← scan_text indexName; columnName ← scan_text columnName; isUnique ← scan_bool isUnique; isPrimary ← scan_bool isPrimary;
    Some (if isPrimary : bool then m else idx_row indexName columnName isUnique m)
  | _ => None
  end.
Definition of_unique_key (keys : list UniqueKeyInfo) (i : IndexInfo) : bool :=
  existsb (fun k => bytes_eqb (UName k) (XName i) || has_suffix (str "_" ++ UName k ++ str "_idx") (XName i)) keys.
Definition getIndexes (db : Database) (table : bytes) (s : TableSchema) : option TableSchema :=
  m ← run_over db postgres_indexes [table] index_row ∅;
  Some (set_indexes (base.filter (fun i => of_unique_key (UniqueKeys s) i = false) (in_map_order m)) s).

Definition GetTableSchema (db : Database) (dbName table : bytes) : option TableSchema :=
  s ← getColumns db table (empty_schema table);
  s ← getPrimaryKeys db table s;
  s ← getForeignKeys db table s;
  s ← getUniqueKeys db table s;
  s ← getCheckConstraints db table s;
  getIndexes db table s.

Definition double_quote : string := String (Ascii.ascii_of_nat 34) "".
Definition quoteIdentifier : bytes -> bytes := quoted_name double_quote double_quote.
Definition ReadTable (db : Database) (dbName table : bytes) (offset limit : Z) : option (list (list GoData)) :=
  read_rows db (str "SELECT * FROM " ++ quoteIdentifier table ++ limit_offset limit offset).
Definition ReadTableCount (db : Database) (dbName table : bytes) : option Z := read_count db (str "SELECT COUNT(" ++ str "*) FROM " ++ quoteIdentifier table).

(** The importer, once it was connected with a name. *)
Definition PostgreSQLImporter (dsn : bytes) : Importer :=
  let db {A} (f : Database -> option A) : option A := d ← open_source dsn; f d in
  mkImporter (fun dsn => match open_source dsn with Some _ => true | None => false end)
    (fun dbName => db (fun d => ListTables d dbName)) (fun dbName table => db (fun d => GetTableSchema d dbName table))
    (fun dbName table offset limit => db (fun d => ReadTable d dbName table offset limit)) (fun dbName table => db (fun d => ReadTableCount d dbName table)).
End Postgres.
