(* ===== verification/FromMssql.v ===== *)
(** * Importing from SQL Server (import/mssql.go)

    What the importer makes of the catalogue of a SQL Server, and how it reads
    a table. *)

From S2P Require Import Prelude GoLib Types Functions Ast Eval Converter Import Url Sources Queries.
Local Open Scope Z_scope.

Section Mssql.
Context `{GoRuntime} `{Drivers} `{MapOrder}.

Definition open_source (dsn : bytes) : option Database := open_db (str "sqlserver") dsn.

Definition scoped (sql : bytes) (args : list bytes) (catalog_column : string) (after : string) (dbName : bytes) : bytes * list bytes :=
  match dbName with
  | [] => (sql ++ str after, args)
  | _ => (sql ++ str " AND " ++ str catalog_column ++ str " = ?" ++ str after, args ++ [dbName])
  end.
Definition run_scoped {A} (db : Database) (q : bytes * list bytes) (f : A -> list GoData -> option A) (a : A) : option A := run_over db q.1 q.2 f a.

Definition ListTables (db : Database) (dbName : bytes) : option (list bytes) :=
  let q := scoped mssql_list [] "TABLE_CATALOG" " ORDER BY TABLE_NAME" dbName in list_names db q.1 q.2.

Definition parseDefaultValue (val : bytes) : GoData :=
  match val with
  | [] => GNil
  | _ =>
    let val := trim_set val (str "()") in
    (* the N of a text of Unicode *)
    let val := match val with n :: (q :: _) as t => if is_char 78 n && (is_char 39 q || is_char 34 q) then tail t else val | _ => val end in
    GString (unquote ("'" ++ String (Ascii.ascii_of_nat 34) "") val)
  end.
Definition full_type (colType : bytes) (maxLen : option Z) : bytes :=
  match maxLen with
  | Some n =>
    if 0 <? n then
      let n := if bytes_eqb (to_lower colType) (str "nvarchar") || bytes_eqb (to_lower colType) (str "nchar") then n / 2 else n in
      colType ++ str "(" ++ itoa n ++ str ")"
    else colType
  | None => colType
  end.
Definition column_row (l : list ColumnInfo) (row : list GoData) : option (list ColumnInfo) :=
  match row with
  | [name; colType; maxLen; isNullable; defaultValue] =>
    name ← scan_text name; colType ← scan_text colType; maxLen ← scan_null_int maxLen; isNullable ← scan_text isNullable; defaultValue ← scan_null_text defaultValue;
    let fullType := full_type colType maxLen in
    let '(targetType, length) := ConvertMSSQLType fullType in
    Some (l ++ [mkColumnInfo name fullType targetType length (bytes_eqb isNullable (str "YES")) false false
                  (match defaultValue with Some v => parseDefaultValue v | None => GNil end)])
  | _ => None
  end.
Definition getColumns (db : Database) (dbName table : bytes) (s : TableSchema) : option TableSchema :=
  l ← run_scoped db (scoped mssql_columns [table] "TABLE_CATALOG" " ORDER BY ORDINAL_POSITION" dbName) column_row (SColumns s); Some (set_columns l s).
(** A column of the primary key is marked. *)
Definition primary_row (s : TableSchema) (row : list GoData) : option TableSchema :=
  l ← mapM scan_text row;
  match l with
  | [column; constraint] => Some (set_columns (mark equal_fold column as_primary (SColumns s)) (set_primary (PrimaryKeys s ++ [column]) s))
  | _ => None
  end.
Definition getPrimaryKeys (db : Database) (dbName table : bytes) (s : TableSchema) : option TableSchema :=
  run_scoped db (scoped mssql_primary [table] "TC.TABLE_CATALOG" " ORDER BY KCU.ORDINAL_POSITION" dbName) primary_row s.
Definition foreign_row (m : gmap bytes ForeignKeyInfo) (row : list GoData) : option (gmap bytes ForeignKeyInfo) :=
  l ← mapM scan_text row;
  match l with
  | [constraint; column; refTable; refColumn; deleteRule; updateRule] => Some (fk_row constraint column refTable refColumn deleteRule updateRule m)
  | _ => None
  end.
Definition getForeignKeys (db : Database) (dbName table : bytes) (s : TableSchema) : option TableSchema :=
  m ← run_scoped db (scoped mssql_foreign [table] "TC.TABLE_CATALOG" " ORDER BY TC.CONSTRAINT_NAME, KCU.ORDINAL_POSITION" dbName) foreign_row ∅;
  Some (set_foreign (in_map_order m) s).
Definition unique_row (m : gmap bytes UniqueKeyInfo) (row : list GoData) : option (gmap bytes UniqueKeyInfo) :=
  l ← mapM scan_text row; match l with [constraint; column] => Some (uk_row constraint column m) | _ => None end.
Definition getUniqueKeys (db : Database) (dbName table : bytes) (s : TableSchema) : option TableSchema :=
  m ← run_scoped db (scoped mssql_unique [table] "TC.TABLE_CATALOG" " ORDER BY TC.CONSTRAINT_NAME, KCU.ORDINAL_POSITION" dbName) unique_row ∅;
  let keys := in_map_order m in Some (set_columns (mark_unique equal_fold keys (SColumns s)) (set_unique keys s)).
Definition check_row (l : list CheckInfo) (row : list GoData) : option (list CheckInfo) :=
  match row with
  | [name; clause] =>
    name ← scan_text name; clause ← scan_null_text clause;
    Some (match clause with Some c => l ++ [mkCheck name c] | None => l end)
  | _ => None
  end.
Definition getCheckConstraints (db : Database) (dbName table : bytes) (s : TableSchema) : option TableSchema :=
  l ← run_scoped db (scoped mssql_checks [table] "CTU.TABLE_CATALOG" "" dbName) check_row []; Some (set_checks l s).
(** Without primary keys. *)
Definition index_row (m : gmap bytes IndexInfo) (row : list GoData) : option (gmap bytes IndexInfo) :=
  match row with
  | [indexName; columnName; isUnique; isPrimaryKey] =>
    indexName ← scan_text indexName; columnName ← scan_text columnName; isUnique ← scan_bool isUnique; isPrimaryKey ← scan_bool isPrimaryKey;
    Some (if isPrimaryKey : bool then m else idx_row indexName columnName isUnique m)
  | _ => None
  end.
Definition getIndexes (db : Database) (table : bytes) (s : TableSchema) : option TableSchema :=
  m ← run_over db mssql_indexes [table] index_row ∅;
  Some (set_indexes (base.filter (fun i => existsb (fun k => bytes_eqb (UName k) (XName i)) (UniqueKeys s) = false) (in_map_order m)) s).

Definition GetTableSchema (db : Database) (dbName table : bytes) : option TableSchema :=
  s ← getColumns db dbName table (empty_schema table);
  s ← getPrimaryKeys db dbName table s;
  s ← getForeignKeys db dbName table s;
  s ← getUniqueKeys db dbName table s;
  s ← getCheckConstraints db dbName table s;
  getIndexes db table s.

Definition quoteIdentifier : bytes -> bytes := quoted_name "[" "]".
Definition ReadTable (db : Database) (dbName table : bytes) (offset limit : Z) : option (list (list GoData)) :=
  read_rows db (str "SELECT * FROM " ++ quoteIdentifier table ++ str " ORDER BY (SELECT NULL) OFFSET " ++ itoa offset ++ str " ROWS FETCH NEXT " ++ itoa limit ++ str " ROWS ONLY").
Definition ReadTableCount (db : Database) (dbName table : bytes) : option Z := read_count db (str "SELECT COUNT(" ++ str "*) FROM " ++ quoteIdentifier table).

(** The importer, once it was connected with a name. *)
Definition MSSQLImporter (dsn : bytes) : Importer :=
  let db {A} (f : Database -> option A) : option A := d ← open_source dsn; f d in
  mkImporter (fun dsn => match open_source dsn with Some _ => true | None => false end)
    (fun dbName => db (fun d => ListTables d dbName)) (fun dbName table => db (fun d => GetTableSchema d dbName table))
    (fun dbName table offset limit => db (fun d => ReadTable d dbName table offset limit)) (fun dbName table => db (fun d => ReadTableCount d dbName table)).
End Mssql.
