(* ===== verification/FromOracle.v ===== *)
(** * Importing from Oracle (import/oracle.go)

    What the importer makes of the catalogue of an Oracle database, and how
    it reads a table. *)

From S2P Require Import Prelude GoLib Types Functions Ast Eval Converter Import Url Sources Queries.
Local Open Scope Z_scope.

Section Oracle.
Context `{GoRuntime} `{Drivers} `{MapOrder}.

Definition connection_text (dsn : bytes) : bytes :=
  if (8 <? length dsn)%nat && bytes_eqb (take 8 dsn) (str "oracle://") then dsn else str "oracle://" ++ dsn.
Definition open_source (dsn : bytes) : option Database := open_db (str "oracle") (connection_text dsn).

Definition ListTables (db : Database) (dbName : bytes) : option (list bytes) := list_names db oracle_list [].

Definition parseDefaultValue (val : bytes) : GoData := match val with [] => GNil | _ => GString (unquote "'" val) end.
Definition full_type (colType : bytes) (dataLength : option Z) : bytes :=
  match dataLength with
  | Some n => if bytes_eqb (to_upper colType) (str "VARCHAR2") || bytes_eqb (to_upper colType) (str "CHAR")
              then colType ++ str "(" ++ itoa n ++ str ")" else colType
  | None => colType
  end.
Definition column_row (l : list ColumnInfo) (row : list GoData) : option (list ColumnInfo) :=
  match row with
  | [name; colType; dataLength; isNullable; defaultValue] =>
    name ← scan_text name; colType ← scan_text colType; dataLength ← scan_null_int dataLength; isNullable ← scan_text isNullable; defaultValue ← scan_null_text defaultValue;
    let fullType := full_type colType dataLength in
    let '(targetType, length) := ConvertOracleType fullType in
    Some (l ++ [mkColumnInfo name fullType targetType length (bytes_eqb isNullable (str "Y")) false false
                  (match defaultValue with Some v => parseDefaultValue v | None => GNil end)])
  | _ => None
  end.
Definition getColumns (db : Database) (table : bytes) (s : TableSchema) : option TableSchema :=
  l ← run_over db oracle_columns [table] column_row (SColumns s); Some (set_columns l s).
(** A column of the primary key is marked. *)
Definition primary_row (s : TableSchema) (row : list GoData) : option TableSchema :=
  l ← mapM scan_text row;
  match l with
  | [column; constraint] => Some (set_columns (mark equal_fold column as_primary (SColumns s)) (set_primary (PrimaryKeys s ++ [column]) s))
  | _ => None
  end.
Definition getPrimaryKeys (db : Database) (table : bytes) (s : TableSchema) : option TableSchema := run_over db oracle_primary [table] primary_row s.
(** A rule that is not there is none. *)
Definition foreign_row (m : gmap bytes ForeignKeyInfo) (row : list GoData) : option (gmap bytes ForeignKeyInfo) :=
  match row with
  | [constraint; column; rConstraint; refTable; refColumn; deleteRule; updateRule] =>
    constraint ← scan_text constraint; column ← scan_text column; rConstraint ← scan_text rConstraint; refTable ← scan_text refTable; refColumn ← scan_text refColumn;
    deleteRule ← scan_null_text deleteRule; updateRule ← scan_null_text updateRule;
    Some (fk_row constraint column refTable refColumn (default [] deleteRule) (default [] updateRule) m)
  | _ => None
  end.
Definition getForeignKeys (db : Database) (table : bytes) (s : TableSchema) : option TableSchema :=
  m ← run_over db oracle_foreign [table] foreign_row ∅; Some (set_foreign (in_map_order m) s).
Definition unique_row (m : gmap bytes UniqueKeyInfo) (row : list GoData) : option (gmap bytes UniqueKeyInfo) :=
  l ← mapM scan_text row; match l with [constraint; column] => Some (uk_row constraint column m) | _ => None end.
Definition getUniqueKeys (db : Database) (table : bytes) (s : TableSchema) : option TableSchema :=
  m ← run_over db oracle_unique [table] unique_row ∅;
  let keys := in_map_order m in Some (set_columns (mark_unique equal_fold keys (SColumns s)) (set_unique keys s)).
Definition check_row (l : list CheckInfo) (row : list GoData) : option (list CheckInfo) :=
  match row with
  | [name; condition] =>
    name ← scan_text name; condition ← scan_null_text condition;
    Some (match condition with Some c => l ++ [mkCheck name c] | None => l end)
  | _ => None
  end.
Definition getCheckConstraints (db : Database) (table : bytes) (s : TableSchema) : option TableSchema :=
  l ← run_over db oracle_checks [table] check_row []; Some (set_checks l s).
Definition index_row (m : gmap bytes IndexInfo) (row : list GoData) : option (gmap bytes IndexInfo) :=
  l ← mapM scan_text row;
  match l with [indexName; columnName; uniqueness] => Some (idx_row indexName columnName (bytes_eqb uniqueness (str "UNIQUE")) m) | _ => None end.
Definition getIndexes (db : Database) (table : bytes) (s : TableSchema) : option TableSchema :=
  m ← run_over db oracle_indexes [table] index_row ∅; Some (set_indexes (in_map_order m) s).

Definition GetTableSchema (db : Database) (dbName table : bytes) : option TableSchema :=
  s ← getColumns db table (empty_schema table);
  s ← getPrimaryKeys db table s;
  s ← getForeignKeys db table s;
  s ← getUniqueKeys db table s;
  s ← getCheckConstraints db table s;
  getIndexes db table s.

Definition double_quote : string := String (Ascii.ascii_of_nat 34) "".
Definition quoteIdentifier (name : bytes) : bytes := quoted_name double_quote double_quote (to_upper name).
Definition page_query (table : bytes) (offset limit : Z) : bytes :=
  str "
		SELECT * FROM (
			SELECT a.*, ROWNUM rn FROM (
				SELECT * FROM " ++ quoteIdentifier table ++ str "
			) a WHERE ROWNUM <= " ++ itoa (i64 (offset + limit)) ++ str "
		) WHERE rn > " ++ itoa offset.
(** The last column is the number of the row, and is left out. *)
Definition ReadTable (db : Database) (dbName table : bytes) (offset limit : Z) : option (list (list GoData)) :=
  r ← query db (page_query table offset limit) [];
  let n := pred (length (columns_ r)) in
  over (fun l row => if Nat.eqb (length row) (S n) then Some (l ++ [map text_value (take n row)]) else None) (answer_rows r) [].
Definition ReadTableCount (db : Database) (dbName table : bytes) : option Z := read_count db (str "SELECT COUNT(" ++ str "*) FROM " ++ quoteIdentifier table).

(** The importer, once it was connected with a name. *)
Definition OracleImporter (dsn : bytes) : Importer :=
  let db {A} (f : Database -> option A) : option A := d ← open_source dsn; f d in
  mkImporter (fun dsn => match open_source dsn with Some _ => true | None => false end)
    (fun dbName => db (fun d => ListTables d dbName)) (fun dbName table => db (fun d => GetTableSchema d dbName table))
    (fun dbName table offset limit => db (fun d => ReadTable d dbName table offset limit)) (fun dbName table => db (fun d => ReadTableCount d dbName table)).
End Oracle.
