(* ===== verification/FromSqlite.v ===== *)
(** * Importing from SQLite (import/sqlite.go)

    What the importer makes of the catalogue of a SQLite database, where the
    keys have to be found in the text of CREATE TABLE, and how it reads a
    table. *)

From S2P Require Import Prelude GoLib Types Functions Ast Eval Converter Import Url Sources Queries Regex.
Local Open Scope Z_scope.

Section Sqlite.
Context `{GoRuntime} `{Drivers}.

Definition connection_text (dsn : bytes) : bytes :=
  match dsn with
  | c :: _ => if byte_in "/.:" c then dsn else str "file:" ++ dsn
  | [] => dsn
  end.
Definition open_source (dsn : bytes) : option Database := open_db (str "sqlite") (connection_text dsn).

Definition ListTables (db : Database) (dbName : bytes) : option (list bytes) := list_names db sqlite_list [].

Definition double_quote : string := String (Ascii.ascii_of_nat 34) "".
Definition quoteIdentifier : bytes -> bytes := quoted_name double_quote double_quote.
Definition parseDefaultValue (val : bytes) : GoData :=
  if bytes_eqb val [] || bytes_eqb val (str "NULL") then GNil else GString (unquote ("'" ++ double_quote) val).

(** The columns and the primary key, in the order of the columns. *)
Definition column_row (s : TableSchema) (row : list GoData) : option TableSchema :=
  match row with
  | [cid; name; colType; notNull; defaultValue; pk] =>
    cid ← scan_int cid; name ← scan_text name; colType ← scan_text colType; notNull ← scan_int notNull; defaultValue ← scan_null_text defaultValue; pk ← scan_int pk;
    let '(targetType, length) := ConvertSQLiteType colType in
    let s := set_columns (SColumns s ++ [mkColumnInfo name colType targetType length (notNull =? 0) (0 <? pk) false
                                           (match defaultValue with Some v => parseDefaultValue v | None => GNil end)]) s in
    Some (if 0 <? pk then set_primary (PrimaryKeys s ++ [name]) s else s)
  | _ => None
  end.
Definition getColumns (db : Database) (table : bytes) (s : TableSchema) : option TableSchema :=
  run_over db (str "PRAGMA table_info(" ++ quoteIdentifier table ++ str ")") [] column_row s.

(** ** The text of CREATE TABLE *)

Definition blank0 : re := Star (Byte_ is_blank).
Definition blank1 : re := plus (Byte_ is_blank).
Definition in_parentheses (n : nat) : list re := [text_i "("; Group n (plus (none_of ")")); text_i ")"].
Definition rule : re :=
  any_of [text_i "CASCADE"; seq [text_i "SET"; blank1; text_i "NULL"]; seq [text_i "SET"; blank1; text_i "DEFAULT"]; text_i "RESTRICT"; seq [text_i "NO"; blank1; text_i "ACTION"]].
Definition fkRegex : re :=
  seq ([text_i "FOREIGN"; blank1; text_i "KEY"; blank0] ++ in_parentheses 1 ++ [blank1; text_i "REFERENCES"; blank1; Group 2 word; blank0] ++ in_parentheses 3
       ++ [opt (seq [blank1; text_i "ON"; blank1; text_i "DELETE"; blank1; Group 4 rule]); opt (seq [blank1; text_i "ON"; blank1; text_i "UPDATE"; blank1; Group 5 rule])]).
Definition uniqueRegex : re := seq ([text_i "UNIQUE"; blank0] ++ in_parentheses 1).
Definition checkRegex : re :=
  seq [text_i "CHECK"; blank0; text_i "(";
       Group 1 (Then (plus (none_of ")")) (Star (seq [text_i "("; Star (none_of ")"); text_i ")"; Star (none_of ")")]))); text_i ")"].
(** The name of a column and UNIQUE after it, before a comma or parenthesis. *)
Definition colPattern (name : bytes) : re :=
  seq [Border; foldr (fun b r => Then (Byte_ (same_case b)) r) Empty name; Border; LazyStar (none_of ",)"); Border; text_i "UNIQUE"; Border].

Definition name_quotes : bytes := byte.of_Z 34 :: str "`[]".
Definition parseColumnList (list : bytes) : Datatypes.list bytes :=
  base.filter (fun c => c <> []) (map (fun c => trim_set (trim_space c) name_quotes) (let s := trim_space list in split_on 44 (S (length s)) s)).

Definition numbered (prefix : string) (table : bytes) (i : nat) : bytes := str prefix ++ table ++ str "_" ++ itoa (Z.of_nat i).
Definition foreign_key (table : bytes) (i : nat) (c : captures) : ForeignKeyInfo :=
  mkForeignKey (numbered "fk_" table i) (parseColumnList (group 1 c)) (trim_set (group 2 c) name_quotes) (parseColumnList (group 3 c)) (to_upper (group 4 c)) (to_upper (group 5 c)).
Definition column_level (columns : list bytes) (s : TableSchema) : bool :=
  existsb (fun col => match columns with [c] => bytes_eqb (CName col) c && IsUnique col | _ => false end) (SColumns s).
Definition unique_keys (s : TableSchema) (matches : list (bytes * captures)) : list UniqueKeyInfo :=
  flat_map (fun im => let columns := parseColumnList (group 1 im.2.2) in if column_level columns s then [] else [mkUniqueKey (numbered "uk_" (TableName s) im.1) columns])
    (imap (fun i m => (i, m)) matches).
(** As many as are found in the text in capitals, taken from the text. *)
Definition check_constraints (table createSQL : bytes) : list CheckInfo :=
  let orig := FindAllStringSubmatch checkRegex createSQL in
  flat_map (fun i => match orig !! i with Some m => [mkCheck (numbered "ck_" table i) (group 1 m.2)] | None => [] end)
    (List.seq 0 (length (FindAllStringSubmatch checkRegex (to_upper createSQL)))).
Definition parseConstraints (createSQL : bytes) (s : TableSchema) : TableSchema :=
  let s := set_foreign (ForeignKeys s ++ imap (fun i m => foreign_key (TableName s) i m.2) (FindAllStringSubmatch fkRegex createSQL)) s in
  let s := set_unique (UniqueKeys s ++ unique_keys s (FindAllStringSubmatch uniqueRegex createSQL)) s in
  let s := set_checks (CheckConstraints s ++ check_constraints (TableName s) createSQL) s in
  set_columns (map (fun c => if MatchString (colPattern (CName c)) createSQL then as_unique c else c) (SColumns s)) s.

(** ** Indexes *)

Definition contains_text (sub s : bytes) : bool := match index sub s with Some _ => true | None => false end.
(** Every column of the index is a column of the key at its place. *)
Definition same_columns (columns : list bytes) (k : UniqueKeyInfo) : bool :=
  forallb (fun ic => match UColumns k !! ic.1 with Some c => bytes_eqb c ic.2 | None => false end) (imap (fun i c => (i, c)) columns).
Definition of_unique_key (name : bytes) (columns : list bytes) (keys : list UniqueKeyInfo) : bool :=
  existsb (fun k => (contains_text (UName k) name || Nat.eqb (length (UColumns k)) (length columns)) && same_columns columns k) keys.
Definition index_row (s : TableSchema) (row : list GoData) : option TableSchema :=
  l ← mapM scan_text row;
  match l with
  | [name; sql] =>
    Some (match FindStringSubmatch (seq (in_parentheses 1)) sql with
          | Some c =>
            let columns := parseColumnList (group 1 c) in
            if negb (of_unique_key name columns (UniqueKeys s)) && negb (Nat.eqb (length columns) 0)
            then set_indexes (Indexes s ++ [mkIndex name columns (contains_text (str " UNIQUE ") (to_upper sql))]) s
            else s
          | None => s
          end)
  | _ => None
  end.
Definition getIndexes (db : Database) (table : bytes) (s : TableSchema) : option TableSchema := run_over db sqlite_indexes [table] index_row s.

(** The first row of a query for one text. *)
Definition one_text (db : Database) (sql : bytes) (args : list bytes) : option bytes :=
  r ← query db sql args; match answer_rows r with [d] :: _ => scan_text d | _ => None end.
Definition GetTableSchema (db : Database) (dbName table : bytes) : option TableSchema :=
  s ← getColumns db table (empty_schema table);
  createSQL ← one_text db sqlite_sql [table];
  getIndexes db table (parseConstraints createSQL s).

Definition ReadTable (db : Database) (dbName table : bytes) (offset limit : Z) : option (list (list GoData)) :=
  read_rows db (str "SELECT * FROM " ++ quoteIdentifier table ++ limit_offset limit offset).
Definition ReadTableCount (db : Database) (dbName table : bytes) : option Z := read_count db (str "SELECT COUNT(" ++ str "*) FROM " ++ quoteIdentifier table).

(** The importer, once it was connected with a name. *)
Definition SQLiteImporter (dsn : bytes) : Importer :=
  let db {A} (f : Database -> option A) : option A := d ← open_source dsn; f d in
  mkImporter (fun dsn => match open_source dsn with Some _ => true | None => false end)
    (fun dbName => db (fun d => ListTables d dbName)) (fun dbName table => db (fun d => GetTableSchema d dbName table))
    (fun dbName table offset limit => db (fun d => ReadTable d dbName table offset limit)) (fun dbName table => db (fun d => ReadTableCount d dbName table)).
End Sqlite.
