(* ===== verification/SourcesSpec.v ===== *)
(** * What importers read from a catalogue and from tables

    The rows of a catalogue are put together to keys whatever the order of
    Go's maps; tables are read page by page; what no importer notices is that
    rows ended with an error. *)

From S2P Require Import Prelude GoLib Types RowCodec Page PageCache TableFile Crypto Json Wal Storage Functions Script Auth Ast Eval Select Dml Lexer Parser ParserDml Engine EngineExamples Converter Import ImportSpec Url Regex Sources Queries FromMysql FromPostgres FromMssql FromOracle FromSqlite.
Local Open Scope Z_scope.

(** ** Keys of a catalogue *)

Lemma in_map_order_values `{MapOrder} {A} (m : gmap bytes A) : in_map_order m ≡ₚ map snd (map_to_list m).
Proof.
  unfold in_map_order. rewrite key_order_perm.
  assert (Hall : forall k a, (k, a) ∈ map_to_list m -> m !! k = Some a) by (intros k a Hk; by apply elem_of_map_to_list).
  revert Hall. induction (map_to_list m) as [|[k a] l IH]; intros Hall; [done|]. cbn. rewrite (Hall k a) by left. constructor.
  apply IH. intros k' a' Hk. apply Hall. by right.
Qed.

Section Groups.
Context {R A : Type} (key : R -> bytes) (new : R -> A) (more : R -> A -> A).

(** Rows with the same key, in order, make one value. *)
Definition group_value (rows : list R) : option A :=
  match rows with [] => None | r :: rest => Some (fold_left (fun a r => more r a) rest (new r)) end.
Definition rows_of (c : bytes) : list R -> list R := base.filter (fun r => key r = c).
Definition grouped (rows : list R) (m : gmap bytes A) : gmap bytes A := fold_left (fun m r => add_row (key r) (new r) (more r) m) rows m.

Lemma grouped_lookup rows : forall m c,
  grouped rows m !! c = match m !! c with Some a => Some (fold_left (fun a r => more r a) (rows_of c rows) a) | None => group_value (rows_of c rows) end.
Proof.
  unfold grouped, rows_of. induction rows as [|r rows IH]; intros m c; cbn; [by destruct (m !! c)|]. rewrite IH. unfold add_row, filter. cbn.
  destruct (decide (key r = c)) as [<-|Hn].
  - rewrite lookup_insert_eq. cbn. by destruct (m !! key r).
  - by rewrite lookup_insert_ne.
Qed.
Lemma grouped_empty rows c : grouped rows ∅ !! c = group_value (rows_of c rows).
Proof. rewrite grouped_lookup. by rewrite lookup_empty. Qed.

Context (name : A -> bytes) (Hnew : forall r, name (new r) = key r) (Hmore : forall r a, name (more r a) = name a).

Lemma group_name rows c a : group_value (rows_of c rows) = Some a -> name a = c.
Proof.
  unfold group_value. destruct (rows_of c rows) as [|r rest] eqn:E; [done|]. intros [= <-].
  assert (Hr : r ∈ rows_of c rows) by (rewrite E; left). apply list_elem_of_filter in Hr as [Hr _].
  rewrite <- Hr, <- Hnew. generalize (new r). clear E. induction rest as [|r' rest IH]; intros a; cbn; [done|]. by rewrite IH, Hmore.
Qed.
Lemma grouped_values `{MapOrder} rows a : a ∈ in_map_order (grouped rows ∅) <-> group_value (rows_of (name a) rows) = Some a.
Proof.
  rewrite in_map_order_values, list_elem_of_fmap. split.
  - intros ([c a'] & -> & Ha). apply elem_of_map_to_list in Ha. rewrite grouped_empty in Ha. cbn. by rewrite (group_name _ _ _ Ha).
  - intros Ha. exists (name a, a). split; [done|]. apply elem_of_map_to_list. by rewrite grouped_empty.
Qed.
Lemma grouped_names `{MapOrder} rows : NoDup (map name (in_map_order (grouped rows ∅))).
Proof.
  rewrite in_map_order_values. assert (Hn : map name (map snd (map_to_list (grouped rows ∅))) = map fst (map_to_list (grouped rows ∅))).
  { rewrite map_map. apply map_ext_in. intros [c a] Ha. cbn. apply list_elem_of_In, elem_of_map_to_list in Ha. rewrite grouped_empty in Ha.
    by apply group_name in Ha. }
  rewrite Hn. apply NoDup_fst_map_to_list.
Qed.
End Groups.

(** A row of a catalogue of foreign keys. *)
Record Reference := mkReference { r_name : bytes; r_column : bytes; r_table : bytes; r_ref : bytes; r_delete : bytes; r_update : bytes }.
Definition reference_row (r : Reference) : list GoData := map GString [r_name r; r_column r; r_table r; r_ref r; r_delete r; r_update r].
Definition references_of (c : bytes) : list Reference -> list Reference := rows_of r_name c.
Definition new_key (r : Reference) : ForeignKeyInfo := mkForeignKey (r_name r) [r_column r] (r_table r) [r_ref r] (r_delete r) (r_update r).
Definition more_key (r : Reference) (k : ForeignKeyInfo) : ForeignKeyInfo :=
  mkForeignKey (FName k) (FColumns k ++ [r_column r]) (RefTable k) (RefColumns k ++ [r_ref r]) (OnDelete k) (OnUpdate k).

Lemma more_keys rest : forall k, fold_left (fun k r => more_key r k) rest k =
  mkForeignKey (FName k) (FColumns k ++ map r_column rest) (RefTable k) (RefColumns k ++ map r_ref rest) (OnDelete k) (OnUpdate k).
Proof. induction rest as [|r rest IH]; intros k; cbn; [rewrite !app_nil_r; by destruct k|]. rewrite IH. unfold more_key. cbn. by rewrite <- !app_assoc. Qed.

Section Mysql.
Context `{GoRuntime} `{Drivers} `{MapOrder}.

Lemma foreign_rows refs : forall m, over FromMysql.foreign_row (map reference_row refs) m = Some (grouped r_name new_key more_key refs m).
Proof. induction refs as [|r refs IH]; intros m; [done|]. cbn -[fk_row]. rewrite IH. done. Qed.

(** C16: when the catalogue of MySQL answers the references of a table,
    its foreign keys are one for each name, with the columns and the columns
    referred to in the order of the catalogue, and the table and the rules of
    its first reference: none is lost and none is there twice, whatever the
    order of Go's maps. *)
Theorem foreign_keys_grouped (refs : list Reference) (db : Database) (dbName table : bytes) (columns : list bytes) (broken : bool) :
  (let q := FromMysql.scoped mysql_foreign [table] "KCU.TABLE_SCHEMA" " ORDER BY KCU.CONSTRAINT_NAME, KCU.ORDINAL_POSITION" dbName in
   query db q.1 q.2 = Some (mkAnswer columns (map reference_row refs) broken)) ->
  exists l, FromMysql.getForeignKeys db dbName table = Some l /\ NoDup (map FName l) /\
    forall k, k ∈ l <-> exists r rest, references_of (FName k) refs = r :: rest /\
      k = mkForeignKey (r_name r) (map r_column (r :: rest)) (r_table r) (map r_ref (r :: rest)) (r_delete r) (r_update r).
Proof.
  cbv zeta. intros Hq. unfold FromMysql.getForeignKeys, FromMysql.run_scoped, run_over. rewrite Hq. cbn [mbind option_bind answer_rows]. rewrite foreign_rows.
  eexists. split; [reflexivity|]. split; [by apply (grouped_names r_name new_key more_key FName)|]. intros k.
  rewrite (grouped_values r_name new_key more_key FName) by done. unfold references_of, group_value. split.
  - destruct (rows_of r_name (FName k) refs) as [|r rest]; [done|]. rewrite more_keys. intros [= <-]. by exists r, rest.
  - intros (r & rest & -> & Hk). rewrite more_keys. by rewrite Hk.
Qed.
End Mysql.

(** ** Errors that end the rows *)

Section Broken.
Context `{GoRuntime} `{Drivers} `{MapOrder}.

(** The same rows for every query, whether an error ended them or not. *)
Record same_rows (db db' : Database) : Prop := {
  same_answer sql args : (fun r => (columns_ r, answer_rows r)) <$> query db sql args = (fun r => (columns_ r, answer_rows r)) <$> query db' sql args
}.

#[export] Instance same_rows_equivalence : Equivalence same_rows.
Proof.
  split; [by intros db|by intros db db' [Hd]; split|].
  intros d1 d2 d3 [H12] [H23]. split. intros sql args. by rewrite H12, H23.
Qed.
Lemma answer_same db db' sql args : same_rows db db' ->
  match query db sql args, query db' sql args with
  | Some r, Some r' => columns_ r = columns_ r' /\ answer_rows r = answer_rows r'
  | None, None => True
  | _, _ => False
  end.
Proof. intros [Hd]. specialize (Hd sql args). destruct (query db sql args), (query db' sql args); cbn in Hd; try done. by injection Hd. Qed.

Ltac by_answer sql args Hd :=
  let Ha := fresh "Ha" in
  pose proof (answer_same _ _ sql args Hd) as Ha;
  destruct (query _ sql args) as [[]|], (query _ sql args) as [[]|]; cbn in Ha |- *; try done; destruct Ha as [-> ->].
#[export] Instance run_over_proper {A} : Proper (same_rows ==> eq ==> eq ==> eq ==> eq ==> eq) (@run_over A).
Proof. intros db db' Hd sql ? <- args ? <- f ? <- a ? <-. unfold run_over. by by_answer sql args Hd. Qed.
#[export] Instance list_names_proper : Proper (same_rows ==> eq ==> eq ==> eq) list_names.
Proof. intros db db' Hd sql ? <- args ? <-. unfold list_names. by rewrite Hd. Qed.
#[export] Instance read_rows_proper : Proper (same_rows ==> eq ==> eq) read_rows.
Proof. intros db db' Hd sql ? <-. unfold read_rows. by by_answer sql (@nil bytes) Hd. Qed.
#[export] Instance read_count_proper : Proper (same_rows ==> eq ==> eq) read_count.
Proof. intros db db' Hd sql ? <-. unfold read_count. by by_answer sql (@nil bytes) Hd. Qed.
#[export] Instance one_text_proper : Proper (same_rows ==> eq ==> eq ==> eq) one_text.
Proof. intros db db' Hd sql ? <- args ? <-. unfold one_text. by by_answer sql args Hd. Qed.

Lemma bind_same {A B} (m m' : option A) (k k' : A -> option B) : m = m' -> (forall a, k a = k' a) -> m ≫= k = m' ≫= k'.
Proof. intros -> Hk. destruct m'; [apply Hk|done]. Qed.

Ltac by_steps := repeat match goal with |- mbind _ _ = mbind _ _ => apply bind_same; [|intros ?] end.

(** What an importer does with a connection. *)
Record Reader := mkReader {
  list_tables : Database -> bytes -> option (list bytes);
  table_schema : Database -> bytes -> bytes -> option TableSchema;
  table_page : Database -> bytes -> bytes -> Z -> Z -> option (list (list GoData));
  table_count : Database -> bytes -> bytes -> option Z
}.
Definition readers : list Reader := [
  mkReader FromMysql.ListTables FromMysql.GetTableSchema FromMysql.ReadTable FromMysql.ReadTableCount;
  mkReader FromPostgres.ListTables FromPostgres.GetTableSchema FromPostgres.ReadTable FromPostgres.ReadTableCount;
  mkReader FromSqlite.ListTables FromSqlite.GetTableSchema FromSqlite.ReadTable FromSqlite.ReadTableCount;
  mkReader FromOracle.ListTables FromOracle.GetTableSchema FromOracle.ReadTable FromOracle.ReadTableCount;
  mkReader FromMssql.ListTables FromMssql.GetTableSchema FromMssql.ReadTable FromMssql.ReadTableCount].

Lemma mysql_schema_same db db' dbName table : same_rows db db' -> FromMysql.GetTableSchema db dbName table = FromMysql.GetTableSchema db' dbName table.
Proof.
  intros Hd. unfold FromMysql.GetTableSchema.
  assert (Hc : FromMysql.getCheckConstraints db dbName table = FromMysql.getCheckConstraints db' dbName table).
  { unfold FromMysql.getCheckConstraints. set (q := FromMysql.scoped _ _ _ _ _). by by_answer q.1 q.2 Hd. }
  rewrite Hc. by_steps; try done;
    unfold FromMysql.getColumns, FromMysql.getPrimaryKeys, FromMysql.getForeignKeys, FromMysql.getUniqueKeys, FromMysql.getIndexes, FromMysql.run_scoped; by rewrite Hd.
Qed.
Lemma postgres_schema_same db db' dbName table : same_rows db db' -> FromPostgres.GetTableSchema db dbName table = FromPostgres.GetTableSchema db' dbName table.
Proof.
  intros Hd. unfold FromPostgres.GetTableSchema. by_steps;
    unfold FromPostgres.getColumns, FromPostgres.getPrimaryKeys, FromPostgres.getForeignKeys, FromPostgres.getUniqueKeys, FromPostgres.getCheckConstraints, FromPostgres.getIndexes; by rewrite Hd.
Qed.
Lemma sqlite_schema_same db db' dbName table : same_rows db db' -> FromSqlite.GetTableSchema db dbName table = FromSqlite.GetTableSchema db' dbName table.
Proof.
  intros Hd. unfold FromSqlite.GetTableSchema. by_steps;
    unfold FromSqlite.getColumns, FromSqlite.getIndexes; by rewrite Hd.
Qed.
Lemma oracle_schema_same db db' dbName table : same_rows db db' -> FromOracle.GetTableSchema db dbName table = FromOracle.GetTableSchema db' dbName table.
Proof.
  intros Hd. unfold FromOracle.GetTableSchema. by_steps;
    unfold FromOracle.getColumns, FromOracle.getPrimaryKeys, FromOracle.getForeignKeys, FromOracle.getUniqueKeys, FromOracle.getCheckConstraints, FromOracle.getIndexes; by rewrite Hd.
Qed.
Lemma mssql_schema_same db db' dbName table : same_rows db db' -> FromMssql.GetTableSchema db dbName table = FromMssql.GetTableSchema db' dbName table.
Proof.
  intros Hd. unfold FromMssql.GetTableSchema. by_steps;
    unfold FromMssql.getColumns, FromMssql.getPrimaryKeys, FromMssql.getForeignKeys, FromMssql.getUniqueKeys, FromMssql.getCheckConstraints, FromMssql.getIndexes, FromMssql.run_scoped; by rewrite Hd.
Qed.
Lemma oracle_page_same db db' dbName table off lim : same_rows db db' -> FromOracle.ReadTable db dbName table off lim = FromOracle.ReadTable db' dbName table off lim.
Proof. intros Hd. unfold FromOracle.ReadTable. by by_answer (page_query table off lim) (@nil bytes) Hd. Qed.

(** C22: no importer notices that an error ended the rows of a query
    early: the tables, the schema, the rows of a page and the count are those
    of a connection that ends the rows there without an error. *)
Theorem broken_rows_unnoticed (r : Reader) (db db' : Database) (dbName table : bytes) (offset limit : Z) :
  r ∈ readers -> same_rows db db' ->
  list_tables r db dbName = list_tables r db' dbName /\ table_schema r db dbName table = table_schema r db' dbName table /\
  table_page r db dbName table offset limit = table_page r db' dbName table offset limit /\ table_count r db dbName table = table_count r db' dbName table.
Proof.
  intros Hr Hd. unfold readers in Hr.
  repeat (apply elem_of_cons in Hr as [-> | Hr]); [..|by apply not_elem_of_nil in Hr]; cbn -[FromMysql.GetTableSchema FromPostgres.GetTableSchema];
    (split_and!; [ |auto using mysql_schema_same, postgres_schema_same, sqlite_schema_same, oracle_schema_same, mssql_schema_same| | ]);
    unfold FromMysql.ListTables, FromPostgres.ListTables, FromSqlite.ListTables, FromOracle.ListTables, FromMssql.ListTables,
      FromMysql.ReadTable, FromPostgres.ReadTable, FromSqlite.ReadTable, FromMssql.ReadTable,
      FromMysql.ReadTableCount, FromPostgres.ReadTableCount, FromSqlite.ReadTableCount, FromOracle.ReadTableCount, FromMssql.ReadTableCount;
    auto using oracle_page_same; by rewrite Hd.
Qed.
End Broken.

(** ** Tables page by page *)

Section Pages.
Context `{GoRuntime} `{Drivers} `{MapOrder}.

(** A server that answers, for an offset and a limit among the rows, that part
    of them. The queries of MySQL, PostgreSQL and SQLite name no order, so that
    the servers do not promise this: two pages may be of different orders. *)
Definition answers_pages (db : Database) (sql : Z -> Z -> bytes) (columns : list bytes) (rows : list (list GoData)) : Prop :=
  Forall (fun row => length row = length columns) rows /\
  forall offset limit, 0 <= offset -> 0 < limit -> offset + limit <= zlen rows ->
    query db (sql offset limit) [] = Some (mkAnswer columns (take (Z.to_nat limit) (drop (Z.to_nat offset) rows)) false).
Definition page (offset limit : Z) {A} (rows : list A) : list A := take (Z.to_nat limit) (drop (Z.to_nat offset) rows).
Definition text_rows : list (list GoData) -> list (list GoData) := map (map text_value).

Lemma page_text offset limit rows : page offset limit (text_rows rows) = text_rows (page offset limit rows).
Proof. unfold page, text_rows. by rewrite skipn_map, firstn_map. Qed.
Lemma over_rows n rows : forall l, Forall (fun row : list GoData => length row = n) rows ->
  over (fun l row => if Nat.eqb (length row) n then Some (l ++ [map text_value row]) else None) rows l = Some (l ++ text_rows rows).
Proof.
  induction rows as [|row rows IH]; intros l Hr; cbn; [by rewrite app_nil_r|]. apply Forall_cons in Hr as [Hn Hr].
  rewrite (proj2 (Nat.eqb_eq _ _) Hn). cbn. rewrite IH by done. by rewrite <- app_assoc.
Qed.
Lemma page_lengths n offset limit rows : Forall (fun row : list GoData => length row = n) rows -> Forall (fun row => length row = n) (page offset limit rows).
Proof. intros Hr. by apply Forall_take, Forall_drop. Qed.

Lemma read_page db sql columns rows offset limit : answers_pages db sql columns rows -> 0 <= offset -> 0 < limit -> offset + limit <= zlen rows ->
  read_rows db (sql offset limit) = Some (page offset limit (text_rows rows)).
Proof.
  intros [Hr Hq] Ho Hl Hn. unfold read_rows. rewrite Hq by done. cbn. rewrite over_rows by by apply page_lengths. by rewrite page_text.
Qed.

Lemma mysql_page db dbName table columns rows offset limit :
  answers_pages db (fun offset limit => str "SELECT * FROM " ++ table_name dbName table ++ limit_offset limit offset) columns rows -> 0 <= offset -> 0 < limit -> offset + limit <= zlen rows ->
  FromMysql.ReadTable db dbName table offset limit = Some (page offset limit (text_rows rows)).
Proof. apply read_page. Qed.
Lemma postgres_page db dbName table columns rows offset limit :
  answers_pages db (fun offset limit => str "SELECT * FROM " ++ FromPostgres.quoteIdentifier table ++ limit_offset limit offset) columns rows -> 0 <= offset -> 0 < limit -> offset + limit <= zlen rows ->
  FromPostgres.ReadTable db dbName table offset limit = Some (page offset limit (text_rows rows)).
Proof. apply read_page. Qed.
Lemma sqlite_page db dbName table columns rows offset limit :
  answers_pages db (fun offset limit => str "SELECT * FROM " ++ FromSqlite.quoteIdentifier table ++ limit_offset limit offset) columns rows -> 0 <= offset -> 0 < limit -> offset + limit <= zlen rows ->
  FromSqlite.ReadTable db dbName table offset limit = Some (page offset limit (text_rows rows)).
Proof. apply read_page. Qed.

(** Oracle numbers the rows in a column of its own. *)
Definition numbered_rows (rows : list (list GoData)) : list (list GoData) := imap (fun i row => row ++ [GInt KInt64 (Z.of_nat i + 1)]) rows.
Lemma oracle_rows n rows : forall k l, Forall (fun row : list GoData => length row = n) rows ->
  over (fun l row => if Nat.eqb (length row) (S n) then Some (l ++ [map text_value (take n row)]) else None) (imap (fun i row => row ++ [GInt KInt64 (Z.of_nat (k + i) + 1)]) rows) l
  = Some (l ++ text_rows rows).
Proof.
  induction rows as [|row rows IH]; intros k l Hr; cbn; [by rewrite app_nil_r|]. apply Forall_cons in Hr as [Hn Hr].
  rewrite length_app. cbn [length]. rewrite (proj2 (Nat.eqb_eq _ _)) by lia. cbn. rewrite take_app_length' by done.
  rewrite (imap_ext _ (fun i row => row ++ [GInt KInt64 (Z.of_nat (S k + i) + 1)])) by (intros; cbn; do 3 f_equal; lia).
  rewrite IH by done. by rewrite <- app_assoc.
Qed.
Lemma oracle_page db dbName table columns rn rows offset limit :
  answers_pages db (fun offset limit => FromOracle.page_query table offset limit) (columns ++ [rn]) (numbered_rows rows) ->
  Forall (fun row => length row = length columns) rows -> 0 <= offset -> 0 < limit -> offset + limit <= zlen rows ->
  FromOracle.ReadTable db dbName table offset limit = Some (page offset limit (text_rows rows)).
Proof.
  intros [_ Hq] Hr Ho Hl Hn. unfold FromOracle.ReadTable. rewrite Hq by (done || by unfold zlen, numbered_rows in *; rewrite ?length_imap). cbn [mbind option_bind columns_ answer_rows]. rewrite length_app. cbn [length].
  replace (pred (length columns + 1)) with (length columns) by lia. rewrite page_text.
  assert (Hp : take (Z.to_nat limit) (drop (Z.to_nat offset) (numbered_rows rows))
    = imap (fun i row => row ++ [GInt KInt64 (Z.of_nat (Z.to_nat offset + i) + 1)]) (page offset limit rows)).
  { unfold numbered_rows, page. apply list_eq. intros i. destruct (decide (i < Z.to_nat limit)%nat).
    - rewrite lookup_take_lt, lookup_drop, !list_lookup_imap, lookup_take_lt, lookup_drop by done. done.
    - rewrite lookup_take_ge, list_lookup_imap, lookup_take_ge by lia. done. }
  rewrite Hp. rewrite oracle_rows by by apply page_lengths. done.
Qed.
End Pages.

(** ** A shop in MySQL *)

Definition staff_rows : list (list GoData) :=
  [[GInt KInt64 1; GBytes (str "o'neil")]; [GInt KInt64 2; GNil]; [GInt KInt64 3; GBytes (str "cyd")]].
Definition staff_page (offset limit : Z) : bytes := str "SELECT * FROM `shop`.`staff`" ++ limit_offset limit offset.
Definition text_row (l : list string) : list GoData := map (fun s => GString (str s)) l.
Definition for_staff (sql : bytes) (column after : string) : bytes := (FromMysql.scoped sql [] column after (str "shop")).1.
(** Where a page ends early, and the answers of the catalogue. *)
Definition shop_answers (cut : nat) : list (bytes * Answer) :=
  [(for_staff mysql_columns "TABLE_SCHEMA" " ORDER BY ORDINAL_POSITION",
    mkAnswer [] [text_row ["id"; "int(11)"; "NO"; "PRI"]%string ++ [GNil; GString []]; text_row ["name"; "varchar(20)"; "YES"; ""]%string ++ [GNil; GString []]] false);
   (for_staff mysql_primary "TABLE_SCHEMA" " ORDER BY ORDINAL_POSITION", mkAnswer [] [text_row ["id"; "PRIMARY"]%string] false);
   (for_staff mysql_foreign "KCU.TABLE_SCHEMA" " ORDER BY KCU.CONSTRAINT_NAME, KCU.ORDINAL_POSITION", mkAnswer [] [] false);
   (for_staff mysql_unique "TC.TABLE_SCHEMA" " ORDER BY TC.CONSTRAINT_NAME, KCU.ORDINAL_POSITION", mkAnswer [] [] false);
   (for_staff mysql_indexes "TABLE_SCHEMA" " ORDER BY INDEX_NAME, SEQ_IN_INDEX", mkAnswer [] [] false);
   (str "SELECT COUNT(" ++ str "*) FROM `shop`.`staff`", mkAnswer [str "n"] [[GInt KInt64 3]] false)]
  ++ flat_map (fun offset => map (fun limit => (staff_page offset limit, mkAnswer [str "id"; str "name"] (take cut (page offset limit staff_rows)) (Nat.ltb cut 3))) [1; 2; 3]) [0; 1; 2].
Definition shop_server (cut : nat) : Database := mkDatabase (fun sql args => snd <$> List.find (fun a => bytes_eqb a.1 sql) (shop_answers cut)).
Definition shop_drivers (cut : nat) : Drivers :=
  {| open_db driver dsn := if bytes_eqb driver (str "mysql") && bytes_eqb dsn (str "u:p@tcp(h:3306)/shop") then Some (shop_server cut) else None; other_text _ := [] |}.
Definition shop_config : ImportConfig := mkImport (str "mysql") (str "u:p@h:3306/shop") (str "shop") (str "staff") [] 2 false true.
Definition mysql_only `{GoRuntime} `{Drivers} `{MapOrder} (dsn t : bytes) : option Importer := if bytes_eqb t (str "mysql") then Some (MySQLImporter dsn) else None.

Section ShopExamples.
#[local] Existing Instance shop_drivers.

Definition imported_shop (cut : nat) : outcome ImportError ImportResult * Engine :=
  ImportTable no_text 10 (@mysql_only _ (shop_drivers cut) _ (str "u:p@h:3306/shop")) shop_config memory_engine.
Example shop_imported : shown (Engine.Execute 10 (str "SELECT id, name FROM staff") (imported_shop 3).2).1 = rows [["1"; "o'neil"]; ["2"; "NULL"]; ["3"; "cyd"]]%string.
Proof. vm_compute. reflexivity. Qed.
(** Pages that an error ends after one row: a row is lost, and no error is
    reported. *)
Example rows_lost : (imported_shop 1).1 = Ok (mkImportResult 1 2 [] []) /\
  shown (Engine.Execute 10 (str "SELECT id FROM staff") (imported_shop 1).2).1 = rows [["1"]; ["3"]]%string.
Proof. vm_compute. split; reflexivity. Qed.

Lemma broken_rows_unnoticed_witness :
  @table_page (@hd _ (mkReader (fun _ _ => None) (fun _ _ _ => None) (fun _ _ _ _ _ => None) (fun _ _ _ => None)) (@readers _ (shop_drivers 1) _)) (shop_server 1) (str "shop") (str "staff") 0 2
  = Some [[GInt KInt64 1; GString (str "o'neil")]].
Proof.
  set (whole := mkDatabase (fun sql args => (fun r => mkAnswer (columns_ r) (answer_rows r) false) <$> query (shop_server 1) sql args)).
  assert (Hs : same_rows (shop_server 1) whole) by (split; intros sql args; unfold whole; cbn [query]; destruct (query (shop_server 1) sql args) as [[]|]; reflexivity).
  destruct (@broken_rows_unnoticed _ (shop_drivers 1) _ _ (shop_server 1) whole (str "shop") (str "staff") 0 2 ltac:(left) Hs) as (_ & _ & Hp & _).
  etransitivity; [exact Hp|]. vm_compute. reflexivity.
Defined.

(** Two keys, one of two columns. *)
Definition order_references : list Reference :=
  [mkReference (str "fk_a") (str "shop") (str "shops") (str "id") (str "CASCADE") (str "NO ACTION");
   mkReference (str "fk_b") (str "c1") (str "items") (str "k1") (str "RESTRICT") (str "RESTRICT");
   mkReference (str "fk_b") (str "c2") (str "items") (str "k2") (str "RESTRICT") (str "RESTRICT")].
Definition order_server : Database := mkDatabase (fun _ _ => Some (mkAnswer [] (map reference_row order_references) false)).

Lemma foreign_keys_grouped_witness : exists l, @FromMysql.getForeignKeys (shop_drivers 3) _ order_server (str "shop") (str "orders") = Some l /\
  mkForeignKey (str "fk_b") [str "c1"; str "c2"] (str "items") [str "k1"; str "k2"] (str "RESTRICT") (str "RESTRICT") ∈ l.
Proof.
  destruct (@foreign_keys_grouped (shop_drivers 3) _ order_references order_server (str "shop") (str "orders") [] false eq_refl) as (l & Hl & _ & Hk).
  exists l. split; [exact Hl|]. apply Hk. eexists _, _. split; vm_compute; reflexivity.
Defined.
End ShopExamples.

(** ** Tables of SQLite *)

Section SqliteExamples.
#[local] Existing Instance plain_runtime.

Definition lite_columns (l : list string) : TableSchema :=
  set_columns (map (fun n => mkColumnInfo (str n) (str "TEXT") TypeText 0 true false false GNil) l) (empty_schema (str "t")).
Definition lite (sql : string) (l : list string) : TableSchema := parseConstraints (str sql) (lite_columns l).

Example lite_keys :
  let s := lite "CREATE TABLE t (a INTEGER, b TEXT UNIQUE, c INT, FOREIGN KEY (a, c) REFERENCES u (x, [y]) ON DELETE SET NULL, UNIQUE (a, b), CHECK (c > 1))" ["a"; "b"; "c"]%string in
  ForeignKeys s = [mkForeignKey (str "fk_t_0") [str "a"; str "c"] (str "u") [str "x"; str "y"] (str "SET NULL") []] /\
  UniqueKeys s = [mkUniqueKey (str "uk_t_0") [str "a"; str "b"]] /\
  CheckConstraints s = [mkCheck (str "ck_t_0") (str "c > 1")] /\ map IsUnique (SColumns s) = [false; true; false].
Proof. vm_compute. split_and!; reflexivity. Qed.
(** The UNIQUE of a column whose type has a length is not found. *)
Example lite_unique_lost : map IsUnique (SColumns (lite "CREATE TABLE t (a VARCHAR(10) UNIQUE)" ["a"]%string)) = [false].
Proof. vm_compute. reflexivity. Qed.
(** A CHECK with a call ends at the parenthesis of the call. *)
Example lite_check_cut : map Definition_ (CheckConstraints (lite "CREATE TABLE t (a TEXT, CHECK (length(a) > 3))" ["a"]%string)) = [str "length(a"].
Proof. vm_compute. reflexivity. Qed.
(** A reference to a table whose name is in brackets is not found. *)
Example lite_reference_lost : ForeignKeys (lite "CREATE TABLE t (a TEXT, FOREIGN KEY (a) REFERENCES [u] (x))" ["a"]%string) = [].
Proof. vm_compute. reflexivity. Qed.

(** The name of a URL of Oracle gets its scheme once more. *)
Example oracle_scheme_twice : FromOracle.connection_text (str "oracle://u:p@h:1521/x") = str "oracle://oracle://u:p@h:1521/x".
Proof. vm_compute. reflexivity. Qed.
(** A password with an at sign is cut at its first one. *)
Example mysql_at_sign : convertDSN (str "u:a@b@h:3306/shop") = str "u:a@tcp(b@h:3306)/shop".
Proof. vm_compute. reflexivity. Qed.
(** What remains of the name of a PostgreSQL source is no URL any more. *)
Example postgres_scheme_lost : ParseSourceDSN (str "postgresql://u:p@h:5432/shop?sslmode=disable") = Some (str "postgresql", str "u:p@h:5432/shop?sslmode=disable", str "shop").
Proof. vm_compute. reflexivity. Qed.
End SqliteExamples.
