(* ===== verification/Migration.v ===== *)
(** * Migration of databases (storage/migration.go)

    Databases of the first format keep their rows in the metadata file.
    Migrating writes them into table files and saves the metadata without
    them; the old text stays as a copy. Writing the metadata and the copy does
    not fail here. Also what opens, closes and flushes the table files of a
    storage. *)

From S2P Require Import Prelude GoLib Types Page PageCache TableFile Crypto Json Wal Storage Functions Eval FileSys Keys.
Local Open Scope Z_scope.

Definition VersionV1 : Z := 2.

(** The text of the file in both formats: the version and the number of
    tables that have rows, and the text that is written with the new version. *)
Class MigrationJSON := {
  parse_version : bytes -> option (Z * nat);
  new_json : MetaFile -> bytes
}.

Inductive MigrationError :=
  | ReadMetaFailed | DecryptMetaFailed (e : CryptoError) | ParseMetaFailed
  | CreateFailed (table : bytes) (e : TFError) | RowsUnreadable (table : bytes) | RowFailed (table : bytes) (e : TFError) | FlushFailed (table : bytes) (e : TFError).
(** A database and the copy of its old metadata. *)
Record Old := mkOld { vault : Vault; backup : option bytes }.

Section Migration.
Context `{GoRuntime} `{JSONRuntime} `{RecordJSON} `{Environment} `{ColumnJSON} `{MetadataJSON} `{MigrationJSON} `{MapOrder}.

Abbreviation MM := (SO Old MigrationError).

Definition NeedsMigration (v : Vault) : bool :=
  Storage.enabled (db v) &&
  match metaFile v with
  | None => false
  | Some data =>
    if (8 <? length data)%nat && has_prefix (str "XXLDBENC") data then false
    else match parse_version data with Some (version, rows) => (version <=? VersionV1) && (0 <? rows)%nat | None => false end
  end.

(** ** Values and rows of the first format *)

Definition parseValue (v : json) (columns : list ColumnDef) (i : nat) : Value :=
  let colType := match columns !! i with Some c => CType c | None => TypeUnknown end in
  let generic :=
    match v with
    | JNull => NewNullValue
    | JStr s => NewStringValue s
    | JFloat val =>
      if (colType =? TypeInt) || (colType =? TypeSeq) then NewIntValue (float_to_int64 val)
      else if colType =? TypeFloat then NewFloatValue val
      else if float_eq val (float_of_Z (float_to_int64 val)) then NewIntValue (float_to_int64 val) else NewFloatValue val
    | JInt n => NewIntValue n
    | JBool b => NewBoolValue b
    | JArr _ | JObj _ => NewStringValue (sprint_json v)
    end in
  match v with
  | JArr [JFloat marker; JFloat id; JFloat size] =>
    if float_eq marker (float_of_Z 1) then NewBlobRefValue (float_to_uint64 id) (float_to_int64 size) else generic
  | _ => generic
  end.
(** What is not a row is left out; none when there is no array. *)
Definition parse_row (columns : list ColumnDef) (row : json) : list (list Value) :=
  match row with
  | JArr (_ :: JArr values :: _) => [imap (fun i v => parseValue v columns i) values]
  | _ => []
  end.
Definition parseRowsData (rows : json) (columns : list ColumnDef) : option (list (list Value)) :=
  match rows with JArr l => Some (flat_map (parse_row columns) l) | _ => None end.
(** The rows of a table as the file has them. *)
Definition rows_tree (rows : list (Z * list json)) : json := decoded (JArr (map (fun r => JArr [JInt r.1; JArr r.2]) rows)).

(** ** Tables *)

Fixpoint insert_rows (rows : list (list Value)) : TF unit :=
  match rows with [] => mret tt | row :: rows => TableFile.InsertRow row;; insert_rows rows end.
(** The rows and the pages of a new file; [order] are the pages as they are
    flushed. The file is closed in every case. *)
Definition fill_file (order : list Z) (name : bytes) (rows : option (list (list Value))) : SO TableFile TFError (unit + MigrationError) :=
  r ← match rows with
      | None => mret (inr (RowsUnreadable name))
      | Some rows =>
        r ← try (insert_rows rows);
        match r with
        | inr e => mret (inr (RowFailed name e))
        | inl _ => r ← try (TableFile.Flush order); mret (match r with inl _ => inl tt | inr e => inr (FlushFailed name e) end)
        end
      end;
  try (TableFile.Close order);; mret r.
(** The file of a table, which must not be there before. *)
Definition migrate_table (order : list Z) (name : bytes) (t : STable) (rows : option (list (Z * list json))) : MM unit := fun o =>
  let s := db (vault o) in
  match TableFile.CreateTableFile (disk s !! name) (TID (info t)) (Some (Columns (info t))) (Some (pageCache s)) (snextID s) with
  | Ok tf =>
    let data := match rows with None => Some [] | Some rows => parseRowsData (rows_tree rows) (Columns (info t)) end in
    let '(r, tf) := fill_file order name data tf in
    let s := set_snextID (nextID tf) (set_pageCache (default (pageCache s) (cache tf)) (set_disk (<[name := file tf]> (disk s)) s)) in
    (match r with Ok (inl _) => Ok tt | Ok (inr e) => Err e | Err e => Err (RowFailed name e) | Panic => Panic | Hang => Hang end,
     mkOld (set_db s (vault o)) (backup o))
  | Err e => (Err (CreateFailed name e), o)
  | Panic => (Panic, o)
  | Hang => (Hang, o)
  end.
Fixpoint migrate_tables (order : list Z) (m : Metadata) (names : list bytes) : MM unit :=
  match names with
  | [] => mret tt
  | name :: rest =>
    match m_tables m !! name with Some t => migrate_table order name t (m_rows m !! name) | None => mret tt end;;
    migrate_tables order m rest
  end.

(** ** The metadata *)

Definition old_text : MM bytes := fun o =>
  match metaFile (vault o) with
  | None => (Err ReadMetaFailed, o)
  | Some data =>
    match encryptor (db (vault o)) with
    | None => (Ok data, o)
    | Some e => (match DecryptFile e (Some data) with Ok d => Ok (default [] d) | Err x => Err (DecryptMetaFailed x) | Panic => Panic | Hang => Hang end, o)
    end
  end.
(** Without rows; the struct has no full-text indexes. *)
Definition migrated (f : MetaFile) : MetaFile :=
  let m := mf_meta f in mkMetaFile (mkMeta (m_tables m) (m_sequences m) (m_nextID m) ∅ (m_encrypted m)) (mf_auth f) None.
Definition Migrate (order : list Z) : MM unit :=
  data ← old_text;
  match parse_meta data with
  | None => fail ParseMetaFailed
  | Some f =>
    modify (fun o => mkOld (vault o) (Some data));;
    migrate_tables order (mf_meta f) (key_order (map fst (map_to_list (m_tables (mf_meta f)))));;
    modify (fun o =>
      let v := vault o in
      let text := new_json (migrated f) in
      mkOld (Keys.set_file (Some (match encryptor (db v) with Some e => default [] (EncryptFile (rand_at (walSeq (db v))) e (Some text)) | None => text end)) v) (backup o))
  end.
Definition AutoMigrate (order : list Z) : MM unit :=
  o ← gets id; if NeedsMigration (vault o) then Migrate order else mret tt.

(** ** Table files of a storage *)

Definition GetTableFile (name : bytes) : SM TableFile :=
  s ← gets id;
  match tableFiles s !! name with
  | Some tf => mret tf
  | None =>
    match tables s !! name with
    | None => fail NoTable
    | Some t =>
      match disk s !! name with
      | Some blocks => open_file name blocks
      | None => create_file name (TID (info t)) (Columns (info t))
      end
    end
  end.
Definition CloseTableFile (order : list Z) (name : bytes) : SM unit :=
  s ← gets id;
  match tableFiles s !! name with
  | None => mret tt
  | Some tf =>
    r ← try (run_tf name tf (TableFile.Close order));
    modify (fun s => set_tableFiles (delete name (tableFiles s)) s);;
    match r with inl _ => mret tt | inr e => fail e end
  end.
(** Every file is closed; the last error is answered. *)
Fixpoint close_all (order : list Z) (names : list bytes) (last : option StorageError) : SM unit :=
  match names with
  | [] => match last with None => mret tt | Some e => fail e end
  | name :: rest =>
    r ← try (CloseTableFile order name);
    close_all order rest (match r with inl _ => last | inr e => Some e end)
  end.
Definition CloseAllTableFiles (order : list Z) : SM unit :=
  s ← gets id; close_all order (key_order (map fst (map_to_list (tableFiles s)))) None.
(** ** Flushing *)

(** The first file, in the order of the map, that has a page of this number. *)
Fixpoint owner (names : list bytes) (files : gmap bytes TableFile) (pageID : Z) : option (bytes * TableFile) :=
  match names with
  | [] => None
  | name :: rest =>
    match files !! name with
    | Some tf => if pageID <? PageCount (header tf) then Some (name, tf) else owner rest files pageID
    | None => owner rest files pageID
    end
  end.
Definition flush_page (names : list bytes) (page : PageV2) (s : Storage) : option Storage :=
  '(name, tf) ← owner names (tableFiles s) (page_key page); Some (run_tf name tf (writePageToFileNoLock page) s).2.
Fixpoint flush_files (order : list Z) (names : list bytes) : SM unit :=
  match names with
  | [] => mret tt
  | name :: rest =>
    s ← gets id;
    match tableFiles s !! name with Some tf => run_tf name tf (TableFile.Flush order) | None => mret tt end;;
    flush_files order rest
  end.
(** The page, if any, that no file has; [order] is the order of the dirty pages. *)
Definition FlushAll (order : list Z) : SM (option Z) :=
  s ← gets id;
  let names := key_order (map fst (map_to_list (tableFiles s))) in
  let '(c, s, failed) := PageCache.Flush (flush_page names) order (pageCache s) s in
  modify (fun _ => set_pageCache c s);;
  match failed with Some pageID => mret (Some pageID) | None => flush_files order names;; mret None end.
Definition GetPageCacheStats (s : Storage) : list (string * Z) := PageCache.Stats (pageCache s).
End Migration.
