(* ===== verification/MigrationSpec.v ===== *)
(** * What a migration leaves

    The new metadata hold no rows, and the rows of a database are those of its
    metadata: a migrated database is opened without them. A database whose
    tables have files is not migrated. *)

From S2P Require Import Prelude GoLib Types Page PageCache TableFile Crypto Json Wal Storage Functions StorageSpec Eval EngineExamples FileSys Keys KeysSpec Migration.
Local Open Scope Z_scope.

Section Spec.
Context `{GoRuntime} `{JSONRuntime} `{RecordJSON} `{Environment} `{ColumnJSON} `{MetadataJSON} `{MigrationJSON} `{MapOrder}.
Context (sscan_int : bytes -> option Z).

(** What tables do to the files: no file of a table goes away, the metadata
    and the copy stay. *)
Definition keeps (o o' : Old) : Prop :=
  metaFile (vault o') = metaFile (vault o) /\ backup o' = backup o /\ encryptor (db (vault o')) = encryptor (db (vault o)) /\
  walSeq (db (vault o')) = walSeq (db (vault o)) /\ forall name, is_Some (disk (db (vault o)) !! name) -> is_Some (disk (db (vault o')) !! name).

#[export] Instance keeps_preorder : PreOrder keeps.
Proof.
  split; [by intros o; split_and!|]. intros o1 o2 o3 (E1 & E2 & E3 & E4 & E5) (F1 & F2 & F3 & F4 & F5). split_and!; [congruence..|]. auto.
Qed.
Lemma migrate_table_keeps order name t rows o : keeps o (migrate_table order name t rows o).2.
Proof.
  unfold migrate_table. destruct (TableFile.CreateTableFile _ _ _ _ _) as [tf|e| |]; try done. destruct (fill_file _ _ _ _) as [r tf']. cbn.
  split_and!; try done. intros name' Hn. cbn. destruct (decide (name = name')) as [->|Hne]; [rewrite lookup_insert_eq; by eexists|by rewrite lookup_insert_ne].
Qed.
Lemma migrate_tables_keeps order m names : forall o, keeps o (migrate_tables order m names o).2.
Proof.
  induction names as [|name names IH]; intros o; cbn; [done|]. destruct (m_tables m !! name) as [t|]; [|apply IH].
  pose proof (migrate_table_keeps order name t (m_rows m !! name) o) as Hk. unfold mbind, SO_bind.
  destruct (migrate_table order name t (m_rows m !! name) o) as [[]]; cbn in *; [|done..]. etrans; [exact Hk|apply IH].
Qed.
(** A file that is there makes it fail. *)
Lemma table_file_there order name t rows o : is_Some (disk (db (vault o)) !! name) -> (migrate_table order name t rows o).1 = Err (Migration.CreateFailed name FileExists).
Proof. unfold migrate_table, TableFile.CreateTableFile. by intros [b ->]. Qed.
Lemma tables_file_there order m name names : name ∈ names -> is_Some (m_tables m !! name) -> forall o,
  is_Some (disk (db (vault o)) !! name) -> (migrate_tables order m names o).1 <> Ok tt.
Proof.
  intros Hn [t Ht]. induction names as [|name' names IH]; [by apply not_elem_of_nil in Hn|]. intros o Hd. cbn. unfold mbind, SO_bind.
  assert (Hrest : name' = name \/ name ∈ names) by (apply elem_of_cons in Hn as []; auto).
  destruct (m_tables m !! name') as [t'|] eqn:Et.
  - pose proof (migrate_table_keeps order name' t' (m_rows m !! name') o) as (_ & _ & _ & _ & Hk). pose proof (table_file_there order name' t' (m_rows m !! name') o) as Hf.
    destruct (migrate_table order name' t' (m_rows m !! name') o) as [[[]| | |] o'] eqn:E; cbn in *; try done.
    destruct Hrest as [->|Hin]; [by specialize (Hf Hd)|]. apply IH; auto.
  - cbn. destruct Hrest as [->|Hin]; [congruence|]. by apply IH.
Qed.

Lemma old_text_state o : (old_text o).2 = o.
Proof. unfold old_text. destruct (metaFile (vault o)); [|done]. by destruct (encryptor (db (vault o))). Qed.

(** What the file holds, as it is read with the key. *)
Definition file_text (o : Old) : outcome MigrationError bytes := (old_text o).1.

(** A migration that succeeds writes metadata without rows and without
    full-text indexes, and keeps the old metadata as text that is not
    encrypted. *)
Lemma migrate_ok order o o' : Migrate order o = (Ok tt, o') ->
  exists data f, file_text o = Ok data /\ parse_meta data = Some f /\ backup o' = Some data /\
    metaFile (vault o') = Some (match encryptor (db (vault o)) with
                                | Some e => default [] (EncryptFile (rand_at (walSeq (db (vault o)))) e (Some (new_json (migrated f))))
                                | None => new_json (migrated f)
                                end).
Proof.
  unfold Migrate, file_text. intros Hm. apply bind_inv in Hm as (data & o1 & Ho & Hm).
  assert (o1 = o) as -> by (rewrite <- (old_text_state o); by rewrite Ho). rewrite Ho. destruct (parse_meta data) as [f|] eqn:Ep; [|done].
  rewrite bind_modify in Hm. apply bind_inv in Hm as (? & o2 & Ht & [= <-]).
  match type of Ht with ?m ?s = _ => pose proof (migrate_tables_keeps order (mf_meta f) (key_order (map fst (map_to_list (m_tables (mf_meta f))))) s) as Hk end.
  rewrite Ht in Hk. destruct Hk as (_ & Hb & He & Hw & _). cbn in Hb, He, Hw |- *. rewrite Hb, He, Hw. by eauto 8.
Qed.

Lemma load_no_rows f v name rows : m_rows (mf_meta f) = ∅ -> rowData (db v) = ∅ -> rowData (db (load_file sscan_int f v)) !! name = Some rows -> rows = [].
Proof.
  intros Hr Hd Hl. unfold load_file in Hl.
  assert (Hl' : rowData (Storage.loadMetadata sscan_int (mf_meta f) (db (set_pending false v))) !! name = Some rows).
  { destruct (mf_fts f), (m_encrypted (mf_meta f)), (mf_auth f); exact Hl. }
  clear Hl. unfold Storage.loadMetadata in Hl'. rewrite Hr in Hl'. cbn -[union_with] in Hl'. rewrite Hd, map_imap_empty, !fmap_empty in Hl'.
  rewrite !lookup_union_with, !lookup_empty, lookup_fmap in Hl'. destruct (m_tables (mf_meta f) !! name); cbn in Hl'; [by injection Hl' as <-|done].
Qed.

(** No row of a migrated database is found again: the metadata
    that a migration writes give every table no rows, although the rows are
    in its table files. The copy of the old metadata is not encrypted, even
    where the database is. *)
Theorem migration_loses_rows (order : list Z) (o o' : Old) : Migrate order o = (Ok tt, o') ->
  exists data f, file_text o = Ok data /\ parse_meta data = Some f /\ backup o' = Some data /\
    metaFile (vault o') = Some (match encryptor (db (vault o)) with
                                | Some e => default [] (EncryptFile (rand_at (walSeq (db (vault o)))) e (Some (new_json (migrated f))))
                                | None => new_json (migrated f)
                                end) /\
    forall v name rows, rowData (db v) = ∅ -> rowData (db (load_file sscan_int (migrated f) v)) !! name = Some rows -> rows = [].
Proof.
  intros Hm. destruct (migrate_ok order o o' Hm) as (data & f & Hd & Hp & Hb & Hf). exists data, f. split_and!; try done.
  intros v name rows. by apply load_no_rows.
Qed.

(** A database of which one table has a file is not migrated:
    its metadata stay as they are, and there is an error or worse. Creating a
    table makes its file. *)
Theorem table_file_stops_migration (order : list Z) (o : Old) (data : bytes) (f : MetaFile) (name : bytes) :
  file_text o = Ok data -> parse_meta data = Some f -> is_Some (m_tables (mf_meta f) !! name) -> is_Some (disk (db (vault o)) !! name) ->
  (Migrate order o).1 <> Ok tt /\ metaFile (vault (Migrate order o).2) = metaFile (vault o).
Proof.
  intros Hd Hp Ht Hf. unfold Migrate. assert (Ho : old_text o = (Ok data, o)) by (rewrite <- (old_text_state o) at 2; unfold file_text in Hd; rewrite <- Hd; by destruct (old_text o)).
  rewrite (bind_ok _ _ _ _ _ Ho), Hp, bind_modify. set (o1 := mkOld (vault o) (Some data)). set (names := key_order _).
  assert (Hn : name ∈ names).
  { unfold names. rewrite key_order_perm. destruct Ht as [t Ht]. apply list_elem_of_fmap. exists (name, t). split; [done|]. by apply elem_of_map_to_list. }
  pose proof (tables_file_there order (mf_meta f) name names Hn Ht o1 Hf) as Hne. pose proof (migrate_tables_keeps order (mf_meta f) names o1) as (Hm & _).
  unfold mbind, SO_bind. destruct (migrate_tables order (mf_meta f) names o1) as [[[]|e| |] o2]; cbn in *; done.
Qed.
End Spec.

(** ** A small database, migrated *)

#[local] Existing Instance plain_runtime.
#[local] Existing Instance plain_json.
#[local] Existing Instance plain_records.
#[local] Existing Instance plain_environment.
#[local] Existing Instance no_columns.
#[local] Existing Instance only_file.
#[local] Existing Instance insertion_order.
Definition third_format : MigrationJSON := {| parse_version t := Some (2, 1%nat); new_json f := str "{migrated database}" |}.
#[local] Existing Instance third_format.

Definition old_numbers : Old := mkOld (Keys.set_file (Some (str "{public database}")) plain_vault) None.
Definition pages_in_order : list Z := [1].

Lemma migration_loses_rows_witness :
  metaFile (vault (Migrate pages_in_order old_numbers).2) = Some (str "{migrated database}") /\ backup (Migrate pages_in_order old_numbers).2 = Some (str "{public database}").
Proof.
  assert (Hm : (Migrate pages_in_order old_numbers).1 = Ok tt) by (vm_compute; reflexivity).
  destruct (migration_loses_rows no_scan pages_in_order old_numbers (Migrate pages_in_order old_numbers).2 (run_answer _ _ Hm)) as (data & f & Hd & _ & Hb & Hf & _).
  rewrite Hb, Hf. split; [reflexivity|]. injection Hd as <-. reflexivity.
Defined.
Example needs_migration : NeedsMigration (vault old_numbers) = true.
Proof. vm_compute. reflexivity. Qed.

(** The rows are in the file of the table. *)
Definition migrated_file : list bytes := default [] (disk (db (vault (Migrate pages_in_order old_numbers).2)) !! numbers).
Example migrated_rows :
  match TableFile.OpenTableFile migrated_file (Some (NewPageCache DefaultPageCacheConfig)) 9 with
  | Ok tf => (TableFile.GetAllRowsWithIDs 5 5 tf).1
  | _ => Hang
  end = Ok [(5, [NewIntValue 7])].
Proof. vm_compute. reflexivity. Qed.

(** A table that the storage created has a file already. *)
Definition with_file : Old :=
  mkOld (set_db (set_disk {[ numbers := [[Byte.x00]] ]} (db (vault old_numbers))) (vault old_numbers)) None.
Lemma table_file_stops_migration_witness : (Migrate pages_in_order with_file).1 <> Ok tt.
Proof.
  assert (Hd : file_text with_file = Ok (str "{public database}")) by (vm_compute; reflexivity).
  refine (proj1 (table_file_stops_migration pages_in_order with_file (str "{public database}") (saved_file plain_vault None number_rows) numbers Hd _ _ _)).
  - vm_compute. reflexivity.
  - eexists. vm_compute. reflexivity.
  - eexists. vm_compute. reflexivity.
Defined.

(** A number of a column of texts becomes an integer, and a list a text. *)
Example values_of_the_first_format :
  parseRowsData (rows_tree [(1, [JInt 3; JArr [JInt 1; JInt 8; JInt 20]; JNull])]) [NewColumnDef (str "a") TypeVarchar 5] =
  Some [[NewIntValue 3; NewBlobRefValue 8 20; NewNullValue]].
Proof. vm_compute. reflexivity. Qed.

(** ** Flushing *)

(** Two tables, of which the page of the one that was written last is in the
    cache they share. *)
Definition name_column : ColumnDef := mkColumn (str "name") TypeVarchar 20 0 true None false false.
Definition two_tables : Storage :=
  let s := (CreateTable (str "a") [name_column] (NewStorage true 0)).2 in
  let s := (CreateTable (str "b") [name_column] s).2 in
  let s := (InsertRow (str "b") [NewStringValue (str "x")] s).2 in
  (InsertRow (str "a") [NewStringValue (str "y")] s).2.
Definition page_of (name : string) (s : Storage) : option bytes := (disk s !! str name) ≫= fun f => f !! 1%nat.
(** Were the page dirty, it would be written to the file of the other, which comes
    first in the map here. *)
Example flushed_to_another_table :
  let s := set_pageCache (PageCache.MarkDirty 1 (pageCache two_tables)) two_tables in
  bool_decide (page_of "a" s = page_of "b" s) = false /\
  bool_decide (page_of "b" (FlushAll [1] s).2 = page_of "a" s) = true.
Proof. vm_compute. split; reflexivity. Qed.
