(* ===== verification/Folders.v ===== *)
(** * Files and folders of the host (function/functions.go, storage/storage.go,
    executor/executor_dml.go)

    The functions that read and write files of the host, that pack folders
    into one value and unpack them, the backup of a database, which copies its
    files, and databases as directories. The operating system is a parameter; an error is its text. *)

From S2P Require Import Prelude GoLib Types Functions Eval Select Url FileSys.
Local Open Scope Z_scope.

(** An entry of a directory; its information may be gone by the time it is
    asked for. *)
Record DirEntry := mkDirEntry { d_name : bytes; d_isdir : bool; d_info : option (Z * bytes) }.   (* size, time of the last change *)
(** Package os on directories. *)
Class OsDirs (W : Type) := {
  os_mkdir_all : bytes -> SO W bytes unit;
  os_read_dir : bytes -> SO W bytes (list DirEntry);
  os_remove_all : bytes -> SO W bytes unit;
  is_not_exist : bytes -> bool
}.

#[warnings="-register-all"]
Inductive FolderEntry := mkEntry (name : bytes) (isDir : bool) (size : Z) (modTime : bytes) (content : bytes) (children : list FolderEntry).
(** encoding/json on folders, and %.1f. *)
Class FolderJSON := {
  marshal_folder : FolderEntry -> option bytes;
  unmarshal_folder : bytes -> option FolderEntry;
  fmt_1f : float64 -> bytes
}.
Definition children_of (e : FolderEntry) : list FolderEntry := let 'mkEntry _ _ _ _ _ c := e in c.

Section Host.
Context `{GoRuntime} {W : Type} `{OsFiles W} `{OsDirs W} `{FolderJSON}.

Abbreviation HM := (SO W bytes).
Definition HostFunction := list Value -> HM Value.
Definition requires {A} (name what : string) : HM A := fail (str name ++ str " requires " ++ str what).

(** ** Files *)

Definition one_argument (name what : string) (null : Value) (f : Value -> HM Value) : HostFunction := fun args =>
  match args with
  | [v] => if IsNull v then mret null else f v
  | _ => requires name what
  end.
Definition or_null (m : HM Value) : HM Value := r ← try m; mret (match r with inl v => v | inr _ => NewNullValue end).

Definition fnLoadFile : HostFunction := one_argument "LOAD_FILE" "1 argument" NewNullValue (fun v => or_null (d ← os_read_file (ToString v); mret (NewBlobValue d))).
Definition fnFileExists : HostFunction := one_argument "FILE_EXISTS" "1 argument" (NewIntValue 0) (fun v =>
  r ← try (os_stat (ToString v)); mret (NewIntValue (match r with inl _ => 1 | inr _ => 0 end))).
Definition fnFileSize : HostFunction := one_argument "FILE_SIZE" "1 argument" NewNullValue (fun v => or_null (i ← os_stat (ToString v); mret (NewIntValue (FSize i)))).
Definition fnLoadImage : HostFunction := one_argument "LOAD_IMAGE" "1 argument: file path" NewNullValue (fun v => or_null (d ← os_read_file (ToString v); mret (NewImageValue d))).
(** The bytes of a value; [no_bytes] for a BLOB that has none. *)
Definition value_bytes (no_bytes : outcome bytes bytes) (v : Value) : outcome bytes bytes :=
  if Type_ v =? TypeBlob then match Data v with GBytes b => Ok b | _ => no_bytes end else Ok (ToString v).
Definition fnSaveFile : HostFunction := fun args =>
  match args with
  | [path; content] =>
    if IsNull path || IsNull content then mret (NewIntValue 0)
    else
      data ← lift (value_bytes (Ok (ToString content)) content);
      r ← try (os_write_file (ToString path) data PermFile);
      mret (NewIntValue (match r with inl _ => 1 | inr _ => 0 end))
  | _ => requires "SAVE_FILE" "2 arguments: path and content"
  end.

(** ** Folders *)

Definition ten_megabytes : Z := 10 * 1024 * 1024.
(** The entries of a directory; [fuel] is how deep directories are followed.
    What cannot be read is left empty. *)
Fixpoint readFolderRecursive (fuel : nat) (path : bytes) : HM (list FolderEntry) :=
  match fuel with
  | O => lift Hang
  | S n =>
    entries ← os_read_dir path;
    (fix go (l : list DirEntry) : HM (list FolderEntry) :=
       match l with
       | [] => mret []
       | entry :: rest =>
         match d_info entry with
         | None => lift Panic
         | Some (size, time) =>
           let fullPath := path_join [path; d_name entry] in
           fe ← (if d_isdir entry
                 then r ← try (readFolderRecursive n fullPath);
                      mret (mkEntry (d_name entry) true size time [] (match r with inl c => c | inr _ => [] end))
                 else if size <? ten_megabytes
                      then r ← try (os_read_file fullPath); mret (mkEntry (d_name entry) false size time (match r with inl d => d | inr _ => [] end) [])
                      else mret (mkEntry (d_name entry) false size time [] []));
           fes ← go rest;
           mret (fe :: fes)
         end
       end) entries
  end.
Definition fnLoadFolder (fuel : nat) : HostFunction := one_argument "LOAD_FOLDER" "1 argument: folder path" NewNullValue (fun v =>
  or_null (
    entries ← readFolderRecursive fuel (ToString v);
    match marshal_folder (mkEntry (path_base (ToString v)) true 0 [] [] entries) with
    | Some d => mret (NewBlobValue d)
    | None => fail (str "json")
    end)).

(** Directories are made, files that have bytes are written. *)
Fixpoint write_entry (basePath : bytes) (e : FolderEntry) : HM unit :=
  let 'mkEntry name isDir _ _ content children := e in
  let fullPath := path_join [basePath; name] in
  if isDir then
    os_mkdir_all fullPath;;
    (fix go (l : list FolderEntry) : HM unit := match l with [] => mret tt | c :: rest => write_entry fullPath c;; go rest end) children
  else match content with [] => mret tt | _ => os_write_file fullPath content PermFile end.
Fixpoint writeFolderRecursive (basePath : bytes) (entries : list FolderEntry) : HM unit :=
  match entries with [] => mret tt | e :: rest => write_entry basePath e;; writeFolderRecursive basePath rest end.
Definition fnExportFolder : HostFunction := fun args =>
  match args with
  | [folder; target] =>
    if IsNull folder || IsNull target then mret (NewIntValue 0)
    else
      data ← lift (value_bytes Panic folder);
      let targetPath := ToString target in
      match unmarshal_folder data with
      | None => mret (NewIntValue 0)
      | Some root =>
        r ← try (os_mkdir_all targetPath;; writeFolderRecursive targetPath (children_of root));
        mret (NewIntValue (match r with inl _ => 1 | inr _ => 0 end))
      end
  | _ => requires "EXPORT_FOLDER" "2 arguments: folder_data and target_path"
  end.

Definition quotient (size unit : Z) : bytes := fmt_1f (fdiv (float_of_Z size) (float_of_Z unit)).
Definition formatSize (size : Z) : bytes :=
  if size <? 1024 then itoa size ++ str "B"
  else if size <? 1024 * 1024 then quotient size 1024 ++ str "KB"
  else if size <? 1024 * 1024 * 1024 then quotient size (1024 * 1024) ++ str "MB"
  else quotient size (1024 * 1024 * 1024) ++ str "GB".
Definition newline : bytes := [byte.of_Z 10].
Fixpoint list_entry (indent : nat) (e : FolderEntry) : bytes :=
  let 'mkEntry name isDir size _ _ children := e in
  let prefix := concat (replicate indent (str "  ")) in
  if isDir then prefix ++ str "[d] " ++ name ++ str "/" ++ newline ++ concat (map (list_entry (S indent)) children)
  else prefix ++ str "[f] " ++ name ++ str " (" ++ formatSize size ++ str ")" ++ newline.
Definition listFolderRecursive (indent : nat) (entries : list FolderEntry) : bytes := concat (map (list_entry indent) entries).
Fixpoint count_entry (e : FolderEntry) : nat :=
  let 'mkEntry _ isDir _ _ _ children := e in if isDir then list_sum (map count_entry children) else 1%nat.
Definition countFiles (entries : list FolderEntry) : nat := list_sum (map count_entry entries).
(** A function of a packed folder. *)
Definition of_folder (name : string) (f : FolderEntry -> Value) : HostFunction := one_argument name "1 argument: folder_data" NewNullValue (fun v =>
  data ← lift (value_bytes Panic v); mret (match unmarshal_folder data with Some root => f root | None => NewNullValue end)).
Definition fnListFolder : HostFunction := of_folder "LIST_FOLDER" (fun root => NewStringValue (listFolderRecursive 0 (children_of root))).
Definition fnFolderFiles : HostFunction := of_folder "FOLDER_FILES" (fun root => NewIntValue (Z.of_nat (countFiles (children_of root)))).

(** ** Backup *)

Definition copyFile (src dst : bytes) : HM unit := d ← os_read_file src; os_write_file dst d PermFile.
Fixpoint copyDir (fuel : nat) (src dst : bytes) : HM unit :=
  match fuel with
  | O => lift Hang
  | S n =>
    os_mkdir_all dst;;
    entries ← os_read_dir src;
    (fix go (l : list DirEntry) : HM unit :=
       match l with
       | [] => mret tt
       | entry :: rest =>
         let srcPath := path_join [src; d_name entry] in
         let dstPath := path_join [dst; d_name entry] in
         (if d_isdir entry then copyDir n srcPath dstPath else copyFile srcPath dstPath);;
         go rest
       end) entries
  end.
(** A source that is not there is no error. *)
Definition if_there (m : HM unit) : HM unit := r ← try m; match r with inr e => if is_not_exist e then mret tt else fail e | inl _ => mret tt end.
Definition MetaFileName : bytes := str "xxldb.meta".
Definition WALFileName : bytes := str "xxldb.wal".
Definition DataDirName : bytes := str "data".
(** The backup of a database with files; [path] is where they are. *)
Definition Backup (fuel : nat) (path backupPath : bytes) : HM unit :=
  os_mkdir_all backupPath;;
  if_there (copyFile (path_join [path; MetaFileName]) (path_join [backupPath; MetaFileName]));;
  if_there (copyFile (path_join [path; WALFileName]) (path_join [backupPath; WALFileName]));;
  if_there (copyDir fuel (path_join [path; DataDirName]) (path_join [backupPath; DataDirName])).
Definition executeBackup (fuel : nat) (path backupPath : bytes) : HM Result :=
  Backup fuel path backupPath;; mret (done_result (str "Database backed up to " ++ backupPath)).

(** ** Databases as directories

    [dataPath] is where the database is that is open. *)

Definition executeCreateDatabase (dataPath : bytes) (ifNotExists : bool) (dbName : bytes) : HM Result :=
  let dbPath := path_join [dataPath; dbName] in
  r ← try (os_stat dbPath);
  match r with
  | inl _ => if ifNotExists then mret (done_result (str "Database " ++ dbName ++ str " already exists")) else fail (str "database " ++ dbName ++ str " already exists")
  | inr _ =>
    r ← try (os_mkdir_all dbPath);
    match r with
    | inr e => fail (str "failed to create database: " ++ e)
    | inl _ => mret (done_result (str "Database " ++ dbName ++ str " created"))
    end
  end.
Definition executeDropDatabase (dataPath : bytes) (ifExists : bool) (dbName : bytes) : HM Result :=
  let dbPath := path_join [dataPath; dbName] in
  r ← try (os_stat dbPath);
  let missing := match r with inr e => is_not_exist e | inl _ => false end in
  if missing then
    if ifExists then mret (done_result (str "Database " ++ dbName ++ str " does not exist")) else fail (str "database " ++ dbName ++ str " does not exist")
  else
    r ← try (os_remove_all dbPath);
    match r with
    | inr e => fail (str "failed to drop database: " ++ e)
    | inl _ => mret (done_result (str "Database " ++ dbName ++ str " dropped"))
    end.
End Host.
