(* ===== verification/FoldersSpec.v ===== *)
(** * What unpacking a folder writes, and what a backup copies

    Unpacking a folder writes the files that it lists and no others; they are
    below the target where the names are plain. A backup of a database that
    is on a server copies nothing and reports success. *)

From S2P Require Import Prelude GoLib Types Functions Eval EngineExamples Url FileSys FileSysSpec Folders.
Local Open Scope Z_scope.

(** ** Paths *)

(** The name of one element of a path. *)
Definition plain_name (n : bytes) : Prop := no_slash n = true /\ special n = false.
(** An absolute path of a directory that is not the root. *)
Definition directory (base : bytes) : Prop := has_prefix slash base = true /\ path_clean base = base /\ base <> slash.
Definition inside (base q : bytes) : Prop := has_prefix (base ++ slash) q = true.

Lemma cut_slash p s : cut 47 (p ++ slash ++ s) = match cut 47 p with (a, Some rest) => (a, Some (rest ++ slash ++ s)) | (a, None) => (a, Some s) end.
Proof. induction p as [|b p IH]; cbn; [done|]. destruct (is_char 47 b); [done|]. cbn in IH. rewrite IH. by destruct (cut 47 p) as [a [rest|]]. Qed.
Lemma uncut p a : cut 47 p = (a, None) -> a = p.
Proof. revert a. induction p as [|b p IH]; intros a; cbn; [by intros [= <-]|]. destruct (is_char 47 b); [done|]. destruct (cut 47 p) as [u [v|]]; [done|]. intros [= <-]. f_equal. by apply IH. Qed.
Lemma cut_plain s : no_slash s = true -> cut 47 s = (s, None).
Proof. intros Hs. rewrite <- (app_nil_l s), cut_app by done. done. Qed.
Lemma split_slash s : no_slash s = true -> forall fuel fuel' p, (length p < fuel)%nat -> (length p + 1 < fuel')%nat ->
  split_on 47 fuel' (p ++ slash ++ s) = split_on 47 fuel p ++ [s].
Proof.
  intros Hs fuel. induction fuel as [|fuel IH]; intros [|fuel'] p H1 H2; [lia..|]. cbn [split_on]. rewrite cut_slash.
  destruct (cut 47 p) as [a [rest|]] eqn:E.
  - apply cut_shorter in E. cbn. by rewrite (IH fuel') by lia.
  - destruct fuel' as [|fuel']; [lia|]. cbn [split_on app]. by rewrite cut_plain.
Qed.

Lemma join_plain base n : directory base -> plain_name n -> path_join [base; n] = base ++ slash ++ n /\ directory (path_join [base; n]).
Proof.
  intros (Ha & Hc & Hr) [Hn Hs]. assert (Hb : base <> []) by (intros ->; done). assert (Hne : n <> []) by (intros ->; done).
  assert (Hclean : path_clean (base ++ slash ++ n) = base ++ slash ++ n).
  { unfold path_clean in *. assert (Hp : has_prefix slash (base ++ slash ++ n) = true) by (destruct base; [done|]; exact Ha). rewrite Hp, Ha in *.
    rewrite (split_slash n Hn (S (length base))) by (rewrite ?length_app; cbn; lia). rewrite clean_parts_app, (clean_plain _ _ _ Hs).
    cbn [rev]. destruct (clean_parts true [] (split_on 47 (S (length base)) base)) as [|p parts] eqn:E; [by rewrite <- Hc in Hr|].
    rewrite join_text_app by (cbn; by destruct (rev parts)). rewrite app_assoc. by rewrite Hc. }
  assert (Hj : path_join [base; n] = base ++ slash ++ n).
  { unfold path_join. cbn [List.filter]. rewrite !bool_decide_eq_false_2 by done. cbn [negb join_text map concat]. by rewrite app_nil_r. }
  rewrite Hj. split; [done|]. split_and!; [destruct base; [done|]; exact Ha|done|].
  intros Hx. apply (f_equal length) in Hx. rewrite !length_app in Hx. cbn in Hx. destruct base; [done|]. cbn in Hx. destruct n; cbn in Hx; [done|lia].
Qed.
Lemma inside_step base n q : inside (base ++ slash ++ n) q -> inside base q.
Proof.
  unfold inside, has_prefix, bytes_eqb. rewrite !bool_decide_eq_true. intros Hq. rewrite <- (take_drop (length ((base ++ slash ++ n) ++ slash)) q), Hq.
  rewrite <- !app_assoc. rewrite (app_assoc base slash). by rewrite take_app_length.
Qed.
Lemma inside_name base n : inside base (base ++ slash ++ n).
Proof. unfold inside, has_prefix, bytes_eqb. rewrite app_assoc, take_app_length. by apply bool_decide_eq_true. Qed.

(** ** Unpacking *)

(** Induction on packed folders, with the hypothesis for every entry inside. *)
Lemma folder_ind (P : FolderEntry -> Prop) :
  (forall name isDir size time content children, Forall P children -> P (mkEntry name isDir size time content children)) -> forall e, P e.
Proof.
  intros Hstep. fix IH 1. intros [name isDir size time content children]. apply Hstep.
  induction children as [|c children IHc]; constructor; [apply IH|exact IHc].
Qed.

(** The files that are written for an entry, and their bytes. *)
Fixpoint entry_files (base : bytes) (e : FolderEntry) : list (bytes * bytes) :=
  let 'mkEntry name isDir _ _ content children := e in
  let path := path_join [base; name] in
  if isDir then concat (map (entry_files path) children) else match content with [] => [] | _ => [(path, content)] end.
Definition folder_files (base : bytes) (entries : list FolderEntry) : list (bytes * bytes) := concat (map (entry_files base) entries).
Fixpoint plain_entry (e : FolderEntry) : Prop :=
  let 'mkEntry name _ _ _ _ children := e in plain_name name /\ foldr (fun c P => plain_entry c /\ P) True children.
Definition plain_folder (entries : list FolderEntry) : Prop := foldr (fun c P => plain_entry c /\ P) True entries.

Lemma entry_inside e : forall base, directory base -> plain_entry e -> Forall (fun f => inside base f.1) (entry_files base e).
Proof.
  induction e as [name isDir size time content children IH] using folder_ind. intros base Hb [Hn Hc]. cbn [entry_files].
  destruct (join_plain base name Hb Hn) as [Hj Hd]. destruct isDir.
  - clear Hn. induction IH as [|c children Hi _ IHc]; cbn; [constructor|]. destruct Hc as [Hc Hcs]. apply Forall_app. split; [|by apply IHc].
    eapply Forall_impl; [by apply Hi|]. cbn. intros [p d]. cbn. rewrite Hj. apply inside_step.
  - destruct content; [constructor|]. repeat constructor. cbn [fst]. rewrite Hj. apply inside_name.
Qed.
Lemma folder_inside base entries : directory base -> plain_folder entries -> Forall (fun f => inside base f.1) (folder_files base entries).
Proof.
  intros Hb. unfold folder_files. induction entries as [|e entries IH]; cbn; [constructor|]. intros [He Hs]. apply Forall_app. split; [by apply entry_inside|by apply IH].
Qed.

(** What the operating system does with files: a write changes one file, and
    making a directory none. *)
Class HostLaws (W : Type) `{OsFiles W} `{OsDirs W} (contents : W -> bytes -> option bytes) : Prop := {
  write_only p d perm w : ends (os_write_file p d perm) w (fun r w' => only contents p w w' /\ (r = Ok tt -> contents w' p = Some d));
  mkdir_quiet p w : ends (os_mkdir_all p) w (fun _ w' => unchanged contents w w');
  read_quiet p w : ends (os_read_file p) w (fun r w' => unchanged contents w w' /\ forall d, r = Ok d -> contents w p = Some d)
}.

Section Unpacking.
Context {W : Type} `{OsFiles W} `{OsDirs W} (contents : W -> bytes -> option bytes) `{!HostLaws W contents}.

(** These files are written, at most, and all where it succeeds; no other
    file changes. *)
Definition writes (files : list (bytes * bytes)) (w : W) (r : outcome bytes unit) (w' : W) : Prop :=
  (forall q, q ∉ map fst files -> contents w' q = contents w q) /\
  (r = Ok tt -> NoDup (map fst files) -> Forall (fun f => contents w' f.1 = Some f.2) files).

Lemma writes_no_file (m : SO W bytes unit) w : ends m w (fun _ w' => unchanged contents w w') -> ends m w (writes [] w).
Proof. intros Hm. eapply ends_weaken; [exact Hm|]. intros r w' Hu. by split. Qed.
Lemma writes_bind (m : SO W bytes unit) (k : unit -> SO W bytes unit) fs gs w :
  ends m w (writes fs w) -> (forall w1, ends (k tt) w1 (writes gs w1)) -> ends (m ≫= k) w (writes (fs ++ gs) w).
Proof.
  intros Hm Hk. apply ends_bind. eapply ends_weaken; [exact Hm|]. intros r w1 [Ho1 Hd1].
  assert (Hfirst : forall q, q ∉ map fst (fs ++ gs) -> contents w1 q = contents w q).
  { intros q Hq. apply Ho1. rewrite map_app, elem_of_app in Hq. naive_solver. }
  destruct r as [[]|e| |]; [|by split..]. eapply ends_weaken; [apply Hk|]. intros r w2 [Ho2 Hd2]. split.
  - intros q Hq. rewrite Ho2, Hfirst; [done..|]. rewrite map_app, elem_of_app in Hq. naive_solver.
  - intros Hr. rewrite map_app, NoDup_app. intros (N1 & Hdis & N2). apply Forall_app. split; [|by apply Hd2].
    specialize (Hd1 eq_refl N1). rewrite Forall_forall in Hd1 |- *. intros f Hf. rewrite Ho2; [by apply Hd1|].
    apply Hdis. apply list_elem_of_fmap. by exists f.
Qed.

Lemma write_entry_writes e : forall base w, ends (write_entry base e) w (writes (entry_files base e) w).
Proof.
  induction e as [name isDir size time content children IH] using folder_ind. intros base w. cbn [write_entry entry_files].
  destruct isDir.
  - change (concat (map (entry_files (path_join [base; name])) children)) with ([] ++ concat (map (entry_files (path_join [base; name])) children)).
    apply writes_bind; [apply writes_no_file, mkdir_quiet|]. induction IH as [|c children Hc _ IHc]; intros w1; [by apply writes_no_file|].
    cbn [map concat]. apply writes_bind; [apply Hc|exact IHc].
  - destruct content as [|b content]; [by apply writes_no_file|]. eapply ends_weaken; [apply write_only|]. intros r w' [Ho Hd]. split.
    + intros q Hq. apply Ho. intros ->. apply Hq. left.
    + intros Hr _. repeat constructor. cbn. by apply Hd.
Qed.
Lemma write_folder_writes entries : forall base w, ends (writeFolderRecursive base entries) w (writes (folder_files base entries) w).
Proof.
  unfold folder_files. induction entries as [|e entries IH]; intros base w; cbn; [by apply writes_no_file|].
  apply writes_bind; [apply write_entry_writes|]. intros w1. apply IH.
Qed.
End Unpacking.

Section Exporting.
Context `{GoRuntime} {W : Type} `{OsFiles W} `{OsDirs W} `{FolderJSON} (contents : W -> bytes -> option bytes) `{!HostLaws W contents}.

Lemma export_writes (folder target : Value) (root : FolderEntry) (data : bytes) (w : W) :
  IsNull folder = false -> IsNull target = false -> value_bytes Panic folder = Ok data -> unmarshal_folder data = Some root ->
  let files := folder_files (ToString target) (children_of root) in
  ends (fnExportFolder [folder; target]) w (fun r w' =>
    (forall q, q ∉ map fst files -> contents w' q = contents w q) /\
    (r = Ok (NewIntValue 1) -> NoDup (map fst files) -> Forall (fun f => contents w' f.1 = Some f.2) files) /\
    (directory (ToString target) -> plain_folder (children_of root) -> forall q, ~ inside (ToString target) q -> contents w' q = contents w q)).
Proof.
  intros Hf Ht Hd Hu files. set (run := os_mkdir_all (ToString target);; writeFolderRecursive (ToString target) (children_of root)).
  assert (Hrun : fnExportFolder [folder; target] w = (r ← try run; mret (NewIntValue (match r with inl _ => 1 | inr _ => 0 end))) w).
  { unfold fnExportFolder. rewrite Hf, Ht, Hd. cbn [orb]. unfold mbind at 1, SO_bind at 1, lift. by rewrite Hu. }
  assert (Hm : ends run w (writes contents files w)).
  { change files with ([] ++ files). apply (writes_bind contents); [apply writes_no_file, mkdir_quiet|]. intros w1. apply (write_folder_writes contents). }
  assert (Hin : directory (ToString target) -> plain_folder (children_of root) -> forall q, ~ inside (ToString target) q -> q ∉ map fst files).
  { intros Hdir Hp q Hq (f & -> & Hf')%list_elem_of_fmap. pose proof (folder_inside _ _ Hdir Hp) as Ha. rewrite Forall_forall in Ha. by apply Hq, Ha. }
  unfold ends in *. rewrite Hrun. unfold try, mbind, SO_bind in *.
  destruct (run w) as [[[]|e| |] w']; cbn in *; destruct Hm as [Ho Hok]; split_and!; try done; auto.
Qed.
(** C35: EXPORT_FOLDER changes no other files than those that the packed
    folder lists with bytes, at the paths that their names make (a file that
    is listed as empty is not written); where it answers 1 and the paths
    differ, each of them has its bytes. When the names are plain, and the
    target is a clean absolute directory other than the root, nothing outside
    of the target changes. *)
Theorem export_writes_listed (folder target : Value) (root : FolderEntry) (data : bytes) (w : W) :
  IsNull folder = false -> IsNull target = false -> value_bytes Panic folder = Ok data -> unmarshal_folder data = Some root ->
  let files := folder_files (ToString target) (children_of root) in
  ends (fnExportFolder [folder; target]) w (fun r w' =>
    (forall q, q ∉ map fst files -> contents w' q = contents w q) /\
    (r = Ok (NewIntValue 1) -> NoDup (map fst files) -> Forall (fun f => contents w' f.1 = Some f.2) files) /\
    (directory (ToString target) -> plain_folder (children_of root) -> forall q, ~ inside (ToString target) q -> contents w' q = contents w q)).
Proof. apply export_writes. Qed.
End Exporting.

(** ** Packing, and unpacking again *)

(** The files of a packed folder by the names that lead to them. *)
Fixpoint entry_names (e : FolderEntry) : list (list bytes * bytes) :=
  let 'mkEntry name isDir _ _ content children := e in
  map (fun f => (name :: f.1, f.2)) (if isDir then concat (map entry_names children) else match content with [] => [] | _ => [([], content)] end).
Definition folder_names (entries : list FolderEntry) : list (list bytes * bytes) := concat (map entry_names entries).
Definition below (base : bytes) (names : list bytes) : bytes := fold_left (fun p n => path_join [p; n]) names base.

Lemma entry_files_names e : forall base, entry_files base e = map (fun f => (below base f.1, f.2)) (entry_names e).
Proof.
  induction e as [name isDir size time content children IH] using folder_ind. intros base. cbn [entry_files entry_names]. destruct isDir.
  - induction IH as [|c children Hc _ IHc]; cbn; [done|]. by rewrite !map_app, IHc, Hc, !map_map.
  - by destruct content.
Qed.
Lemma folder_files_names base entries : folder_files base entries = map (fun f => (below base f.1, f.2)) (folder_names entries).
Proof. unfold folder_files, folder_names. rewrite concat_map, map_map. f_equal. apply map_ext. intros e. apply entry_files_names. Qed.

Section RoundTrip.
Context `{GoRuntime} {W : Type} `{OsFiles W} `{OsDirs W} `{FolderJSON} (contents : W -> bytes -> option bytes) `{!HostLaws W contents}.
(** Reading a directory changes no file. *)
Context (read_dir_quiet : forall p w, ends (os_read_dir p) w (fun _ w' => unchanged contents w w')).

(** The world is as it was, and the result is in [P]. *)
Definition looks {A} (P : A -> Prop) (w : W) (r : outcome bytes A) (w' : W) : Prop := unchanged contents w w' /\ forall a, r = Ok a -> P a.
Lemma looks_ret {A} (P : A -> Prop) a w : P a -> ends (mret a) w (looks P w).
Proof. intros Ha. split; [done|]. by intros ? [= <-]. Qed.
Lemma looks_bind {A B} (m : SO W bytes A) (k : A -> SO W bytes B) (P : A -> Prop) (Q : B -> Prop) w :
  ends m w (looks P w) -> (forall a w1, unchanged contents w w1 -> P a -> ends (k a) w1 (looks Q w1)) -> ends (m ≫= k) w (looks Q w).
Proof.
  intros Hm Hk. apply ends_bind. eapply ends_weaken; [exact Hm|]. intros [a|e| |] w1 [Hu HP]; [|by split..].
  eapply ends_weaken; [apply Hk; auto|]. intros r w2 [Hu2 HQ]. split; [by eapply unchanged_trans|done].
Qed.
Lemma looks_try {A} (m : SO W bytes A) (P : A -> Prop) w : ends m w (looks P w) -> ends (try m) w (looks (fun r => match r with inl a => P a | inr _ => True end) w).
Proof. unfold ends, try. destruct (m w) as [[a|e| |] w']; cbn; intros [Hu HP]; split; try done; intros ? [= <-]; auto. Qed.

Lemma looks_weaken {A} (P Q : A -> Prop) (m : SO W bytes A) w : ends m w (looks P w) -> (forall a, P a -> Q a) -> ends m w (looks Q w).
Proof. intros Hm HPQ. eapply ends_weaken; [exact Hm|]. intros r w' [Hu HP]. split; auto. Qed.
Lemma looks_answer {A} (P : A -> Prop) (m : SO W bytes A) w : ends m w (looks P w) -> ends m w (looks (fun a => (m w).1 = Ok a /\ P a) w).
Proof. intros [Hu HP]. split; [exact Hu|]. intros a Ha. split; auto. Qed.

Definition holds (w : W) (f : bytes * bytes) : Prop := contents w f.1 = Some f.2.
Lemma holds_unchanged w w' fs : unchanged contents w w' -> Forall (holds w') fs -> Forall (holds w) fs.
Proof. intros Hu Hf. eapply Forall_impl; [exact Hf|]. intros f Hx. unfold holds in *. by rewrite <- Hu. Qed.

Lemma read_folder_looks n : forall path w, ends (readFolderRecursive n path) w (looks (fun l => Forall (holds w) (folder_files path l)) w).
Proof.
  induction n as [|n IH]; intros path w; [by split|]. cbn [readFolderRecursive].
  apply (looks_bind _ _ (fun _ => True)); [eapply ends_weaken; [apply read_dir_quiet|]; by split|]. intros entries w0 Hu0 _.
  apply (ends_weaken _ _ (looks (fun l => Forall (holds w0) (folder_files path l)) w0)).
  2: { intros r w' [Hu HP]. split; [exact Hu|]. intros l Hl. exact (holds_unchanged _ _ _ Hu0 (HP l Hl)). }
  clear w Hu0. revert w0. induction entries as [|[name isDir info] entries IHe]; intros w; [by apply looks_ret|]. cbn [d_info d_isdir d_name].
  destruct info as [[size time]|]; [|by split].
  apply (looks_bind _ _ (fun fe => Forall (holds w) (entry_files path fe))).
  - destruct isDir; [|destruct (size <? ten_megabytes)].
    + eapply looks_bind; [apply looks_try, IH|]. intros [c|e] w1 Hu Hc; apply looks_ret; [exact Hc|constructor].
    + apply (looks_bind _ _ (fun r => match r with inl d => contents w (path_join [path; name]) = Some d | inr _ => True end)).
      * apply (looks_try _ (fun d => contents w (path_join [path; name]) = Some d)), read_quiet.
      * intros [d|e] w1 Hu Hd; apply looks_ret; cbn [entry_files]; [|constructor]. destruct d; [constructor|]. by repeat constructor.
    + apply looks_ret. constructor.
  - intros fe w1 Hu Hfe. eapply looks_bind; [apply IHe|]. intros fes w2 Hu2 Hfes. apply looks_ret. unfold folder_files. cbn [map concat].
    apply Forall_app. split; [exact Hfe|exact (holds_unchanged _ _ _ Hu Hfes)].
Qed.

(** What LOAD_FOLDER packs. *)
Definition packed (path : bytes) (entries : list FolderEntry) : FolderEntry := mkEntry (path_base path) true 0 [] [] entries.

Lemma load_folder_packs n (v : Value) w : IsNull v = false ->
  ends (fnLoadFolder n [v]) w (looks (fun u => u = NewNullValue \/ exists entries d, (readFolderRecursive n (ToString v) w).1 = Ok entries /\
    u = NewBlobValue d /\ marshal_folder (packed (ToString v) entries) = Some d /\ Forall (holds w) (folder_files (ToString v) entries)) w).
Proof.
  intros Hv. unfold fnLoadFolder, one_argument, or_null. rewrite Hv.
  set (P := fun u => exists es d, (readFolderRecursive n (ToString v) w).1 = Ok es /\ u = NewBlobValue d /\ marshal_folder (packed (ToString v) es) = Some d /\ Forall (holds w) (folder_files (ToString v) es)).
  apply (looks_bind _ _ (fun r => match r with inl u => P u | inr _ => True end)); [apply looks_try|].
  - eapply looks_bind; [apply looks_answer, read_folder_looks|]. intros entries w1 _ [Ha He]. fold (packed (ToString v) entries).
    destruct (marshal_folder _) as [d|] eqn:E; [|by split]. apply looks_ret. by exists entries, d.
  - intros [u|e] w1 _ Hu; apply looks_ret; [right; exact Hu|by left].
Qed.

(** C34: a folder that LOAD_FOLDER packs and EXPORT_FOLDER unpacks elsewhere
    has the same bytes in its files: for every file that is packed with bytes
    (empty files, those of ten megabytes and more and those that could not be
    read are packed without), by the names that lead to it, the file that
    those names lead to from the target has, where EXPORT_FOLDER answers 1 and
    the paths differ, the bytes that the file had in the source when
    LOAD_FOLDER began; no other file changes. The hypothesis on JSON is that
    this folder is encoded so that it is decoded. *)
Theorem folder_unpacked (n : nat) (source target : Value) (w : W) :
  IsNull source = false -> IsNull target = false ->
  (forall entries d, (readFolderRecursive n (ToString source) w).1 = Ok entries -> marshal_folder (packed (ToString source) entries) = Some d -> unmarshal_folder d = Some (packed (ToString source) entries)) ->
  ends (fnLoadFolder n [source]) w (fun r w1 => unchanged contents w w1 /\ forall u, r = Ok u -> IsNull u = false ->
    exists entries, (readFolderRecursive n (ToString source) w).1 = Ok entries /\ u = NewBlobValue (default [] (marshal_folder (packed (ToString source) entries))) /\
    let names := folder_names entries in
    Forall (fun f => contents w (below (ToString source) f.1) = Some f.2) names /\
    ends (fnExportFolder [u; target]) w1 (fun r2 w2 =>
      (forall q, q ∉ map (fun f => below (ToString target) f.1) names -> contents w2 q = contents w q) /\
      (r2 = Ok (NewIntValue 1) -> NoDup (map (fun f => below (ToString target) f.1) names) ->
       Forall (fun f => contents w2 (below (ToString target) f.1) = contents w (below (ToString source) f.1)) names))).
Proof.
  intros Hs Ht Hjson. eapply ends_weaken; [by apply load_folder_packs|]. intros r w1 [Hu Hr]. split; [exact Hu|]. intros u -> Hn.
  destruct (Hr u eq_refl) as [->|(entries & d & Ha & -> & Hm & Hf)]; [done|]. exists entries. rewrite Hm. split; [done|]. split; [done|].
  rewrite folder_files_names, Forall_map in Hf. split; [exact Hf|]. cbn zeta.
  pose proof (export_writes contents (NewBlobValue d) target (packed (ToString source) entries) d w1 eq_refl Ht eq_refl (Hjson _ _ Ha Hm)) as He. cbn zeta in He.
  eapply ends_weaken; [exact He|].
  cbn [packed children_of]. rewrite folder_files_names, map_map. cbn [fst]. intros r w2 (Ho & Hd & _). cbn in Ho, Hd. split; [intros q Hq; by rewrite Ho|].
  intros Hok Hnd. specialize (Hd Hok Hnd). rewrite Forall_map in Hd. rewrite Forall_forall in Hd, Hf |- *. intros f Hin.
  etransitivity; [exact (Hd f Hin)|symmetry; exact (Hf f Hin)].
Qed.
End RoundTrip.

(** ** On a disk *)

#[local] Existing Instance disk_os.
(** The entries of a directory: the first names of the paths below it. A
    directory is there when it has files. *)
Definition disk_entries (w : Disk) (dir : bytes) : list DirEntry :=
  let prefix := dir ++ slash in
  let step (l : list DirEntry) (f : bytes * bytes) :=
    if has_prefix prefix f.1 then
      let '(name, rest) := cut 47 (drop (length prefix) f.1) in
      if existsb (fun e => bytes_eqb (d_name e) name) l then l
      else l ++ [mkDirEntry name (match rest with Some _ => true | None => false end) (Some (zlen f.2, []))]
    else l in
  fold_left step (map_to_list (files w)) [].
Definition not_found : bytes := str "no such file".
#[local] Instance disk_dirs : OsDirs Disk := {|
  os_mkdir_all _ := mret tt;
  os_read_dir p := fun w => (match disk_entries w p with [] => Err not_found | l => Ok l end, w);
  os_remove_all p := fun w => (Ok tt, mkDisk (filter (fun f => has_prefix (p ++ slash) f.1 = false /\ f.1 <> p) (files w)) (faults w) (serial w));
  is_not_exist e := bytes_eqb e not_found
|}.
Lemma disk_host_laws : HostLaws Disk disk_contents.
Proof. split; [intros; apply disk_write_only|intros; by split|intros; apply disk_read_reads]. Qed.
Lemma disk_dir_quiet p w : ends (os_read_dir p) w (fun _ w' => unchanged disk_contents w w').
Proof. by split. Qed.

Definition photos : Disk := mkDisk {[ str "/in/a.txt" := str "alpha"; str "/in/sub/b.txt" := str "beta"; str "/in/sub/empty" := []; str "/keep" := str "kept" ]} [] 0.
Definition photo_folder : FolderEntry :=
  mkEntry (str "in") true 0 [] [] (match (@readFolderRecursive Disk _ _ 3 (str "/in") photos).1 with Ok l => l | _ => [] end).
(** Bad names in a folder that somebody else packed. *)
Definition bad_folder : FolderEntry := mkEntry (str "x") true 0 [] [] [mkEntry (str "../../etc/passwd") false 1 [] (str "root") []].
(** Two folders are encoded, by the names and the bytes of their files. *)
Definition folder_text (e : FolderEntry) : bytes := concat (map (fun f => concat (map (app slash) f.1) ++ str "=" ++ f.2 ++ str ";") (folder_names (children_of e))).
#[local] Instance two_folders : FolderJSON := {|
  marshal_folder e := Some (folder_text e);
  unmarshal_folder d := List.find (fun e => bytes_eqb (folder_text e) d) [photo_folder; bad_folder];
  fmt_1f _ := []
|}.
Definition sample_pack : list (list bytes * bytes) := folder_names (children_of photo_folder).

Definition path (s : string) : Value := NewStringValue (str s).
Definition packed_photos : Value := NewBlobValue (folder_text photo_folder).
Definition packed_bad : Value := NewBlobValue (folder_text bad_folder).
Lemma photos_decoded entries d : (@readFolderRecursive Disk _ _ 3 (ToString (path "/in")) photos).1 = Ok entries ->
  marshal_folder (packed (ToString (path "/in")) entries) = Some d -> unmarshal_folder d = Some (packed (ToString (path "/in")) entries).
Proof.
  intros He. apply (f_equal (fun r => match r with Ok l => l | _ => [] end)) in He. change (children_of photo_folder = entries) in He. subst entries.
  intros Hm. apply (f_equal (default [])) in Hm. change (folder_text photo_folder = d) in Hm. subst d. vm_compute. reflexivity.
Qed.

(** The files of a disk below a directory. *)
Definition files_below (dir : string) (w : Disk) : list (bytes * bytes) := List.filter (fun f => has_prefix (str dir ++ slash) f.1) (map_to_list (files w)).
(** An empty file is not there after unpacking; the rest is. *)
Example photos_unpacked : (fnLoadFolder 3 [path "/in"] photos).1 = Ok packed_photos /\
  files_below "/out" (fnExportFolder [packed_photos; path "/out"] photos).2 = [(str "/out/sub/b.txt", str "beta"); (str "/out/a.txt", str "alpha")].
Proof. split; vm_compute; reflexivity. Qed.
(** A name with two dots leads out of the target. *)
Example bad_folder_unpacked : (fnExportFolder [packed_bad; path "/srv/data"] photos).1 = Ok (NewIntValue 1) /\
  disk_contents (fnExportFolder [packed_bad; path "/srv/data"] photos).2 (str "/etc/passwd") = Some (str "root").
Proof. split; vm_compute; reflexivity. Qed.

Lemma photos_target : directory (str "/out"). Proof. by vm_compute. Qed.
Lemma export_writes_listed_witness :
  unmarshal_folder (folder_text photo_folder) = Some photo_folder /\
  disk_contents (fnExportFolder [packed_photos; path "/out"] photos).2 (str "/keep") = Some (str "kept") /\
  Forall (fun f => disk_contents (fnExportFolder [packed_photos; path "/out"] photos).2 f.1 = Some f.2) (folder_files (str "/out") (children_of photo_folder)).
Proof.
  assert (Hu : unmarshal_folder (folder_text photo_folder) = Some photo_folder) by (vm_compute; reflexivity). split; [exact Hu|].
  pose proof (@export_writes_listed _ Disk disk_os disk_dirs two_folders disk_contents disk_host_laws packed_photos (path "/out") photo_folder (folder_text photo_folder) photos
    eq_refl eq_refl eq_refl Hu) as He. cbn zeta in He. destruct He as (Ho & Hd & Hi). split.
  - transitivity (disk_contents photos (str "/keep")); [|vm_compute; reflexivity]. apply Ho. apply (bool_decide_unpack _). vm_compute. exact I.
  - apply Hd; [vm_compute; reflexivity|]. apply (bool_decide_unpack _). vm_compute. exact I.
Defined.
Lemma folder_unpacked_witness :
  (fnLoadFolder 3 [path "/in"] photos).1 = Ok packed_photos /\
  let after := (fnExportFolder [packed_photos; path "/out"] (fnLoadFolder 3 [path "/in"] photos).2).2 in
  Forall (fun f => disk_contents after (below (str "/out") f.1) = disk_contents photos (below (str "/in") f.1)) (folder_names (children_of photo_folder)).
Proof.
  assert (Ha : (fnLoadFolder 3 [path "/in"] photos).1 = Ok packed_photos) by (vm_compute; reflexivity). split; [exact Ha|]. cbn zeta.
  destruct (@folder_unpacked _ Disk disk_os disk_dirs two_folders disk_contents disk_host_laws disk_dir_quiet 3 (path "/in") (path "/out") photos eq_refl eq_refl photos_decoded) as [_ Hr].
  destruct (Hr packed_photos Ha eq_refl) as (entries & He & _ & _ & _ & Hd).
  apply (f_equal (fun r => match r with Ok l => l | _ => [] end)) in He. change (children_of photo_folder = entries) in He. subst entries.
  apply Hd; [vm_compute; reflexivity|]. apply (bool_decide_unpack _). vm_compute. exact I.
Defined.

(** ** Backups *)

Definition database_disk : Disk := mkDisk {[ str "/db/xxldb.meta" := str "meta"; str "/db/data/t.xxdb" := str "rows"; str "/db/blobs/00/00/blob_1.bin" := str "picture" ]} [] 0.
(** The metadata and the tables are copied. The values that are kept in files
    of their own, in the directory blobs, are not. *)
Example backup_without_blobs : (Backup 3 (str "/db") (str "/bk") database_disk).1 = Ok tt /\
  files_below "/bk" (Backup 3 (str "/db") (str "/bk") database_disk).2 = [(str "/bk/data/t.xxdb", str "rows"); (str "/bk/xxldb.meta", str "meta")].
Proof. split; vm_compute; reflexivity. Qed.
(** Of a database on a server, whose path is no path of this host, nothing is
    copied, and that is no error. *)
Example backup_of_remote : (Backup 3 (str "/remote/db") (str "/bk") database_disk).1 = Ok tt /\ files_below "/bk" (Backup 3 (str "/remote/db") (str "/bk") database_disk).2 = [].
Proof. split; vm_compute; reflexivity. Qed.

(** ** Databases as directories *)

(** The disk where a directory can be looked up: it is there when it has files. *)
Definition disk_with_dirs : OsFiles Disk := {|
  os_read_file := disk_read; os_write_file p d _ := disk_write p d; os_create_temp _ _ := FileSysSpec.no_files; os_write := disk_write;
  os_sync _ := mret tt; os_close _ := mret tt; os_chmod _ _ := mret tt; os_rename := disk_rename; os_remove := disk_remove;
  os_stat p := fun w => match disk_entries w p with [] => disk_stat p w | _ => (Ok (mkFileInfo p 0 0 0 true), w) end
|}.
Definition dropped (name : string) : outcome bytes unit * list bytes :=
  let '(r, w) := executeDropDatabase (H0 := disk_with_dirs) (str "/db") false (str name) database_disk in
  (_ ← r; Ok tt, map fst (map_to_list (files w))).
(** DROP DATABASE removes any directory: that of the tables of the database
    that is open, and by way of two dots the whole database. *)
Example drop_database_data : dropped "data" = (Ok tt, [str "/db/blobs/00/00/blob_1.bin"; str "/db/xxldb.meta"]).
Proof. vm_compute. reflexivity. Qed.
Example drop_database_dots : dropped "../db" = (Ok tt, []).
Proof. vm_compute. reflexivity. Qed.
