(* ===== verification/Command.v ===== *)
(** * The command (cmd/xxldb/main.go, xxldb.go, executor/executor.go)

    What the flags of the command ask for, the database that is opened, the
    server that is started, the import from another database into a database
    of its own engine; the library's entry points; a result as a text. *)

From S2P Require Import Prelude GoLib Types RowCodec Page PageCache TableFile Crypto Json Wal Storage Functions Script Auth Ast Eval Select Dml Lexer Parser ParserDml Engine Url Dsn Driver Converter Import Regex Console Protocol Server.
Local Open Scope Z_scope.

(** ** A result as a text *)

Section Display.
Context `{GoRuntime}.

Definition widen_values (widths : list Z) (row : list Value) : list Z :=
  imap (fun i w => match row !! i with Some v => Z.max w (zlen (ToString v)) | None => w end) widths.
Definition newline : bytes := [byte.of_Z 10].
(** The text of a result; a panic where a row has more cells than there are
    columns. *)
Definition Format (r : Result) : outcome bytes bytes :=
  if IsExecutionResult r then
    Ok (match Message r with [] => str "Rows affected: " ++ itoa (RowsAffected r) | m => m end)
  else if bool_decide (Rows r = []) || bool_decide (RColumns r = []) then Ok (str "Empty result set")
  else
    let widths := fold_left widen_values (map RData (Rows r)) (map zlen (RColumns r)) in
    line ← rule widths;
    header ← table_line widths (RColumns r);
    body ← mapM (fun row => table_line widths (map ToString (RData row))) (Rows r);
    Ok (concat (map (fun l => l ++ newline) ([line; header; line] ++ body ++ [line; itoa (zlen (Rows r)) ++ str " rows"]))).
End Display.

(** ** What the flags ask for *)

Record Flags := mkFlags {
  f_db : bytes; f_memory : bool; f_user : bytes; f_password : bytes; f_encrypt : bytes; f_log : bytes; f_exec : bytes; f_version : bool; f_help : bool;
  f_mysql : bytes; f_require_auth : bool;
  f_ssh_host : bytes; f_ssh_port : Z; f_ssh_user : bytes; f_ssh_password : bytes; f_ssh_key : bytes;
  f_smb_host : bytes; f_smb_port : Z; f_smb_share : bytes; f_smb_user : bytes; f_smb_password : bytes; f_smb_domain : bytes;
  f_webdav_url : bytes; f_webdav_user : bytes; f_webdav_password : bytes;
  f_import : bytes; f_table : bytes; f_to : bytes; f_import_all : bool; f_import_sql : bytes; f_batch : Z; f_overwrite : bool
}.
Definition default_flags : Flags :=
  mkFlags [] false [] [] [] (str "INFO") [] false false [] false [] 22 [] [] [] [] 445 [] [] [] [] [] [] [] [] [] [] false [] 1000 false.

(** The database: its name for the driver, whether it is in memory, and what is
    printed about it. *)
Record Database_ := mkDatabase { d_dsn : bytes; d_memory : bool; d_lines : list bytes }.

Definition given (s : bytes) : bool := match s with [] => false | _ => true end.
(** The first of these that is missing. *)
Fixpoint needed (l : list (bool * string)) : option bytes :=
  match l with
  | [] => None
  | (there, message) :: rest => if there : bool then needed rest else Some (str "Error: " ++ str message)
  end.
Definition needing (l : list (bool * string)) (d : Database_) : bytes + Database_ := match needed l with Some e => inl e | None => inr d end.
(** The database that the flags name, or what is missing. *)
Definition database (f : Flags) : bytes + Database_ :=
  let path := f_db f in
  if given (f_ssh_host f) then
    needing [(given path, "database path (-db) is required for SSH connection"%string);
             (given (f_ssh_user f), "SSH username (-ssh-user) is required"%string);
             (given (f_ssh_password f) || given (f_ssh_key f), "SSH requires either -ssh-password or -ssh-key"%string)]
      (mkDatabase (buildSSHDSN (f_ssh_host f) (f_ssh_port f) (f_ssh_user f) (f_ssh_password f) (f_ssh_key f) path) (f_memory f)
         [str "Connecting to remote database via SSH: " ++ f_ssh_user f ++ str "@" ++ f_ssh_host f ++ str ":" ++ itoa (f_ssh_port f) ++ path])
  else if given (f_smb_host f) then
    needing [(given path, "database path (-db) is required for SMB connection"%string);
             (given (f_smb_share f), "SMB share name (-smb-share) is required"%string);
             (given (f_smb_user f), "SMB username (-smb-user) is required"%string);
             (given (f_smb_password f), "SMB password (-smb-password) is required"%string)]
      (mkDatabase (buildSMBDSN (f_smb_host f) (f_smb_port f) (f_smb_share f) (f_smb_user f) (f_smb_password f) (f_smb_domain f) path) (f_memory f)
         [str "Connecting to remote database via SMB: " ++ f_smb_user f ++ str "@" ++ f_smb_host f ++ str "/" ++ f_smb_share f ++ path])
  else if given (f_webdav_url f) then
    needing [(given path, "database path (-db) is required for WebDAV connection"%string);
             (given (f_webdav_user f), "WebDAV username (-webdav-user) is required"%string);
             (given (f_webdav_password f), "WebDAV password (-webdav-password) is required"%string)]
      (mkDatabase (buildWebDAVDSN (f_webdav_url f) (f_webdav_user f) (f_webdav_password f) path) (f_memory f)
         [str "Connecting to remote database via WebDAV: " ++ f_webdav_user f ++ str "@" ++ f_webdav_url f ++ path])
  else if f_memory f || negb (given path) then inr (mkDatabase (str ":memory:") true [])
  else inr (mkDatabase (if given (f_encrypt f) then path ++ str "?encrypt=" ++ f_encrypt f else path) (f_memory f) []).

(** What is done with the database that was opened. *)
Inductive Task :=
  | Serve (path : bytes) (memory : bool)
  | ReadDump (path : bytes)
  | RunCommand (text : bytes)
  | RunStatements (text : bytes)
  | Console_ (path : bytes) (memory : bool).
Inductive Plan :=
  | ShowHelp
  | ShowVersion
  | Refuse (message : bytes)
  | ImportInto (path : bytes) (lines : list bytes)
  | OpenAnd (dsn : bytes) (lines : list bytes) (setup : list bytes) (task : Task).

Definition login_statements (user password : bytes) : list bytes :=
  if given user && given password then [str "SET USER = '" ++ user ++ str "'"; str "SET PASSWORD = '" ++ password ++ str "'"] else [].
Definition setup_statements (f : Flags) : list bytes := (str "SET LOG_LEVEL " ++ f_log f) :: login_statements (f_user f) (f_password f).
Definition task (f : Flags) (memory : bool) : Task :=
  if given (f_mysql f) then Serve (if memory then [] else f_db f) memory
  else if given (f_import_sql f) then ReadDump (f_import_sql f)
  else if given (f_exec f) then if has_prefix (str ".") (f_exec f) then RunCommand (f_exec f) else RunStatements (f_exec f)
  else Console_ (f_db f) memory.
Definition opened_lines (f : Flags) (dsn : bytes) : list bytes :=
  if bytes_eqb dsn (str ":memory:") then [str "Opened in-memory database"]
  else if given (f_ssh_host f) || given (f_smb_host f) || given (f_webdav_url f) then []
  else [str "Opened database: " ++ f_db f].
Definition plan (f : Flags) : Plan :=
  if f_help f then ShowHelp
  else if f_version f then ShowVersion
  else match database f with
       | inl message => Refuse message
       | inr d =>
         if given (f_import f) then ImportInto (f_db f) (d_lines d)
         else OpenAnd (d_dsn d) (d_lines d ++ opened_lines f (d_dsn d)) (setup_statements f) (task f (d_memory d))
       end.

(** ** Running it *)

Section Running.
Context `{GoRuntime} `{FunctionRuntime} `{FullText} `{MapOrder} `{JSONRuntime} `{RecordJSON} `{Environment} `{ColumnJSON}
  `{Digests} `{!HostFiles} `{HomeDirectory} `{!Openers} `{ServerRuntime} (fuel : nat).
(** The texts of errors (%v); what connects to the other databases; the files
    of dumps; the help, and which build this is. *)
Context (error_text : DriverError -> bytes) (engine_error_text : EngineError -> bytes) (import_error_text : ImportError -> bytes).
Context (importers : bytes -> option Importer) (files : bytes -> option (list bytes * option bytes)) (help : list bytes) (version buildDate : bytes).

(** *** Opening engines *)

(** The engine of a configuration with a path and a password. *)
Definition NewEngineWithConfig (path : bytes) (inMemory : bool) (encryptPassword : bytes) : outcome DriverError Engine :=
  if inMemory then Ok (Engine.NewEngine (NewStorage false 0) None [] []) else open_path path encryptPassword.
Definition NewEngine (path : bytes) (inMemory : bool) : outcome DriverError Engine := NewEngineWithConfig path inMemory [].
Definition Open (path : bytes) : outcome DriverError Engine := NewEngine path false.
Definition OpenInMemory : outcome DriverError Engine := NewEngine [] true.
Definition second : Z := 1000000000.
Definition with_ssh_defaults (c : SSHConfig) : SSHConfig :=
  mkSSH (ssh_host c) (if ssh_port c =? 0 then 22 else ssh_port c) (ssh_user c) (ssh_password c) (PrivateKey c) (Passphrase c)
    (if ssh_timeout c =? 0 then 30 * second else ssh_timeout c).
Definition OpenSSH (dbPath : bytes) (c : SSHConfig) : outcome DriverError Engine := open_sftp dbPath (with_ssh_defaults c).

(** *** Importing with an engine of its own *)

(** The engine that imports and what was printed; an error is its text. *)
Record Importing_ := mkImporting { import_engine : Engine; import_screen : list bytes }.
Abbreviation JM := (SO Importing_ bytes).
Definition say (l : list bytes) : JM unit := modify (fun s => mkImporting (import_engine s) (import_screen s ++ l)).
Definition with_engine {E A} (text : E -> bytes) (m : SO Engine E A) : JM A := fun s =>
  let '(r, e) := m (import_engine s) in
  (match r with Ok a => Ok a | Err x => Err (text x) | Panic => Panic | Hang => Hang end, mkImporting e (import_screen s)).
Definition error_lines (l : list ImportError) : list bytes :=
  match l with [] => [] | l => (str "  Errors: " ++ itoa (zlen l)) :: map (fun e => str "    - " ++ import_error_text e) l end.
Definition report (all : bool) (r : ImportResult) : list bytes :=
  str "Import completed!"
  :: (if all then [str "  Tables imported: " ++ itoa (TablesImported r)] else [])
  ++ [str "  Rows imported: " ++ itoa (RowsImported r)] ++ error_lines (Errors r) ++ [str "Import complete."].
(** The statements that set the login; that they fail is passed over. *)
Fixpoint try_statements (l : list bytes) : JM unit :=
  match l with [] => mret tt | s :: rest => try (with_engine engine_error_text (Engine.Execute fuel s));; try_statements rest end.
Definition import_with (kind conn db table target : bytes) (all : bool) (batch : Z) (overwrite : bool) (login : list bytes) : JM unit :=
  try_statements login;;
  match importers kind with
  | None => fail (str "unsupported database type: " ++ kind)
  | Some _ =>
    if all then
      r ← with_engine import_error_text (ImportAll engine_error_text fuel importers (mkImport kind conn db [] [] batch overwrite true));
      say (report true r)
    else if given table then
      r ← with_engine import_error_text (ImportTable engine_error_text fuel importers (mkImport kind conn db table target batch overwrite true));
      say (report false r)
    else fail (str "table name is required for single table import")
  end.
(** An import: the error, what was printed, and the engine, closed, where one
    was opened; [order] is the order of the table files. *)
Definition import_into (order : list Z) (dbPath source table target : bytes) (all : bool) (batch : Z) (overwrite : bool) (encryptPassword : bytes) (login : list bytes)
    : outcome DriverError (option bytes * list bytes * option Engine) :=
  match ParseSourceDSN source with
  | None => Ok (Some (str "failed to parse source DSN"), [], None)
  | Some (kind, conn, db) =>
    let lines := [str "Importing from " ++ kind ++ str " (database: " ++ db ++ str ")..."] in
    match NewEngineWithConfig dbPath (negb (given dbPath)) encryptPassword with
    | Err e => Ok (Some (str "failed to create engine: " ++ error_text e), lines, None)
    | Panic => Panic
    | Hang => Hang
    | Ok e =>
      let '(r, s) := import_with kind conn db table target all batch overwrite login (mkImporting e lines) in
      match r with
      | Ok _ => Ok (None, import_screen s, Some (in_storage (CloseStorage order) (import_engine s)).2)
      | Err x => Ok (Some x, import_screen s, Some (in_storage (CloseStorage order) (import_engine s)).2)
      | Panic => Panic
      | Hang => Hang
      end
    end
  end.
Definition handleImportDirect (order : list Z) (dbPath source table target : bytes) (all : bool) (batch : Z) (overwrite : bool) (encryptPassword username password : bytes) :=
  import_into order dbPath source table target all batch overwrite encryptPassword (login_statements username password).
Definition handleImport (order : list Z) (dbPath source table target : bytes) (all : bool) (batch : Z) (overwrite : bool) (encryptPassword : bytes) :=
  import_into order dbPath source table target all batch overwrite encryptPassword [].

(** *** The server *)

Record Config := mkConfig { c_version : bytes; c_id : Z; c_charset : Z; c_auth : bool }.
(** [random] is the server's number where none is given. *)
Definition NewServer (random : Z) (e : Engine) (c : Config) : Server :=
  mkServer e (if c_id c =? 0 then random else c_id c) (match c_version c with [] => str "5.7.42" | v => v end)
    (if c_charset c =? 0 then 33 else c_charset c) (c_auth c) 0.

(** *** The whole command *)

(** How it ends: with an error and code 1; with the session that was left, if
    any; or serving clients. *)
Inductive Ending :=
  | Exited (message : bytes)
  | Finished (t : option Term)
  | Serving (s : Server).

Definition anonymous_lines : list bytes :=
  [str "Warning: No authentication configured. Anonymous access allowed.";
   str "         Use -user and -password to set credentials, or SET USER/PASSWORD in REPL."].
(** [listen] is the error of listening on an address. *)
Definition serve (f : Flags) (random : Z) (listen : bytes -> option bytes) (path : bytes) (memory : bool) : outcome DriverError (Ending * list bytes) :=
  match NewEngineWithConfig path memory (f_encrypt f) with
  | Panic => Panic
  | Hang => Hang
  | Err e => Ok (Exited (str "Error creating engine for MySQL server: " ++ error_text e), [])
  | Ok e =>
    if negb (IsEnabled (auth e)) && f_require_auth f then
      Ok (Exited (str "Error: --require-auth specified but no credentials configured. Use -user and -password or SET USER/PASSWORD."), [])
    else
      let lines := if IsEnabled (auth e) then [] else anonymous_lines in
      match listen (f_mysql f) with
      | Some x => Ok (Exited (str "Error starting MySQL server: failed to listen on " ++ f_mysql f ++ str ": " ++ x), lines)
      | None =>
        Ok (Serving (NewServer random e (mkConfig [] 0 0 (f_require_auth f))),
            lines ++ [str "MySQL server listening on " ++ f_mysql f; str "MySQL server started on " ++ f_mysql f; str "Press Ctrl+C to stop the server..."])
      end
  end.
Fixpoint run_setup (l : list bytes) : SO Term DriverError unit :=
  match l with [] => mret tt | s :: rest => try (on_conn (Exec fuel (mkStmt s) []));; run_setup rest end.
(** The tasks of a session, which is closed afterwards; [login] and [inputs] are what is typed. *)
Definition run_session (login : option bytes * option bytes) (inputs : list bytes) (t : Task) : SO Term DriverError unit :=
  match t with
  | ReadDump path => match files path with
                     | None => print [str "Error opening file"]
                     | Some (lines, error) => handleImportSQL fuel error_text path lines error
                     end
  | RunCommand text => handleSpecialCommand fuel error_text engine_error_text import_error_text files importers help version buildDate text;; mret tt
  | RunStatements text => executeStatement fuel error_text text
  | Console_ path memory => startREPL fuel error_text engine_error_text import_error_text files importers help version buildDate memory path login inputs
  | Serve _ _ => mret tt
  end.
Definition main (f : Flags) (order : list Z) (random : Z) (listen : bytes -> option bytes) (login : option bytes * option bytes) (inputs : list bytes)
    : outcome DriverError (Ending * list bytes) :=
  match plan f with
  | ShowHelp => Ok (Finished None, help)
  | ShowVersion => Ok (Finished None, [str "xxldb version " ++ version ++ str " (built " ++ buildDate ++ str ")"])
  | Refuse message => Ok (Exited message, [])
  | ImportInto path lines =>
    '(error, printed, _) ← handleImportDirect order path (f_import f) (f_table f) (f_to f) (f_import_all f) (f_batch f) (f_overwrite f) (f_encrypt f) (f_user f) (f_password f);
    Ok (match error with Some e => Exited (str "Import error: " ++ e) | None => Finished None end, lines ++ printed)
  | OpenAnd dsn lines setup task =>
    match DOpen dsn with
    | Panic => Panic
    | Hang => Hang
    | Err e => Ok (Exited (str "Error connecting to database: " ++ error_text e), lines)
    | Ok c =>
      let '(r, t) := run_setup setup (mkTerm _ c lines) in
      _ ← r;
      match task with
      | Serve path memory => '(ending, printed) ← serve f random listen path memory; Ok (ending, screen t ++ printed)
      | task => let '(r, t) := (run_session login inputs task;; try (on_conn (DClose order))) t in _ ← r; Ok (Finished (Some t), screen t)
      end
    end
  end.
End Running.
