(* ===== verification/CommandSpec.v ===== *)
(** * What the flags of the command do not reach

    The database of a server on another host is neither imported into nor
    served; the login of the flags does not reach the server of a database in
    memory; and the text of a result is the table that the console prints. *)

From S2P Require Import Prelude GoLib Types RowCodec Page PageCache TableFile Crypto Json Wal Storage Functions Script Auth Ast Eval Select Dml Lexer Parser ParserDml Engine EngineExamples Url Dsn Driver DsnSpec Converter Import Regex Console ConsoleSpec Protocol Server Command.
Local Open Scope Z_scope.

(** ** The text of a result *)

Section Display.
Context `{GoRuntime}.

Definition as_text (v : Value) : GoData := GString (ToString v).
Lemma widen_as_text ws row : widen_values ws row = widen ws (map as_text row).
Proof. unfold widen_values, widen. apply imap_ext. intros i w _. rewrite list_lookup_fmap. by destruct (row !! i). Qed.
Lemma widths_as_text rows : forall ws, fold_left widen_values rows ws = fold_left widen (map (map as_text) rows) ws.
Proof. induction rows as [|row rows IH]; intros ws; cbn; [done|]. by rewrite widen_as_text, IH. Qed.
Lemma cells_as_text row : map cell_text (map as_text row) = map ToString row.
Proof. rewrite map_map. by apply map_ext. Qed.
Lemma body_as_text ws rows : mapM (fun row => table_line ws (map ToString (RData row))) rows
  = mapM (fun row => table_line ws (map cell_text row)) (map (fun r => map as_text (RData r)) rows).
Proof. induction rows as [|row rows IH]; cbn; [done|]. by rewrite cells_as_text, IH. Qed.

(** The text of the result of a query is the table that the console prints of
    the texts of its values, line by line. *)
Theorem Format_printed (columns : list bytes) (rows : list Row) : columns <> [] -> rows <> [] ->
  Format (query_result columns rows) =
  (lines ← printRows columns (map (fun r => map as_text (RData r)) rows); Ok (concat (map (fun l => l ++ newline) lines))).
Proof.
  intros Hc Hr. unfold Format, printRows, column_widths. cbn [query_result IsExecutionResult Rows RColumns].
  rewrite !bool_decide_eq_false_2 by done. cbn [orb]. rewrite widths_as_text, map_map. set (ws := fold_left widen _ _).
  destruct (rule ws) as [r|e| |]; cbn; try done. destruct (table_line ws columns) as [h|e| |]; cbn; try done.
  rewrite body_as_text. destruct (mapM _ _) as [b|e| |]; cbn; try done. unfold zlen. by rewrite length_map.
Qed.
End Display.

(** ** Databases on other hosts *)

(** With a database on another host an import goes into the local directory of
    the same name, and so does what the server of the protocol serves. *)
Theorem import_stays_local (f : Flags) (path : bytes) (lines : list bytes) : plan f = ImportInto path lines -> path = f_db f.
Proof. unfold plan. destruct (f_help f), (f_version f), (database f); try done. destruct (given (f_import f)); [|done]. by intros [= <-]. Qed.
Theorem serve_stays_local (f : Flags) (dsn path : bytes) (lines setup : list bytes) (memory : bool) :
  plan f = OpenAnd dsn lines setup (Serve path memory) -> path = f_db f \/ path = [].
Proof.
  unfold plan, task. destruct (f_help f), (f_version f), (database f) as [|d]; try done. destruct (given (f_import f)); [done|].
  destruct (given (f_mysql f)); [|by repeat case_match]. intros [= _ _ _ <- _]. destruct (d_memory d); auto.
Qed.
Definition ssh_flags : Flags :=
  mkFlags (str "/data/db") false [] [] [] (str "INFO") [] false false (str ":3306") false (str "h") 22 (str "u") (str "p") [] [] 445 [] [] [] [] [] [] [] [] [] [] false [] 1000 false.
Example served_here : plan ssh_flags = OpenAnd (str "ssh://u:p@h:22//data/db") [str "Connecting to remote database via SSH: u@h:22/data/db"] [str "SET LOG_LEVEL INFO"] (Serve (str "/data/db") false).
Proof. vm_compute. reflexivity. Qed.

(** ** The server of a database in memory *)

Section Served.
Context `{GoRuntime} `{FunctionRuntime} `{FullText} `{MapOrder} `{JSONRuntime} `{RecordJSON} `{Environment} `{ColumnJSON}
  `{Digests} `{!HostFiles} `{HomeDirectory} `{!Openers} `{ServerRuntime}.
Context (error_text : DriverError -> bytes).

Lemma fresh_engine_open s : auth (Engine.NewEngine s None [] []) = NewAuth.
Proof.
  unfold Engine.NewEngine. cbn. unfold initSystemTables. unfold mbind, SO_bind, gets. cbn.
  destruct (existsb _ _); [done|]. unfold in_storage. by destruct (CreateTable _ _ _) as [[n|e| |] s'].
Qed.
(** The server of a database in memory lets everybody in, whatever name and
    password the flags give; where they ask for a login to be required, it
    does not start. *)
Theorem memory_served_open (f : Flags) (random : Z) (listen : bytes -> option bytes) (path : bytes) :
  match serve error_text f random listen path true with
  | Ok (Serving s, _) => f_require_auth f = false /\ IsEnabled (auth (engine s)) = false
  | Ok (Exited _, _) => True
  | _ => False
  end.
Proof.
  unfold serve. cbn [NewEngineWithConfig]. rewrite fresh_engine_open. change (IsEnabled NewAuth) with false. cbn [negb andb].
  destruct (f_require_auth f) eqn:E; [done|]. destruct (listen (f_mysql f)); [done|]. split; [done|]. cbn [engine NewServer]. by rewrite fresh_engine_open.
Qed.
End Served.

(** ** Passwords in the flags *)

Definition quoted_password : Flags :=
  mkFlags [] false (str "ann") (str "it's") [] (str "INFO") (str ".version") false false [] false [] 22 [] [] [] [] 445 [] [] [] [] [] [] [] [] [] [] false [] 1000 false.
(** The statement with the password has a quote too many. It is read up to the
    second one, and what follows is passed over: the password is another. *)
Example quoted_password_cut :
  (match plan quoted_password with OpenAnd _ _ setup _ => map ParseString (drop 2 setup) | _ => [] end) = [ParseString (str "SET PASSWORD = 'it'")] /\
  exists s, ParseString (str "SET PASSWORD = 'it'") = Ok s.
Proof. split; [vm_compute; reflexivity|]. eexists. vm_compute. reflexivity. Qed.
(** The level of the log is a name of a column, which has no value. *)
Example level_not_set : (Execute 10 (hd [] (setup_statements default_flags)) memory_engine).1 = Ok (done_result (str "Log level set to NULL")).
Proof. vm_compute. reflexivity. Qed.
(** A password of a database ends at the first &. *)
Definition encrypted_flags : Flags :=
  mkFlags (str "/db") false [] [] (str "s3&cret") (str "INFO") [] false false [] false [] 22 [] [] [] [] 445 [] [] [] [] [] [] [] [] [] [] false [] 1000 false.
#[local] Existing Instance no_home.
Example password_cut : (match plan encrypted_flags with OpenAnd dsn _ _ _ => match ParseDSN dsn with Ok d => EncryptPassword d | _ => [] end | _ => [] end) = str "s3".
Proof. vm_compute. reflexivity. Qed.
