(* ===== verification/Blobs.v ===== *)
(** * The files of large values (storage/storage.go)

    A large value has a number and a file of its own, below the directory
    blobs. Storage.v has them as a map from numbers to bytes; this file has the
    files, of a database on this host, whose file system is the operating
    system. The readers and writers of single blobs are here too. *)

From S2P Require Import Prelude GoLib Types PageCache TableFile Crypto Json Wal Storage Functions Eval Url FileSys Folders.
Local Open Scope Z_scope.

(** %08d of a number that is not negative. *)
Definition eight_digits (n : Z) : bytes := let s := itoa n in replicate (8 - length s) (digit_byte 0) ++ s.
Definition BlobDirName : bytes := str "blobs".
Definition blob_name (blobID : Z) : bytes := str "blob_" ++ itoa blobID ++ str ".bin".
Definition getBlobPath (path : bytes) (blobID : Z) : bytes :=
  let idStr := eight_digits blobID in
  path_join [path; BlobDirName; take 2 idStr; take 2 (drop 2 idStr); blob_name blobID].

(** The next number and the world; an error is its text. *)
Record BlobWorld (W : Type) := mkBlobWorld { next_blob : Z; host : W }.
Arguments mkBlobWorld {W} _ _.
Arguments next_blob {W} _.
Arguments host {W} _.

Section Blobs.
Context `{GoRuntime} `{Environment} {W : Type} `{OsFiles W} `{OsDirs W}.
(** Where the database is, whether it has files, and its encryption. *)
Context (path : bytes) (enabled : bool) (e : option Encryptor).

Abbreviation BM := (SO (BlobWorld W) bytes).
Definition on_host {A} (m : SO W bytes A) : BM A := fun b => let '(r, w) := m (host b) in (r, mkBlobWorld (next_blob b) w).
Definition memory_mode {A} : BM A := fail (str "blob storage not available in memory mode").
Definition take_number : BM Z := n ← gets next_blob; modify (fun b => mkBlobWorld (u64 (n + 1)) (host b));; mret n.

Definition WriteBlob (data : bytes) : BM Z :=
  if negb enabled then memory_mode
  else
    blobID ← take_number;
    let blobPath := getBlobPath path blobID in
    on_host (os_mkdir_all (path_dir blobPath));;
    on_host (os_write_file blobPath (store_bytes e blobID data) PermFile);;
    mret blobID.
Definition ReadBlob (blobID : Z) : BM bytes :=
  if negb enabled then memory_mode
  else data ← on_host (os_read_file (getBlobPath path blobID)); mret (load_bytes e data).
Definition DeleteBlob (blobID : Z) : BM unit :=
  if negb enabled then mret tt else on_host (os_remove (getBlobPath path blobID)).

Definition ImportFile (filePath : bytes) : BM Z :=
  r ← try (on_host (os_read_file filePath));
  match r with inr x => fail (str "failed to read file: " ++ x) | inl data => WriteBlob data end.
Definition ExportFile (blobID : Z) (filePath : bytes) : BM unit :=
  data ← ReadBlob blobID; on_host (os_write_file filePath data PermFile).

(** What a reader of a blob reads, and what a writer of a new blob writes. *)
Definition Reader_all (blobID : Z) : BM bytes :=
  if negb enabled then memory_mode else on_host (os_read_file (getBlobPath path blobID)).
Definition Writer_all (data : bytes) : BM Z :=
  if negb enabled then memory_mode
  else
    blobID ← take_number;
    let blobPath := getBlobPath path blobID in
    on_host (os_mkdir_all (path_dir blobPath));;
    on_host (os_write_file blobPath data PermFile);;
    mret blobID.
End Blobs.
