(* ===== verification/BlobsSpec.v ===== *)
(** * The files of large values keep what the storage keeps

    The files simulate the map of the storage: the value that a number has is
    in the file of the number, whatever is written, read and deleted, and
    whatever fails. *)

From S2P Require Import Prelude GoLib Types PageCache TableFile Crypto Json Wal Storage StorageSpec Functions Eval EngineExamples Keys Url Dsn DsnSpec FileSys FileSysSpec Folders FoldersSpec Blobs.
Local Open Scope Z_scope.

(** ** Paths *)

Definition blob_number (n : Z) : Prop := 0 <= n < 2 ^ 63.

Definition all_digits (s : bytes) : Prop := forallb is_digit s = true.
Lemma all_digits_app a b : all_digits (a ++ b) <-> all_digits a /\ all_digits b.
Proof. unfold all_digits. rewrite forallb_app. apply andb_true_iff. Qed.
Lemma digits_no_slash s : all_digits s -> no_slash s = true.
Proof.
  unfold all_digits, no_slash. induction s as [|c s IH]; cbn; [done|]. rewrite !andb_true_iff. intros [Hc Hs]. split; [|auto].
  unfold is_digit, in_range, is_char in *. apply andb_true_iff in Hc as [Hc _]. apply Z.leb_le in Hc. apply negb_true_iff, Z.eqb_neq. lia.
Qed.
Lemma digits_name s : all_digits s -> s <> [] -> plain_name s.
Proof.
  intros Hs Hn. split; [by apply digits_no_slash|]. unfold special. rewrite (bool_decide_eq_false_2 (s = [])) by done. cbn [orb].
  rewrite !bool_decide_eq_false_2; [done|intros ->; done..].
Qed.

Lemma eight_digits_long n : (8 <= length (eight_digits n))%nat.
Proof. unfold eight_digits. rewrite length_app, length_replicate. lia. Qed.
Lemma eight_digits_only n : 0 <= n -> all_digits (eight_digits n).
Proof.
  intros Hn. unfold eight_digits. apply all_digits_app. split; [|by apply itoa_digits]. unfold all_digits. set (k := (8 - _)%nat). clearbody k.
  induction k; [done|]. cbn. done.
Qed.
Lemma bucket_plain n k : 0 <= n -> (k <= 2)%nat -> plain_name (take 2 (drop k (eight_digits n))).
Proof.
  intros Hn Hk. pose proof (eight_digits_long n) as Hl. pose proof (eight_digits_only n Hn) as Ho. apply digits_name.
  - rewrite <- (take_drop k (eight_digits n)), <- (take_drop 2 (drop k (eight_digits n))) in Ho. by apply all_digits_app in Ho as [_ [Ho _]%all_digits_app].
  - intros He. apply (f_equal length) in He. rewrite length_take, length_drop in He. change (length (@nil byte)) with 0%nat in He. lia.
Qed.
Lemma blob_name_plain n : 0 <= n -> plain_name (blob_name n).
Proof.
  intros Hn. split.
  - unfold blob_name, no_slash. rewrite !forallb_app. pose proof (digits_no_slash _ (itoa_digits n Hn)) as Hd. unfold no_slash in Hd. rewrite Hd. done.
  - unfold special, blob_name. rewrite !bool_decide_eq_false_2; done.
Qed.
Lemma blob_dir_plain : plain_name BlobDirName.
Proof. by vm_compute. Qed.

(** Joining plain names at once, or one after the other. *)
Lemma path_join_names names : forall base, directory base -> Forall plain_name names -> path_join (base :: names) = base ++ concat (map (app slash) names).
Proof.
  intros base Hb Hn. assert (Hbn : base <> []) by (destruct Hb as (Ha & _); by intros ->).
  assert (Hf : List.filter (fun e => negb (bool_decide (e = []))) (base :: names) = base :: names).
  { cbn. rewrite bool_decide_eq_false_2 by done. cbn. f_equal. induction Hn as [|n names [_ Hs] _ IH]; [done|]. cbn.
    rewrite bool_decide_eq_false_2 by (intros ->; done). cbn. by rewrite IH. }
  unfold path_join. rewrite Hf. cbn [join_text].
  assert (Hd : directory (base ++ concat (map (app slash) names))); [|by destruct Hd as (_ & Hc & _)].
  clear Hf Hbn. revert base Hb. induction Hn as [|n names Hp _ IH]; intros base Hb; cbn; [by rewrite app_nil_r|].
  destruct (join_plain base n Hb Hp) as [Hj Hd]. rewrite Hj in Hd. specialize (IH _ Hd). rewrite <- app_assoc in IH. exact IH.
Qed.
Lemma blob_path_text path n : directory path -> 0 <= n ->
  getBlobPath path n = path ++ slash ++ BlobDirName ++ slash ++ take 2 (eight_digits n) ++ slash ++ take 2 (drop 2 (eight_digits n)) ++ slash ++ blob_name n.
Proof.
  intros Hp Hn. unfold getBlobPath. rewrite path_join_names; [|done|].
  - cbn [map concat]. by rewrite app_nil_r, <- !app_assoc.
  - pose proof (bucket_plain n 0 Hn ltac:(lia)) as H1. pose proof (bucket_plain n 2 Hn ltac:(lia)) as H2. rewrite drop_0 in H1.
    repeat constructor; try apply blob_dir_plain; try apply H1; try apply H2; by apply blob_name_plain.
Qed.
(** Different numbers have different files. *)
Lemma blob_path_inj path n m : directory path -> blob_number n -> blob_number m -> getBlobPath path n = getBlobPath path m -> n = m.
Proof.
  intros Hp Hn Hm He. unfold blob_number in *. rewrite !blob_path_text in He by (done || lia).
  apply app_inv_head, app_inv_head, app_inv_head, app_inv_head in He.
  apply app_inj_1 in He as [_ He]; [|pose proof (eight_digits_long n); pose proof (eight_digits_long m); rewrite !length_take; lia].
  apply app_inv_head, app_inj_1 in He as [_ He]; [|pose proof (eight_digits_long n); pose proof (eight_digits_long m); rewrite !length_take, !length_drop; lia].
  apply app_inv_head in He. unfold blob_name in He. apply app_inv_head, app_inv_tail in He.
  apply (f_equal parse_int) in He. rewrite !parse_int_itoa in He by (unfold in_i64; lia). congruence.
Qed.

(** ** The files simulate the map *)

Section Simulation.
Context `{GoRuntime} `{Environment} {W : Type} `{OsFiles W} `{OsDirs W} (contents : W -> bytes -> option bytes) `{!HostLaws W contents}.
(** Removing a file changes no other. *)
Context (remove_only_one : forall p w, ends (os_remove p) w (fun _ w' => only contents p w w')).
Context (path : bytes) (Hpath : directory path).

(** Every value that the storage keeps is in the file of its number; the
    numbers that are still to come are not in use. *)
Record simulates (s : Storage) (b : BlobWorld W) : Prop := {
  sim_next : snextID s = next_blob b;
  sim_enabled : Storage.enabled s = true;
  sim_used : forall n d, blobs s !! n = Some d -> 0 <= n < next_blob b;
  sim_bound : 0 <= next_blob b <= 2 ^ 63;
  sim_kept : forall n d, blobs s !! n = Some d -> contents (host b) (getBlobPath path n) = Some d
}.

Lemma ends_on_host {A} (m : SO W bytes A) b Q : ends m (host b) (fun r w => Q r (mkBlobWorld (next_blob b) w)) -> ends (on_host m) b Q.
Proof. unfold ends, on_host. by destruct (m (host b)). Qed.

(** A world that differs in the file of a number that no value of the map has. *)
Lemma simulates_only s s' b w n : simulates s b -> blob_number n -> only contents (getBlobPath path n) (host b) w ->
  snextID s' = snextID s -> Storage.enabled s' = true -> blobs s' = delete n (blobs s) -> simulates s' (mkBlobWorld (next_blob b) w).
Proof.
  intros [Hn He Hu Hb Hk] Hnum Ho E1 E2 E3. split; cbn; [congruence|done| |done|]; intros k d; rewrite E3, lookup_delete_Some; intros [Hne Hd]; [by eapply Hu|].
  rewrite Ho; [by apply Hk|]. intros Hp. apply Hne. pose proof (Hu _ _ Hd). symmetry. apply (blob_path_inj path); [done|unfold blob_number in *; lia..|done].
Qed.
Lemma simulates_unchanged s b w : simulates s b -> unchanged contents (host b) w -> simulates s (mkBlobWorld (next_blob b) w).
Proof. intros [Hn He Hu Hb Hk] Hw. split; try done. intros k d Hd. cbn. rewrite Hw. by apply Hk. Qed.

(** The storage after a value was written under the next number, and after a
    number was taken for one that could not be written. *)
Definition written (e : option Encryptor) (data : bytes) (s : Storage) : Storage := set_blobs (<[snextID s := store_bytes e (snextID s) data]> (blobs s)) (set_snextID (u64 (snextID s + 1)) s).
Definition skipped (s : Storage) : Storage := set_snextID (u64 (snextID s + 1)) s.
Lemma WriteBlob_written s data : Storage.enabled s = true -> Storage.WriteBlob data s = (Ok (snextID s), written (encryptor s) data s).
Proof. intros He. unfold Storage.WriteBlob. unfold mbind, SO_bind, gets. cbn. by rewrite He. Qed.

Lemma simulates_skipped s b : simulates s b -> next_blob b < 2 ^ 63 -> simulates (skipped s) (mkBlobWorld (u64 (next_blob b + 1)) (host b)).
Proof.
  intros [Hn He Hu Hb Hk] Hlt. rewrite u64_small by (unfold in_u64; lia). split; cbn; [rewrite Hn, u64_small by (unfold in_u64; lia); done|done| |lia|done].
  intros k d Hd. specialize (Hu k d Hd). lia.
Qed.
Lemma next_unused s b : simulates s b -> blobs s !! next_blob b = None.
Proof. intros [_ _ Hu _ _]. destruct (blobs s !! next_blob b) as [d|] eqn:E; [|done]. specialize (Hu _ _ E). lia. Qed.
Lemma simulates_written s b w data : simulates s b -> next_blob b < 2 ^ 63 ->
  only contents (getBlobPath path (next_blob b)) (host b) w -> contents w (getBlobPath path (next_blob b)) = Some (store_bytes (encryptor s) (next_blob b) data) ->
  simulates (written (encryptor s) data s) (mkBlobWorld (u64 (next_blob b + 1)) w).
Proof.
  intros Hs Hlt Ho Hd. pose proof Hs as [Hn He Hu Hb Hk]. rewrite u64_small by (unfold in_u64; lia).
  split; cbn; [rewrite Hn, u64_small by (unfold in_u64; lia); done|done| |lia|]; rewrite Hn; intros k d [[<- <-]|[Hne Hk']]%lookup_insert_Some.
  - lia.
  - specialize (Hu _ _ Hk'). lia.
  - exact Hd.
  - pose proof (Hu _ _ Hk'). rewrite Ho; [by apply Hk|]. intros Hp. apply Hne. symmetry. apply (blob_path_inj path); [done|unfold blob_number; lia..|done].
Qed.

Lemma write_blob_simulates s b data : simulates s b -> next_blob b < 2 ^ 63 ->
  ends (WriteBlob path true (encryptor s) data) b (fun r b' => match r with
    | Ok n => exists s', Storage.WriteBlob data s = (Ok n, s') /\ simulates s' b'
    | _ => simulates (skipped s) b'
    end).
Proof.
  intros Hs Hlt. pose proof Hs as [Hn He _ Hb _]. unfold WriteBlob. cbn [negb]. unfold take_number. apply ends_bind.
  unfold ends at 1. cbn [fst snd mbind SO_bind gets modify mret SO_ret]. set (n := next_blob b) in *. set (b0 := mkBlobWorld (u64 (n + 1)) (host b)).
  assert (Hbad : forall w, only contents (getBlobPath path n) (host b) w -> simulates (skipped s) (mkBlobWorld (u64 (n + 1)) w)).
  { intros w Ho. pose proof (simulates_skipped s b Hs Hlt) as Hk. apply (simulates_only _ _ _ w n Hk); [unfold blob_number; lia|exact Ho|done|done|].
    cbn. symmetry. apply delete_id. exact (next_unused s b Hs). }
  apply ends_bind, ends_on_host. eapply ends_weaken; [apply mkdir_quiet|]. intros [[]|x| |] w1 Hu; cbn [failed_as]; try (apply Hbad; intros q _; by apply Hu).
  apply ends_bind, ends_on_host. eapply ends_weaken; [apply write_only|]. cbn [host next_blob b0]. intros r w2 [Ho Hd].
  assert (Ho2 : only contents (getBlobPath path n) (host b) w2) by (intros q Hq; rewrite Ho by done; apply Hu).
  destruct r as [[]|x| |]; cbn [failed_as]; try by apply Hbad. exists (written (encryptor s) data s).
  rewrite WriteBlob_written by done. split; [by rewrite Hn|]. apply simulates_written; auto.
Qed.

(** A number has a value: it is in the map as it is stored under the encryption
    in use. An empty value cannot be encrypted. *)
Definition holds (s : Storage) (n : Z) (data : bytes) : Prop :=
  blobs s !! n = Some (store_bytes (encryptor s) n data) /\ (encryptor s = None \/ data <> []).
Lemma holds_written s b data : simulates s b -> encryptor s = None \/ data <> [] -> holds (written (encryptor s) data s) (next_blob b) data.
Proof. intros Hs Hd. split; [|done]. cbn. rewrite (sim_next _ _ Hs). apply lookup_insert_eq. Qed.
Lemma holds_other s b data k d : simulates s b -> holds s k d -> holds (written (encryptor s) data s) k d.
Proof.
  intros Hs [Hk Hd]. split; [|done]. cbn. rewrite (sim_next _ _ Hs), lookup_insert_ne; [done|]. intros <-.
  by rewrite (next_unused _ _ Hs) in Hk.
Qed.
Lemma load_store e n data : e = None \/ data <> [] -> load_bytes e (store_bytes e n data) = data.
Proof.
  unfold load_bytes, store_bytes, Decrypt, Encrypt. destruct e as [e|]; [|done]. intros [|Hd]; [done|].
  pose proof (decrypt_encrypt_ok (rand_at n) data (code e) Hd) as Hback. destruct data as [|c data]; [done|].
  change (Some (default [] (EncryptData (rand_at n) (Some (c :: data)) (code e)))) with (EncryptData (rand_at n) (Some (c :: data)) (code e)).
  by rewrite Hback.
Qed.

(** C28: the files of large values simulate the storage's map of them. Writing
    a value that ends with a number does what writing it to the map does: the
    number has the value, and the others keep theirs; where it fails, whatever
    it did, only a number is lost. Reading a number of the map that ends with
    bytes gives what the map gives, which is the value that was written,
    encrypted or not (an empty value only where there is no encryption), and
    changes nothing. Deleting a number, also where it fails, leaves every
    other value. The database is on this host, in a clean absolute directory,
    and its numbers are below 2^63. *)
Theorem blob_files_simulate (s : Storage) (b : BlobWorld W) : simulates s b ->
  (forall data, next_blob b < 2 ^ 63 -> ends (WriteBlob path true (encryptor s) data) b (fun r b' => match r with
     | Ok n => exists s', Storage.WriteBlob data s = (Ok n, s') /\ simulates s' b' /\
                 (encryptor s = None \/ data <> [] -> holds s' n data) /\ forall k d, holds s k d -> holds s' k d
     | _ => simulates (skipped s) b'
     end)) /\
  (forall n raw, blobs s !! n = Some raw -> ends (ReadBlob path true (encryptor s) n) b (fun r b' =>
     simulates s b' /\ forall d, r = Ok d -> Storage.ReadBlob n s = (Ok d, s) /\ forall data, holds s n data -> d = data)) /\
  (forall n, blob_number n -> ends (DeleteBlob path true n) b (fun _ b' => simulates (Storage.DeleteBlob n s).2 b' /\
     forall k d, k <> n -> holds s k d -> holds (Storage.DeleteBlob n s).2 k d)).
Proof.
  intros Hs. pose proof Hs as [Hn He Hu _ Hk]. split_and!.
  - intros data Hlt. eapply ends_weaken; [by apply write_blob_simulates|]. intros [n|x| |] b'; [|done..].
    intros (s' & Hw & Hs'). exists s'. rewrite WriteBlob_written in Hw by done. injection Hw as <- <-.
    rewrite WriteBlob_written by done. split_and!; [done|done| |].
    + rewrite Hn. by apply holds_written.
    + intros k d. by eapply holds_other.
  - intros n raw Hr. unfold ReadBlob. cbn [negb]. apply ends_bind, ends_on_host. eapply ends_weaken; [apply read_quiet|].
    intros r w [Hq Hd]. destruct r as [d|x| |]; cbn [failed_as]; (split; [by apply simulates_unchanged|]); try done. cbn. intros d' [= <-].
    specialize (Hd d eq_refl). rewrite (Hk _ _ Hr) in Hd. injection Hd as <-. split.
    + unfold Storage.ReadBlob, read_blob, mbind, SO_bind, gets. cbn. by rewrite He, Hr.
    + intros data [Hh Hd]. rewrite Hr in Hh. injection Hh as ->. by apply load_store.
  - intros n Hnum. unfold DeleteBlob. cbn [negb]. apply ends_on_host. eapply ends_weaken; [apply remove_only_one|]. intros r w Ho.
    unfold Storage.DeleteBlob, holds, mbind, SO_bind, gets. cbn. rewrite He. destruct (blobs s !! n) as [raw|] eqn:E; cbn; split.
    + by apply (simulates_only s _ b w n).
    + intros k d Hne. by rewrite lookup_delete_ne.
    + apply (simulates_only s _ b w n); try done. symmetry. by apply delete_id.
    + done.
Qed.
End Simulation.

(** ** On a disk *)

#[local] Existing Instance disk_os.
#[local] Existing Instance disk_dirs.
Definition secret : option Encryptor := Some (NewEncryptor (str "pw") None).
Definition kept_value : bytes := store_bytes secret 5 (str "old picture").
(** A database with one large value. *)
Definition album : Storage := set_blobs {[ 5 := kept_value ]} (Keys.set_encryptor secret (set_snextID 6 (NewStorage true 0))).
Definition album_world : BlobWorld Disk := mkBlobWorld 6 (mkDisk {[ str "/db/blobs/00/00/blob_5.bin" := kept_value ]} [] 0).

Lemma album_simulates : simulates disk_contents (str "/db") album album_world.
Proof.
  split; [done|done| |cbn; lia|].
  - intros n d Hd. change (({[ 5 := kept_value ]} : gmap Z bytes) !! n = Some d) in Hd. apply lookup_singleton_Some in Hd as [<- _]. cbn. lia.
  - intros n d Hd. change (({[ 5 := kept_value ]} : gmap Z bytes) !! n = Some d) in Hd. apply lookup_singleton_Some in Hd as [<- <-]. vm_compute. reflexivity.
Qed.
Lemma db_directory : directory (str "/db"). Proof. by vm_compute. Qed.
Lemma disk_removes p (w : Disk) : ends (os_remove p) w (fun _ w' => only disk_contents p w w').
Proof. apply disk_remove_only. Qed.

Lemma blob_files_simulate_witness :
  (ReadBlob (str "/db") true secret 5 album_world).1 = Ok (str "old picture") /\ Storage.ReadBlob 5 album = (Ok (str "old picture"), album) /\
  exists s', Storage.WriteBlob (str "new") album = (Ok 6, s') /\ simulates disk_contents (str "/db") s' (WriteBlob (str "/db") true secret (str "new") album_world).2.
Proof.
  pose proof disk_host_laws as Hhost.
  destruct (blob_files_simulate disk_contents disk_removes (str "/db") db_directory album album_world album_simulates) as (Hw & Hr & _).
  assert (Hd : (ReadBlob (str "/db") true secret 5 album_world).1 = Ok (str "old picture")) by (vm_compute; reflexivity).
  split; [exact Hd|split].
  - exact (proj1 (proj2 (Hr 5 kept_value (lookup_singleton_eq 5 kept_value)) _ Hd)).
  - assert (Hn : (WriteBlob (str "/db") true secret (str "new") album_world).1 = Ok 6) by (vm_compute; reflexivity).
    pose proof (Hw (str "new") ltac:(cbn; lia)) as Hs. unfold ends in Hs. change (encryptor album) with secret in Hs. rewrite Hn in Hs.
    destruct Hs as (s' & Hw' & Hs' & _). exact (ex_intro _ s' (conj Hw' Hs')).
Defined.

(** What a writer writes into an encrypted database is not encrypted, and a
    reader does not decrypt. *)
Example writer_not_encrypted : (Writer_all (str "/db") true (str "secret") album_world).1 = Ok 6 /\
  disk_contents (host (Writer_all (str "/db") true (str "secret") album_world).2) (str "/db/blobs/00/00/blob_6.bin") = Some (str "secret").
Proof. split; vm_compute; reflexivity. Qed.
Example reader_not_decrypted : (Reader_all (str "/db") true 5 album_world).1 = Ok kept_value /\ bytes_eqb kept_value (str "old picture") = false.
Proof. split; vm_compute; reflexivity. Qed.
(** The directories are made of the first four of eight digits: numbers below
    ten thousand share one. *)
Example one_directory : map (fun n => path_dir (getBlobPath (str "/db") n)) [1; 9999] = [str "/db/blobs/00/00"; str "/db/blobs/00/00"].
Proof. vm_compute. reflexivity. Qed.
