(* ===== verification/Logger.v ===== *)
(** * The logger (logger/logger.go)

    Levels and their names, and what a message adds to the output. The time is
    that of the clock, a message is formatted before. *)

From S2P Require Import Prelude GoLib Types.
Local Open Scope Z_scope.

Definition Level : Type := Z.
Definition DEBUG : Level := 0.
Definition INFO : Level := 1.
Definition WARN : Level := 2.
Definition ERROR : Level := 3.

Definition Level_String (l : Level) : bytes :=
  if l =? DEBUG then str "DEBUG" else if l =? INFO then str "INFO" else if l =? WARN then str "WARN" else if l =? ERROR then str "ERROR" else str "UNKNOWN".
Definition is_name (names : list string) (s : bytes) : bool := existsb (fun n => bytes_eqb s (str n)) names.
Definition ParseLevel (s : bytes) : Level :=
  if is_name ["DEBUG"; "debug"]%string s then DEBUG
  else if is_name ["INFO"; "info"]%string s then INFO
  else if is_name ["WARN"; "warn"; "WARNING"; "warning"]%string s then WARN
  else if is_name ["ERROR"; "error"]%string s then ERROR
  else INFO.

Record Logger := mkLogger { level : Level; prefix : bytes; showTime : bool; written : list bytes }.
Definition NewLogger (l : Level) : Logger := mkLogger l [] true [].
Definition SetLevel (l : Level) (x : Logger) : Logger := mkLogger l (prefix x) (showTime x) (written x).
Definition SetLevelFromString (s : bytes) : Logger -> Logger := SetLevel (ParseLevel s).
Definition SetPrefix (p : bytes) (x : Logger) : Logger := mkLogger (level x) p (showTime x) (written x).
(** Another output has nothing in it yet. *)
Definition SetWriter (x : Logger) : Logger := mkLogger (level x) (prefix x) (showTime x) [].

(** [time] is the text of the clock. *)
Definition log (l : Level) (time message : bytes) (x : Logger) : Logger :=
  if l <? level x then x
  else
    let timestamp := if showTime x then time ++ str " " else [] in
    let p := match prefix x with [] => [] | p => str "[" ++ p ++ str "] " end in
    mkLogger (level x) (prefix x) (showTime x) (written x ++ [timestamp ++ p ++ str "[" ++ Level_String l ++ str "] " ++ message]).
Definition Debug_ : bytes -> bytes -> Logger -> Logger := log DEBUG.
Definition Info_ : bytes -> bytes -> Logger -> Logger := log INFO.
Definition Warn_ : bytes -> bytes -> Logger -> Logger := log WARN.
Definition Error_ : bytes -> bytes -> Logger -> Logger := log ERROR.

(** The name of a level is read as that level. *)
Lemma level_read_back l : DEBUG <= l <= ERROR -> ParseLevel (Level_String l) = l.
Proof. unfold DEBUG, ERROR. intros Hl. assert (l = 0 \/ l = 1 \/ l = 2 \/ l = 3) as [->|[->|[->| ->]]] by lia; reflexivity. Qed.
(** Messages are written from the level on, one line each, and nothing that
    was written is lost. *)
Lemma log_written l time message x : exists lines, written (log l time message x) = written x ++ lines /\ length lines = (if l <? level x then 0%nat else 1%nat).
Proof. unfold log. destruct (l <? level x); [exists []; by rewrite app_nil_r|]. cbn zeta. by eexists [_]. Qed.
(** A statement whose level has no name sets the level INFO: NULL among them. *)
Example null_level : ParseLevel (str "NULL") = INFO. Proof. reflexivity. Qed.
